(* ===== verification/_CoqProject ===== *)
-Q . S2P
Prelude.v
Uniswap.v
Ray.v
MatchMath.v
LeaderSelection.v
Orders.v
Donation.v
PoolSwap.v
Book.v
DeltaMatcher.v
Assets.v
Accounts.v
StateFetch.v
OrderPool.v
BlockSync.v
OrderTracker.v
OrderIndexer.v
Chain.v
ConsensusMessages.v
Rounds.v
NetMessages.v
ConsensusManager.v
BundleOrders.v
Bundle.v
PoolStore.v
EthManager.v
TokenPricing.v
Validation.v
UniPool.v
TickSync.v
PoolManager.v
Session.v
Network.v
OrderPoolManager.v
Debt.v
PoolSnapshot.v
PoolPriceVec.v
VolumeMatcher.v
MatchingManager.v
Submission.v
RpcOrders.v
OrderTools.v
CounterMatcher.v
BundleLander.v
