(* ===== verification/Prelude.v ===== *)
(** * A verification of the Angstrom node

    Angstrom is a decentralized exchange whose validators agree, block by
    block, on one batch of trades per Uniswap pool.  Users sign limit orders
    and searchers sign top-of-block orders; a node validates them against the
    user's funds, gossips them, a leader is chosen for the block, the matching
    engine finds one uniform clearing price per pool, and the result is encoded
    as a bundle for the Angstrom contract.  This development models the Rust
    crates under src/angstrom-main/crates that decide these things, with the
    bots and builders of bin/ and testing-tools/ that trade through them, and
    proves what makes them correct.  Paths below are relative to
    src/angstrom-main/crates unless they start with bin/, contracts/ or
    testing-tools/.

    ** The program and its models

    Numbers and orders:
    - [Prelude] (this file): machine integers with their overflow behaviour,
      the result monad [M] (a value, an error, a panic), rounding division,
      list sums and sorting, the tactics and hints of the development.
    - [Uniswap]: data types of types/src/matching/uniswap/mod.rs and the
      interface [UniswapMath] to the crate uniswap_v3_math.
    - [Ray]: the 27-digit fixed-point prices of types/src/sol_bindings/ray.rs
      and the square-root prices of types/src/matching/sqrtprice.rs.
    - [MatchMath]: types/src/matching/math/mod.rs: splitting an order between
      fee, gas and fill, same-price AMM movements.
    - [Orders]: the signed order types and the trait RawPoolOrder with its
      implementations (types/src/sol_bindings), order hashes and signatures,
      validation priority, and the records of types/src/orders.

    Validation and storage of orders:
    - [StateFetch]: validation/src/order/state/db_state_utils and config.rs:
      nonces, balances and approvals read from contract storage.
    - [Accounts]: validation/src/order/state/account: pending actions per user,
      known balances and approvals, [verify_order].
    - [TokenPricing]: average pool prices and the gas an order is charged.
    - [Validation]: the validators in front of the account state, the validator
      task and the thread pool that runs a user's validations.
    - [OrderPool]: order-pool/src (limit, searcher, finalization_pool,
      order_storage): pending, parked and filled orders.
    - [OrderTracker], [OrderIndexer]: the orders known by hash, the waiting
      subscribers, the validation queue and the indexer that drives them.
    - [OrderPoolManager]: angstrom-net/src/pool_manager.rs and cache.rs: the
      task that owns the indexer, talks to peers and signs off blocks.
    - [RpcOrders]: rpc/src: the order calls and the order subscription.

    Pools and matching:
    - [PoolSwap]: types/src/uni_structure: ticks, the swap loop, reward
      donations along a swap.  [Donation]: merging donations and encoding them
      as reward updates.
    - [UniPool], [TickSync], [PoolManager]: uniswap-v4/src: the node's copy of a
      pool, its loading from the chain (with the loader contract as the
      reference), and the set of pools brought to every block.
    - [Book], [DeltaMatcher]: matching-engine/src/book, matcher/delta.rs and
      strategy/binary_search.rs: the search for the clearing price and the
      outcome of every order.
    - [MatchingManager]: matching-engine/src/manager.rs, the task that solves
      all pools, and validation/src/bundle, which simulates the bundle.
    - [Debt], [PoolSnapshot], [PoolPriceVec], [VolumeMatcher]: the older pool
      snapshots and matcher (types/src/matching, matching-engine/src/matcher/
      volume.rs).

    The bundle:
    - [Assets]: types/src/contract_payloads/asset: what the bundle takes from
      Uniswap, settles and saves, token by token.
    - [BundleOrders], [Bundle]: the contract form of orders and the construction
      of a bundle from solutions.  [PoolStore]: the copy of the contract's pool
      configuration, with the contract's own code as the reference.
    - [Submission]: types/src/submission: handing the bundle to the chain.

    Consensus, chain and network:
    - [BlockSync]: types/src/block_sync.rs: the modules' agreement on the block.
      [Chain], [EthManager]: chain segments and eth/src/manager.rs, the task that
      hears of blocks first.
    - [LeaderSelection], [ConsensusMessages], [Rounds], [ConsensusManager]:
      consensus/src and types/src/consensus: the weighted round robin, the
      signed messages, the states of a round and the task around them.
    - [NetMessages], [Session], [Network]: angstrom-net/src: the wire format,
      the task of one peer, and the swarm with its reputation and routing.

    Around the node:
    - [OrderTools], [BundleLander]: the builders of orders
      (testing-tools/src/type_generator/orders), flipped orders, hook flags,
      and the bots that make orders from a pool (bin/sepolia-bundle-lander,
      testing-tools/src/order_generator).
    - [CounterMatcher]: bin/counter-matcher, the bot that answers user orders.

    ** How the parts interact

    A chain head reaches [EthManager], which opens a proposal of [BlockSync] and
    passes the notification on; [PoolManager], [OrderPoolManager] and
    [ConsensusManager] follow it and sign the block off.  An order enters
    through [RpcOrders] or [Network] into [OrderPoolManager], whose
    [OrderIndexer] has it checked by [Validation] (over [Accounts],
    [TokenPricing] and [StateFetch]) and keeps it in [OrderPool]; what
    validation returns is proved to be what the storage relies on.  [Rounds]
    collects the orders of a quorum and asks [MatchingManager], which runs
    [DeltaMatcher] on a [Book] and a [PoolSwap] snapshot of each [UniPool];
    [Bundle] turns the solutions into a payload with [Assets] and [Donation],
    and [Submission] sends it.  A landed bundle is read back by [EthManager]
    with [BundleOrders].

    Interfaces between parts are classes: [RoundEnv] is what the rounds use of
    matching (implemented by [MatchingManager]), [StateFetchUtils] what the
    accounts use of the chain, [RawPoolOrder] the trait of all order types.

    ** What the theorems show

    - Matching: the price search terminates within its fuel; a clearing price
      lies inside the book's interval; every executed order accepts the price
      and every partial order is filled within its bounds (exact orders at the
      clearing price can be filled beyond their amount); partial fills balance
      the batch exactly in T1.  Every pool is solved once, and without ties the
      proposal does not depend on hash tables or task scheduling.
    - Pools: a swap moves the price one way, stops at its limit, takes no more
      than offered, and terminates; the two swap simulators agree; the node's
      pools are well formed, follow the registry and hold the chain's ticks;
      donations lose nothing.
    - Accounts and validation: validation tasks interleave at every access to
      the accounts; in every such run pending actions stay sorted, with at most
      as many of a nonce as a user has permits, and without overflow checks no
      access panics; users do not disturb each other; an order that is validated undisturbed is funded,
      signed and priced; the nonce check agrees with the contract.
    - Storage: orders are stored under their hash in their pool; every
      subscriber is answered once; block transitions end.
    - Bundle: recording stage by stage equals one pass in contract order;
      rewards are covered and paid exactly; a bundle that lands in the tip block reports
      the executed orders; an order read back has its digest, signer and hash; one
      transaction is sent to every client.
    - Consensus: leader selection conserves priority and nodes agree on the
      leader; a round keeps only valid messages, reaches its proposal with the
      matching run over all it received, and panics exactly when the matching
      engine or the bundle encoder does; block synchronization, its calls
      interleaved lock by lock, refines a queue of proposals.
    - Network: only authenticated validators' messages are
      delivered; an order is sent to a peer once.
    - Numbers: conversions between amounts, prices and square-root prices are
      adjoint or monotone with the stated rounding.
    - Bots: the counter matcher never promises more than its wallets have held; the
      bundle lander's orders pay for their swap.
    - Several theorems state where the code departs from its comments or from
      what it means to do (dropped searcher orders, empty blocks that never
      land, tied orders, deep reorganizations, refused cancellations and
      others).

    ** Conventions

    A machine integer is a [Z] with its range; native integers and alloy's I256
    panic or wrap on overflow depending on the build profile, so the profile is
    a parameter ([Profile]) and the theorems hold for both.  ruint's U256
    wraps; its conversions panic out of range; malachite's naturals are exact.
    A double is computed exactly where the code multiplies an amount by one
    ([rne53] of Bundle.v).  Addresses and hashes are [Z], byte strings lists of
    [Z], hash maps [gmap]s; where iteration order could matter the model fixes a
    list or the theorem quantifies over it ([Schedule]).  Tasks are state
    machines: what the runtime decides (timers, readiness, order of completion)
    is an input, and what a task sends is part of its state or result.

    Loops that are not structural carry fuel; the termination theorems show
    that it suffices.  A swap crosses at most the 2 * 887272 + 3 ticks of the
    tick range ([swap_fuel]); the price search makes at most 257 halvings of a
    256-bit interval between two kills of one of the book's orders
    ([search_fuel]); a walk over a snapshot takes one iteration per range and
    two more ([walk_fuel]); a poll of the swarm one per session and queued message
    ([swarm_fuel]).

    Code outside the repository is a parameter: uniswap_v3_math ([UniswapMath]
    with [UniswapBounds], [SwapLaws], [ZeroFeeLaw]; [SqrtPriceMath];
    [TickBitmap]), Keccak and ECDSA ([OrderCrypto], [Keccak], [SigningKey],
    [OrderSigning], [AlloySignature]), generated and library encodings
    ([SolStruct], [Bincode], [WireCodec], [AttestationCodec], [BundleAbi],
    [TxCodec]), the chain and its nodes ([EvmDb], [EvmReplay], [ChainCalls],
    [ChainDecoders], [PoolEvents], [Endpoints]) and library containers
    ([LinkedHashSet], [LibBit]).  Each class of laws has a concrete instance, at
    which the theorems are evaluated.

    ** Not modelled

    Start-up wiring and command lines (bin/angstrom and the other binaries),
    test networks and their controllers, wakers and the fairness of the async
    runtime, tracing and metrics, JSON and database encodings, the forwarding
    subscriptions of the RPC server (quotes, consensus state), HTTP transport,
    the EVM itself and the storage overrides used on test networks, the
    floating-point price helpers and the sigmoid of the wait estimate (an
    argument), the generic pipeline of utils, which no code uses, and the
    Solidity contracts except where they are the reference of a theorem. *)

From stdpp Require Export base numbers list gmap strings tactics sorting.
From Stdlib Require Export ZArith Lia.

Open Scope Z_scope.

(** ** Machine integers

    Rust integers of width [w] are kept as [Z] together with the range
    predicates below; every place where the source can wrap, saturate or
    panic uses one of the operations of this file. *)

Definition u_max (w : Z) : Z := 2 ^ w - 1.
Definition fits_u (w x : Z) : bool := (0 <=? x) && (x <=? u_max w).
Definition wrap_u (w x : Z) : Z := x mod 2 ^ w.

Definition i_min (w : Z) : Z := - 2 ^ (w - 1).
Definition i_max (w : Z) : Z := 2 ^ (w - 1) - 1.
Definition fits_i (w x : Z) : bool := (i_min w <=? x) && (x <=? i_max w).
Definition wrap_i (w x : Z) : Z := (x + 2 ^ (w - 1)) mod 2 ^ w - 2 ^ (w - 1).


#[global] Arguments u_max : simpl never.
#[global] Arguments fits_u : simpl never.
#[global] Arguments wrap_u : simpl never.
#[global] Arguments i_min : simpl never.
#[global] Arguments i_max : simpl never.
#[global] Arguments fits_i : simpl never.
#[global] Arguments wrap_i : simpl never.

(** ** Computations

    [M A] is what a Rust call can do: return a value, return an [eyre] error
    (kept as its message) or panic. *)

Inductive M (A : Type) : Type :=
| Ok (a : A)
| Err (msg : string)
| Panic.
Arguments Ok {A} a.
Arguments Err {A} msg.
Arguments Panic {A}.

Definition M_bind {A B} (f : A -> M B) (m : M A) : M B :=
  match m with Ok a => f a | Err e => Err e | Panic => Panic end.

#[export] Instance M_ret_inst : MRet M := @Ok.
#[export] Instance M_bind_inst : MBind M := @M_bind.
#[export] Instance M_fmap_inst : FMap M := fun A B f m => M_bind (fun a => Ok (f a)) m.

Declare Scope angstrom_scope.
Delimit Scope angstrom_scope with angstrom.
Notation "'let*' x := m 'in' k" := (M_bind (fun x => k) m)
  (at level 10, x pattern, m at level 100, k at level 200)
  : angstrom_scope.
Open Scope angstrom_scope.

(** [Option::unwrap]/[expect] and [ok_or_else]. *)
Definition unwrap {A} (o : option A) : M A :=
  match o with Some a => Ok a | None => Panic end.
Definition ok_or {A} (o : option A) (e : string) : M A :=
  match o with Some a => Ok a | None => Err e end.

(** A fallible call whose error is turned into a panic ([Result::unwrap]). *)
Definition expect_ok {A} (m : M A) : M A :=
  match m with Ok a => Ok a | _ => Panic end.

Lemma M_bind_Ok {A B} (m : M A) (f : A -> M B) b :
  M_bind f m = Ok b <-> exists a, m = Ok a /\ f a = Ok b.
Proof. split; [destruct m; naive_solver | intros (a & -> & ?); done]. Qed.

Lemma M_bind_assoc {A B C} (m : M A) (f : A -> M B) (g : B -> M C) :
  M_bind g (M_bind f m) = M_bind (fun a => M_bind g (f a)) m.
Proof. by destruct m. Qed.

(** Splits every [M_bind] hypothesis that returned. *)
Ltac m_inv :=
  repeat match goal with
  | H : M_bind _ _ = Ok _ |- _ =>
      apply M_bind_Ok in H as (? & ? & ?)
  | H : Ok _ = Ok _ |- _ => injection H as H; subst
  | H : Err _ = Ok _ |- _ => discriminate H
  | H : Panic = Ok _ |- _ => discriminate H
  end.

(** Loops over a Rust iterator whose body can fail. *)
Fixpoint M_fold {A S} (f : S -> A -> M S) (s : S) (l : list A) : M S :=
  match l with
  | [] => Ok s
  | x :: l => let* s' := f s x in M_fold f s' l
  end.

Fixpoint M_map {A B} (f : A -> M B) (l : list A) : M (list B) :=
  match l with
  | [] => Ok []
  | x :: l => let* y := f x in let* ys := M_map f l in Ok (y :: ys)
  end.

Fixpoint M_filter {A} (f : A -> M bool) (l : list A) : M (list A) :=
  match l with
  | [] => Ok []
  | x :: l => let* b := f x in let* r := M_filter f l in Ok (if (b : bool) then x :: r else r)
  end.

(** ** Build profile

    Native integer arithmetic and [alloy]'s signed [I256] panic on overflow
    when overflow checks (debug assertions) are on, and wrap otherwise.  The
    [release] profile of Cargo.toml leaves them off, the [dev] profile has
    them on, so the choice is a parameter of the development. *)

Class Profile := overflow_checks : bool.
Definition release : Profile := false.
Definition dev : Profile := true.

Section Checked.
Context {P : Profile}.

Definition checked_u (w x : Z) : M Z :=
  if fits_u w x then Ok x else if overflow_checks then Panic else Ok (wrap_u w x).
Definition checked_i (w x : Z) : M Z :=
  if fits_i w x then Ok x else if overflow_checks then Panic else Ok (wrap_i w x).

Definition u128_add (x y : Z) : M Z := checked_u 128 (x + y).
Definition u128_sub (x y : Z) : M Z := checked_u 128 (x - y).
Definition i256_add (x y : Z) : M Z := checked_i 256 (x + y).
Definition i256_sub (x y : Z) : M Z := checked_i 256 (x - y).
Definition i256_mul (x y : Z) : M Z := checked_i 256 (x * y).

End Checked.

#[global] Arguments checked_u : simpl never.
#[global] Arguments checked_i : simpl never.
#[global] Arguments u128_add : simpl never.
#[global] Arguments u128_sub : simpl never.
#[global] Arguments i256_add : simpl never.
#[global] Arguments i256_sub : simpl never.
#[global] Arguments i256_mul : simpl never.

(** [saturating_sub], [checked_sub] and [SaturatingFrom] on unsigned values. *)
Definition saturating_sub (x y : Z) : Z := Z.max 0 (x - y).
Definition saturating_add (w x y : Z) : Z := Z.min (u_max w) (x + y).
Definition checked_sub (x y : Z) : option Z := if y <=? x then Some (x - y) else None.
Definition saturate_u (w x : Z) : Z := Z.min (u_max w) x.

(** [I256::saturating_neg]. *)
Definition i256_saturating_neg (x : Z) : Z := if x =? i_min 256 then i_max 256 else - x.

(** [ruint]: [+] and [-] on [Uint<BITS, _>] wrap; [from_limbs_slice], [to]
    and [from] panic on a value that does not fit. *)
Definition uint_add (w x y : Z) : Z := wrap_u w (x + y).
Definition uint_sub (w x y : Z) : Z := wrap_u w (x - y).
Definition uint_mul (w x y : Z) : Z := wrap_u w (x * y).
Definition uint_from (w x : Z) : M Z := if fits_u w x then Ok x else Panic.

(** ** Exact arithmetic ([malachite])

    [div_round] on naturals, with the two rounding modes the pricing code
    uses; a zero divisor panics. *)

Inductive RoundingMode := Floor | Ceiling.

Definition div_floor (a b : Z) : Z := a / b.
Definition div_ceil (a b : Z) : Z := (a + b - 1) / b.

#[global] Arguments div_floor : simpl never.
#[global] Arguments div_ceil : simpl never.

Definition div_round (a b : Z) (rm : RoundingMode) : M Z :=
  if b =? 0 then Panic
  else Ok (match rm with Floor => div_floor a b | Ceiling => div_ceil a b end).

(** [ceiling_root(2)]: the least integer whose square reaches the argument. *)
Definition ceil_sqrt (a : Z) : Z :=
  let s := Z.sqrt a in if s * s =? a then s else s + 1.

Lemma div_floor_le a b x : 0 < b -> x <= div_floor a b <-> x * b <= a.
Proof.
  intros Hb. unfold div_floor. split; intros H.
  - pose proof (Z.mul_div_le a b Hb). nia.
  - apply Z.div_le_lower_bound; lia.
Qed.

Lemma div_ceil_le a b x : 0 < b -> div_ceil a b <= x <-> a <= x * b.
Proof.
  intros Hb. unfold div_ceil. split; intros H.
  - pose proof (Z.div_mod (a + b - 1) b ltac:(lia)) as E.
    pose proof (Z.mod_pos_bound (a + b - 1) b Hb). nia.
  - assert ((a + b - 1) / b < x + 1) by (apply Z.div_lt_upper_bound; lia). lia.
Qed.

Lemma div_floor_ceil a b : 0 < b -> div_floor a b <= div_ceil a b <= div_floor a b + 1.
Proof.
  intros Hb. unfold div_floor, div_ceil. split.
  - apply Z.div_le_mono; lia.
  - replace (a / b + 1) with ((a + 1 * b) / b) by (rewrite Z.div_add; lia).
    apply Z.div_le_mono; lia.
Qed.

Lemma div_ceil_exact a b : 0 < b -> div_ceil (a * b) b = a.
Proof.
  intros Hb. apply Z.le_antisymm.
  - apply div_ceil_le; lia.
  - pose proof (div_ceil_le (a * b) b (a - 1) Hb). lia.
Qed.

Lemma div_floor_exact a b : 0 < b -> div_floor (a * b) b = a.
Proof. intros. unfold div_floor. apply Z.div_mul. lia. Qed.

Lemma div_floor_nonneg a b : 0 <= a -> 0 < b -> 0 <= div_floor a b.
Proof. intros. apply Z.div_pos; lia. Qed.

Lemma div_ceil_nonneg a b : 0 <= a -> 0 < b -> 0 <= div_ceil a b.
Proof. intros. apply Z.div_pos; lia. Qed.

Lemma div_round_Ok a b rm :
  b <> 0 ->
  div_round a b rm = Ok (match rm with Floor => div_floor a b | Ceiling => div_ceil a b end).
Proof. intros. unfold div_round. by rewrite (proj2 (Z.eqb_neq b 0)). Qed.

Lemma ceil_sqrt_le a x : 0 <= a -> 0 <= x -> ceil_sqrt a <= x <-> a <= x * x.
Proof.
  intros Ha Hx. unfold ceil_sqrt.
  pose proof (Z.sqrt_spec a Ha) as [Hlo Hhi]. pose proof (Z.sqrt_nonneg a).
  destruct (Z.eqb_spec (Z.sqrt a * Z.sqrt a) a); split; intros; nia.
Qed.

Lemma ceil_sqrt_nonneg a : 0 <= ceil_sqrt a.
Proof. unfold ceil_sqrt. pose proof (Z.sqrt_nonneg a). destruct (_ =? _); lia. Qed.

Lemma fits_u_true w x : fits_u w x = true <-> 0 <= x <= u_max w.
Proof. unfold fits_u. rewrite andb_true_iff, !Z.leb_le. done. Qed.

Lemma uint_from_Ok w x y : uint_from w x = Ok y <-> y = x /\ 0 <= x <= u_max w.
Proof.
  unfold uint_from. destruct (fits_u w x) eqn:E.
  - apply fits_u_true in E. naive_solver.
  - split; [done |]. intros [-> H]. apply fits_u_true in H. congruence.
Qed.

Lemma fits_i_true w x : fits_i w x = true <-> i_min w <= x <= i_max w.
Proof. unfold fits_i. rewrite andb_true_iff, !Z.leb_le. done. Qed.

Lemma checked_u_Ok {P : Profile} w x : 0 <= x <= u_max w -> checked_u w x = Ok x.
Proof. intros H. unfold checked_u. by rewrite (proj2 (fits_u_true w x)). Qed.

Lemma checked_i_Ok {P : Profile} w x : i_min w <= x <= i_max w -> checked_i w x = Ok x.
Proof. intros H. unfold checked_i. by rewrite (proj2 (fits_i_true w x)). Qed.

Lemma checked_u_range {P : Profile} w x y : 0 <= w -> checked_u w x = Ok y -> 0 <= y <= u_max w.
Proof.
  intros Hw. unfold checked_u. destruct (fits_u w x) eqn:E.
  - intros [= <-]. by apply fits_u_true.
  - destruct overflow_checks; [done |]. intros [= <-]. unfold wrap_u, u_max.
    pose proof (Z.mod_pos_bound x (2 ^ w)). pose proof (Z.pow_pos_nonneg 2 w). lia.
Qed.

Lemma wrap_i_id w x : 0 < w -> i_min w <= x <= i_max w -> wrap_i w x = x.
Proof.
  intros Hw. unfold i_min, i_max, wrap_i. intros H.
  assert (2 ^ w = 2 * 2 ^ (w - 1)) as E
    by (rewrite <- Z.pow_succ_r by lia; f_equal; lia).
  rewrite Z.mod_small by lia. lia.
Qed.

(** ** Lists *)

Definition sumZ (l : list Z) : Z := foldr Z.add 0 l.

Lemma sumZ_app l k : sumZ (l ++ k) = sumZ l + sumZ k.
Proof. induction l; simpl; lia. Qed.

#[export] Instance sumZ_perm : Proper ((≡ₚ) ==> (=)) sumZ.
Proof. intros l k H. induction H; simpl; lia. Qed.

Lemma sumZ_nonneg l : Forall (fun x => 0 <= x) l -> 0 <= sumZ l.
Proof. induction 1; simpl; lia. Qed.

Lemma sumZ_elem l x : Forall (fun x => 0 <= x) l -> x ∈ l -> x <= sumZ l.
Proof.
  induction 1 as [| y l Hy Hl IH]; [by intros ?%not_elem_of_nil |].
  intros [-> | Hx]%elem_of_cons; simpl.
  - pose proof (sumZ_nonneg l Hl). lia.
  - specialize (IH Hx). lia.
Qed.

Lemma sumZ_bounds l lo hi :
  Forall (fun x => lo <= x <= hi) l ->
  lo * Z.of_nat (length l) <= sumZ l <= hi * Z.of_nat (length l).
Proof. induction 1; simpl; lia. Qed.

Lemma M_map_Ok {A B} (f : A -> M B) (g : A -> B) l :
  Forall (fun x => f x = Ok (g x)) l -> M_map f l = Ok (map g l).
Proof. induction 1 as [| x l Hx Hl IH]; simpl; [done |]. by rewrite Hx; simpl; rewrite IH. Qed.

Lemma M_map_elem {A B} (f : A -> M B) l r y :
  M_map f l = Ok r -> y ∈ r -> exists x, x ∈ l /\ f x = Ok y.
Proof.
  revert r. induction l as [| x l IH]; intros r H Hy; simpl in H.
  - injection H as <-. by apply not_elem_of_nil in Hy.
  - apply M_bind_Ok in H as (z & Hz & H). apply M_bind_Ok in H as (zs & Hzs & H).
    injection H as <-. apply elem_of_cons in Hy as [-> | Hy].
    + exists x. split; [apply list_elem_of_here | done].
    + destruct (IH zs Hzs Hy) as (x' & Hx' & E). exists x'. split; [by apply list_elem_of_further | done].
Qed.

Lemma M_map_elem_l {A B} (f : A -> M B) l r x : M_map f l = Ok r -> x ∈ l -> exists y, y ∈ r /\ f x = Ok y.
Proof.
  revert r. induction l as [| z l IH]; intros r H Hx; simpl in H; [by apply not_elem_of_nil in Hx |].
  apply M_bind_Ok in H as (y & Hy & H). apply M_bind_Ok in H as (ys & Hys & H). injection H as <-.
  apply elem_of_cons in Hx as [-> | Hx]; [exists y; split; [apply list_elem_of_here | done] |].
  destruct (IH ys Hys Hx) as (y' & Hy' & E). exists y'. split; [by apply list_elem_of_further | done].
Qed.

Lemma filter_all {A} (f : A -> bool) (l : list A) : Forall (fun x => f x = true) l -> List.filter f l = l.
Proof. induction 1 as [| x l Hx _ IH]; simpl; [done |]. by rewrite Hx, IH. Qed.

Lemma M_filter_sub {A} (f : A -> M bool) l r x : M_filter f l = Ok r -> x ∈ r -> x ∈ l.
Proof.
  revert r. induction l as [| y l IH]; intros r H Hx; simpl in H; [by injection H as <- |].
  apply M_bind_Ok in H as (b & _ & H). apply M_bind_Ok in H as (r' & Hr & H). injection H as <-.
  destruct b; [| apply list_elem_of_further; by eapply IH].
  apply elem_of_cons in Hx as [-> | Hx]; [apply list_elem_of_here |].
  apply list_elem_of_further. by eapply IH.
Qed.

Lemma M_filter_Ok {A} (f : A -> M bool) (g : A -> bool) l :
  Forall (fun x => f x = Ok (g x)) l -> M_filter f l = Ok (List.filter g l).
Proof. induction 1 as [| x l Hx Hl IH]; simpl; [done |]. by rewrite Hx; simpl; rewrite IH. Qed.

Lemma M_fold_app {A S} (f : S -> A -> M S) s l1 l2 :
  M_fold f s (l1 ++ l2) = (let* s' := M_fold f s l1 in M_fold f s' l2).
Proof. revert s. induction l1 as [| x l1 IH]; intros s; [done |]. cbn [app M_fold]. destruct (f s x); cbn [M_bind]; [apply IH | done ..]. Qed.

Lemma M_fold_Ok {A S} (f : S -> A -> M S) (g : S -> A -> S) (I : S -> list A -> Prop) l :
  (forall s x l, I s (x :: l) -> f s x = Ok (g s x) /\ I (g s x) l) ->
  forall s, I s l -> M_fold f s l = Ok (fold_left g l s).
Proof.
  intros Hstep. induction l as [| x l IH]; intros s HI; simpl; [done |].
  destruct (Hstep s x l HI) as [-> HI']. simpl. by apply IH.
Qed.

Lemma fold_left_add_sumZ l a : fold_left Z.add l a = a + sumZ l.
Proof. revert a. induction l as [| x l IH]; intros a; simpl; [lia |]. rewrite IH. lia. Qed.

Lemma list_filter_in {A} (f : A -> bool) l x : x ∈ List.filter f l <-> x ∈ l /\ f x = true.
Proof. rewrite !list_elem_of_In. apply filter_In. Qed.

(** ** Sorting *)

(** [slice::sort_by] is a stable sort. *)
Section StableSort.
Context {A : Type} (cmp : A -> A -> comparison).

Fixpoint sort_insert (x : A) (l : list A) : list A :=
  match l with
  | [] => [x]
  | y :: l => match cmp x y with Gt => y :: sort_insert x l | _ => x :: y :: l end
  end.

Definition sort_by (l : list A) : list A := foldr sort_insert [] l.
End StableSort.

Section SortLemmas.
Context {A : Type} (cmp : A -> A -> comparison).

Lemma sort_insert_perm x l : sort_insert cmp x l ≡ₚ x :: l.
Proof.
  induction l as [| y l IH]; simpl; [done |]. case_match; [done | done |].
  rewrite IH. apply Permutation_swap.
Qed.

Lemma sort_by_perm l : sort_by cmp l ≡ₚ l.
Proof. induction l as [| x l IH]; simpl; [done |]. by rewrite sort_insert_perm, IH. Qed.

Context (Htrans : forall a b c, cmp a b <> Gt -> cmp b c <> Gt -> cmp a c <> Gt).
Context (Hanti : forall a b, cmp a b = Gt -> cmp b a <> Gt).

Lemma sort_insert_sorted x l :
  StronglySorted (fun a b => cmp a b <> Gt) l ->
  StronglySorted (fun a b => cmp a b <> Gt) (sort_insert cmp x l).
Proof.
  induction 1 as [| y l Hl IH Hy]; simpl; [by repeat constructor |].
  destruct (cmp x y) eqn:E.
  1, 2: constructor; [by constructor |]; constructor; [congruence |];
    eapply Forall_impl; [exact Hy |]; intros z Hz; eapply Htrans; [| exact Hz]; congruence.
  constructor; [done |]. rewrite sort_insert_perm. constructor; [by apply Hanti | done].
Qed.

Lemma sort_by_sorted l : StronglySorted (fun a b => cmp a b <> Gt) (sort_by cmp l).
Proof. induction l as [| x l IH]; simpl; [constructor |]. by apply sort_insert_sorted. Qed.
Lemma sort_insert_filter f x l :
  StronglySorted (fun a b => cmp a b <> Gt) l ->
  List.filter f (sort_insert cmp x l) =
  if f x then sort_insert cmp x (List.filter f l) else List.filter f l.
Proof.
  induction 1 as [| y l Hl IH Hy]; simpl; [done |].
  destruct (cmp x y) eqn:E; simpl; [| | by rewrite IH; destruct (f y), (f x); simpl; rewrite ?E].
  all: destruct (f x); [| done]; destruct (f y); simpl; [by rewrite E |].
  all: assert (Hx : Forall (fun z => cmp x z <> Gt) (List.filter f l))
    by (rewrite Forall_forall in Hy |- *; intros z [Hz _]%list_filter_in;
        apply (Htrans x y z); [congruence | by apply Hy]).
  all: destruct (List.filter f l) as [| z k]; simpl; [done |].
  all: apply Forall_cons in Hx as [Hz _]; by destruct (cmp x z).
Qed.

Lemma sort_by_filter f l : List.filter f (sort_by cmp l) = sort_by cmp (List.filter f l).
Proof.
  induction l as [| x l IH]; simpl; [done |].
  rewrite sort_insert_filter by apply sort_by_sorted. rewrite IH. by destruct (f x).
Qed.

Lemma sort_by_id l : StronglySorted (fun a b => cmp a b <> Gt) l -> sort_by cmp l = l.
Proof.
  induction 1 as [| x l Hl IH Hx]; simpl; [done |]. rewrite IH.
  destruct l as [| y l]; simpl; [done |]. apply Forall_cons in Hx as [Hy _]. by destruct (cmp x y).
Qed.
End SortLemmas.
