(* ===== verification/Uniswap.v ===== *)
(** * Uniswap vocabulary

    The data types of crates/types/src/matching/uniswap/mod.rs, and the
    interface of the [uniswap_v3_math] crate, which is not part of the
    repository: the node's code is modelled over an arbitrary implementation
    of it, and [UniswapBounds] (and [SwapLaws] of PoolSwap) states the documented facts the theorems use. *)

From S2P Require Import Prelude.

Record TickInfo := mkTickInfo {
  liquidity_gross : Z;
  liquidity_net : Z;
  initialized : bool;
}.

Inductive Quantity := Token0 (q : Z) | Token1 (q : Z).

Inductive Direction := BuyingT0 | SellingT0.

#[export] Instance Direction_eq_dec : EqDecision Direction.
Proof. solve_decision. Defined.

Definition magnitude (q : Quantity) : Z :=
  match q with Token0 q => q | Token1 q => q end.

Definition as_input (q : Quantity) : Direction :=
  match q with Token0 _ => SellingT0 | Token1 _ => BuyingT0 end.

Definition as_output (q : Quantity) : Direction :=
  match q with Token0 _ => BuyingT0 | Token1 _ => SellingT0 end.

Definition from_is_bid (is_bid : bool) : Direction :=
  if is_bid then SellingT0 else BuyingT0.

Definition dir_is_bid (d : Direction) : bool :=
  match d with BuyingT0 => true | SellingT0 => false end.

Definition dir_is_ask (d : Direction) : bool :=
  match d with SellingT0 => true | BuyingT0 => false end.

Definition from_prices (start end_ : Z) : Direction :=
  match start ?= end_ with Lt => BuyingT0 | _ => SellingT0 end.

Definition is_input (d : Direction) (q : Quantity) : bool :=
  match d, q with
  | BuyingT0, Token1 _ | SellingT0, Token0 _ => true
  | _, _ => false
  end.

Definition sort_tokens {T} (d : Direction) (amount_in amount_out : T) : T * T :=
  match d with
  | BuyingT0 => (amount_out, amount_in)
  | SellingT0 => (amount_in, amount_out)
  end.

Definition sort_amounts {T} (d : Direction) (token0 token1 : T) : T * T :=
  match d with
  | BuyingT0 => (token1, token0)
  | SellingT0 => (token0, token1)
  end.

(** ** The external crate [uniswap_v3_math] *)

Class UniswapMath := {
  MIN_SQRT_RATIO : Z;
  MAX_SQRT_RATIO : Z;
  get_sqrt_ratio_at_tick : Z -> M Z;
  get_tick_at_sqrt_ratio : Z -> M Z;
  (** bitmap, current tick, tick spacing, zero-for-one; next tick, initialized *)
  next_initialized_tick_within_one_word :
    gmap Z Z -> Z -> Z -> bool -> M (Z * bool);
  (** current price, target price, liquidity, remaining, fee;
      new price, amount in, amount out, fee amount *)
  compute_swap_step : Z -> Z -> Z -> Z -> Z -> M (Z * Z * Z * Z);
}.

(** Price bounds of the crate: both constants are [U256] values that fit the
    160-bit square-root price format, and the range between them is not
    degenerate. *)
Class UniswapBounds (U : UniswapMath) := {
  min_sqrt_pos : 0 < MIN_SQRT_RATIO;
  min_lt_max : MIN_SQRT_RATIO + 1 < MAX_SQRT_RATIO;
  max_sqrt_u160 : MAX_SQRT_RATIO < 2 ^ 160;
}.
