(* ===== verification/Ray.v ===== *)
(** * Ray prices

    crates/types/src/sol_bindings/ray.rs, crates/types/src/matching/mod.rs and
    crates/types/src/matching/sqrtprice.rs: 27-decimal fixed-point prices kept
    in a [U256], conversions to and from the X96 square-root format, and the
    rounding disciplines the matching engine relies on.  A [Ray] is the [Z]
    value of its [U256]. *)

From S2P Require Import Prelude Uniswap.

Definition const_1e27 : Z := 10 ^ 27.
Definition const_1e6 : Z := 10 ^ 6.
Definition const_1e54 : Z := 10 ^ 54.
Definition const_2_192 : Z := 2 ^ 192.

#[global] Arguments const_1e27 : simpl never.
#[global] Arguments const_1e6 : simpl never.
#[global] Arguments const_1e54 : simpl never.
#[global] Arguments const_2_192 : simpl never.

Definition u256 (x : Z) : Prop := 0 <= x <= u_max 256.
Definition u128 (x : Z) : Prop := 0 <= x <= u_max 128.
Definition u160 (x : Z) : Prop := 0 <= x <= u_max 160.

Definition rounding (round_up : bool) : RoundingMode := if round_up then Ceiling else Floor.

Module Ray.

(** ** Ring operations: the [U256] operators wrap *)

Definition ZERO : Z := 0.
Definition add (x y : Z) : Z := uint_add 256 x y.
Definition add_usize (x n : Z) : Z := uint_add 256 x n.
Definition sub (x y : Z) : Z := uint_sub 256 x y.
Definition sub_usize (x n : Z) : Z := saturating_sub x n.
Definition mul_u256 (x y : Z) : Z := uint_mul 256 x y.
Definition div_u256 (x y : Z) : M Z := if y =? 0 then Panic else Ok (x / y).
Definition sum (l : list Z) : Z := fold_left add l 0.

(** ** Conversions *)

Definition convert_sqrtpricex96 (price : Z) (round_up : bool) : M Z :=
  let p := price * price in
  let* res := div_round (p * const_1e27) const_2_192 (rounding round_up) in
  uint_from 256 res.

Definition from_sqrt (price : Z) : M Z := convert_sqrtpricex96 price false.

Definition max_tick_ray `{UniswapMath} : M Z := from_sqrt MAX_SQRT_RATIO.
Definition min_tick_ray `{UniswapMath} : M Z := from_sqrt MIN_SQRT_RATIO.

Definition within_sqrt_price_bounds `{UniswapMath} (self : Z) : M bool :=
  let* res := div_round (self * const_2_192) const_1e27 Ceiling in
  let* output := uint_from 256 (ceil_sqrt res) in
  Ok ((MIN_SQRT_RATIO <? output) && (output <? MAX_SQRT_RATIO)).

(** [27 - decimal_point as u64] is native [u64] arithmetic. *)
Definition generate_ray_decimal {P : Profile} (value decimal_point : Z) : M Z :=
  let* ray_precision := checked_u 64 (27 - decimal_point) in
  uint_from 256 (value * 10 ^ ray_precision).

Definition scale_to_ray (value : Z) : M Z := uint_from 256 (value * const_1e27).

Definition scale_out_of_ray (self : Z) : M Z :=
  let* res := div_round self const_1e27 Floor in
  uint_from 256 res.

Definition unscale_to_fee (self fee : Z) : M Z :=
  if fee =? 0 then Ok self else
  let numerator := self * const_1e6 in
  let one_minus_fee := saturating_sub const_1e6 fee in
  let* res := div_round numerator one_minus_fee Floor in
  uint_from 256 res.

Definition scale_to_fee (self fee : Z) : M Z :=
  if fee =? 0 then Ok self else
  let numerator := self * saturating_sub const_1e6 fee in
  let* res := div_round numerator const_1e6 Floor in
  uint_from 256 res.

Definition mul_ray (self other : Z) : M Z :=
  let* res := div_round (self * other) const_1e27 Floor in
  uint_from 256 res.

Definition div_ray (self other : Z) : M Z :=
  let* n := div_round (self * const_1e27) other Floor in
  uint_from 256 n.

Definition invert (self : Z) (rm : RoundingMode) : M Z :=
  let* res := div_round const_1e54 self rm in
  uint_from 256 res.

Definition inv_ray_round (self : Z) (round_up : bool) : M Z :=
  if round_up then invert self Ceiling else invert self Floor.

Definition mul_wad (self mul decimals : Z) : M Z :=
  let* n := div_round (self * mul) (10 ^ decimals) Floor in
  uint_from 256 n.

Definition inv_ray (self : Z) : M Z :=
  if self =? 0 then Ok self else invert self Floor.

Definition max_uniswap_price `{UniswapMath} : M Z := max_tick_ray.
Definition min_uniswap_price `{UniswapMath} : M Z := min_tick_ray.

Definition calc_price_inner (t0 t1 : Z) (rm : RoundingMode) : M Z :=
  let* output := div_round (t1 * const_1e27) t0 rm in
  uint_from 256 output.

Definition calc_price (t0 t1 : Z) : M Z := calc_price_inner t0 t1 Ceiling.

Definition calc_price_generic (t0 t1 : Z) (round_up : bool) : M Z :=
  calc_price_inner t0 t1 (rounding round_up).

(** ** Quantities at a price *)

Definition mul_quantity (self q : Z) : M Z :=
  let* res := div_round (self * q) const_1e27 Floor in
  uint_from 256 res.

Definition quantity (self q : Z) (round_up : bool) : M Z :=
  let* res := div_round (self * q) const_1e27 (rounding round_up) in
  Ok (saturate_u 128 res).

Definition inverse_quantity (self q : Z) (round_up : bool) : M Z :=
  let* res := div_round (q * const_1e27) self (rounding round_up) in
  Ok (saturate_u 128 res).

Definition price_of (self : Z) (q : Quantity) (round_up : bool) : M Z :=
  match q with
  | Token0 t0 => quantity self t0 round_up
  | Token1 t1 => inverse_quantity self t1 round_up
  end.

(** [mod_op] by a zero divisor panics. *)
Definition inverse_remainder (self q : Z) : M Z :=
  if self =? 0 then Panic else
  Ok (saturate_u 128 ((q * const_1e27) mod self)).

End Ray.

(** ** Square-root prices (crates/types/src/matching/sqrtprice.rs) *)

Module SqrtPriceX96.

Definition at_tick `{UniswapMath} (tick : Z) : M Z :=
  let* r := get_sqrt_ratio_at_tick tick in uint_from 160 r.

(** [tick + 1] is native [i32] arithmetic. *)
Definition max_at_tick `{UniswapMath} {P : Profile} (tick : Z) : M Z :=
  let* t := checked_i 32 (tick + 1) in
  let* r := get_sqrt_ratio_at_tick t in
  uint_from 160 (saturating_sub r 1).

Definition to_tick `{UniswapMath} (self : Z) : M Z := get_tick_at_sqrt_ratio self.

Definition as_price_x192 (self : Z) : Z := self * self.

(** [From<U256>]: [Uint::from] panics when the value needs more than 160 bits. *)
Definition from_u256 (value : Z) : M Z := uint_from 160 value.

Definition from_ray (value : Z) : M Z :=
  let* res := div_round (value * const_2_192) const_1e27 Ceiling in
  uint_from 160 (ceil_sqrt res).

End SqrtPriceX96.

#[global] Arguments Ray.quantity : simpl never.
#[global] Arguments Ray.inverse_quantity : simpl never.
#[global] Arguments Ray.inv_ray_round : simpl never.
#[global] Arguments Ray.inv_ray : simpl never.
#[global] Arguments Ray.scale_to_fee : simpl never.
#[global] Arguments Ray.unscale_to_fee : simpl never.
#[global] Arguments SqrtPriceX96.from_ray : simpl never.
#[global] Arguments Ray.from_sqrt : simpl never.

(** ** Lemmas *)

Lemma const_1e27_pos : 0 < const_1e27.
Proof. done. Qed.
Lemma const_1e54_pos : 0 < const_1e54.
Proof. done. Qed.
Lemma const_1e6_pos : 0 < const_1e6.
Proof. done. Qed.
Lemma const_2_192_pos : 0 < const_2_192.
Proof. done. Qed.

Create HintDb ray.
#[export] Hint Resolve const_1e27_pos const_1e54_pos const_1e6_pos const_2_192_pos : ray.
#[export] Hint Resolve div_floor_nonneg div_ceil_nonneg : ray.

(** The rounded quotient, as a plain integer. *)
Definition round_div (a b : Z) (round_up : bool) : Z :=
  if round_up then div_ceil a b else div_floor a b.

Lemma div_round_rounding a b up :
  0 < b -> div_round a b (rounding up) = Ok (round_div a b up).
Proof. intros. rewrite div_round_Ok by lia. by destruct up. Qed.

Lemma round_div_nonneg a b up : 0 <= a -> 0 < b -> 0 <= round_div a b up.
Proof. intros. destruct up; simpl; auto with ray. Qed.

Lemma quantity_Ok p q up :
  Ray.quantity p q up = Ok (saturate_u 128 (round_div (p * q) const_1e27 up)).
Proof. unfold Ray.quantity. by rewrite div_round_rounding by auto with ray. Qed.

Lemma inverse_quantity_Ok p q up :
  0 < p ->
  Ray.inverse_quantity p q up = Ok (saturate_u 128 (round_div (q * const_1e27) p up)).
Proof. intros. unfold Ray.inverse_quantity. by rewrite div_round_rounding. Qed.

Lemma saturate_u128_bounds x : 0 <= x -> u128 (saturate_u 128 x).
Proof. unfold u128, saturate_u. pose proof (eq_refl : (0 <=? u_max 128) = true). lia. Qed.

Lemma quantity_u128 p q up r :
  0 <= p -> 0 <= q -> Ray.quantity p q up = Ok r -> u128 r.
Proof.
  intros Hp Hq H. rewrite quantity_Ok in H. injection H as <-.
  apply saturate_u128_bounds, round_div_nonneg; auto with ray. nia.
Qed.

Lemma inverse_quantity_u128 p q up r :
  0 < p -> 0 <= q -> Ray.inverse_quantity p q up = Ok r -> u128 r.
Proof.
  intros Hp Hq H. rewrite inverse_quantity_Ok in H by done. injection H as <-.
  apply saturate_u128_bounds, round_div_nonneg; [| done].
  pose proof const_1e27_pos. nia.
Qed.

#[export] Hint Resolve quantity_u128 inverse_quantity_u128 : ray.

Lemma round_div_mono a a' b up : 0 < b -> a <= a' -> round_div a b up <= round_div a' b up.
Proof.
  intros Hb Ha. destruct up; simpl; unfold div_ceil, div_floor; apply Z.div_le_mono; lia.
Qed.

Lemma round_div_down_up a b : 0 < b -> round_div a b false <= round_div a b true.
Proof. intros Hb. pose proof (div_floor_ceil a b Hb). simpl. lia. Qed.

Lemma saturate_u_mono w x y : x <= y -> saturate_u w x <= saturate_u w y.
Proof. unfold saturate_u. lia. Qed.

#[export] Hint Resolve round_div_mono round_div_down_up saturate_u_mono : ray.

Lemma from_sqrt_Ok s :
  u160 s -> Ray.from_sqrt s = Ok (div_floor (s * s * const_1e27) const_2_192).
Proof.
  intros Hs. unfold Ray.from_sqrt, Ray.convert_sqrtpricex96.
  rewrite div_round_rounding by auto with ray. simpl. apply uint_from_Ok. split; [done |].
  unfold u160 in Hs. change (u_max 160) with (2 ^ 160 - 1) in Hs. split.
  - apply div_floor_nonneg; auto with ray. pose proof const_1e27_pos. nia.
  - unfold div_floor, u_max. enough (s * s * const_1e27 / const_2_192 < 2 ^ 256) by lia.
    apply Z.div_lt_upper_bound; auto with ray.
    assert (s * s <= (2 ^ 160 - 1) * (2 ^ 160 - 1)) by (apply Z.mul_le_mono_nonneg; lia).
    apply Z.le_lt_trans with ((2 ^ 160 - 1) * (2 ^ 160 - 1) * const_1e27);
      [apply Z.mul_le_mono_nonneg_r; [by apply Z.lt_le_incl, const_1e27_pos | done] |].
    done.
Qed.

Lemma from_ray_Ok r s :
  0 <= r -> SqrtPriceX96.from_ray r = Ok s <->
  s = ceil_sqrt (div_ceil (r * const_2_192) const_1e27) /\ s <= u_max 160.
Proof.
  intros Hr. unfold SqrtPriceX96.from_ray. rewrite div_round_Ok by done. simpl.
  rewrite uint_from_Ok.
  pose proof (ceil_sqrt_nonneg (div_ceil (r * const_2_192) const_1e27)). naive_solver lia.
Qed.

(** The square-root conversion is the lower adjoint of the price conversion. *)
Lemma ray_sqrt_galois r s :
  0 <= r -> 0 <= s ->
  ceil_sqrt (div_ceil (r * const_2_192) const_1e27) <= s <->
  r <= div_floor (s * s * const_1e27) const_2_192.
Proof.
  intros Hr Hs.
  assert (0 <= div_ceil (r * const_2_192) const_1e27)
    by (apply div_ceil_nonneg; auto with ray; pose proof const_2_192_pos; nia).
  rewrite ceil_sqrt_le, div_ceil_le, div_floor_le by auto with ray. done.
Qed.

(** Inversion at the two roundings. *)
Lemma inv_floor_galois x y :
  0 < x -> 0 < y -> x <= div_floor const_1e54 y <-> y <= div_floor const_1e54 x.
Proof. intros. rewrite !div_floor_le by lia. lia. Qed.

Lemma inv_ray_round_Ok x up r :
  0 < x -> Ray.inv_ray_round x up = Ok r -> r = round_div const_1e54 x up.
Proof.
  intros Hx. unfold Ray.inv_ray_round, Ray.invert.
  destruct up; rewrite div_round_Ok by lia; simpl; intros (-> & _)%uint_from_Ok; done.
Qed.

Lemma inv_fits x up : 1 <= x -> 0 <= round_div const_1e54 x up <= u_max 256.
Proof.
  intros Hx. split; [apply round_div_nonneg; [by vm_compute | lia] |].
  apply Z.le_trans with (const_1e54 + 1); [| by vm_compute].
  pose proof (div_floor_ceil const_1e54 x ltac:(lia)).
  assert (div_floor const_1e54 x <= const_1e54)
    by (apply Z.div_le_upper_bound; pose proof const_1e54_pos; nia).
  destruct up; simpl; lia.
Qed.

Lemma inv_ray_round_total x up :
  0 < x -> Ray.inv_ray_round x up = Ok (round_div const_1e54 x up).
Proof.
  intros Hx. pose proof (inv_fits x up ltac:(lia)).
  unfold Ray.inv_ray_round, Ray.invert.
  destruct up; rewrite div_round_Ok by lia; simpl; by apply uint_from_Ok.
Qed.

Lemma inv_ray_total x : 0 <= x -> exists r, Ray.inv_ray x = Ok r /\ u256 r.
Proof.
  intros Hx. unfold Ray.inv_ray. destruct (Z.eqb_spec x 0) as [-> | Hne].
  - exists 0. split; [done |]. done.
  - exists (round_div const_1e54 x false). split; [| apply inv_fits; lia].
    apply (inv_ray_round_total x false). lia.
Qed.

Lemma scale_to_fee_Ok p fee :
  u256 p -> 0 <= fee ->
  Ray.scale_to_fee p fee = Ok (div_floor (p * saturating_sub const_1e6 fee) const_1e6).
Proof.
  intros [Hp0 Hp] Hfee. unfold Ray.scale_to_fee. destruct (Z.eqb_spec fee 0) as [-> | Hne].
  - unfold saturating_sub. rewrite Z.sub_0_r, Z.max_r by done.
    by rewrite div_floor_exact by auto with ray.
  - rewrite div_round_Ok by done. simpl. apply uint_from_Ok. split; [done |].
    assert (0 <= saturating_sub const_1e6 fee <= const_1e6)
      by (unfold saturating_sub; pose proof const_1e6_pos; lia).
    split; [apply div_floor_nonneg; auto with ray; nia |].
    apply Z.le_trans with p; [| done].
    apply Z.div_le_upper_bound; auto with ray. nia.
Qed.

Lemma scale_to_fee_le p fee r :
  u256 p -> 0 <= fee -> Ray.scale_to_fee p fee = Ok r -> 0 <= r <= p.
Proof.
  intros Hp Hfee H. rewrite scale_to_fee_Ok in H by done. injection H as <-.
  destruct Hp as [Hp0 _].
  assert (0 <= saturating_sub const_1e6 fee <= const_1e6)
    by (unfold saturating_sub; pose proof const_1e6_pos; lia).
  split; [apply div_floor_nonneg; auto with ray; nia |].
  apply Z.div_le_upper_bound; auto with ray. nia.
Qed.

(** The two saturating conversions, on plain integers. *)
Lemma quantity_galois p q t :
  0 < p -> u128 q -> 0 <= t < u_max 128 ->
  saturate_u 128 (div_ceil (q * const_1e27) p) <= t <->
  q <= saturate_u 128 (div_floor (p * t) const_1e27).
Proof.
  intros Hp [Hq0 Hq] Ht. unfold saturate_u.
  transitivity (div_ceil (q * const_1e27) p <= t); [lia |].
  transitivity (q <= div_floor (p * t) const_1e27); [| lia].
  rewrite div_ceil_le, div_floor_le by auto with ray. lia.
Qed.

(** ** Properties *)

(** At a positive price the two quantity conversions are adjoint: the T0
    amount [inverse_quantity] rounds up for [q] T1 is the least T0 amount whose
    rounded-down T1 value still reaches [q], so converting back and forth never
    favours the trader.  Neither conversion panics. *)
Theorem quantity_inverse_adjoint p q t :
  0 < p -> u128 q -> 0 <= t < u_max 128 ->
  exists a b, Ray.inverse_quantity p q true = Ok a /\ Ray.quantity p t false = Ok b /\
  (a <= t <-> q <= b).
Proof.
  intros Hp Hq Ht. eexists _, _.
  split; [by apply inverse_quantity_Ok |]. split; [apply quantity_Ok |].
  by apply quantity_galois.
Qed.

Lemma quantity_inverse_adjoint_witness :
  exists a b, Ray.inverse_quantity (3 * const_1e27 / 2) 100 true = Ok a /\
  Ray.quantity (3 * const_1e27 / 2) 67 false = Ok b /\ (a <= 67 <-> 100 <= b).
Proof.
  apply (quantity_inverse_adjoint (3 * const_1e27 / 2) 100 67).
  - by vm_compute.
  - by vm_compute.
  - by vm_compute.
Defined.

(** Converting a price to X96 square-root form and comparing there agrees
    with comparing in Ray form: [SqrtPriceX96::from(r) <= s] exactly when
    [r <= Ray::from(s)].  In particular a price survives the trip
    Ray -> sqrt -> Ray -> sqrt unchanged after the first conversion, and
    [Ray::from] never panics on a 160-bit square root. *)
Theorem ray_sqrt_adjoint r s b :
  u256 r -> u160 s -> SqrtPriceX96.from_ray r = Ok b ->
  exists a, Ray.from_sqrt s = Ok a /\ (b <= s <-> r <= a) /\
  exists a', Ray.from_sqrt b = Ok a' /\ r <= a' /\ SqrtPriceX96.from_ray a' = Ok b.
Proof.
  intros [Hr0 Hr] Hs Hb. pose proof Hs as [Hs0 _].
  apply from_ray_Ok in Hb as [-> Hfit]; [| done].
  set (b := ceil_sqrt _) in *.
  assert (0 <= b) as Hb0 by apply ceil_sqrt_nonneg.
  eexists. split; [by apply from_sqrt_Ok |]. split; [by apply ray_sqrt_galois |].
  eexists. split; [by apply from_sqrt_Ok |].
  assert (r <= div_floor (b * b * const_1e27) const_2_192) as Hge
    by (apply ray_sqrt_galois; unfold b; lia).
  split; [done |]. apply from_ray_Ok; [lia |]. split; [| done].
  apply Z.le_antisymm.
  - set (a' := div_floor _ _) in *.
    assert (forall s', 0 <= s' -> a' <= div_floor (s' * s' * const_1e27) const_2_192 ->
              b <= s') as Hleast.
    { intros s' Hs' H'. apply ray_sqrt_galois; unfold b in *; lia. }
    apply Hleast; [apply ceil_sqrt_nonneg |].
    apply ray_sqrt_galois; [lia | apply ceil_sqrt_nonneg | done].
  - apply ray_sqrt_galois; lia.
Qed.

Lemma ray_sqrt_adjoint_witness :
  exists a, Ray.from_sqrt (2 ^ 96) = Ok a /\
  (SqrtPriceX96.from_ray const_1e27 = Ok (2 ^ 96)) /\ (2 ^ 96 <= 2 ^ 96 <-> const_1e27 <= a).
Proof.
  destruct (ray_sqrt_adjoint const_1e27 (2 ^ 96) (2 ^ 96)) as (a & Ha & Hiff & _).
  - by vm_compute.
  - by vm_compute.
  - by vm_compute.
  - exists a. split; [exact Ha |]. split; [by vm_compute | exact Hiff].
Defined.

(** [within_sqrt_price_bounds] answers for every 256-bit price without
    panicking, and when it answers [true] the conversion to a square-root price
    succeeds and lands strictly between Uniswap's bounds. *)
Theorem within_bounds_sound (U : UniswapMath) (B : UniswapBounds U) r :
  u256 r ->
  exists v, Ray.within_sqrt_price_bounds r = Ok v /\
  (v = true <-> exists s, SqrtPriceX96.from_ray r = Ok s /\
                          MIN_SQRT_RATIO < s < MAX_SQRT_RATIO).
Proof.
  intros [Hr0 Hr]. unfold Ray.within_sqrt_price_bounds.
  rewrite div_round_Ok by done. simpl.
  set (root := ceil_sqrt _).
  assert (0 <= root) by apply ceil_sqrt_nonneg.
  assert (root <= 2 ^ 224) as Hroot.
  { apply ceil_sqrt_le; [apply div_ceil_nonneg; [| done]; pose proof const_2_192_pos; nia |
      done |].
    apply div_ceil_le; [done |].
    apply Z.le_trans with (u_max 256 * const_2_192); [| by vm_compute].
    apply Z.mul_le_mono_nonneg_r; [by vm_compute | done]. }
  assert (2 ^ 224 <= u_max 256) as Hwide by by vm_compute.
  rewrite (proj2 (uint_from_Ok 256 root root)) by lia. simpl.
  eexists. split; [done |]. rewrite andb_true_iff, !Z.ltb_lt.
  pose proof max_sqrt_u160 as Hmax. unfold u_max in *. split.
  - intros [Hlo Hhi]. exists root. split; [| lia]. apply from_ray_Ok; [done |].
    unfold root in *. split; [done |]. unfold u_max. lia.
  - intros (s & (-> & _)%from_ray_Ok & Hb); [| done]. done.
Qed.

(** Any implementation with the published price bounds will do as an example. *)
Definition bounds_only (lo hi : Z) : UniswapMath := {|
  MIN_SQRT_RATIO := lo;
  MAX_SQRT_RATIO := hi;
  get_sqrt_ratio_at_tick := fun _ => Err "unused";
  get_tick_at_sqrt_ratio := fun _ => Err "unused";
  next_initialized_tick_within_one_word := fun _ _ _ _ => Err "unused";
  compute_swap_step := fun _ _ _ _ _ => Err "unused";
|}.

Lemma within_bounds_sound_witness :
  let U := bounds_only 4295128739 1461446703485210103287273052203988822378723970342 in
  exists v, @Ray.within_sqrt_price_bounds U const_1e27 = Ok v /\
  (v = true <-> exists s, SqrtPriceX96.from_ray const_1e27 = Ok s /\
                          @MIN_SQRT_RATIO U < s < @MAX_SQRT_RATIO U).
Proof.
  intros U. apply (within_bounds_sound U).
  - constructor; by vm_compute.
  - by vm_compute.
Defined.

(** Undoing the fee and applying it again gives the original price or one
    unit less; a fee of 100% or more makes [unscale_to_fee] divide by zero. *)
Theorem unscale_scale_fee p fee x :
  u256 p -> 0 <= fee ->
  (const_1e6 <= fee -> Ray.unscale_to_fee p fee = Panic) /\
  (Ray.unscale_to_fee p fee = Ok x ->
   exists y, Ray.scale_to_fee x fee = Ok y /\ p - 1 <= y <= p).
Proof.
  intros [Hp0 Hp] Hfee. unfold Ray.unscale_to_fee. split.
  - intros Hbig. assert (const_1e6 = 1000000) as E by done.
    destruct (Z.eqb_spec fee 0); [lia |].
    unfold saturating_sub, div_round. by rewrite Z.max_l by lia.
  - destruct (Z.eqb_spec fee 0) as [-> | Hne].
    { intros [= ->]. exists x. split; [done | lia]. }
    set (k := saturating_sub const_1e6 fee). intros H.
    assert (0 <= k <= const_1e6)
      by (unfold k, saturating_sub; pose proof const_1e6_pos; lia).
    destruct (Z.eqb_spec k 0) as [Hk | Hk].
    { rewrite Hk in H. by vm_compute in H. }
    rewrite div_round_Ok in H by done. simpl in H. apply uint_from_Ok in H as [-> Hx].
    eexists. split; [by apply scale_to_fee_Ok |]. fold k.
    set (x := div_floor (p * const_1e6) k) in *.
    assert (x * k <= p * const_1e6) as Hlow by (apply div_floor_le; unfold x; lia).
    assert (p * const_1e6 < (x + 1) * k) as Hhigh.
    { apply Z.nle_gt. intros Hc. apply div_floor_le in Hc; unfold x in *; lia. }
    split.
    + apply div_floor_le; [done |]. nia.
    + apply Z.div_le_upper_bound; [done |]. lia.
Qed.

Lemma unscale_scale_fee_witness :
  Ray.unscale_to_fee 1 1 = Ok 1 /\ exists y, Ray.scale_to_fee 1 1 = Ok y /\ 1 - 1 <= y <= 1.
Proof.
  split; [by vm_compute |]. apply (unscale_scale_fee 1 1 1).
  - by vm_compute.
  - by vm_compute.
  - by vm_compute.
Defined.

(** Inversion rounded down is an antitone Galois connection on positive
    prices: a price is at most the inverse of another exactly when their
    product is at most 1e54.  The bid filter of the matching engine compares
    prices this way. *)
Theorem inv_ray_antitone x y :
  0 < x -> 0 < y ->
  exists ix iy, Ray.inv_ray_round x false = Ok ix /\ Ray.inv_ray_round y false = Ok iy /\
  (x <= iy <-> y <= ix) /\ (x <= iy <-> x * y <= const_1e54).
Proof.
  intros Hx Hy. eexists _, _.
  split; [by apply inv_ray_round_total |]. split; [by apply inv_ray_round_total |].
  simpl. split; [by apply inv_floor_galois |]. apply div_floor_le. done.
Qed.

Lemma inv_ray_antitone_witness :
  exists ix iy, Ray.inv_ray_round (2 * const_1e27) false = Ok ix /\
  Ray.inv_ray_round 7 false = Ok iy /\
  (2 * const_1e27 <= iy <-> 7 <= ix) /\ (2 * const_1e27 <= iy <-> 2 * const_1e27 * 7 <= const_1e54).
Proof. apply (inv_ray_antitone (2 * const_1e27) 7); by vm_compute. Defined.
