(* ===== verification/MatchMath.v ===== *)
(** * Matching arithmetic

    crates/types/src/matching/math/mod.rs and
    crates/types/src/matching/tokens.rs: how an order's fill amount, gas and
    fee split into T1 and T0 at a clearing price, fee helpers, and the
    quadratic solver the composite (AMM plus debt) orders use. *)

From S2P Require Import Prelude Uniswap Ray.

Section WithProfile.
Context {P : Profile}.

(** ** Fees *)

Definition add_t0_bid_fee (quantity fee : Z) : M Z :=
  let fee_factor := saturating_sub const_1e6 fee in
  let numerator := quantity * const_1e6 in
  let* res := div_round numerator fee_factor Ceiling in
  Ok (saturate_u 128 res).

Definition sub_t0_ask_fee (quantity fee : Z) : M Z :=
  let fee_factor := saturating_sub const_1e6 fee in
  let numerator := quantity * const_1e6 in
  let* res := div_round numerator fee_factor Ceiling in
  Ok (saturate_u 128 res).

(** ** The split of a fill: (t1, t0 net, t0 fee) *)

Definition get_quantities_at_price
    (is_bid exact_in : bool) (fill_amount gas fee ray_ucp : Z) : M (Z * Z * Z) :=
  match is_bid, exact_in with
  | true, true =>
      let* bid_price := Ray.inv_ray ray_ucp in
      let* bid_fee_price := Ray.scale_to_fee bid_price fee in
      let* exchanged_t0 := Ray.quantity bid_price fill_amount false in
      let* net_t0 := Ray.quantity bid_fee_price fill_amount false in
      let contract_t0 := saturating_sub exchanged_t0 net_t0 in
      Ok (fill_amount, saturating_sub net_t0 gas, contract_t0)
  | true, false =>
      let* bid_price := Ray.inv_ray ray_ucp in
      let* bid_fee_price := Ray.scale_to_fee bid_price fee in
      let* total := u128_add fill_amount gas in
      let* t1_required := Ray.inverse_quantity bid_fee_price total true in
      let* total_t0_purchased := Ray.quantity bid_price t1_required false in
      let* total' := u128_add fill_amount gas in
      let contract_t0 := saturating_sub total_t0_purchased total' in
      Ok (t1_required, fill_amount, contract_t0)
  | false, true =>
      let* ask_fee_price := Ray.scale_to_fee ray_ucp fee in
      let* net_t1_out := Ray.quantity ask_fee_price (saturating_sub fill_amount gas) false in
      let* net_t0_sold := Ray.inverse_quantity ray_ucp net_t1_out true in
      let contract_t0 := saturating_sub (saturating_sub fill_amount gas) net_t0_sold in
      Ok (net_t1_out, net_t0_sold, contract_t0)
  | false, false =>
      let* ask_fee_price := Ray.scale_to_fee ray_ucp fee in
      let* t0_in := Ray.inverse_quantity ask_fee_price fill_amount true in
      let* total_t0_input := u128_add t0_in gas in
      let* net_t0 := Ray.inverse_quantity ray_ucp fill_amount true in
      let contract_fee := saturating_sub (saturating_sub total_t0_input gas) net_t0 in
      Ok (fill_amount, net_t0, contract_fee)
  end.

Definition max_t1_for_t0 (t0 : Z) (direction : Direction) (price : Z) : M Z :=
  match direction with
  | BuyingT0 =>
      let* t0' := u128_add t0 1 in
      let* q := Ray.quantity price t0' true in
      Ok (saturating_sub q 1)
  | SellingT0 => Ray.quantity price t0 false
  end.

Definition low_to_high (a b : Z) : Z * Z :=
  match a ?= b with Gt => (b, a) | _ => (a, b) end.

(** ** Quadratic solver on signed integers

    [div_round] with [RoundingMode::Nearest] rounds half to even; [floor_sqrt]
    of a negative integer panics. *)

Definition div_nearest (n d : Z) : Z :=
  let n' := if d <? 0 then - n else n in
  let d' := Z.abs d in
  let q := n' / d' in
  let r2 := 2 * (n' mod d') in
  if r2 <? d' then q else if d' <? r2 then q + 1
  else if Z.even q then q else q + 1.

Definition int_div_nearest (n d : Z) : M Z :=
  if d =? 0 then Panic else Ok (div_nearest n d).

Definition floor_sqrt (n : Z) : M Z := if n <? 0 then Panic else Ok (Z.sqrt n).

Definition quadratic_solve (a b c precision : Z) : M (option Z * option Z) :=
  let numerator := Z.shiftl (c * 2) precision in
  let b_squared := b ^ 2 in
  let four_a_c := 4 * a * c in
  let* sqrt_b24ac := floor_sqrt (b_squared - four_a_c) in
  let neg_b := - b in
  let denom_minus := neg_b - sqrt_b24ac in
  let denom_plus := neg_b + sqrt_b24ac in
  match denom_plus =? 0, denom_minus =? 0 with
  | true, true => Panic
  | false, true => Ok (None, Some (div_nearest numerator denom_plus))
  | true, false => Ok (Some (div_nearest numerator denom_minus), None)
  | false, false =>
      Ok (Some (div_nearest numerator denom_minus), Some (div_nearest numerator denom_plus))
  end.

Inductive IntRounding := RUp | RCeiling | RFloor.

(** [RoundingMode::Up] rounds away from zero. *)
Definition div_int (n d : Z) (rm : IntRounding) : Z :=
  match rm with
  | RCeiling => - ((- n) / d)
  | RFloor => n / d
  | RUp => if 0 <=? n then - ((- n) / d) else n / d
  end.

Definition resolve_precision (precision number : Z) (rm : IntRounding) : Z :=
  saturate_u 128 (Z.abs (div_int number (2 ^ precision) rm)).

Definition signed_for (direction : Direction) (i : Z) : bool :=
  match direction with BuyingT0 => i <=? 0 | SellingT0 => 0 <=? i end.

Definition amm_debt_same_move_solve
    (amm_liquidity debt_initial_t0 debt_fixed_t1 quantity_moved : Z)
    (direction : Direction) : M Z :=
  let l := amm_liquidity in
  let l_squared := l ^ 2 in
  let precision := 192 in
  let* a := int_div_nearest (Z.shiftl debt_fixed_t1 precision) l_squared in
  let dt0 := Z.shiftl debt_initial_t0 precision in
  let dt1 := Z.shiftl debt_fixed_t1 precision in
  let* sqrt_debt := floor_sqrt (dt0 * dt1) in
  let debt_numerator := 2 * sqrt_debt + Z.shiftl l precision in
  let* b := int_div_nearest debt_numerator l in
  let c := Z.shiftl (match direction with
                     | SellingT0 => quantity_moved
                     | BuyingT0 => - quantity_moved
                     end) precision in
  let* solution := quadratic_solve a b c precision in
  let candidate (o : option Z) : option Z :=
    i ← o;
    if signed_for direction i then
      let r := resolve_precision precision i RCeiling in
      if r <? quantity_moved then Some r else None
    else None in
  Ok (match candidate solution.1 with
      | Some r => r
      | None => default quantity_moved (candidate solution.2)
      end).

(** Nearest integer to [n1/d1 - n2/d2]; a zero denominator panics. *)
Definition rational_diff_nearest (n1 d1 n2 d2 : Z) : M Z :=
  if (d1 =? 0) || (d2 =? 0) then Panic
  else Ok (div_nearest (n1 * d2 - n2 * d1) (d1 * d2)).

Definition price_intersect_solve
    (amm_liquidity amm_price debt_fixed_t1 debt_price : Z) (direction : Direction) : M Z :=
  let l := amm_liquidity in
  let l_squared := l ^ 2 in
  let precision := 192 in
  let* a := int_div_nearest (Z.shiftl 1 precision) l_squared in
  let* b := rational_diff_nearest (Z.shiftl 2 (96 + precision)) (l * amm_price)
                                  (Z.shiftl 1 precision) debt_fixed_t1 in
  let* c := rational_diff_nearest (Z.shiftl 1 (192 + precision))
                                  (SqrtPriceX96.as_price_x192 amm_price)
                                  (Z.shiftl const_1e27 precision) debt_price in
  let* solution := quadratic_solve a b c precision in
  match direction, solution with
  | _, (None, None) => Panic
  | _, (Some a, None) | _, (None, Some a) => Ok a
  | BuyingT0, (Some a, Some b) =>
      Ok (if a <=? 0 then if b <=? 0 then Z.max a b else a else b)
  | SellingT0, (Some a, Some b) =>
      Ok (if 0 <=? a then if 0 <=? b then Z.min a b else a else b)
  end.

(** ** Token quantities (tokens.rs) *)

Definition tq_add (t : Quantity) (rhs : Z) : M Quantity :=
  match t with
  | Token0 q => let* r := u128_add q rhs in Ok (Token0 r)
  | Token1 q => let* r := u128_add q rhs in Ok (Token1 r)
  end.

Definition tq_sub (t : Quantity) (rhs : Z) : M Quantity :=
  match t with
  | Token0 q => let* r := u128_sub q rhs in Ok (Token0 r)
  | Token1 q => let* r := u128_sub q rhs in Ok (Token1 r)
  end.

(** [U256::to::<u128>] panics on a value over 128 bits. *)
Definition swap_at_price (t : Quantity) (price : Z) : M Quantity :=
  match t with
  | Token0 q => let* r := Ray.mul_quantity price q in
                let* r' := uint_from 128 r in Ok (Token1 r')
  | Token1 q => let* r := Ray.inverse_quantity price q true in Ok (Token0 r)
  end.

Definition as_t0 (t : Quantity) (swap_price : Z) : M Quantity :=
  match t with Token0 _ => Ok t | Token1 _ => swap_at_price t swap_price end.

Definition as_t1 (t : Quantity) (swap_price : Z) : M Quantity :=
  match t with Token0 _ => swap_at_price t swap_price | Token1 _ => Ok t end.

End WithProfile.

(** ** Lemmas *)

Lemma saturating_sub_le x y : 0 <= y -> 0 <= x -> 0 <= saturating_sub x y <= x.
Proof. unfold saturating_sub. lia. Qed.

Lemma saturate_u128_le x : saturate_u 128 x <= x.
Proof. unfold saturate_u. lia. Qed.

Lemma u128_add_Ok {P : Profile} x y :
  0 <= x + y <= u_max 128 -> u128_add x y = Ok (x + y).
Proof.
  intros H. unfold u128_add, checked_u.
  by rewrite (proj2 (fits_u_true 128 (x + y))).
Qed.

(** Selling at a fee-reduced price and buying the proceeds back at the full
    price never takes more T0 than was put in. *)
Lemma sell_then_reprice p f a :
  0 < p -> 0 <= f <= p -> u128 a ->
  saturate_u 128 (div_ceil (saturate_u 128 (div_floor (f * a) const_1e27) * const_1e27) p) <= a.
Proof.
  intros Hp Hf [Ha0 Ha].
  eapply Z.le_trans; [apply saturate_u128_le |]. apply div_ceil_le; [done |].
  pose proof (saturate_u128_le (div_floor (f * a) const_1e27)) as Hs.
  assert (div_floor (f * a) const_1e27 * const_1e27 <= f * a) as Hd
    by (apply div_floor_le; auto with ray; lia).
  pose proof const_1e27_pos. nia.
Qed.

(** The T0 a fee-reduced price asks for covers the T0 the full price asks for. *)
Lemma reprice_up p f a :
  0 < f <= p -> 0 <= a ->
  saturate_u 128 (div_ceil (a * const_1e27) p) <= saturate_u 128 (div_ceil (a * const_1e27) f).
Proof.
  intros Hf Ha. apply saturate_u_mono. apply div_ceil_le; [lia |].
  assert (a * const_1e27 <= div_ceil (a * const_1e27) f * f) as H
    by (apply div_ceil_le; lia).
  pose proof (div_ceil_nonneg (a * const_1e27) f) as H0.
  pose proof const_1e27_pos. nia.
Qed.

Lemma quantity_mono_price f p a :
  0 <= f <= p -> 0 <= a ->
  saturate_u 128 (div_floor (f * a) const_1e27) <= saturate_u 128 (div_floor (p * a) const_1e27).
Proof.
  intros Hf Ha. apply saturate_u_mono. unfold div_floor.
  apply Z.div_le_mono; auto with ray. nia.
Qed.

Lemma inv_ray_pos ucp :
  0 < ucp <= const_1e54 -> Ray.inv_ray ucp = Ok (div_floor const_1e54 ucp) /\
  0 < div_floor const_1e54 ucp /\ u256 (div_floor const_1e54 ucp).
Proof.
  intros H. unfold Ray.inv_ray. destruct (Z.eqb_spec ucp 0); [lia |].
  split; [apply (inv_ray_round_total ucp false); lia |].
  split; [| apply (inv_fits ucp false); lia].
  enough (1 <= div_floor const_1e54 ucp) by lia. apply div_floor_le; lia.
Qed.

Lemma fee_price_pos p fee :
  const_1e6 <= p -> u256 p -> 0 <= fee < const_1e6 ->
  exists f, Ray.scale_to_fee p fee = Ok f /\ 0 < f <= p.
Proof.
  intros Hp Hu Hfee. eexists. split; [apply scale_to_fee_Ok; [done | lia] |].
  split.
  - enough (1 <= div_floor (p * saturating_sub const_1e6 fee) const_1e6) by lia.
    apply div_floor_le; [done |]. unfold saturating_sub. nia.
  - apply (scale_to_fee_le p fee); [done | lia |]. apply scale_to_fee_Ok; [done | lia].
Qed.

Lemma inv_ray_wide ucp :
  const_1e6 <= ucp <= 10 ^ 48 ->
  exists b, Ray.inv_ray ucp = Ok b /\ const_1e6 <= b /\ u256 b.
Proof.
  intros H. assert (const_1e6 = 1000000) by done.
  destruct (inv_ray_pos ucp) as (E & _ & Hu).
  { split; [lia |]. assert (10 ^ 48 <= const_1e54) by by vm_compute. lia. }
  eexists. split; [exact E |]. split; [| done].
  apply div_floor_le; [lia |]. apply Z.le_trans with (const_1e6 * 10 ^ 48); [nia |].
  by vm_compute.
Qed.

(** ** Properties *)

(** Bids: for a clearing price between 1e-21 and 1e21 and a fee below 100%
    the split of a bid never panics and accounts for every unit of T0 bought at
    the clearing price.  An exact-in bid spends its whole T1 and, when gas is
    covered, net T0 plus gas plus fee is exactly the T0 exchanged at the
    clearing price.  An exact-out bid receives exactly its T0, and the T1 it
    pays buys net T0 plus gas plus fee at the clearing price (unless the T1
    amount saturates 128 bits). *)
Theorem bid_split_conserves (P : Profile) exact_in fill gas fee ucp :
  const_1e6 <= ucp <= 10 ^ 48 -> 0 <= fee < const_1e6 ->
  0 <= fill -> 0 <= gas -> fill + gas <= u_max 128 ->
  exists t1 n f b x,
  get_quantities_at_price true exact_in fill gas fee ucp = Ok (t1, n, f) /\
  Ray.inv_ray ucp = Ok b /\ Ray.quantity b t1 false = Ok x /\
  if exact_in then t1 = fill /\ (gas <= x - f -> n + gas + f = x)
  else n = fill /\ (t1 < u_max 128 -> n + gas + f = x).
Proof.
  intros Hucp Hfee Hfill Hgas Hsum.
  destruct (inv_ray_wide ucp Hucp) as (b & Hb & Hb6 & Hbu).
  destruct (fee_price_pos b fee Hb6 Hbu Hfee) as (fp & Hfp & Hfpb).
  assert (0 <= b) by (destruct Hbu; done).
  destruct exact_in; unfold get_quantities_at_price; rewrite Hb; simpl; rewrite Hfp; simpl;
    repeat (rewrite ?u128_add_Ok, ?inverse_quantity_Ok, ?quantity_Ok by lia; progress simpl).
  - eexists _, _, _, b, _. split; [done |]. split; [done |].
    split; [apply quantity_Ok |]. simpl. split; [done |].
    pose proof (quantity_mono_price fp b fill ltac:(lia) Hfill).
    unfold saturating_sub. lia.
  - eexists _, _, _, b, _. split; [done |]. split; [done |].
    split; [apply quantity_Ok |]. simpl. split; [done |].
    set (t1 := saturate_u 128 _) in *. intros Ht1.
    enough (fill + gas <= saturate_u 128 (div_floor (b * t1) const_1e27))
      by (unfold saturating_sub; lia).
    assert (0 <= t1).
    { apply saturate_u128_bounds, (round_div_nonneg _ _ true); [| lia].
      pose proof const_1e27_pos. nia. }
    apply Z.le_trans with (saturate_u 128 (div_floor (fp * t1) const_1e27));
      [| by apply quantity_mono_price; lia].
    apply quantity_galois; [lia | unfold u128; lia | lia | done].
Qed.

Lemma bid_split_conserves_witness :
  exists t1 n f b x,
  @get_quantities_at_price release true false (10 ^ 18) 10 100000 (2 * const_1e27)
    = Ok (t1, n, f) /\
  Ray.inv_ray (2 * const_1e27) = Ok b /\ Ray.quantity b t1 false = Ok x /\
  n = 10 ^ 18 /\ (t1 < u_max 128 -> n + 10 + f = x).
Proof.
  apply (bid_split_conserves release false (10 ^ 18) 10 100000 (2 * const_1e27));
    by vm_compute.
Defined.

(** Asks: an exact-in ask whose gas is covered splits its T0 input exactly
    into the T0 sold at the clearing price, the fee and the gas, and the T1 it
    receives costs exactly the T0 sold; an exact-out ask receives exactly its
    T1 and pays, besides gas, the rounded-up T0 price of it at the fee price,
    of which the clearing-price part is the net and the rest is the fee. *)
Theorem ask_split_conserves (P : Profile) exact_in fill gas fee ucp :
  const_1e6 <= ucp -> u256 ucp -> 0 <= fee < const_1e6 -> u128 fill -> u128 gas ->
  (forall fp x, exact_in = false -> Ray.scale_to_fee ucp fee = Ok fp ->
     Ray.inverse_quantity fp fill true = Ok x -> x + gas <= u_max 128) ->
  exists t1 n f,
  get_quantities_at_price false exact_in fill gas fee ucp = Ok (t1, n, f) /\
  Ray.inverse_quantity ucp t1 true = Ok n /\
  if exact_in then gas <= fill -> n + f + gas = fill
  else t1 = fill /\
       exists fp x, Ray.scale_to_fee ucp fee = Ok fp /\
                    Ray.inverse_quantity fp fill true = Ok x /\ n + f = x.
Proof.
  intros Hucp6 Hu Hfee [Hfill0 Hfill] [Hgas0 Hgas] Hov.
  destruct (fee_price_pos ucp fee Hucp6 Hu Hfee) as (fp & Hfp & Hfpb).
  assert (0 < ucp) by (pose proof const_1e6_pos; lia).
  unfold get_quantities_at_price. rewrite Hfp. destruct exact_in; cbn [M_bind].
  - rewrite quantity_Ok. simpl. rewrite inverse_quantity_Ok by done. simpl.
    eexists _, _, _. split; [done |]. split; [by rewrite inverse_quantity_Ok by done |].
    intros Hg. pose proof (sell_then_reprice ucp fp (saturating_sub fill gas)) as Hle.
    unfold saturating_sub, u128 in *. rewrite Z.max_r in * by lia.
    specialize (Hle ltac:(lia) ltac:(lia) ltac:(lia)). lia.
  - pose proof (inverse_quantity_Ok fp fill true ltac:(lia)) as Hx.
    pose proof (inverse_quantity_u128 fp fill true _ ltac:(lia) Hfill0 Hx) as [Hx0 _].
    specialize (Hov _ _ eq_refl Hfp Hx).
    rewrite Hx. cbn [M_bind]. rewrite u128_add_Ok by lia. cbn [M_bind].
    rewrite (inverse_quantity_Ok ucp) by lia. cbn [M_bind].
    eexists _, _, _. split; [done |]. split; [by rewrite inverse_quantity_Ok by done |].
    split; [done |]. eexists fp, _. split; [done |]. split; [exact Hx |].
    pose proof (reprice_up ucp fp fill Hfpb Hfill0). simpl in *.
    unfold saturating_sub. rewrite Z.add_simpl_r, !Z.max_r by lia. lia.
Qed.

Lemma ask_split_conserves_witness :
  exists t1 n f,
  @get_quantities_at_price release false true (10 ^ 18) 10 100000 (2 * const_1e27)
    = Ok (t1, n, f) /\
  Ray.inverse_quantity (2 * const_1e27) t1 true = Ok n /\
  (10 <= 10 ^ 18 -> n + f + 10 = 10 ^ 18).
Proof.
  apply (ask_split_conserves release true (10 ^ 18) 10 100000 (2 * const_1e27)).
  1-5: by vm_compute.
  intros fp x Hc. discriminate Hc.
Defined.

(** [sub_t0_ask_fee] is documented as [Q * (1 - F)], the T0 left after the
    ask fee, but computes [Q / (1 - F)] like [add_t0_bid_fee]: for every fee
    strictly between 0 and 100% its result is at least the quantity it starts
    from, and larger as soon as one fee unit of the quantity is nonzero. *)
Theorem sub_t0_ask_fee_grows q fee :
  0 <= q -> 0 < fee < const_1e6 ->
  exists r, sub_t0_ask_fee q fee = Ok r /\ add_t0_bid_fee q fee = Ok r /\
  (q <= u_max 128 -> q <= r) /\ (0 < q < u_max 128 -> q < r).
Proof.
  intros Hq Hfee. unfold sub_t0_ask_fee, add_t0_bid_fee.
  assert (saturating_sub const_1e6 fee = const_1e6 - fee) as -> by (unfold saturating_sub; lia).
  rewrite div_round_Ok by lia. simpl. eexists. split; [done |]. split; [done |].
  assert (q <= div_ceil (q * const_1e6) (const_1e6 - fee)) as Hle.
  { pose proof (div_ceil_le (q * const_1e6) (const_1e6 - fee) (q - 1) ltac:(lia)). nia. }
  split; [unfold saturate_u; lia |]. intros [Hq1 Hq2].
  pose proof (div_ceil_le (q * const_1e6) (const_1e6 - fee) q ltac:(lia)) as Hiff.
  unfold saturate_u. nia.
Qed.

Lemma sub_t0_ask_fee_grows_witness :
  exists r, sub_t0_ask_fee 1000000 3000 = Ok r /\ add_t0_bid_fee 1000000 3000 = Ok r /\
  (1000000 <= u_max 128 -> 1000000 <= r) /\ (0 < 1000000 < u_max 128 -> 1000000 < r).
Proof. apply (sub_t0_ask_fee_grows 1000000 3000); by vm_compute. Defined.

(** The share of a move that [amm_debt_same_move_solve] gives to the AMM is
    a 128-bit quantity no larger than the quantity being moved, whichever root
    of the quadratic is used. *)
Theorem same_move_bounded l t0 t1 q dir r :
  0 <= q -> amm_debt_same_move_solve l t0 t1 q dir = Ok r -> 0 <= r <= q.
Proof.
  intros Hq H. unfold amm_debt_same_move_solve in H. m_inv.
  assert (forall i, 0 <= resolve_precision 192 i RCeiling) as Hres.
  { intros i. unfold resolve_precision, saturate_u.
    assert (0 <= u_max 128) by by vm_compute. lia. }
  match goal with x : option Z * option Z |- _ => destruct x as [[i1|] [i2|]] end;
    repeat (simpl; case_match); simpl in *; simplify_eq/=;
    repeat match goal with H : (if ?b then _ else _) = _ |- _ => destruct b eqn:?; simplify_eq/= end;
    try lia; match goal with |- context [resolve_precision 192 ?i RCeiling] =>
      pose proof (Hres i) end; lia.
Qed.

Lemma same_move_bounded_witness :
  exists r, amm_debt_same_move_solve (10 ^ 15) 450000 (10 ^ 10) (10 ^ 9) SellingT0 = Ok r /\
  0 <= r <= 10 ^ 9.
Proof.
  eexists. split; [vm_compute; reflexivity |].
  apply (same_move_bounded (10 ^ 15) 450000 (10 ^ 10) (10 ^ 9) SellingT0);
    vm_compute; congruence || reflexivity.
Defined.
