(* ===== verification/LeaderSelection.v ===== *)
(** * Leader selection

    crates/consensus/src/leader_selection.rs: the weighted round robin every
    node runs to agree on the proposer of a block.  The [HashSet] of validators
    is a list without duplicate peer ids, in the iteration order of the hash
    table; the order is arbitrary, and the properties show that the outcome
    does not depend on it. *)

From S2P Require Import Prelude.

Definition PENALTY_FACTOR : Z := 1125.
Definition ONE_E3 : Z := 1000.

Record AngstromValidator := mkValidator {
  peer_id : Z;
  voting_power : Z;
  priority : Z;
}.

Record WeightedRoundRobin := mkWRR {
  validators : list AngstromValidator;
  new_joiner_penalty_factor : Z;
  block_number : Z;
  last_proposer : option Z;
}.

Definition set_priority (v : AngstromValidator) (p : Z) : AngstromValidator :=
  mkValidator (peer_id v) (voting_power v) p.
Definition set_validators (s : WeightedRoundRobin) (l : list AngstromValidator) :=
  mkWRR l (new_joiner_penalty_factor s) (block_number s) (last_proposer s).
Definition set_last (s : WeightedRoundRobin) (p : option Z) :=
  mkWRR (validators s) (new_joiner_penalty_factor s) (block_number s) p.
Definition set_block (s : WeightedRoundRobin) (b : Z) :=
  mkWRR (validators s) (new_joiner_penalty_factor s) b (last_proposer s).

(** [PartialEq]/[Hash] compare peer ids only: inserting an equal validator
    keeps the stored one, [replace] overwrites it. *)
Definition validator_eq (a b : AngstromValidator) : bool := peer_id a =? peer_id b.

Definition hs_insert (v : AngstromValidator) (l : list AngstromValidator) :=
  if existsb (validator_eq v) l then l else l ++ [v].
Definition hs_remove (v : AngstromValidator) (l : list AngstromValidator) :=
  List.filter (fun x => negb (validator_eq v x)) l.
Definition hs_replace (v : AngstromValidator) (l : list AngstromValidator) :=
  map (fun x => if validator_eq v x then v else x) l.
Definition hs_from_iter (l : list AngstromValidator) : list AngstromValidator :=
  fold_left (fun acc v => hs_insert v acc) l [].

Create HintDb leader.

Section WithProfile.
Context {P : Profile}.

Definition AngstromValidator_new (name vp : Z) : M AngstromValidator :=
  let* p := checked_u 64 (vp * ONE_E3) in
  Ok (mkValidator name p 0).

Definition WeightedRoundRobin_new (vs : list AngstromValidator) (start_block : Z) :=
  mkWRR (hs_from_iter vs) PENALTY_FACTOR start_block None.

(** [Iterator::sum] over native integers. *)
Definition sum_u64 (l : list Z) : M Z := M_fold (fun acc x => checked_u 64 (acc + x)) 0 l.
Definition sum_i64 (l : list Z) : M Z := M_fold (fun acc x => checked_i 64 (acc + x)) 0 l.

(** Priority order, ties broken by peer id. *)
Definition priority_cmp (a b : AngstromValidator) : comparison :=
  match priority a ?= priority b with
  | Eq => peer_id a ?= peer_id b
  | c => c
  end.

(** [Iterator::max_by] keeps the later of two equal elements. *)
Definition max_by (l : list AngstromValidator) : option AngstromValidator :=
  match l with
  | [] => None
  | v :: l =>
      Some (fold_left (fun acc x => match priority_cmp acc x with Gt => acc | _ => x end) l v)
  end.

(** [u64 as i64] reinterprets the bits. *)
Definition as_i64 (x : Z) : Z := wrap_i 64 x.

Definition proposer_selection (vs : list AngstromValidator) :
    M (Z * list AngstromValidator) :=
  let* total_voting_power := sum_u64 (map voting_power vs) in
  let* vs := M_map (fun v => let* p := checked_i 64 (priority v + as_i64 (voting_power v)) in
                             Ok (set_priority v p)) vs in
  let* proposer := unwrap (max_by vs) in
  let* p := checked_i 64 (priority proposer - as_i64 total_voting_power) in
  let proposer := set_priority proposer p in
  Ok (peer_id proposer, hs_replace proposer vs).

(** Native signed division truncates; a zero divisor panics. *)
Definition i64_div (a b : Z) : M Z :=
  if b =? 0 then Panic else checked_i 64 (Z.quot a b).

Definition center_priorities (vs : list AngstromValidator) : M (list AngstromValidator) :=
  let* sum := sum_i64 (map priority vs) in
  let* avg_priority := i64_div sum (as_i64 (Z.of_nat (length vs))) in
  M_map (fun v => let* p := checked_i 64 (priority v - avg_priority) in
                  Ok (set_priority v p)) vs.

Definition scale_priorities (vs : list AngstromValidator) : M (list AngstromValidator) :=
  let max_priority := fold_left Z.max (map priority vs) (i_min 64) in
  let min_priority := fold_left Z.min (map priority vs) (i_max 64) in
  let* total_voting_power := sum_u64 (map voting_power vs) in
  let* diff := checked_i 64 (max_priority - min_priority) in
  let* threshold := checked_i 64 (2 * as_i64 total_voting_power) in
  if threshold <? diff then
    let* d := checked_i 64 (diff * ONE_E3) in
    let* scale := i64_div d threshold in
    M_map (fun v => let* new_pri := checked_i 64 (priority v * ONE_E3) in
                    let* p := i64_div new_pri scale in
                    Ok (set_priority v p)) vs
  else Ok vs.

(** One round of the catch-up loop. *)
Definition round (s : WeightedRoundRobin) : M (WeightedRoundRobin * Z) :=
  let* vs := center_priorities (validators s) in
  let* vs := scale_priorities vs in
  let* (leader, vs) := proposer_selection vs in
  Ok (set_last (set_validators s vs) (Some leader), leader).

Fixpoint catch_up (n : nat) (s : WeightedRoundRobin) (leader : option Z) :
    M (WeightedRoundRobin * option Z) :=
  match n with
  | O => Ok (s, leader)
  | S n => let* (s, l) := round s in catch_up n s (Some l)
  end.

Definition choose_proposer (s : WeightedRoundRobin) (block : Z) :
    M (WeightedRoundRobin * option Z) :=
  if block =? block_number s then
    match last_proposer s with
    | None =>
        let* (leader, vs) := proposer_selection (validators s) in
        let s := set_last (set_validators s vs) (Some leader) in
        Ok (s, last_proposer s)
    | Some _ => Ok (s, last_proposer s)
    end
  else
    let* rounds_to_catchup := checked_u 64 (block - block_number s) in
    let* (s, leader) := catch_up (Z.to_nat rounds_to_catchup) s None in
    Ok (set_block s block, leader).

Definition remove_validator (s : WeightedRoundRobin) (id : Z) : M WeightedRoundRobin :=
  let* v := AngstromValidator_new id 0 in
  Ok (set_validators s (hs_remove v (validators s))).

Definition add_validator (s : WeightedRoundRobin) (id vp : Z) : M WeightedRoundRobin :=
  let* v := AngstromValidator_new id vp in
  let* total_voting_power := sum_u64 (map voting_power (validators s)) in
  let* x := checked_u 64 (new_joiner_penalty_factor s * total_voting_power) in
  let* p := checked_i 64 (priority v - as_i64 (x / ONE_E3)) in
  Ok (set_validators s (hs_insert (set_priority v p) (validators s))).

End WithProfile.

(** ** Reference definitions over unbounded integers *)

Definition total (l : list AngstromValidator) : Z := sumZ (map voting_power l).
Definition prio_sum (l : list AngstromValidator) : Z := sumZ (map priority l).

Definition shift_by (d : Z) (l : list AngstromValidator) :=
  map (fun v => set_priority v (priority v - d)) l.
Definition center_pure (l : list AngstromValidator) :=
  shift_by (Z.quot (prio_sum l) (Z.of_nat (length l))) l.

Definition max_prio (l : list AngstromValidator) : Z := fold_left Z.max (map priority l) (i_min 64).
Definition min_prio (l : list AngstromValidator) : Z := fold_left Z.min (map priority l) (i_max 64).

Definition scale_pure (l : list AngstromValidator) :=
  let diff := max_prio l - min_prio l in
  let threshold := 2 * total l in
  if threshold <? diff then
    let scale := Z.quot (diff * ONE_E3) threshold in
    map (fun v => set_priority v (Z.quot (priority v * ONE_E3) scale)) l
  else l.

Definition bump (l : list AngstromValidator) :=
  map (fun v => set_priority v (priority v + voting_power v)) l.

Definition charge (t : Z) (w : AngstromValidator) := set_priority w (priority w - t).

Definition select_pure (l : list AngstromValidator) : option (Z * list AngstromValidator) :=
  w ← max_by (bump l);
  Some (peer_id w, hs_replace (charge (total l) w) (bump l)).

Definition round_pure (l : list AngstromValidator) : option (Z * list AngstromValidator) :=
  select_pure (scale_pure (center_pure l)).

(** ** Invariant

    [ok_set]: distinct peers, nonnegative powers, at most 1000 validators and a
    total power between 1000 (one unit) and 2^50.  [bounded]: all priorities in
    a window of width five times the total power around zero. *)

Definition within (lo hi : Z) (l : list AngstromValidator) : Prop :=
  Forall (fun v => lo <= priority v <= hi) l.

Record ok_set (l : list AngstromValidator) : Prop := {
  ok_nodup : NoDup (map peer_id l);
  ok_power : Forall (fun v => 0 <= voting_power v) l;
  ok_size : (length l <= 1000)%nat;
  ok_total : 1000 <= total l <= 2 ^ 50;
}.

Definition bounded (l : list AngstromValidator) : Prop :=
  exists lo hi, within lo hi l /\ hi - lo <= 5 * total l /\
                - 5 * total l <= lo /\ hi <= 5 * total l.

Definition same_set (l k : list AngstromValidator) : Prop :=
  map peer_id l = map peer_id k /\ map voting_power l = map voting_power k.

#[export] Instance same_set_equiv : Equivalence same_set.
Proof.
  split; unfold same_set.
  - done.
  - intros l k [-> ->]. done.
  - intros l k m [-> ->] [-> ->]. done.
Qed.

Lemma same_set_total l k : same_set l k -> total l = total k.
Proof. intros [_ H]. unfold total. by rewrite H. Qed.

Lemma same_set_length l k : same_set l k -> length l = length k.
Proof. intros [H _]. rewrite <- (length_map peer_id l), H, length_map. done. Qed.

Lemma powers_forall l :
  Forall (fun v => 0 <= voting_power v) l <-> Forall (fun x => 0 <= x) (map voting_power l).
Proof. by rewrite Forall_map. Qed.

#[export] Instance ok_set_proper : Proper (same_set ==> iff) ok_set.
Proof.
  assert (forall l k, same_set l k -> ok_set l -> ok_set k) as Hone.
  { intros l k H [H1 H2 H3 H4]. pose proof (same_set_total _ _ H). destruct H as [Hi Hv].
    split.
    - by rewrite <- Hi.
    - apply powers_forall. rewrite <- Hv. by apply powers_forall.
    - rewrite <- (same_set_length l k); [done | done].
    - lia. }
  intros l k H. split; apply Hone; [done | by symmetry].
Qed.

Lemma same_set_map f l :
  (forall v, peer_id (f v) = peer_id v /\ voting_power (f v) = voting_power v) ->
  same_set (map f l) l.
Proof.
  intros H. unfold same_set. rewrite !map_map.
  split; apply map_ext; intros v; apply H.
Qed.

Lemma same_set_set_priority g l : same_set (map (fun v => set_priority v (g v)) l) l.
Proof. by apply same_set_map. Qed.

Lemma center_same l : same_set (center_pure l) l.
Proof. apply same_set_set_priority. Qed.

Lemma scale_same l : same_set (scale_pure l) l.
Proof. unfold scale_pure. case_match; [apply same_set_set_priority | done]. Qed.

Lemma bump_same l : same_set (bump l) l.
Proof. apply same_set_set_priority. Qed.

#[export] Hint Resolve center_same scale_same bump_same same_set_set_priority : leader.

Lemma ok_nonempty l : ok_set l -> l <> [].
Proof. intros H ->. destruct H as [_ _ _ H]. cbv in H. destruct H. by apply H. Qed.

Lemma ok_power_le l v : ok_set l -> v ∈ l -> 0 <= voting_power v <= total l.
Proof.
  intros H Hv. pose proof (ok_power l H) as Hp. split.
  - rewrite Forall_forall in Hp. by apply Hp.
  - apply sumZ_elem; [by apply powers_forall | by apply list_elem_of_In, in_map, list_elem_of_In].
Qed.

(** ** Selecting the maximum *)

Lemma priority_cmp_trans_ge a b c :
  priority_cmp a b <> Lt -> priority_cmp b c <> Lt -> priority_cmp a c <> Lt.
Proof.
  unfold priority_cmp.
  destruct (Z.compare_spec (priority a) (priority b)),
    (Z.compare_spec (priority b) (priority c)),
    (Z.compare_spec (priority a) (priority c)); try lia; try done.
  all: destruct (Z.compare_spec (peer_id a) (peer_id b)),
    (Z.compare_spec (peer_id b) (peer_id c)),
    (Z.compare_spec (peer_id a) (peer_id c)); try lia; done.
Qed.

Lemma priority_cmp_total a b : priority_cmp a b <> Gt -> priority_cmp b a <> Lt.
Proof.
  unfold priority_cmp.
  rewrite (Z.compare_antisym (priority a)), (Z.compare_antisym (peer_id a)).
  by destruct (priority a ?= priority b); destruct (peer_id a ?= peer_id b); simpl.
Qed.

Lemma priority_cmp_refl a : priority_cmp a a <> Lt.
Proof. unfold priority_cmp. by rewrite !Z.compare_refl. Qed.

Lemma max_by_spec l m :
  max_by l = Some m -> m ∈ l /\ forall v, v ∈ l -> priority_cmp m v <> Lt.
Proof.
  destruct l as [| x l]; simpl; [done |]. intros [= <-].
  set (step := fun acc x0 => _).
  assert (forall l acc, (fold_left step l acc = acc \/ fold_left step l acc ∈ l) /\
            priority_cmp (fold_left step l acc) acc <> Lt /\
            forall v, v ∈ l -> priority_cmp (fold_left step l acc) v <> Lt) as H.
  { clear. induction l as [| y l IH]; intros acc; simpl.
    - split; [by left |]. split; [apply priority_cmp_refl |]. by intros v ?%not_elem_of_nil.
    - destruct (IH (step acc y)) as (Hin & Hge & Hall).
      assert (step acc y = acc \/ step acc y = y) as Hs
        by (unfold step; destruct (priority_cmp acc y); auto).
      assert (priority_cmp (step acc y) acc <> Lt /\ priority_cmp (step acc y) y <> Lt)
        as [Hsa Hsy].
      { unfold step. destruct (priority_cmp acc y) eqn:E.
        - split; [apply priority_cmp_total; congruence | apply priority_cmp_refl].
        - split; [apply priority_cmp_total; congruence | apply priority_cmp_refl].
        - split; [apply priority_cmp_refl | congruence]. }
      split; [| split].
      + rewrite elem_of_cons. destruct Hin as [-> | Hin]; [| tauto].
        destruct Hs as [-> | ->]; auto.
      + eapply priority_cmp_trans_ge; done.
      + intros v [-> | Hv]%elem_of_cons; [eapply priority_cmp_trans_ge; done | auto]. }
  destruct (H l x) as (Hin & Hge & Hall). split.
  - rewrite elem_of_cons. naive_solver.
  - intros v [-> | Hv]%elem_of_cons; auto.
Qed.

Lemma max_by_Some l : l <> [] -> exists m, max_by l = Some m.
Proof. destruct l; [done |]. intros _. eexists. done. Qed.

(** ** Each step, without overflow *)

Lemma i64_small B : 0 <= B -> B <= 2 ^ 63 - 1 -> forall x, - B <= x <= B -> i_min 64 <= x <= i_max 64.
Proof. intros HB0 HB x Hx. change (i_min 64) with (- 2 ^ 63). change (i_max 64) with (2 ^ 63 - 1). lia. Qed.

Ltac fits_i64 := change (i_min 64) with (- 2 ^ 63); change (i_max 64) with (2 ^ 63 - 1); lia.

Section Steps.
Context {P : Profile}.

Lemma sum_u64_Ok l :
  Forall (fun x => 0 <= x) l -> sumZ l <= u_max 64 -> sum_u64 l = Ok (sumZ l).
Proof.
  intros Hl Hs. unfold sum_u64.
  rewrite (M_fold_Ok _ Z.add (fun acc l => 0 <= acc /\ Forall (fun x => 0 <= x) l /\
                                           acc + sumZ l <= u_max 64)).
  - by rewrite fold_left_add_sumZ.
  - intros s x k (Hs0 & Hk & Hsum). apply Forall_cons in Hk as [Hx Hk]. simpl in Hsum.
    pose proof (sumZ_nonneg k Hk). split; [apply checked_u_Ok; lia |].
    split; [lia |]. split; [done | lia].
  - split; [lia |]. split; [done | lia].
Qed.

Lemma sum_i64_Ok l B :
  Forall (fun x => - B <= x <= B) l -> B * Z.of_nat (length l) <= 2 ^ 63 - 1 ->
  sum_i64 l = Ok (sumZ l).
Proof.
  intros Hl Hs. unfold sum_i64.
  rewrite (M_fold_Ok _ Z.add (fun acc l => Forall (fun x => - B <= x <= B) l /\
    - (2 ^ 63 - 1) + B * Z.of_nat (length l) <= acc <=
      2 ^ 63 - 1 - B * Z.of_nat (length l))).
  - by rewrite fold_left_add_sumZ.
  - intros s x k (Hk & Hsum). apply Forall_cons in Hk as [Hx Hk]. simpl length in Hsum.
    rewrite Nat2Z.inj_succ in Hsum.
    assert (0 <= B * Z.of_nat (length k)) by nia.
    split; [apply checked_i_Ok; fits_i64 |]. split; [done | lia].
  - split; [done | lia].
Qed.

Lemma total_Ok l : ok_set l -> sum_u64 (map voting_power l) = Ok (total l).
Proof.
  intros H. apply sum_u64_Ok.
  - apply powers_forall, H.
  - destruct (ok_total l H) as [_ Ht]. apply Z.le_trans with (2 ^ 50); [exact Ht | by vm_compute].
Qed.

Lemma quot_mid s n lo hi : 0 < n -> lo * n <= s <= hi * n -> lo <= Z.quot s n <= hi.
Proof.
  intros Hn Hs. pose proof (Z.quot_rem' s n) as E.
  destruct (Z.le_gt_cases 0 s).
  - pose proof (Z.rem_bound_pos s n ltac:(lia) Hn). nia.
  - pose proof (Z.rem_bound_pos (- s) n ltac:(lia) Hn) as Hr.
    rewrite Z.rem_opp_l in Hr by lia. nia.
Qed.

(** Extremes of the list, attained. *)
Lemma fold_max_spec l a :
  (fold_left Z.max l a = a \/ fold_left Z.max l a ∈ l) /\
  a <= fold_left Z.max l a /\ Forall (fun x => x <= fold_left Z.max l a) l.
Proof.
  revert a. induction l as [| x l IH]; intros a; simpl; [split; [by left | split; [lia | done]] |].
  destruct (IH (Z.max a x)) as (Hin & Hge & Hall).
  split; [| split; [lia | constructor; [lia | done]]].
  rewrite elem_of_cons. destruct Hin as [-> | Hin]; [lia | tauto].
Qed.

Lemma fold_min_spec l a :
  (fold_left Z.min l a = a \/ fold_left Z.min l a ∈ l) /\
  fold_left Z.min l a <= a /\ Forall (fun x => fold_left Z.min l a <= x) l.
Proof.
  revert a. induction l as [| x l IH]; intros a; simpl; [split; [by left | split; [lia | done]] |].
  destruct (IH (Z.min a x)) as (Hin & Hge & Hall).
  split; [| split; [lia | constructor; [lia | done]]].
  rewrite elem_of_cons. destruct Hin as [-> | Hin]; [lia | tauto].
Qed.

Lemma min_prio_spec l : l <> [] -> within (i_min 64) (i_max 64) l ->
  min_prio l ∈ map priority l /\ max_prio l ∈ map priority l /\
  within (min_prio l) (max_prio l) l.
Proof.
  intros Hne Hw. unfold min_prio, max_prio, within in *.
  destruct (fold_max_spec (map priority l) (i_min 64)) as (Hx & Hx1 & Hx2).
  destruct (fold_min_spec (map priority l) (i_max 64)) as (Hm & Hm1 & Hm2).
  rewrite Forall_map in Hx2, Hm2. rewrite Forall_forall in *.
  set (mx := fold_left Z.max _ _) in *. set (mn := fold_left Z.min _ _) in *.
  clearbody mx mn. destruct l as [| v l]; [done |].
  pose proof (Hw v ltac:(by left)) as Hv.
  pose proof (Hx2 v ltac:(by left)) as Hxv. pose proof (Hm2 v ltac:(by left)) as Hmv.
  simpl in Hxv, Hmv.
  assert (forall z, z = priority v -> z ∈ map priority (v :: l)) as Hhead
    by (intros z ->; left).
  split; [destruct Hm as [Hm | Hm]; [apply Hhead; lia | done] |].
  split; [destruct Hx as [Hx | Hx]; [apply Hhead; lia | done] |].
  intros u Hu. split; [by apply Hm2 | by apply Hx2].
Qed.

Lemma within_elem lo hi l x : within lo hi l -> x ∈ map priority l -> lo <= x <= hi.
Proof.
  intros Hw Hx. apply list_elem_of_In, in_map_iff in Hx as (v & <- & Hv).
  unfold within in Hw. rewrite Forall_forall in Hw. by apply Hw, list_elem_of_In.
Qed.

Lemma within_map lo hi lo' hi' g l :
  within lo hi l -> (forall v, v ∈ l -> lo <= priority v <= hi -> lo' <= g v <= hi') ->
  within lo' hi' (map (fun v => set_priority v (g v)) l).
Proof.
  unfold within. rewrite Forall_map, !Forall_forall. intros Hw Hg v Hv. simpl. auto.
Qed.

Lemma within_weaken lo hi lo' hi' l :
  within lo hi l -> lo' <= lo -> hi <= hi' -> within lo' hi' l.
Proof. intros Hw ? ?. eapply Forall_impl; [exact Hw |]. simpl. intros v ?. lia. Qed.

(** What centring gives: the true extremes straddle zero. *)
Definition centred (l : list AngstromValidator) : Prop :=
  exists lo hi, lo <= 0 <= hi /\ hi - lo <= 5 * total l /\
    within lo hi l /\ lo ∈ map priority l /\ hi ∈ map priority l.

Lemma bounded_i64 l : ok_set l -> bounded l -> within (i_min 64) (i_max 64) l.
Proof.
  intros Hok (lo & hi & Hw & _ & Hlo & Hhi). destruct (ok_total l Hok).
  eapply within_weaken; [done | fits_i64 | fits_i64].
Qed.

Lemma center_refines l :
  ok_set l -> bounded l ->
  center_priorities l = Ok (center_pure l) /\ centred (center_pure l).
Proof.
  intros Hok Hb. pose proof (bounded_i64 l Hok Hb) as H64.
  destruct Hb as (lo & hi & Hw & Hspread & Hlo & Hhi).
  pose proof (ok_nonempty l Hok) as Hne. destruct (ok_total l Hok) as [Ht1 Ht2].
  pose proof (ok_size l Hok) as Hn.
  assert (1 <= Z.of_nat (length l) <= 1000) as Hlen by (destruct l; [done | simpl in *; lia]).
  destruct (min_prio_spec l Hne H64) as (Hmin & Hmax & Hext).
  pose proof (within_elem _ _ _ _ Hw Hmin). pose proof (within_elem _ _ _ _ Hw Hmax).
  set (mn := min_prio l) in *. set (mx := max_prio l) in *.
  assert (Forall (fun x => mn <= x <= mx) (map priority l)) as Hsum
    by (apply Forall_map; exact Hext).
  apply sumZ_bounds in Hsum. rewrite length_map in Hsum. fold (prio_sum l) in Hsum.
  set (avg := Z.quot (prio_sum l) (Z.of_nat (length l))).
  assert (mn <= avg <= mx) as Havg by (apply quot_mid; lia).
  assert (within (mn - avg) (mx - avg) (center_pure l)) as Hc.
  { apply (within_map mn mx); [done |]. fold avg. intros. lia. }
  split.
  - unfold center_priorities.
    rewrite (sum_i64_Ok _ (5 * total l));
      [| rewrite Forall_map; eapply Forall_impl; [exact Hw |]; simpl; intros; lia
       | rewrite length_map; apply Z.le_trans with (5 * 2 ^ 50 * 1000);
         [apply Z.mul_le_mono_nonneg; lia | by vm_compute]].
    cbn [M_bind]. fold (prio_sum l).
    unfold as_i64. rewrite wrap_i_id by (lia || fits_i64).
    unfold i64_div. rewrite (proj2 (Z.eqb_neq _ 0)) by lia.
    fold avg. rewrite checked_i_Ok by fits_i64. cbn [M_bind].
    apply M_map_Ok. unfold within in Hext. rewrite Forall_forall in *. intros v Hv.
    specialize (Hext v Hv). rewrite checked_i_Ok by fits_i64. done.
  - exists (mn - avg), (mx - avg).
    pose proof (same_set_total _ _ (center_same l)) as ->.
    split; [lia |]. split; [lia |]. split; [done |].
    unfold center_pure, shift_by. fold avg. rewrite map_map. simpl.
    rewrite <- (map_map priority (fun p => p - avg)).
    split; by apply list_elem_of_In, (in_map (fun p => p - avg)), list_elem_of_In.
Qed.

Lemma centred_extremes l :
  ok_set l -> centred l ->
  min_prio l <= 0 <= max_prio l /\ max_prio l - min_prio l <= 5 * total l /\
  within (min_prio l) (max_prio l) l.
Proof.
  intros Hok (lo & hi & H0 & Hs & Hw & Hlo & Hhi). destruct (ok_total l Hok).
  assert (within (i_min 64) (i_max 64) l) as H64
    by (eapply within_weaken; [done | fits_i64 | fits_i64]).
  destruct (min_prio_spec l (ok_nonempty l Hok) H64) as (Hmin & Hmax & Hext).
  pose proof (within_elem _ _ _ _ Hw Hmin). pose proof (within_elem _ _ _ _ Hw Hmax).
  pose proof (within_elem _ _ _ _ Hext Hlo). pose proof (within_elem _ _ _ _ Hext Hhi).
  split; [lia |]. split; [lia | done].
Qed.

(** The scaling factor brings the spread under three times the total. *)
Lemma scale_shrinks d t s :
  1000 <= t -> 2 * t < d -> s = Z.quot (d * ONE_E3) (2 * t) ->
  1000 <= s /\ d * ONE_E3 / s <= 3 * t.
Proof.
  intros Ht Hd ->. unfold ONE_E3. rewrite Z.quot_div_nonneg by lia.
  set (s := d * 1000 / (2 * t)).
  assert (1000 <= s) by (apply Z.div_le_lower_bound; lia). split; [done |].
  pose proof (Z.mul_succ_div_gt (d * 1000) (2 * t) ltac:(lia)) as Hs. fold s in Hs.
  apply Z.div_le_upper_bound; [lia |]. nia.
Qed.

Lemma quot_window lo hi s :
  0 < s -> lo <= 0 <= hi ->
  Z.quot lo s <= 0 <= Z.quot hi s /\ Z.quot hi s - Z.quot lo s <= (hi - lo) / s.
Proof.
  intros Hs H. rewrite (Z.quot_div_nonneg hi s) by lia.
  assert (Z.quot lo s = - ((- lo) / s)) as ->.
  { rewrite <- (Z.opp_involutive lo) at 1. rewrite Z.quot_opp_l by lia.
    rewrite Z.quot_div_nonneg by lia. done. }
  pose proof (Z.div_pos hi s ltac:(lia) Hs). pose proof (Z.div_pos (- lo) s ltac:(lia) Hs).
  split; [lia |].
  apply Z.div_le_lower_bound; [done |].
  pose proof (Z.mul_div_le hi s Hs). pose proof (Z.mul_div_le (- lo) s Hs). lia.
Qed.
End Steps.

(** ** Peer ids identify validators *)

Lemma nodup_id_inj l v w :
  NoDup (map peer_id l) -> v ∈ l -> w ∈ l -> peer_id v = peer_id w -> v = w.
Proof.
  induction l as [| x l IH]; intros Hnd Hv Hw E; [by apply not_elem_of_nil in Hv |].
  apply NoDup_cons in Hnd as [Hx Hnd].
  assert (forall u, u ∈ l -> peer_id u <> peer_id x) as Hfresh.
  { intros u Hu Eu. apply Hx. rewrite <- Eu. by apply list_elem_of_In, in_map, list_elem_of_In. }
  apply elem_of_cons in Hv as [-> | Hv]; apply elem_of_cons in Hw as [-> | Hw]; [done | | |].
  - by destruct (Hfresh w Hw).
  - by destruct (Hfresh v Hv).
  - by apply IH.
Qed.

Lemma replace_same_set w c l :
  NoDup (map peer_id l) -> w ∈ l -> peer_id c = peer_id w ->
  voting_power c = voting_power w -> same_set (hs_replace c l) l.
Proof.
  intros Hnd Hw Hid Hvp. unfold same_set, hs_replace. rewrite !map_map.
  split; apply map_ext_in; intros x Hx%list_elem_of_In; unfold validator_eq.
  - destruct (Z.eqb_spec (peer_id c) (peer_id x)); done.
  - destruct (Z.eqb_spec (peer_id c) (peer_id x)) as [E | _]; [| done].
    rewrite Hvp. f_equal. apply (nodup_id_inj l); [done | done | done | congruence].
Qed.

Lemma replace_within c lo hi lo' hi' l :
  within lo hi l -> lo' <= priority c <= hi' -> lo' <= lo -> hi <= hi' ->
  within lo' hi' (hs_replace c l).
Proof.
  unfold within, hs_replace. rewrite Forall_map. intros Hw Hc Hl Hh.
  eapply Forall_impl; [exact Hw |]. simpl. intros x Hx.
  destruct (validator_eq c x); lia.
Qed.

Section Refinement.
Context {P : Profile}.

Lemma i64_div_Ok a b :
  b <> 0 -> i_min 64 <= Z.quot a b <= i_max 64 -> i64_div a b = Ok (Z.quot a b).
Proof.
  intros Hb Hq. unfold i64_div. rewrite (proj2 (Z.eqb_neq b 0)) by done. by apply checked_i_Ok.
Qed.

Lemma scale_refines l :
  ok_set l -> centred l ->
  scale_priorities l = Ok (scale_pure l) /\
  exists lo hi, lo <= 0 <= hi /\ hi - lo <= 3 * total l /\ within lo hi (scale_pure l).
Proof.
  intros Hok Hc. destruct (centred_extremes l Hok Hc) as (H0 & Hd & Hw).
  destruct (ok_total l Hok) as [Ht1 Ht2].
  unfold scale_priorities, scale_pure. fold (max_prio l) (min_prio l).
  rewrite total_Ok by done. cbn [M_bind].
  unfold as_i64. rewrite (wrap_i_id 64 (total l)) by (lia || fits_i64).
  rewrite !checked_i_Ok by fits_i64. cbn [M_bind].
  set (mn := min_prio l) in *. set (mx := max_prio l) in *.
  destruct (Z.ltb_spec (2 * total l) (mx - mn)) as [Hbig | Hsmall];
    [| split; [done |]; exists mn, mx; split; [done |]; split; [lia | done]].
  destruct (scale_shrinks (mx - mn) (total l) _ Ht1 Hbig eq_refl) as [Hs1 Hs3].
  set (s := Z.quot ((mx - mn) * ONE_E3) (2 * total l)) in *.
  unfold ONE_E3 in *.
  assert (s <= (mx - mn) * 1000) as Hsmax.
  { unfold s. rewrite Z.quot_div_nonneg by lia. apply Z.div_le_upper_bound; nia. }
  destruct (quot_window (mn * 1000) (mx * 1000) s ltac:(lia) ltac:(lia)) as [Hq0 Hq].
  split.
  - rewrite checked_i_Ok by fits_i64. cbn [M_bind].
    rewrite (i64_div_Ok _ (2 * total l)) by (fold s; lia || fits_i64). fold s. cbn [M_bind].
    apply M_map_Ok. unfold within in Hw. rewrite Forall_forall in *. intros v Hv.
    specialize (Hw v Hv). rewrite checked_i_Ok by fits_i64. cbn [M_bind].
    assert (mn * 1000 <= Z.quot (priority v * 1000) s <= mx * 1000) as Hquot
      by (apply quot_mid; nia).
    rewrite i64_div_Ok by (lia || fits_i64). done.
  - exists (Z.quot (mn * 1000) s), (Z.quot (mx * 1000) s). split; [done |]. split.
    + replace (mx * 1000 - mn * 1000) with ((mx - mn) * 1000) in Hq by lia. lia.
    + apply (within_map mn mx); [done |]. intros v _ Hv.
      split; apply Z.quot_le_mono; lia.
Qed.

Lemma select_refines l lo hi :
  ok_set l -> lo <= 0 <= hi -> hi - lo <= 3 * total l -> within lo hi l ->
  exists id l', select_pure l = Some (id, l') /\ proposer_selection l = Ok (id, l') /\
    id ∈ map peer_id l /\ same_set l' l /\ bounded l'.
Proof.
  intros Hok H0 Hs Hw. destruct (ok_total l Hok) as [Ht1 Ht2].
  assert (within lo (hi + total l) (bump l)) as Hbump.
  { apply (within_map lo hi); [done |]. intros v Hv Hp.
    pose proof (ok_power_le l v Hok Hv). lia. }
  assert (ok_set (bump l)) as Hokb by (rewrite bump_same; done).
  destruct (max_by_Some (bump l)) as [w Hm]; [by apply ok_nonempty |].
  destruct (max_by_spec _ _ Hm) as [Hin _].
  assert (lo <= priority w <= hi + total l) as Hpw.
  { eapply within_elem; [done |]. by apply list_elem_of_In, in_map, list_elem_of_In. }
  assert (same_set (hs_replace (charge (total l) w) (bump l)) l) as Hsame.
  { transitivity (bump l); [| apply bump_same].
    apply (replace_same_set w); [apply Hokb | done | done | done]. }
  exists (peer_id w), (hs_replace (charge (total l) w) (bump l)).
  split; [unfold select_pure; by rewrite Hm |]. split; [| split; [| split; [done |]]].
  - unfold proposer_selection. rewrite total_Ok by done. cbn [M_bind].
    rewrite (M_map_Ok _ (fun v => set_priority v (priority v + voting_power v))).
    2:{ unfold within in Hw. rewrite Forall_forall in *. intros v Hv.
        specialize (Hw v Hv). pose proof (ok_power_le l v Hok Hv).
        unfold as_i64. rewrite wrap_i_id by (lia || fits_i64).
        rewrite checked_i_Ok by fits_i64. done. }
    cbn [M_bind]. fold (bump l). rewrite Hm. cbn [M_bind unwrap].
    unfold as_i64. rewrite wrap_i_id by (lia || fits_i64).
    rewrite checked_i_Ok by fits_i64. done.
  - destruct (bump_same l) as [<- _].
    by apply list_elem_of_In, in_map, list_elem_of_In.
  - exists (lo - total l), (hi + total l). rewrite (same_set_total _ _ Hsame).
    split; [| lia]. eapply replace_within; [exact Hbump | simpl; lia | lia | lia].
Qed.

Lemma round_refines s :
  ok_set (validators s) -> bounded (validators s) ->
  exists id l', round_pure (validators s) = Some (id, l') /\
    round s = Ok (set_last (set_validators s l') (Some id), id) /\
    id ∈ map peer_id (validators s) /\ same_set l' (validators s) /\ bounded l'.
Proof.
  intros Hok Hb. set (l := validators s) in *.
  destruct (center_refines l Hok Hb) as [Ec Hc].
  assert (ok_set (center_pure l)) as Hokc by (rewrite center_same; done).
  destruct (scale_refines _ Hokc Hc) as (Es & lo & hi & H0 & Hs & Hw).
  rewrite <- (same_set_total _ _ (scale_same (center_pure l))) in Hs.
  assert (ok_set (scale_pure (center_pure l))) as Hoks by (rewrite scale_same; done).
  destruct (select_refines _ lo hi Hoks H0 Hs Hw) as (id & l' & Ep & Er & Hid & Hsame & Hb').
  exists id, l'. split; [exact Ep |].
  assert (same_set (scale_pure (center_pure l)) l) as Hall
    by (transitivity (center_pure l); auto with leader).
  split; [| split; [| split; [by rewrite Hsame | done]]].
  - unfold round. fold l. rewrite Ec. cbn [M_bind]. rewrite Es. cbn [M_bind].
    rewrite Er. done.
  - destruct Hall as [<- _]. done.
Qed.

Fixpoint catch_up_pure (n : nat) (l : list AngstromValidator) (leader : option Z) :
    option (list AngstromValidator * option Z) :=
  match n with
  | O => Some (l, leader)
  | S n => r ← round_pure l; catch_up_pure n r.2 (Some r.1)
  end.

Lemma catch_up_refines n s leader :
  ok_set (validators s) -> bounded (validators s) ->
  exists l' r s', catch_up_pure n (validators s) leader = Some (l', r) /\
    catch_up n s leader = Ok (s', r) /\ validators s' = l' /\
    same_set l' (validators s) /\ bounded l' /\
    (n <> O -> exists id, r = Some id /\ id ∈ map peer_id (validators s) /\
               last_proposer s' = Some id) /\
    (n = O -> r = leader /\ s' = s).
Proof.
  revert s leader. induction n as [| n IH]; intros s leader Hok Hb.
  - exists (validators s), leader, s. done.
  - destruct (round_refines s Hok Hb) as (id & l' & Ep & Er & Hid & Hsame & Hb').
    destruct (IH (set_last (set_validators s l') (Some id)) (Some id)) as
      (l'' & r & s' & Ep' & Er' & Hv & Hsame' & Hb'' & Hn & H0); simpl in *;
      [by rewrite Hsame | done |].
    exists l'', r, s'. rewrite Ep, Er. simpl. rewrite Ep', Er'.
    assert (same_set l'' (validators s)) as Hall by (by transitivity l').
    repeat (split; [done |]). split; [intros _ | done].
    destruct n as [| n].
    + destruct (H0 eq_refl) as [-> ->]. by exists id.
    + destruct (Hn ltac:(done)) as (id' & -> & Hid' & Hl). exists id'.
      split; [done |]. split; [| done]. by destruct Hsame as [<- _].
Qed.
End Refinement.

(** ** Iteration order does not matter *)

Lemma map_perm {A B} (f : A -> B) l k : l ≡ₚ k -> map f l ≡ₚ map f k.
Proof. apply Permutation_map. Qed.

Lemma fold_left_perm {A B} (f : B -> A -> B) l k :
  (forall b x y, f (f b x) y = f (f b y) x) -> l ≡ₚ k ->
  forall b, fold_left f l b = fold_left f k b.
Proof.
  intros Hf. induction 1 as [| x l k _ IH | x y l | l k m _ IH1 _ IH2]; intros b; simpl.
  - done.
  - apply IH.
  - by rewrite Hf.
  - by rewrite IH1, IH2.
Qed.

#[export] Instance total_perm : Proper ((≡ₚ) ==> (=)) total.
Proof. intros l k H. apply sumZ_perm, map_perm, H. Qed.
#[export] Instance prio_sum_perm : Proper ((≡ₚ) ==> (=)) prio_sum.
Proof. intros l k H. apply sumZ_perm, map_perm, H. Qed.
#[export] Instance max_prio_perm : Proper ((≡ₚ) ==> (=)) max_prio.
Proof. intros l k H. apply fold_left_perm; [lia | by apply map_perm]. Qed.
#[export] Instance min_prio_perm : Proper ((≡ₚ) ==> (=)) min_prio.
Proof. intros l k H. apply fold_left_perm; [lia | by apply map_perm]. Qed.

#[export] Instance center_perm : Proper ((≡ₚ) ==> (≡ₚ)) center_pure.
Proof.
  intros l k H. unfold center_pure. rewrite (prio_sum_perm _ _ H), (Permutation_length H).
  by apply map_perm.
Qed.

#[export] Instance scale_perm : Proper ((≡ₚ) ==> (≡ₚ)) scale_pure.
Proof.
  intros l k H. unfold scale_pure.
  rewrite (max_prio_perm _ _ H), (min_prio_perm _ _ H), (total_perm _ _ H).
  case_match; [by apply map_perm | done].
Qed.

#[export] Instance bump_perm : Proper ((≡ₚ) ==> (≡ₚ)) bump.
Proof. intros l k H. by apply map_perm. Qed.

Lemma max_by_perm l k : NoDup (map peer_id l) -> l ≡ₚ k -> max_by l = max_by k.
Proof.
  intros Hnd H. destruct (decide (l = [])) as [-> | Hne].
  - by apply Permutation_nil in H as ->.
  - destruct (max_by_Some l Hne) as [m Hm].
    destruct (max_by_Some k) as [m' Hm']; [intros ->; by apply Permutation_sym, Permutation_nil in H |].
    rewrite Hm, Hm'. f_equal.
    destruct (max_by_spec _ _ Hm) as [Hin Hge]. destruct (max_by_spec _ _ Hm') as [Hin' Hge'].
    assert (m' ∈ l) as Hin2 by (by rewrite H).
    assert (m ∈ k) as Hin3 by (by rewrite <- H).
    apply (nodup_id_inj l); [done | done | done |].
    specialize (Hge m' Hin2). specialize (Hge' m Hin3). unfold priority_cmp in *.
    destruct (Z.compare_spec (priority m) (priority m')),
      (Z.compare_spec (priority m') (priority m)); try lia; try done.
    destruct (Z.compare_spec (peer_id m) (peer_id m')),
      (Z.compare_spec (peer_id m') (peer_id m)); try lia; done.
Qed.

Lemma select_perm l k id l' :
  NoDup (map peer_id l) -> l ≡ₚ k -> select_pure l = Some (id, l') ->
  exists k', select_pure k = Some (id, k') /\ l' ≡ₚ k'.
Proof.
  intros Hnd H Hs. unfold select_pure in *.
  assert (bump l ≡ₚ bump k) as Hb by (by apply bump_perm).
  rewrite <- (max_by_perm (bump l) (bump k)); [| by destruct (bump_same l) as [-> _] | done].
  destruct (max_by (bump l)) as [w |]; simpl in *; [| done]. injection Hs as <- <-.
  eexists. split; [done |]. rewrite (total_perm _ _ H). by apply map_perm.
Qed.

Lemma round_pure_perm l k id l' :
  NoDup (map peer_id l) -> l ≡ₚ k -> round_pure l = Some (id, l') ->
  exists k', round_pure k = Some (id, k') /\ l' ≡ₚ k'.
Proof.
  intros Hnd H. apply select_perm.
  - destruct (scale_same (center_pure l)) as [-> _]. by destruct (center_same l) as [-> _].
  - by rewrite H.
Qed.

Lemma round_pure_ids l id l' :
  NoDup (map peer_id l) -> round_pure l = Some (id, l') -> map peer_id l' = map peer_id l.
Proof.
  intros Hnd H. unfold round_pure, select_pure in H.
  set (k := scale_pure (center_pure l)) in *.
  assert (map peer_id k = map peer_id l) as Hk.
  { unfold k. destruct (scale_same (center_pure l)) as [-> _]. apply center_same. }
  destruct (max_by (bump k)) as [w |]; simpl in H; [| done]. injection H as <- <-.
  unfold hs_replace. rewrite map_map, <- Hk.
  destruct (bump_same k) as [<- _]. apply map_ext. intros x.
  unfold validator_eq. destruct (Z.eqb_spec (peer_id (charge (total k) w)) (peer_id x)); done.
Qed.

Lemma catch_up_pure_perm n l k leader l' r :
  NoDup (map peer_id l) -> l ≡ₚ k -> catch_up_pure n l leader = Some (l', r) ->
  exists k', catch_up_pure n k leader = Some (k', r) /\ l' ≡ₚ k'.
Proof.
  revert l k leader. induction n as [| n IH]; intros l k leader Hnd H; simpl.
  - intros [= <- <-]. by exists k.
  - destruct (round_pure l) as [[id m] |] eqn:E; simpl; [| done]. intros Hc.
    destruct (round_pure_perm l k id m Hnd H E) as (m' & -> & Hm). simpl.
    apply (IH m); [by rewrite (round_pure_ids l id m) | done | done].
Qed.

#[export] Instance within_perm lo hi : Proper ((≡ₚ) ==> iff) (within lo hi).
Proof. intros l k H. unfold within. by rewrite H. Qed.

Lemma ok_set_perm l k : l ≡ₚ k -> ok_set l -> ok_set k.
Proof.
  intros H [H1 H2 H3 H4]. split.
  - by rewrite <- (map_perm peer_id _ _ H).
  - by rewrite <- H.
  - by rewrite <- (Permutation_length H).
  - by rewrite <- (total_perm _ _ H).
Qed.

Lemma bounded_perm l k : l ≡ₚ k -> bounded l -> bounded k.
Proof.
  intros H (lo & hi & Hb). exists lo, hi. by rewrite <- (within_perm lo hi _ _ H), <- (total_perm _ _ H).
Qed.

(** ** The invariant of the running state *)

Record inv (s : WeightedRoundRobin) : Prop := {
  inv_set : ok_set (validators s);
  inv_bounded : bounded (validators s);
  inv_fresh : last_proposer s = None ->
    exists lo hi, lo <= 0 <= hi /\ hi - lo <= 3 * total (validators s) /\
                  within lo hi (validators s);
  inv_last : forall p, last_proposer s = Some p -> p ∈ map peer_id (validators s);
}.

Lemma inv_perm s s' :
  validators s ≡ₚ validators s' -> last_proposer s = last_proposer s' -> inv s -> inv s'.
Proof.
  intros H Hl [H1 H2 H3 H4]. split.
  - by eapply ok_set_perm.
  - by eapply bounded_perm.
  - rewrite <- Hl. intros Hn. destruct (H3 Hn) as (lo & hi & ? & ? & ?). exists lo, hi.
    by rewrite <- (within_perm lo hi _ _ H), <- (total_perm _ _ H).
  - intros p Hp. rewrite <- (map_perm peer_id _ _ H). apply H4. congruence.
Qed.

Lemma replace_notin c l :
  Forall (fun x => peer_id x <> peer_id c) l -> hs_replace c l = l.
Proof.
  induction 1 as [| x l Hx Hl IH]; simpl; [done |].
  unfold validator_eq at 1. destruct (Z.eqb_spec (peer_id c) (peer_id x)); [congruence |].
  f_equal. exact IH.
Qed.

Lemma replace_sum w t l :
  NoDup (map peer_id l) -> w ∈ l ->
  prio_sum (hs_replace (charge t w) l) = prio_sum l - t.
Proof.
  induction l as [| x l IH]; intros Hnd Hw; [by apply not_elem_of_nil in Hw |].
  apply NoDup_cons in Hnd as [Hx Hnd].
  assert (forall u, u ∈ l -> peer_id u <> peer_id x) as Hfresh.
  { intros u Hu Eu. apply Hx. rewrite <- Eu. by apply list_elem_of_In, in_map, list_elem_of_In. }
  unfold prio_sum in *. simpl. unfold validator_eq at 1. simpl.
  apply elem_of_cons in Hw as [-> | Hw].
  - rewrite Z.eqb_refl. simpl. fold (hs_replace (charge t x) l).
    rewrite replace_notin by (rewrite Forall_forall; exact Hfresh). lia.
  - destruct (Z.eqb_spec (peer_id w) (peer_id x)) as [E | _]; [by destruct (Hfresh w Hw) |].
    fold (hs_replace (charge t w) l). rewrite IH by done. lia.
Qed.

Lemma bump_sum l : prio_sum (bump l) = prio_sum l + total l.
Proof. unfold prio_sum, total, bump. rewrite map_map. induction l; simpl in *; lia. Qed.

Lemma window_bounded l lo hi :
  1000 <= total l -> lo <= 0 <= hi -> hi - lo <= 3 * total l -> within lo hi l -> bounded l.
Proof. intros Ht H0 Hs Hw. exists lo, hi. split; [done | lia]. Qed.

(** ** The proposer of a height

    [leads l d b s id]: the state [s] of a node at block [b] is the one that [b - d]
    rounds from the validators [l] of block [d] lead to, and [id] is the proposer. *)

Definition leads (l : list AngstromValidator) (d b : Z) (s : WeightedRoundRobin) (id : Z) : Prop :=
  d < b /\ catch_up_pure (Z.to_nat (b - d)) l None = Some (validators s, Some id) /\
  block_number s = b /\ last_proposer s = Some id.

Lemma catch_up_pure_add n m l leader :
  catch_up_pure (n + m) l leader = catch_up_pure n l leader ≫= fun r => catch_up_pure m r.1 r.2.
Proof.
  revert l leader. induction n as [| n IH]; intros l leader; [done |]. cbn [Nat.add catch_up_pure].
  destruct (round_pure l) as [[id k] |]; [| done]. apply IH.
Qed.

(** The proposer of a later height is that of the rounds since the start, however
    the node got there. *)
Lemma leads_choose {P : Profile} l d b s id b' :
  ok_set l -> bounded l -> leads l d b s id -> 0 <= b' - b <= u_max 64 ->
  exists s' id', choose_proposer s b' = Ok (s', Some id') /\ leads l d b' s' id' /\ id' ∈ map peer_id l.
Proof.
  intros Hok Hb (Hd & Hc & Hn & Hl) Hr.
  destruct (catch_up_refines (Z.to_nat (b - d)) (mkWRR l 0 0 None) None Hok Hb) as
    (l1 & r & s1 & Hc1 & _ & _ & Hs1 & Hb1 & Hid & _).
  destruct (Hid ltac:(lia)) as (id1 & -> & Hid1 & _). cbn in Hid1.
  cbn [validators] in Hc1, Hs1. rewrite Hc in Hc1. injection Hc1 as <- <-. unfold choose_proposer. rewrite Hn, Hl.
  destruct (Z.eqb_spec b' b) as [-> |]; [by exists s, id |].
  rewrite checked_u_Ok by done. cbn [M_bind].
  assert (Hok1 : ok_set (validators s)) by (by rewrite Hs1).
  destruct (catch_up_refines (Z.to_nat (b' - b)) s None Hok1 Hb1) as
    (l2 & r2 & s2 & Hc2 & E2 & Hv2 & _ & _ & Hid2 & _).
  destruct (Hid2 ltac:(lia)) as (id2 & -> & Hm2 & Hl2).
  rewrite E2. cbn [M_bind]. exists (set_block s2 b'), id2. split_and!; [done | | by destruct Hs1 as [<- _]].
  split_and!; [lia | | done | done].
  replace (Z.to_nat (b' - d)) with (Z.to_nat (b - d) + Z.to_nat (b' - b))%nat by lia.
  rewrite catch_up_pure_add, Hc. cbn. destruct (Z.to_nat (b' - b)) eqn:Ek; [lia |].
  cbn [catch_up_pure] in Hc2 |- *. by rewrite Hc2, Hv2.
Qed.

Lemma hs_from_iter_id l : NoDup (map peer_id l) -> hs_from_iter l = l.
Proof.
  intros H. unfold hs_from_iter.
  assert (Hg : forall l acc, NoDup (map peer_id (acc ++ l)) -> fold_left (fun acc v => hs_insert v acc) l acc = acc ++ l).
  { clear. induction l as [| v l IH]; intros acc H; cbn; [by rewrite app_nil_r |].
    unfold hs_insert at 2. destruct (existsb (validator_eq v) acc) eqn:Ev.
    - apply existsb_exists in Ev as (w & Hw%list_elem_of_In & Heq%Z.eqb_eq).
      rewrite map_app in H. apply NoDup_app in H as (_ & H & _). destruct (H (peer_id w)).
      + by apply list_elem_of_fmap_2.
      + cbn. rewrite Heq. apply list_elem_of_here.
    - rewrite IH; by rewrite <- (assoc_L (++)). }
  by apply Hg.
Qed.

(** The first proposer of a node that starts after block [d]. *)
Lemma leads_new {P : Profile} vs d b :
  ok_set vs -> bounded vs -> 0 < b - d <= u_max 64 ->
  exists s id, choose_proposer (WeightedRoundRobin_new vs d) b = Ok (s, Some id) /\ leads vs d b s id /\
    id ∈ map peer_id vs.
Proof.
  intros Hok Hb Hr. unfold choose_proposer, WeightedRoundRobin_new. cbn [block_number].
  rewrite hs_from_iter_id by apply Hok. destruct (Z.eqb_spec b d); [lia |].
  rewrite checked_u_Ok by lia. cbn [M_bind].
  destruct (catch_up_refines (Z.to_nat (b - d)) (mkWRR vs PENALTY_FACTOR d None) None Hok Hb) as
    (l2 & r2 & s2 & Hc2 & E2 & Hv2 & _ & _ & Hid2 & _).
  destruct (Hid2 ltac:(lia)) as (id2 & -> & Hm2 & Hl2). rewrite E2. cbn [M_bind].
  exists (set_block s2 b), id2. split_and!; [done | | done].
  split_and!; [lia | cbn in Hc2 |- *; by rewrite Hc2, Hv2 | done | done].
Qed.

Lemma leads_perm l k d b s s' id id' :
  NoDup (map peer_id l) -> l ≡ₚ k -> leads l d b s id -> leads k d b s' id' -> id = id'.
Proof.
  intros Hnd Hp (_ & H1 & _) (_ & H2 & _).
  destruct (catch_up_pure_perm _ _ _ _ _ _ Hnd Hp H1) as (m & Hm & _). congruence.
Qed.

(** ** Properties *)

(** From any state satisfying the invariant, asking for the proposer of the
    current or any later block returns a proposer that is one of the
    validators, never panics or overflows (in either build profile, however
    many rounds have to be caught up), keeps the validator set and its powers,
    and re-establishes the invariant. *)
Theorem choose_proposer_safe (P : Profile) s b :
  inv s -> 0 <= b - block_number s <= u_max 64 ->
  exists s' id, choose_proposer s b = Ok (s', Some id) /\
    id ∈ map peer_id (validators s) /\ inv s' /\ block_number s' = b /\
    same_set (validators s') (validators s) /\ last_proposer s' = Some id.
Proof.
  intros Hinv Hblk. pose proof Hinv as [Hok Hb Hf Hlast]. unfold choose_proposer.
  destruct (Z.eqb_spec b (block_number s)) as [-> | Hne].
  - destruct (last_proposer s) as [p |] eqn:Hl.
    + exists s, p. split; [done |]. split; [by apply Hlast | done].
    + destruct (Hf eq_refl) as (lo & hi & H0 & Hs & Hw).
      destruct (select_refines _ lo hi Hok H0 Hs Hw) as (id & l' & _ & E & Hid & Hsame & Hb').
      rewrite E. cbn [M_bind]. eexists _, id. split; [done |]. split; [done |].
      split; [| done]. split; simpl; [by rewrite Hsame | done | done |].
      intros p [= <-]. by destruct Hsame as [-> _].
  - rewrite checked_u_Ok by done. cbn [M_bind].
    destruct (catch_up_refines (Z.to_nat (b - block_number s)) s None Hok Hb) as
      (l' & r & s' & _ & E & Hv & Hsame & Hb' & Hn & _).
    destruct (Hn ltac:(lia)) as (id & -> & Hid & Hl). rewrite E. cbn [M_bind].
    rewrite <- Hv in Hsame, Hb'.
    exists (set_block s' b), id. split; [done |]. split; [done |].
    split; [| split; [done |]; split; done].
    split; simpl; [by rewrite Hsame | done | congruence |].
    intros p Hp. destruct Hsame as [-> _]. congruence.
Qed.

(** Three validators as [WeightedRoundRobin::new] builds them. *)
Definition demo_state : WeightedRoundRobin :=
  WeightedRoundRobin_new
    [mkValidator 7 100000 0; mkValidator 3 200000 0; mkValidator 9 300000 0] 10.

Lemma demo_inv : inv demo_state.
Proof.
  assert (total (validators demo_state) = 600000) as Ht by done.
  assert (within 0 0 (validators demo_state)) as Hw by (repeat constructor; simpl; lia).
  split.
  - split.
    + by apply (bool_decide_unpack _).
    + repeat constructor; simpl; lia.
    + simpl. lia.
    + rewrite Ht. lia.
  - apply (window_bounded _ 0 0); [rewrite Ht; lia | lia | rewrite Ht; lia | done].
  - intros _. exists 0, 0. split; [lia |]. split; [rewrite Ht; lia | done].
  - done.
Defined.

Lemma choose_proposer_safe_witness :
  exists s' id, @choose_proposer release demo_state 14 = Ok (s', Some id) /\
    id ∈ map peer_id (validators demo_state) /\ inv s' /\ block_number s' = 14 /\
    same_set (validators s') (validators demo_state) /\ last_proposer s' = Some id.
Proof.
  apply (choose_proposer_safe release demo_state 14); [exact demo_inv |].
  split; vm_compute; discriminate.
Defined.

(** The proposer does not depend on the hash-table order: two nodes whose
    validator sets have the same members choose the same proposer for every
    block from the current one on, and end with the same members again. *)
Theorem choose_proposer_deterministic (P : Profile) s1 s2 b :
  inv s1 -> validators s1 ≡ₚ validators s2 -> block_number s1 = block_number s2 ->
  last_proposer s1 = last_proposer s2 -> 0 <= b - block_number s1 <= u_max 64 ->
  exists s1' s2' r, choose_proposer s1 b = Ok (s1', r) /\ choose_proposer s2 b = Ok (s2', r) /\
    validators s1' ≡ₚ validators s2'.
Proof.
  intros Hinv Hperm Hbn Hlp Hblk.
  pose proof Hinv as [Hok Hb Hf _]. pose proof (inv_perm _ _ Hperm Hlp Hinv) as [Hok2 Hb2 Hf2 _].
  pose proof (ok_nodup _ Hok) as Hnd. unfold choose_proposer. rewrite <- Hbn, <- Hlp.
  destruct (Z.eqb_spec b (block_number s1)) as [-> | Hne].
  - destruct (last_proposer s1) as [p |] eqn:Hl.
    + exists s1, s2, (Some p). split; [done |]. split; done.
    + destruct (Hf eq_refl) as (lo & hi & H0 & Hs & Hw).
      rewrite <- Hlp in Hf2. destruct (Hf2 eq_refl) as (lo2 & hi2 & H02 & Hs2 & Hw2).
      destruct (select_refines _ lo hi Hok H0 Hs Hw) as (id & l' & Ep & E & _).
      destruct (select_refines _ lo2 hi2 Hok2 H02 Hs2 Hw2) as (id2 & l2' & Ep2 & E2 & _).
      destruct (select_perm _ _ _ _ Hnd Hperm Ep) as (k' & Ek & Hk).
      rewrite Ep2 in Ek. injection Ek as -> ->.
      rewrite E, E2. cbn [M_bind]. eexists _, _, (Some id). split; [done |]. split; done.
  - rewrite checked_u_Ok by done. cbn [M_bind].
    destruct (catch_up_refines (Z.to_nat (b - block_number s1)) s1 None Hok Hb) as
      (l' & r & s' & Ep & E & Hv & _).
    destruct (catch_up_refines (Z.to_nat (b - block_number s1)) s2 None Hok2 Hb2) as
      (l2' & r2 & s2' & Ep2 & E2 & Hv2 & _).
    destruct (catch_up_pure_perm _ _ _ _ _ _ Hnd Hperm Ep) as (k' & Ek & Hk).
    rewrite Ep2 in Ek. injection Ek as -> ->.
    rewrite E, E2. cbn [M_bind]. eexists _, _, r. split; [done |]. split; [done |].
    simpl. by rewrite Hv, Hv2.
Qed.

Lemma choose_proposer_deterministic_witness :
  exists s1' s2' r,
    @choose_proposer dev demo_state 13 = Ok (s1', r) /\
    @choose_proposer dev (set_validators demo_state (reverse (validators demo_state))) 13
      = Ok (s2', r) /\ validators s1' ≡ₚ validators s2'.
Proof.
  apply (choose_proposer_deterministic dev demo_state
           (set_validators demo_state (reverse (validators demo_state))) 13).
  - exact demo_inv.
  - symmetry. apply reverse_Permutation.
  - reflexivity.
  - reflexivity.
  - split; vm_compute; discriminate.
Defined.

(** A selection round redistributes priority without creating any: whenever
    the priorities lie in the window that centring and scaling establish, the
    sum of all priorities is the same before and after, the proposer is the
    validator whose raised priority is highest, and a tie goes to the greatest
    peer id. *)
Theorem selection_conserves (P : Profile) l lo hi :
  ok_set l -> lo <= 0 <= hi -> hi - lo <= 3 * total l -> within lo hi l ->
  exists w l', proposer_selection l = Ok (peer_id w, l') /\ prio_sum l' = prio_sum l /\
    w ∈ bump l /\
    forall v, v ∈ bump l -> priority v < priority w \/
                            (priority v = priority w /\ peer_id v <= peer_id w).
Proof.
  intros Hok H0 Hs Hw.
  destruct (select_refines l lo hi Hok H0 Hs Hw) as (id & l' & Ep & E & _).
  unfold select_pure in Ep. destruct (max_by (bump l)) as [w |] eqn:Hm; simpl in Ep; [| done].
  injection Ep as <- <-. destruct (max_by_spec _ _ Hm) as [Hin Hge].
  exists w. eexists. split; [exact E |]. split; [| split; [done |]].
  - rewrite replace_sum; [rewrite bump_sum; lia | | done].
    destruct (bump_same l) as [-> _]. apply Hok.
  - intros v Hv. specialize (Hge v Hv). unfold priority_cmp in Hge.
    destruct (Z.compare_spec (priority w) (priority v)); [| done | lia].
    destruct (Z.compare_spec (peer_id w) (peer_id v)); [lia | done | lia].
Qed.

Lemma selection_conserves_witness :
  exists w l', @proposer_selection dev (validators demo_state) = Ok (peer_id w, l') /\
    prio_sum l' = prio_sum (validators demo_state) /\ w ∈ bump (validators demo_state) /\
    forall v, v ∈ bump (validators demo_state) ->
      priority v < priority w \/ (priority v = priority w /\ peer_id v <= peer_id w).
Proof.
  apply (selection_conserves dev (validators demo_state) 0 0).
  - apply demo_inv.
  - lia.
  - by vm_compute.
  - repeat constructor; simpl; lia.
Defined.

(** Asking for a block before the current one (a reorg that lowers the head)
    underflows the round count: with overflow checks the node panics, without
    them it runs the catch-up loop for 2^64 minus the distance rounds. *)
Theorem choose_proposer_behind s b :
  0 <= b < block_number s -> block_number s <= u_max 64 ->
  @choose_proposer dev s b = Panic /\
  @choose_proposer release s b =
    M_bind (fun r => Ok (set_block r.1 b, r.2))
           (@catch_up release (Z.to_nat (2 ^ 64 - (block_number s - b))) s None).
Proof.
  intros Hb Hmax. change (u_max 64) with (2 ^ 64 - 1) in Hmax.
  unfold choose_proposer. destruct (Z.eqb_spec b (block_number s)); [lia |].
  assert (fits_u 64 (b - block_number s) = false) as E.
  { destruct (fits_u _ _) eqn:F; [| done]. apply fits_u_true in F. lia. }
  unfold checked_u. rewrite E. cbn [overflow_checks dev release M_bind]. split; [done |].
  assert (wrap_u 64 (b - block_number s) = 2 ^ 64 - (block_number s - b)) as ->.
  { unfold wrap_u. rewrite <- (Z_mod_plus_full _ 1). rewrite Z.mod_small by lia. lia. }
  by destruct (catch_up _ s None) as [[s' r] | |].
Qed.

Lemma choose_proposer_behind_witness : @choose_proposer dev demo_state 9 = Panic.
Proof.
  assert (0 <= 9 < block_number demo_state) as Hb by (simpl; lia).
  assert (block_number demo_state <= u_max 64) as Hmax by (vm_compute; discriminate).
  exact (proj1 (choose_proposer_behind demo_state 9 Hb Hmax)).
Defined.
