(* ===== verification/Orders.v ===== *)
(** * Orders

    The order types users and searchers sign (crates/types/src/sol_bindings/
    rpc_orders.rs), the trait [RawPoolOrder] every order type implements
    (sol_bindings/ext/mod.rs) with its implementations
    (sol_bindings/ext/grouped_orders.rs), the validation priority of orders, and
    the records the pool and the matcher exchange about them (orders/*.rs,
    primitive/validation.rs).

    Addresses, hashes and pool ids are [Z]; byte strings are lists of bytes.
    The code generated by the [sol!] macro, Keccak, ECDSA recovery and the
    [pade] codec are not part of the repository: they are the parameters
    [SolStruct] and [OrderCrypto]. *)

From S2P Require Import Prelude Uniswap Ray.

Abbreviation Address := Z (only parsing).
Abbreviation B256 := Z (only parsing).
Abbreviation Bytes := (list Z) (only parsing).
Abbreviation PoolId := Z (only parsing).

(** ** Signed structs (the [sol!] block of rpc_orders.rs) *)

Record OrderMeta := mkOrderMeta {
  isEcdsa : bool;
  meta_from : Address;
  signature : Bytes;
}.

Record PartialStandingOrder := mkPartialStandingOrder {
  ps_ref_id : Z;
  ps_min_amount_in : Z;
  ps_max_amount_in : Z;
  ps_max_extra_fee_asset0 : Z;
  ps_min_price : Z;
  ps_use_internal : bool;
  ps_asset_in : Address;
  ps_asset_out : Address;
  ps_recipient : Address;
  ps_hook_data : Bytes;
  ps_nonce : Z;
  ps_deadline : Z;
  ps_meta : OrderMeta;
}.

Record ExactStandingOrder := mkExactStandingOrder {
  es_ref_id : Z;
  es_exact_in : bool;
  es_amount : Z;
  es_max_extra_fee_asset0 : Z;
  es_min_price : Z;
  es_use_internal : bool;
  es_asset_in : Address;
  es_asset_out : Address;
  es_recipient : Address;
  es_hook_data : Bytes;
  es_nonce : Z;
  es_deadline : Z;
  es_meta : OrderMeta;
}.

Record PartialFlashOrder := mkPartialFlashOrder {
  pf_ref_id : Z;
  pf_min_amount_in : Z;
  pf_max_amount_in : Z;
  pf_max_extra_fee_asset0 : Z;
  pf_min_price : Z;
  pf_use_internal : bool;
  pf_asset_in : Address;
  pf_asset_out : Address;
  pf_recipient : Address;
  pf_hook_data : Bytes;
  pf_valid_for_block : Z;
  pf_meta : OrderMeta;
}.

Record ExactFlashOrder := mkExactFlashOrder {
  ef_ref_id : Z;
  ef_exact_in : bool;
  ef_amount : Z;
  ef_max_extra_fee_asset0 : Z;
  ef_min_price : Z;
  ef_use_internal : bool;
  ef_asset_in : Address;
  ef_asset_out : Address;
  ef_recipient : Address;
  ef_hook_data : Bytes;
  ef_valid_for_block : Z;
  ef_meta : OrderMeta;
}.

Record TopOfBlockOrder := mkTopOfBlockOrder {
  tob_quantity_in : Z;
  tob_quantity_out : Z;
  tob_max_gas_asset0 : Z;
  tob_use_internal : bool;
  tob_asset_in : Address;
  tob_asset_out : Address;
  tob_recipient : Address;
  tob_valid_for_block : Z;
  tob_meta : OrderMeta;
}.

Inductive AllOrders :=
| ExactStanding (o : ExactStandingOrder)
| PartialStanding (o : PartialStandingOrder)
| ExactFlash (o : ExactFlashOrder)
| PartialFlash (o : PartialFlashOrder)
| TOB (o : TopOfBlockOrder).

Inductive StandingVariants :=
| StandingPartial (o : PartialStandingOrder)
| StandingExact (o : ExactStandingOrder).

Inductive FlashVariants :=
| FlashPartial (o : PartialFlashOrder)
| FlashExact (o : ExactFlashOrder).

Inductive GroupedVanillaOrder :=
| VanillaStanding (o : StandingVariants)
| VanillaKillOrFill (o : FlashVariants).

Inductive GroupedComposableOrder :=
| ComposablePartial (o : StandingVariants)
| ComposableKillOrFill (o : FlashVariants).

Inductive GroupedUserOrder :=
| Vanilla (o : GroupedVanillaOrder)
| Composable (o : GroupedComposableOrder).

#[export] Instance OrderMeta_eq_dec : EqDecision OrderMeta.
Proof. solve_decision. Defined.
#[export] Instance PartialStandingOrder_eq_dec : EqDecision PartialStandingOrder.
Proof. solve_decision. Defined.
#[export] Instance ExactStandingOrder_eq_dec : EqDecision ExactStandingOrder.
Proof. solve_decision. Defined.
#[export] Instance PartialFlashOrder_eq_dec : EqDecision PartialFlashOrder.
Proof. solve_decision. Defined.
#[export] Instance ExactFlashOrder_eq_dec : EqDecision ExactFlashOrder.
Proof. solve_decision. Defined.
#[export] Instance TopOfBlockOrder_eq_dec : EqDecision TopOfBlockOrder.
Proof. solve_decision. Defined.
#[export] Instance AllOrders_eq_dec : EqDecision AllOrders.
Proof. solve_decision. Defined.

(** ** Order metadata (orders/orderpool/mod.rs, sol_bindings/ext/mod.rs) *)

Inductive RespendAvoidanceMethod := Nonce (n : Z) | Block (b : Z).

Inductive OrderLocation := Limit | Searcher.

Record OrderId := mkOrderId {
  id_address : Address;
  id_pool_id : PoolId;
  id_hash : B256;
  id_reuse_avoidance : RespendAvoidanceMethod;
  id_deadline : option Z;
  id_flash_block : option Z;
  id_location : OrderLocation;
}.

Record OrderPriorityData := mkOrderPriorityData {
  pd_price : Z;
  pd_volume : Z;
  pd_gas : Z;
  pd_gas_units : Z;
}.

#[export] Instance RespendAvoidanceMethod_eq_dec : EqDecision RespendAvoidanceMethod.
Proof. solve_decision. Defined.
#[export] Instance OrderLocation_eq_dec : EqDecision OrderLocation.
Proof. solve_decision. Defined.
#[export] Instance OrderId_eq_dec : EqDecision OrderId.
Proof. solve_decision. Defined.

(** [Ordering::then_with]. *)
Definition then_with (c d : comparison) : comparison :=
  match c with Eq => d | _ => c end.

(** [Ord] on [bool]: [false < true]. *)
Definition bool_cmp (a b : bool) : comparison :=
  match a, b with false, true => Lt | true, false => Gt | _, _ => Eq end.

(** [Ord for OrderPriorityData]. *)
Definition priority_data_cmp (a b : OrderPriorityData) : comparison :=
  then_with (pd_price a ?= pd_price b)
  (then_with (pd_volume a ?= pd_volume b)
  (then_with (pd_gas a ?= pd_gas b)
             (pd_gas_units a ?= pd_gas_units b))).

Definition get_ord_for_pending_orders (r : RespendAvoidanceMethod) : Z :=
  match r with Nonce n => n | Block _ => 0 end.

Record OrderValidationPriority := mkOrderValidationPriority {
  vp_order_hash : B256;
  vp_is_tob : bool;
  vp_is_partial : bool;
  vp_respend : RespendAvoidanceMethod;
}.

Definition is_higher_priority (self other : OrderValidationPriority) : comparison :=
  then_with (bool_cmp (vp_is_tob self) (vp_is_tob other))
  (then_with (bool_cmp (vp_is_partial self) (vp_is_partial other))
  (then_with (get_ord_for_pending_orders (vp_respend other)
                ?= get_ord_for_pending_orders (vp_respend self))
             (vp_order_hash other ?= vp_order_hash self))).

(** ** Validation errors (primitive/validation.rs) *)

Record UserOrderPoolInfo := mkUserOrderPoolInfo {
  upi_token : Address;
  upi_is_bid : bool;
  upi_pool_id : PoolId;
}.

Inductive UserAccountVerificationError :=
| BlockMissMatch (requested current : Z) (pool_info : UserOrderPoolInfo)
| OrderIsCancelled (order_hash : B256)
| DuplicateNonce (order_hash : B256)
| BadBlock (next_block requested_block : Z)
| NonEmptyHook
| CouldNotFetch (err : string)
| InsufficientApproval (order_hash : B256) (token_in : Address) (amount : Z)
| InsufficientBalance (order_hash : B256) (token_in : Address) (amount : Z)
| InsufficientBoth (order_hash : B256) (token_in : Address)
    (amount_balance amount_approval : Z)
| UnknownAccountError (err : string).

Inductive OrderValidationError :=
| StateError (e : UserAccountVerificationError)
| InvalidToBSwap
| InvalidPartialOrder
| InvalidSignature
| InvalidPool
| NotEnoughGas
| DuplicateOrder
| InvalidOrderAtBlock
| NoAmountSpecified
| MaxGasGreaterThanMinAmount
| NoGasSpecified
| NoPriceSpecified
| PriceOutOfPoolBounds
| CancelledOrder
| UnknownOrderError (err : string).

#[export] Instance UserOrderPoolInfo_eq_dec : EqDecision UserOrderPoolInfo.
Proof. solve_decision. Defined.
#[export] Instance UserAccountVerificationError_eq_dec : EqDecision UserAccountVerificationError.
Proof. solve_decision. Defined.
#[export] Instance OrderValidationError_eq_dec : EqDecision OrderValidationError.
Proof. solve_decision. Defined.

Inductive OrderStatus :=
| Filled
| Pending
| Blocked (token : Address) (approval_needed balance_needed : Z)
| OrderNotFound.

Definition try_from_err (e : UserAccountVerificationError) : M OrderStatus :=
  match e with
  | InsufficientBoth _ token_in amount_balance amount_approval =>
      Ok (Blocked token_in amount_approval amount_balance)
  | InsufficientBalance _ token_in amount => Ok (Blocked token_in 0 amount)
  | InsufficientApproval _ token_in amount => Ok (Blocked token_in amount 0)
  | UnknownAccountError _ => Ok (Blocked 0 0 0)
  | _ => Err "cannot convert error to order status"
  end.

(** ** External cryptography *)

Class OrderCrypto := {
  Signature : Type;
  (** Keccak-256 of a byte string, as the number its 32 bytes denote. *)
  keccak256 : Bytes -> B256;
  (** [Signature::pade_decode]. *)
  pade_decode_signature : Bytes -> option Signature;
  recover_address_from_prehash : Signature -> B256 -> option Address;
  recover_address_from_msg : Signature -> Bytes -> option Address;
  (** [ANGSTROM_DOMAIN.hash_struct()]. *)
  domain_hash_struct : B256;
}.

(** [n] bytes of a number, most significant first. *)
Fixpoint be_bytes (n : nat) (x : Z) : Bytes :=
  match n with
  | O => []
  | S n => be_bytes n (x / 256) ++ [x mod 256]
  end.

(** The number that bytes denote, most significant first. *)
Definition of_be_bytes (b : Bytes) : Z := fold_left (fun acc x => acc * 256 + x) b 0.

Fixpoint string_bytes (s : string) : Bytes :=
  match s with
  | EmptyString => []
  | String c s => Z.of_N (Ascii.N_of_ascii c) :: string_bytes s
  end.

(** [str::replace(pat, "")]: drops the occurrences from left to right. *)
Fixpoint str_remove (pat : string) (skip : nat) (s : string) : string :=
  match s with
  | EmptyString => EmptyString
  | String c s' =>
      match skip with
      | S k => str_remove pat k s'
      | O => if String.prefix pat s then str_remove pat (String.length pat - 1) s'
             else String c (str_remove pat 0 s')
      end
  end.

(** ** EIP-712 hashing without the metadata (rpc_orders.rs, [OmitOrderMeta])

    [SolStruct] is the interface the [sol!] macro generates for a struct: the
    EIP-712 [encodeData] bytes and the root type.  EIP-712 encodes a nested
    struct as one 32-byte word, and [meta] is the last field of every order, so
    the bytes end with the word of the metadata; the laws say so. *)

Class SolStruct (T : Type) := {
  sol_encode_data : T -> Bytes;
  sol_root_type : string;
}.

Class HasMeta (T : Type) := {
  get_meta : T -> OrderMeta;
  set_meta : OrderMeta -> T -> T;
}.

Class SolStructLaws (T : Type) `{SolStruct T, HasMeta T} := {
  sol_body : T -> Bytes;
  sol_meta_word : T -> Bytes;
  sol_split : forall o, sol_encode_data o = sol_body o ++ sol_meta_word o;
  sol_meta_word_length : forall o, length (sol_meta_word o) = 32%nat;
  sol_body_meta : forall o m, sol_body (set_meta m o) = sol_body o;
}.

Module OmitOrderMeta.
Section Omit.
Context {C : OrderCrypto} {T : Type} `{SolStruct T}.

Definition eip712_components : list string := [].

(** [r[..r.len() - 32]]; the generated encoding has at least one word. *)
Definition eip712_encode_data (o : T) : Bytes :=
  let r := sol_encode_data o in take (length r - 32) r.

Definition eip712_root_type : string := str_remove ",OrderMeta meta" 0 sol_root_type.

(** The components are sorted, deduplicated and appended to the root type. *)
Fixpoint dedup (l : list string) : list string :=
  match l with
  | x :: ((y :: _) as l') => if String.eqb x y then dedup l' else x :: dedup l'
  | l => l
  end.
Definition eip712_encode_type : string :=
  match eip712_components with
  | [] => eip712_root_type
  | l => fold_left String.append (dedup (merge_sort (fun a b => Is_true (String.leb a b)) l))
                   eip712_root_type
  end.

Definition eip712_type_hash : B256 := keccak256 (string_bytes eip712_encode_type).

Definition eip712_hash_struct (o : T) : B256 :=
  keccak256 (be_bytes 32 eip712_type_hash ++ eip712_encode_data o).

Definition unique_order_hash (o : T) (user_address : Address) : B256 :=
  keccak256 (be_bytes 32 eip712_type_hash ++ eip712_encode_data o ++ be_bytes 20 user_address).

Definition no_meta_eip712_signing_hash (o : T) : B256 :=
  keccak256 ([25; 1] ++ be_bytes 32 domain_hash_struct ++ be_bytes 32 (eip712_hash_struct o)).

(** The body shared by every [is_valid_signature]. *)
Definition valid_signature (m : OrderMeta) (o : T) : bool :=
  match pade_decode_signature (signature m) with
  | None => false
  | Some sig =>
      match recover_address_from_prehash sig (no_meta_eip712_signing_hash o) with
      | Some addr => addr =? meta_from m
      | None => false
      end
  end.

End Omit.
End OmitOrderMeta.
Import OmitOrderMeta.

(** ** The trait every order implements (sol_bindings/ext/mod.rs)

    [limit_price] can panic: for a top-of-block order it is a quotient of the
    two quantities. *)

Class RawPoolOrder `{C : OrderCrypto} (O : Type) := {
  max_gas_token_0 : O -> Z;
  order_hash : O -> B256;
  from : O -> Address;
  amount : O -> Z;
  is_tob : O -> bool;
  min_amount : O -> Z;
  limit_price : O -> M Z;
  deadline : O -> option Z;
  flash_block : O -> option Z;
  respend_avoidance_strategy : O -> RespendAvoidanceMethod;
  token_in : O -> Address;
  token_out : O -> Address;
  is_valid_signature : O -> bool;
  order_location : O -> OrderLocation;
  use_internal : O -> bool;
  order_signature : O -> option Signature;
  exact_in : O -> bool;
  has_hook : O -> bool;
}.

Section Defaults.
Context `{C : OrderCrypto} {O : Type} `{!RawPoolOrder O}.

Definition is_partial (o : O) : bool := min_amount o <? amount o.

Definition is_bid (o : O) : bool := token_out o <? token_in o.

Definition min_qty_t0 (o : O) : M (option Z) :=
  if amount o =? 0 then Ok None else
  let* lp := limit_price o in
  if lp =? 0 then Ok None else
  let* q :=
    if negb (is_bid o) then
      if exact_in o then Ok (min_amount o)
      else Ray.inverse_quantity lp (min_amount o) true
    else if exact_in o then
      let* q := Ray.mul_quantity lp (min_amount o) in
      uint_from 128 q
    else Ok (min_amount o) in
  Ok (Some q).

Definition validation_priority (o : O) : OrderValidationPriority :=
  mkOrderValidationPriority (order_hash o) (is_tob o) (is_partial o)
    (respend_avoidance_strategy o).

(** [OrderId::from_all_orders]. *)
Definition from_all_orders (o : O) (pool_id : PoolId) : OrderId :=
  mkOrderId (from o) pool_id (order_hash o) (respend_avoidance_strategy o)
    (deadline o) (flash_block o) (order_location o).

End Defaults.

(** ** Implementations of the trait (sol_bindings/ext/grouped_orders.rs) *)

Section Orders.
Context {C : OrderCrypto}.
Context `{!SolStruct PartialStandingOrder, !SolStruct ExactStandingOrder,
  !SolStruct PartialFlashOrder, !SolStruct ExactFlashOrder, !SolStruct TopOfBlockOrder}.

#[export] Instance TopOfBlockOrder_raw : RawPoolOrder TopOfBlockOrder := {|
  max_gas_token_0 o := tob_max_gas_asset0 o;
  order_hash o := unique_order_hash o (meta_from (tob_meta o));
  from o := meta_from (tob_meta o);
  amount o := tob_quantity_in o;
  is_tob _ := true;
  min_amount o := tob_quantity_in o;
  limit_price o :=
    let* top := Ray.scale_to_ray (tob_quantity_in o) in
    let* bot := Ray.scale_to_ray (tob_quantity_out o) in
    Ray.div_ray top bot;
  deadline _ := None;
  flash_block o := Some (tob_valid_for_block o);
  respend_avoidance_strategy o := Block (tob_valid_for_block o);
  token_in o := tob_asset_in o;
  token_out o := tob_asset_out o;
  is_valid_signature o := valid_signature (tob_meta o) o;
  order_location _ := Searcher;
  use_internal o := tob_use_internal o;
  order_signature o := pade_decode_signature (signature (tob_meta o));
  exact_in _ := true;
  has_hook _ := false;
|}.

#[export] Instance PartialStandingOrder_raw : RawPoolOrder PartialStandingOrder := {|
  max_gas_token_0 o := ps_max_extra_fee_asset0 o;
  order_hash o := unique_order_hash o (meta_from (ps_meta o));
  from o := meta_from (ps_meta o);
  amount o := ps_max_amount_in o;
  is_tob _ := false;
  min_amount o := ps_min_amount_in o;
  limit_price o := Ok (ps_min_price o);
  deadline o := Some (ps_deadline o);
  flash_block _ := None;
  respend_avoidance_strategy o := Nonce (ps_nonce o);
  token_in o := ps_asset_in o;
  token_out o := ps_asset_out o;
  is_valid_signature o := valid_signature (ps_meta o) o;
  order_location _ := Limit;
  use_internal o := ps_use_internal o;
  order_signature o := pade_decode_signature (signature (ps_meta o));
  exact_in _ := true;
  has_hook o := negb (bool_decide (ps_hook_data o = []));
|}.

#[export] Instance ExactStandingOrder_raw : RawPoolOrder ExactStandingOrder := {|
  max_gas_token_0 o := es_max_extra_fee_asset0 o;
  order_hash o := unique_order_hash o (meta_from (es_meta o));
  from o := meta_from (es_meta o);
  amount o := es_amount o;
  is_tob _ := false;
  min_amount o := es_amount o;
  limit_price o := Ok (es_min_price o);
  deadline o := Some (es_deadline o);
  flash_block _ := None;
  respend_avoidance_strategy o := Nonce (es_nonce o);
  token_in o := es_asset_in o;
  token_out o := es_asset_out o;
  is_valid_signature o := valid_signature (es_meta o) o;
  order_location _ := Limit;
  use_internal o := es_use_internal o;
  order_signature o := pade_decode_signature (signature (es_meta o));
  exact_in o := es_exact_in o;
  has_hook o := negb (bool_decide (es_hook_data o = []));
|}.

#[export] Instance PartialFlashOrder_raw : RawPoolOrder PartialFlashOrder := {|
  max_gas_token_0 o := pf_max_extra_fee_asset0 o;
  order_hash o := unique_order_hash o (meta_from (pf_meta o));
  from o := meta_from (pf_meta o);
  amount o := pf_max_amount_in o;
  is_tob _ := false;
  min_amount o := pf_min_amount_in o;
  limit_price o := Ok (pf_min_price o);
  deadline _ := None;
  flash_block o := Some (pf_valid_for_block o);
  respend_avoidance_strategy o := Block (pf_valid_for_block o);
  token_in o := pf_asset_in o;
  token_out o := pf_asset_out o;
  is_valid_signature o := valid_signature (pf_meta o) o;
  order_location _ := Limit;
  use_internal o := pf_use_internal o;
  order_signature o := pade_decode_signature (signature (pf_meta o));
  exact_in _ := true;
  has_hook o := negb (bool_decide (pf_hook_data o = []));
|}.

#[export] Instance ExactFlashOrder_raw : RawPoolOrder ExactFlashOrder := {|
  max_gas_token_0 o := ef_max_extra_fee_asset0 o;
  order_hash o := unique_order_hash o (meta_from (ef_meta o));
  from o := meta_from (ef_meta o);
  amount o := ef_amount o;
  is_tob _ := false;
  min_amount o := ef_amount o;
  limit_price o := Ok (ef_min_price o);
  deadline _ := None;
  flash_block o := Some (ef_valid_for_block o);
  respend_avoidance_strategy o := Block (ef_valid_for_block o);
  token_in o := ef_asset_in o;
  token_out o := ef_asset_out o;
  is_valid_signature o := valid_signature (ef_meta o) o;
  order_location _ := Limit;
  use_internal o := ef_use_internal o;
  order_signature o := pade_decode_signature (signature (ef_meta o));
  exact_in o := ef_exact_in o;
  has_hook o := negb (bool_decide (ef_hook_data o = []));
|}.

#[export] Instance StandingVariants_raw : RawPoolOrder StandingVariants := {|
  max_gas_token_0 o := match o with StandingExact x => max_gas_token_0 x | StandingPartial x => max_gas_token_0 x end;
  order_hash o := match o with StandingExact x => order_hash x | StandingPartial x => order_hash x end;
  from o := match o with StandingExact x => meta_from (es_meta x) | StandingPartial x => meta_from (ps_meta x) end;
  amount o := match o with StandingExact x => amount x | StandingPartial x => amount x end;
  is_tob _ := false;
  min_amount o := match o with StandingExact x => min_amount x | StandingPartial x => min_amount x end;
  limit_price o := match o with StandingExact x => limit_price x | StandingPartial x => limit_price x end;
  deadline o := match o with StandingExact x => deadline x | StandingPartial x => deadline x end;
  flash_block _ := None;
  respend_avoidance_strategy o := match o with StandingExact x => respend_avoidance_strategy x | StandingPartial x => respend_avoidance_strategy x end;
  token_in o := match o with StandingExact x => token_in x | StandingPartial x => token_in x end;
  token_out o := match o with StandingExact x => token_out x | StandingPartial x => token_out x end;
  is_valid_signature o := match o with StandingExact x => is_valid_signature x | StandingPartial x => is_valid_signature x end;
  order_location _ := Limit;
  use_internal o := match o with StandingExact x => use_internal x | StandingPartial x => use_internal x end;
  order_signature o := match o with StandingExact x => order_signature x | StandingPartial x => order_signature x end;
  exact_in o := match o with StandingExact x => exact_in x | StandingPartial x => exact_in x end;
  has_hook o := match o with StandingExact x => has_hook x | StandingPartial x => has_hook x end;
|}.

#[export] Instance FlashVariants_raw : RawPoolOrder FlashVariants := {|
  max_gas_token_0 o := match o with FlashExact x => ef_max_extra_fee_asset0 x | FlashPartial x => pf_max_extra_fee_asset0 x end;
  order_hash o := match o with FlashExact x => order_hash x | FlashPartial x => order_hash x end;
  from o := match o with FlashExact x => meta_from (ef_meta x) | FlashPartial x => meta_from (pf_meta x) end;
  amount o := match o with FlashExact x => amount x | FlashPartial x => amount x end;
  is_tob _ := false;
  min_amount o := match o with FlashExact x => min_amount x | FlashPartial x => min_amount x end;
  limit_price o := match o with FlashExact x => limit_price x | FlashPartial x => limit_price x end;
  deadline o := match o with FlashExact x => deadline x | FlashPartial x => deadline x end;
  flash_block o := match o with FlashExact x => flash_block x | FlashPartial x => flash_block x end;
  respend_avoidance_strategy o := match o with FlashExact x => respend_avoidance_strategy x | FlashPartial x => respend_avoidance_strategy x end;
  token_in o := match o with FlashExact x => token_in x | FlashPartial x => token_in x end;
  token_out o := match o with FlashExact x => token_out x | FlashPartial x => token_out x end;
  is_valid_signature o := match o with FlashExact x => is_valid_signature x | FlashPartial x => is_valid_signature x end;
  order_location _ := Limit;
  use_internal o := match o with FlashExact x => use_internal x | FlashPartial x => use_internal x end;
  order_signature o := match o with FlashExact x => order_signature x | FlashPartial x => order_signature x end;
  exact_in o := match o with FlashExact x => exact_in x | FlashPartial x => exact_in x end;
  has_hook o := match o with FlashExact x => has_hook x | FlashPartial x => has_hook x end;
|}.

#[export] Instance AllOrders_raw : RawPoolOrder AllOrders := {|
  max_gas_token_0 o :=
    match o with ExactStanding x => max_gas_token_0 x | PartialStanding x => max_gas_token_0 x | ExactFlash x => max_gas_token_0 x
    | PartialFlash x => max_gas_token_0 x | TOB x => max_gas_token_0 x end;
  order_hash o :=
    match o with ExactStanding x => order_hash x | PartialStanding x => order_hash x | ExactFlash x => order_hash x
    | PartialFlash x => order_hash x | TOB x => order_hash x end;
  from o :=
    match o with ExactStanding x => from x | PartialStanding x => from x | ExactFlash x => from x
    | PartialFlash x => from x | TOB x => from x end;
  amount o :=
    match o with ExactStanding x => amount x | PartialStanding x => amount x | ExactFlash x => amount x
    | PartialFlash x => amount x | TOB x => amount x end;
  is_tob o := match o with TOB _ => true | _ => false end;
  min_amount o :=
    match o with ExactStanding x => min_amount x | PartialStanding x => min_amount x | ExactFlash x => min_amount x
    | PartialFlash x => min_amount x | TOB x => min_amount x end;
  limit_price o :=
    match o with ExactStanding x => limit_price x | PartialStanding x => limit_price x | ExactFlash x => limit_price x
    | PartialFlash x => limit_price x | TOB x => limit_price x end;
  deadline o :=
    match o with ExactStanding x => deadline x | PartialStanding x => deadline x | ExactFlash x => deadline x
    | PartialFlash x => deadline x | TOB x => deadline x end;
  flash_block o :=
    match o with ExactStanding x => flash_block x | PartialStanding x => flash_block x | ExactFlash x => flash_block x
    | PartialFlash x => flash_block x | TOB x => flash_block x end;
  respend_avoidance_strategy o :=
    match o with ExactStanding x => respend_avoidance_strategy x | PartialStanding x => respend_avoidance_strategy x | ExactFlash x => respend_avoidance_strategy x
    | PartialFlash x => respend_avoidance_strategy x | TOB x => respend_avoidance_strategy x end;
  token_in o :=
    match o with ExactStanding x => token_in x | PartialStanding x => token_in x | ExactFlash x => token_in x
    | PartialFlash x => token_in x | TOB x => token_in x end;
  token_out o :=
    match o with ExactStanding x => token_out x | PartialStanding x => token_out x | ExactFlash x => token_out x
    | PartialFlash x => token_out x | TOB x => token_out x end;
  is_valid_signature o :=
    match o with ExactStanding x => is_valid_signature x | PartialStanding x => is_valid_signature x | ExactFlash x => is_valid_signature x
    | PartialFlash x => is_valid_signature x | TOB x => is_valid_signature x end;
  order_location o :=
    match o with ExactStanding x => order_location x | PartialStanding x => order_location x | ExactFlash x => order_location x
    | PartialFlash x => order_location x | TOB x => order_location x end;
  use_internal o :=
    match o with ExactStanding x => use_internal x | PartialStanding x => use_internal x | ExactFlash x => use_internal x
    | PartialFlash x => use_internal x | TOB x => use_internal x end;
  order_signature o :=
    match o with ExactStanding x => order_signature x | PartialStanding x => order_signature x | ExactFlash x => order_signature x
    | PartialFlash x => order_signature x | TOB x => order_signature x end;
  exact_in o :=
    match o with ExactStanding x => exact_in x | PartialStanding x => exact_in x | ExactFlash x => exact_in x
    | PartialFlash x => exact_in x | TOB x => exact_in x end;
  has_hook o :=
    match o with ExactStanding x => has_hook x | PartialStanding x => has_hook x | ExactFlash x => has_hook x
    | PartialFlash x => has_hook x | TOB x => has_hook x end;
|}.

#[export] Instance GroupedVanillaOrder_raw : RawPoolOrder GroupedVanillaOrder := {|
  max_gas_token_0 o :=
    match o with VanillaStanding x => max_gas_token_0 x | VanillaKillOrFill x => max_gas_token_0 x end;
  order_hash o :=
    match o with VanillaStanding x => order_hash x | VanillaKillOrFill x => order_hash x end;
  from o :=
    match o with VanillaStanding x => from x | VanillaKillOrFill x => from x end;
  amount o :=
    match o with VanillaStanding x => amount x | VanillaKillOrFill x => amount x end;
  is_tob _ := false;
  min_amount o :=
    match o with VanillaStanding x => min_amount x | VanillaKillOrFill x => min_amount x end;
  limit_price o :=
    match o with VanillaStanding x => limit_price x | VanillaKillOrFill x => limit_price x end;
  deadline o :=
    match o with VanillaStanding x => deadline x | VanillaKillOrFill x => deadline x end;
  flash_block o :=
    match o with VanillaStanding _ => None | VanillaKillOrFill x => flash_block x end;
  respend_avoidance_strategy o :=
    match o with VanillaStanding x => respend_avoidance_strategy x | VanillaKillOrFill x => respend_avoidance_strategy x end;
  token_in o :=
    match o with VanillaStanding x => token_in x | VanillaKillOrFill x => token_in x end;
  token_out o :=
    match o with VanillaStanding x => token_out x | VanillaKillOrFill x => token_out x end;
  is_valid_signature o :=
    match o with VanillaStanding x => is_valid_signature x | VanillaKillOrFill x => is_valid_signature x end;
  order_location o :=
    match o with VanillaStanding _ => Limit | VanillaKillOrFill _ => Limit end;
  use_internal o :=
    match o with VanillaStanding x => use_internal x | VanillaKillOrFill x => use_internal x end;
  order_signature o :=
    match o with VanillaStanding x => order_signature x | VanillaKillOrFill x => order_signature x end;
  exact_in o :=
    match o with VanillaStanding x => exact_in x | VanillaKillOrFill x => exact_in x end;
  has_hook o :=
    match o with VanillaStanding x => has_hook x | VanillaKillOrFill x => has_hook x end;
|}.

#[export] Instance GroupedComposableOrder_raw : RawPoolOrder GroupedComposableOrder := {|
  max_gas_token_0 o :=
    match o with ComposablePartial x => max_gas_token_0 x | ComposableKillOrFill x => max_gas_token_0 x end;
  order_hash o :=
    match o with ComposablePartial x => order_hash x | ComposableKillOrFill x => order_hash x end;
  from o :=
    match o with ComposablePartial x => from x | ComposableKillOrFill x => from x end;
  amount o :=
    match o with ComposablePartial x => amount x | ComposableKillOrFill x => amount x end;
  is_tob _ := false;
  min_amount o :=
    match o with ComposablePartial x => min_amount x | ComposableKillOrFill x => min_amount x end;
  limit_price o :=
    match o with ComposablePartial x => limit_price x | ComposableKillOrFill x => limit_price x end;
  deadline o :=
    match o with ComposablePartial x => deadline x | ComposableKillOrFill x => deadline x end;
  flash_block o :=
    match o with ComposablePartial _ => None | ComposableKillOrFill x => flash_block x end;
  respend_avoidance_strategy o :=
    match o with ComposablePartial x => respend_avoidance_strategy x | ComposableKillOrFill x => respend_avoidance_strategy x end;
  token_in o :=
    match o with ComposablePartial x => token_in x | ComposableKillOrFill x => token_in x end;
  token_out o :=
    match o with ComposablePartial x => token_out x | ComposableKillOrFill x => token_out x end;
  is_valid_signature o :=
    match o with ComposablePartial x => is_valid_signature x | ComposableKillOrFill x => is_valid_signature x end;
  order_location o :=
    match o with ComposablePartial _ => Limit | ComposableKillOrFill _ => Limit end;
  use_internal o :=
    match o with ComposablePartial x => use_internal x | ComposableKillOrFill x => use_internal x end;
  order_signature o :=
    match o with ComposablePartial x => order_signature x | ComposableKillOrFill x => order_signature x end;
  exact_in o :=
    match o with ComposablePartial x => exact_in x | ComposableKillOrFill x => exact_in x end;
  has_hook o :=
    match o with ComposablePartial x => has_hook x | ComposableKillOrFill x => has_hook x end;
|}.

(** ** Operations of the order enums *)

Definition max_q_standing (o : StandingVariants) : Z :=
  match o with StandingExact x => es_amount x | StandingPartial x => ps_max_amount_in x end.

Definition max_q_flash (o : FlashVariants) : Z :=
  match o with FlashExact x => ef_amount x | FlashPartial x => pf_max_amount_in x end.

Definition min_q (o : FlashVariants) : Z :=
  match o with FlashExact x => ef_amount x | FlashPartial x => pf_max_amount_in x end.

Definition exact_in_flash (o : FlashVariants) : bool :=
  match o with FlashExact x => ef_exact_in x | FlashPartial _ => true end.

Definition exact_in_standing (o : StandingVariants) : bool :=
  match o with StandingExact x => es_exact_in x | StandingPartial _ => true end.

(** [FlashVariants::quantity]: what the order can match, in T0. *)
Definition flash_quantity (o : FlashVariants) : M Z :=
  let raw_q := match o with FlashExact x => ef_amount x | FlashPartial x => pf_max_amount_in x end in
  match is_bid o, exact_in_flash o with
  | true, true =>
      let* order_price := limit_price o in
      let* q := Ray.mul_quantity order_price raw_q in
      Ok (saturate_u 128 q)
  | false, false =>
      let* order_price := limit_price o in
      Ray.inverse_quantity order_price raw_q true
  | _, _ => Ok raw_q
  end.

(** The inherent [AllOrders::order_hash]. *)
Definition all_order_hash (o : AllOrders) : B256 :=
  match o with
  | ExactStanding p => unique_order_hash p (from p)
  | PartialStanding p => unique_order_hash p (from p)
  | ExactFlash p => unique_order_hash p (from p)
  | PartialFlash p => unique_order_hash p (from p)
  | TOB t => unique_order_hash t (from t)
  end.

Definition is_vanilla (o : AllOrders) : bool :=
  negb match o with
       | ExactStanding p => has_hook p
       | PartialStanding p => has_hook p
       | ExactFlash p => has_hook p
       | PartialFlash p => has_hook p
       | TOB _ => false
       end.

Definition user_order_hash (o : GroupedUserOrder) : B256 :=
  match o with Vanilla v => order_hash v | Composable c => order_hash c end.

Definition composable_hash (o : GroupedComposableOrder) : B256 :=
  match o with
  | ComposablePartial p =>
      match p with
      | StandingPartial p => unique_order_hash p (from p)
      | StandingExact e => unique_order_hash e (from e)
      end
  | ComposableKillOrFill k =>
      match k with
      | FlashPartial p => unique_order_hash p (from p)
      | FlashExact e => unique_order_hash e (from e)
      end
  end.

Definition price (o : AllOrders) : M Z := limit_price o.

Definition bid_price (o : AllOrders) : M Z :=
  let* p := price o in Ray.inv_ray_round p true.

Definition price_for_book_side (o : AllOrders) (side_is_bid : bool) : M Z :=
  if side_is_bid then bid_price o else price o.

Definition price_t1_over_t0 (o : AllOrders) : M Z :=
  if is_bid o then (let* p := price o in Ray.inv_ray_round p true) else price o.

Definition pre_fee_price (o : AllOrders) (fee : Z) : M Z :=
  let* p := price o in Ray.unscale_to_fee p fee.

Definition fee_adj_price (o : AllOrders) (fee : Z) : M Z :=
  let* p := price o in Ray.scale_to_fee p fee.

End Orders.

(** ** Orders as the pool stores them *)

Record OrderWithStorageData (Order : Type) := mkOrderWithStorageData {
  order : Order;
  priority_data : OrderPriorityData;
  invalidates : list B256;
  pool_id : PoolId;
  currently_invalid : option UserAccountVerificationError;
  osd_is_bid : bool;
  is_valid : bool;
  valid_block : Z;
  order_id : OrderId;
  tob_reward : Z;
}.
Arguments mkOrderWithStorageData {Order}.
Arguments order {Order} _.
Arguments priority_data {Order} _.
Arguments invalidates {Order} _.
Arguments pool_id {Order} _.
Arguments currently_invalid {Order} _.
Arguments osd_is_bid {Order} _.
Arguments is_valid {Order} _.
Arguments valid_block {Order} _.
Arguments order_id {Order} _.
Arguments tob_reward {Order} _.

Definition is_currently_valid {O} (o : OrderWithStorageData O) : bool :=
  match currently_invalid o with None => true | Some _ => false end.

Definition with_order {O N} (o : OrderWithStorageData O) (n : N) : OrderWithStorageData N :=
  mkOrderWithStorageData n (priority_data o) (invalidates o) (pool_id o) (currently_invalid o)
    (osd_is_bid o) (is_valid o) (valid_block o) (order_id o) (tob_reward o).

Definition try_map_inner {O N} (o : OrderWithStorageData O) (f : O -> M N) :
    M (OrderWithStorageData N) :=
  let* n := f (order o) in Ok (with_order o n).

Section StoredOrders.
Context `{C : OrderCrypto} {O : Type} `{!RawPoolOrder O}.

(** [Ray] subtraction wraps at 256 bits. *)
Definition fetch_supply_or_demand_contribution_with_fee
    (o : OrderWithStorageData O) (price _pool_fee : Z) : M Z :=
  match osd_is_bid o, exact_in (order o) with
  | true, true =>
      let* q := Ray.inverse_quantity price (amount (order o)) false in
      Ok (Ray.sub q (pd_gas (priority_data o)))
  | true, false => Ok (amount (order o))
  | false, true => Ok (amount (order o))
  | false, false =>
      let* q := Ray.inverse_quantity price (amount (order o)) true in
      Ok (Ray.add q (pd_gas (priority_data o)))
  end.

Definition fetch_supply_or_demand_contribution_with_fee_partial
    (o : OrderWithStorageData O) (price _pool_fee : Z) : M (Z * option Z) :=
  let* lp := limit_price (order o) in
  let* limit_price := if osd_is_bid o then Ray.inv_ray_round lp true else Ok lp in
  let (max, min) := (amount (order o), min_amount (order o)) in
  let gas := pd_gas (priority_data o) in
  if limit_price =? price then
    if osd_is_bid o then
      let* h := Ray.inverse_quantity price max false in
      let high := Ray.sub h gas in
      let* l := Ray.inverse_quantity price min false in
      let low := Ray.sub l gas in
      Ok (high, Some (Ray.sub high low))
    else Ok (max, Some (Ray.sub max min))
  else if osd_is_bid o then
    let* h := Ray.inverse_quantity price max false in
    Ok (Ray.sub h gas, None)
  else Ok (max, None).

End StoredOrders.

(** ** Outcomes of matching (orders/mod.rs, orders/fillstate.rs) *)

Inductive OrderFillState :=
| Unfilled
| CompleteFill
| PartialFill (v : Z)
| Killed.

#[export] Instance OrderFillState_eq_dec : EqDecision OrderFillState.
Proof. solve_decision. Defined.

Definition is_filled (s : OrderFillState) : bool :=
  match s with CompleteFill | PartialFill _ => true | _ => false end.

Definition partial_q (s : OrderFillState) : option Z :=
  match s with PartialFill v => Some v | _ => None end.

Definition partial_fill {P : Profile} (s : OrderFillState) (quantity : Z) : M OrderFillState :=
  match s with
  | Unfilled => Ok (PartialFill quantity)
  | PartialFill f => let* q := u128_add f quantity in Ok (PartialFill q)
  | CompleteFill | Killed => Ok s
  end.

Record OrderOutcome := mkOrderOutcome {
  oo_id : OrderId;
  oo_outcome : OrderFillState;
}.

Definition outcome_is_filled (o : OrderOutcome) : bool := is_filled (oo_outcome o).

Definition fill_amount (o : OrderOutcome) (max : Z) : Z :=
  match oo_outcome o with
  | CompleteFill => max
  | PartialFill p => Z.min max p
  | _ => 0
  end.

Inductive NetAmmOrder := Buy (q c : Z) | Sell (q c : Z).

Module NetAmm.

Definition default : NetAmmOrder := Buy 0 0.

Definition new (d : Direction) : NetAmmOrder :=
  match d with BuyingT0 => Buy 0 0 | SellingT0 => Sell 0 0 end.

Definition right_direction (a : NetAmmOrder) (d : Direction) : bool :=
  match d, a with
  | BuyingT0, Sell _ _ => true
  | SellingT0, Buy _ _ => true
  | _, _ => false
  end.

Definition add_quantity {P : Profile} (a : NetAmmOrder) (quantity cost : Z) : M NetAmmOrder :=
  match a with
  | Buy q c => let* c := u128_add c cost in let* q := u128_add q quantity in Ok (Buy q c)
  | Sell q c => let* c := u128_add c cost in let* q := u128_add q quantity in Ok (Sell q c)
  end.

Definition remove_quantity {P : Profile} (a : NetAmmOrder) (quantity cost : Z) : M NetAmmOrder :=
  match a with
  | Buy q c => let* c := u128_sub c cost in let* q := u128_sub q quantity in Ok (Buy q c)
  | Sell q c => let* c := u128_sub c cost in let* q := u128_sub q quantity in Ok (Sell q c)
  end.

Definition get_directions (a : NetAmmOrder) : Z * Z :=
  match a with
  | Buy amount_out amount_in => (amount_in, amount_out)
  | Sell amount_in amount_out => (amount_in, amount_out)
  end.

(** A [u128] always fits an [I256]. *)
Definition get_t0_signed (a : NetAmmOrder) : Z :=
  match a with Buy t0 _ => t0 | Sell t0 _ => i256_saturating_neg t0 end.

Definition amount_in (a : NetAmmOrder) : Z := (get_directions a).1.
Definition amount_out (a : NetAmmOrder) : Z := (get_directions a).2.

Definition to_order_tuple (a : NetAmmOrder) (t0_idx t1_idx : Z) : Z * Z * Z * Z :=
  match a with
  | Buy q c => (t1_idx, t0_idx, c, q)
  | Sell q c => (t0_idx, t1_idx, q, c)
  end.

Definition amm_is_bid (a : NetAmmOrder) : bool := match a with Buy _ _ => true | _ => false end.

End NetAmm.

Record PoolSolution := mkPoolSolution {
  sol_id : PoolId;
  sol_ucp : Z;
  sol_searcher : option (OrderWithStorageData TopOfBlockOrder);
  sol_amm_quantity : option NetAmmOrder;
  sol_limit : list OrderOutcome;
  sol_reward_t0 : Z;
  sol_fee : Z;
}.

Definition solution_cmp (a b : PoolSolution) : comparison := sol_id a ?= sol_id b.

Record OrderSet (L S : Type) := mkOrderSet {
  os_limit : list (OrderWithStorageData L);
  os_searcher : list (OrderWithStorageData S);
}.
Arguments mkOrderSet {L S}.
Arguments os_limit {L S} _.
Arguments os_searcher {L S} _.

Definition total_orders {L S} (o : OrderSet L S) : Z :=
  Z.of_nat (length (os_limit o)) + Z.of_nat (length (os_searcher o)).

(** [into_all_orders], over the two [From] conversions. *)
Definition into_all_orders {L S} (fl : L -> AllOrders) (fs : S -> AllOrders)
    (o : OrderSet L S) : list AllOrders :=
  map (fun x => fl (order x)) (os_limit o) ++ map (fun x => fs (order x)) (os_searcher o).

(** ** Cancellation requests *)

Record CancelOrderRequest := mkCancelOrderRequest {
  cr_signature : Bytes;
  cr_user_address : Address;
  cr_order_id : B256;
}.

Section Cancel.
Context {C : OrderCrypto}.

(** [abi_encode_packed] of an address and a 32-byte id. *)
Definition signing_payload (r : CancelOrderRequest) : Bytes :=
  be_bytes 20 (cr_user_address r) ++ be_bytes 32 (cr_order_id r).

(** The [unwrap] of the decoded signature panics on malformed bytes. *)
Definition cancel_is_valid (r : CancelOrderRequest) : M bool :=
  let* sig := unwrap (pade_decode_signature (cr_signature r)) in
  match recover_address_from_msg sig (signing_payload r) with
  | Some sender => Ok (sender =? cr_user_address r)
  | None => Ok false
  end.

End Cancel.

(** ** Lemmas *)

Lemma be_bytes_length n x : length (be_bytes n x) = n.
Proof. revert x. induction n as [| n IH]; intros x; [done |]. cbn. rewrite length_app, IH. cbn. lia. Qed.

Lemma of_be_bytes_be n x : 0 <= x < 256 ^ Z.of_nat n -> of_be_bytes (be_bytes n x) = x.
Proof.
  unfold of_be_bytes. revert x. induction n as [| n IH]; intros x Hx; [cbn in *; lia |].
  cbn [be_bytes]. rewrite fold_left_app. cbn [fold_left].
  rewrite IH; [pose proof (Z.div_mod x 256); lia |].
  rewrite Nat2Z.inj_succ, Z.pow_succ_r in Hx by lia. split; [apply Z.div_pos; lia |].
  apply Z.div_lt_upper_bound; lia.
Qed.

#[export] Instance ps_has_meta : HasMeta PartialStandingOrder := {|
  get_meta := ps_meta;
  set_meta m o := mkPartialStandingOrder (ps_ref_id o) (ps_min_amount_in o) (ps_max_amount_in o)
    (ps_max_extra_fee_asset0 o) (ps_min_price o) (ps_use_internal o) (ps_asset_in o)
    (ps_asset_out o) (ps_recipient o) (ps_hook_data o) (ps_nonce o) (ps_deadline o) m;
|}.
#[export] Instance es_has_meta : HasMeta ExactStandingOrder := {|
  get_meta := es_meta;
  set_meta m o := mkExactStandingOrder (es_ref_id o) (es_exact_in o) (es_amount o)
    (es_max_extra_fee_asset0 o) (es_min_price o) (es_use_internal o) (es_asset_in o)
    (es_asset_out o) (es_recipient o) (es_hook_data o) (es_nonce o) (es_deadline o) m;
|}.
#[export] Instance pf_has_meta : HasMeta PartialFlashOrder := {|
  get_meta := pf_meta;
  set_meta m o := mkPartialFlashOrder (pf_ref_id o) (pf_min_amount_in o) (pf_max_amount_in o)
    (pf_max_extra_fee_asset0 o) (pf_min_price o) (pf_use_internal o) (pf_asset_in o)
    (pf_asset_out o) (pf_recipient o) (pf_hook_data o) (pf_valid_for_block o) m;
|}.
#[export] Instance ef_has_meta : HasMeta ExactFlashOrder := {|
  get_meta := ef_meta;
  set_meta m o := mkExactFlashOrder (ef_ref_id o) (ef_exact_in o) (ef_amount o)
    (ef_max_extra_fee_asset0 o) (ef_min_price o) (ef_use_internal o) (ef_asset_in o)
    (ef_asset_out o) (ef_recipient o) (ef_hook_data o) (ef_valid_for_block o) m;
|}.
#[export] Instance tob_has_meta : HasMeta TopOfBlockOrder := {|
  get_meta := tob_meta;
  set_meta m o := mkTopOfBlockOrder (tob_quantity_in o) (tob_quantity_out o)
    (tob_max_gas_asset0 o) (tob_use_internal o) (tob_asset_in o) (tob_asset_out o)
    (tob_recipient o) (tob_valid_for_block o) m;
|}.
#[export] Instance all_has_meta : HasMeta AllOrders := {|
  get_meta o :=
    match o with ExactStanding x => get_meta x | PartialStanding x => get_meta x
    | ExactFlash x => get_meta x | PartialFlash x => get_meta x | TOB x => get_meta x end;
  set_meta m o :=
    match o with ExactStanding x => ExactStanding (set_meta m x)
    | PartialStanding x => PartialStanding (set_meta m x)
    | ExactFlash x => ExactFlash (set_meta m x)
    | PartialFlash x => PartialFlash (set_meta m x)
    | TOB x => TOB (set_meta m x) end;
|}.

Section OmitLemmas.
Context {C : OrderCrypto} {T : Type} `{L : SolStructLaws T}.

Lemma encode_data_body (o : T) : eip712_encode_data o = sol_body o.
Proof.
  unfold eip712_encode_data. rewrite sol_split, length_app, sol_meta_word_length.
  rewrite Nat.add_sub, take_app_length. done.
Qed.

Lemma signing_hash_meta (o : T) m :
  no_meta_eip712_signing_hash (set_meta m o) = no_meta_eip712_signing_hash o.
Proof.
  unfold no_meta_eip712_signing_hash, eip712_hash_struct.
  by rewrite !encode_data_body, sol_body_meta.
Qed.

Lemma unique_hash_meta (o : T) m a :
  unique_order_hash (set_meta m o) a = unique_order_hash o a.
Proof. unfold unique_order_hash. by rewrite !encode_data_body, sol_body_meta. Qed.

Lemma valid_signature_sound (m : OrderMeta) (o : T) :
  valid_signature m o = true <->
  exists sig, pade_decode_signature (signature m) = Some sig /\
    recover_address_from_prehash sig (no_meta_eip712_signing_hash o) = Some (meta_from m).
Proof.
  unfold valid_signature. destruct (pade_decode_signature _) as [sig |]; [| naive_solver].
  destruct (recover_address_from_prehash _ _) as [a |] eqn:E.
  - rewrite Z.eqb_eq. naive_solver.
  - split; [done |]. intros (? & [= <-] & ?). congruence.
Qed.
End OmitLemmas.

Lemma then_with_opp c d : CompOpp (then_with c d) = then_with (CompOpp c) (CompOpp d).
Proof. by destruct c. Qed.

Lemma bool_cmp_opp a b : CompOpp (bool_cmp a b) = bool_cmp b a.
Proof. by destruct a, b. Qed.

Lemma then_with_Gt c d : then_with c d = Gt <-> c = Gt \/ (c = Eq /\ d = Gt).
Proof. destruct c; naive_solver. Qed.

Lemma then_with_Eq c d : then_with c d = Eq <-> c = Eq /\ d = Eq.
Proof. destruct c; naive_solver. Qed.

Lemma bool_cmp_Gt a b : bool_cmp a b = Gt <-> a = true /\ b = false.
Proof. destruct a, b; naive_solver. Qed.

Lemma bool_cmp_Eq a b : bool_cmp a b = Eq <-> a = b.
Proof. destruct a, b; naive_solver. Qed.

(** Lexicographic comparisons unfold into a disjunction. *)
Ltac lex := repeat first
  [ rewrite then_with_Gt in * | rewrite then_with_Eq in * | rewrite bool_cmp_Gt in *
  | rewrite bool_cmp_Eq in * | rewrite Z.compare_gt_iff in * | rewrite Z.compare_eq_iff in * ].

Lemma then_with_not_Gt c d : then_with c d <> Gt <-> c = Lt \/ (c = Eq /\ d <> Gt).
Proof. destruct c; naive_solver. Qed.

(** Comparison of keys, most significant first. *)
Fixpoint lex_cmp (a b : list Z) : comparison :=
  match a, b with
  | x :: a, y :: b => then_with (x ?= y) (lex_cmp a b)
  | _, _ => Eq
  end.

Lemma lex_cmp_trans a b c :
  length a = length b -> length b = length c ->
  lex_cmp a b <> Gt -> lex_cmp b c <> Gt -> lex_cmp a c <> Gt.
Proof.
  revert b c. induction a as [| x a IH]; intros [| y b] [| z c] H1 H2; simpl; try done.
  injection H1 as H1. injection H2 as H2. rewrite !then_with_not_Gt.
  rewrite !Z.compare_lt_iff, !Z.compare_eq_iff.
  intros [? | [-> Hab]] [? | [-> Hbc]]; [left; lia | left; lia | left; lia |].
  right. split; [done |]. by eapply IH.
Qed.

Lemma lex_cmp_anti a b : lex_cmp a b = Gt -> lex_cmp b a <> Gt.
Proof.
  revert b. induction a as [| x a IH]; intros [| y b]; simpl; try done.
  rewrite then_with_Gt, then_with_not_Gt, Z.compare_gt_iff, Z.compare_lt_iff, !Z.compare_eq_iff.
  intros [? | [-> ?]]; [by left |]. right. split; [done | by apply IH].
Qed.

Lemma scale_to_ray_u128 x : u128 x -> Ray.scale_to_ray x = Ok (x * const_1e27).
Proof.
  intros [H0 H]. unfold Ray.scale_to_ray.
  apply uint_from_Ok. split; [done |]. pose proof const_1e27_pos. split; [nia |].
  transitivity (u_max 128 * const_1e27); [nia |]. by vm_compute.
Qed.

(** The external code of the order types, bundled. *)
Class OrderEnv := {
  env_crypto :: OrderCrypto;
  env_ps :: SolStruct PartialStandingOrder;
  env_es :: SolStruct ExactStandingOrder;
  env_pf :: SolStruct PartialFlashOrder;
  env_ef :: SolStruct ExactFlashOrder;
  env_tob :: SolStruct TopOfBlockOrder;
}.

(** ** Properties *)

(** The validation priority is a total order on orders with distinct hashes:
    the comparison is antisymmetric, transitive, and equal only for orders
    with the same hash, class and nonce.  Top-of-block orders come first, then
    partial orders, then lower nonces (block-bound orders count as nonce 0),
    then lower hashes. *)
Theorem priority_total_order a b c :
  is_higher_priority a b = CompOpp (is_higher_priority b a) /\
  (is_higher_priority a b = Eq -> vp_order_hash a = vp_order_hash b) /\
  (is_higher_priority a b = Gt -> is_higher_priority b c = Gt -> is_higher_priority a c = Gt) /\
  (vp_is_tob a = true -> vp_is_tob b = false -> is_higher_priority a b = Gt) /\
  (vp_is_tob a = vp_is_tob b -> vp_is_partial a = vp_is_partial b ->
   get_ord_for_pending_orders (vp_respend a) < get_ord_for_pending_orders (vp_respend b) ->
   is_higher_priority a b = Gt).
Proof.
  unfold is_higher_priority. split; [| split; [| split; [| split]]].
  - rewrite !then_with_opp, !bool_cmp_opp. do 2 f_equal. by rewrite <- !Z.compare_antisym.
  - lex. naive_solver.
  - lex. intuition (subst; try congruence; lia).
  - intros -> ->. done.
  - intros -> -> H. lex. right. split; [done |]. right. split; [done |]. by left.
Qed.

(** A concrete signature scheme and encoding, for evaluation. *)
Definition toy_crypto : OrderCrypto := {|
  Signature := Z;
  keccak256 b := fold_left (fun h x => (31 * h + x) mod 2 ^ 256) b 7;
  pade_decode_signature b := match b with [x] => Some x | _ => None end;
  recover_address_from_prehash s h := Some ((s + h) mod 2 ^ 160);
  recover_address_from_msg s b := Some (s + Z.of_nat (length b));
  domain_hash_struct := 5;
|}.

Definition toy_sol (T : Type) (words : T -> list Z) : SolStruct T := {|
  sol_encode_data o := concat (map (be_bytes 32) (words o)) ++ be_bytes 32 0;
  sol_root_type := "Order(uint128 amount,OrderMeta meta)";
|}.

Definition toy_ps := toy_sol PartialStandingOrder (fun o => [ps_max_amount_in o; ps_nonce o]).
Definition toy_es := toy_sol ExactStandingOrder (fun o => [es_amount o; es_nonce o]).
Definition toy_pf := toy_sol PartialFlashOrder (fun o => [pf_max_amount_in o; pf_valid_for_block o]).
Definition toy_ef := toy_sol ExactFlashOrder (fun o => [ef_amount o; ef_valid_for_block o]).
Definition toy_tob := toy_sol TopOfBlockOrder (fun o => [tob_quantity_in o; tob_valid_for_block o]).

Definition toy_env : OrderEnv := {|
  env_crypto := toy_crypto; env_ps := toy_ps; env_es := toy_es;
  env_pf := toy_pf; env_ef := toy_ef; env_tob := toy_tob;
|}.

Lemma priority_total_order_witness :
  is_higher_priority (mkOrderValidationPriority 9 false true (Nonce 3))
                     (mkOrderValidationPriority 4 false true (Nonce 8)) = Gt.
Proof.
  apply (priority_total_order (mkOrderValidationPriority 9 false true (Nonce 3))
           (mkOrderValidationPriority 4 false true (Nonce 8))
           (mkOrderValidationPriority 0 false true (Nonce 8))); reflexivity.
Defined.

Section OrderProperties.
Context {C : OrderCrypto}.
Context `{S1 : !SolStruct PartialStandingOrder, S2 : !SolStruct ExactStandingOrder,
  S3 : !SolStruct PartialFlashOrder, S4 : !SolStruct ExactFlashOrder,
  S5 : !SolStruct TopOfBlockOrder}.

(** The hash that identifies an order in the pool does not depend on its
    signature: replacing the metadata by any other with the same sender keeps
    the hash, so re-signing cannot create a second copy of an order, and the
    signature is computed over a digest that no metadata can change. *)
Theorem hash_ignores_signature
  {L1 : SolStructLaws PartialStandingOrder} {L2 : SolStructLaws ExactStandingOrder}
  {L3 : SolStructLaws PartialFlashOrder} {L4 : SolStructLaws ExactFlashOrder}
  {L5 : SolStructLaws TopOfBlockOrder} (o : AllOrders) (m : OrderMeta) :
  meta_from m = from o -> order_hash (set_meta m o) = order_hash o.
Proof. intros E. destruct o as [x | x | x | x | x]; simpl in *; rewrite E; exact (unique_hash_meta x m _). Qed.

(** A signature accepts one sender only: if an order body verifies with two
    metadata records carrying the same signature bytes, both name the address
    recovered from the signature. *)
Theorem signature_binds_sender
  {L1 : SolStructLaws PartialStandingOrder} {L2 : SolStructLaws ExactStandingOrder}
  {L3 : SolStructLaws PartialFlashOrder} {L4 : SolStructLaws ExactFlashOrder}
  {L5 : SolStructLaws TopOfBlockOrder} (o : AllOrders) (m1 m2 : OrderMeta) :
  signature m1 = signature m2 ->
  is_valid_signature (set_meta m1 o) = true -> is_valid_signature (set_meta m2 o) = true ->
  from (set_meta m1 o) = from (set_meta m2 o).
Proof.
  intros E. destruct o as [x | x | x | x | x];
    pose proof (signing_hash_meta x m1); pose proof (signing_hash_meta x m2);
    simpl in *; rewrite !valid_signature_sound; intros (? & ? & ?) (? & ? & ?); congruence.
Qed.

(** The limit price of a top-of-block order is the quotient of its
    quantities rounded down, in ray; it panics exactly when the order asks for
    nothing out, whatever the input amount. *)
Theorem tob_limit_price (o : TopOfBlockOrder) :
  u128 (tob_quantity_in o) -> u128 (tob_quantity_out o) ->
  limit_price o =
    if tob_quantity_out o =? 0 then Panic
    else Ok (tob_quantity_in o * const_1e27 / tob_quantity_out o).
Proof.
  intros Hi Ho. simpl. rewrite !scale_to_ray_u128 by done. cbn [M_bind]. unfold Ray.div_ray.
  pose proof const_1e27_pos as Hp. destruct (Z.eqb_spec (tob_quantity_out o) 0) as [-> | Hn]; [done |].
  destruct Hi as [Hi0 Hi], Ho as [Ho0 Ho].
  rewrite div_round_Ok by nia. cbn [M_bind]. unfold div_floor.
  rewrite Z.div_mul_cancel_r by lia.
  apply uint_from_Ok. split; [done |]. split; [apply Z.div_pos; lia |].
  transitivity (u_max 128 * const_1e27); [| by vm_compute].
  apply Z.div_le_upper_bound; [lia |].
  transitivity (u_max 128 * const_1e27); [nia |].
  assert (0 <= u_max 128 * const_1e27) by nia. nia.
Qed.
End OrderProperties.

Lemma toy_laws (T : Type) (words : T -> list Z) (HM : HasMeta T) :
  (forall o m, words (set_meta m o) = words o) -> @SolStructLaws T (toy_sol T words) HM.
Proof.
  intros H. unshelve econstructor.
  - exact (fun o => concat (map (be_bytes 32) (words o))).
  - exact (fun _ => be_bytes 32 0).
  - reflexivity.
  - reflexivity.
  - intros o m. simpl. by rewrite H.
Defined.

Lemma toy_ps_laws : @SolStructLaws _ toy_ps _.
Proof. by apply toy_laws. Defined.
Lemma toy_es_laws : @SolStructLaws _ toy_es _.
Proof. by apply toy_laws. Defined.
Lemma toy_pf_laws : @SolStructLaws _ toy_pf _.
Proof. by apply toy_laws. Defined.
Lemma toy_ef_laws : @SolStructLaws _ toy_ef _.
Proof. by apply toy_laws. Defined.
Lemma toy_tob_laws : @SolStructLaws _ toy_tob _.
Proof. by apply toy_laws. Defined.

Definition toy_order : AllOrders :=
  PartialStanding (mkPartialStandingOrder 0 1 10 2 (10 ^ 27) false 5 6 0 [] 3 99
                     (mkOrderMeta true 77 [1])).

Lemma hash_ignores_signature_witness :
  @order_hash toy_crypto AllOrders (@AllOrders_raw toy_crypto toy_ps toy_es toy_pf toy_ef toy_tob)
    (set_meta (mkOrderMeta true 77 [2]) toy_order) =
  @order_hash toy_crypto AllOrders (@AllOrders_raw toy_crypto toy_ps toy_es toy_pf toy_ef toy_tob)
    toy_order.
Proof.
  apply (@hash_ignores_signature toy_crypto toy_ps toy_es toy_pf toy_ef toy_tob
           toy_ps_laws toy_es_laws toy_pf_laws toy_ef_laws toy_tob_laws). reflexivity.
Defined.

Lemma signature_binds_sender_witness :
  let I := @AllOrders_raw toy_crypto toy_ps toy_es toy_pf toy_ef toy_tob in
  let h := @no_meta_eip712_signing_hash toy_crypto PartialStandingOrder toy_ps
             (mkPartialStandingOrder 0 1 10 2 (10 ^ 27) false 5 6 0 [] 3 99 (mkOrderMeta true 77 [1])) in
  let m := mkOrderMeta true ((1 + h) mod 2 ^ 160) [1] in
  @is_valid_signature toy_crypto AllOrders I (set_meta m toy_order) = true /\
  @from toy_crypto AllOrders I (set_meta m toy_order) =
  @from toy_crypto AllOrders I (set_meta m toy_order).
Proof.
  split; [vm_compute; reflexivity |].
  apply (@signature_binds_sender toy_crypto toy_ps toy_es toy_pf toy_ef toy_tob
           toy_ps_laws toy_es_laws toy_pf_laws toy_ef_laws toy_tob_laws);
    vm_compute; reflexivity.
Defined.

Lemma tob_limit_price_witness :
  @limit_price toy_crypto TopOfBlockOrder (@TopOfBlockOrder_raw toy_crypto toy_tob)
    (mkTopOfBlockOrder 7 2 0 false 1 2 0 8 (mkOrderMeta true 0 [])) = Ok (3500000000000000000000000000).
Proof.
  rewrite (@tob_limit_price toy_crypto toy_tob
             (mkTopOfBlockOrder 7 2 0 false 1 2 0 8 (mkOrderMeta true 0 [])));
    [reflexivity | split; vm_compute; discriminate | split; vm_compute; discriminate].
Defined.

(** A cancellation is accepted exactly when the signature bytes decode and
    recover to the claimed user over the user's address and the order id;
    bytes that do not decode panic instead of being refused. *)
Theorem cancel_checked {C : OrderCrypto} (r : CancelOrderRequest) :
  (cancel_is_valid r = Ok true <->
     exists sig, pade_decode_signature (cr_signature r) = Some sig /\
       recover_address_from_msg sig
         (be_bytes 20 (cr_user_address r) ++ be_bytes 32 (cr_order_id r))
         = Some (cr_user_address r)) /\
  (pade_decode_signature (cr_signature r) = None <-> cancel_is_valid r = Panic).
Proof.
  unfold cancel_is_valid, signing_payload.
  destruct (pade_decode_signature _) as [sig |]; cbn [unwrap M_bind].
  - split; [| split; [done |]; by destruct (recover_address_from_msg _ _)].
    destruct (recover_address_from_msg sig _) as [a |] eqn:E.
    + split.
      * intros H. injection H as ->%Z.eqb_eq. by exists sig.
      * intros (? & [= <-] & H). rewrite E in H. injection H as ->. by rewrite Z.eqb_refl.
    + split; [done |]. intros (? & [= <-] & H). congruence.
  - split; [| done]. split; [done |]. by intros (? & ? & _).
Qed.
