(* ===== verification/Donation.v ===== *)
(** * Reward donations

    crates/types/src/uni_structure/donation.rs and the data of
    crates/types/src/contract_payloads/rewards.rs: the list of donations a swap
    produces, the merging of the donations of two consecutive swaps, and their
    encoding as the reward updates the contract executes. *)

From S2P Require Import Prelude.

Inductive RewardsUpdate :=
| MultiTick (start_tick start_liquidity : Z) (quantities : list Z) (reward_checksum : Z)
| CurrentOnly (amount expected_liquidity : Z).

Definition RewardsUpdate_empty : RewardsUpdate := CurrentOnly 0 0.

Definition RewardsUpdate_quantities (r : RewardsUpdate) : list Z :=
  match r with
  | MultiTick _ _ quantities _ => quantities
  | CurrentOnly amount _ => [amount]
  end.

Inductive DonationType :=
| Below (high_tick donation liquidity : Z)
| Above (low_tick donation liquidity : Z)
| Current (final_tick donation liquidity : Z).

Definition donation (d : DonationType) : Z :=
  match d with Below _ q _ | Above _ q _ | Current _ q _ => q end.

Definition liquidity (d : DonationType) : Z :=
  match d with Below _ _ l | Above _ _ l | Current _ _ l => l end.

Definition tick (d : DonationType) : Z :=
  match d with Below t _ _ | Above t _ _ | Current t _ _ => t end.

Definition is_current (d : DonationType) : bool :=
  match d with Current _ _ _ => true | _ => false end.

Record DonationCalculation := mkDonationCalculation {
  dc_donations : list DonationType;
  dc_current_tick : Z;
  dc_break_idx : Z;
  dc_total_donated : Z;
}.

(** Keccak-256 of a byte string, as a number; not part of the repository. *)
Class Keccak := keccak : list Z -> Z.

Section Donations.
Context {P : Profile}.

(** [&DonationType + u128] and [&DonationType + &DonationType]; the latter
    keeps the kind of the right operand. *)
Definition donation_add (d : DonationType) (rhs : Z) : M DonationType :=
  let* q := u128_add (donation d) rhs in
  Ok (match d with
      | Below t _ l => Below t q l
      | Above t _ l => Above t q l
      | Current t _ l => Current t q l
      end).

Definition donation_merge (self rhs : DonationType) : M DonationType :=
  donation_add rhs (donation self).

Definition sum_donations (l : list DonationType) : M Z :=
  M_fold (fun acc d => u128_add acc (donation d)) 0 l.

Definition from_vec (vec : list DonationType) : M DonationCalculation :=
  match vec with
  | [] => Ok (mkDonationCalculation [] 0 0 0)
  | first :: _ =>
      if negb (existsb is_current vec) then Panic else
      let (donations, break_idx) :=
        match first with
        | Above _ _ _ => (reverse vec, 0)
        | _ => (vec, Z.of_nat (length vec) - 1)
        end in
      let current_tick :=
        match vec !! (length vec - 1)%nat with
        | Some (Current final_tick _ _) => final_tick
        | _ => 0
        end in
      let* total_donated := sum_donations vec in
      Ok (mkDonationCalculation donations current_tick break_idx total_donated)
  end.

(** The loop variables of [&DonationCalculation + &[DonationType]]. *)
Record MergeState := mkMergeState {
  ms_donations : list DonationType;
  ms_total : Z;
  ms_rel_idx : Z;
  ms_current_tick : Z;
}.

Definition merge_step (s : MergeState) (i : DonationType) : M MergeState :=
  let* total := u128_add (ms_total s) (donation i) in
  let current_tick := match i with Current t _ _ => t | _ => ms_current_tick s end in
  if ms_rel_idx s =? 0 then
    Ok (mkMergeState (i :: ms_donations s) total 0 current_tick)
  else
    let* donations :=
      match ms_donations s !! Z.to_nat (ms_rel_idx s - 1) with
      | Some entry =>
          let* e := donation_merge entry i in
          Ok (<[Z.to_nat (ms_rel_idx s - 1) := e]> (ms_donations s))
      | None => Ok (ms_donations s ++ [i])
      end in
    let* rel_idx :=
      match i with
      | Above _ _ _ => checked_u 64 (ms_rel_idx s - 1)
      | Below _ _ _ => checked_u 64 (ms_rel_idx s + 1)
      | Current _ _ _ => Ok (ms_rel_idx s)
      end in
    Ok (mkMergeState donations total rel_idx current_tick).

Definition calculation_add (c : DonationCalculation) (rhs : list DonationType) :
    M DonationCalculation :=
  let* rel_idx := checked_u 64 (dc_break_idx c + 1) in
  let* s := M_fold merge_step
              (mkMergeState (dc_donations c) (dc_total_donated c) rel_idx (dc_current_tick c)) rhs in
  Ok (mkDonationCalculation (ms_donations s) (ms_current_tick s)
        (saturating_sub (ms_rel_idx s) 1) (ms_total s)).

(** ** Encoding as reward updates *)

Context {K : Keccak}.

Fixpoint bytes_be (n : nat) (x : Z) : list Z :=
  match n with O => [] | S n => bytes_be n (x / 256) ++ [x mod 256] end.

(** [I24::unchecked_from] wraps; its bytes are the two's complement. *)
Definition i24 (t : Z) : Z := wrap_i 24 t.

(** [len - 1] is native; callers pass the length of the list. *)
Definition checksum_iter (donations : list DonationType) (len : nat) : Z :=
  let ticks := map tick (take (len - 1) donations) in
  let liqs := map liquidity (drop 1 donations) in
  let hash := fold_left (fun acc p =>
                 keccak (bytes_be 32 acc ++ bytes_be 16 p.2 ++ bytes_be 3 (wrap_u 24 p.1)))
                (zip ticks liqs) 0 in
  Z.shiftr hash 96.

Definition multi_tick (start : DonationType) (quantities : list Z) (checksum : Z) : RewardsUpdate :=
  MultiTick (i24 (tick start)) (liquidity start) quantities checksum.

(** [*last_q = 0]. *)
Definition zero_last (l : list Z) : list Z :=
  match l with [] => [] | _ => <[(length l - 1)%nat := 0]> l end.

(** Slice indexing panics out of range, [VecDeque::split_off] past the end. *)
Definition into_reward_updates (c : DonationCalculation) :
    M (RewardsUpdate * option RewardsUpdate) :=
  let d := dc_donations c in
  let len := length d in
  match len with
  | 0%nat => Ok (CurrentOnly 0 0, None)
  | 1%nat =>
      let* x := unwrap (d !! 0%nat) in
      Ok (CurrentOnly (donation x) (liquidity x), None)
  | _ =>
      if dc_break_idx c =? 0 then
        let* start := unwrap (d !! (len - 1)%nat) in
        Ok (multi_tick start (map donation (reverse d)) (checksum_iter (reverse d) len), None)
      else if dc_break_idx c =? Z.of_nat len - 1 then
        let* start := unwrap (d !! 0%nat) in
        Ok (multi_tick start (map donation d) (checksum_iter d len), None)
      else
        if Z.of_nat len <? dc_break_idx c then Panic else
        let b := Z.to_nat (dc_break_idx c) in
        let self_and_above := drop b d in
        let* cur := unwrap (self_and_above !! 0%nat) in
        let below := take b d ++ [cur] in
        let* start := unwrap (self_and_above !! (length self_and_above - 1)%nat) in
        let upper := multi_tick start (map donation (reverse self_and_above))
                       (checksum_iter self_and_above (length self_and_above)) in
        let* below_start := unwrap (below !! 0%nat) in
        let lower := multi_tick below_start (zero_last (map donation below))
                       (checksum_iter below (length below)) in
        Ok (upper, Some lower)
  end.

End Donations.

(** ** Lemmas *)

Definition donated (l : list DonationType) : Z := sumZ (map donation l).

Definition update_total (r : RewardsUpdate * option RewardsUpdate) : Z :=
  sumZ (RewardsUpdate_quantities r.1) +
  match r.2 with Some u => sumZ (RewardsUpdate_quantities u) | None => 0 end.

Lemma donated_app l k : donated (l ++ k) = donated l + donated k.
Proof. unfold donated. by rewrite map_app, sumZ_app. Qed.

#[export] Instance donated_perm : Proper ((≡ₚ) ==> (=)) donated.
Proof. intros l k H. unfold donated. by rewrite H. Qed.

Lemma donated_insert l n d e :
  l !! n = Some d -> donated (<[n := e]> l) = donated l - donation d + donation e.
Proof.
  revert n. induction l as [| x l IH]; intros [| n] H; simpl in *; try done.
  - injection H as ->. unfold donated. simpl. lia.
  - unfold donated in *. simpl. rewrite IH by done. lia.
Qed.

Lemma donation_add_Ok {P : Profile} d q e :
  donation d + q <= u_max 128 -> 0 <= donation d + q ->
  donation_add d q = Ok e ->
  donation e = donation d + q /\ tick e = tick d /\ liquidity e = liquidity d.
Proof.
  intros Hm H0. unfold donation_add, u128_add. rewrite checked_u_Ok by done. cbn [M_bind].
  intros [= <-]. by destruct d.
Qed.

(** What every calculation built by the code satisfies. *)
Record calc_wf (c : DonationCalculation) : Prop := {
  wf_total : dc_total_donated c = donated (dc_donations c);
  wf_nonneg : Forall (fun d => 0 <= donation d) (dc_donations c);
  wf_break : 0 <= dc_break_idx c <= Z.of_nat (length (dc_donations c));
}.

(** Donations as a swap produces them: the current range comes last. *)
Definition ends_current (l : list DonationType) : Prop :=
  exists k t q liq, l = k ++ [Current t q liq].

Lemma sum_donations_Ok {P : Profile} l :
  Forall (fun d => 0 <= donation d) l -> donated l <= u_max 128 ->
  sum_donations l = Ok (donated l).
Proof.
  intros Hnn Hmax. unfold sum_donations.
  rewrite (M_fold_Ok _ (fun acc d => acc + donation d)
    (fun s k => 0 <= s /\ Forall (fun d => 0 <= donation d) k /\ s + donated k <= u_max 128)).
  - f_equal. rewrite <- (Z.add_0_l (donated l)) at 1. generalize 0 as a.
    induction l as [| x l IH]; intros a; simpl; [unfold donated; simpl; lia |].
    apply Forall_cons in Hnn as [Hx Hl]. unfold donated in *. simpl in *.
    rewrite IH; [lia | done |]. lia.
  - intros s x k (Hs & Hk & Hm). apply Forall_cons in Hk as [Hx Hk].
    assert (0 <= donated k) by (apply sumZ_nonneg, Forall_map; done).
    unfold donated in *. simpl in *.
    unfold u128_add. rewrite checked_u_Ok by lia. split; [done |]. split; [lia |]. split; [done | lia].
  - split; [lia |]. split; [done | lia].
Qed.

Lemma donated_nonneg l : Forall (fun d => 0 <= donation d) l -> 0 <= donated l.
Proof. intros. by apply sumZ_nonneg, Forall_map. Qed.

Lemma from_vec_wf {P : Profile} l :
  (l = [] \/ ends_current l) -> Forall (fun d => 0 <= donation d) l -> donated l <= u_max 128 ->
  exists c, from_vec l = Ok c /\ calc_wf c /\ dc_donations c ≡ₚ l.
Proof.
  intros Hc Hnn Hmax. destruct l as [| x l']; [eexists; split; [done |]; split; done |].
  set (l := x :: l') in *. destruct Hc as [? | (k & t & q & liq & E)]; [done |].
  assert (existsb is_current l = true) as Hex.
  { rewrite E, existsb_app. simpl. by rewrite orb_true_r. }
  unfold from_vec. fold l. change (match l with [] => _ | f :: _ => ?b end) with b.
  subst l. cbn beta iota. rewrite Hex. cbn [negb]. rewrite sum_donations_Ok by done.
  destruct x as [t' q' l'' | t' q' l'' | t' q' l'']; cbn [M_bind];
    (eexists; split; [reflexivity |]); split; simpl dc_donations; try done;
    try apply reverse_Permutation; split; simpl dc_donations; simpl dc_total_donated;
    simpl dc_break_idx; try done; rewrite ?reverse_Permutation, ?length_reverse; try done;
    simpl length; lia.
Qed.

(** The loop invariant of the merge. *)
Record merge_wf (s : MergeState) : Prop := {
  mw_total : ms_total s = donated (ms_donations s);
  mw_nonneg : Forall (fun d => 0 <= donation d) (ms_donations s);
  mw_idx : 0 <= ms_rel_idx s <= Z.of_nat (length (ms_donations s)) + 1;
}.

Lemma merge_step_Ok {P : Profile} s i :
  merge_wf s -> 0 <= donation i -> ms_total s + donation i <= u_max 128 ->
  Z.of_nat (length (ms_donations s)) + 2 <= u_max 64 ->
  exists s', merge_step s i = Ok s' /\ merge_wf s' /\
    ms_total s' = ms_total s + donation i /\
    (length (ms_donations s') <= S (length (ms_donations s)))%nat /\
    (is_current i = true ->
       ms_rel_idx s' <= Z.of_nat (length (ms_donations s')) /\ ms_current_tick s' = tick i).
Proof.
  intros [Ht Hnn Hidx] Hi Hmax Hlen. unfold merge_step, u128_add.
  pose proof (donated_nonneg _ Hnn) as Hd0.
  rewrite (checked_u_Ok 128) by (rewrite Ht in *; lia). cbn [M_bind].
  destruct (Z.eqb_spec (ms_rel_idx s) 0) as [E0 | Hn0].
  - eexists. split; [reflexivity |]. repeat split; simpl; try lia.
    + rewrite Ht. unfold donated. simpl. lia.
    + by constructor.
    + by destruct i.
  - destruct (ms_donations s !! Z.to_nat (ms_rel_idx s - 1)) as [e |] eqn:El.
    + assert (0 <= donation e <= donated (ms_donations s)) as [He0 He].
      { split.
        - eapply Forall_forall in Hnn; [exact Hnn |]. by eapply list_elem_of_lookup_2.
        - apply sumZ_elem; [by apply Forall_map |].
          apply list_elem_of_fmap. eexists. split; [done |]. by eapply list_elem_of_lookup_2. }
      pose proof (lookup_lt_Some _ _ _ El) as Hlt.
      unfold donation_merge, donation_add, u128_add.
      rewrite (checked_u_Ok 128) by (rewrite Ht in Hmax; lia). cbn [M_bind].
      destruct i as [t q lq | t q lq | t q lq]; simpl in Hi, Hmax |- *;
        rewrite ?checked_u_Ok by lia; cbn [M_bind]; (eexists; split; [reflexivity |]);
        (split; [split; simpl; [rewrite (donated_insert _ _ e), Ht by done; simpl; lia
                               | apply Forall_insert; simpl; [done | lia]
                               | rewrite length_insert; lia]
               | simpl; rewrite length_insert; repeat split; try lia; done]).
    + apply lookup_ge_None in El. cbn [M_bind].
      destruct i as [t q lq | t q lq | t q lq]; simpl in Hi, Hmax |- *;
        rewrite ?checked_u_Ok by lia; cbn [M_bind]; (eexists; split; [reflexivity |]);
        (split; [split; simpl; [rewrite donated_app, Ht; unfold donated; simpl; lia
                               | apply Forall_app; split; [done |]; by constructor
                               | rewrite length_app; simpl; lia]
               | simpl; rewrite length_app; simpl; repeat split; try lia; done]).
Qed.

Lemma merge_fold_Ok {P : Profile} l s :
  merge_wf s -> Forall (fun d => 0 <= donation d) l -> ms_total s + donated l <= u_max 128 ->
  Z.of_nat (length (ms_donations s)) + Z.of_nat (length l) + 2 <= u_max 64 ->
  exists s', M_fold merge_step s l = Ok s' /\ merge_wf s' /\
    ms_total s' = ms_total s + donated l /\
    (ends_current l -> ms_rel_idx s' <= Z.of_nat (length (ms_donations s'))).
Proof.
  revert s. induction l as [| x l IH]; intros s Hwf Hnn Hmax Hlen.
  - exists s. split; [done |]. split; [done |]. split; [unfold donated; simpl; lia |].
    intros (k & t & q & lq & E). by destruct k.
  - apply Forall_cons in Hnn as [Hx Hl]. pose proof (donated_nonneg _ Hl) as Hd.
    unfold donated in Hmax. simpl in Hmax. fold (donated l) in Hmax. simpl length in Hlen.
    destruct (merge_step_Ok s x) as (s1 & E1 & Hwf1 & Ht1 & Hl1 & Hc1); [done | done | lia | lia |].
    simpl. rewrite E1. cbn [M_bind].
    destruct (IH s1) as (s2 & E2 & Hwf2 & Ht2 & Hc2); [done | done | lia | lia |].
    exists s2. split; [done |]. split; [done |]. split.
    { rewrite Ht2, Ht1. unfold donated. simpl. lia. }
    intros (k & t & q & lq & E). destruct k as [| y k]; injection E as -> ->.
    + simpl in E2. injection E2 as <-. by apply Hc1.
    + apply Hc2. by exists k, t, q, lq.
Qed.

Lemma calculation_add_Ok {P : Profile} c l :
  calc_wf c -> Forall (fun d => 0 <= donation d) l ->
  dc_total_donated c + donated l <= u_max 128 ->
  Z.of_nat (length (dc_donations c)) + Z.of_nat (length l) + 2 <= u_max 64 ->
  exists c', calculation_add c l = Ok c' /\ calc_wf c' /\
    dc_total_donated c' = dc_total_donated c + donated l /\
    (ends_current l -> dc_break_idx c' < Z.of_nat (length (dc_donations c'))).
Proof.
  intros [Ht Hnn Hb] Hl Hmax Hlen. unfold calculation_add.
  rewrite checked_u_Ok by lia. cbn [M_bind].
  destruct (merge_fold_Ok l (mkMergeState (dc_donations c) (dc_total_donated c)
              (dc_break_idx c + 1) (dc_current_tick c))) as (s & E & [Ht' Hnn' Hi'] & Htot & Hc);
    [split; simpl; [done | done | lia] | done | done | done |].
  rewrite E. cbn [M_bind]. eexists. split; [reflexivity |].
  unfold saturating_sub. split; [split; simpl; [done | done | lia] |].
  split; [done |]. intros He. specialize (Hc He). simpl.
  destruct He as (k & t & q & lq & ->).
  assert (ms_donations s <> []) as Hne; [| destruct (ms_donations s); [done | simpl in *; lia]].
  intros En. clear -E En.
  revert E. generalize (mkMergeState (dc_donations c) (dc_total_donated c)
    (dc_break_idx c + 1) (dc_current_tick c)) as s0.
  induction k as [| y k IH]; intros s0 E; simpl in E; m_inv.
  - unfold merge_step in H. m_inv. destruct (ms_rel_idx s0 =? 0); m_inv; simpl in En; [done |].
    destruct (ms_donations s0 !! _) as [e |] eqn:El; m_inv.
    all: match goal with H : _ = [] |- _ => apply (f_equal length) in H;
           rewrite ?length_insert, ?length_app in H; simpl in H end.
    + apply lookup_lt_Some in El. lia.
    + lia.
  - by eapply IH.
Qed.

Lemma zero_last_snoc l x : zero_last (l ++ [x]) = l ++ [0].
Proof.
  unfold zero_last. destruct (l ++ [x]) eqn:E; [by destruct l |]. rewrite <- E.
  rewrite length_app. simpl. rewrite Nat.add_sub, <- (Nat.add_0_r (length l)).
  by rewrite insert_app_r.
Qed.

Lemma into_reward_updates_total {K : Keccak} c :
  calc_wf c ->
  (dc_donations c <> [] -> dc_break_idx c < Z.of_nat (length (dc_donations c))) ->
  exists u, into_reward_updates c = Ok u /\ update_total u = donated (dc_donations c).
Proof.
  intros [_ _ Hb] Hlt. unfold into_reward_updates. set (d := dc_donations c) in *.
  destruct d as [| x [| y d']] eqn:Ed.
  - eexists. split; [reflexivity |]. done.
  - eexists. split; [reflexivity |]. unfold update_total, donated. simpl. lia.
  - rewrite <- Ed in *. specialize (Hlt ltac:(by rewrite Ed)).
    assert (2 <= length d)%nat as Hl by (rewrite Ed; simpl; lia).
    destruct (length d) as [| [| n]] eqn:El; [lia | lia |]. rewrite <- El in *.
    clear Ed x y d'. clearbody d.
    assert (forall i, (i < length d)%nat -> exists z, d !! i = Some z) as Hsome.
    { intros i Hi. by apply lookup_lt_is_Some_2. }
    destruct (Z.eqb_spec (dc_break_idx c) 0) as [E0 | Hn0].
    { destruct (Hsome (length d - 1)%nat) as [z Hz]; [lia |]. rewrite Hz. cbn [unwrap M_bind].
      eexists. split; [reflexivity |]. unfold update_total, donated. simpl.
      rewrite reverse_Permutation. lia. }
    destruct (Z.eqb_spec (dc_break_idx c) (Z.of_nat (length d) - 1)) as [E1 | Hn1].
    { destruct (Hsome 0%nat) as [z Hz]; [lia |]. rewrite Hz. cbn [unwrap M_bind].
      eexists. split; [reflexivity |]. unfold update_total, donated. simpl. lia. }
    rewrite (proj2 (Z.ltb_ge _ _)) by lia. set (b := Z.to_nat (dc_break_idx c)).
    assert (0 < b < length d)%nat as Hbd by lia.
    destruct (Hsome b) as [cur Hcur]; [lia |].
    rewrite !lookup_drop, Nat.add_0_r, Hcur, length_drop. cbn [unwrap M_bind].
    destruct (Hsome (b + (length d - b - 1))%nat) as [st ->]; [lia |]. cbn [unwrap M_bind].
    destruct (Hsome 0%nat) as [bs Hbs]; [lia |].
    rewrite lookup_app_l, lookup_take_lt, Hbs by (rewrite ?length_take; lia). cbn [unwrap M_bind].
    eexists. split; [reflexivity |]. unfold update_total. simpl.
    rewrite reverse_Permutation, map_app. simpl map. rewrite zero_last_snoc, sumZ_app. simpl.
    rewrite <- (take_drop b d) at 3. rewrite donated_app. unfold donated. lia.
Qed.

(** ** Properties *)

(** C12: Reward accounting is exact.  For the donations of two consecutive swaps
    (each with its current range last), building the calculation, merging the
    second list into it and encoding the result never panics, the recorded
    total is the sum of both lists, and the quantities of the one or two
    reward updates add up to exactly that total: nothing donated is lost or
    paid twice, wherever the second swap ends relative to the first. *)
Theorem rewards_conserved (P : Profile) (K : Keccak) v1 v2 :
  ends_current v1 -> ends_current v2 ->
  Forall (fun d => 0 <= donation d) v1 -> Forall (fun d => 0 <= donation d) v2 ->
  donated v1 + donated v2 <= u_max 128 ->
  Z.of_nat (length v1) + Z.of_nat (length v2) + 2 <= u_max 64 ->
  exists c1 c2 u, from_vec v1 = Ok c1 /\ calculation_add c1 v2 = Ok c2 /\
    into_reward_updates c2 = Ok u /\
    dc_total_donated c2 = donated v1 + donated v2 /\ update_total u = dc_total_donated c2.
Proof.
  intros H1 H2 Hn1 Hn2 Hmax Hlen. pose proof (donated_nonneg _ Hn2).
  destruct (from_vec_wf v1) as (c1 & E1 & Hwf1 & Hp); [by right | done | lia |].
  assert (dc_total_donated c1 = donated v1) as Ht by (by rewrite (wf_total _ Hwf1), Hp).
  destruct (calculation_add_Ok c1 v2) as (c2 & E2 & Hwf2 & Ht2 & Hb);
    [done | done | lia | rewrite Hp; lia |].
  destruct (into_reward_updates_total c2 Hwf2) as (u & E3 & Hu); [intros _; by apply Hb |].
  exists c1, c2, u. split; [done |]. split; [done |]. split; [done |].
  split; [lia |]. by rewrite Hu, (wf_total _ Hwf2).
Qed.

(** A hash for evaluation. *)
Definition toy_keccak : Keccak := fun l => fold_left (fun h x => (h * 263 + x + 1) mod 2 ^ 256) l 1.

Lemma rewards_conserved_witness :
  exists c1 c2 u,
    @from_vec dev [Below (-500) 100 7; Below (-400) 50 8; Current (-278) 25 9] = Ok c1 /\
    @calculation_add dev c1 [Above (-400) 10 9; Current (-450) 5 8] = Ok c2 /\
    @into_reward_updates toy_keccak c2 = Ok u /\
    dc_total_donated c2 = 175 + 15 /\ update_total u = dc_total_donated c2.
Proof.
  apply (rewards_conserved dev toy_keccak
    [Below (-500) 100 7; Below (-400) 50 8; Current (-278) 25 9]
    [Above (-400) 10 9; Current (-450) 5 8]).
  - by exists [Below (-500) 100 7; Below (-400) 50 8], (-278), 25, 9.
  - by exists [Above (-400) 10 9], (-450), 5, 8.
  - repeat constructor; simpl; lia.
  - repeat constructor; simpl; lia.
  - by vm_compute.
  - by vm_compute.
Defined.

(** When the final range lies strictly inside the merged list, the update for
    the ranges above it starts from the topmost range and lists the quantities
    from the top down, but its checksum is taken over the ranges from the bottom
    up: the same ranges encoded as a one-sided update carry another checksum. *)
Theorem mixed_checksum_reversed :
  exists (K : Keccak) c c' start liq qs check check' below,
    dc_donations c' = drop (Z.to_nat (dc_break_idx c)) (dc_donations c) /\ dc_break_idx c' = 0 /\
    into_reward_updates c = Ok (MultiTick start liq qs check, Some below) /\
    into_reward_updates c' = Ok (MultiTick start liq qs check', None) /\ check <> check'.
Proof.
  pose (d := [Below (-500) 1 7; Current (-450) 2 8; Above (-400) 3 9; Above (-300) 4 10]).
  exists toy_keccak, (mkDonationCalculation d (-450) 1 10), (mkDonationCalculation (drop 1 d) (-450) 0 9).
  do 6 eexists. split; [reflexivity |]. split; [reflexivity |].
  split; [vm_compute; reflexivity |]. split; [vm_compute; reflexivity |]. vm_compute. discriminate.
Qed.
