(* ===== verification/PoolSwap.v ===== *)
(** * The pool simulator

    crates/types/src/uni_structure/{liquidity_base,pool_swap,mod}.rs: the
    node's own walk over the ticks of a Uniswap pool.  [BaselineLiquidity] is the
    snapshot, [LiquidityAtPoint] the moving view of it, [swap] the loop that
    crosses ticks until the amount is used up or the price limit is reached, and
    [t0_donation_vec] the distribution of a reward over the ranges crossed.

    The tick and price arithmetic is the parameter [UniswapMath]; [SwapLaws]
    states what its documentation promises. *)

From S2P Require Import Prelude Uniswap Ray Donation.

(** ** Liquidity (liquidity_base.rs) *)

Record BaselineLiquidity := mkBaselineLiquidity {
  bl_tick_spacing : Z;
  bl_start_tick : Z;
  bl_start_sqrt_price : Z;
  bl_start_liquidity : Z;
  bl_initialized_ticks : gmap Z TickInfo;
  bl_tick_bitmap : gmap Z Z;
}.

Record LiquidityAtPoint := mkLiquidityAtPoint {
  lp_tick_spacing : Z;
  lp_current_tick : Z;
  lp_current_sqrt_price : Z;
  lp_current_liquidity : Z;
  lp_initialized_ticks : gmap Z TickInfo;
  lp_tick_bitmap : gmap Z Z;
}.

Definition lp_set (l : LiquidityAtPoint) (tick sqrt liq : Z) : LiquidityAtPoint :=
  mkLiquidityAtPoint (lp_tick_spacing l) tick sqrt liq (lp_initialized_ticks l) (lp_tick_bitmap l).

(** ** Swaps (pool_swap.rs) *)

Record PoolSwapStep := mkPoolSwapStep {
  ss_end_tick : Z;
  ss_init : bool;
  ss_liquidity : Z;
  ss_d_t0 : Z;
  ss_d_t1 : Z;
}.

Record PoolSwap := mkPoolSwap {
  sw_liquidity : LiquidityAtPoint;
  sw_target_price : option Z;
  sw_target_amount : Z;
  sw_direction : Direction;
  sw_fee : Z;
}.

Record PoolSwapResult := mkPoolSwapResult {
  sr_fee : Z;
  sr_start_price : Z;
  sr_start_tick : Z;
  sr_end_price : Z;
  sr_end_tick : Z;
  sr_total_d_t0 : Z;
  sr_total_d_t1 : Z;
  sr_steps : list PoolSwapStep;
  sr_end_liquidity : LiquidityAtPoint;
}.

Record TickInterval := mkTickInterval {
  ti_lower_tick : option Z;
  ti_upper_tick : option Z;
  ti_liquidity : Z;
  ti_d_t0 : Z;
  ti_d_t1 : Z;
}.

(** The mutable variables of the swap loop; [total_in] and [total_out] are
    never read and left out. *)
Record SwapState := mkSwapState {
  st_liquidity : LiquidityAtPoint;
  st_remaining : Z;
  st_sqrt_price : Z;
  st_steps : list PoolSwapStep;
}.

(** [I256::saturating_add/sub] and [I256::from_raw]. *)
Definition i256_saturate (x : Z) : Z := Z.max (i_min 256) (Z.min (i_max 256) x).
Definition from_raw (x : Z) : Z := wrap_i 256 x.

Section Swap.
Context {P : Profile} {U : UniswapMath}.

(** [sorted_by_key] of the ticks that pass the filter. *)
Definition sorted_ticks (key : Z -> Z) (keep : Z -> bool) (m : gmap Z TickInfo) :
    list (Z * TickInfo) :=
  merge_sort (fun a b => Is_true (key a.1 <=? key b.1))
    (List.filter (fun p => keep p.1) (map_to_list m)).

(** [BaselineLiquidity::at_sqrt_price]. *)
Definition at_sqrt_price (b : BaselineLiquidity) (price : Z) : M LiquidityAtPoint :=
  let zfo := price <=? bl_start_sqrt_price b in
  let* tick_at_price := get_tick_at_sqrt_ratio price in
  let current_liquidity := Z.min (i_max 128) (bl_start_liquidity b) in
  let* liquidity :=
    if zfo then
      M_fold (fun acc (p : Z * TickInfo) =>
                if initialized p.2 then
                  let* n := checked_i 128 (- liquidity_net p.2) in checked_i 128 (acc + n)
                else Ok acc)
        current_liquidity
        (sorted_ticks Z.opp (fun t => t <? bl_start_tick b) (bl_initialized_ticks b))
    else
      M_fold (fun acc (p : Z * TickInfo) =>
                if initialized p.2 then checked_i 128 (acc + liquidity_net p.2) else Ok acc)
        current_liquidity
        (sorted_ticks (fun k => k) (fun t => bl_start_tick b <? t) (bl_initialized_ticks b)) in
  Ok (mkLiquidityAtPoint (bl_tick_spacing b) tick_at_price price (Z.abs liquidity)
        (bl_initialized_ticks b) (bl_tick_bitmap b)).

(** [BaselineLiquidity::current]. *)
Definition current (b : BaselineLiquidity) : LiquidityAtPoint :=
  mkLiquidityAtPoint (bl_tick_spacing b) (bl_start_tick b) (bl_start_sqrt_price b)
    (bl_start_liquidity b) (bl_initialized_ticks b) (bl_tick_bitmap b).

Definition get_to_next_initialized_tick_within_one_word (l : LiquidityAtPoint) (direction : bool) :
    M (Z * Z * bool) :=
  let* (tick_next, init) :=
    next_initialized_tick_within_one_word (lp_tick_bitmap l) (lp_current_tick l)
      (lp_tick_spacing l) direction in
  Ok (tick_next, lp_current_liquidity l, init).

Definition get_to_next_initialized_tick_within_one_word_from_tick
    (l : LiquidityAtPoint) (tick : Z) (direction : bool) : M (Z * Z * bool) :=
  let* (tick_next, init) :=
    next_initialized_tick_within_one_word (lp_tick_bitmap l) tick (lp_tick_spacing l) direction in
  Ok (tick_next, lp_current_liquidity l, init).

(** The liquidity after crossing [tick_next]. *)
Definition cross_tick (l : LiquidityAtPoint) (tick_next : Z) (direction : bool) : M Z :=
  let* liq_net :=
    match lp_initialized_ticks l !! tick_next with
    | Some info => if direction then checked_i 128 (- liquidity_net info)
                   else Ok (liquidity_net info)
    | None => Ok 0
    end in
  if liq_net <? 0 then
    ok_or (checked_sub (lp_current_liquidity l) (Z.abs liq_net))
      "underflow on liquidity. Shouldn't be possible"
  else u128_add (lp_current_liquidity l) (Z.abs liq_net).

Definition move_to_next_tick (l : LiquidityAtPoint) (sqrt_price : Z)
    (direction full_range sqrt_moved : bool) : M LiquidityAtPoint :=
  let* (tick_next, init) :=
    next_initialized_tick_within_one_word (lp_tick_bitmap l) (lp_current_tick l)
      (lp_tick_spacing l) direction in
  if full_range then
    let* liq := if (init : bool) then cross_tick l tick_next direction
                else Ok (lp_current_liquidity l) in
    let* tick := if direction then checked_i 32 (tick_next - 1) else Ok tick_next in
    Ok (lp_set l tick (lp_current_sqrt_price l) liq)
  else if sqrt_moved then
    let* tick := get_tick_at_sqrt_ratio sqrt_price in
    Ok (lp_set l tick (lp_current_sqrt_price l) (lp_current_liquidity l))
  else Ok l.

Definition set_sqrt_price (l : LiquidityAtPoint) (sqrt_price : Z) : M LiquidityAtPoint :=
  let* p := SqrtPriceX96.from_u256 sqrt_price in
  Ok (lp_set l (lp_current_tick l) p (lp_current_liquidity l)).

Definition price_limit (s : PoolSwap) : Z :=
  match sw_target_price s with
  | Some p => p
  | None => if dir_is_ask (sw_direction s) then uint_add 256 MIN_SQRT_RATIO 1
            else uint_sub 256 MAX_SQRT_RATIO 1
  end.

(** One iteration of the loop of [PoolSwap::swap]. *)
Definition swap_step (direction : Direction) (fee limit : Z) (exact_input : bool) (s : SwapState) :
    M SwapState :=
  let ask := dir_is_ask direction in
  let* (next_tick, liquidity, init) :=
    get_to_next_initialized_tick_within_one_word (st_liquidity s) ask in
  let* sqrt_price_next := get_sqrt_ratio_at_tick next_tick in
  let target := if (ask && (sqrt_price_next <? limit)) || (negb ask && (limit <? sqrt_price_next))
                then limit else sqrt_price_next in
  let* (new_price, amount_in, amount_out, fee_amount) :=
    compute_swap_step (st_sqrt_price s) target liquidity (st_remaining s) fee in
  let remaining :=
    if exact_input then
      i256_saturate (i256_saturate (st_remaining s - from_raw amount_in) - from_raw fee_amount)
    else i256_saturate (st_remaining s + from_raw amount_out) in
  let* a_in := uint_from 128 amount_in in
  let* a_out := uint_from 128 amount_out in
  let (d_t0, d_t1) := sort_tokens direction a_in a_out in
  let* liq := move_to_next_tick (st_liquidity s) new_price ask
                (new_price =? sqrt_price_next) (negb (new_price =? st_sqrt_price s)) in
  Ok (mkSwapState liq remaining new_price
        (st_steps s ++ [mkPoolSwapStep next_tick init liquidity d_t0 d_t1])).

Definition swap_continues (limit : Z) (s : SwapState) : bool :=
  negb (st_remaining s =? 0) && negb (st_sqrt_price s =? limit).

(** [None] when the fuel runs out. *)
Fixpoint swap_loop (fuel : nat) (direction : Direction) (fee limit : Z) (exact_input : bool)
    (s : SwapState) : option (M SwapState) :=
  if swap_continues limit s then
    match fuel with
    | O => None
    | S fuel =>
        match swap_step direction fee limit exact_input s with
        | Ok s => swap_loop fuel direction fee limit exact_input s
        | Err e => Some (Err e)
        | Panic => Some Panic
        end
    end
  else Some (Ok s).

(** Every continuing iteration crosses a tick, and ticks range over
    [-887272 .. 887272]. *)
Definition MAX_TICK : Z := 887272.
Definition swap_fuel : nat := Z.to_nat (2 * MAX_TICK + 3).

Definition step_totals (steps : list PoolSwapStep) : M (Z * Z) :=
  M_fold (fun acc x => let* t0 := u128_add acc.1 (ss_d_t0 x) in
                       let* t1 := u128_add acc.2 (ss_d_t1 x) in Ok (t0, t1)) (0, 0) steps.

Definition swap_init (s : PoolSwap) : SwapState :=
  mkSwapState (sw_liquidity s) (sw_target_amount s) (lp_current_sqrt_price (sw_liquidity s)) [].

Definition swap (s : PoolSwap) : M PoolSwapResult :=
  let range_start := lp_current_sqrt_price (sw_liquidity s) in
  let range_start_tick := lp_current_tick (sw_liquidity s) in
  let exact_input := 0 <? sw_target_amount s in
  match swap_loop swap_fuel (sw_direction s) (sw_fee s) (price_limit s) exact_input (swap_init s) with
  | None => Panic
  | Some r =>
      let* st := r in
      let* liq := set_sqrt_price (st_liquidity st) (st_sqrt_price st) in
      let* (t0, t1) := step_totals (st_steps st) in
      Ok (mkPoolSwapResult (sw_fee s) range_start range_start_tick (lp_current_sqrt_price liq)
            (lp_current_tick liq) t0 t1 (st_steps st) liq)
  end.

(** [PoolSwapResult::swap_to_amount] and [swap_to_price]. *)
Definition swap_to_amount (r : PoolSwapResult) (amount : Z) (direction : Direction) :
    M PoolSwapResult :=
  swap (mkPoolSwap (sr_end_liquidity r) None amount direction 0).

Definition swap_to_price (r : PoolSwapResult) (direction : Direction) (price_limit : Z) :
    M PoolSwapResult :=
  let* price_swap :=
    swap (mkPoolSwap (sr_end_liquidity r) (Some price_limit) (i_max 256) direction 0) in
  let amount_in := if dir_is_ask direction then sr_total_d_t0 price_swap
                   else sr_total_d_t1 price_swap in
  swap_to_amount r amount_in direction.

(** [zero_for_one], [t0_signed], [t1_signed], [input], [output]. *)
Definition zero_for_one (r : PoolSwapResult) : bool := sr_end_price r <? sr_start_price r.
Definition t0_signed (r : PoolSwapResult) : Z :=
  if zero_for_one r then - sr_total_d_t0 r else sr_total_d_t0 r.
Definition t1_signed (r : PoolSwapResult) : Z :=
  if zero_for_one r then sr_total_d_t1 r else - sr_total_d_t1 r.
Definition input (r : PoolSwapResult) : Z :=
  if zero_for_one r then sr_total_d_t0 r else sr_total_d_t1 r.
Definition output (r : PoolSwapResult) : Z :=
  if zero_for_one r then sr_total_d_t1 r else sr_total_d_t0 r.

Definition step_empty (s : PoolSwapStep) : bool := (ss_d_t0 s =? 0) || (ss_d_t1 s =? 0).
Definition step_avg_price (s : PoolSwapStep) : M (option Z) :=
  if step_empty s then Ok None
  else let* p := Ray.calc_price (ss_d_t0 s) (ss_d_t1 s) in Ok (Some p).
Definition interval_avg_price (t : TickInterval) : M Z := Ray.calc_price (ti_d_t0 t) (ti_d_t1 t).

End Swap.

(** ** Rewards for the ranges crossed (pool_swap.rs)

    [reduce_ranges] joins the steps up to each initialized tick; the closure
    given to [batching] is the recursion below, with the range under
    construction in [pend] and the last boundary in [last]. *)

Section Ranges.
Context {P : Profile}.

Definition emit (direction : bool) (last : option Z) (acc : PoolSwapStep) : TickInterval :=
  let final_tick := if ss_init acc then Some (ss_end_tick acc) else None in
  let (lower, upper) := if negb direction then (last, final_tick) else (final_tick, last) in
  mkTickInterval lower upper (ss_liquidity acc) (ss_d_t0 acc) (ss_d_t1 acc).

(** Panics on the assertion that both steps have the same liquidity. *)
Definition absorb (acc v : PoolSwapStep) : M PoolSwapStep :=
  if ss_liquidity acc =? ss_liquidity v then
    let* t0 := u128_add (ss_d_t0 acc) (ss_d_t0 v) in
    let* t1 := u128_add (ss_d_t1 acc) (ss_d_t1 v) in
    Ok (mkPoolSwapStep (ss_end_tick v) (ss_init v) (ss_liquidity acc) t0 t1)
  else Panic.

Fixpoint reduce_go (direction : bool) (last : option Z) (pend : option PoolSwapStep)
    (steps : list PoolSwapStep) : M (list TickInterval) :=
  match steps with
  | [] => Ok (match pend with Some a => [emit direction last a] | None => [] end)
  | v :: steps =>
      let* a := match pend with Some a => absorb a v | None => Ok v end in
      if ss_init a then
        let* rest := reduce_go direction (Some (ss_end_tick a)) None steps in
        Ok (emit direction last a :: rest)
      else reduce_go direction last (Some a) steps
  end.

Definition reduce_ranges (r : PoolSwapResult) (direction : bool) : M (list TickInterval) :=
  reduce_go direction None None (sr_steps r).

(** The first loop of [t0_donation_vec]: grow a blob of ranges that share one
    average price for as long as the donation lasts. *)
Fixpoint blob_loop (direction : bool) (remaining : Z) (blob : option (Z * Z))
    (ranges : list TickInterval) : M (Z * option (Z * Z)) :=
  match ranges with
  | [] => Ok (remaining, blob)
  | r :: ranges =>
      match blob with
      | None => blob_loop direction remaining (Some (ti_d_t0 r, ti_d_t1 r)) ranges
      | Some (c_t0, c_t1) =>
          let* target_price := interval_avg_price r in
          let* target_t0 := Ray.inverse_quantity target_price c_t1 direction in
          let step_cost := Z.abs (c_t0 - target_t0) in
          let step_complete := step_cost <=? remaining in
          let increment := Z.min remaining step_cost in
          let* c_t0 := if direction then u128_add c_t0 increment
                       else Ok (saturating_sub c_t0 increment) in
          let remaining := remaining - increment in
          if step_complete then
            let* c_t0 := u128_add c_t0 (ti_d_t0 r) in
            let* c_t1 := u128_add c_t1 (ti_d_t1 r) in
            blob_loop direction remaining (Some (c_t0, c_t1)) ranges
          else Ok (remaining, Some (c_t0, c_t1))
      end
  end.

(** What is left over goes to the blob. *)
Definition finish_blob (direction : bool) (remaining : Z) (blob : option (Z * Z)) :
    M (option (Z * Z)) :=
  match blob with
  | None => Ok None
  | Some (c_t0, c_t1) =>
      if direction then let* c := u128_add c_t0 remaining in Ok (Some (c, c_t1))
      else
        let c := saturating_sub c_t0 remaining in
        let c := if c =? 0 then c + 1 else c in
        Ok (Some (c, c_t1))
  end.

Definition range_donation (direction : bool) (filled_price : option Z) (remaining : Z)
    (r : TickInterval) : M Z :=
  match filled_price with
  | Some f =>
      let* target_t0 := Ray.inverse_quantity f (ti_d_t1 r) direction in
      Ok (if direction then Z.min remaining (saturating_sub target_t0 (ti_d_t0 r))
          else Z.min remaining (saturating_sub (ti_d_t0 r) target_t0))
  | None => Ok 0
  end.

(** The final pass; the last range is the current one. *)
Fixpoint donate_ranges (direction : bool) (filled_price : option Z) (end_tick remaining : Z)
    (ranges : list TickInterval) : M (list DonationType) :=
  match ranges with
  | [] => Ok []
  | r :: ranges =>
      let* d := range_donation direction filled_price remaining r in
      let* x :=
        match ranges with
        | [] => Ok (Current end_tick d (ti_liquidity r))
        | _ => if direction then let* t := unwrap (ti_lower_tick r) in Ok (Above t d (ti_liquidity r))
               else let* t := unwrap (ti_upper_tick r) in Ok (Below t d (ti_liquidity r))
        end in
      let* rest := donate_ranges direction filled_price end_tick (remaining - d) ranges in
      Ok (x :: rest)
  end.

Definition t0_donation_vec (r : PoolSwapResult) (total_donation : Z) : M (list DonationType) :=
  match sr_steps r with
  | [] => Ok []
  | _ =>
      let direction := sr_end_price r <=? sr_start_price r in
      let* ranges := reduce_ranges r direction in
      let* (remaining, blob) := blob_loop direction total_donation None ranges in
      let* blob := finish_blob direction remaining blob in
      let* filled_price :=
        match blob with
        | Some (t0, t1) =>
            let* p := Ray.calc_price_generic t0 t1 (negb direction) in Ok (Some p)
        | None => Ok None
        end in
      donate_ranges direction filled_price (sr_end_tick r) total_donation ranges
  end.

End Ranges.

(** ** Pool state (uni_structure/mod.rs) *)

Record BaselinePoolState := mkBaselinePoolState {
  bp_liquidity : BaselineLiquidity;
  bp_fee : Z;
}.

Module Baseline.
Section Baseline.
Context {P : Profile} {U : UniswapMath}.

Definition current_tick (b : BaselinePoolState) : Z := bl_start_tick (bp_liquidity b).
Definition current_liquidity (b : BaselinePoolState) : Z := bl_start_liquidity (bp_liquidity b).
Definition current_price (b : BaselinePoolState) : Z := bl_start_sqrt_price (bp_liquidity b).

Definition noop (b : BaselinePoolState) : PoolSwapResult :=
  mkPoolSwapResult (bp_fee b) (current_price b) (current_tick b) (current_price b) (current_tick b)
    0 0 [] (current (bp_liquidity b)).

Definition swap_current_with_amount (b : BaselinePoolState) (amount : Z) (direction : Direction) :
    M PoolSwapResult :=
  swap (mkPoolSwap (current (bp_liquidity b)) None amount direction 0).

Definition swap_current_to_price (b : BaselinePoolState) (direction : Direction) (limit : Z) :
    M PoolSwapResult :=
  let* price_swap :=
    swap (mkPoolSwap (current (bp_liquidity b)) (Some limit) (i_max 256) direction 0) in
  let amount_in := if dir_is_ask direction then sr_total_d_t0 price_swap
                   else sr_total_d_t1 price_swap in
  swap_current_with_amount b amount_in direction.

Definition swap_from_price_to (b : BaselinePoolState) (start_price amount : Z)
    (direction : Direction) (limit : option Z) : M PoolSwapResult :=
  let* liq := at_sqrt_price (bp_liquidity b) start_price in
  swap (mkPoolSwap liq limit amount direction 0).

(** [&pool + quantity] and [&pool - quantity]. *)
Definition pool_add (b : BaselinePoolState) (q : Quantity) : M PoolSwapResult :=
  swap_current_with_amount b (magnitude q) (as_input q).

Definition pool_sub (b : BaselinePoolState) (q : Quantity) : M PoolSwapResult :=
  swap_current_with_amount b (i256_saturating_neg (magnitude q)) (as_output q).

End Baseline.
End Baseline.

(** ** What the tick and price arithmetic promises

    The documented behaviour of [uniswap_v3_math] that the walk relies on: the
    next tick lies on the side searched, ratios exist for ticks in range and
    grow with the tick, and one swap step moves the price towards its target,
    never takes or pays more than is left, and uses up what is left when it
    stops short of the target. *)
Class SwapLaws (U : UniswapMath) := {
  next_tick_below : forall bm t sp n i,
    next_initialized_tick_within_one_word bm t sp true = Ok (n, i) -> n <= t;
  next_tick_above : forall bm t sp n i,
    next_initialized_tick_within_one_word bm t sp false = Ok (n, i) -> t < n;
  ratio_tick_range : forall t r, get_sqrt_ratio_at_tick t = Ok r -> - MAX_TICK <= t <= MAX_TICK;
  ratio_mono : forall t t' r r', t <= t' -> get_sqrt_ratio_at_tick t = Ok r ->
    get_sqrt_ratio_at_tick t' = Ok r' -> r <= r';
  step_between : forall cur tgt liq amt fee p i o f,
    compute_swap_step cur tgt liq amt fee = Ok (p, i, o, f) -> Z.min cur tgt <= p <= Z.max cur tgt;
  step_nonneg : forall cur tgt liq amt fee p i o f,
    compute_swap_step cur tgt liq amt fee = Ok (p, i, o, f) -> 0 <= i /\ 0 <= o /\ 0 <= f;
  step_exact_in : forall cur tgt liq amt fee p i o f,
    compute_swap_step cur tgt liq amt fee = Ok (p, i, o, f) -> 0 < amt ->
    i + f <= amt /\ (p <> tgt -> i + f = amt);
  step_exact_out : forall cur tgt liq amt fee p i o f,
    compute_swap_step cur tgt liq amt fee = Ok (p, i, o, f) -> amt < 0 ->
    o <= - amt /\ (p <> tgt -> o = - amt);
}.

#[global] Arguments swap_fuel : simpl never.
#[global] Opaque swap_fuel.

Section SwapLemmas.
Context {P : Profile} {U : UniswapMath} {L : SwapLaws U}.

(** The amount left keeps its sign. *)
Definition signed_left (exact_input : bool) (x : Z) : Prop :=
  if exact_input then 0 <= x <= i_max 256 else i_min 256 <= x <= 0.

Lemma i256_saturate_id x : i_min 256 <= x <= i_max 256 -> i256_saturate x = x.
Proof. unfold i256_saturate. lia. Qed.

Lemma from_raw_id x : 0 <= x <= i_max 256 -> from_raw x = x.
Proof.
  intros H. apply wrap_i_id; [lia |].
  split; [| lia]. transitivity 0; [by vm_compute | lia].
Qed.

(** The token a step consumes. *)
Definition step_in (ask : bool) (s : PoolSwapStep) : Z := if ask then ss_d_t0 s else ss_d_t1 s.

Definition step_nonnegative (s : PoolSwapStep) : Prop := 0 <= step_in true s /\ 0 <= step_in false s.

(** One iteration, unfolded. *)
Lemma swap_step_spec d fee limit ei s s' :
  signed_left ei (st_remaining s) -> st_remaining s <> 0 ->
  swap_step d fee limit ei s = Ok s' ->
  exists n i r p a_in a_out f liq' tgt,
    next_initialized_tick_within_one_word (lp_tick_bitmap (st_liquidity s))
      (lp_current_tick (st_liquidity s)) (lp_tick_spacing (st_liquidity s)) (dir_is_ask d)
      = Ok (n, i) /\
    get_sqrt_ratio_at_tick n = Ok r /\
    tgt = (if dir_is_ask d then Z.max r limit else Z.min r limit) /\
    compute_swap_step (st_sqrt_price s) tgt (lp_current_liquidity (st_liquidity s))
      (st_remaining s) fee = Ok (p, a_in, a_out, f) /\
    move_to_next_tick (st_liquidity s) p (dir_is_ask d) (p =? r) (negb (p =? st_sqrt_price s))
      = Ok liq' /\
    s' = mkSwapState liq'
           (if ei then st_remaining s - (a_in + f) else st_remaining s + a_out) p
           (st_steps s ++ [mkPoolSwapStep n i (lp_current_liquidity (st_liquidity s))
              (sort_tokens d a_in a_out).1 (sort_tokens d a_in a_out).2]) /\
    signed_left ei (st_remaining s') /\ 0 <= a_in /\ 0 <= a_out.
Proof.
  intros Hsg Hne H. unfold swap_step, get_to_next_initialized_tick_within_one_word in H.
  destruct (next_initialized_tick_within_one_word _ _ _ _) as [[n i] | |] eqn:En;
    cbn [M_bind] in H; try done.
  destruct (get_sqrt_ratio_at_tick n) as [r | |] eqn:Er; cbn [M_bind] in H; try done.
  set (tgt := if (dir_is_ask d && (r <? limit)) || (negb (dir_is_ask d) && (limit <? r))
              then limit else r) in H.
  assert (tgt = if dir_is_ask d then Z.max r limit else Z.min r limit) as Ht.
  { unfold tgt. destruct (dir_is_ask d); simpl; rewrite ?orb_false_r;
      [destruct (Z.ltb_spec r limit) | destruct (Z.ltb_spec limit r)]; lia. }
  destruct (compute_swap_step _ _ _ _ _) as [[[[p a_in] a_out] f] | |] eqn:Ec;
    cbn [M_bind] in H; try done.
  destruct (step_nonneg _ _ _ _ _ _ _ _ _ Ec) as (Hi0 & Ho0 & Hf0).
  destruct (uint_from 128 a_in) as [x | |] eqn:Ei; cbn [M_bind] in H; try done.
  destruct (uint_from 128 a_out) as [y | |] eqn:Eo; cbn [M_bind] in H; try done.
  apply uint_from_Ok in Ei as [-> Hi]. apply uint_from_Ok in Eo as [-> Ho].
  destruct (sort_tokens d a_in a_out) as [d0 d1] eqn:Es.
  apply M_bind_Ok in H as (liq' & Hm & H). injection H as <-.
  assert ((if ei then i256_saturate (i256_saturate (st_remaining s - from_raw a_in) - from_raw f)
           else i256_saturate (st_remaining s + from_raw a_out)) =
          (if ei then st_remaining s - (a_in + f) else st_remaining s + a_out) /\
          signed_left ei (if ei then st_remaining s - (a_in + f) else st_remaining s + a_out))
    as [-> Hsg'].
  { assert (i_min 256 <= 0) by (by vm_compute). assert (i_max 256 = - i_min 256 - 1) by done.
    destruct ei; unfold signed_left in *; cbn iota in *.
    - destruct (step_exact_in _ _ _ _ _ _ _ _ _ Ec) as [Hle _]; [lia |].
      rewrite !from_raw_id by lia. rewrite (i256_saturate_id (_ - a_in)) by lia.
      rewrite i256_saturate_id by lia. lia.
    - destruct (step_exact_out _ _ _ _ _ _ _ _ _ Ec) as [Hle _]; [lia |].
      assert (u_max 128 <= i_max 256) by (by vm_compute).
      rewrite from_raw_id by lia. rewrite i256_saturate_id by lia. lia. }
  exists n, i, r, p, a_in, a_out, f, liq', tgt. rewrite Ht in Ec |- *.
  rewrite Es. repeat split; try done; lia.
Qed.

(** An iteration that does not end the loop crosses a tick. *)
Lemma swap_step_crosses d fee limit ei s s' :
  signed_left ei (st_remaining s) -> st_remaining s <> 0 ->
  swap_step d fee limit ei s = Ok s' -> swap_continues limit s' = true ->
  exists n r, get_sqrt_ratio_at_tick n = Ok r /\ st_sqrt_price s' = r /\
    (if dir_is_ask d then n <= lp_current_tick (st_liquidity s) /\
                          lp_current_tick (st_liquidity s') = n - 1
     else lp_current_tick (st_liquidity s) < n /\ lp_current_tick (st_liquidity s') = n).
Proof.
  intros Hsg Hne H Hc.
  destruct (swap_step_spec _ _ _ _ _ _ Hsg Hne H) as
    (n & i & r & p & a_in & a_out & f & liq' & tgt & En & Er & Ht & Ec & Hm & -> & _ & _).
  unfold swap_continues in Hc. simpl in *.
  apply andb_true_iff in Hc as [Hr%negb_true_iff%Z.eqb_neq Hl%negb_true_iff%Z.eqb_neq].
  assert (p = tgt) as Ep.
  { destruct (decide (p = tgt)) as [| Hpt]; [done |]. exfalso. apply Hr.
    destruct ei; unfold signed_left in *; cbn iota in *.
    - destruct (step_exact_in _ _ _ _ _ _ _ _ _ Ec) as [_ He]; [lia |]. specialize (He Hpt). lia.
    - destruct (step_exact_out _ _ _ _ _ _ _ _ _ Ec) as [_ He]; [lia |]. specialize (He Hpt). lia. }
  assert (p = r) as Epr by (destruct (dir_is_ask d); lia).
  exists n, r. split; [done |]. split; [done |].
  pose proof (ratio_tick_range _ _ Er) as Hrange. unfold MAX_TICK in Hrange.
  unfold move_to_next_tick in Hm. rewrite En in Hm. cbn [M_bind] in Hm.
  rewrite (proj2 (Z.eqb_eq p r) Epr) in Hm. apply M_bind_Ok in Hm as (lq & _ & Hm).
  destruct (dir_is_ask d) eqn:Ed.
  - pose proof (next_tick_below _ _ _ _ _ En).
    assert (i_min 32 = -2147483648) by done. assert (i_max 32 = 2147483647) by done.
    rewrite checked_i_Ok in Hm by lia.
    cbn [M_bind] in Hm. injection Hm as <-. simpl. lia.
  - pose proof (next_tick_above _ _ _ _ _ En). injection Hm as <-. simpl. lia.
Qed.

(** Iterations left before the tick range is exhausted. *)
Definition ticks_left (ask : bool) (t : Z) : Z :=
  if ask then t + MAX_TICK + 2 else MAX_TICK - t + 1.

Lemma swap_loop_fuel d fee limit ei n s :
  signed_left ei (st_remaining s) ->
  0 < ticks_left (dir_is_ask d) (lp_current_tick (st_liquidity s)) <= Z.of_nat n ->
  swap_loop n d fee limit ei s <> None.
Proof.
  revert s. induction n as [| n IH]; intros s Hsg Hn; [lia |]. cbn [swap_loop].
  destruct (swap_continues limit s) eqn:Hc; [| done].
  assert (st_remaining s <> 0) as Hne.
  { unfold swap_continues in Hc. apply andb_true_iff in Hc as [Hr _].
    by apply negb_true_iff, Z.eqb_neq in Hr. }
  destruct (swap_step d fee limit ei s) as [s' | |] eqn:Hs; [| done | done].
  destruct (swap_step_spec _ _ _ _ _ _ Hsg Hne Hs) as
    (_ & _ & _ & _ & _ & _ & _ & _ & _ & _ & _ & _ & _ & _ & _ & Hsg' & _).
  destruct (swap_continues limit s') eqn:Hc'.
  - destruct (swap_step_crosses _ _ _ _ _ _ Hsg Hne Hs Hc') as (k & r & Er & _ & Ht).
    pose proof (ratio_tick_range _ _ Er). apply IH; [done |].
    unfold ticks_left in *. destruct (dir_is_ask d); lia.
  - destruct n; simpl; rewrite Hc'; done.
Qed.

(** Where the current price lies relative to the ticks still ahead. *)
Definition price_ahead (ask : bool) (s : SwapState) : Prop :=
  forall t r, get_sqrt_ratio_at_tick t = Ok r ->
    if ask then t <= lp_current_tick (st_liquidity s) -> r <= st_sqrt_price s
    else lp_current_tick (st_liquidity s) < t -> st_sqrt_price s <= r.

Definition price_between (ask : bool) (limit start p : Z) : Prop :=
  if ask then limit <= p <= start else start <= p <= limit.

Lemma swap_loop_sound d fee limit ei n s st start :
  signed_left ei (st_remaining s) -> price_ahead (dir_is_ask d) s ->
  price_between (dir_is_ask d) limit start (st_sqrt_price s) ->
  swap_loop n d fee limit ei s = Some (Ok st) ->
  price_between (dir_is_ask d) limit start (st_sqrt_price st) /\
  signed_left ei (st_remaining st) /\
  (st_remaining st = 0 \/ st_sqrt_price st = limit) /\
  (ei = true -> sumZ (map (step_in (dir_is_ask d)) (st_steps st)) + st_remaining st <=
                sumZ (map (step_in (dir_is_ask d)) (st_steps s)) + st_remaining s) /\
  (Forall step_nonnegative (st_steps s) -> Forall step_nonnegative (st_steps st)).
Proof.
  revert s. induction n as [| n IH]; intros s Hsg Ha Hb H; cbn [swap_loop] in H;
    (destruct (swap_continues limit s) eqn:Hc;
     [| injection H as <-; unfold swap_continues in Hc;
        split; [done |]; split; [done |]; split; [| split; [lia | done]];
        apply andb_false_iff in Hc as [Hc | Hc]; apply negb_false_iff, Z.eqb_eq in Hc; lia]);
    [done |].
  assert (st_remaining s <> 0) as Hne.
  { unfold swap_continues in Hc. apply andb_true_iff in Hc as [Hr _].
    by apply negb_true_iff, Z.eqb_neq in Hr. }
  destruct (swap_step d fee limit ei s) as [s' | |] eqn:Hs; [| done | done].
  destruct (swap_step_spec _ _ _ _ _ _ Hsg Hne Hs) as
    (k & i & r & p & a_in & a_out & f & liq' & tgt & En & Er & Ht & Ec & Hm & E & Hsg' & Hi0 & Ho0).
  assert (step_in (dir_is_ask d)
            (mkPoolSwapStep k i (lp_current_liquidity (st_liquidity s))
               (sort_tokens d a_in a_out).1 (sort_tokens d a_in a_out).2) = a_in) as Hin
    by (by destruct d).
  destruct (step_nonneg _ _ _ _ _ _ _ _ _ Ec) as (_ & _ & Hf0).
  assert (price_between (dir_is_ask d) limit start p) as Hbp.
  { pose proof (step_between _ _ _ _ _ _ _ _ _ Ec) as Hbt. specialize (Ha k r Er).
    unfold price_between in *. destruct (dir_is_ask d).
    - pose proof (next_tick_below _ _ _ _ _ En). lia.
    - pose proof (next_tick_above _ _ _ _ _ En). lia. }
  assert (ei = true -> sumZ (map (step_in (dir_is_ask d)) (st_steps s')) + st_remaining s' <=
                sumZ (map (step_in (dir_is_ask d)) (st_steps s)) + st_remaining s) as Hsum.
  { intros ->. rewrite E. cbn [st_steps st_remaining]. rewrite map_app, sumZ_app.
    cbn [map]. rewrite Hin. simpl. lia. }
  assert (Forall step_nonnegative (st_steps s) -> Forall step_nonnegative (st_steps s')) as Hall.
  { intros Hf. rewrite E. cbn [st_steps]. apply Forall_app. split; [done |].
    constructor; [by destruct d | constructor]. }
  destruct (swap_continues limit s') eqn:Hc'.
  - destruct (swap_step_crosses _ _ _ _ _ _ Hsg Hne Hs Hc') as (k' & r' & Er' & Ep' & Htk).
    destruct (IH s') as (H1 & H2 & H3 & H4 & H5); [done | | by rewrite E | done |].
    + intros t rt Ert. destruct (dir_is_ask d); intros Hle; rewrite Ep'.
      * apply (ratio_mono t k' rt r'); [lia | done | done].
      * apply (ratio_mono k' t r' rt); [lia | done | done].
    + split; [done |]. split; [done |]. split; [done |].
      split; [intros He; specialize (H4 He); specialize (Hsum He); lia | auto].
  - destruct n; cbn [swap_loop] in H; rewrite Hc' in H; injection H as <-;
      (split; [by rewrite E |]; split; [done |]; split; [| done];
       unfold swap_continues in Hc'; apply andb_false_iff in Hc' as [Hc' | Hc'];
       apply negb_false_iff, Z.eqb_eq in Hc'; auto).
Qed.

Lemma step_totals_spec l a :
  Forall step_nonnegative l ->
  forall (ask : bool) t0 t1, M_fold (fun (acc : Z * Z) x => let* t0 := u128_add acc.1 (ss_d_t0 x) in
                       let* t1 := u128_add acc.2 (ss_d_t1 x) in Ok (t0, t1)) a l = Ok (t0, t1) ->
  0 <= (if ask then a.1 else a.2) ->
  (if ask then a.1 else a.2) + sumZ (map (step_in ask) l) <= u_max 128 ->
  (if ask then t0 else t1) = (if ask then a.1 else a.2) + sumZ (map (step_in ask) l).
Proof.
  revert a. induction l as [| x l IH]; intros a Hall ask t0 t1 H H0 Hmax; simpl in H.
  - injection H as ->. simpl. destruct ask; simpl; lia.
  - apply Forall_cons in Hall as [[Hx0 Hx1] Hall]. m_inv.
    assert (0 <= sumZ (map (step_in ask) l)) as Hnn.
    { apply sumZ_nonneg, Forall_map. eapply Forall_impl; [exact Hall |].
      intros y [? ?]. by destruct ask. }
    simpl in Hmax. destruct ask; simpl in *.
    + unfold u128_add in H at 1. rewrite checked_u_Ok in H by lia. injection H as <-.
      rewrite (IH (_, x2) Hall true t0 t1 H1) by (simpl; lia). simpl. lia.
    + unfold u128_add in H2 at 1. rewrite checked_u_Ok in H2 by lia. injection H2 as <-.
      rewrite (IH (x1, _) Hall false t0 t1 H1) by (simpl; lia). simpl. lia.
Qed.

End SwapLemmas.

(** ** Lemmas on the ranges of a swap *)

Section RangeLemmas.
Context {P : Profile}.

Lemma absorb_Ok a v x :
  step_nonnegative a -> step_nonnegative v ->
  ss_d_t0 a + ss_d_t0 v <= u_max 128 -> ss_d_t1 a + ss_d_t1 v <= u_max 128 ->
  absorb a v = Ok x ->
  ss_d_t0 x = ss_d_t0 a + ss_d_t0 v /\ ss_d_t1 x = ss_d_t1 a + ss_d_t1 v /\ ss_init x = ss_init v.
Proof.
  intros [Ha0 Ha1] [Hv0 Hv1] H0 H1. simpl in *. unfold absorb, u128_add. case_match; [| done].
  rewrite !checked_u_Ok by lia. cbn [M_bind]. by intros [= <-].
Qed.

Definition pend_sum (f : PoolSwapStep -> Z) (pend : option PoolSwapStep) : Z :=
  match pend with Some a => f a | None => 0 end.

(** The range boundary of every interval but the last is a tick. *)
Definition interior_bound (direction : bool) (t : TickInterval) : Prop :=
  is_Some (if direction then ti_lower_tick t else ti_upper_tick t).

Lemma reduce_go_spec direction last pend steps l :
  (forall a, pend = Some a -> step_nonnegative a) -> Forall step_nonnegative steps ->
  pend_sum ss_d_t0 pend + sumZ (map ss_d_t0 steps) <= u_max 128 ->
  pend_sum ss_d_t1 pend + sumZ (map ss_d_t1 steps) <= u_max 128 ->
  reduce_go direction last pend steps = Ok l ->
  sumZ (map ti_d_t0 l) = pend_sum ss_d_t0 pend + sumZ (map ss_d_t0 steps) /\
  sumZ (map ti_d_t1 l) = pend_sum ss_d_t1 pend + sumZ (map ss_d_t1 steps) /\
  Forall (fun t => 0 <= ti_d_t0 t /\ 0 <= ti_d_t1 t) l /\
  (is_Some pend \/ steps <> [] -> l <> []) /\
  (forall k t, l = k ++ [t] -> Forall (interior_bound direction) k).
Proof.
  revert last pend l. induction steps as [| v steps IH]; intros last pend l Hp Hs H0 H1 H; simpl in H.
  - injection H as <-. destruct pend as [a |]; simpl.
    + specialize (Hp a eq_refl) as [Hp0 Hp1]. unfold emit. simpl in *.
      split; [destruct direction; simpl; lia |]. split; [destruct direction; simpl; lia |].
      split; [by constructor; [destruct direction | constructor] |]. split; [done |].
      intros k t Hk. destruct k as [| ? [|]]; [constructor | done | done].
    + split; [done |]. split; [done |]. split; [constructor |]. split; [intros [[] |]; done |].
      by intros [] ?.
  - apply Forall_cons in Hs as [[Hv0 Hv1] Hs]. apply M_bind_Ok in H as (a & Ha & H).
    assert (0 <= sumZ (map ss_d_t0 steps) /\ 0 <= sumZ (map ss_d_t1 steps)) as [Hn0 Hn1].
    { split; apply sumZ_nonneg, Forall_map; (eapply Forall_impl; [exact Hs |]); by intros ? []. }
    simpl in H0, H1, Hv0, Hv1.
    assert (ss_d_t0 a = pend_sum ss_d_t0 pend + ss_d_t0 v /\
            ss_d_t1 a = pend_sum ss_d_t1 pend + ss_d_t1 v /\ step_nonnegative a) as (E0 & E1 & Hnn).
    { destruct pend as [b |]; simpl in *.
      - destruct (Hp b eq_refl) as [Hb0 Hb1]. simpl in *.
        destruct (absorb_Ok b v a) as (-> & -> & _); try done; try lia.
        split; [lia |]. split; [lia |].
        destruct (absorb_Ok b v a) as (X & Y & _); try done; try lia.
        split; simpl; lia.
      - injection Ha as <-. repeat split; simpl; lia. }
    simpl map. simpl sumZ. pose proof Hnn as [Hnn0 Hnn1]. simpl in Hnn0, Hnn1.
    destruct (ss_init a) eqn:Ei.
    + apply M_bind_Ok in H as (rest & Hr & H). injection H as <-.
      destruct (IH (Some (ss_end_tick a)) None rest) as (S0 & S1 & Hall & Hne & Hint);
        [done | done | simpl; lia | simpl; lia | done |].
      simpl in *. unfold emit. rewrite Ei.
      split; [destruct direction; simpl; lia |]. split; [destruct direction; simpl; lia |].
      split; [constructor; [destruct direction; simpl; lia | done] |]. split; [done |].
      intros k t Hk. destruct k as [| y k]; [constructor |]. injection Hk as <- Hk.
      constructor; [by destruct direction; eexists | by eapply Hint].
    + destruct (IH last (Some a) l) as (S0 & S1 & Hall & Hne & Hint);
        [by intros ? [= <-] | done | simpl; lia | simpl; lia | done |].
      simpl in *. split; [lia |]. split; [lia |]. split; [done |]. split; [| done].
      intros _. apply Hne. left. by eexists.
Qed.

Lemma range_donation_bounds direction f rem r d :
  0 <= rem -> range_donation direction f rem r = Ok d -> 0 <= d <= rem.
Proof.
  intros Hr. unfold range_donation, saturating_sub. destruct f as [p |]; [| intros [= <-]; lia].
  intros H. m_inv. destruct direction; lia.
Qed.

Lemma donate_ranges_spec direction f e rem ranges l :
  0 <= rem -> donate_ranges direction f e rem ranges = Ok l ->
  donated l <= rem /\ Forall (fun d => 0 <= donation d) l /\ length l = length ranges /\
  (ranges <> [] -> ends_current l).
Proof.
  revert rem l. induction ranges as [| r ranges IH]; intros rem l Hr H; cbn [donate_ranges] in H.
  - injection H as <-. split; [done |]. split; [constructor |]. done.
  - apply M_bind_Ok in H as (d & Hd & H). apply M_bind_Ok in H as (x & Hx & H).
    apply M_bind_Ok in H as (rest & Hrest & H). injection H as <-.
    pose proof (range_donation_bounds _ _ _ _ _ Hr Hd) as Hdb.
    assert (donation x = d) as Ex.
    { destruct ranges; [by injection Hx as <- |]. destruct direction; m_inv; done. }
    destruct (IH (rem - d) rest ltac:(lia) Hrest) as (H1 & H2 & H3 & H4).
    unfold donated in *. simpl. rewrite Ex. split; [lia |].
    split; [constructor; [lia | done] |]. split; [by rewrite H3 |]. intros _.
    destruct ranges as [| r' ranges].
    + injection Hx as <-. injection Hrest as <-. by exists [], e, d, (ti_liquidity r).
    + destruct (H4 ltac:(done)) as (k & t & q & lq & ->). by exists (x :: k), t, q, lq.
Qed.

End RangeLemmas.

(** The start of a swap is consistent: its tick is in range and the price does
    not lie beyond the ticks ahead. *)
Definition swap_ready `{UniswapMath} (s : PoolSwap) : Prop :=
  - MAX_TICK - 1 <= lp_current_tick (sw_liquidity s) <= MAX_TICK /\
  i_min 256 <= sw_target_amount s <= i_max 256 /\
  price_ahead (dir_is_ask (sw_direction s)) (swap_init s).

Section SwapSpec.
Context {P : Profile} {U : UniswapMath} {L : SwapLaws U}.

Lemma swap_spec s r :
  swap_ready s ->
  price_between (dir_is_ask (sw_direction s)) (price_limit s)
    (lp_current_sqrt_price (sw_liquidity s)) (lp_current_sqrt_price (sw_liquidity s)) ->
  swap s = Ok r ->
  price_between (dir_is_ask (sw_direction s)) (price_limit s)
    (lp_current_sqrt_price (sw_liquidity s)) (sr_end_price r) /\
  (0 <= sw_target_amount s <= u_max 128 ->
   0 <= (if dir_is_ask (sw_direction s) then sr_total_d_t0 r else sr_total_d_t1 r)
     <= sw_target_amount s).
Proof.
  intros (Ht & Ha & Hp) Hb H. unfold swap in H.
  destruct (swap_loop _ _ _ _ _ _) as [m |] eqn:El; [| done].
  apply M_bind_Ok in H as (st & -> & H). apply M_bind_Ok in H as (liq & Hl & H).
  apply M_bind_Ok in H as ([t0 t1] & Htot & H). injection H as <-.
  assert (signed_left (0 <? sw_target_amount s) (st_remaining (swap_init s))) as Hsg.
  { unfold signed_left. simpl. destruct (Z.ltb_spec 0 (sw_target_amount s)); lia. }
  destruct (swap_loop_sound _ _ _ _ _ _ _ _ Hsg Hp Hb El) as (H1 & H2 & _ & H4 & H5).
  specialize (H5 ltac:(constructor)).
  unfold set_sqrt_price, SqrtPriceX96.from_u256 in Hl. apply M_bind_Ok in Hl as (p & Hp' & Hl).
  apply uint_from_Ok in Hp' as [-> _]. injection Hl as <-. simpl. split; [done |].
  intros Hamt. destruct (decide (sw_target_amount s = 0)) as [E0 | Hn0].
  { assert (swap_continues (price_limit s) (swap_init s) = false) as Ec
      by (unfold swap_continues; simpl; by rewrite E0).
    destruct swap_fuel; cbn [swap_loop] in El; rewrite Ec in El; injection El as <-;
      cbn in Htot; injection Htot as <- <-; destruct (dir_is_ask _); simpl; lia. }
  rewrite (proj2 (Z.ltb_lt _ _)) in * by lia. specialize (H4 eq_refl).
  unfold signed_left in H2. simpl in H4.
  set (ask := dir_is_ask (sw_direction s)) in *.
  assert (0 <= sumZ (map (step_in ask) (st_steps st))).
  { apply sumZ_nonneg, Forall_map. eapply Forall_impl; [exact H5 |]. intros x [? ?]. by destruct ask. }
  pose proof (step_totals_spec _ (0, 0) H5 ask t0 t1 Htot) as E.
  assert ((if ask then (0, 0).1 else (0, 0).2) = 0) as E0 by (by destruct ask).
  rewrite E0 in E. rewrite E by lia. lia.
Qed.

(** The totals are [u128] values. *)
Lemma step_totals_range l t :
  step_totals l = Ok t -> 0 <= t.1 <= u_max 128 /\ 0 <= t.2 <= u_max 128.
Proof.
  unfold step_totals.
  enough (forall a, 0 <= a.1 <= u_max 128 /\ 0 <= a.2 <= u_max 128 ->
    M_fold (fun acc x => let* t0 := u128_add acc.1 (ss_d_t0 x) in
      let* t1 := u128_add acc.2 (ss_d_t1 x) in Ok (t0, t1)) a l = Ok t ->
    0 <= t.1 <= u_max 128 /\ 0 <= t.2 <= u_max 128) as H
    by (apply H; simpl; split; split; by vm_compute).
  induction l as [| x l IH]; intros a Ha Ef; simpl in Ef; [by injection Ef as <- |].
  apply M_bind_Ok in Ef as (y & Ef & Hr). apply M_bind_Ok in Ef as (u & Hu & Ef).
  apply M_bind_Ok in Ef as (v & Hv & Ef). injection Ef as <-.
  apply (IH (u, v)); [| done]. unfold u128_add in *.
  split; (eapply checked_u_range; [| eassumption]); lia.
Qed.

Lemma swap_totals_range s r :
  swap s = Ok r -> 0 <= sr_total_d_t0 r <= u_max 128 /\ 0 <= sr_total_d_t1 r <= u_max 128.
Proof.
  intros H. unfold swap in H. destruct (swap_loop _ _ _ _ _ _) as [m |]; [| done].
  apply M_bind_Ok in H as (st & -> & H). apply M_bind_Ok in H as (liq & _ & H).
  apply M_bind_Ok in H as ([t0 t1] & Htot & H). injection H as <-.
  exact (step_totals_range _ _ Htot).
Qed.
End SwapSpec.

(** ** Properties *)

(** The swap loop terminates: every iteration that does not finish the swap
    crosses a tick, so the bound on the number of iterations is never reached,
    whatever the liquidity, the bitmap and the amount. *)
Theorem swap_terminates (P : Profile) (U : UniswapMath) (L : SwapLaws U) s :
  swap_ready s ->
  swap_loop swap_fuel (sw_direction s) (sw_fee s) (price_limit s) (0 <? sw_target_amount s)
    (swap_init s) <> None.
Proof.
  intros (Ht & Ha & _). apply swap_loop_fuel.
  - unfold signed_left. simpl. destruct (Z.ltb_spec 0 (sw_target_amount s)); lia.
  - unfold ticks_left. change (swap_fuel) with (Z.to_nat (2 * MAX_TICK + 3)).
    rewrite Z2Nat.id by done. simpl lp_current_tick. destruct (dir_is_ask _); lia.
Qed.

(** C5: A swap moves the price in its direction only and never past its limit:
    the end price lies between the limit and the start price.  An exact-input
    swap takes at most the amount offered of the input token, and the totals it
    reports are the sums of its steps. *)
Theorem swap_sound (P : Profile) (U : UniswapMath) (L : SwapLaws U) s r :
  swap_ready s ->
  price_between (dir_is_ask (sw_direction s)) (price_limit s)
    (lp_current_sqrt_price (sw_liquidity s)) (lp_current_sqrt_price (sw_liquidity s)) ->
  swap s = Ok r ->
  price_between (dir_is_ask (sw_direction s)) (price_limit s)
    (lp_current_sqrt_price (sw_liquidity s)) (sr_end_price r) /\
  (0 < sw_target_amount s <= u_max 128 ->
   0 <= (if dir_is_ask (sw_direction s) then sr_total_d_t0 r else sr_total_d_t1 r)
     <= sw_target_amount s).
Proof. intros Hr Hb H. destruct (swap_spec s r Hr Hb H) as [H1 H2]. split; [done | intros; apply H2; lia]. Qed.

(** The ranges a swap is reduced to partition it: they carry exactly the T0
    and T1 the swap moved, in order, and every range but the last ends at an
    initialized tick, so building the donations never unwraps a missing tick. *)
Theorem ranges_partition (P : Profile) r direction l :
  Forall step_nonnegative (sr_steps r) -> sr_steps r <> [] ->
  sumZ (map ss_d_t0 (sr_steps r)) <= u_max 128 ->
  sumZ (map ss_d_t1 (sr_steps r)) <= u_max 128 ->
  reduce_ranges r direction = Ok l ->
  sumZ (map ti_d_t0 l) = sumZ (map ss_d_t0 (sr_steps r)) /\
  sumZ (map ti_d_t1 l) = sumZ (map ss_d_t1 (sr_steps r)) /\
  exists k t, l = k ++ [t] /\ Forall (interior_bound direction) k.
Proof.
  intros Hnn Hne H0 H1 H.
  destruct (reduce_go_spec direction None None (sr_steps r) l ltac:(done) Hnn
              ltac:(simpl; lia) ltac:(simpl; lia) H) as (E0 & E1 & _ & Hl & Hint).
  simpl in E0, E1. split; [done |]. split; [done |].
  destruct (exists_last (Hl (or_intror Hne))) as (k & t & ->). exists k, t. split; [done |].
  by eapply Hint.
Qed.

(** Rewards are never over-distributed: the donations computed for a swap are
    non-negative, add up to at most the reward available, one per range, and
    end with the donation to the current range, which is the shape the reward
    calculation requires. *)
Theorem donations_bounded (P : Profile) r total v :
  0 <= total -> t0_donation_vec r total = Ok v ->
  donated v <= total /\ Forall (fun d => 0 <= donation d) v /\
  (sr_steps r = [] -> v = []) /\
  (forall ranges, reduce_ranges r (sr_end_price r <=? sr_start_price r) = Ok ranges ->
     sr_steps r <> [] -> length v = length ranges /\ (ranges <> [] -> ends_current v)).
Proof.
  intros Ht H. unfold t0_donation_vec in H. destruct (sr_steps r) as [| x xs] eqn:Es.
  - injection H as <-. split; [done |]. split; [constructor |]. done.
  - apply M_bind_Ok in H as (ranges & Hr & H). apply M_bind_Ok in H as ([rem blob] & _ & H).
    apply M_bind_Ok in H as (blob' & _ & H). apply M_bind_Ok in H as (fp & _ & H).
    destruct (donate_ranges_spec _ _ _ _ _ _ Ht H) as (H1 & H2 & H3 & H4).
    split; [done |]. split; [done |]. split; [done |].
    intros ranges' Hr' _. rewrite Hr in Hr'. by injection Hr' as <-.
Qed.

(** The liquidity [at_sqrt_price] reports does not depend on how far the
    price moved: for two prices on the same side of the start it is the same,
    since the net liquidity of every tick on that side is added. *)
Theorem at_sqrt_price_ignores_distance (P : Profile) (U : UniswapMath) b p q lp lq :
  (p <=? bl_start_sqrt_price b) = (q <=? bl_start_sqrt_price b) ->
  at_sqrt_price b p = Ok lp -> at_sqrt_price b q = Ok lq ->
  lp_current_liquidity lp = lp_current_liquidity lq.
Proof.
  intros E Hp Hq. unfold at_sqrt_price in *. rewrite E in Hp.
  apply M_bind_Ok in Hp as (tp & _ & Hp). apply M_bind_Ok in Hq as (tq & _ & Hq).
  apply M_bind_Ok in Hp as (x & Hx & Hp). apply M_bind_Ok in Hq as (y & Hy & Hq).
  injection Hp as <-. injection Hq as <-. simpl. congruence.
Qed.

(** A linear price curve that satisfies the laws, for evaluation: tick [t] has
    ratio [10^7 + t], and moving the price by one costs the liquidity. *)
Definition linear_step (cur tgt liq amt fee : Z) : M (Z * Z * Z * Z) :=
  let k := Z.abs (tgt - cur) in
  let liq := Z.max 0 liq in
  let toward d := if cur <=? tgt then cur + d else cur - d in
  if 0 <=? amt then
    if k * liq <=? amt then Ok (tgt, k * liq, k * liq, 0)
    else Ok (toward (amt / liq), amt / liq * liq, amt / liq * liq, amt - amt / liq * liq)
  else
    if k * liq <=? - amt then Ok (tgt, k * liq, k * liq, 0)
    else Ok (toward (- amt / liq), - amt, - amt, 0).

Definition linear_math : UniswapMath := {|
  MIN_SQRT_RATIO := 10 ^ 7 - MAX_TICK;
  MAX_SQRT_RATIO := 10 ^ 7 + MAX_TICK;
  get_sqrt_ratio_at_tick t :=
    if (- MAX_TICK <=? t) && (t <=? MAX_TICK) then Ok (10 ^ 7 + t) else Err "tick";
  get_tick_at_sqrt_ratio p := Ok (p - 10 ^ 7);
  next_initialized_tick_within_one_word bm t _ lte :=
    let n := if lte then t else t + 1 in Ok (n, bool_decide (is_Some (bm !! n)));
  compute_swap_step := linear_step;
|}.

Lemma linear_step_spec cur tgt liq amt fee p i o f :
  linear_step cur tgt liq amt fee = Ok (p, i, o, f) ->
  Z.min cur tgt <= p <= Z.max cur tgt /\ 0 <= i /\ 0 <= o /\ 0 <= f /\
  (0 < amt -> i + f <= amt /\ (p <> tgt -> i + f = amt)) /\
  (amt < 0 -> o <= - amt /\ (p <> tgt -> o = - amt)).
Proof.
  unfold linear_step. set (k := Z.abs (tgt - cur)). set (q := Z.max 0 liq).
  assert (0 <= q) by lia. assert (0 <= k) by lia.
  assert (forall a, 0 <= a -> ~ k * q <= a -> 0 <= a / q < k /\ 0 <= a / q * q <= a) as Hdiv.
  { intros a Ha Hlt. assert (0 < q) by (destruct (Z.eq_dec q 0); nia).
    split; [split; [by apply Z.div_pos | apply Z.div_lt_upper_bound; nia] |].
    pose proof (Z.mul_div_le a q). pose proof (Z.div_pos a q). nia. }
  destruct (Z.leb_spec 0 amt) as [Ha | Ha].
  - destruct (Z.leb_spec (k * q) amt) as [Hk | Hk].
    + intros [= <- <- <- <-]. repeat split; nia || done.
    + destruct (Hdiv amt) as [? ?]; [lia | lia |].
      destruct (Z.leb_spec cur tgt); intros [= <- <- <- <-]; repeat split; lia.
  - destruct (Z.leb_spec (k * q) (- amt)) as [Hk | Hk].
    + intros [= <- <- <- <-]. repeat split; nia || done.
    + destruct (Hdiv (- amt)) as [? ?]; [lia | lia |].
      destruct (Z.leb_spec cur tgt); intros [= <- <- <- <-]; repeat split; lia.
Qed.

Lemma linear_laws : SwapLaws linear_math.
Proof.
  split; simpl.
  - intros bm t _ n i [= <- _]. lia.
  - intros bm t _ n i [= <- _]. lia.
  - intros t r. case_match eqn:E; [| done]. apply andb_true_iff in E as [?%Z.leb_le ?%Z.leb_le]. lia.
  - intros t t' r r' Hle. repeat case_match; try done. intros [= <-] [= <-]. lia.
  - intros * H. apply linear_step_spec in H as (? & ? & ? & ? & ? & ?). auto.
  - intros * H. apply linear_step_spec in H as (? & ? & ? & ? & ? & ?). auto.
  - intros * H. apply linear_step_spec in H as (? & ? & ? & ? & ? & ?). auto.
  - intros * H. apply linear_step_spec in H as (? & ? & ? & ? & ? & ?). auto.
Defined.

(** A pool at tick 0 with liquidity 1000 and two more ranges below it. *)
Definition demo_ticks : gmap Z TickInfo :=
  {[ -2 := mkTickInfo 400 400 true; -4 := mkTickInfo 300 300 true; 3 := mkTickInfo 700 (-700) true ]}.
Definition demo_bitmap : gmap Z Z := {[ -2 := 1; -4 := 1; 3 := 1 ]}.
Definition demo_liquidity : BaselineLiquidity :=
  mkBaselineLiquidity 1 0 (10 ^ 7) 1000 demo_ticks demo_bitmap.

(** Sell 3500 of T0: crosses the tick at -2. *)
Definition demo_swap : PoolSwap := mkPoolSwap (current demo_liquidity) None 3500 SellingT0 0.

Lemma demo_ready : @swap_ready linear_math demo_swap.
Proof.
  split; [vm_compute; split; discriminate |]. split; [vm_compute; split; discriminate |].
  intros t r. simpl. case_match; [| done]. intros [= <-]. simpl. lia.
Defined.

Lemma swap_terminates_witness :
  @swap_loop dev linear_math swap_fuel SellingT0 0 (@price_limit linear_math demo_swap) true
    (swap_init demo_swap) <> None.
Proof. exact (swap_terminates dev linear_math linear_laws demo_swap demo_ready). Defined.

Definition demo_result : PoolSwapResult :=
  match @swap dev linear_math demo_swap with
  | Ok r => r
  | _ => Baseline.noop (mkBaselinePoolState demo_liquidity 0)
  end.

Lemma demo_swap_Ok : @swap dev linear_math demo_swap = Ok demo_result.
Proof. vm_compute. reflexivity. Defined.

Lemma swap_sound_witness :
  sr_end_price demo_result = 9999995 /\
  price_between true (@price_limit linear_math demo_swap) (10 ^ 7) (sr_end_price demo_result) /\
  0 <= sr_total_d_t0 demo_result <= 3500.
Proof.
  split; [vm_compute; reflexivity |].
  destruct (swap_sound dev linear_math linear_laws demo_swap demo_result) as [H1 H2].
  - exact demo_ready.
  - vm_compute. split; discriminate.
  - exact demo_swap_Ok.
  - split; [exact H1 |]. apply H2. vm_compute. split; [reflexivity | discriminate].
Defined.

Lemma ranges_partition_witness :
  exists l, @reduce_ranges dev demo_result true = Ok l /\ length l = 3%nat /\
    sumZ (map ti_d_t0 l) = 3500.
Proof.
  eexists. split; [vm_compute; reflexivity |]. split; [reflexivity |].
  refine (eq_trans (proj1 (ranges_partition dev demo_result true _ _ _ _ _ _)) _).
  - apply (bool_decide_unpack _). vm_compute. exact I.
  - vm_compute. discriminate.
  - vm_compute. discriminate.
  - vm_compute. discriminate.
  - vm_compute. reflexivity.
  - vm_compute. reflexivity.
Defined.

Lemma donations_bounded_witness :
  exists v, @t0_donation_vec dev demo_result 100 = Ok v /\ length v = 3%nat /\ donated v <= 100.
Proof.
  eexists. split; [vm_compute; reflexivity |]. split; [reflexivity |].
  apply (donations_bounded dev demo_result 100); [lia | vm_compute; reflexivity].
Defined.

Lemma at_sqrt_price_ignores_distance_witness :
  exists l1 l2, @at_sqrt_price dev linear_math demo_liquidity (10 ^ 7) = Ok l1 /\
    @at_sqrt_price dev linear_math demo_liquidity (10 ^ 7 - 5) = Ok l2 /\
    lp_current_liquidity l1 = lp_current_liquidity l2 /\ lp_current_liquidity l1 <> 1000.
Proof.
  eexists _, _. split; [vm_compute; reflexivity |]. split; [vm_compute; reflexivity |].
  split; [| vm_compute; discriminate].
  apply (at_sqrt_price_ignores_distance dev linear_math demo_liquidity (10 ^ 7) (10 ^ 7 - 5));
    vm_compute; reflexivity.
Defined.
