(* ===== verification/Book.v ===== *)
(** * The order book

    crates/matching-engine/src/book/{mod,sort}.rs and [build_book] of
    matching-engine/src/lib.rs: the bids and asks of one pool in the order the
    matcher walks them, and the price interval the matcher searches.  Also
    [calc_vec_and_reward] of crates/types/src/contract_payloads/angstrom/tob.rs,
    the top-of-block order applied to the pool before matching. *)

From S2P Require Import Prelude Uniswap Ray Donation Orders PoolSwap.

Abbreviation BookOrder := (OrderWithStorageData AllOrders) (only parsing).

Record OrderBook := mkOrderBook {
  ob_id : Z;
  ob_amm : option BaselinePoolState;
  ob_bids : list BookOrder;
  ob_asks : list BookOrder;
}.

Inductive SortStrategy := Unsorted | ByPriceByVolume | PricePartialVolume.

Section Book.
Context {P : Profile} {U : UniswapMath} {E : OrderEnv}.

Definition by_price_by_volume (a b : BookOrder) : comparison :=
  let (ap, bp) := (priority_data a, priority_data b) in
  then_with (pd_price ap ?= pd_price bp)
  (then_with (pd_volume ap ?= pd_volume bp)
  (then_with (pd_gas ap ?= pd_gas bp) (pd_gas_units ap ?= pd_gas_units bp))).

Definition price_partial_volume (a b : BookOrder) : comparison :=
  let (ap, bp) := (priority_data a, priority_data b) in
  then_with (pd_price ap ?= pd_price bp)
  (then_with (bool_cmp (is_partial (order a)) (is_partial (order b)))
  (then_with (pd_volume ap ?= pd_volume bp)
  (then_with (pd_gas ap ?= pd_gas bp) (pd_gas_units ap ?= pd_gas_units bp)))).

Definition sort_bids (s : SortStrategy) (bids : list BookOrder) : list BookOrder :=
  match s with
  | Unsorted => bids
  | PricePartialVolume => sort_by price_partial_volume bids
  | ByPriceByVolume => sort_by by_price_by_volume bids
  end.

Definition sort_asks (s : SortStrategy) (asks : list BookOrder) : list BookOrder :=
  match s with
  | Unsorted => asks
  | PricePartialVolume => sort_by price_partial_volume asks
  | ByPriceByVolume => sort_by by_price_by_volume asks
  end.

Definition OrderBook_new (id : Z) (amm : option BaselinePoolState) (bids asks : list BookOrder)
    (sort : option SortStrategy) : OrderBook :=
  let strategy := default Unsorted sort in
  mkOrderBook id amm (sort_bids strategy bids) (sort_asks strategy asks).

Definition all_orders (b : OrderBook) : list BookOrder := ob_bids b ++ ob_asks b.

(** [build_book]; the hash set is a list in iteration order.  [sort_by_key]
    calls [limit_price], which can panic, on every key. *)
Definition build_book (id : Z) (amm : option BaselinePoolState) (orders : list BookOrder) :
    M OrderBook :=
  let bids := List.filter osd_is_bid orders in
  let asks := List.filter (fun o => negb (osd_is_bid o)) orders in
  let* bk := M_map (fun o => let* p := limit_price (order o) in Ok (p, o)) bids in
  let* ak := M_map (fun o => let* p := limit_price (order o) in Ok (p, o)) asks in
  let bids := map snd (sort_by (fun a b => b.1 ?= a.1) bk) in
  let asks := map snd (sort_by (fun a b => a.1 ?= b.1) ak) in
  Ok (OrderBook_new id amm bids asks (Some PricePartialVolume)).

(** [Iterator::min]/[max]. *)
Definition min_of (l : list Z) : option Z :=
  match l with [] => None | x :: l => Some (fold_left Z.min l x) end.
Definition max_of (l : list Z) : option Z :=
  match l with [] => None | x :: l => Some (fold_left Z.max l x) end.

Definition lowest_clearing_price (b : OrderBook) : M Z :=
  let* prices := M_map (fun ask => limit_price (order ask)) (ob_asks b) in
  match min_of prices with
  | Some p => Ok p
  | None => let* s := SqrtPriceX96.from_u256 (uint_add 256 MIN_SQRT_RATIO 1) in Ray.from_sqrt s
  end.

Definition highest_clearing_price (b : OrderBook) : M Z :=
  let* prices := M_map (fun bid => let* p := limit_price (order bid) in Ray.inv_ray_round p true)
                   (ob_bids b) in
  match max_of prices with
  | Some p => Ok p
  | None => let* s := SqrtPriceX96.from_u256 (uint_sub 256 MAX_SQRT_RATIO 1) in Ray.from_sqrt s
  end.

(** [TopOfBlockOrder::calc_vec_and_reward]: the swap the order causes, and the
    T0 left for rewards. *)
Definition calc_vec_and_reward (tob : OrderWithStorageData TopOfBlockOrder)
    (snapshot : BaselinePoolState) : M (PoolSwapResult * Z) :=
  if osd_is_bid tob then
    let* res := Baseline.swap_current_with_amount snapshot (tob_quantity_in (order tob)) BuyingT0 in
    let* leftover := ok_or (checked_sub (sr_total_d_t0 res) (tob_quantity_out (order tob)))
                       "Not enough output to cover the transaction" in
    Ok (res, leftover)
  else
    let* cost_swap :=
      Baseline.swap_current_with_amount snapshot (- tob_quantity_out (order tob)) SellingT0 in
    let cost := sr_total_d_t0 cost_swap in
    let* leftover := ok_or (checked_sub (tob_quantity_in (order tob)) cost)
                       "Not enough input to cover the transaction" in
    let* price_vec := Baseline.swap_current_with_amount snapshot cost SellingT0 in
    Ok (price_vec, leftover).

End Book.

(** ** Lemmas *)

Lemma min_of_le l m : min_of l = Some m -> m ∈ l /\ forall x, x ∈ l -> m <= x.
Proof.
  destruct l as [| x l]; [done |]. intros [= <-]. revert x. induction l as [| y l IH]; intros x; simpl.
  - split; [by apply list_elem_of_here |]. intros z ->%list_elem_of_singleton. lia.
  - destruct (IH (Z.min x y)) as [Hin Hle]. split.
    + apply elem_of_cons in Hin as [-> | Hin]; [| by do 2 apply list_elem_of_further].
      destruct (Z.min_spec x y) as [[_ ->] | [_ ->]];
        [apply list_elem_of_here | apply list_elem_of_further, list_elem_of_here].
    + intros z Hz. apply elem_of_cons in Hz as [-> | Hz].
      * specialize (Hle _ (list_elem_of_here _ _)). lia.
      * apply elem_of_cons in Hz as [-> | Hz]; [specialize (Hle _ (list_elem_of_here _ _)); lia |].
        apply Hle. by apply list_elem_of_further.
Qed.

Lemma max_of_ge l m : max_of l = Some m -> m ∈ l /\ forall x, x ∈ l -> x <= m.
Proof.
  destruct l as [| x l]; [done |]. intros [= <-]. revert x. induction l as [| y l IH]; intros x; simpl.
  - split; [by apply list_elem_of_here |]. intros z ->%list_elem_of_singleton. lia.
  - destruct (IH (Z.max x y)) as [Hin Hle]. split.
    + apply elem_of_cons in Hin as [-> | Hin]; [| by do 2 apply list_elem_of_further].
      destruct (Z.max_spec x y) as [[_ ->] | [_ ->]];
        [apply list_elem_of_further, list_elem_of_here | apply list_elem_of_here].
    + intros z Hz. apply elem_of_cons in Hz as [-> | Hz].
      * specialize (Hle _ (list_elem_of_here _ _)). lia.
      * apply elem_of_cons in Hz as [-> | Hz]; [specialize (Hle _ (list_elem_of_here _ _)); lia |].
        apply Hle. by apply list_elem_of_further.
Qed.

Section BookLemmas.
Context {E : OrderEnv}.

(** The sort key, most significant first. *)
Definition book_key (o : BookOrder) : list Z :=
  [pd_price (priority_data o); Z.b2z (is_partial (order o)); pd_volume (priority_data o);
   pd_gas (priority_data o); pd_gas_units (priority_data o)].

Lemma price_partial_volume_lex a b : price_partial_volume a b = lex_cmp (book_key a) (book_key b).
Proof.
  unfold price_partial_volume, book_key. simpl.
  replace (bool_cmp (is_partial (order a)) (is_partial (order b)))
    with (Z.b2z (is_partial (order a)) ?= Z.b2z (is_partial (order b)))
    by (by destruct (is_partial (order a)), (is_partial (order b))).
  by destruct (pd_gas_units _ ?= _).
Qed.

Lemma book_sorted l : StronglySorted (fun a b => price_partial_volume a b <> Gt)
                        (sort_by price_partial_volume l).
Proof.
  apply sort_by_sorted; intros *; rewrite !price_partial_volume_lex.
  - by apply lex_cmp_trans.
  - apply lex_cmp_anti.
Qed.
End BookLemmas.

(** ** Properties *)

(** The matcher's book is a stable rearrangement of the given orders by price,
    and at one price every exact order comes before every partial order: an
    order may follow a partial one at the same price only if it is partial
    itself. *)
Theorem book_exact_before_partial (E : OrderEnv) id amm bids asks l1 a l2 b l3 :
  let book := OrderBook_new id amm bids asks (Some PricePartialVolume) in
  ob_bids book ≡ₚ bids /\ ob_asks book ≡ₚ asks /\
  (ob_asks book = l1 ++ a :: l2 ++ b :: l3 ->
   pd_price (priority_data a) <= pd_price (priority_data b) /\
   (pd_price (priority_data a) = pd_price (priority_data b) ->
    is_partial (order a) = true -> is_partial (order b) = true)).
Proof.
  simpl. split; [apply sort_by_perm |]. split; [apply sort_by_perm |]. intros Hs.
  pose proof (book_sorted asks) as Hsort. rewrite Hs in Hsort.
  apply StronglySorted_app_1_r in Hsort. apply StronglySorted_inv in Hsort as [_ Hall].
  rewrite Forall_app in Hall. destruct Hall as [_ Hall]. apply Forall_cons in Hall as [Hab _].
  unfold price_partial_volume in Hab. rewrite !then_with_not_Gt in Hab.
  rewrite Z.compare_lt_iff, Z.compare_eq_iff in Hab.
  destruct (is_partial (order a)), (is_partial (order b)); simpl in Hab; naive_solver lia.
Qed.

(** The pool a top-of-block order is simulated on. *)
Definition pool_ready `{UniswapMath} (b : BaselinePoolState) : Prop :=
  - MAX_TICK <= Baseline.current_tick b <= MAX_TICK /\
  (forall d, price_ahead (dir_is_ask d)
     (swap_init (mkPoolSwap (current (bp_liquidity b)) None 0 d 0))) /\
  MIN_SQRT_RATIO + 1 <= Baseline.current_price b <= MAX_SQRT_RATIO - 1 /\
  0 <= MIN_SQRT_RATIO /\ MAX_SQRT_RATIO <= u_max 256.

Section TobLemmas.
Context {P : Profile} {U : UniswapMath} {L : SwapLaws U}.

Lemma amount_swap_input b amount d r :
  pool_ready b -> 0 <= amount <= u_max 128 ->
  Baseline.swap_current_with_amount b amount d = Ok r ->
  0 <= (if dir_is_ask d then sr_total_d_t0 r else sr_total_d_t1 r) <= amount.
Proof.
  intros (Ht & Ha & Hp & Hmin & Hmax) Hamt H. unfold Baseline.swap_current_with_amount in H.
  unfold u_max in *.
  eapply swap_spec in H as [_ H].
  - apply H. done.
  - split; [simpl; unfold Baseline.current_tick in Ht; lia |].
    split; [| exact (Ha d)]. simpl.
    assert (i_min 256 <= 0) by (by vm_compute). assert (2 ^ 128 - 1 <= i_max 256) by (by vm_compute).
    lia.
  - unfold price_between, price_limit, uint_add, uint_sub, wrap_u. simpl.
    unfold Baseline.current_price in Hp.
    rewrite !Z.mod_small by lia. destruct (dir_is_ask d); lia.
Qed.
End TobLemmas.

(** A top-of-block order never costs the pool more than it pays.  When the
    simulation succeeds, a buying order's swap yields exactly its quantity out
    plus the reward, from at most its quantity in; for a selling order the
    reward and the T0 the swap takes together are at most its quantity in. *)
Theorem tob_reward_accounted (P : Profile) (U : UniswapMath) (L : SwapLaws U) tob b res leftover :
  pool_ready b -> u128 (tob_quantity_in (order tob)) -> u128 (tob_quantity_out (order tob)) ->
  calc_vec_and_reward tob b = Ok (res, leftover) ->
  0 <= leftover /\
  if osd_is_bid tob then
    sr_total_d_t0 res = tob_quantity_out (order tob) + leftover /\
    0 <= sr_total_d_t1 res <= tob_quantity_in (order tob)
  else 0 <= sr_total_d_t0 res /\ leftover + sr_total_d_t0 res <= tob_quantity_in (order tob).
Proof.
  intros Hr Hin Hout H. unfold calc_vec_and_reward, checked_sub in H. destruct (osd_is_bid tob).
  - apply M_bind_Ok in H as (r & Hs & H). destruct (Z.leb_spec (tob_quantity_out (order tob))
      (sr_total_d_t0 r)); simpl in H; [| done]. injection H as <- <-.
    pose proof (amount_swap_input _ _ _ _ Hr Hin Hs) as Hb. simpl in Hb. lia.
  - apply M_bind_Ok in H as (r & Hs & H). destruct (Z.leb_spec (sr_total_d_t0 r)
      (tob_quantity_in (order tob))); simpl in H; [| done].
    apply M_bind_Ok in H as (r' & Hs' & H). injection H as <- <-.
    destruct (swap_totals_range _ _ Hs) as [Hc _].
    pose proof (amount_swap_input _ _ _ _ Hr Hc Hs') as Hb. simpl in Hb. lia.
Qed.

(** Evaluation: the linear pool. *)
Definition demo_pool : BaselinePoolState := mkBaselinePoolState demo_liquidity 0.

Lemma demo_pool_ready : @pool_ready linear_math demo_pool.
Proof.
  split; [split; vm_compute; discriminate |]. split; [| repeat split; vm_compute; discriminate].
  intros [] t r; simpl; (case_match; [| done]); intros [= <-]; simpl; lia.
Defined.

Definition demo_id (h : Z) : OrderId := mkOrderId 1 9 h (Nonce 0) None None Limit.

Definition demo_tob (bid : bool) (q_in q_out : Z) : OrderWithStorageData TopOfBlockOrder :=
  mkOrderWithStorageData
    (mkTopOfBlockOrder q_in q_out 0 false (if bid then 2 else 1) (if bid then 1 else 2) 0 1
       (mkOrderMeta true 1 []))
    (mkOrderPriorityData 0 0 0 0) [] 9 None bid true 1 (demo_id 0) 0.

Lemma tob_reward_accounted_witness :
  exists res leftover,
    @calc_vec_and_reward dev linear_math (demo_tob false 3500 2500) demo_pool = Ok (res, leftover) /\
    leftover = 1000 /\ 0 <= leftover /\ 0 <= sr_total_d_t0 res /\ leftover + sr_total_d_t0 res <= 3500.
Proof.
  eexists _, _. split; [vm_compute; reflexivity |]. split; [reflexivity |].
  apply (tob_reward_accounted dev linear_math linear_laws (demo_tob false 3500 2500) demo_pool).
  - exact demo_pool_ready.
  - split; vm_compute; discriminate.
  - split; vm_compute; discriminate.
  - vm_compute. reflexivity.
Defined.

Definition demo_ask (h price min max : Z) : BookOrder :=
  mkOrderWithStorageData
    (PartialStanding (mkPartialStandingOrder 0 min max 0 price false 1 2 0 [] 0 0
                        (mkOrderMeta true 1 [])))
    (mkOrderPriorityData price max 0 0) [] 9 None false true 1 (demo_id h) 0.

Lemma book_exact_before_partial_witness :
  exists book, book = @OrderBook_new toy_env 9 None [] [demo_ask 1 5 1 10; demo_ask 2 5 10 10]
                        (Some PricePartialVolume) /\
    ob_asks book = [demo_ask 2 5 10 10; demo_ask 1 5 1 10] /\
    pd_price (priority_data (demo_ask 2 5 10 10)) <= pd_price (priority_data (demo_ask 1 5 1 10)).
Proof.
  eexists. split; [reflexivity |]. split; [vm_compute; reflexivity |].
  eapply (book_exact_before_partial toy_env 9 None [] [demo_ask 1 5 1 10; demo_ask 2 5 10 10]
            [] (demo_ask 2 5 10 10) [] (demo_ask 1 5 1 10) []).
  vm_compute. reflexivity.
Defined.
