(* ===== verification/DeltaMatcher.v ===== *)
(** * The matcher

    crates/matching-engine/src/matcher/delta.rs: the search for the uniform
    clearing price of one pool.  [check_ucp] weighs the orders and the pool
    against each other at one price, [solve_clearing_price] bisects the price
    interval and may kill exact orders on the way, [fetch_orders_at_ucp] turns the
    price into an outcome per order, [solution] packs the result.

    The hash set of killed orders is a list of order ids. *)

From S2P Require Import Prelude Uniswap Ray Donation MatchMath Orders PoolSwap Book.

Record OrderLiquidity := mkOrderLiquidity {
  ol_net_t0 : Z;
  ol_net_t1 : Z;
  ol_bid_slack : Z * Z;
  ol_ask_slack : Z * Z;
  ol_killable_orders : list (OrderId * Z * bool);
}.

Inductive DeltaMatcherToB :=
| ToBNone
| FixedShift (q : Quantity) (is_bid : bool)
| ToBOrder (o : OrderWithStorageData TopOfBlockOrder).

Record DeltaMatcher := mkDeltaMatcher {
  dm_book : OrderBook;
  dm_fee : Z;
  dm_solve_for_t0 : bool;
  dm_amm_start_location : option PoolSwapResult;
}.

Record UcpSolution := mkUcpSolution {
  us_ucp : Z;
  us_killed : list OrderId;
  us_partial_fills : option (Z * Z);
  us_reward_t0 : Z;
}.

Record CheckUcpStats := mkCheckUcpStats {
  cs_amm_t0 : Z;
  cs_amm_t1 : Z;
  cs_order_t0 : Z;
  cs_order_t1 : Z;
  cs_order_bid_slack : Z * Z;
  cs_order_ask_slack : Z * Z;
}.

Inductive SupplyDemandResult :=
| MoreSupply (ko : option (list OrderId))
| MoreDemand (ko : option (list OrderId))
| NaturallyEqual
| PartialFillEq (bid_fill_q ask_fill_q reward_t0 : Z).

(** [HashSet::contains] and [HashSet::extend]. *)
Definition killed_contains (killed : list OrderId) (id : OrderId) : bool := bool_decide (id ∈ killed).
Definition killed_extend (killed ko : list OrderId) : list OrderId :=
  fold_left (fun k id => if killed_contains k id then k else id :: k) ko killed.

(** [From<Option<..>> for DeltaMatcherToB]. *)
Definition tob_from (o : option (OrderWithStorageData TopOfBlockOrder)) : DeltaMatcherToB :=
  match o with None => ToBNone | Some o => ToBOrder o end.

Section Matcher.
Context {P : Profile} {U : UniswapMath} {E : OrderEnv}.

Definition DeltaMatcher_new (book : OrderBook) (tob : DeltaMatcherToB) (solve_for_t0 : bool) :
    M DeltaMatcher :=
  let fee := match ob_amm book with Some amm => bp_fee amm | None => 0 end in
  let* amm_start_location :=
    match tob with
    | ToBOrder o =>
        match ob_amm book with
        | Some snapshot =>
            let* r := expect_ok (calc_vec_and_reward o snapshot) in Ok (Some r.1)
        | None => Ok None
        end
    | FixedShift _ _ => Panic
    | ToBNone => Ok (option_map Baseline.noop (ob_amm book))
    end in
  Ok (mkDeltaMatcher book fee solve_for_t0 amm_start_location).

(** A failing swap counts as no liquidity. *)
Definition fetch_concentrated_liquidity (m : DeltaMatcher) (price : Z) : M (Z * Z) :=
  let* within := Ray.within_sqrt_price_bounds price in
  let* end_sqrt :=
    if (within : bool) then SqrtPriceX96.from_ray price
    else
      let* this_price := SqrtPriceX96.from_u256 MIN_SQRT_RATIO in
      let* ray := Ray.from_sqrt this_price in
      if price <=? ray then Ok this_price else SqrtPriceX96.from_u256 MAX_SQRT_RATIO in
  match dm_amm_start_location m with
  | None => Ok (0, 0)
  | Some pool =>
      let is_bid := end_sqrt <=? sr_end_price pool in
      match swap_to_price pool (from_is_bid is_bid) end_sqrt with
      | Panic => Panic
      | Err _ => Ok (0, 0)
      | Ok res =>
          if is_bid then
            let* t0 := i256_mul (sr_total_d_t0 res) (-1) in Ok (t0, sr_total_d_t1 res)
          else
            let* t1 := i256_mul (sr_total_d_t1 res) (-1) in Ok (sr_total_d_t0 res, t1)
      end
  end.

Definition get_amount_in_out (o : BookOrder) (fill_amount fee ray_ucp : Z) : M (Z * Z) :=
  let b := is_bid (order o) in
  let* gas := uint_from 128 (pd_gas (priority_data o)) in
  let* (t1, t0_net, t0_fee) :=
    get_quantities_at_price b (exact_in (order o)) fill_amount gas fee ray_ucp in
  if b then
    let* x := u128_add t0_net t0_fee in
    let* out := u128_add x gas in
    Ok (t1, out)
  else Ok (t0_net, t1).

(** The two filters of [order_liquidity]: the orders a price can serve. *)
Definition bid_valid_at (m : DeltaMatcher) (price : Z) (o : BookOrder) : M bool :=
  let* p := pre_fee_price (order o) (dm_fee m) in
  let* inv := Ray.inv_ray_round p false in
  Ok (price <=? inv).

Definition ask_valid_at (m : DeltaMatcher) (price : Z) (o : BookOrder) : M bool :=
  let* p := pre_fee_price (order o) (dm_fee m) in
  Ok (p <=? price).

(** What the target price asks of one order: the quantity it must fill, the
    quantity it may fill, and whether it can be killed. *)
Definition order_range (price : Z) (o : BookOrder) : M (Z * option Z * bool) :=
  let* p := price_t1_over_t0 (order o) in
  Ok (if price =? p then
        if is_partial (order o) then (min_amount (order o), Some (amount (order o)), false)
        else (amount (order o), None, true)
      else (amount (order o), None, false)).

(** The body of the [for_each] of [order_liquidity]. *)
Definition add_order (m : DeltaMatcher) (price : Z) (acc : OrderLiquidity) (o : BookOrder) :
    M OrderLiquidity :=
  let* (min_q, max_q, killable) := order_range price o in
  let killables := if (killable : bool)
                   then ol_killable_orders acc ++ [(order_id o, min_q, osd_is_bid o)]
                   else ol_killable_orders acc in
  let* (min_in, min_out) := get_amount_in_out o min_q (dm_fee m) price in
  let (t0_d, t1_d) := if osd_is_bid o then (i256_saturating_neg min_out, min_in)
                      else (min_in, i256_saturating_neg min_out) in
  let* net_t0 := i256_add (ol_net_t0 acc) t0_d in
  let* net_t1 := i256_add (ol_net_t1 acc) t1_d in
  match max_q with
  | None => Ok (mkOrderLiquidity net_t0 net_t1 (ol_bid_slack acc) (ol_ask_slack acc) killables)
  | Some fill_amount =>
      let* (max_in, max_out) := get_amount_in_out o fill_amount (dm_fee m) price in
      if osd_is_bid o then
        let* t0_s := u128_sub max_out min_out in
        let* t1_s := u128_sub max_in min_in in
        let* b0 := u128_add (ol_bid_slack acc).1 t0_s in
        let* b1 := u128_add (ol_bid_slack acc).2 t1_s in
        Ok (mkOrderLiquidity net_t0 net_t1 (b0, b1) (ol_ask_slack acc) killables)
      else
        let* t0_s := u128_sub max_in min_in in
        let* t1_s := u128_sub max_out min_out in
        let* a0 := u128_add (ol_ask_slack acc).1 t0_s in
        let* a1 := u128_add (ol_ask_slack acc).2 t1_s in
        Ok (mkOrderLiquidity net_t0 net_t1 (ol_bid_slack acc) (a0, a1) killables)
  end.

Definition order_liquidity (m : DeltaMatcher) (price : Z) (killed : list OrderId) :
    M OrderLiquidity :=
  let* bids := M_filter (bid_valid_at m price) (ob_bids (dm_book m)) in
  let* asks := M_filter (ask_valid_at m price) (ob_asks (dm_book m)) in
  let live := List.filter (fun o => negb (killed_contains killed (order_id o))) (bids ++ asks) in
  M_fold (add_order m price) (mkOrderLiquidity 0 0 (0, 0) (0, 0) []) live.

(** The [fold_while] of [check_killable_orders]. *)
Fixpoint kill_fold (min_target total_elim : Z) (elim_ids : option (list OrderId))
    (l : list (OrderId * Z * bool)) : M (Z * option (list OrderId)) :=
  match l with
  | [] => Ok (total_elim, elim_ids)
  | (id, q, _) :: l =>
      let elim_ids := Some (default [] elim_ids ++ [id]) in
      let* new_elim := u128_add total_elim q in
      if min_target <? new_elim then Ok (new_elim, elim_ids)
      else kill_fold min_target new_elim elim_ids l
  end.

Definition check_killable_orders (killable_orders : list (OrderId * Z * bool)) (side_is_bid : bool)
    (min_target : Z) : M (Z * option (list OrderId)) :=
  let side := List.filter (fun x => Bool.eqb x.2 side_is_bid) killable_orders in
  let sorted := sort_by (fun a b => b.1.2 ?= a.1.2) side in
  let* (total_elim, order_ids) := kill_fold min_target 0 None sorted in
  Ok (if min_target <=? total_elim then (total_elim, order_ids) else (0, None)).

Definition check_ucp (m : DeltaMatcher) (price : Z) (killed : list OrderId) :
    M (CheckUcpStats * SupplyDemandResult) :=
  let* (amm_t0, amm_t1) := fetch_concentrated_liquidity m price in
  let* ol := order_liquidity m price killed in
  let* t0_sum := i256_add amm_t0 (ol_net_t0 ol) in
  let* t1_sum := i256_add amm_t1 (ol_net_t1 ol) in
  let stats := mkCheckUcpStats amm_t0 amm_t1 (ol_net_t0 ol) (ol_net_t1 ol)
                 (ol_bid_slack ol) (ol_ask_slack ol) in
  if (t0_sum =? 0) && (t1_sum =? 0) then Ok (stats, NaturallyEqual) else
  let t0 := dm_solve_for_t0 m in
  let excess_liquidity := if t0 then t0_sum else t1_sum in
  let '(available_drain, available_add, bid_is_input) :=
    if t0 then ((ol_bid_slack ol).1, (ol_ask_slack ol).1, false)
    else ((ol_ask_slack ol).2, (ol_bid_slack ol).2, true) in
  let abs_excess := saturate_u 128 (Z.abs excess_liquidity) in
  if excess_liquidity <? 0 then
    match checked_sub available_add abs_excess with
    | None =>
        let* min_target := u128_sub abs_excess available_add in
        let* (_, ko) := check_killable_orders (ol_killable_orders ol) bid_is_input min_target in
        Ok (stats, MoreDemand ko)
    | Some remaining_add =>
        let additional_fillable := Z.min remaining_add available_drain in
        if t0 then
          let* b := Ray.quantity price additional_fillable false in
          let* a := u128_add abs_excess additional_fillable in
          Ok (stats, PartialFillEq b a 0)
        else
          let* inv := Ray.inv_ray price in
          let* excess_t0_cost := Ray.inverse_quantity inv abs_excess false in
          let* reward_t0 :=
            if 0 <? t0_sum then
              let* x := uint_from 128 (Z.abs t0_sum) in Ok (saturating_sub x excess_t0_cost)
            else Ok 0 in
          let* b := u128_add abs_excess additional_fillable in
          let* a := Ray.inverse_quantity price additional_fillable false in
          Ok (stats, PartialFillEq b a reward_t0)
    end
  else
    match checked_sub available_drain abs_excess with
    | None =>
        let* min_target := u128_sub abs_excess available_add in
        let* (_, ko) := check_killable_orders (ol_killable_orders ol) bid_is_input min_target in
        Ok (stats, MoreSupply ko)
    | Some remaining_drain =>
        let additional_drainable := Z.min remaining_drain available_add in
        if t0 then
          let* s := u128_add abs_excess additional_drainable in
          let* b := Ray.quantity price s false in
          Ok (stats, PartialFillEq b additional_drainable 0)
        else
          let* excess_t0_gain := Ray.inverse_quantity price abs_excess true in
          let* final_t0 := i256_add t0_sum excess_t0_gain in
          let* reward_t0 := if 0 <? final_t0 then uint_from 128 (Z.abs final_t0) else Ok 0 in
          let* s := u128_add abs_excess additional_drainable in
          let* a := Ray.inverse_quantity price s false in
          Ok (stats, PartialFillEq additional_drainable a reward_t0)
    end.

(** ** Outcomes at the clearing price *)

(** One order; the state is the partial quantity left for bids and for asks. *)
Definition order_outcome (fetch : UcpSolution) (partials : Z * Z) (o : BookOrder) :
    M (OrderFillState * (Z * Z)) :=
  if killed_contains (us_killed fetch) (order_id o) then Ok (Killed, partials) else
  let* p := price_t1_over_t0 (order o) in
  match p ?= us_ucp fetch, osd_is_bid o with
  | Gt, true | Lt, false => Ok (CompleteFill, partials)
  | Gt, false | Lt, true => Ok (Unfilled, partials)
  | Eq, b =>
      let partial_q := if b then partials.1 else partials.2 in
      if 0 <? partial_q then
        let* max_partial :=
          if is_partial (order o) then u128_sub (amount (order o)) (min_amount (order o))
          else Ok (min_amount (order o)) in
        let* res :=
          if max_partial <? partial_q then Ok CompleteFill
          else let* q := u128_add (min_amount (order o)) partial_q in Ok (PartialFill q) in
        let rest := saturating_sub partial_q max_partial in
        Ok (res, if b then (rest, partials.2) else (partials.1, rest))
      else if is_partial (order o) then Ok (PartialFill (min_amount (order o)), partials)
      else Ok (Unfilled, partials)
  end.

Fixpoint outcomes (fetch : UcpSolution) (partials : Z * Z) (l : list BookOrder) :
    M (list OrderOutcome) :=
  match l with
  | [] => Ok []
  | o :: l =>
      let* (outcome, partials) := order_outcome fetch partials o in
      let* rest := outcomes fetch partials l in
      Ok (mkOrderOutcome (order_id o) outcome :: rest)
  end.

Definition fetch_orders_at_ucp (m : DeltaMatcher) (fetch : UcpSolution) : M (list OrderOutcome) :=
  outcomes fetch (default (0, 0) (us_partial_fills fetch)) (all_orders (dm_book m)).

Definition fetch_amm_movement_at_ucp (m : DeltaMatcher) (ucp : Z) : M (option NetAmmOrder) :=
  let* end_price_sqrt := SqrtPriceX96.from_ray ucp in
  match dm_amm_start_location m with
  | None => Ok None
  | Some pool =>
      let direction := from_is_bid (end_price_sqrt <=? sr_end_price pool) in
      match swap_to_price pool direction end_price_sqrt with
      | Panic => Panic
      | Err _ => Ok None
      | Ok res =>
          let* tob_amm := NetAmm.add_quantity (NetAmm.new direction)
                            (sr_total_d_t0 res) (sr_total_d_t1 res) in
          Ok (Some tob_amm)
      end
  end.

(** ** The search *)

Record SearchState := mkSearchState {
  se_p_max : Z;
  se_p_min : Z;
  se_killed : list OrderId;
  se_dust : option (Z * UcpSolution);
}.

(** [highest_clearing_price + 1] and [lowest_clearing_price - 1], saturating. *)
Definition search_bounds (book : OrderBook) : M (Z * Z) :=
  let* hi := highest_clearing_price book in
  let* lo := lowest_clearing_price book in
  Ok (saturating_add 256 hi 1, saturating_sub lo 1).

(** The checked difference of the bounds is more than one. *)
Definition search_continues (s : SearchState) : bool :=
  match checked_sub (se_p_max s) (se_p_min s) with
  | None => false
  | Some diff => negb (diff <=? 1)
  end.

Definition partial_of (res : SupplyDemandResult) : option (Z * Z) * Z :=
  match res with
  | PartialFillEq b a r => (Some (b, a), r)
  | _ => (None, 0)
  end.

(** Keeps the candidate with the least excess below the price of one unit. *)
Definition update_dust (m : DeltaMatcher) (p_mid : Z) (s : SearchState) (stats : CheckUcpStats)
    (res : SupplyDemandResult) : M (option (Z * UcpSolution)) :=
  let* total_liq :=
    if dm_solve_for_t0 m then i256_add (cs_amm_t0 stats) (cs_order_t0 stats)
    else i256_add (cs_amm_t1 stats) (cs_order_t1 stats) in
  let* price_for_one :=
    Ray.price_of p_mid (if dm_solve_for_t0 m then Token1 1 else Token0 1) false in
  if (0 <=? total_liq) && (total_liq <? price_for_one) &&
     (total_liq <? match se_dust s with Some d => d.1 | None => u_max 256 end) then
    let (partial_fills, reward_t0) := partial_of res in
    Ok (Some (total_liq, mkUcpSolution p_mid (se_killed s) partial_fills reward_t0))
  else Ok (se_dust s).

(** One iteration: either a solution or the next state. *)
Definition search_step (m : DeltaMatcher) (s : SearchState) : M (UcpSolution + SearchState) :=
  let can_kill := se_p_max s - se_p_min s <=? 4 in
  let p_mid := Ray.add (se_p_max s) (se_p_min s) / 2 in
  let* (stats, res) := check_ucp m p_mid (se_killed s) in
  let* dust := update_dust m p_mid s stats res in
  match res, can_kill, dm_solve_for_t0 m with
  | MoreSupply (Some ko), true, _ | MoreDemand (Some ko), true, _ =>
      let* (p_max, p_min) := search_bounds (dm_book m) in
      Ok (inr (mkSearchState p_max p_min (killed_extend (se_killed s) ko) dust))
  | MoreSupply _, _, true | MoreDemand _, _, false =>
      Ok (inr (mkSearchState p_mid (se_p_min s) (se_killed s) dust))
  | MoreSupply _, _, false | MoreDemand _, _, true =>
      Ok (inr (mkSearchState (se_p_max s) p_mid (se_killed s) dust))
  | NaturallyEqual, _, _ => Ok (inl (mkUcpSolution p_mid (se_killed s) None 0))
  | PartialFillEq b a r, _, _ => Ok (inl (mkUcpSolution p_mid (se_killed s) (Some (b, a)) r))
  end.

(** [None] when the fuel runs out. *)
Fixpoint search_loop (fuel : nat) (m : DeltaMatcher) (s : SearchState) :
    option (M (option UcpSolution)) :=
  if search_continues s then
    match fuel with
    | O => None
    | S fuel =>
        match search_step m s with
        | Ok (inl sol) => Some (Ok (Some sol))
        | Ok (inr s) => search_loop fuel m s
        | Err e => Some (Err e)
        | Panic => Some Panic
        end
    end
  else Some (Ok (option_map snd (se_dust s))).

(** Enough for 257 halvings between two kills of at least one order each. *)
Definition search_fuel (book : OrderBook) : nat := 257 * (length (all_orders book) + 1).

Definition solve_clearing_price (m : DeltaMatcher) : M (option UcpSolution) :=
  let* (p_max, p_min) := search_bounds (dm_book m) in
  match search_loop (search_fuel (dm_book m)) m (mkSearchState p_max p_min [] None) with
  | Some r => r
  | None => Panic
  end.

Definition solution (m : DeltaMatcher) (searcher : option (OrderWithStorageData TopOfBlockOrder)) :
    M PoolSolution :=
  let* found := solve_clearing_price m in
  match found with
  | None =>
      Ok (mkPoolSolution (ob_id (dm_book m)) 0 searcher None
            (map (fun o => mkOrderOutcome (order_id o) Unfilled) (all_orders (dm_book m))) 0 0)
  | Some sol =>
      let* limit := fetch_orders_at_ucp m sol in
      let* amm := fetch_amm_movement_at_ucp m (us_ucp sol) in
      let (ucp, amm) := if existsb outcome_is_filled limit then (us_ucp sol, amm) else (0, None) in
      Ok (mkPoolSolution (ob_id (dm_book m)) ucp searcher amm limit (us_reward_t0 sol) (dm_fee m))
  end.

(** [BinarySearchStrategy::run]. *)
Definition run_strategy (book : OrderBook)
    (searcher : option (OrderWithStorageData TopOfBlockOrder)) : M PoolSolution :=
  let* m := DeltaMatcher_new book (tob_from searcher) false in
  solution m searcher.

End Matcher.

(** ** Lemmas on the kill set *)

Lemma killed_contains_true killed id : killed_contains killed id = true <-> id ∈ killed.
Proof. unfold killed_contains. by rewrite bool_decide_eq_true. Qed.

Lemma killed_extend_in ko killed id : id ∈ killed_extend killed ko <-> id ∈ killed \/ id ∈ ko.
Proof.
  unfold killed_extend. revert killed. induction ko as [| x ko IH]; intros killed; simpl.
  - rewrite elem_of_nil. naive_solver.
  - rewrite IH. destruct (killed_contains killed x) eqn:Ex.
    + apply killed_contains_true in Ex. set_solver.
    + set_solver.
Qed.

Section MatcherLemmas.
Context {P : Profile} {U : UniswapMath} {E : OrderEnv}.

(** A book order of which the id may be killed. *)
Definition killable_in (l : list BookOrder) (id : OrderId) : Prop :=
  exists o, o ∈ l /\ order_id o = id /\ is_partial (order o) = false.

Lemma add_order_killable m price acc o acc' x :
  add_order m price acc o = Ok acc' -> x ∈ ol_killable_orders acc' ->
  x ∈ ol_killable_orders acc \/ (x.1.1 = order_id o /\ is_partial (order o) = false).
Proof.
  intros H Hx. unfold add_order, order_range in H.
  destruct (price_t1_over_t0 (order o)) as [p | |]; cbn [M_bind] in H; try done.
  destruct (price =? p); [destruct (is_partial (order o)) eqn:Ep |]; cbn beta iota zeta in H.
  all: destruct (get_amount_in_out o _ _ _) as [[a b] | |]; cbn [M_bind] in H; try done.
  all: destruct (osd_is_bid o); repeat (apply M_bind_Ok in H as ([] & _ & H) ||
         apply M_bind_Ok in H as (? & _ & H)); m_inv; simpl in Hx; auto.
  all: apply elem_of_app in Hx as [Hx | ->%list_elem_of_singleton]; [by left | right; done].
Qed.

Lemma order_liquidity_killable m price killed ol x :
  order_liquidity m price killed = Ok ol -> x ∈ ol_killable_orders ol ->
  killable_in (all_orders (dm_book m)) x.1.1 /\ x.1.1 ∉ killed.
Proof.
  intros H. unfold order_liquidity in H.
  apply M_bind_Ok in H as (bids & Hb & H). apply M_bind_Ok in H as (asks & Ha & H).
  set (live := List.filter _ _) in H.
  assert (forall o, o ∈ live -> o ∈ all_orders (dm_book m) /\ order_id o ∉ killed) as Hlive.
  { intros o [Ho Hk]%list_filter_in. apply negb_true_iff in Hk. split.
    - unfold all_orders. apply elem_of_app. apply elem_of_app in Ho as [Ho | Ho];
        [left; by eapply M_filter_sub | right; by eapply M_filter_sub].
    - intros Hin. apply killed_contains_true in Hin. congruence. }
  clearbody live. revert H.
  assert (forall y, y ∈ ol_killable_orders (mkOrderLiquidity 0 0 (0, 0) (0, 0) []) ->
            killable_in (all_orders (dm_book m)) y.1.1 /\ y.1.1 ∉ killed) as Hacc
    by (by intros y ?%not_elem_of_nil).
  revert Hacc. generalize (mkOrderLiquidity 0 0 (0, 0) (0, 0) []) as acc.
  induction live as [| o live IH]; intros acc Hacc H; simpl in H.
  - injection H as <-. apply Hacc.
  - apply M_bind_Ok in H as (acc' & Ho & H). refine (IH _ acc' _ H).
    + intros o' Ho'. apply Hlive. by apply list_elem_of_further.
    + intros y Hy. destruct (add_order_killable _ _ _ _ _ _ Ho Hy) as [Hy' | [-> Hp]]; [auto |].
      destruct (Hlive o (list_elem_of_here _ _)) as [Hin Hk]. split; [by exists o | done].
Qed.

Lemma kill_fold_ids t e ids l r ko :
  kill_fold t e ids l = Ok (r, Some ko) ->
  (ids <> None -> default [] ids <> []) ->
  ko <> [] /\ forall id, id ∈ ko -> id ∈ default [] ids \/ id ∈ map (fun x => x.1.1) l.
Proof.
  revert e ids. induction l as [| [[i q] s] l IH]; intros e ids H Hne; simpl in H.
  - injection H as -> ->. simpl in *. split; [by apply Hne | by left].
  - apply M_bind_Ok in H as (n & _ & H). destruct (t <? n).
    + injection H as _ <-. split; [by destruct (default [] ids) |].
      intros id Hid. apply elem_of_app in Hid as [Hid | ->%list_elem_of_singleton]; [by left |].
      right. simpl. apply list_elem_of_here.
    + apply IH in H as [H1 H2]; [| intros _; simpl; by destruct (default [] ids)].
      split; [done |]. intros id Hid. destruct (H2 id Hid) as [Hin | Hin]; simpl in *.
      * apply elem_of_app in Hin as [Hin | ->%list_elem_of_singleton]; [by left |].
        right. apply list_elem_of_here.
      * right. by apply list_elem_of_further.
Qed.

Lemma check_killable_ids l side t r ko :
  check_killable_orders l side t = Ok (r, Some ko) ->
  ko <> [] /\ forall id, id ∈ ko -> exists x, x ∈ l /\ x.1.1 = id.
Proof.
  intros H. unfold check_killable_orders in H.
  destruct (kill_fold _ _ _ _) as [[e ids] | |] eqn:Ek; cbn [M_bind] in H; try done.
  destruct (t <=? e); [| done]. injection H as <- ->.
  apply kill_fold_ids in Ek as [H1 H2]; [| done]. split; [done |]. intros id Hid.
  destruct (H2 id Hid) as [Hin%not_elem_of_nil | Hin]; [done |].
  apply list_elem_of_fmap in Hin as (x & -> & Hx). exists x. split; [| done].
  rewrite sort_by_perm in Hx. by apply list_filter_in in Hx as [Hx _].
Qed.

Lemma check_ucp_kills m price killed stats res ko :
  check_ucp m price killed = Ok (stats, res) ->
  res = MoreSupply (Some ko) \/ res = MoreDemand (Some ko) ->
  ko <> [] /\ forall id, id ∈ ko -> killable_in (all_orders (dm_book m)) id /\ id ∉ killed.
Proof.
  intros H Hres. unfold check_ucp in H.
  apply M_bind_Ok in H as ([a0 a1] & _ & H). apply M_bind_Ok in H as (ol & Hol & H).
  apply M_bind_Ok in H as (t0 & _ & H). apply M_bind_Ok in H as (t1 & _ & H).
  assert (forall side t r, check_killable_orders (ol_killable_orders ol) side t = Ok (r, Some ko) ->
    ko <> [] /\ forall id, id ∈ ko -> killable_in (all_orders (dm_book m)) id /\ id ∉ killed) as Hk.
  { intros side t r [H1 H2]%check_killable_ids. split; [done |]. intros id Hid.
    destruct (H2 id Hid) as (x & Hx & <-). by eapply order_liquidity_killable. }
  destruct ((t0 =? 0) && (t1 =? 0)); [by destruct Hres as [-> | ->] |].
  destruct (dm_solve_for_t0 m); cbn beta iota zeta in H;
    (destruct (_ <? 0); destruct (checked_sub _ _); cbn beta iota zeta in H);
    repeat (apply M_bind_Ok in H as ([? ?] & ? & H) || apply M_bind_Ok in H as (? & ? & H));
    injection H as <- <-; destruct Hres as [[= ->] | [= ->]]; by eapply Hk.
Qed.

End MatcherLemmas.

(** ** Lemmas on the search *)

Section SearchLemmas.
Context {P : Profile} {U : UniswapMath} {E : OrderEnv}.

Definition unkilled (book : OrderBook) (killed : list OrderId) : nat :=
  length (List.filter (fun o => negb (killed_contains killed (order_id o))) (all_orders book)).

(** Halvings until the interval is at most one wide. *)
Definition halvings (diff : Z) : Z := if diff <=? 1 then 0 else Z.log2 (diff - 1) + 1.

Lemma halvings_le diff : diff <= 2 ^ 256 -> 0 <= halvings diff <= 256.
Proof.
  intros H. unfold halvings. destruct (Z.leb_spec diff 1); [lia |].
  pose proof (Z.log2_nonneg (diff - 1)).
  assert (Z.log2 (diff - 1) < 256) by (apply Z.log2_lt_pow2; lia). lia.
Qed.

Lemma halvings_half diff diff' :
  2 <= diff -> diff' <= (diff + 1) / 2 -> halvings diff' + 1 <= halvings diff.
Proof.
  intros H Hd. unfold halvings. rewrite (proj2 (Z.leb_gt diff 1)) by lia.
  pose proof (Z.log2_nonneg (diff - 1)).
  destruct (Z.leb_spec diff' 1); [lia |].
  assert (diff' - 1 <= (diff - 1) / 2) as Hle.
  { replace ((diff - 1) / 2) with ((diff + 1) / 2 - 1); [lia |].
    replace (diff - 1) with (diff + 1 + (-1) * 2) by lia. rewrite Z.div_add by lia. lia. }
  assert (diff - 1 <> 1) by (intros Eq; rewrite Eq in Hle; change (1 / 2) with 0 in Hle; lia).
  apply Z.log2_le_mono in Hle. rewrite <- Z.shiftr_div_pow2 with (n := 1) in Hle by lia.
  assert (1 <= Z.log2 (diff - 1)) by (apply Z.log2_le_pow2; lia).
  rewrite Z.log2_shiftr in Hle by lia. lia.
Qed.

Lemma filter_length_lt {A} (f g : A -> bool) l x :
  (forall y, g y = true -> f y = true) -> x ∈ l -> f x = true -> g x = false ->
  (length (List.filter g l) < length (List.filter f l))%nat.
Proof.
  intros Hfg Hx Hf Hg. assert (forall k, length (List.filter g k) <= length (List.filter f k))%nat as Hle.
  { induction k as [| y k IH]; simpl; [done |]. destruct (g y) eqn:Ey.
    - rewrite (Hfg y Ey). simpl. lia.
    - destruct (f y); simpl; lia. }
  apply list_elem_of_split in Hx as (l1 & l2 & ->). rewrite !List.filter_app, !length_app. simpl.
  rewrite Hf, Hg. simpl. pose proof (Hle l1). pose proof (Hle l2). lia.
Qed.

Lemma unkilled_decreases book killed ko :
  ko <> [] -> (forall id, id ∈ ko -> killable_in (all_orders book) id /\ id ∉ killed) ->
  (unkilled book (killed_extend killed ko) < unkilled book killed)%nat.
Proof.
  intros Hne H. destruct ko as [| id ko]; [done |].
  destruct (H id (list_elem_of_here _ _)) as [(o & Ho & <- & _) Hk].
  apply (filter_length_lt _ _ _ o); [| done | |].
  - intros y. rewrite !negb_true_iff. intros Hn. destruct (killed_contains killed _) eqn:Ek; [| done].
    apply killed_contains_true in Ek.
    assert (killed_contains (killed_extend killed (order_id o :: ko)) (order_id y) = true); [| congruence].
    apply killed_contains_true, killed_extend_in. by left.
  - apply negb_true_iff, not_true_iff_false. by rewrite killed_contains_true.
  - apply negb_false_iff, killed_contains_true, killed_extend_in. right. apply list_elem_of_here.
Qed.

(** The midpoint of an interval whose bounds do not overflow when added. *)
Lemma midpoint lo hi :
  0 <= lo -> hi < 2 ^ 255 -> 2 <= hi - lo ->
  let mid := Ray.add hi lo / 2 in
  lo < mid < hi /\ hi - mid <= (hi - lo + 1) / 2 /\ mid - lo <= (hi - lo + 1) / 2.
Proof.
  intros Hlo Hhi Hd mid. unfold mid, Ray.add, uint_add, wrap_u.
  assert (2 ^ 256 = 2 * 2 ^ 255) as E256 by done.
  rewrite Z.mod_small by lia.
  pose proof (Z.div_mod (hi + lo) 2 ltac:(lia)). pose proof (Z.mod_pos_bound (hi + lo) 2 ltac:(lia)).
  pose proof (Z.div_mod (hi - lo + 1) 2 ltac:(lia)).
  pose proof (Z.mod_pos_bound (hi - lo + 1) 2 ltac:(lia)). lia.
Qed.

(** What the loop maintains: an interval inside the book's bounds, kills of
    exact book orders, and a dust solution inside the bounds. *)
Record search_inv (m : DeltaMatcher) (hi lo : Z) (s : SearchState) : Prop := {
  si_lo : lo <= se_p_min s;
  si_hi : se_p_max s <= hi;
  si_killed : forall id, id ∈ se_killed s -> killable_in (all_orders (dm_book m)) id;
  si_dust : forall e sol, se_dust s = Some (e, sol) ->
    lo < us_ucp sol < hi /\
    forall id, id ∈ us_killed sol -> killable_in (all_orders (dm_book m)) id;
}.

Definition search_measure (m : DeltaMatcher) (s : SearchState) : Z :=
  257 * Z.of_nat (unkilled (dm_book m) (se_killed s)) + halvings (se_p_max s - se_p_min s).

Lemma update_dust_inv m hi lo mid s stats res dust :
  search_inv m hi lo s -> lo < mid < hi -> update_dust m mid s stats res = Ok dust ->
  forall e sol, dust = Some (e, sol) ->
    lo < us_ucp sol < hi /\
    forall id, id ∈ us_killed sol -> killable_in (all_orders (dm_book m)) id.
Proof.
  intros [Hl Hh Hk Hd] Hmid H e sol ->. unfold update_dust in H.
  apply M_bind_Ok in H as (tl & _ & H). apply M_bind_Ok in H as (po & _ & H).
  destruct (_ && _); [| injection H as Heq; by eapply Hd].
  destruct (partial_of res) as [pf rw]. injection H as _ <-. done.
Qed.

(** One iteration: a solution inside the bounds, or a smaller search. *)
Lemma search_step_spec m hi lo s r :
  0 <= lo -> hi < 2 ^ 255 -> search_bounds (dm_book m) = Ok (hi, lo) ->
  search_inv m hi lo s -> search_continues s = true -> search_step m s = Ok r ->
  match r with
  | inl sol => lo < us_ucp sol < hi /\
      forall id, id ∈ us_killed sol -> killable_in (all_orders (dm_book m)) id
  | inr s' => search_inv m hi lo s' /\ search_measure m s' + 1 <= search_measure m s
  end.
Proof.
  intros Hlo Hhi Hb Hinv Hc H. pose proof Hinv as [Hl Hh Hk Hd].
  assert (2 <= se_p_max s - se_p_min s) as Hdiff.
  { unfold search_continues, checked_sub in Hc. destruct (Z.leb_spec (se_p_min s) (se_p_max s)); [| done].
    apply negb_true_iff, Z.leb_gt in Hc. lia. }
  destruct (midpoint (se_p_min s) (se_p_max s)) as (Hmid & Hup & Hdown); [lia | lia | done |].
  unfold search_step in H. set (mid := Ray.add (se_p_max s) (se_p_min s) / 2) in *.
  apply M_bind_Ok in H as ([stats res] & Hu & H). apply M_bind_Ok in H as (dust & Hdust & H).
  assert (lo < mid < hi) as Hin by lia.
  pose proof (update_dust_inv _ _ _ _ _ _ _ _ Hinv Hin Hdust) as Hdust'.
  assert (search_inv m hi lo (mkSearchState mid (se_p_min s) (se_killed s) dust) /\
    search_measure m (mkSearchState mid (se_p_min s) (se_killed s) dust) + 1 <= search_measure m s)
    as Hlower.
  { split; [split; simpl; [lia | lia | done | done] |]. unfold search_measure. simpl.
    pose proof (halvings_half _ _ Hdiff Hdown). lia. }
  assert (search_inv m hi lo (mkSearchState (se_p_max s) mid (se_killed s) dust) /\
    search_measure m (mkSearchState (se_p_max s) mid (se_killed s) dust) + 1 <= search_measure m s)
    as Hraise.
  { split; [split; simpl; [lia | lia | done | done] |]. unfold search_measure. simpl.
    pose proof (halvings_half _ _ Hdiff Hup). lia. }
  assert (forall ko, res = MoreSupply (Some ko) \/ res = MoreDemand (Some ko) ->
    search_inv m hi lo (mkSearchState hi lo (killed_extend (se_killed s) ko) dust) /\
    search_measure m (mkSearchState hi lo (killed_extend (se_killed s) ko) dust) + 1
      <= search_measure m s) as Hkill.
  { intros ko Hres. destruct (check_ucp_kills _ _ _ _ _ _ Hu Hres) as [Hne Hko]. split.
    - split; simpl; [lia | lia | | done].
      intros id [Hid | Hid]%killed_extend_in; [by apply Hk | by apply Hko].
    - unfold search_measure. simpl. pose proof (unkilled_decreases _ _ _ Hne Hko).
      pose proof (halvings_le (hi - lo)). assert (2 ^ 256 = 2 * 2 ^ 255) by done.
      pose proof (halvings_half _ 0 Hdiff). assert (halvings 0 = 0) by done.
      assert (0 <= (se_p_max s - se_p_min s + 1) / 2) by (apply Z.div_pos; lia). lia. }
  destruct res as [[ko |] | [ko |] | | b a r'], (se_p_max s - se_p_min s <=? 4), (dm_solve_for_t0 m);
    cbn beta iota in H; rewrite ?Hb in H; cbn [M_bind] in H; injection H as <-;
    try exact Hlower; try exact Hraise; try (apply Hkill; by left); try (apply Hkill; by right);
    split; done.
Qed.

Lemma search_loop_spec m hi lo n s :
  0 <= lo -> hi < 2 ^ 255 -> search_bounds (dm_book m) = Ok (hi, lo) ->
  search_inv m hi lo s -> search_measure m s <= Z.of_nat n ->
  search_loop n m s <> None /\
  forall sol, search_loop n m s = Some (Ok (Some sol)) ->
    lo < us_ucp sol < hi /\
    forall id, id ∈ us_killed sol -> killable_in (all_orders (dm_book m)) id.
Proof.
  intros Hlo Hhi Hb. revert s. induction n as [| n IH]; intros s Hinv Hm; cbn [search_loop];
    (destruct (search_continues s) eqn:Hc;
     [| split; [done |]; intros sol Hs; injection Hs as Hs;
        destruct (se_dust s) as [[e sol'] |] eqn:Ed; [| done]; injection Hs as ->;
        by eapply (si_dust _ _ _ _ Hinv)]).
  - exfalso. unfold search_continues, checked_sub in Hc.
    destruct (Z.leb_spec (se_p_min s) (se_p_max s)); [| done]. apply negb_true_iff, Z.leb_gt in Hc.
    unfold search_measure, halvings in Hm. rewrite (proj2 (Z.leb_gt _ _)) in Hm by lia.
    pose proof (Z.log2_nonneg (se_p_max s - se_p_min s - 1)). lia.
  - destruct (search_step m s) as [[sol | s'] | |] eqn:Hs; [| | split; done | split; done].
    + split; [done |]. intros sol' [= <-]. exact (search_step_spec _ _ _ _ _ Hlo Hhi Hb Hinv Hc Hs).
    + destruct (search_step_spec _ _ _ _ _ Hlo Hhi Hb Hinv Hc Hs) as [Hinv' Hm'].
      apply IH; [done | lia].
Qed.

End SearchLemmas.

(** ** The interval the search starts from *)

Section BoundLemmas.
Context {P : Profile} {U : UniswapMath} {E : OrderEnv}.

(** Prices are unsigned. *)
Definition prices_unsigned (l : list BookOrder) : Prop :=
  Forall (fun o => forall p, limit_price (order o) = Ok p -> 0 <= p) l.

Lemma inv_round_up_le p x : 0 <= p -> Ray.inv_ray_round p true = Ok x -> 0 <= x <= const_1e54.
Proof.
  intros Hp H. unfold Ray.inv_ray_round, Ray.invert, div_round in H.
  destruct (Z.eqb_spec p 0); [done |]. cbn [M_bind] in H. apply uint_from_Ok in H as [-> [H0 _]].
  split; [done |]. pose proof const_1e54_pos. apply div_ceil_le; nia.
Qed.

Lemma from_sqrt_le s x : 0 <= s < 2 ^ 160 -> Ray.from_sqrt s = Ok x -> 0 <= x <= 2 ^ 128 * const_1e27.
Proof.
  intros Hs H. unfold Ray.from_sqrt, Ray.convert_sqrtpricex96 in H. rewrite div_round_Ok in H by done.
  cbn [M_bind rounding] in H. apply uint_from_Ok in H as [-> [H0 _]]. split; [done |].
  unfold div_floor. apply Z.div_le_upper_bound; [done |].
  pose proof const_1e27_pos. assert (s * s <= 2 ^ 160 * 2 ^ 160) by nia.
  transitivity (2 ^ 160 * 2 ^ 160 * const_1e27); [nia |]. by vm_compute.
Qed.

Lemma highest_bounded book hi :
  prices_unsigned (ob_bids book) -> highest_clearing_price book = Ok hi -> 0 <= hi <= 2 ^ 254.
Proof.
  intros Hu H. unfold highest_clearing_price in H. apply M_bind_Ok in H as (ps & Hps & H).
  assert (const_1e54 <= 2 ^ 254) by (by vm_compute).
  assert (2 ^ 128 * const_1e27 <= 2 ^ 254) by (by vm_compute).
  destruct (max_of ps) as [p |] eqn:Em.
  - injection H as <-. destruct (max_of_ge _ _ Em) as [Hin _].
    destruct (M_map_elem _ _ _ _ Hps Hin) as (o & Ho & Ef). apply M_bind_Ok in Ef as (lp & Hlp & Ef).
    assert (0 <= lp) by (eapply Forall_forall in Hu; [by apply Hu | done]).
    pose proof (inv_round_up_le _ _ ltac:(eassumption) Ef). lia.
  - apply M_bind_Ok in H as (s & Hs & H). unfold SqrtPriceX96.from_u256 in Hs.
    apply uint_from_Ok in Hs as [-> Hs]. unfold u_max in Hs.
    assert (0 <= uint_sub 256 MAX_SQRT_RATIO 1 < 2 ^ 160) as Hr by lia.
    pose proof (from_sqrt_le _ _ Hr H). lia.
Qed.

Lemma search_bounds_spec book hi lo :
  prices_unsigned (ob_bids book) -> search_bounds book = Ok (hi, lo) ->
  0 <= lo /\ hi < 2 ^ 255 /\
  exists h l, highest_clearing_price book = Ok h /\ lowest_clearing_price book = Ok l /\
    hi = h + 1 /\ lo = Z.max 0 (l - 1).
Proof.
  intros Hu H. unfold search_bounds in H. apply M_bind_Ok in H as (h & Hh & H).
  apply M_bind_Ok in H as (l & Hl & H). injection H as <- <-.
  pose proof (highest_bounded _ _ Hu Hh) as Hb. unfold saturating_sub, saturating_add.
  assert (2 ^ 254 + 1 < 2 ^ 255) by (by vm_compute). assert (2 ^ 255 < u_max 256) by (by vm_compute).
  split; [lia |]. split; [lia |]. exists h, l. split; [done |]. split; [done |]. split; lia.
Qed.

Lemma init_inv m hi lo : search_inv m hi lo (mkSearchState hi lo [] None).
Proof. split; simpl; [lia | lia | by intros id ?%not_elem_of_nil | done]. Qed.

Lemma init_measure m hi lo :
  0 <= lo -> hi < 2 ^ 255 ->
  search_measure m (mkSearchState hi lo [] None) <= Z.of_nat (search_fuel (dm_book m)).
Proof.
  intros Hlo Hhi. unfold search_measure, search_fuel. simpl se_killed. simpl se_p_max. simpl se_p_min.
  assert (2 ^ 256 = 2 * 2 ^ 255) by done. pose proof (halvings_le (hi - lo) ltac:(lia)).
  assert (unkilled (dm_book m) [] <= length (all_orders (dm_book m)))%nat by apply List.filter_length_le.
  lia.
Qed.

End BoundLemmas.

(** ** Lemmas on outcomes *)

Section OutcomeLemmas.
Context {P : Profile} {U : UniswapMath} {E : OrderEnv}.

(** Amounts as the order types declare them. *)
Definition amounts_ok (o : BookOrder) : Prop :=
  0 <= min_amount (order o) <= amount (order o) /\ amount (order o) <= u_max 128.

(** The quantities of a partial fill: between the bounds of a partial order; an
    exact order, whose bounds are both its amount, is given a quantity at its
    own price only, and then beyond its amount, by at most that amount. *)
Definition fill_ok (ucp : Z) (o : BookOrder) (v : Z) : Prop :=
  if is_partial (order o) then min_amount (order o) <= v <= amount (order o)
  else price_t1_over_t0 (order o) = Ok ucp /\
    exists q, 0 < q <= min_amount (order o) /\ u128_add (min_amount (order o)) q = Ok v.

(** What an outcome may be: killed orders and nothing else are killed, an
    executed order's own price allows the clearing price, a better price is
    filled completely, and the quantity of a partial fill is within [fill_ok]. *)
Definition outcome_ok (sol : UcpSolution) (o : BookOrder) (out : OrderOutcome) : Prop :=
  oo_id out = order_id o /\
  (oo_outcome out = Killed <-> order_id o ∈ us_killed sol) /\
  exists p, (order_id o ∉ us_killed sol -> price_t1_over_t0 (order o) = Ok p) /\
    (is_filled (oo_outcome out) = true ->
       if osd_is_bid o then us_ucp sol <= p else p <= us_ucp sol) /\
    (order_id o ∉ us_killed sol -> (if osd_is_bid o then us_ucp sol < p else p < us_ucp sol) ->
       oo_outcome out = CompleteFill) /\
    (forall v, oo_outcome out = PartialFill v -> fill_ok (us_ucp sol) o v).

Lemma order_outcome_ok sol partials o st partials' :
  amounts_ok o -> order_outcome sol partials o = Ok (st, partials') ->
  outcome_ok sol o (mkOrderOutcome (order_id o) st).
Proof.
  intros [Hamt Hmax] H. unfold order_outcome in H.
  destruct (killed_contains (us_killed sol) (order_id o)) eqn:Ek.
  { apply killed_contains_true in Ek. injection H as <- <-.
    split; [done |]. split; [done |]. exists 0. by repeat split. }
  assert (order_id o ∉ us_killed sol) as Hnk by (rewrite <- killed_contains_true; congruence).
  apply M_bind_Ok in H as (p & Hp & H).
  assert (forall st', (st' = Killed -> False) ->
    (is_filled st' = true -> if osd_is_bid o then us_ucp sol <= p else p <= us_ucp sol) ->
    ((if osd_is_bid o then us_ucp sol < p else p < us_ucp sol) -> st' = CompleteFill) ->
    (forall v, st' = PartialFill v -> fill_ok (us_ucp sol) o v) ->
    outcome_ok sol o (mkOrderOutcome (order_id o) st')) as Hok.
  { intros st' H1 H2 H3 H4. split; [done |]. split; [simpl; naive_solver |]. exists p. auto. }
  destruct (Z.compare_spec p (us_ucp sol)) as [Hc | Hc | Hc].
  - assert (forall st', st' <> Killed -> (forall v, st' = PartialFill v -> fill_ok (us_ucp sol) o v) ->
       outcome_ok sol o (mkOrderOutcome (order_id o) st')) as Heq.
    { intros st' H1 H2. apply Hok; [done | | | done]; destruct (osd_is_bid o); lia. }
    destruct (Z.ltb_spec 0 (if osd_is_bid o then partials.1 else partials.2)) as [Hq | Hq].
    + apply M_bind_Ok in H as (mp & Hmp & H). apply M_bind_Ok in H as (res & Hres & H).
      injection H as -> <-.
      destruct (Z.ltb_spec mp (if osd_is_bid o then partials.1 else partials.2)).
      * injection Hres as <-. by apply Heq.
      * apply M_bind_Ok in Hres as (q & Hqq & Hres). injection Hres as <-. apply Heq; [done |].
        intros v [= ->]. unfold fill_ok. unfold u128_sub, u128_add in *.
        destruct (is_partial (order o)) eqn:Hpart; cycle 1.
        { split; [by rewrite <- Hc |]. eexists. split; [| exact Hqq]. assert (min_amount (order o) = mp) by congruence. lia. }
        set (pq := if osd_is_bid o then partials.1 else partials.2) in *. clearbody pq.
        rewrite checked_u_Ok in Hmp by lia.
        assert (amount (order o) - min_amount (order o) = mp) by congruence.
        rewrite checked_u_Ok in Hqq by lia.
        assert (min_amount (order o) + pq = v) by congruence. lia.
    + destruct (is_partial (order o)) eqn:Hpart; injection H as <- <-; apply Heq; try done.
      intros v Hv. unfold fill_ok. rewrite Hpart. injection Hv as Hv. change (min_amount (order o) = v) in Hv. lia.
  - destruct (osd_is_bid o) eqn:Eb; injection H as <- <-; apply Hok; try done; lia.
  - destruct (osd_is_bid o) eqn:Eb; injection H as <- <-; apply Hok; try done; lia.
Qed.

Lemma outcomes_ok sol partials l r :
  Forall amounts_ok l ->
  outcomes sol partials l = Ok r -> Forall2 (outcome_ok sol) l r.
Proof.
  revert partials r. induction l as [| o l IH]; intros partials r Hl H; simpl in H.
  - injection H as <-. constructor.
  - apply Forall_cons in Hl as [Ho Hl]. apply M_bind_Ok in H as ([st ps] & Hs & H).
    apply M_bind_Ok in H as (rest & Hr & H). injection H as <-.
    constructor; [exact (order_outcome_ok _ _ _ _ _ Ho Hs) |]. by eapply IH.
Qed.

End OutcomeLemmas.

(** ** Lemmas on the balance at one price *)

Section BalanceLemmas.
Context {P : Profile} {U : UniswapMath} {E : OrderEnv}.

Definition slack_ok (ol : OrderLiquidity) : Prop :=
  (u128 (ol_bid_slack ol).1 /\ u128 (ol_bid_slack ol).2) /\
  (u128 (ol_ask_slack ol).1 /\ u128 (ol_ask_slack ol).2).

Lemma u128_add_range x y z : u128_add x y = Ok z -> u128 z.
Proof. apply checked_u_range. lia. Qed.

Lemma add_order_slack m price acc o acc' :
  slack_ok acc -> add_order m price acc o = Ok acc' -> slack_ok acc'.
Proof.
  intros Hs H. unfold add_order in H.
  destruct (order_range price o) as [[[mn mx] k] | |]; cbn [M_bind] in H; try done.
  destruct (get_amount_in_out o mn _ _) as [[a b] | |]; cbn [M_bind] in H; try done.
  destruct (osd_is_bid o); apply M_bind_Ok in H as (n0 & _ & H); apply M_bind_Ok in H as (n1 & _ & H);
    (destruct mx as [f |]; [| by injection H as <-]);
    (destruct (get_amount_in_out o f _ _) as [[c d] | |]; cbn [M_bind] in H; try done);
    apply M_bind_Ok in H as (s0 & _ & H); apply M_bind_Ok in H as (s1 & _ & H);
    apply M_bind_Ok in H as (z0 & Hz0%u128_add_range & H);
    apply M_bind_Ok in H as (z1 & Hz1%u128_add_range & H); injection H as <-;
    destruct Hs as [[? ?] [? ?]]; (split; split; done).
Qed.

Lemma order_liquidity_slack m price killed ol :
  order_liquidity m price killed = Ok ol -> slack_ok ol.
Proof.
  intros H. unfold order_liquidity in H.
  apply M_bind_Ok in H as (bids & _ & H). apply M_bind_Ok in H as (asks & _ & H).
  assert (slack_ok (mkOrderLiquidity 0 0 (0, 0) (0, 0) [])) as Hacc
    by (repeat split; vm_compute; discriminate).
  revert Hacc H. generalize (mkOrderLiquidity 0 0 (0, 0) (0, 0) []) as acc.
  induction (List.filter _ _) as [| o l IH]; intros acc Hacc H; simpl in H; [by injection H as <- |].
  apply M_bind_Ok in H as (acc' & Ho & H). apply (IH acc'); [by eapply add_order_slack | done].
Qed.

End BalanceLemmas.

(** ** Properties *)

(** C1: The search for a clearing price terminates on every book: each iteration
    either halves the price interval or kills at least one exact order that was
    still alive, so the iteration bound is never reached. *)
Theorem search_terminates (P : Profile) (U : UniswapMath) (E : OrderEnv) m hi lo :
  prices_unsigned (ob_bids (dm_book m)) -> search_bounds (dm_book m) = Ok (hi, lo) ->
  search_loop (search_fuel (dm_book m)) m (mkSearchState hi lo [] None) <> None.
Proof.
  intros Hu Hb. destruct (search_bounds_spec _ _ _ Hu Hb) as (Hlo & Hhi & _).
  apply (search_loop_spec m hi lo); [done | done | done | apply init_inv | by apply init_measure].
Qed.

(** C11: A clearing price the matcher settles on (dust solutions included) lies
    between the lowest ask and the highest bid of the book, and the orders it
    kills on the way are exact orders of the book. *)
Theorem clearing_price_in_book (P : Profile) (U : UniswapMath) (E : OrderEnv) m sol :
  prices_unsigned (ob_bids (dm_book m)) -> solve_clearing_price m = Ok (Some sol) ->
  (exists h l, highest_clearing_price (dm_book m) = Ok h /\ lowest_clearing_price (dm_book m) = Ok l /\
     l <= us_ucp sol <= h) /\
  (forall id, id ∈ us_killed sol ->
     exists o, o ∈ all_orders (dm_book m) /\ order_id o = id /\ is_partial (order o) = false).
Proof.
  intros Hu H. unfold solve_clearing_price in H. apply M_bind_Ok in H as ([hi lo] & Hb & H).
  destruct (search_bounds_spec _ _ _ Hu Hb) as (Hlo & Hhi & h & l & Eh & El & -> & ->).
  destruct (search_loop _ _ _) as [r |] eqn:Es; [| done]. subst r.
  destruct (search_loop_spec m (h + 1) (Z.max 0 (l - 1)) _ _ Hlo Hhi Hb (init_inv _ _ _)
              (init_measure _ _ _ Hlo Hhi)) as [_ Hsol].
  destruct (Hsol sol Es) as [Hucp Hk]. split; [| exact Hk].
  exists h, l. split; [done |]. split; [done |]. lia.
Qed.

(** C2: The solution of a pool gives one outcome per order of the book, in the
    book's order, and respects every limit: an executed bid has a price at or
    above the clearing price, an executed ask one at or below it. A quantity is
    given to a partial order between its minimum and its maximum, and to an
    exact order only when its price is the clearing price; that quantity exceeds
    the exact order's amount, by at most the amount itself
    ([exact_order_overfilled] reaches such a fill). *)
Theorem solution_respects_limits (P : Profile) (U : UniswapMath) (E : OrderEnv) m searcher s :
  Forall amounts_ok (all_orders (dm_book m)) -> solution m searcher = Ok s ->
  Forall2 (fun o out =>
    oo_id out = order_id o /\
    (outcome_is_filled out = true -> exists p, price_t1_over_t0 (order o) = Ok p /\
       (if osd_is_bid o then sol_ucp s <= p else p <= sol_ucp s)) /\
    (forall v, oo_outcome out = PartialFill v -> fill_ok (sol_ucp s) o v))
    (all_orders (dm_book m)) (sol_limit s).
Proof.
  intros Hamt H. unfold solution in H. apply M_bind_Ok in H as (found & _ & H).
  destruct found as [sol |].
  - apply M_bind_Ok in H as (limit & Hl & H). apply M_bind_Ok in H as (amm & _ & H).
    pose proof (outcomes_ok _ _ _ _ Hamt Hl) as Hok.
    destruct (existsb outcome_is_filled limit) eqn:Eex; injection H as <-; simpl.
    + eapply Forall2_impl; [exact Hok |]. intros o out (Hid & Hk & p & Hp & Hf & _ & Hv).
      split; [done |]. split; [| done]. intros Hfill. exists p. split; [| by apply Hf].
      apply Hp. intros Hin. apply Hk in Hin. unfold outcome_is_filled in Hfill. by rewrite Hin in Hfill.
    + assert (Forall (fun out => outcome_is_filled out = false) limit) as Hno.
      { apply Forall_forall. intros out Hout. apply not_true_iff_false. intros Hf.
        apply not_true_iff_false in Eex. apply Eex, existsb_exists. exists out.
        by rewrite <- list_elem_of_In. }
      clear Hl Hamt Eex. revert Hno. induction Hok as [| o out os outs (Hid & _ & p & _ & _ & _ & Hv) Hok IH];
        intros Hno; [constructor |]. apply Forall_cons in Hno as [Hn Hno].
      constructor; [| by apply IH]. split; [done |]. split; [by rewrite Hn |]. intros v Hfill.
      unfold outcome_is_filled in Hn. by rewrite Hfill in Hn.
  - injection H as <-. simpl. induction (all_orders (dm_book m)) as [| o l IH]; simpl; constructor.
    + by split.
    + apply IH. by apply Forall_cons in Hamt as [_ ?].
Qed.

(** C14: When the matcher balances a price with partial fills (solving for T1, as
    the node does), T1 balances exactly: the T1 it takes from bids and gives to
    asks stays within the slack of each side and cancels the excess to zero,
    and the fill of the asks is that T1 converted at the clearing price. *)
Theorem partial_fill_balances (P : Profile) (U : UniswapMath) (E : OrderEnv)
    m price killed stats b a r :
  dm_solve_for_t0 m = false ->
  check_ucp m price killed = Ok (stats, PartialFillEq b a r) ->
  - u_max 128 <= cs_amm_t1 stats + cs_order_t1 stats <= u_max 128 ->
  exists x, 0 <= b <= (cs_order_bid_slack stats).2 /\ 0 <= x <= (cs_order_ask_slack stats).2 /\
    Ray.inverse_quantity price x false = Ok a /\
    cs_amm_t1 stats + cs_order_t1 stats + b - x = 0.
Proof.
  intros Ht0 H. unfold check_ucp in H. rewrite Ht0 in H.
  apply M_bind_Ok in H as ([a0 a1] & _ & H). apply M_bind_Ok in H as (ol & Hol & H).
  apply M_bind_Ok in H as (t0 & _ & H). apply M_bind_Ok in H as (t1 & Ht1 & H).
  destruct (order_liquidity_slack _ _ _ _ Hol) as [[_ [Hb0 Hb]] [_ [Ha0 Ha]]].
  destruct ((t0 =? 0) && (t1 =? 0)); [done |]. cbn beta iota zeta in H.
  assert (u_max 128 <= i_max 256) by (by vm_compute).
  assert (i_min 256 <= - u_max 128) by (by vm_compute). unfold checked_sub in H.
  destruct (Z.ltb_spec t1 0) as [Hneg | Hpos].
  - destruct (Z.leb_spec (saturate_u 128 (Z.abs t1)) (ol_bid_slack ol).2) as [Hle | Hle];
      [| by repeat (apply M_bind_Ok in H as ([? ?] & ? & H) || apply M_bind_Ok in H as (? & ? & H))].
    apply M_bind_Ok in H as (inv & _ & H). apply M_bind_Ok in H as (cost & _ & H).
    apply M_bind_Ok in H as (rw & _ & H). apply M_bind_Ok in H as (bb & Hbb & H).
    apply M_bind_Ok in H as (aa & Haa & H). injection H as <- <- <- <-. simpl. intros Hsum.
    unfold i256_add in Ht1. rewrite checked_i_Ok in Ht1 by lia. injection Ht1 as <-.
    unfold saturate_u in *. rewrite Z.min_r in * by lia.
    unfold u128_add in Hbb. rewrite checked_u_Ok in Hbb by lia. injection Hbb as <-.
    eexists. split; [| split; [| split; [exact Haa |]]]; lia.
  - destruct (Z.leb_spec (saturate_u 128 (Z.abs t1)) (ol_ask_slack ol).2) as [Hle | Hle];
      [| by repeat (apply M_bind_Ok in H as ([? ?] & ? & H) || apply M_bind_Ok in H as (? & ? & H))].
    apply M_bind_Ok in H as (gain & _ & H). apply M_bind_Ok in H as (ft & _ & H).
    apply M_bind_Ok in H as (rw & _ & H). apply M_bind_Ok in H as (ss & Hss & H).
    apply M_bind_Ok in H as (aa & Haa & H). injection H as <- <- <- <-. simpl. intros Hsum.
    unfold i256_add in Ht1. rewrite checked_i_Ok in Ht1 by lia. injection Ht1 as <-.
    unfold saturate_u in *. rewrite (Z.min_r (u_max 128)) in * by lia.
    unfold u128_add in Hss. rewrite checked_u_Ok in Hss by lia. injection Hss as <-.
    eexists. split; [| split; [| split; [exact Haa |]]]; lia.
Qed.

(** An exact order priced exactly at the clearing price is weighed and reported
    inconsistently: its whole amount enters the balance at that price as a
    mandatory fill, yet with no partial quantity left its outcome is unfilled. *)
Theorem exact_at_price_unfilled (P : Profile) (U : UniswapMath) (E : OrderEnv) sol partials o :
  order_id o ∉ us_killed sol -> is_partial (order o) = false ->
  price_t1_over_t0 (order o) = Ok (us_ucp sol) ->
  (if osd_is_bid o then partials.1 else partials.2) = 0 ->
  order_range (us_ucp sol) o = Ok (amount (order o), None, true) /\
  order_outcome sol partials o = Ok (Unfilled, partials).
Proof.
  intros Hk Hp Hpr Hq. unfold order_range, order_outcome. rewrite Hpr. cbn [M_bind].
  rewrite Z.eqb_refl, Hp. split; [done |].
  assert (killed_contains (us_killed sol) (order_id o) = false) as ->
    by (apply not_true_iff_false; by rewrite killed_contains_true).
  rewrite Z.compare_refl, Hq. done.
Qed.

(** With surplus T1 that the asks cannot drain while the bids have even more
    slack, the kill target of the surplus branch is computed from the wrong
    side's slack and underflows: with overflow checks the matcher panics. *)
Theorem surplus_target_underflows (U : UniswapMath) (E : OrderEnv) m price killed a0 a1 ol :
  dm_solve_for_t0 m = false ->
  @fetch_concentrated_liquidity dev U m price = Ok (a0, a1) ->
  @order_liquidity dev E m price killed = Ok ol ->
  i_min 256 <= a0 + ol_net_t0 ol <= i_max 256 ->
  0 < a1 + ol_net_t1 ol <= u_max 128 ->
  (ol_ask_slack ol).2 < a1 + ol_net_t1 ol < (ol_bid_slack ol).2 ->
  @check_ucp dev U E m price killed = Panic.
Proof.
  intros Ht0 Hf Ho H0 H1 Hs. unfold check_ucp. rewrite Hf, Ho, Ht0. cbn [M_bind].
  assert (u_max 128 <= i_max 256) by (by vm_compute). assert (i_min 256 <= 0) by (by vm_compute).
  unfold i256_add. rewrite !checked_i_Ok by lia. cbn [M_bind].
  destruct (Z.eqb_spec (a1 + ol_net_t1 ol) 0); [lia |]. rewrite andb_false_r.
  destruct (Z.ltb_spec (a1 + ol_net_t1 ol) 0); [lia |].
  unfold checked_sub, saturate_u. rewrite Z.min_r by lia.
  rewrite (proj2 (Z.leb_gt _ _)) by lia. unfold u128_sub, checked_u.
  assert (fits_u 128 (Z.abs (a1 + ol_net_t1 ol) - (ol_bid_slack ol).2) = false) as ->; [| done].
  apply not_true_iff_false. rewrite fits_u_true. lia.
Qed.

(** ** Evaluation *)

#[local] Existing Instance toy_env.

(** The bounds of [uniswap_v3_math]. *)
Definition uniswap_bounds : UniswapMath :=
  bounds_only 4295128739 1461446703485210103287273052203988822378723970342.

Definition ray_one : Z := 1000000000000000000000000000.

Definition demo_exact (bid : bool) (h price amt : Z) : BookOrder :=
  mkOrderWithStorageData
    (ExactStanding (mkExactStandingOrder 0 true amt 0 price false (if bid then 2 else 1)
       (if bid then 1 else 2) 0 [] 0 0 (mkOrderMeta true 1 [])))
    (mkOrderPriorityData price amt 0 0) [] 9 None bid true 1 (demo_id h) 0.

Definition demo_partial (bid : bool) (h price mn mx : Z) : BookOrder :=
  mkOrderWithStorageData
    (PartialStanding (mkPartialStandingOrder 0 mn mx 0 price false (if bid then 2 else 1)
       (if bid then 1 else 2) 0 [] 0 0 (mkOrderMeta true 1 [])))
    (mkOrderPriorityData price mx 0 0) [] 9 None bid true 1 (demo_id h) 0.

(** A bid for 10 to 100 at one, against an exact ask of 60 at one half. *)
Definition demo_book : OrderBook :=
  @OrderBook_new toy_env 9 None [demo_partial true 1 ray_one 10 100]
    [demo_exact false 2 500000000000000000000000000 60] (Some PricePartialVolume).
Definition demo_matcher : DeltaMatcher := mkDeltaMatcher demo_book 0 false None.

Lemma demo_prices : @prices_unsigned toy_env (ob_bids demo_book).
Proof. constructor; [| constructor]. intros p Hp. injection Hp as <-. by vm_compute. Defined.

Lemma demo_amounts : Forall (@amounts_ok toy_env) (all_orders demo_book).
Proof. repeat constructor; vm_compute; discriminate. Defined.

Lemma search_terminates_witness :
  exists hi lo, @search_bounds uniswap_bounds toy_env demo_book = Ok (hi, lo) /\
    @search_loop dev uniswap_bounds toy_env (search_fuel demo_book) demo_matcher
      (mkSearchState hi lo [] None) <> None.
Proof.
  eexists _, _. split; [vm_compute; reflexivity |].
  apply (search_terminates dev uniswap_bounds toy_env demo_matcher);
    [exact demo_prices | vm_compute; reflexivity].
Defined.

Definition demo_solution : UcpSolution :=
  match @solve_clearing_price dev uniswap_bounds toy_env demo_matcher with
  | Ok (Some s) => s
  | _ => mkUcpSolution 0 [] None 0
  end.

Lemma clearing_price_in_book_witness :
  us_ucp demo_solution = ray_one /\
  exists h l, @highest_clearing_price uniswap_bounds toy_env demo_book = Ok h /\
    @lowest_clearing_price uniswap_bounds toy_env demo_book = Ok l /\
    l <= us_ucp demo_solution <= h.
Proof.
  split; [vm_compute; reflexivity |].
  apply (clearing_price_in_book dev uniswap_bounds toy_env demo_matcher demo_solution);
    [exact demo_prices | vm_compute; reflexivity].
Defined.

Definition demo_pool_solution : PoolSolution :=
  match @solution dev uniswap_bounds toy_env demo_matcher None with
  | Ok s => s
  | _ => mkPoolSolution 0 0 None None [] 0 0
  end.

Lemma solution_respects_limits_witness :
  map oo_outcome (sol_limit demo_pool_solution) = [PartialFill 60; CompleteFill] /\
  Forall2 (fun o out =>
    oo_id out = order_id o /\
    (outcome_is_filled out = true ->
       exists p, price_t1_over_t0 (order o) = Ok p /\
       (if osd_is_bid o then sol_ucp demo_pool_solution <= p else p <= sol_ucp demo_pool_solution)) /\
    (forall v, oo_outcome out = PartialFill v ->
       @fill_ok dev toy_env (sol_ucp demo_pool_solution) o v))
    (all_orders demo_book) (sol_limit demo_pool_solution).
Proof.
  split; [vm_compute; reflexivity |].
  apply (solution_respects_limits dev uniswap_bounds toy_env demo_matcher None demo_pool_solution);
    [exact demo_amounts | vm_compute; reflexivity].
Defined.

(** An exact bid of 60 and a partial bid of up to 100, both at one, against an
    exact ask of 100 at one half: the exact bid is filled for 100. *)
Lemma exact_order_overfilled :
  let book := @OrderBook_new toy_env 9 None
    [demo_exact true 1 ray_one 60; demo_partial true 2 ray_one 0 100]
    [demo_exact false 3 500000000000000000000000000 100] (Some PricePartialVolume) in
  exists s, @run_strategy dev uniswap_bounds toy_env book None = Ok s /\
    sol_ucp s = ray_one /\
    combine (map (fun o => (osd_is_bid o, is_partial (order o), amount (order o))) (all_orders book))
      (map oo_outcome (sol_limit s))
    = [(true, false, 60, PartialFill 100); (true, true, 100, PartialFill 0);
       (false, false, 100, CompleteFill)].
Proof. eexists. split; [vm_compute; reflexivity |]. split; vm_compute; reflexivity. Qed.

Lemma partial_fill_balances_witness :
  exists stats b a r,
    @check_ucp dev uniswap_bounds toy_env demo_matcher ray_one [] = Ok (stats, PartialFillEq b a r) /\
    b = 50 /\
    exists x, 0 <= b <= (cs_order_bid_slack stats).2 /\ 0 <= x <= (cs_order_ask_slack stats).2 /\
      Ray.inverse_quantity ray_one x false = Ok a /\
      cs_amm_t1 stats + cs_order_t1 stats + b - x = 0.
Proof.
  eexists _, _, _, _. split; [vm_compute; reflexivity |]. split; [reflexivity |].
  eapply (partial_fill_balances dev uniswap_bounds toy_env demo_matcher ray_one []);
    [reflexivity | vm_compute; reflexivity | vm_compute; split; discriminate].
Defined.

(** A partial bid of up to 100 and an exact ask of 80, both at one: the bid is
    filled for 80 while the ask that supplies it stays unfilled. *)
Lemma exact_at_price_unfilled_witness :
  let book := @OrderBook_new toy_env 9 None [demo_partial true 1 ray_one 0 100]
                [demo_exact false 2 ray_one 80] (Some PricePartialVolume) in
  (exists s, @run_strategy dev uniswap_bounds toy_env book None = Ok s /\
     map oo_outcome (sol_limit s) = [PartialFill 80; Unfilled]) /\
  @order_outcome dev toy_env (mkUcpSolution ray_one [] (Some (80, 0)) 0) (0, 0)
    (demo_exact false 2 ray_one 80) = Ok (Unfilled, (0, 0)).
Proof.
  split; [eexists; split; vm_compute; reflexivity |].
  apply (exact_at_price_unfilled dev uniswap_bounds toy_env
           (mkUcpSolution ray_one [] (Some (80, 0)) 0) (0, 0) (demo_exact false 2 ray_one 80)).
  - apply (bool_decide_unpack _). vm_compute. exact I.
  - reflexivity.
  - vm_compute. reflexivity.
  - reflexivity.
Defined.

(** A bid paying 100 at price two, a partial bid of up to 1000 at one and a
    tiny ask: at price one the bids bring surplus T1. *)
Lemma surplus_target_underflows_witness :
  let book := @OrderBook_new toy_env 9 None
    [demo_exact true 1 500000000000000000000000000 100; demo_partial true 2 ray_one 0 1000]
    [demo_exact false 3 1 1] (Some PricePartialVolume) in
  let m := mkDeltaMatcher book 0 false None in
  @check_ucp dev uniswap_bounds toy_env m ray_one [] = Panic /\
  @run_strategy dev uniswap_bounds toy_env book None = Panic.
Proof.
  split; [| vm_compute; reflexivity].
  eapply (surplus_target_underflows uniswap_bounds toy_env);
    [reflexivity | vm_compute; reflexivity | vm_compute; reflexivity
    | vm_compute; split; discriminate | vm_compute; split; [reflexivity | discriminate]
    | vm_compute; split; reflexivity].
Defined.
