(* ===== verification/Assets.v ===== *)
(** * Asset accounting of a bundle

    crates/types/src/contract_payloads/asset/{state,builder,mod}.rs: for every
    token of a bundle, what is taken from Uniswap, settled back, kept, and moved
    through the contract, stage by stage (pool swaps, rewards, top of block, user
    orders), and the ordered array of assets the contract receives. *)

From S2P Require Import Prelude.

Record Asset := mkAsset {
  asset_addr : Z;
  asset_save : Z;
  asset_take : Z;
  asset_settle : Z;
}.

(** ** One token in one stage (state.rs) *)

Record BorrowStateTracker := mkBorrowStateTracker {
  bs_take : Z;
  bs_contract_liquid : Z;
  bs_settle : Z;
  bs_save : Z;
}.

Definition BorrowStateTracker_new : BorrowStateTracker := mkBorrowStateTracker 0 0 0 0.

Module Tracker.
Section Tracker.
Context {P : Profile}.

Definition loan (s : BorrowStateTracker) (q : Z) : M BorrowStateTracker :=
  let* take := u128_add (bs_take s) q in
  let* settle := u128_add (bs_settle s) q in
  Ok (mkBorrowStateTracker take (bs_contract_liquid s) settle (bs_save s)).

Definition allocate (s : BorrowStateTracker) (q : Z) : M BorrowStateTracker :=
  let* s' := if bs_contract_liquid s <? q then
               let* needed_borrow := u128_sub q (bs_contract_liquid s) in
               loan s needed_borrow
             else Ok s in
  Ok (mkBorrowStateTracker (bs_take s') (saturating_sub (bs_contract_liquid s') q)
        (bs_settle s') (bs_save s')).

Definition owe (s : BorrowStateTracker) (q : Z) : M BorrowStateTracker :=
  let* settle := u128_add (bs_settle s) q in
  Ok (mkBorrowStateTracker (bs_take s) (bs_contract_liquid s) settle (bs_save s)).

Definition reward (s : BorrowStateTracker) (q : Z) : M BorrowStateTracker :=
  let* take := u128_add (bs_take s) q in
  Ok (mkBorrowStateTracker take (bs_contract_liquid s) (bs_settle s) (bs_save s)).

Definition take (s : BorrowStateTracker) (q : Z) : M BorrowStateTracker :=
  let* take := u128_add (bs_take s) q in
  let* liq := u128_add (bs_contract_liquid s) q in
  Ok (mkBorrowStateTracker take liq (bs_settle s) (bs_save s)).

Definition recieve (s : BorrowStateTracker) (q : Z) : M BorrowStateTracker :=
  let* liq := u128_add (bs_contract_liquid s) q in
  Ok (mkBorrowStateTracker (bs_take s) liq (bs_settle s) (bs_save s)).

Definition add_gas_fee (s : BorrowStateTracker) (q : Z) : M BorrowStateTracker :=
  let* save := u128_add (bs_save s) q in
  Ok (mkBorrowStateTracker (bs_take s) (bs_contract_liquid s) (bs_settle s) save).

Definition and_then (s other : BorrowStateTracker) : M BorrowStateTracker :=
  let* borrow_needed :=
    u128_add (bs_take s) (saturating_sub (bs_take other) (bs_contract_liquid s)) in
  let* amount_onhand :=
    u128_add (saturating_sub (bs_contract_liquid s) (bs_take other)) (bs_contract_liquid other) in
  let* amount_owed :=
    u128_add (bs_settle s) (saturating_sub (bs_settle other) (bs_contract_liquid s)) in
  let* amount_save := u128_add (bs_save s) (bs_save other) in
  Ok (mkBorrowStateTracker borrow_needed amount_onhand amount_owed amount_save).

(** The body of [StageTracker::collect_extra]. *)
Definition collect_extra (s : BorrowStateTracker) : M BorrowStateTracker :=
  let extra_liquidity := saturating_sub (bs_contract_liquid s) (bs_settle s) in
  let* save := u128_add (bs_save s) extra_liquidity in
  Ok (mkBorrowStateTracker (bs_take s) 0 (bs_settle s) save).

End Tracker.
End Tracker.

(** ** All tokens of one stage *)

Abbreviation StageTracker := (gmap Z BorrowStateTracker) (only parsing).

Module Stage.
Section Stage.
Context {P : Profile}.

(** [entry(addr).or_default()] followed by an update. *)
Definition get_state (m : StageTracker) (addr : Z) : BorrowStateTracker :=
  default BorrowStateTracker_new (m !! addr).
Definition update (m : StageTracker) (addr : Z)
    (f : BorrowStateTracker -> M BorrowStateTracker) : M StageTracker :=
  let* s := f (get_state m addr) in Ok (<[addr := s]> m).

Definition stage_add_gas_fee (m : StageTracker) (asset qty : Z) : M StageTracker :=
  update m asset (fun s => Tracker.add_gas_fee s qty).

Definition uniswap_swap (m : StageTracker) (asset_in asset_out quantity_in quantity_out : Z) :
    M StageTracker :=
  let* m := update m asset_in (fun s => Tracker.owe s quantity_in) in
  update m asset_out (fun s => Tracker.take s quantity_out).

Definition external_swap (m : StageTracker) (asset_in asset_out quantity_in quantity_out : Z) :
    M StageTracker :=
  let* m := update m asset_in (fun s => Tracker.recieve s quantity_in) in
  update m asset_out (fun s => Tracker.allocate s quantity_out).

Definition stage_allocate (m : StageTracker) (asset q : Z) : M StageTracker :=
  update m asset (fun s => Tracker.allocate s q).

Definition tribute (m : StageTracker) (asset q : Z) : M StageTracker :=
  update m asset (fun s => Tracker.reward s q).

Definition stage_and_then (m other : StageTracker) : M StageTracker :=
  M_fold (fun acc p =>
            match acc !! p.1 with
            | Some e => let* s := Tracker.and_then e p.2 in Ok (<[p.1 := s]> acc)
            | None => Ok (<[p.1 := p.2]> acc)
            end) m (map_to_list other).

Definition stage_collect_extra (m : StageTracker) : M StageTracker :=
  M_fold (fun acc p => let* s := Tracker.collect_extra p.2 in Ok (<[p.1 := s]> acc))
    ∅ (map_to_list m).

End Stage.
End Stage.

(** ** The array of assets (asset/mod.rs) *)

Record AssetArray := mkAssetArray {
  aa_assets : list Asset;
  aa_assets_idx : gmap Z nat;
}.

Definition AssetArray_new : AssetArray := mkAssetArray [] ∅.

Definition get_asset_addr (a : AssetArray) (idx : nat) : Z :=
  match aa_assets a !! idx with Some x => asset_addr x | None => 0 end.

Definition addr_le (x y : Asset) : Prop := Is_true (asset_addr x <=? asset_addr y).

#[export] Instance addr_le_dec : RelDecision addr_le.
Proof. unfold addr_le. intros x y. apply _. Defined.

(** [sort_unstable_by_key] by address, then every index is rewritten. *)
Definition order_assets_properly (a : AssetArray) : AssetArray :=
  let assets := merge_sort addr_le (aa_assets a) in
  mkAssetArray assets
    (fold_left (fun m p => <[asset_addr p.2 := p.1]> m) (imap pair assets) (aa_assets_idx a)).

Definition add_or_get_asset_idx (a : AssetArray) (asset : Z) : nat * AssetArray :=
  match aa_assets_idx a !! asset with
  | Some i => (i, a)
  | None =>
      let assets := aa_assets a ++ [mkAsset asset 0 0 0] in
      ((length assets - 1)%nat,
       mkAssetArray assets (<[asset := (length assets - 1)%nat]> (aa_assets_idx a)))
  end.

(** ** The builder (builder.rs) *)

Inductive AssetBuilderStage := StageSwap | StageReward | StageTopOfBlock | StageUserOrder.

Record AssetBuilder := mkAssetBuilder {
  ab_swaps : StageTracker;
  ab_rewards : StageTracker;
  ab_top_of_block : StageTracker;
  ab_user_orders : StageTracker;
  ab_assets : AssetArray;
}.

Definition AssetBuilder_new : AssetBuilder := mkAssetBuilder ∅ ∅ ∅ ∅ AssetArray_new.

Module Builder.
Section Builder.
Context {P : Profile}.

Definition get_stage (b : AssetBuilder) (s : AssetBuilderStage) : StageTracker :=
  match s with
  | StageSwap => ab_swaps b
  | StageReward => ab_rewards b
  | StageTopOfBlock => ab_top_of_block b
  | StageUserOrder => ab_user_orders b
  end.

Definition set_stage (b : AssetBuilder) (s : AssetBuilderStage) (m : StageTracker) : AssetBuilder :=
  match s with
  | StageSwap => mkAssetBuilder m (ab_rewards b) (ab_top_of_block b) (ab_user_orders b) (ab_assets b)
  | StageReward => mkAssetBuilder (ab_swaps b) m (ab_top_of_block b) (ab_user_orders b) (ab_assets b)
  | StageTopOfBlock => mkAssetBuilder (ab_swaps b) (ab_rewards b) m (ab_user_orders b) (ab_assets b)
  | StageUserOrder => mkAssetBuilder (ab_swaps b) (ab_rewards b) (ab_top_of_block b) m (ab_assets b)
  end.

Definition on_stage (b : AssetBuilder) (s : AssetBuilderStage)
    (f : StageTracker -> M StageTracker) : M AssetBuilder :=
  let* m := f (get_stage b s) in Ok (set_stage b s m).

Definition builder_uniswap_swap (b : AssetBuilder) (s : AssetBuilderStage)
    (asset_in asset_out : nat) (quantity_in quantity_out : Z) : M AssetBuilder :=
  on_stage b s (fun m => Stage.uniswap_swap m (get_asset_addr (ab_assets b) asset_in)
                           (get_asset_addr (ab_assets b) asset_out) quantity_in quantity_out).

Definition uniswap_swap_raw (b : AssetBuilder) (s : AssetBuilderStage)
    (asset_in asset_out quantity_in quantity_out : Z) : M AssetBuilder :=
  on_stage b s (fun m => Stage.uniswap_swap m asset_in asset_out quantity_in quantity_out).

Definition builder_external_swap (b : AssetBuilder) (s : AssetBuilderStage)
    (asset_in asset_out quantity_in quantity_out : Z) : M AssetBuilder :=
  on_stage b s (fun m => Stage.external_swap m asset_in asset_out quantity_in quantity_out).

Definition builder_add_gas_fee (b : AssetBuilder) (s : AssetBuilderStage) (asset qty : Z) :
    M AssetBuilder :=
  on_stage b s (fun m => Stage.stage_add_gas_fee m asset qty).

Definition builder_allocate (b : AssetBuilder) (s : AssetBuilderStage) (asset quantity : Z) :
    M AssetBuilder :=
  on_stage b s (fun m => Stage.stage_allocate m asset quantity).

Definition builder_tribute (b : AssetBuilder) (s : AssetBuilderStage) (asset quantity : Z) :
    M AssetBuilder :=
  on_stage b s (fun m => Stage.tribute m asset quantity).

Definition add_or_get_asset (b : AssetBuilder) (asset : Z) : nat * AssetBuilder :=
  let (i, a) := add_or_get_asset_idx (ab_assets b) asset in
  (i, mkAssetBuilder (ab_swaps b) (ab_rewards b) (ab_top_of_block b) (ab_user_orders b) a).

Definition combined_assets (b : AssetBuilder) : M StageTracker :=
  let* m := Stage.stage_and_then (ab_swaps b) (ab_rewards b) in
  let* m := Stage.stage_and_then m (ab_top_of_block b) in
  let* m := Stage.stage_and_then m (ab_user_orders b) in
  Stage.stage_collect_extra m.

Definition get_asset_array (b : AssetBuilder) : M (list Asset) :=
  let* combined := combined_assets b in
  Ok (map (fun a => match combined !! asset_addr a with
                    | Some t => mkAsset (asset_addr a) (bs_save t) (bs_take t) (bs_settle t)
                    | None => a
                    end) (aa_assets (ab_assets b))).

End Builder.
End Builder.

(** ** Operations as data, and their unbounded reference *)

Inductive TrackerOp :=
| OAllocate (q : Z)
| OOwe (q : Z)
| OTake (q : Z)
| ORecieve (q : Z)
| OGas (q : Z).

Definition op_q (o : TrackerOp) : Z :=
  match o with OAllocate q | OOwe q | OTake q | ORecieve q | OGas q => q end.

(** Operations that do not touch a Uniswap pool. *)
Definition external (o : TrackerOp) : bool :=
  match o with OOwe _ | OTake _ => false | _ => true end.

Definition apply_op {P : Profile} (o : TrackerOp) (s : BorrowStateTracker) : M BorrowStateTracker :=
  match o with
  | OAllocate q => Tracker.allocate s q
  | OOwe q => Tracker.owe s q
  | OTake q => Tracker.take s q
  | ORecieve q => Tracker.recieve s q
  | OGas q => Tracker.add_gas_fee s q
  end.

Definition run_stage {P : Profile} (ops : list (Z * TrackerOp)) (m : StageTracker) : M StageTracker :=
  M_fold (fun m p => Stage.update m p.1 (apply_op p.2)) m ops.

Definition op_pure (o : TrackerOp) (s : BorrowStateTracker) : BorrowStateTracker :=
  let '(mkBorrowStateTracker t l d v) := s in
  match o with
  | OAllocate q => mkBorrowStateTracker (t + Z.max 0 (q - l)) (Z.max 0 (l - q)) (d + Z.max 0 (q - l)) v
  | OOwe q => mkBorrowStateTracker t l (d + q) v
  | OTake q => mkBorrowStateTracker (t + q) (l + q) d v
  | ORecieve q => mkBorrowStateTracker t (l + q) d v
  | OGas q => mkBorrowStateTracker t l d (v + q)
  end.

Definition run_pure (ops : list TrackerOp) (s : BorrowStateTracker) : BorrowStateTracker :=
  fold_left (fun s o => op_pure o s) ops s.

Definition and_then_pure (s o : BorrowStateTracker) : BorrowStateTracker :=
  mkBorrowStateTracker
    (bs_take s + Z.max 0 (bs_take o - bs_contract_liquid s))
    (Z.max 0 (bs_contract_liquid s - bs_take o) + bs_contract_liquid o)
    (bs_settle s + Z.max 0 (bs_settle o - bs_contract_liquid s))
    (bs_save s + bs_save o).

Definition collect_pure (s : BorrowStateTracker) : BorrowStateTracker :=
  mkBorrowStateTracker (bs_take s) 0 (bs_settle s)
    (bs_save s + Z.max 0 (bs_contract_liquid s - bs_settle s)).

(** Every field is between zero and [w]. *)
Definition bounded (w : Z) (s : BorrowStateTracker) : Prop :=
  (0 <= bs_take s <= w /\ 0 <= bs_contract_liquid s <= w) /\
  (0 <= bs_settle s <= w /\ 0 <= bs_save s <= w).

Definition weight (ops : list TrackerOp) : Z := sumZ (map op_q ops).
Definition nonneg_ops (ops : list TrackerOp) : Prop := Forall (fun o => 0 <= op_q o) ops.

Ltac trackers :=
  repeat match goal with s : BorrowStateTracker |- _ => destruct s end;
  unfold bounded, and_then_pure, collect_pure, saturating_sub in *; simpl in *.

Section TrackerLemmas.
Context {P : Profile}.

Lemma apply_op_Ok o s w :
  bounded w s -> 0 <= op_q o -> w + op_q o <= u_max 128 ->
  apply_op o s = Ok (op_pure o s) /\ bounded (w + op_q o) (op_pure o s).
Proof.
  intros Hb Hq Hw. trackers. destruct o as [q | q | q | q | q]; simpl in *.
  - unfold Tracker.allocate, Tracker.loan, u128_add, u128_sub, saturating_sub. simpl.
    destruct (Z.ltb_spec bs_contract_liquid0 q).
    + rewrite (checked_u_Ok 128 (q - _)) by lia. cbn [M_bind].
      rewrite !checked_u_Ok by lia. simpl. split; [do 2 f_equal; lia | lia].
    + cbn [M_bind]. simpl. split; [do 2 f_equal; lia | lia].
  - unfold Tracker.owe, u128_add. simpl. rewrite checked_u_Ok by lia. split; [done | lia].
  - unfold Tracker.take, u128_add. simpl. rewrite !checked_u_Ok by lia. split; [done | lia].
  - unfold Tracker.recieve, u128_add. simpl. rewrite checked_u_Ok by lia. split; [done | lia].
  - unfold Tracker.add_gas_fee, u128_add. simpl. rewrite checked_u_Ok by lia. split; [done | lia].
Qed.

Lemma and_then_Ok s o w w' :
  bounded w s -> bounded w' o -> w + w' <= u_max 128 ->
  Tracker.and_then s o = Ok (and_then_pure s o) /\ bounded (w + w') (and_then_pure s o).
Proof.
  intros Hs Ho Hw. trackers. unfold Tracker.and_then, u128_add, saturating_sub. simpl.
  rewrite !checked_u_Ok by lia. simpl. split; [done | lia].
Qed.

Lemma collect_extra_Ok s w :
  bounded w s -> w + w <= u_max 128 -> Tracker.collect_extra s = Ok (collect_pure s).
Proof.
  intros Hs Hw. trackers. unfold Tracker.collect_extra, u128_add, saturating_sub. simpl.
  by rewrite checked_u_Ok by lia.
Qed.

Lemma run_pure_bounded ops s w :
  bounded w s -> nonneg_ops ops -> bounded (w + weight ops) (run_pure ops s).
Proof.
  revert s w. induction ops as [| o ops IH]; intros s w Hb Hnn; unfold weight; simpl.
  - by rewrite Z.add_0_r.
  - apply Forall_cons in Hnn as [Ho Hnn]. rewrite Z.add_assoc. apply IH; [| done].
    trackers. destruct o; simpl in *; lia.
Qed.

Lemma new_bounded : bounded 0 BorrowStateTracker_new.
Proof. unfold bounded. simpl. lia. Qed.

(** Sequencing commutes with an operation that stays outside the pools. *)
Lemma and_then_op o s t w w' :
  bounded w s -> bounded w' t -> bs_take t = bs_settle t -> external o = true -> 0 <= op_q o ->
  and_then_pure s (op_pure o t) = op_pure o (and_then_pure s t) /\
  bs_take (op_pure o t) = bs_settle (op_pure o t).
Proof.
  intros Hs Ht Heq He Hq. trackers. destruct o; simpl in *; try done;
    (split; [f_equal; lia | lia]).
Qed.

Lemma run_pure_snoc ops o s : run_pure (ops ++ [o]) s = op_pure o (run_pure ops s).
Proof. unfold run_pure. by rewrite fold_left_app. Qed.

Lemma run_pure_app ops ops' s : run_pure (ops ++ ops') s = run_pure ops' (run_pure ops s).
Proof. apply fold_left_app. Qed.

Lemma and_then_run ops s w :
  bounded w s -> nonneg_ops ops -> forallb external ops = true ->
  and_then_pure s (run_pure ops BorrowStateTracker_new) = run_pure ops s /\
  bs_take (run_pure ops BorrowStateTracker_new) = bs_settle (run_pure ops BorrowStateTracker_new).
Proof.
  intros Hs. induction ops as [| o ops IH] using rev_ind; intros Hnn He.
  - split; [| done]. trackers. f_equal; lia.
  - unfold nonneg_ops in Hnn. apply Forall_app in Hnn as [Hnn Ho]. apply Forall_cons in Ho as [Ho _].
    rewrite forallb_app in He. apply andb_true_iff in He as [He Heo]. simpl in Heo.
    rewrite andb_true_r in Heo. destruct (IH Hnn He) as [IH1 IH2].
    rewrite !run_pure_snoc.
    destruct (and_then_op o s (run_pure ops BorrowStateTracker_new) w (0 + weight ops)) as [-> H2];
      [done | apply run_pure_bounded; [apply new_bounded | done] | done | done | done |].
    split; [| done]. by rewrite IH1.
Qed.

(** The net flow of a token, which loans do not change. *)
Definition net_flow (o : TrackerOp) : Z :=
  match o with OAllocate q => - q | OOwe q => - q | OTake q => q | ORecieve q => q | OGas _ => 0 end.

Lemma run_pure_flow ops s w :
  bounded w s -> nonneg_ops ops ->
  bs_contract_liquid (run_pure ops s) - bs_settle (run_pure ops s) =
  bs_contract_liquid s - bs_settle s + sumZ (map net_flow ops).
Proof.
  revert s w. induction ops as [| o ops IH]; intros s w Hb Hnn; simpl; [lia |].
  apply Forall_cons in Hnn as [Ho Hnn].
  rewrite (IH _ (w + op_q o)); [| by trackers; destruct o; simpl in *; lia | done].
  trackers. destruct o; simpl in *; lia.
Qed.

Lemma run_pure_save ops s :
  bs_save (run_pure ops s) =
  bs_save s + sumZ (map (fun o => match o with OGas q => q | _ => 0 end) ops).
Proof.
  revert s. induction ops as [| o ops IH]; intros s; simpl; [lia |]. rewrite IH.
  trackers. destruct o; simpl; lia.
Qed.

End TrackerLemmas.

(** ** A whole stage *)

Definition ops_for (a : Z) (l : list (Z * TrackerOp)) : list TrackerOp :=
  map snd (List.filter (fun p => p.1 =? a) l).

Definition total (l : list (Z * TrackerOp)) : Z := sumZ (map (fun p => op_q p.2) l).
Definition nonneg_pairs (l : list (Z * TrackerOp)) : Prop := Forall (fun p => 0 <= op_q p.2) l.

(** The state of a token that has seen [ops]: no entry before the first one. *)
Definition tracked (ops : list TrackerOp) : option BorrowStateTracker :=
  match ops with [] => None | _ => Some (run_pure ops BorrowStateTracker_new) end.

(** The map is exactly what the operations of [l] leave behind. *)
Definition tracks (l : list (Z * TrackerOp)) (m : StageTracker) : Prop :=
  forall a, m !! a = tracked (ops_for a l).

Lemma ops_for_app a l k : ops_for a (l ++ k) = ops_for a l ++ ops_for a k.
Proof. unfold ops_for. by rewrite List.filter_app, map_app. Qed.

Lemma ops_for_single a b o : ops_for b [(a, o)] = if a =? b then [o] else [].
Proof. unfold ops_for. simpl. by destruct (a =? b). Qed.

Lemma ops_for_nonneg a l : nonneg_pairs l -> nonneg_ops (ops_for a l).
Proof.
  unfold ops_for. induction 1 as [| [b o] l Ho _ IH]; simpl; [constructor |].
  case_match; [by constructor | done].
Qed.

Lemma weight_nonneg ops : nonneg_ops ops -> 0 <= weight ops.
Proof. induction 1; unfold weight in *; simpl; lia. Qed.

Lemma ops_for_weight a l : nonneg_pairs l -> 0 <= weight (ops_for a l) <= total l.
Proof.
  intros H. split; [by apply weight_nonneg, ops_for_nonneg |].
  induction H as [| [b o] l Ho _ IH]; unfold ops_for, weight, total in *; simpl; [lia |].
  simpl in Ho. case_match; simpl; lia.
Qed.

Lemma ops_for_external a l :
  forallb (fun p => external p.2) l = true -> forallb external (ops_for a l) = true.
Proof.
  unfold ops_for. induction l as [| [b o] l IH]; simpl; [done |]. intros [Ho Hl]%andb_true_iff.
  case_match; simpl; [rewrite Ho |]; by apply IH.
Qed.

Lemma tracked_default ops : default BorrowStateTracker_new (tracked ops) = run_pure ops BorrowStateTracker_new.
Proof. by destruct ops. Qed.

Lemma tracked_Some ops s : tracked ops = Some s -> s = run_pure ops BorrowStateTracker_new.
Proof. destruct ops; simpl; congruence. Qed.

Lemma tracked_snoc ops o : tracked (ops ++ [o]) = Some (op_pure o (run_pure ops BorrowStateTracker_new)).
Proof. rewrite <- run_pure_snoc. by destruct ops. Qed.

Lemma tracks_bounded l m a s :
  tracks l m -> nonneg_pairs l -> m !! a = Some s -> bounded (total l) s.
Proof.
  intros Ht Hnn Hs. rewrite Ht in Hs. apply tracked_Some in Hs as ->.
  pose proof (ops_for_weight a l Hnn).
  pose proof (run_pure_bounded (ops_for a l) BorrowStateTracker_new 0 new_bounded
                (ops_for_nonneg a l Hnn)) as Hb.
  unfold bounded in *. lia.
Qed.

Section StageLemmas.
Context {P : Profile}.

Lemma update_tracks l m a o :
  tracks l m -> nonneg_pairs (l ++ [(a, o)]) -> total (l ++ [(a, o)]) <= u_max 128 ->
  exists m', Stage.update m a (apply_op o) = Ok m' /\ tracks (l ++ [(a, o)]) m'.
Proof.
  intros Ht Hnn Hw. unfold nonneg_pairs in Hnn. apply Forall_app in Hnn as [Hnn Ho].
  apply Forall_cons in Ho as [Ho _]. simpl in Ho.
  unfold total in Hw. rewrite map_app, sumZ_app in Hw. simpl in Hw.
  unfold Stage.update, Stage.get_state. rewrite Ht, tracked_default.
  pose proof (ops_for_weight a l Hnn) as Hwl. unfold total in Hwl.
  destruct (apply_op_Ok o (run_pure (ops_for a l) BorrowStateTracker_new) (0 + weight (ops_for a l)))
    as [-> _]; [apply run_pure_bounded; [apply new_bounded | by apply ops_for_nonneg] | done | lia |].
  cbn [M_bind]. eexists. split; [reflexivity |]. intros b. rewrite ops_for_app.
  destruct (decide (a = b)) as [<- | Hne].
  - by rewrite lookup_insert_eq, ops_for_single, Z.eqb_refl, tracked_snoc.
  - rewrite lookup_insert_ne, ops_for_single by done.
    destruct (Z.eqb_spec a b); [done |]. rewrite app_nil_r. apply Ht.
Qed.

Lemma run_stage_tracks k l m :
  tracks l m -> nonneg_pairs (l ++ k) -> total (l ++ k) <= u_max 128 ->
  exists m', run_stage k m = Ok m' /\ tracks (l ++ k) m'.
Proof.
  revert l m. induction k as [| [a o] k IH]; intros l m Ht Hnn Hw; unfold run_stage; simpl.
  - rewrite app_nil_r. by exists m.
  - replace (l ++ (a, o) :: k) with ((l ++ [(a, o)]) ++ k) in * by by rewrite <- app_assoc.
    pose proof Hnn as Hnn'. unfold nonneg_pairs in Hnn'. apply Forall_app in Hnn' as [Hl Hk].
    assert (Hw' : total (l ++ [(a, o)]) <= u_max 128).
    { unfold total in Hw |- *. rewrite map_app, sumZ_app in Hw.
      enough (0 <= sumZ (map (fun p : Z * TrackerOp => op_q p.2) k)) by lia.
      apply sumZ_nonneg. by apply Forall_map. }
    destruct (update_tracks l m a o Ht Hl Hw') as (m1 & -> & Ht1). cbn [M_bind].
    by apply IH.
Qed.

Definition merge_entry (acc : StageTracker) (p : Z * BorrowStateTracker) : M StageTracker :=
  match acc !! p.1 with
  | Some e => let* s := Tracker.and_then e p.2 in Ok (<[p.1 := s]> acc)
  | None => Ok (<[p.1 := p.2]> acc)
  end.

Definition merge_with : StageTracker -> StageTracker -> StageTracker :=
  union_with (fun s t => Some (and_then_pure s t)).

Lemma merge_with_insert (m o : StageTracker) a t :
  o !! a = None ->
  merge_with (<[a := match m !! a with Some s => and_then_pure s t | None => t end]> m) o =
  merge_with m (<[a := t]> o).
Proof.
  intros Ho. apply map_eq. intros b. unfold merge_with. rewrite !lookup_union_with.
  destruct (decide (a = b)) as [<- | Hne]; [| by rewrite !lookup_insert_ne].
  rewrite !lookup_insert_eq, Ho. by destruct (m !! a).
Qed.

Lemma merge_list_Ok l m :
  NoDup l.*1 ->
  (forall a s t, m !! a = Some s -> (list_to_map l : StageTracker) !! a = Some t ->
     Tracker.and_then s t = Ok (and_then_pure s t)) ->
  M_fold merge_entry m l = Ok (merge_with m (list_to_map l)).
Proof.
  revert m. induction l as [| [a t] l IH]; intros m Hnd Hok.
  { simpl. f_equal. apply map_eq. intros b. unfold merge_with.
    rewrite lookup_union_with, lookup_empty. by destruct (m !! b). }
  apply NoDup_cons in Hnd as [Hnin Hnd]. simpl in Hnin.
  assert (Hl : (list_to_map l : StageTracker) !! a = None) by by apply not_elem_of_list_to_map.
  set (s' := match m !! a with Some s => and_then_pure s t | None => t end).
  assert (Hstep : merge_entry m (a, t) = Ok (<[a := s']> m)).
  { unfold merge_entry, s'. simpl. destruct (m !! a) as [s |] eqn:Es; [| done].
    rewrite (Hok a s t); [done | done | apply lookup_insert_eq]. }
  cbn [M_fold]. rewrite Hstep. cbn [M_bind]. rewrite IH; [| done |].
  - simpl. by rewrite <- merge_with_insert.
  - intros b u v Hu Hv. destruct (decide (a = b)) as [<- | Hne]; [congruence |].
    rewrite lookup_insert_ne in Hu by done. apply (Hok b); [done |]. simpl. by rewrite lookup_insert_ne.
Qed.

Lemma stage_and_then_Ok m o :
  (forall a s t, m !! a = Some s -> o !! a = Some t -> Tracker.and_then s t = Ok (and_then_pure s t)) ->
  Stage.stage_and_then m o = Ok (merge_with m o).
Proof.
  intros Hok. transitivity (M_fold merge_entry m (map_to_list o)); [done |].
  rewrite merge_list_Ok; [by rewrite list_to_map_to_list | apply NoDup_fst_map_to_list |].
  by rewrite list_to_map_to_list.
Qed.

Lemma stage_collect_Ok m :
  (forall a s, m !! a = Some s -> Tracker.collect_extra s = Ok (collect_pure s)) ->
  Stage.stage_collect_extra m = Ok (collect_pure <$> m).
Proof.
  intros Hok. unfold Stage.stage_collect_extra.
  assert (H : forall (l : list (Z * BorrowStateTracker)) (acc : StageTracker), NoDup l.*1 ->
    (forall p, p ∈ l -> Tracker.collect_extra p.2 = Ok (collect_pure p.2)) ->
    M_fold (fun acc p => let* s := Tracker.collect_extra p.2 in Ok (<[p.1 := s]> acc)) acc l =
    Ok ((collect_pure <$> list_to_map l) ∪ acc)).
  { intros l. induction l as [| [a s] l IH]; intros acc Hnd Hl; simpl.
    - by rewrite fmap_empty, (left_id_L ∅ (∪)).
    - apply NoDup_cons in Hnd as [Hnin Hnd].
      pose proof (Hl (a, s) (list_elem_of_here _ _)) as Hs. simpl in Hs. rewrite Hs. cbn [M_bind].
      rewrite IH; [| done | by intros p Hp; apply Hl, list_elem_of_further].
      f_equal. rewrite fmap_insert. apply map_eq. intros b.
      assert (Hln : (list_to_map l : StageTracker) !! a = None) by by apply not_elem_of_list_to_map.
      destruct (decide (a = b)) as [<- | Hne].
      + rewrite lookup_union_r by by rewrite lookup_fmap, Hln.
        rewrite lookup_insert_eq. symmetry. apply lookup_union_Some_l. apply lookup_insert_eq.
      + by rewrite !lookup_union, !lookup_insert_ne. }
  rewrite H; [| apply NoDup_fst_map_to_list |].
  - by rewrite list_to_map_to_list, (right_id_L ∅ (∪)).
  - intros [a s] Hp. apply (Hok a). by apply elem_of_map_to_list.
Qed.

Lemma stage_and_then_tracks l k m o :
  tracks l m -> tracks k o -> nonneg_pairs l -> nonneg_pairs k ->
  forallb (fun p => external p.2) k = true -> total l + total k <= u_max 128 ->
  exists m', Stage.stage_and_then m o = Ok m' /\ tracks (l ++ k) m'.
Proof.
  intros Hm Ho Hl Hk He Hw. eexists. split.
  - apply stage_and_then_Ok. intros a s t Hs Ht.
    eapply and_then_Ok; [eapply tracks_bounded, Hs; done | eapply tracks_bounded, Ht; done | done].
  - intros a. unfold merge_with. rewrite lookup_union_with, Hm, Ho, ops_for_app.
    destruct (ops_for a l) as [| x xs] eqn:El, (ops_for a k) as [| y ys] eqn:Ek; try done.
    + by rewrite app_nil_r.
    + change (Some (and_then_pure (run_pure (x :: xs) BorrowStateTracker_new)
                      (run_pure (y :: ys) BorrowStateTracker_new)) =
              Some (run_pure ((x :: xs) ++ (y :: ys)) BorrowStateTracker_new)).
      f_equal. rewrite run_pure_app.
      apply (and_then_run (y :: ys) _ (0 + weight (x :: xs))).
      * apply run_pure_bounded; [apply new_bounded |]. rewrite <- El. by apply ops_for_nonneg.
      * rewrite <- Ek. by apply ops_for_nonneg.
      * rewrite <- Ek. by apply ops_for_external.
Qed.

End StageLemmas.

(** ** The calls a bundle makes to the builder *)

Inductive BuilderCall :=
| CUniswap (asset_in asset_out quantity_in quantity_out : Z)
| CExternal (asset_in asset_out quantity_in quantity_out : Z)
| CGas (asset quantity : Z)
| CAllocate (asset quantity : Z).

Definition run_call {P : Profile} (b : AssetBuilder) (p : AssetBuilderStage * BuilderCall) :
    M AssetBuilder :=
  match p.2 with
  | CUniswap i o qi qo => Builder.uniswap_swap_raw b p.1 i o qi qo
  | CExternal i o qi qo => Builder.builder_external_swap b p.1 i o qi qo
  | CGas a q => Builder.builder_add_gas_fee b p.1 a q
  | CAllocate a q => Builder.builder_allocate b p.1 a q
  end.

Definition call_ops (c : BuilderCall) : list (Z * TrackerOp) :=
  match c with
  | CUniswap i o qi qo => [(i, OOwe qi); (o, OTake qo)]
  | CExternal i o qi qo => [(i, ORecieve qi); (o, OAllocate qo)]
  | CGas a q => [(a, OGas q)]
  | CAllocate a q => [(a, OAllocate q)]
  end.

#[export] Instance stage_eq_dec : EqDecision AssetBuilderStage.
Proof. solve_decision. Defined.

Definition stage_ops (st : AssetBuilderStage) (calls : list (AssetBuilderStage * BuilderCall)) :
    list (Z * TrackerOp) :=
  flat_map (fun p => if bool_decide (p.1 = st) then call_ops p.2 else []) calls.

(** All operations in the order the contract executes the stages. *)
Definition bundle_ops (calls : list (AssetBuilderStage * BuilderCall)) : list (Z * TrackerOp) :=
  ((stage_ops StageSwap calls ++ stage_ops StageReward calls) ++ stage_ops StageTopOfBlock calls)
  ++ stage_ops StageUserOrder calls.

(** Pool swaps are only recorded in the swap stage, as process_solution does. *)
Definition uniswap_first (calls : list (AssetBuilderStage * BuilderCall)) : bool :=
  forallb (fun p => match p with (StageSwap, _) => true | (_, CUniswap _ _ _ _) => false | _ => true end)
    calls.

Lemma stage_ops_app st c k : stage_ops st (c ++ k) = stage_ops st c ++ stage_ops st k.
Proof. unfold stage_ops. by rewrite flat_map_app. Qed.

Lemma stage_ops_single st s c : stage_ops st [(s, c)] = if bool_decide (s = st) then call_ops c else [].
Proof. unfold stage_ops. simpl. by rewrite app_nil_r. Qed.

Lemma stage_ops_external st calls :
  uniswap_first calls = true -> st ≠ StageSwap ->
  forallb (fun p => external p.2) (stage_ops st calls) = true.
Proof.
  intros Hu Hst. induction calls as [| [s c] calls IH]; simpl in *; [done |].
  apply andb_true_iff in Hu as [Hc Hu]. rewrite forallb_app, (IH Hu), andb_true_r.
  case_bool_decide; [subst s | done]. by destruct st, c.
Qed.

Lemma total_app l k : total (l ++ k) = total l + total k.
Proof. unfold total. by rewrite map_app, sumZ_app. Qed.

Lemma total_nonneg l : nonneg_pairs l -> 0 <= total l.
Proof. intros H. by apply sumZ_nonneg, Forall_map. Qed.

Section BuilderLemmas.
Context {P : Profile}.

Lemma run_call_stage b st c :
  run_call b (st, c) = Builder.on_stage b st (run_stage (call_ops c)).
Proof.
  unfold run_call, Builder.on_stage. destruct c; simpl; unfold run_stage; simpl;
    unfold Builder.uniswap_swap_raw, Builder.builder_external_swap, Builder.builder_add_gas_fee,
      Builder.builder_allocate, Builder.on_stage, Stage.uniswap_swap, Stage.external_swap,
      Stage.stage_add_gas_fee, Stage.stage_allocate, apply_op;
    repeat (destruct (Stage.update _ _ _); simpl; try done).
Qed.

Definition builder_tracks (calls : list (AssetBuilderStage * BuilderCall)) (b : AssetBuilder) : Prop :=
  forall st, tracks (stage_ops st calls) (Builder.get_stage b st).

Lemma get_set_stage b st m st' :
  Builder.get_stage (Builder.set_stage b st m) st' =
  if bool_decide (st = st') then m else Builder.get_stage b st'.
Proof. by destruct st, st'. Qed.

Lemma run_calls_tracks k pre b :
  builder_tracks pre b ->
  (forall st, nonneg_pairs (stage_ops st (pre ++ k)) /\ total (stage_ops st (pre ++ k)) <= u_max 128) ->
  exists b', M_fold run_call b k = Ok b' /\ builder_tracks (pre ++ k) b'.
Proof.
  revert pre b. induction k as [| [st c] k IH]; intros pre b Hb Hok; simpl.
  { rewrite app_nil_r in *. by exists b. }
  replace (pre ++ (st, c) :: k) with ((pre ++ [(st, c)]) ++ k) in * by by rewrite <- app_assoc.
  rewrite run_call_stage. unfold Builder.on_stage.
  destruct (run_stage_tracks (call_ops c) _ _ (Hb st)) as (m & -> & Hm).
  - destruct (Hok st) as [Hnn _]. rewrite !stage_ops_app, stage_ops_single, bool_decide_true in Hnn by done.
    unfold nonneg_pairs in *. by apply Forall_app in Hnn as [? _].
  - destruct (Hok st) as [Hnn Hw]. rewrite !stage_ops_app, stage_ops_single, bool_decide_true in * by done.
    unfold nonneg_pairs in Hnn. apply Forall_app in Hnn as [_ Hk]. rewrite total_app in Hw.
    pose proof (total_nonneg _ Hk). lia.
  - cbn [M_bind]. apply IH; [| done]. intros st'. rewrite get_set_stage, stage_ops_app, stage_ops_single.
    case_bool_decide as Hst; [by rewrite <- Hst |]. rewrite app_nil_r. apply Hb.
Qed.

Lemma new_tracks : builder_tracks [] AssetBuilder_new.
Proof. intros st a. by destruct st. Qed.

Lemma combined_Ok calls b :
  builder_tracks calls b -> uniswap_first calls = true -> nonneg_pairs (bundle_ops calls) ->
  2 * total (bundle_ops calls) <= u_max 128 ->
  exists m, Builder.combined_assets b = Ok m /\
    forall a, m !! a = collect_pure <$> tracked (ops_for a (bundle_ops calls)).
Proof.
  intros Hb Hu Hnn Hw. unfold bundle_ops in *. pose proof Hnn as Hall. unfold nonneg_pairs in Hnn.
  rewrite !Forall_app in Hnn. destruct Hnn as [[[H1 H2] H3] H4].
  pose proof (total_nonneg _ H1). pose proof (total_nonneg _ H2).
  pose proof (total_nonneg _ H3). pose proof (total_nonneg _ H4).
  rewrite !total_app in Hw. unfold Builder.combined_assets.
  destruct (stage_and_then_tracks _ _ _ _ (Hb StageSwap) (Hb StageReward) H1 H2) as (m1 & E1 & T1);
    [by apply stage_ops_external | lia |].
  destruct (stage_and_then_tracks _ _ _ _ T1 (Hb StageTopOfBlock)) as (m2 & E2 & T2);
    [by apply Forall_app | done | by apply stage_ops_external | rewrite total_app; lia |].
  destruct (stage_and_then_tracks _ _ _ _ T2 (Hb StageUserOrder)) as (m3 & E3 & T3);
    [by rewrite <- app_assoc in *; apply Forall_app; split; [| apply Forall_app] | done
    | by apply stage_ops_external | rewrite !total_app; lia |].
  simpl in E1, E2, E3. rewrite E1. cbn [M_bind]. rewrite E2. cbn [M_bind]. rewrite E3. cbn [M_bind].
  eexists. split.
  - apply stage_collect_Ok. intros a s Hs. eapply collect_extra_Ok;
      [eapply tracks_bounded, Hs; done | rewrite !total_app; lia].
  - intros a. by rewrite lookup_fmap, T3.
Qed.

Lemma calls_fit calls :
  nonneg_pairs (bundle_ops calls) -> 2 * total (bundle_ops calls) <= u_max 128 ->
  forall st, nonneg_pairs (stage_ops st ([] ++ calls)) /\
             total (stage_ops st ([] ++ calls)) <= u_max 128.
Proof.
  intros Hnn Hw st. simpl. unfold bundle_ops in *. rewrite !total_app in Hw.
  unfold nonneg_pairs in Hnn. rewrite !Forall_app in Hnn. destruct Hnn as [[[H1 H2] H3] H4].
  pose proof (total_nonneg _ H1). pose proof (total_nonneg _ H2).
  pose proof (total_nonneg _ H3). pose proof (total_nonneg _ H4).
  destruct st; (split; [done | lia]).
Qed.

End BuilderLemmas.

(** C4: recording a bundle stage by stage is exact: for any interleaving of the
    builder calls in which pool swaps are only recorded in the swap stage and the
    quantities stay below half of u128, no call and no merge panics or wraps, and
    the merged tracker of every token is what one tracker that sees all
    operations in contract order (swaps, rewards, top of block, user orders)
    would hold after collecting its extra; a token no call names has no entry. *)
Theorem staged_equals_sequential {P : Profile} calls :
  uniswap_first calls = true -> nonneg_pairs (bundle_ops calls) ->
  2 * total (bundle_ops calls) <= u_max 128 ->
  exists b m, M_fold run_call AssetBuilder_new calls = Ok b /\ Builder.combined_assets b = Ok m /\
    forall a, m !! a = collect_pure <$> tracked (ops_for a (bundle_ops calls)).
Proof.
  intros Hu Hnn Hw. destruct (run_calls_tracks calls [] _ new_tracks (calls_fit calls Hnn Hw)) as (b & Hb & Ht).
  destruct (combined_Ok calls b Ht Hu Hnn Hw) as (m & Hm & Ha). by exists b, m.
Qed.

(** A pool swap of token 2 for token 1, a donation, a user order, and gas. *)
Definition demo_calls : list (AssetBuilderStage * BuilderCall) :=
  [(StageUserOrder, CExternal 2 1 900 700); (StageSwap, CUniswap 2 1 500 600);
   (StageReward, CAllocate 1 50); (StageTopOfBlock, CExternal 1 2 300 100);
   (StageTopOfBlock, CGas 1 7)].

Lemma demo_calls_nonneg : nonneg_pairs (bundle_ops demo_calls).
Proof. unfold bundle_ops, demo_calls. simpl. repeat constructor; simpl; lia. Qed.

Theorem staged_equals_sequential_witness :
  exists b m, M_fold (@run_call dev) AssetBuilder_new demo_calls = Ok b /\
    @Builder.combined_assets dev b = Ok m /\
    forall a, m !! a = collect_pure <$> tracked (ops_for a (bundle_ops demo_calls)).
Proof.
  apply (@staged_equals_sequential dev); [reflexivity | exact demo_calls_nonneg | vm_compute; discriminate].
Defined.

(** ** The asset array *)

(** The index map is the inverse of the array, whose amounts are still zero. *)
Definition array_ok (a : AssetArray) : Prop :=
  (forall k i, aa_assets_idx a !! k = Some i <-> aa_assets a !! i = Some (mkAsset k 0 0 0)) /\
  Forall (fun x => x = mkAsset (asset_addr x) 0 0 0) (aa_assets a).

Lemma array_new_ok : array_ok AssetArray_new.
Proof. split; [| constructor]. intros k i. simpl. by rewrite lookup_empty, lookup_nil. Qed.

Lemma add_asset_ok a k :
  array_ok a ->
  array_ok (add_or_get_asset_idx a k).2 /\
  get_asset_addr (add_or_get_asset_idx a k).2 (add_or_get_asset_idx a k).1 = k.
Proof.
  intros [Hidx Hz]. unfold add_or_get_asset_idx. destruct (aa_assets_idx a !! k) as [i |] eqn:E; simpl.
  { split; [done |]. unfold get_asset_addr. by rewrite (proj1 (Hidx k i) E). }
  rewrite length_app. simpl. replace (length (aa_assets a) + 1 - 1)%nat with (length (aa_assets a)) by lia.
  split.
  - split; simpl; [| apply Forall_app; split; [done | by constructor]].
    intros b i. destruct (decide (k = b)) as [<- | Hne].
    + rewrite lookup_insert_eq. split; [by intros [= <-]; apply list_lookup_middle |].
      intros [Hl | [Hlen Hl]]%lookup_app_Some; [apply Hidx in Hl; congruence |].
      apply list_lookup_singleton_Some in Hl as [Hi _]. f_equal. lia.
    + rewrite lookup_insert_ne by done. rewrite Hidx, lookup_app_Some. split; [by left |].
      intros [? | [_ Hl]]; [done |]. apply list_lookup_singleton_Some in Hl as [_ [= ->]]. done.
  - unfold get_asset_addr. simpl. by rewrite list_lookup_middle.
Qed.

Lemma index_fold l (m : gmap Z nat) k n :
  NoDup (map asset_addr l) ->
  fold_left (fun m p => <[asset_addr p.2 := p.1]> m) (imap (fun i x => ((n + i)%nat, x)) l) m !! k =
  match list_find (fun x => asset_addr x = k) l with
  | Some (i, _) => Some (n + i)%nat
  | None => m !! k
  end.
Proof.
  revert m n. induction l as [| x l IH]; intros m n Hnd; simpl; [done |].
  apply NoDup_cons in Hnd as [Hnin Hnd].
  assert (Hs : imap ((fun i x => ((n + i)%nat, x)) ∘ S) l = imap (fun i y => ((S n + i)%nat, y)) l)
    by (apply imap_ext; intros; unfold compose; simpl; f_equal; lia).
  rewrite Hs, IH by done. rewrite Nat.add_0_r. case_decide as Hx.
  - destruct (list_find _ l) as [[i y] |] eqn:E; [| simpl; rewrite Hx, lookup_insert_eq; f_equal; lia].
    apply list_find_Some in E as (Hl & Hy & _). contradict Hnin. rewrite Hx, <- Hy.
    apply list_elem_of_fmap. exists y. split; [done |]. by eapply list_elem_of_lookup_2.
  - destruct (list_find _ l) as [[i y] |] eqn:E; simpl; [f_equal; lia |].
    by rewrite lookup_insert_ne.
Qed.

Lemma array_nodup a : array_ok a -> NoDup (map asset_addr (aa_assets a)).
Proof.
  intros [Hidx Hz]. apply NoDup_alt. intros i j k Hi Hj.
  apply list_lookup_fmap_Some in Hi as (x & -> & Hi).
  apply list_lookup_fmap_Some in Hj as (y & Hxy & Hj).
  rewrite Forall_lookup in Hz. pose proof (Hz _ _ Hi) as Ex. pose proof (Hz _ _ Hj) as Ey.
  rewrite Ex in Hi. rewrite Ey, <- Hxy in Hj. apply Hidx in Hi, Hj. congruence.
Qed.

#[local] Instance addr_le_total : Total addr_le.
Proof. intros x y. unfold addr_le. rewrite !Is_true_true, !Z.leb_le. lia. Qed.
#[local] Instance addr_le_trans : Transitive addr_le.
Proof. intros x y z. unfold addr_le. rewrite !Is_true_true, !Z.leb_le. lia. Qed.

Lemma find_index l k i :
  NoDup (map asset_addr l) -> Forall (fun x => x = mkAsset (asset_addr x) 0 0 0) l ->
  (exists y, list_find (fun x => asset_addr x = k) l = Some (i, y)) <-> l !! i = Some (mkAsset k 0 0 0).
Proof.
  intros Hnd Hz. rewrite Forall_lookup in Hz. split.
  - intros (y & E). apply list_find_Some in E as (Hl & Hy & _).
    by rewrite Hl, (Hz _ _ Hl), Hy.
  - intros Hl. exists (mkAsset k 0 0 0). apply list_find_Some. split; [done | split; [done |]].
    intros j y Hj Hlt Hy. enough (i = j) by lia.
    apply (NoDup_lookup _ _ _ k Hnd); apply list_lookup_fmap_Some;
      [exists (mkAsset k 0 0 0) | exists y]; done.
Qed.

Lemma order_ok a :
  array_ok a ->
  array_ok (order_assets_properly a) /\
  StronglySorted (fun x y => asset_addr x < asset_addr y) (aa_assets (order_assets_properly a)) /\
  aa_assets (order_assets_properly a) ≡ₚ aa_assets a.
Proof.
  intros Ha. pose proof (array_nodup a Ha) as Hnd. destruct Ha as [Hidx Hz].
  unfold order_assets_properly. simpl.
  assert (Hp : merge_sort addr_le (aa_assets a) ≡ₚ aa_assets a) by apply merge_sort_Permutation.
  assert (Hs : StronglySorted addr_le (merge_sort addr_le (aa_assets a)))
    by (apply StronglySorted_merge_sort; [apply addr_le_trans | apply addr_le_total]).
  revert Hp Hs. generalize (merge_sort addr_le (aa_assets a)) as l. intros l Hp Hs.
  assert (Hnl : NoDup (map asset_addr l)) by by rewrite Hp.
  split; [split |].
  - intros k i. cbn [aa_assets aa_assets_idx].
    pose proof (index_fold l (aa_assets_idx a) k 0 Hnl) as Hf. cbn [Nat.add] in Hf.
    rewrite <- (find_index l k i Hnl) by by rewrite Hp.
    transitivity (match list_find (fun x => asset_addr x = k) l with
                  | Some (i, _) => Some i | None => aa_assets_idx a !! k end = Some i);
      [by rewrite <- Hf |].
    destruct (list_find _ l) as [[j y] |] eqn:E.
    + split; [intros [= <-]; by exists y | by intros (y' & [= -> _])].
    + split; [| by intros (? & ?)]. intros Hi. apply Hidx, list_elem_of_lookup_2 in Hi.
      rewrite <- Hp in Hi. apply list_find_None in E. rewrite Forall_forall in E. by destruct (E _ Hi).
  - simpl. by rewrite Hp.
  - split; [| done]. clear - Hs Hnl. induction Hs as [| x l Hs IH Hx]; [constructor |].
    apply NoDup_cons in Hnl as [Hnin Hnl]. constructor; [by apply IH |].
    rewrite Forall_forall in Hx |- *. intros y Hy. specialize (Hx y Hy).
    unfold addr_le in Hx. rewrite Is_true_true, Z.leb_le in Hx.
    enough (asset_addr x ≠ asset_addr y) by lia. intros E. apply Hnin. rewrite E.
    apply list_elem_of_fmap. by exists y.
Qed.

(** Any sequence of registrations and orderings. *)
Inductive ArrayOp := ARegister (asset : Z) | AOrder.
Definition array_op (a : AssetArray) (o : ArrayOp) : AssetArray :=
  match o with
  | ARegister k => (add_or_get_asset_idx a k).2
  | AOrder => order_assets_properly a
  end.
Definition array_run (ops : list ArrayOp) : AssetArray := fold_left array_op ops AssetArray_new.

Lemma array_run_ok ops : array_ok (array_run ops).
Proof.
  unfold array_run. induction ops as [| o ops IH] using rev_ind; [apply array_new_ok |].
  rewrite fold_left_app. simpl. destruct o; simpl; [by apply add_asset_ok | by apply order_ok].
Qed.

(** whatever registrations and orderings came before, registering a token
    yields an index at which the array holds that token, registering it again
    changes nothing, and after ordering the array is a rearrangement that is
    strictly increasing by address, so that no token occurs twice, with every
    index of the index map pointing to its token. *)
Theorem asset_array_indexed ops k :
  let a := array_run ops in
  let '(i, a') := add_or_get_asset_idx a k in
  let o := order_assets_properly a' in
  get_asset_addr a' i = k /\ add_or_get_asset_idx a' k = (i, a') /\
  StronglySorted (fun x y => asset_addr x < asset_addr y) (aa_assets o) /\
  aa_assets o ≡ₚ aa_assets a' /\
  (forall t j, aa_assets_idx o !! t = Some j -> get_asset_addr o j = t) /\
  is_Some (aa_assets_idx o !! k).
Proof.
  intros a. destruct (add_asset_ok a k (array_run_ok ops)) as [Hok Haddr].
  destruct (add_or_get_asset_idx a k) as [i a'] eqn:E. simpl in *.
  destruct (order_ok a' Hok) as (Ho & Hs & Hp).
  assert (Hk : aa_assets_idx a' !! k = Some i).
  { unfold add_or_get_asset_idx in E. destruct (aa_assets_idx a !! k) eqn:Ek; injection E as <- <-; [done |].
    apply lookup_insert_eq. }
  repeat split; [done | unfold add_or_get_asset_idx; by rewrite Hk | done | done | |].
  - intros t j Hj. apply Ho in Hj. unfold get_asset_addr. by rewrite Hj.
  - apply Hok, list_elem_of_lookup_2 in Hk. rewrite <- Hp in Hk.
    apply list_elem_of_lookup in Hk as [j Hj]. exists j. by apply Ho.
Qed.

(** ** What the contract is told *)

Definition gas_of (ops : list TrackerOp) : Z :=
  sumZ (map (fun o => match o with OGas q => q | _ => 0 end) ops).
Definition flow_of (ops : list TrackerOp) : Z := sumZ (map net_flow ops).
Definition pool_flow (o : TrackerOp) : Z :=
  match o with OTake q => q | OOwe q => - q | _ => 0 end.
Definition pool_of (ops : list TrackerOp) : Z := sumZ (map pool_flow ops).

Lemma run_pure_pool ops s :
  bs_take (run_pure ops s) - bs_settle (run_pure ops s) = bs_take s - bs_settle s + pool_of ops.
Proof.
  revert s. unfold pool_of. induction ops as [| o ops IH]; intros s; simpl; [lia |]. rewrite IH.
  trackers. destruct o; simpl; lia.
Qed.

Definition with_assets (a : AssetArray) : AssetBuilder := mkAssetBuilder ∅ ∅ ∅ ∅ a.

(** One token of the array against the operations that named it. *)
Definition asset_exact (calls : list (AssetBuilderStage * BuilderCall)) (x : Asset) : Prop :=
  let ops := ops_for (asset_addr x) (bundle_ops calls) in
  asset_save x = gas_of ops + Z.max 0 (flow_of ops) /\
  asset_take x - asset_settle x = pool_of ops.

Section Ledger.
Context {P : Profile}.

Lemma run_calls_assets calls b b' :
  M_fold run_call b calls = Ok b' -> ab_assets b' = ab_assets b.
Proof.
  revert b. induction calls as [| [st c] calls IH]; intros b H; simpl in H; [by injection H as <- |].
  apply M_bind_Ok in H as (b1 & H1 & H). rewrite (IH _ H). rewrite run_call_stage in H1.
  unfold Builder.on_stage in H1. apply M_bind_Ok in H1 as (m & _ & H1). injection H1 as <-. by destruct st.
Qed.

Lemma collected_exact calls a (m : StageTracker) :
  nonneg_pairs (bundle_ops calls) ->
  (forall a, m !! a = collect_pure <$> tracked (ops_for a (bundle_ops calls))) ->
  asset_exact calls match m !! a with
                    | Some t => mkAsset a (bs_save t) (bs_take t) (bs_settle t)
                    | None => mkAsset a 0 0 0
                    end.
Proof.
  intros Hnn Hm. rewrite Hm. unfold asset_exact.
  destruct (ops_for a (bundle_ops calls)) as [| o ops] eqn:E; cbn [tracked fmap option_fmap option_map].
  { cbn [asset_addr]. rewrite E. split; reflexivity. }
  cbn [asset_addr asset_save asset_take asset_settle collect_pure bs_save bs_take bs_settle].
  rewrite E, run_pure_pool, run_pure_save.
  rewrite (run_pure_flow _ _ 0 new_bounded) by (rewrite <- E; by apply ops_for_nonneg).
  unfold gas_of, flow_of. cbn [BorrowStateTracker_new bs_take bs_settle bs_save bs_contract_liquid].
  split; [f_equal; lia | lia].
Qed.

End Ledger.

(** the asset array sent to the contract balances: the tokens keep the
    registered order, and for each of them the amount saved is the gas charged
    plus what the operations brought in beyond what they paid out (nothing if
    they paid out more), while the excess of take over settle is exactly what
    the pool swaps gave minus what they cost, however much was borrowed in
    between. *)
Theorem ledger_exact {P : Profile} regs calls :
  uniswap_first calls = true -> nonneg_pairs (bundle_ops calls) ->
  2 * total (bundle_ops calls) <= u_max 128 ->
  exists b arr, M_fold run_call (with_assets (array_run regs)) calls = Ok b /\
    Builder.get_asset_array b = Ok arr /\
    map asset_addr arr = map asset_addr (aa_assets (array_run regs)) /\
    Forall (asset_exact calls) arr.
Proof.
  intros Hu Hnn Hw. destruct (array_run_ok regs) as [_ Hz].
  assert (H0 : builder_tracks [] (with_assets (array_run regs))) by by intros [] a.
  destruct (run_calls_tracks calls [] _ H0 (calls_fit calls Hnn Hw)) as (b & Hb & Ht).
  destruct (combined_Ok calls b Ht Hu Hnn Hw) as (m & Hm & Ha).
  exists b. unfold Builder.get_asset_array. rewrite Hm. cbn [M_bind].
  eexists. split; [done |]. split; [reflexivity |]. rewrite (run_calls_assets _ _ _ Hb).
  cbn [with_assets ab_assets]. split.
  - rewrite map_map. apply map_ext. intros x. by destruct (m !! asset_addr x).
  - apply Forall_map. eapply Forall_impl; [exact Hz |]. intros x Hx. simpl.
    pose proof (collected_exact calls (asset_addr x) m Hnn Ha) as He.
    rewrite <- Hx in He. done.
Qed.

Theorem ledger_exact_witness :
  exists b arr, M_fold (@run_call dev) (with_assets (array_run [ARegister 2; ARegister 1; AOrder]))
      demo_calls = Ok b /\
    @Builder.get_asset_array dev b = Ok arr /\
    map asset_addr arr = [1; 2] /\ Forall (asset_exact demo_calls) arr.
Proof.
  apply (@ledger_exact dev [ARegister 2; ARegister 1; AOrder] demo_calls);
    [reflexivity | exact demo_calls_nonneg | vm_compute; discriminate].
Defined.

Example ledger_demo :
  (let* b := M_fold (@run_call dev) (with_assets (array_run [ARegister 2; ARegister 1; AOrder])) demo_calls in
   @Builder.get_asset_array dev b) = Ok [mkAsset 1 157 600 0; mkAsset 2 300 100 600].
Proof. vm_compute. reflexivity. Qed.
