(* ===== verification/Accounts.v ===== *)
(** * Account state of order validation

    crates/validation/src/order/state/account/{user,mod}.rs: what every user has
    pledged through pending orders, the balances and approvals that back them,
    and the verification of a new order against both.

    The two concurrent maps are finite maps.  An operation is written as its
    accesses one after the other; Validation.v cuts [verify_order] at every access,
    as the tasks of the validator interleave there, and states the invariants of
    the accounts over interleaved runs.  The chain state is the
    interface [StateFetchUtils] (db_state_utils/mod.rs), whose answers are
    results of eyre, modelled by [M] ([Err] is an eyre error). *)

From S2P Require Import Prelude Uniswap Ray Orders.

Abbreviation UserAddress := Z (only parsing).
Abbreviation TokenAddress := Z (only parsing).
Abbreviation Amount := Z (only parsing).

(** The part of the trait that the account state uses. *)
Class StateFetchUtils := {
  is_valid_nonce : Address -> Z -> M bool;
  fetch_approval_balance_for_token : Address -> Address -> M (option Z);
  fetch_balance_for_token : Address -> Address -> M Z;
  fetch_token_balance_in_angstrom : Address -> Address -> M Z;
}.

Record BaselineState := mkBaselineState {
  token_approval : gmap TokenAddress Amount;
  token_balance : gmap TokenAddress Amount;
  angstrom_balance : gmap TokenAddress Amount;
}.

Definition BaselineState_default : BaselineState := mkBaselineState ∅ ∅ ∅.

Record LiveState := mkLiveState {
  ls_token : TokenAddress;
  ls_approval : Amount;
  ls_balance : Amount;
  ls_angstrom_balance : Amount;
}.

Record PendingUserAction := mkPendingUserAction {
  order_priority : OrderValidationPriority;
  token_address : TokenAddress;
  token_delta : Amount;
  pa_token_approval : Amount;
  angstrom_delta : Amount;
  pa_pool_info : UserOrderPoolInfo;
}.

Definition pa_hash (a : PendingUserAction) : B256 := vp_order_hash (order_priority a).

(** ** Whether a live state covers an order *)

Section LiveState.
Context {P : Profile} `{C : OrderCrypto} {O : Type} `{!RawPoolOrder O}.

(** [U256::to::<u128>]. *)
Definition to_u128 (x : Z) : M Z := uint_from 128 x.

Definition fetch_amount_in (o : O) : M Z :=
  let* ray_price := limit_price o in
  match is_bid o, exact_in o with
  | true, false =>
      let* q := u128_add (amount o) (max_gas_token_0 o) in
      Ray.inverse_quantity ray_price q true
  | false, false =>
      let* q := Ray.inverse_quantity ray_price (amount o) true in
      u128_add q (max_gas_token_0 o)
  | _, _ => Ok (amount o)
  end.

Definition can_support_order (self : LiveState) (o : O) (pool_info : UserOrderPoolInfo) :
    M (UserAccountVerificationError + PendingUserAction) :=
  if negb (token_in o =? ls_token self) then Panic else
  let hash := order_hash o in
  let* amount_in := fetch_amount_in o in
  let supported (deltas : Z * Z) : UserAccountVerificationError + PendingUserAction :=
    inr (mkPendingUserAction
           (mkOrderValidationPriority (order_hash o) (is_tob o) (is_partial o)
              (respend_avoidance_strategy o))
           (upi_token pool_info) deltas.2 amount_in deltas.1 pool_info) in
  if use_internal o then
    if ls_angstrom_balance self <? amount_in then
      let* missing := to_u128 (uint_sub 256 amount_in (ls_angstrom_balance self)) in
      Ok (inl (InsufficientBalance hash (ls_token self) missing))
    else Ok (supported (amount_in, 0))
  else
    match ls_approval self <? amount_in, ls_balance self <? amount_in with
    | true, true =>
        let* missing_balance := to_u128 (uint_sub 256 amount_in (ls_balance self)) in
        let* missing_approval := to_u128 (uint_sub 256 amount_in (ls_approval self)) in
        Ok (inl (InsufficientBoth hash (ls_token self) missing_balance missing_approval))
    | true, false =>
        let* missing := to_u128 (uint_sub 256 amount_in (ls_approval self)) in
        Ok (inl (InsufficientApproval hash (ls_token self) missing))
    | false, true =>
        let* missing := to_u128 (uint_sub 256 amount_in (ls_balance self)) in
        Ok (inl (InsufficientBalance hash (ls_token self) missing))
    | false, false => Ok (supported (0, amount_in))
    end.

End LiveState.

(** ** The accounts *)

Record UserAccounts := mkUserAccounts {
  pending_actions : gmap UserAddress (list PendingUserAction);
  last_known_state : gmap UserAddress BaselineState;
}.

Definition UserAccounts_new : UserAccounts := mkUserAccounts ∅ ∅.

Module Accounts.

(** [retain] on a [Vec] and on a map of [Vec]s that drops the empty ones. *)
Definition without_hashes (orders : list B256) (l : list PendingUserAction) :
    list PendingUserAction :=
  List.filter (fun p => negb (existsb (Z.eqb (pa_hash p)) orders)) l.

Definition new_block (a : UserAccounts) (users : list Address) (orders : list B256) : UserAccounts :=
  let pending := fold_left (fun m u => delete u m) users (pending_actions a) in
  let known := fold_left (fun m u => delete u m) users (last_known_state a) in
  mkUserAccounts
    (omap (fun l => match without_hashes orders l with [] => None | l' => Some l' end) pending)
    known.

Definition cancel_order (a : UserAccounts) (user : UserAddress) (hash : B256) : bool * UserAccounts :=
  match pending_actions a !! user with
  | None => (false, a)
  | Some inner_orders =>
      (existsb (fun o => pa_hash o =? hash) inner_orders,
       mkUserAccounts
         (<[user := List.filter (fun o => negb (pa_hash o =? hash)) inner_orders]> (pending_actions a))
         (last_known_state a))
  end.

Definition respend_conflicts (a : UserAccounts) (user : UserAddress)
    (avoidance : RespendAvoidanceMethod) : list PendingUserAction :=
  match avoidance with
  | Nonce _ =>
      List.filter (fun p => bool_decide (vp_respend (order_priority p) = avoidance))
        (default [] (pending_actions a !! user))
  | Block _ => []
  end.

Definition add_spend (acc : Z * Z * Z) (x : PendingUserAction) : Z * Z * Z :=
  (uint_add 256 acc.1.1 (pa_token_approval x), uint_add 256 acc.1.2 (token_delta x),
   uint_add 256 acc.2 (angstrom_delta x)).

(** [Iterator::take_while]. *)
Fixpoint take_while {A} (f : A -> bool) (l : list A) : list A :=
  match l with
  | [] => []
  | x :: l => if f x then x :: take_while f l else []
  end.

Definition outranks (a : PendingUserAction) (p : OrderValidationPriority) : bool :=
  match is_higher_priority (order_priority a) p with Gt => true | _ => false end.

Definition on_token (token : TokenAddress) (l : list PendingUserAction) : list PendingUserAction :=
  List.filter (fun state => token_address state =? token) l.

Definition try_fetch_live_pending_state (a : UserAccounts) (user : UserAddress)
    (token : TokenAddress) (order_priority : OrderValidationPriority) : option LiveState :=
  baseline ← last_known_state a !! user;
  baseline_approval ← token_approval baseline !! token;
  baseline_balance ← token_balance baseline !! token;
  baseline_angstrom_balance ← angstrom_balance baseline !! token;
  let spend := fold_left add_spend
      (take_while (fun state => outranks state order_priority)
         (on_token token (default [] (pending_actions a !! user)))) (0, 0, 0) in
  Some (mkLiveState token
          (saturating_sub baseline_approval spend.1.1)
          (saturating_sub baseline_balance spend.1.2)
          (saturating_sub baseline_angstrom_balance spend.2)).

(** [U256::overflowing_sub]. *)
Definition overflowing_sub (x y : Z) : Z * bool := (uint_sub 256 x y, x <? y).

Record Scan := mkScan {
  sc_approval : Z;
  sc_balance : Z;
  sc_angstrom : Z;
  sc_overflowed : bool;
  sc_bad : list B256;
}.

Definition scan_step (s : Scan) (p : PendingUserAction) : Scan :=
  let (approval, o1) := overflowing_sub (sc_approval s) (pa_token_approval p) in
  let (balance, o2) := overflowing_sub (sc_balance s) (token_delta p) in
  let (angstrom, o3) := overflowing_sub (sc_angstrom s) (angstrom_delta p) in
  let has_overflowed := sc_overflowed s || o1 || o2 || o3 in
  mkScan approval balance angstrom has_overflowed
    (if has_overflowed then sc_bad s ++ [pa_hash p] else sc_bad s).

Definition fetch_all_invalidated_orders (a : UserAccounts) (user : UserAddress)
    (token : TokenAddress) : M (list B256) :=
  match last_known_state a !! user with
  | None => Ok []
  | Some baseline =>
      let* approval := unwrap (token_approval baseline !! token) in
      let* balance := unwrap (token_balance baseline !! token) in
      let* angstrom := unwrap (angstrom_balance baseline !! token) in
      let* pending := unwrap (pending_actions a !! user) in
      Ok (sc_bad (fold_left scan_step (on_token token pending)
                    (mkScan approval balance angstrom false [])))
  end.

(** Descending by priority.  [sort_unstable_by] is free to order equal elements,
    which have the same hash, any way; the model keeps their order. *)
Definition action_cmp (f s : PendingUserAction) : comparison :=
  is_higher_priority (order_priority s) (order_priority f).

Definition push_pending_action (a : UserAccounts) (user : UserAddress) (action : PendingUserAction) : UserAccounts :=
  let value := sort_by action_cmp (default [] (pending_actions a !! user) ++ [action]) in
  mkUserAccounts (<[user := value]> (pending_actions a)) (last_known_state a).

Definition insert_pending_user_action (a : UserAccounts) (user : UserAddress)
    (action : PendingUserAction) : M (list B256 * UserAccounts) :=
  let token := token_address action in
  let a' := push_pending_action a user action in
  let* bad := fetch_all_invalidated_orders a' user token in
  Ok (bad, a').

Section Fetch.
Context {S : StateFetchUtils}.

Definition load_state_for (a : UserAccounts) (user : UserAddress) (token : TokenAddress) :
    M UserAccounts :=
  let* fetched := fetch_approval_balance_for_token user token in
  let* approvals := ok_or fetched "could not properly find approvals" in
  let* balances := fetch_balance_for_token user token in
  let entry := default BaselineState_default (last_known_state a !! user) in
  Ok (mkUserAccounts (pending_actions a)
        (<[user := mkBaselineState (<[token := approvals]> (token_approval entry))
                     (<[token := balances]> (token_balance entry))
                     (<[token := balances]> (angstrom_balance entry))]> (last_known_state a))).

Definition get_live_state_for_order (a : UserAccounts) (user : UserAddress) (token : TokenAddress)
    (order_priority : OrderValidationPriority) : M (LiveState * UserAccounts) :=
  match try_fetch_live_pending_state a user token order_priority with
  | Some l => Ok (l, a)
  | None =>
      let* a' := load_state_for a user token in
      let* l := ok_or (try_fetch_live_pending_state a' user token order_priority)
                  "after loading state for a address, the state wasn't found. this should be impossible" in
      Ok (l, a')
  end.

End Fetch.

(** ** The processor (account/mod.rs) *)

Section Processor.
Context {P : Profile} {S : StateFetchUtils} `{C : OrderCrypto} {O : Type} `{!RawPoolOrder O}.

Definition into_order_storage_with_data (o : O) (block : Z)
    (is_cur_valid : option UserAccountVerificationError) (valid : bool)
    (pool_info : UserOrderPoolInfo) (invalids : list B256) : M (OrderWithStorageData O) :=
  let* p := limit_price o in
  Ok (mkOrderWithStorageData o (mkOrderPriorityData p (amount o) 0 0) invalids
        (upi_pool_id pool_info) is_cur_valid (upi_is_bid pool_info) valid block
        (from_all_orders o (upi_pool_id pool_info)) 0).

Definition prepare_for_new_block (a : UserAccounts) (users : list Address) (orders : list B256) :
    UserAccounts := new_block a users orders.

Definition processor_cancel_order (a : UserAccounts) (user : Address) (hash : B256) : UserAccounts :=
  (cancel_order a user hash).2.

Abbreviation Verified := (UserAccountVerificationError + OrderWithStorageData O)%type (only parsing).

(** The nonce or block of the order, against the chain. *)
Definition check_respend (o : O) (block : Z) : M (option UserAccountVerificationError) :=
  match respend_avoidance_strategy o with
  | Nonce nonce =>
      match is_valid_nonce (from o) nonce with
      | Panic => Panic
      | Err e => Ok (Some (CouldNotFetch e))
      | Ok true => Ok None
      | Ok false => Ok (Some (DuplicateNonce (order_hash o)))
      end
  | Block order_block =>
      let* next := checked_u 64 (block + 1) in
      Ok (if next =? order_block then None else Some (BadBlock next order_block))
  end.

Definition verify_order (a : UserAccounts) (o : O) (pool_info : UserOrderPoolInfo) (block : Z) :
    M (Verified * UserAccounts) :=
  let user := from o in
  let* respend_error := check_respend o block in
  match respend_error with
  | Some e => Ok (inl e, a)
  | None =>
  if has_hook o then Ok (inl NonEmptyHook, a) else
  let conflicting_orders := respend_conflicts a user (respend_avoidance_strategy o) in
  if existsb (fun c => pa_hash c <=? order_hash o) conflicting_orders then
    Ok (inl (DuplicateNonce (order_hash o)), a)
  else
  let a1 := fold_left (fun a c => (cancel_order a user (pa_hash c)).2) conflicting_orders a in
  match get_live_state_for_order a1 user (upi_token pool_info) (validation_priority o) with
  | Panic => Panic
  | Err e => Ok (inl (CouldNotFetch e), a1)
  | Ok (live_state, a2) =>
      let* supported := can_support_order live_state o pool_info in
      match supported with
      | inr action =>
          let* (invalid_orders, a3) := insert_pending_user_action a2 (from o) action in
          let* stored := into_order_storage_with_data o block None true pool_info
                           (invalid_orders ++ map pa_hash conflicting_orders) in
          Ok (inr stored, a3)
      | inl e =>
          let* stored := into_order_storage_with_data o block (Some e) true pool_info
                           (map pa_hash conflicting_orders) in
          Ok (inr stored, a2)
      end
  end
  end.

End Processor.
End Accounts.

Import Accounts.

(** ** The priority order *)

Definition priority_key (p : OrderValidationPriority) : list Z :=
  [Z.b2z (vp_is_tob p); Z.b2z (vp_is_partial p);
   - get_ord_for_pending_orders (vp_respend p); - vp_order_hash p].

Lemma is_higher_priority_lex a b : is_higher_priority a b = lex_cmp (priority_key a) (priority_key b).
Proof.
  unfold is_higher_priority, priority_key. simpl.
  rewrite !Z.compare_opp.
  assert (Hb : forall x y, (Z.b2z x ?= Z.b2z y) = bool_cmp x y) by by intros [] [].
  rewrite !Hb. by destruct (vp_order_hash b ?= vp_order_hash a).
Qed.

Lemma higher_trans a b c :
  is_higher_priority a b <> Gt -> is_higher_priority b c <> Gt -> is_higher_priority a c <> Gt.
Proof. rewrite !is_higher_priority_lex. by apply lex_cmp_trans. Qed.

Lemma higher_anti a b : is_higher_priority a b = Gt -> is_higher_priority b a <> Gt.
Proof. rewrite !is_higher_priority_lex. apply lex_cmp_anti. Qed.

Lemma higher_irrefl a : is_higher_priority a a <> Gt.
Proof. intros H. by apply (higher_anti a a). Qed.

Abbreviation by_priority := (StronglySorted (fun x y => action_cmp x y <> Gt)) (only parsing).

Lemma sort_priority_sorted l : by_priority (sort_by action_cmp l).
Proof.
  apply sort_by_sorted; unfold action_cmp.
  - intros a b c Hab Hbc. by eapply higher_trans.
  - intros a b. apply higher_anti.
Qed.

(** ** Lists *)

Lemma sorted_filter {A} (R : A -> A -> Prop) f (l : list A) :
  StronglySorted R l -> StronglySorted R (List.filter f l).
Proof.
  induction 1 as [| x l Hl IH Hx]; simpl; [constructor |].
  case_match; [| done]. constructor; [done |]. rewrite Forall_forall in Hx |- *.
  intros y Hy. apply Hx. by apply list_filter_in in Hy as [Hy _].
Qed.

Lemma take_while_filter {A} (R : A -> A -> Prop) f (l : list A) :
  StronglySorted R l -> (forall x y, R x y -> f y = true -> f x = true) ->
  take_while f l = List.filter f l.
Proof.
  intros Hs HR. induction Hs as [| x l Hl IH Hx]; simpl; [done |].
  destruct (f x) eqn:Ex; [by rewrite IH |]. symmetry.
  rewrite Forall_forall in Hx. clear IH Hl. induction l as [| y l IH]; simpl; [done |].
  destruct (f y) eqn:Ey; [| apply IH; intros z Hz; by apply Hx, list_elem_of_further].
  rewrite (HR x y) in Ex; [done | apply Hx, list_elem_of_here | done].
Qed.

Lemma filter_perm {A} (f : A -> bool) (l k : list A) : l ≡ₚ k -> List.filter f l ≡ₚ List.filter f k.
Proof.
  induction 1 as [| x l k _ IH | x y l | l k m _ IH1 _ IH2]; simpl; [done | | | by rewrite IH1].
  - by destruct (f x); [rewrite IH |].
  - destruct (f x), (f y); try done. apply Permutation_swap.
Qed.

(** ** The invariant *)

Definition action_ok (p : PendingUserAction) : Prop :=
  u128 (pa_token_approval p) /\ u128 (token_delta p) /\ u128 (angstrom_delta p).

(** The pending actions that use nonce [n]. *)
Definition with_nonce (n : Z) (l : list PendingUserAction) : list PendingUserAction :=
  List.filter (fun p => bool_decide (vp_respend (order_priority p) = Nonce n)) l.

Definition user_ok (l : list PendingUserAction) : Prop := by_priority l /\ Forall action_ok l.

(** A token is known with all three amounts or not at all. *)
Definition base_ok (b : BaselineState) : Prop :=
  forall t,
    (token_approval b !! t = None /\ token_balance b !! t = None /\ angstrom_balance b !! t = None) \/
    exists x y z, token_approval b !! t = Some x /\ token_balance b !! t = Some y /\
      angstrom_balance b !! t = Some z /\ u256 x /\ u256 y /\ u256 z.

Definition acc_ok (a : UserAccounts) : Prop :=
  map_Forall (fun _ l => user_ok l) (pending_actions a) /\
  map_Forall (fun _ b => base_ok b) (last_known_state a).

Lemma length_filter_filter {A} (f g : A -> bool) (l : list A) :
  (length (List.filter f (List.filter g l)) <= length (List.filter f l))%nat.
Proof. induction l as [| x l IH]; simpl; [done |]. destruct (g x), (f x) eqn:E; simpl; rewrite ?E; simpl; lia. Qed.

Lemma user_ok_filter f l : user_ok l -> user_ok (List.filter f l).
Proof.
  intros (Hs & Ha). split; [by apply sorted_filter |].
  rewrite Forall_forall in Ha |- *. intros x Hx. apply Ha. by apply list_filter_in in Hx as [? _].
Qed.

Lemma user_ok_insert l x : user_ok l -> action_ok x -> user_ok (sort_by action_cmp (l ++ [x])).
Proof.
  intros (Hs & Ha) Hx. split; [apply sort_priority_sorted |].
  rewrite sort_by_perm. apply Forall_app. by split; [| constructor].
Qed.

Lemma empty_user_ok : user_ok [].
Proof. split; constructor. Qed.

Lemma pending_ok a u : acc_ok a -> user_ok (default [] (pending_actions a !! u)).
Proof.
  intros [H _]. destruct (pending_actions a !! u) as [l |] eqn:E; [by apply (H u l E) |].
  apply empty_user_ok.
Qed.

(** ** Which orders a user can fund *)

(** The actions of [l] together stay within the three amounts. *)
Definition funded (approval balance angstrom : Z) (l : list PendingUserAction) : Prop :=
  sumZ (map pa_token_approval l) <= approval /\ sumZ (map token_delta l) <= balance /\
  sumZ (map angstrom_delta l) <= angstrom.

Lemma scan_overflowed l s :
  sc_overflowed s = true -> sc_bad (fold_left scan_step l s) = sc_bad s ++ map pa_hash l.
Proof.
  revert s. induction l as [| x l IH]; intros s Hs; simpl; [by rewrite app_nil_r |].
  rewrite IH; unfold scan_step; simpl; rewrite Hs; simpl; [by rewrite <- app_assoc | done].
Qed.

Lemma uint_sub_exact x y : u256 x -> 0 <= y <= x -> uint_sub 256 x y = x - y.
Proof.
  intros [H0 H] Hy. unfold uint_sub, wrap_u. apply Z.mod_small. unfold u_max in H. lia.
Qed.

Lemma scan_step_fresh s x :
  sc_overflowed s = false ->
  let o := (sc_approval s <? pa_token_approval x) || (sc_balance s <? token_delta x)
           || (sc_angstrom s <? angstrom_delta x) in
  scan_step s x =
  mkScan (uint_sub 256 (sc_approval s) (pa_token_approval x))
    (uint_sub 256 (sc_balance s) (token_delta x)) (uint_sub 256 (sc_angstrom s) (angstrom_delta x)) o
    (if o then sc_bad s ++ [pa_hash x] else sc_bad s).
Proof. intros Ho. unfold scan_step. simpl. by rewrite Ho. Qed.

Lemma scan_split l s :
  Forall action_ok l -> sc_overflowed s = false ->
  u256 (sc_approval s) -> u256 (sc_balance s) -> u256 (sc_angstrom s) ->
  exists good rest, l = good ++ rest /\
    sc_bad (fold_left scan_step l s) = sc_bad s ++ map pa_hash rest /\
    funded (sc_approval s) (sc_balance s) (sc_angstrom s) good /\
    forall x rest', rest = x :: rest' ->
      ~ funded (sc_approval s) (sc_balance s) (sc_angstrom s) (good ++ [x]).
Proof.
  revert s. induction l as [| x l IH]; intros s Hl Ho H1 H2 H3; simpl.
  { exists [], []. unfold funded, u256 in *. simpl.
    split; [done |]. split; [by rewrite app_nil_r |]. split; [lia |]. intros ? ? [=]. }
  apply Forall_cons in Hl as [(X1 & X2 & X3) Hl]. unfold u128 in *.
  pose proof (scan_step_fresh s x Ho) as Es.
  destruct ((sc_approval s <? pa_token_approval x) || (sc_balance s <? token_delta x)
            || (sc_angstrom s <? angstrom_delta x)) eqn:Eo.
  - exists [], (x :: l). split; [done |]. rewrite Es, scan_overflowed by done. simpl.
    rewrite <- app_assoc. split; [done |]. unfold funded, u256 in *. simpl. split; [lia |].
    intros y rest' [= <- <-] (? & ? & ?). simpl in *. lia.
  - apply orb_false_iff in Eo as [[E1 E2]%orb_false_iff E3]. rewrite !Z.ltb_ge in *.
    rewrite !uint_sub_exact in Es by (done || lia).
    rewrite Es. destruct (IH (scan_step s x)) as (good & rest & -> & Hbad & Hf & Hx);
      rewrite ?Es in *; simpl in *; [done | done | unfold u256 in *; lia .. |].
    exists (x :: good), rest. split; [done |]. split; [done |]. unfold funded in *. simpl.
    split; [lia |]. intros y rest' E (? & ? & ?). apply (Hx y rest' E). simpl in *. lia.
Qed.

Lemma on_token_Forall (Q : PendingUserAction -> Prop) t l : Forall Q l -> Forall Q (on_token t l).
Proof.
  rewrite !Forall_forall. intros H x Hx. apply H. by apply list_filter_in in Hx as [? _].
Qed.

(** inserting an action splits the user's actions on its token, in order of
    priority, into those the known approval, balance and internal balance fund
    together and the rest, which is what is reported as invalidated.  The split
    is maximal: the first reported action does not fit any more.  So the
    actions that are kept never spend more than the user has. *)
Theorem invalidated_exact a user act base x y z bad a' :
  acc_ok a -> action_ok act ->
  last_known_state a !! user = Some base ->
  token_approval base !! token_address act = Some x ->
  token_balance base !! token_address act = Some y ->
  angstrom_balance base !! token_address act = Some z ->
  insert_pending_user_action a user act = Ok (bad, a') ->
  exists good rest,
    on_token (token_address act) (default [] (pending_actions a' !! user)) = good ++ rest /\
    good ++ rest ≡ₚ on_token (token_address act) (default [] (pending_actions a !! user)) ++ [act] /\
    StronglySorted (fun p q => is_higher_priority (order_priority q) (order_priority p) <> Gt) (good ++ rest) /\
    bad = map pa_hash rest /\ funded x y z good /\
    forall p rest', rest = p :: rest' -> ~ funded x y z (good ++ [p]).
Proof.
  intros Ha Hact Hb Hx Hy Hz H. unfold insert_pending_user_action in H.
  apply M_bind_Ok in H as (bad' & Hf & H). injection H as -> <-. simpl. rewrite lookup_insert_eq. simpl.
  unfold fetch_all_invalidated_orders in Hf. simpl in Hf. rewrite Hb, Hx, Hy, Hz, lookup_insert_eq in Hf.
  simpl in Hf. injection Hf as <-.
  destruct Ha as [Hp Hbase]. destruct (Hbase _ _ Hb (token_address act)) as [[E _] | (x' & y' & z' & Hr)];
    [congruence |]. rewrite Hx, Hy, Hz in Hr. destruct Hr as ([= <-] & [= <-] & [= <-] & X1 & X2 & X3).
  set (l := default [] (pending_actions a !! user)).
  assert (Hl : user_ok l) by (apply pending_ok; by split).
  assert (Hall : Forall action_ok (sort_by action_cmp (l ++ [act]))).
  { rewrite sort_by_perm. apply Forall_app. split; [apply Hl | by constructor]. }
  destruct (scan_split (on_token (token_address act) (sort_by action_cmp (l ++ [act])))
              (mkScan x y z false [])) as (good & rest & E & Hbad & Hf & Hm); simpl in *;
    [by apply on_token_Forall | done .. |].
  exists good, rest. rewrite Hbad. split; [done |]. rewrite <- E. split; [| split; [| done]].
  - unfold on_token. rewrite (filter_perm _ _ _ (sort_by_perm _ _)), List.filter_app. simpl.
    by rewrite Z.eqb_refl.
  - apply sorted_filter. apply sort_priority_sorted.
Qed.

(** ** Cancelling conflicts *)

Definition cancelled (a : UserAccounts) (u : UserAddress) (hs : list B256) : UserAccounts :=
  mkUserAccounts
    (match pending_actions a !! u with
     | None => pending_actions a
     | Some l => <[u := without_hashes hs l]> (pending_actions a)
     end) (last_known_state a).

Lemma filter_true {A} (f : A -> bool) (l : list A) : (forall x, f x = true) -> List.filter f l = l.
Proof. intros H. induction l as [| x l IH]; simpl; [done |]. by rewrite H, IH. Qed.

Lemma without_cons h hs l :
  without_hashes (h :: hs) l = without_hashes hs (List.filter (fun o => negb (pa_hash o =? h)) l).
Proof.
  unfold without_hashes. induction l as [| x l IH]; simpl in *; [done |].
  destruct (pa_hash x =? h); simpl; [done |]. by rewrite IH.
Qed.

Lemma cancel_fold a u cs :
  fold_left (fun a c => (cancel_order a u (pa_hash c)).2) cs a = cancelled a u (map pa_hash cs).
Proof.
  revert a. induction cs as [| c cs IH]; intros [p k]; unfold cancelled; simpl.
  - destruct (p !! u) as [l |] eqn:E; [| done]. f_equal. symmetry. apply insert_id.
    rewrite E. f_equal. symmetry. by apply filter_true.
  - rewrite IH. unfold cancelled, cancel_order. simpl. destruct (p !! u) as [l |] eqn:E; simpl;
      [| by rewrite E].
    by rewrite lookup_insert_eq, insert_insert_eq, without_cons.
Qed.

Lemma cancelled_ok a u hs : acc_ok a -> acc_ok (cancelled a u hs).
Proof.
  intros [Hp Hb]. split; [| done]. unfold cancelled. simpl.
  destruct (pending_actions a !! u) as [l |] eqn:E; [| done].
  apply map_Forall_insert_2; [| done]. apply user_ok_filter. by apply (Hp u).
Qed.

Lemma cancelled_pending a u hs :
  default [] (pending_actions (cancelled a u hs) !! u) =
  without_hashes hs (default [] (pending_actions a !! u)).
Proof.
  unfold cancelled. simpl. destruct (pending_actions a !! u) as [l |] eqn:E; simpl.
  - by rewrite lookup_insert_eq.
  - by rewrite E.
Qed.

Lemma conflicts_cleared a u n :
  with_nonce n (default [] (pending_actions
    (cancelled a u (map pa_hash (respend_conflicts a u (Nonce n)))) !! u)) = [].
Proof.
  rewrite cancelled_pending. unfold respend_conflicts. fold (with_nonce n (default [] (pending_actions a !! u))).
  set (l := default [] (pending_actions a !! u)). apply elem_of_nil_inv. intros x Hx.
  unfold with_nonce at 1 in Hx. apply list_filter_in in Hx as [Hx Hn].
  apply list_filter_in in Hx as [Hx Hh]. apply negb_true_iff in Hh.
  assert (Ht : existsb (Z.eqb (pa_hash x)) (map pa_hash (with_nonce n l)) = true); [| congruence].
  apply existsb_exists. exists (pa_hash x). split; [| apply Z.eqb_refl].
  apply in_map. apply list_elem_of_In, list_filter_in. by split.
Qed.

(** ** The live state *)

Class FetchLaws {S : StateFetchUtils} : Prop := {
  nonce_answers u n : is_valid_nonce u n <> Panic;
  approval_answers u t : fetch_approval_balance_for_token u t <> Panic;
  balance_answers u t : fetch_balance_for_token u t <> Panic;
  approval_u256 u t x : fetch_approval_balance_for_token u t = Ok (Some x) -> u256 x;
  balance_u256 u t x : fetch_balance_for_token u t = Ok x -> u256 x;
}.

(** The user's actions on a token that outrank a priority. *)
Definition above (a : UserAccounts) (u : UserAddress) (t : TokenAddress)
    (p : OrderValidationPriority) : list PendingUserAction :=
  List.filter (fun state => outranks state p) (on_token t (default [] (pending_actions a !! u))).

Lemma fold_spend l x y z :
  Forall action_ok l -> 0 <= x -> 0 <= y -> 0 <= z ->
  x + sumZ (map pa_token_approval l) <= u_max 256 ->
  y + sumZ (map token_delta l) <= u_max 256 -> z + sumZ (map angstrom_delta l) <= u_max 256 ->
  fold_left add_spend l (x, y, z) =
  (x + sumZ (map pa_token_approval l), y + sumZ (map token_delta l), z + sumZ (map angstrom_delta l)).
Proof.
  assert (Hw : forall x y, 0 <= x + y <= u_max 256 -> uint_add 256 x y = x + y).
  { intros. unfold uint_add, wrap_u. apply Z.mod_small. unfold u_max in *. lia. }
  intros Hl. revert x y z. induction Hl as [| p l (P1 & P2 & P3) Hl IH]; intros x y z Hx Hy Hz H1 H2 H3;
    simpl in *; [by rewrite !Z.add_0_r |].
  assert (Hs : forall f, (forall p, action_ok p -> u128 (f p)) -> 0 <= sumZ (map f l)).
  { intros f Hf. apply sumZ_nonneg, Forall_map. eapply Forall_impl; [exact Hl |].
    intros q Hq. apply (Hf q Hq). }
  pose proof (Hs pa_token_approval (fun p H => proj1 H)).
  pose proof (Hs token_delta (fun p H => proj1 (proj2 H))).
  pose proof (Hs angstrom_delta (fun p H => proj2 (proj2 H))).
  unfold u128 in *. unfold add_spend at 2. simpl. rewrite !Hw by lia. rewrite IH by lia.
  by rewrite !Z.add_assoc.
Qed.

(** No more actions than 2^128 - 1, so their sums fit a U256. *)
Definition few (a : UserAccounts) (u : UserAddress) : Prop :=
  Z.of_nat (length (default [] (pending_actions a !! u))) <= u_max 128.

Lemma filter_length_le {A} (f : A -> bool) (l : list A) : (length (List.filter f l) <= length l)%nat.
Proof. induction l as [| x l IH]; simpl; [lia |]. destruct (f x); simpl; lia. Qed.

Lemma sum_u128 l f :
  Forall (fun p => u128 (f p)) l -> Z.of_nat (length l) <= u_max 128 ->
  0 <= sumZ (map (f : PendingUserAction -> Z) l) <= u_max 256.
Proof.
  intros Hl Hn. pose proof (sumZ_bounds (map f l) 0 (u_max 128)) as H.
  rewrite length_map in H. destruct H as [H0 H1]; [by apply Forall_map |].
  assert (u_max 128 * u_max 128 <= u_max 256) by by vm_compute.
  assert (0 <= u_max 128) by by vm_compute. nia.
Qed.

Lemma live_spec a u t p live :
  acc_ok a -> few a u -> try_fetch_live_pending_state a u t p = Some live ->
  exists base x y z, last_known_state a !! u = Some base /\ token_approval base !! t = Some x /\
    token_balance base !! t = Some y /\ angstrom_balance base !! t = Some z /\
    live = mkLiveState t (Z.max 0 (x - sumZ (map pa_token_approval (above a u t p))))
             (Z.max 0 (y - sumZ (map token_delta (above a u t p))))
             (Z.max 0 (z - sumZ (map angstrom_delta (above a u t p)))).
Proof.
  intros Ha Hfew H. unfold try_fetch_live_pending_state in H.
  destruct (last_known_state a !! u) as [base |]; [| done]. simpl in H.
  destruct (token_approval base !! t) as [x |] eqn:Ex; [| done]. simpl in H.
  destruct (token_balance base !! t) as [y |] eqn:Ey; [| done]. simpl in H.
  destruct (angstrom_balance base !! t) as [z |] eqn:Ez; [| done]. simpl in H.
  exists base, x, y, z. split; [done |]. split; [done |]. split; [done |]. split; [done |].
  destruct (pending_ok a u Ha) as (Hs & Hact).
  rewrite (take_while_filter (fun x y => action_cmp x y <> Gt)) in H;
    [| by apply sorted_filter |].
  - fold (above a u t p) in H.
    assert (Hall : Forall action_ok (above a u t p)).
    { rewrite Forall_forall in Hact |- *. intros q Hq. apply Hact.
      apply list_filter_in in Hq as [Hq _]. by apply list_filter_in in Hq as [Hq _]. }
    assert (Hlen : Z.of_nat (length (above a u t p)) <= u_max 128).
    { unfold few in Hfew. unfold above, on_token.
      pose proof (filter_length_le (fun state => outranks state p)
        (List.filter (fun state => token_address state =? t) (default [] (pending_actions a !! u)))).
      pose proof (filter_length_le (fun state => token_address state =? t)
        (default [] (pending_actions a !! u))). lia. }
    rewrite fold_spend in H; [| done | done | done | done | ..].
    2-4: rewrite Z.add_0_l; apply sum_u128; [| done]; eapply Forall_impl; [exact Hall |]; intros q Hq; apply Hq.
    injection H as <-. unfold saturating_sub. simpl. done.
  - intros q r Hqr. unfold outranks. destruct (is_higher_priority (order_priority r) p) eqn:Er; try done.
    intros _. destruct (is_higher_priority (order_priority q) p) eqn:Eq; try done.
    all: exfalso; apply (higher_trans (order_priority r) (order_priority q) p); [exact Hqr | congruence | done].
Qed.

Section Verify.
Context {P : Profile} {S : StateFetchUtils} {F : FetchLaws} `{C : OrderCrypto} {O : Type}
  `{!RawPoolOrder O}.

Lemma load_ok a u t a' :
  acc_ok a -> load_state_for a u t = Ok a' ->
  acc_ok a' /\ pending_actions a' = pending_actions a /\
  exists live, forall p, exists l, try_fetch_live_pending_state a' u t p = Some l /\ ls_token l = live.
Proof.
  intros [Hp Hb] H. unfold load_state_for in H. apply M_bind_Ok in H as (fe & Hf & H).
  destruct fe as [x |]; [| done]. cbn [ok_or M_bind] in H. apply M_bind_Ok in H as (y & Hy & H).
  injection H as <-. simpl. apply approval_u256 in Hf. apply balance_u256 in Hy.
  split; [split; [done |] | split; [done |]].
  - apply map_Forall_insert_2; [| done]. intros t'. simpl. destruct (decide (t = t')) as [<- | Hne].
    + right. exists x, y, y. rewrite !lookup_insert_eq. done.
    + rewrite !lookup_insert_ne by done.
      destruct (last_known_state a !! u) as [b |] eqn:E; [apply (Hb u b E) | by left].
  - exists t. intros p. unfold try_fetch_live_pending_state. simpl.
    rewrite !lookup_insert_eq. simpl. rewrite !lookup_insert_eq. simpl. by eexists.
Qed.

Lemma get_live_ok a u t p :
  acc_ok a ->
  match get_live_state_for_order a u t p with
  | Ok (l, a') => acc_ok a' /\ pending_actions a' = pending_actions a /\
                  try_fetch_live_pending_state a' u t p = Some l
  | Err _ => True
  | Panic => False
  end.
Proof.
  intros Ha. unfold get_live_state_for_order.
  destruct (try_fetch_live_pending_state a u t p) as [l |] eqn:E; [done |].
  destruct (load_state_for a u t) as [a' | e |] eqn:El; cbn [M_bind]; [| done |].
  - destruct (load_ok a u t a' Ha El) as (Ha' & Hp & ? & Hl). destruct (Hl p) as (l & Hl' & _).
    rewrite Hl'. cbn [ok_or M_bind]. done.
  - unfold load_state_for in El. pose proof (approval_answers u t). pose proof (balance_answers u t).
    destruct (fetch_approval_balance_for_token u t) as [[x |] | |]; simpl in El; try done.
    by destruct (fetch_balance_for_token u t).
Qed.

(** The amounts of an order fit their Rust types and its price is unsigned. *)
Definition order_wf (o : O) : Prop :=
  u128 (amount o) /\ u128 (max_gas_token_0 o) /\ forall p, limit_price o = Ok p -> 0 <= p.

Lemma fetch_amount_in_u128 (o : O) q : order_wf o -> fetch_amount_in o = Ok q -> u128 q.
Proof.
  intros ([A0 A1] & [G0 G1] & Hp) H. unfold fetch_amount_in in H.
  apply M_bind_Ok in H as (p & Hlp & H). specialize (Hp p Hlp).
  destruct (is_bid o), (exact_in o).
  - injection H as <-. done.
  - apply M_bind_Ok in H as (q' & Hq & H). apply checked_u_range in Hq as [Hq _]; [| lia].
    destruct (decide (p = 0)) as [-> | Hne]; [done |].
    eapply (inverse_quantity_u128 p); [lia | done | exact H].
  - injection H as <-. done.
  - apply M_bind_Ok in H as (q' & Hq & H). by apply checked_u_range in H; [| lia].
Qed.

Definition action_of (o : O) (q : Z) (pi : UserOrderPoolInfo) : PendingUserAction :=
  mkPendingUserAction (validation_priority o) (upi_token pi)
    (if use_internal o then 0 else q) q (if use_internal o then q else 0) pi.

(** What the live state must hold for the order. *)
Definition supports (l : LiveState) (o : O) (q : Z) : Prop :=
  if use_internal o then q <= ls_angstrom_balance l else q <= ls_approval l /\ q <= ls_balance l.

Lemma to_u128_missing q x : u128 q -> 0 <= x -> x < q -> to_u128 (uint_sub 256 q x) = Ok (q - x).
Proof.
  intros [Q0 Q1] Hx Hlt. assert (Hu : u_max 128 <= u_max 256) by by vm_compute.
  rewrite uint_sub_exact; [| split; lia | lia]. apply uint_from_Ok. split; [done | lia].
Qed.

Lemma can_support_spec l (o : O) q pi :
  token_in o = ls_token l -> fetch_amount_in o = Ok q -> u128 q ->
  0 <= ls_approval l -> 0 <= ls_balance l -> 0 <= ls_angstrom_balance l ->
  (supports l o q /\ can_support_order l o pi = Ok (inr (action_of o q pi))) \/
  (~ supports l o q /\ exists e, can_support_order l o pi = Ok (inl e)).
Proof.
  intros Ht Hq Hu H1 H2 H3. unfold can_support_order, supports, action_of.
  rewrite Ht, Z.eqb_refl, Hq. cbn [negb M_bind].
  destruct (use_internal o).
  - destruct (Z.ltb_spec (ls_angstrom_balance l) q); [right | left; done].
    rewrite to_u128_missing by done. cbn [M_bind]. split; [lia | by eexists].
  - destruct (Z.ltb_spec (ls_approval l) q), (Z.ltb_spec (ls_balance l) q); [right .. | left; done];
      rewrite !to_u128_missing by done; cbn [M_bind]; (split; [lia | by eexists]).
Qed.

Lemma action_of_ok o q pi : u128 q -> action_ok (action_of o q pi).
Proof.
  intros H. assert (H0 : u128 0) by (split; [done | by vm_compute]).
  unfold action_ok, action_of. simpl. by destruct (use_internal o).
Qed.

Lemma insert_Ok a u act base :
  last_known_state a !! u = Some base -> base_ok base ->
  is_Some (token_approval base !! token_address act) ->
  exists bad, insert_pending_user_action a u act =
    Ok (bad, mkUserAccounts (<[u := sort_by action_cmp (default [] (pending_actions a !! u) ++ [act])]>
               (pending_actions a)) (last_known_state a)).
Proof.
  intros Hb Hok [x Hx]. unfold insert_pending_user_action, fetch_all_invalidated_orders. simpl.
  destruct (Hok (token_address act)) as [[E _] | (x' & y & z & Ex & Ey & Ez & _)]; [congruence |].
  rewrite Hb, Ex, Ey, Ez, lookup_insert_eq. simpl. by eexists.
Qed.

Lemma live_basic a u t p l :
  acc_ok a -> try_fetch_live_pending_state a u t p = Some l ->
  (ls_token l = t /\ 0 <= ls_approval l /\ 0 <= ls_balance l /\ 0 <= ls_angstrom_balance l) /\
  exists base, last_known_state a !! u = Some base /\ base_ok base /\ is_Some (token_approval base !! t).
Proof.
  intros [_ Hb] H. unfold try_fetch_live_pending_state in H.
  destruct (last_known_state a !! u) as [base |] eqn:Eb; [| done]. simpl in H.
  destruct (token_approval base !! t) as [x |] eqn:Ex; [| done]. simpl in H.
  destruct (token_balance base !! t) as [y |]; [| done]. simpl in H.
  destruct (angstrom_balance base !! t) as [z |]; [| done]. simpl in H.
  injection H as <-. unfold saturating_sub. simpl. split; [lia |].
  exists base. split; [done |]. split; [by apply (Hb u) | by eexists].
Qed.

Lemma push_pending_ok a u act : acc_ok a -> action_ok act -> acc_ok (push_pending_action a u act).
Proof.
  intros Ha Hact. split; [| apply Ha]. apply map_Forall_insert_2; [| apply Ha].
  apply user_ok_insert; [by apply pending_ok | done].
Qed.

(** The accounts after the conflicting orders of [o] are cancelled. *)
Definition uncontested (a : UserAccounts) (o : O) : UserAccounts :=
  cancelled a (from o) (map pa_hash (respend_conflicts a (from o) (respend_avoidance_strategy o))).

Lemma uncontested_nonce a (o : O) n :
  respend_avoidance_strategy o = Nonce n ->
  with_nonce n (default [] (pending_actions (uncontested a o) !! from o)) = [].
Proof. intros E. unfold uncontested. rewrite E. apply conflicts_cleared. Qed.

Lemma check_respend_Ok (o : O) block :
  0 <= block < u_max 64 -> exists e, check_respend o block = Ok e.
Proof.
  intros Hb. unfold check_respend. destruct (respend_avoidance_strategy o) as [n | b].
  - pose proof (nonce_answers (from o) n). destruct (is_valid_nonce (from o) n) as [[] | |]; by eauto.
  - rewrite checked_u_Ok by lia. cbn [M_bind]. by eexists.
Qed.

Lemma fetch_amount_price (o : O) q : fetch_amount_in o = Ok q -> exists p, limit_price o = Ok p.
Proof. intros H. apply M_bind_Ok in H as (p & Hp & _). by exists p. Qed.

(** Every way [verify_order] can end. *)
Lemma verify_order_cases a (o : O) pi block q :
  acc_ok a -> order_wf o -> token_in o = upi_token pi -> fetch_amount_in o = Ok q ->
  0 <= block < u_max 64 ->
  (exists e, verify_order a o pi block = Ok (inl e, a)) \/
  (exists e, verify_order a o pi block = Ok (inl e, uncontested a o)) \/
  exists l a2,
    get_live_state_for_order (uncontested a o) (from o) (upi_token pi) (validation_priority o) = Ok (l, a2) /\
    acc_ok a2 /\ pending_actions a2 = pending_actions (uncontested a o) /\
    try_fetch_live_pending_state a2 (from o) (upi_token pi) (validation_priority o) = Some l /\
    ((exists st e, verify_order a o pi block = Ok (inr st, a2) /\ ~ supports l o q /\
        currently_invalid st = Some e) \/
     (exists st, verify_order a o pi block = Ok (inr st, push_pending_action a2 (from o) (action_of o q pi)) /\
        supports l o q /\ currently_invalid st = None)).
Proof.
  intros Ha Hw Ht Hq Hb. unfold verify_order. destruct (check_respend_Ok o block Hb) as [[e |] ->];
    cbn [M_bind]; [left; by eexists |].
  destruct (has_hook o); [left; by eexists |].
  destruct (existsb _ _); [left; by eexists |]. rewrite cancel_fold. fold (uncontested a o).
  assert (Ha1 : acc_ok (uncontested a o)) by by apply cancelled_ok.
  pose proof (get_live_ok (uncontested a o) (from o) (upi_token pi) (validation_priority o) Ha1) as Hl.
  destruct (get_live_state_for_order _ _ _ _) as [[l a2] | e |] eqn:El; [| right; left; by eexists | done].
  destruct Hl as (Ha2 & Hp & Hl). right; right. exists l, a2. split; [done |]. split; [done |]. split; [done |]. split; [done |].
  destruct (live_basic _ _ _ _ _ Ha2 Hl) as [(Htok & L1 & L2 & L3) (base & Hbase & Hbok & Hap)].
  destruct (fetch_amount_price o q Hq) as [p Hlp].
  destruct (can_support_spec l o q pi) as [[Hs ->] | [Hs [e ->]]];
    [congruence | done | by eapply fetch_amount_in_u128 | done .. | |]; cbn [M_bind].
  - right. destruct (insert_Ok a2 (from o) (action_of o q pi) base Hbase Hbok Hap) as [bad ->].
    cbn [M_bind]. unfold into_order_storage_with_data. rewrite Hlp. cbn [M_bind]. by eexists.
  - left. unfold into_order_storage_with_data. rewrite Hlp. cbn [M_bind]. by do 2 eexists.
Qed.

Lemma verify_insert_ok a (o : O) q pi :
  acc_ok a -> order_wf o -> fetch_amount_in o = Ok q ->
  acc_ok (push_pending_action a (from o) (action_of o q pi)).
Proof. intros Ha Hw Hq. apply push_pending_ok; [done | by eapply action_of_ok, fetch_amount_in_u128]. Qed.

(** When an order is accepted, and with which accounts. *)
Lemma accepted_iff a (o : O) pi block q a' :
  acc_ok a -> order_wf o -> token_in o = upi_token pi -> fetch_amount_in o = Ok q ->
  0 <= block < u_max 64 ->
  (exists st, verify_order a o pi block = Ok (inr st, a') /\ currently_invalid st = None) <->
  (check_respend o block = Ok None /\ has_hook o = false /\
   existsb (fun c => pa_hash c <=? order_hash o)
     (respend_conflicts a (from o) (respend_avoidance_strategy o)) = false /\
   exists l a2,
     get_live_state_for_order (uncontested a o) (from o) (upi_token pi) (validation_priority o) = Ok (l, a2) /\
     supports l o q /\ a' = push_pending_action a2 (from o) (action_of o q pi)).
Proof.
  intros Ha Hw Ht Hq Hb. unfold verify_order. destruct (check_respend_Ok o block Hb) as [[e |] ->];
    cbn [M_bind]; [split; [by intros (? & ? & _) | by intros [? _]] |].
  destruct (has_hook o); [split; [by intros (? & ? & _) | by intros (_ & ? & _)] |].
  destruct (existsb _ _); [split; [by intros (? & ? & _) | by intros (_ & _ & ? & _)] |]. rewrite cancel_fold. fold (uncontested a o).
  assert (Ha1 : acc_ok (uncontested a o)) by by apply cancelled_ok.
  pose proof (get_live_ok (uncontested a o) (from o) (upi_token pi) (validation_priority o) Ha1) as Hl.
  destruct (get_live_state_for_order _ _ _ _) as [[l a2] | e |]; [| split; [by intros (? & ? & _) | by intros (_ & _ & _ & ? & ? & ? & _)] | done].
  destruct Hl as (Ha2 & Hp & Hl).
  destruct (live_basic _ _ _ _ _ Ha2 Hl) as [(Htok & L1 & L2 & L3) (base & Hbase & Hbok & Hap)].
  destruct (fetch_amount_price o q Hq) as [p Hlp].
  destruct (can_support_spec l o q pi) as [[Hs ->] | [Hs [e ->]]];
    [congruence | done | by eapply fetch_amount_in_u128 | done .. | |]; cbn [M_bind];
    unfold into_order_storage_with_data; rewrite Hlp.
  - destruct (insert_Ok a2 (from o) (action_of o q pi) base Hbase Hbok Hap) as [bad ->].
    cbn [M_bind]. fold (push_pending_action a2 (from o) (action_of o q pi)). split.
    + intros (st & [= <- <-] & _). repeat (split; [done |]). by exists l, a2.
    + intros (_ & _ & _ & l' & a2' & [= <- <-] & _ & ->). by eexists.
  - cbn [M_bind]. split.
    + intros (st & [= <- <-] & [=]).
    + intros (_ & _ & _ & l' & a2' & [= <- <-] & Hs' & _). done.
Qed.

(** ** Two orders with the same nonce *)

(** The accounts of one user up to an absent or empty list of actions. *)
Definition same_for (u : UserAddress) (a b : UserAccounts) : Prop :=
  last_known_state a = last_known_state b /\
  default [] (pending_actions a !! u) = default [] (pending_actions b !! u) /\
  delete u (pending_actions a) = delete u (pending_actions b).

Lemma same_for_live u a b t p :
  same_for u a b -> try_fetch_live_pending_state a u t p = try_fetch_live_pending_state b u t p.
Proof. intros (Hk & Hp & _). unfold try_fetch_live_pending_state. by rewrite Hk, Hp. Qed.

Lemma same_for_insert u a b act :
  same_for u a b -> push_pending_action a u act = push_pending_action b u act.
Proof.
  intros (Hk & Hp & Hd). unfold push_pending_action. rewrite Hk, Hp. f_equal.
  by rewrite <- (insert_delete_eq (pending_actions a)), Hd, insert_delete_eq.
Qed.

(** Loading does not depend on the priority asked for. *)
Lemma get_live_state a u t p p' l a' :
  get_live_state_for_order a u t p = Ok (l, a') ->
  exists l', get_live_state_for_order a u t p' = Ok (l', a') /\
    try_fetch_live_pending_state a' u t p' = Some l'.
Proof.
  unfold get_live_state_for_order, try_fetch_live_pending_state. intros H.
  assert (Hl : forall (a : UserAccounts) p,
    is_Some (try_fetch_live_pending_state a u t p) <-> is_Some (try_fetch_live_pending_state a u t p')).
  { intros b r. unfold try_fetch_live_pending_state.
    destruct (last_known_state b !! u) as [base |]; [simpl | done].
    destruct (token_approval base !! t), (token_balance base !! t), (angstrom_balance base !! t); simpl;
      (split; by intros []). }
  fold (try_fetch_live_pending_state a u t p) in H. fold (try_fetch_live_pending_state a u t p').
  fold (try_fetch_live_pending_state a' u t p').
  destruct (try_fetch_live_pending_state a u t p) as [l0 |] eqn:E.
  - injection H as -> ->. destruct (proj1 (Hl a' p)) as [l' ->]; [by rewrite E |]. by exists l'.
  - destruct (try_fetch_live_pending_state a u t p') as [l' |] eqn:E'.
    { destruct (proj2 (Hl a p)) as [x Hx]; [by rewrite E' |]. congruence. }
    apply M_bind_Ok in H as (b & Hb & H). rewrite Hb. cbn [M_bind].
    apply M_bind_Ok in H as (l1 & Hl1 & H). injection H as -> ->.
    fold (try_fetch_live_pending_state a' u t p) in Hl1.
    destruct (try_fetch_live_pending_state a' u t p) as [l2 |] eqn:E2; [| done].
    destruct (proj1 (Hl a' p)) as [l' Hl']; [by rewrite E2 |].
    fold (try_fetch_live_pending_state a' u t p'). rewrite Hl'. by exists l'.
Qed.

Lemma cancelled_nil a u : cancelled a u [] = a.
Proof. symmetry. apply (cancel_fold a u []). Qed.

(** Cancelling the action that was just inserted. *)
Lemma cancel_inserted a u act :
  acc_ok a -> Forall (fun p => pa_hash p <> pa_hash act) (default [] (pending_actions a !! u)) ->
  same_for u (cancelled (push_pending_action a u act) u [pa_hash act]) a.
Proof.
  intros Ha Hh. unfold cancelled, push_pending_action, same_for. simpl. rewrite lookup_insert_eq. simpl.
  rewrite insert_insert_eq, lookup_insert_eq, delete_insert_eq. simpl. split; [done |]. split; [| done].
  set (l := default [] (pending_actions a !! u)) in *. unfold without_hashes.
  rewrite sort_by_filter, List.filter_app.
  - simpl. rewrite Z.eqb_refl. simpl. rewrite app_nil_r, filter_all.
    + apply sort_by_id. apply (pending_ok a u Ha).
    + eapply Forall_impl; [exact Hh |]. intros p Hp. simpl. apply Z.eqb_neq in Hp. by rewrite Hp.
  - intros x y z. unfold action_cmp. intros Hxy Hyz. by eapply higher_trans.
  - intros x y. apply higher_anti.
Qed.

(** Once the conflicts of a nonce are gone, there are none. *)
Lemma no_conflicts a u n :
  with_nonce n (default [] (pending_actions a !! u)) = [] -> respend_conflicts a u (Nonce n) = [].
Proof. done. Qed.

Lemma inserted_conflicts a u act n :
  vp_respend (order_priority act) = Nonce n ->
  with_nonce n (default [] (pending_actions a !! u)) = [] ->
  respend_conflicts (push_pending_action a u act) u (Nonce n) = [act].
Proof.
  intros Hr Hn. unfold respend_conflicts, push_pending_action. simpl. rewrite lookup_insert_eq. simpl.
  apply Permutation_singleton_r. rewrite (filter_perm _ _ _ (sort_by_perm _ _)), List.filter_app.
  unfold with_nonce in Hn. rewrite Hn. simpl. by rewrite bool_decide_true.
Qed.

Lemma uncontested_twice a b (o : O) n :
  respend_avoidance_strategy o = Nonce n ->
  pending_actions b = pending_actions (uncontested a o) -> uncontested b o = b.
Proof.
  intros Hr Hp. unfold uncontested at 1. rewrite Hr, (no_conflicts b (from o) n).
  - apply cancelled_nil.
  - rewrite Hp. by apply uncontested_nonce.
Qed.

(** Verifying an order that loses the race leaves accounts from which the
    winner is verified as if the loser had never come. *)
Lemma loser_leaves a b (o1 o2 : O) pi q2 n :
  from o1 = from o2 -> respend_avoidance_strategy o1 = Nonce n ->
  respend_avoidance_strategy o2 = Nonce n -> order_hash o1 < order_hash o2 ->
  Forall (fun p => pa_hash p <> order_hash o2) (default [] (pending_actions a !! from o2)) ->
  acc_ok b -> pending_actions b = pending_actions (uncontested a o2) ->
  let c := push_pending_action b (from o2) (action_of o2 q2 pi) in
  existsb (fun c => pa_hash c <=? order_hash o1) (respend_conflicts c (from o1) (Nonce n)) = false /\
  same_for (from o2) (uncontested c o1) b.
Proof.
  intros Hf H1 H2 Hlt Hh Hb Hp c.
  assert (Hc : respend_conflicts c (from o1) (Nonce n) = [action_of o2 q2 pi]).
  { rewrite Hf. apply inserted_conflicts; [done |]. rewrite Hp. by apply uncontested_nonce. }
  split; [rewrite Hc; simpl; rewrite orb_false_r; apply Z.leb_gt; exact Hlt |].
  unfold uncontested. rewrite H1, Hc, Hf. apply cancel_inserted; [done |].
  rewrite Hp. unfold uncontested. rewrite cancelled_pending.
  rewrite Forall_forall in Hh |- *. intros p [Hin _]%list_filter_in. by apply Hh.
Qed.

End Verify.

(** two orders of a user with the same nonce resolve to the one with the
    lower hash whatever the order of arrival: if that order is accepted, then
    verifying the other one after it changes nothing, and verifying the other
    one before it, accepted or not, leads to the same accounts. *)
Theorem nonce_race_converges {P : Profile} {S : StateFetchUtils} {F : FetchLaws}
    `{C : OrderCrypto} {O : Type} `{!RawPoolOrder O} a (o1 o2 : O) pi block q1 q2 n st1 a1 :
  acc_ok a -> 0 <= block < u_max 64 ->
  order_wf o1 -> token_in o1 = upi_token pi -> fetch_amount_in o1 = Ok q1 ->
  order_wf o2 -> token_in o2 = upi_token pi -> fetch_amount_in o2 = Ok q2 ->
  from o1 = from o2 -> respend_avoidance_strategy o1 = Nonce n ->
  respend_avoidance_strategy o2 = Nonce n -> order_hash o1 < order_hash o2 ->
  Forall (fun p => pa_hash p <> order_hash o2) (default [] (pending_actions a !! from o2)) ->
  verify_order a o1 pi block = Ok (inr st1, a1) -> currently_invalid st1 = None ->
  (exists e, verify_order a1 o2 pi block = Ok (inl e, a1)) /\
  exists r2 a2 st1', verify_order a o2 pi block = Ok (r2, a2) /\
    verify_order a2 o1 pi block = Ok (inr st1', a1) /\ currently_invalid st1' = None.
Proof.
  intros Ha Hb W1 T1 Q1 W2 T2 Q2 Hf N1 N2 Hlt Hh Hv Hc.
  destruct (proj1 (accepted_iff a o1 pi block q1 a1 Ha W1 T1 Q1 Hb)) as
    (Hcr & Hhook & Hex & l & b & Hl & Hs & ->); [by exists st1 |].
  assert (Hu : uncontested a o1 = uncontested a o2) by (unfold uncontested; by rewrite Hf, N1, N2).
  assert (Hub : acc_ok (uncontested a o1)) by by apply cancelled_ok.
  pose proof (get_live_ok (uncontested a o1) (from o1) (upi_token pi) (validation_priority o1) Hub) as Hg.
  rewrite Hl in Hg. destruct Hg as (Hbok & Hbp & Htry).
  split.
  - unfold verify_order. destruct (check_respend_Ok o2 block Hb) as [[e |] ->]; cbn [M_bind]; [by eexists |].
    destruct (has_hook o2); [by eexists |].
    rewrite N2, <- Hf, (inserted_conflicts b (from o1) (action_of o1 q1 pi) n);
      [| done | rewrite Hbp; by apply uncontested_nonce].
    simpl. assert (Hle : (pa_hash (action_of o1 q1 pi) <=? order_hash o2) = true) by (apply Z.leb_le, Z.lt_le_incl, Hlt).
    rewrite Hle. by eexists.
  - enough (exists r2 a2, verify_order a o2 pi block = Ok (r2, a2) /\
      exists st, verify_order a2 o1 pi block = Ok (inr st, push_pending_action b (from o1) (action_of o1 q1 pi)) /\
        currently_invalid st = None) as (r2 & a2 & H2 & st & H3 & H4) by by exists r2, a2, st.
    destruct (verify_order_cases a o2 pi block q2 Ha W2 T2 Q2 Hb) as
      [[e ->] | [[e ->] | (l2 & b2 & Hl2 & Hb2 & Hp2 & _ & Hcase)]].
    + do 2 eexists. split; [done |]. by exists st1.
    + do 2 eexists. split; [done |]. rewrite <- Hu. apply (accepted_iff _ o1 pi block q1); try done.
      rewrite (uncontested_twice a (uncontested a o1) o1 n) by done. rewrite N1, (no_conflicts _ _ n) by by apply uncontested_nonce.
      by repeat (split; [done |]); exists l, b.
    + destruct (get_live_state _ _ _ _ (validation_priority o1) _ _ Hl2) as (l' & Hl' & _).
      rewrite <- Hu, <- Hf, Hl in Hl'. injection Hl' as <- <-.
      destruct Hcase as [(st & e & -> & _) | (st & -> & _)]; (do 2 eexists; split; [done |]).
      * apply (accepted_iff _ o1 pi block q1); try done. rewrite (uncontested_twice a b o1 n) by done.
        rewrite N1, (no_conflicts _ _ n) by (rewrite Hbp; by apply uncontested_nonce).
        repeat (split; [done |]). exists l, b. unfold get_live_state_for_order. by rewrite Htry.
      * destruct (loser_leaves a b o1 o2 pi q2 n) as [Hno Hsame]; try done.
        apply (accepted_iff _ o1 pi block q1); try done; [by eapply verify_insert_ok |].
        rewrite N1. repeat (split; [done |]). rewrite <- Hf in Hsame |- *.
        eexists l, _. split; [| split; [done | symmetry; apply same_for_insert; exact Hsame]].
        unfold get_live_state_for_order. by rewrite (same_for_live _ _ _ _ _ Hsame), Htry.
Qed.

(** ** The other operations keep the invariant *)

Lemma cancel_is_cancelled a u h : (cancel_order a u h).2 = cancelled a u [h].
Proof.
  unfold cancelled, cancel_order. destruct (pending_actions a !! u) as [l |]; simpl; [| by destruct a].
  symmetry. do 2 f_equal. by rewrite without_cons; unfold without_hashes; rewrite filter_true.
Qed.

Lemma cancel_ok a u h : acc_ok a -> acc_ok (processor_cancel_order a u h).
Proof. intros Ha. unfold processor_cancel_order. rewrite cancel_is_cancelled. by apply cancelled_ok. Qed.

Lemma map_Forall_deletes {V} (Q : Z -> V -> Prop) us (m : gmap Z V) :
  map_Forall Q m -> map_Forall Q (fold_left (fun m u => delete u m) us m).
Proof. revert m. induction us as [| u us IH]; intros m H; simpl; [done |]. by apply IH, map_Forall_delete. Qed.

Lemma new_block_ok a users orders : acc_ok a -> acc_ok (prepare_for_new_block a users orders).
Proof.
  intros [Hp Hb]. split; [| by apply map_Forall_deletes]. intros u l. simpl. rewrite lookup_omap.
  destruct (fold_left _ users (pending_actions a) !! u) as [k |] eqn:E; simpl; [| done].
  assert (Hk : user_ok k) by by eapply (map_Forall_deletes (fun _ l => user_ok l)), E.
  intros H. assert (l = without_hashes orders k) as -> by (destruct (without_hashes orders k); congruence).
  by apply user_ok_filter.
Qed.

Lemma new_accounts_ok : acc_ok UserAccounts_new.
Proof. split; apply map_Forall_empty. Qed.

Section Funded.
Context {P : Profile} {S : StateFetchUtils} {F : FetchLaws} `{C : OrderCrypto} {O : Type}
  `{!RawPoolOrder O}.

Lemma above_insert a u t (o : O) q pi :
  above (push_pending_action a u (action_of o q pi)) u t (validation_priority o) ≡ₚ
  above a u t (validation_priority o).
Proof.
  unfold above, on_token, push_pending_action. simpl. rewrite lookup_insert_eq. simpl.
  rewrite (filter_perm _ _ _ (filter_perm _ _ _ (sort_by_perm _ _))), !List.filter_app. simpl.
  destruct (upi_token pi =? t); simpl; [| by rewrite app_nil_r].
  unfold outranks at 2. simpl. destruct (is_higher_priority _ _) eqn:E; [by rewrite app_nil_r .. |].
  by apply higher_irrefl in E.
Qed.

Lemma few_uncontested a (o : O) : few a (from o) -> few (uncontested a o) (from o).
Proof.
  unfold few, uncontested. rewrite cancelled_pending. unfold without_hashes.
  pose proof (filter_length_le (fun p => negb (existsb (Z.eqb (pa_hash p))
    (map pa_hash (respend_conflicts a (from o) (respend_avoidance_strategy o)))))
    (default [] (pending_actions a !! from o))). lia.
Qed.

End Funded.

(** C8: an order that is accepted, its check undisturbed by another task of its
    user, is funded: the known approval and balance (or
    the internal balance, for an order that uses it) cover its amount on top of
    every pending action of the user on that token that outranks it, and it is
    now the only pending action with its nonce. *)
Theorem accepted_order_funded {P : Profile} {S : StateFetchUtils} {F : FetchLaws}
    `{C : OrderCrypto} {O : Type} `{!RawPoolOrder O} a (o : O) pi block q st a' :
  acc_ok a -> few a (from o) -> order_wf o -> token_in o = upi_token pi ->
  fetch_amount_in o = Ok q -> 0 < q -> 0 <= block < u_max 64 ->
  verify_order a o pi block = Ok (inr st, a') -> currently_invalid st = None ->
  let higher := above a' (from o) (upi_token pi) (validation_priority o) in
  (exists base x y z, last_known_state a' !! from o = Some base /\
     token_approval base !! upi_token pi = Some x /\ token_balance base !! upi_token pi = Some y /\
     angstrom_balance base !! upi_token pi = Some z /\
     if use_internal o then sumZ (map angstrom_delta higher) + q <= z
     else sumZ (map pa_token_approval higher) + q <= x /\ sumZ (map token_delta higher) + q <= y) /\
  forall n, respend_avoidance_strategy o = Nonce n ->
    with_nonce n (default [] (pending_actions a' !! from o)) = [action_of o q pi].
Proof.
  intros Ha Hfew Hw Ht Hq Hpos Hb Hv Hc higher.
  destruct (proj1 (accepted_iff a o pi block q a' Ha Hw Ht Hq Hb)) as
    (_ & _ & _ & l & b & Hl & Hs & ->); [by exists st |].
  assert (Hu : acc_ok (uncontested a o)) by by apply cancelled_ok.
  pose proof (get_live_ok (uncontested a o) (from o) (upi_token pi) (validation_priority o) Hu) as Hg.
  rewrite Hl in Hg. destruct Hg as (Hbok & Hbp & Htry).
  assert (Hfb : few b (from o)) by (unfold few; rewrite Hbp; by apply few_uncontested).
  destruct (live_spec b (from o) _ _ l Hbok Hfb Htry) as (base & x & y & z & Hk & Hx & Hy & Hz & ->).
  split.
  - exists base, x, y, z. split; [done |]. split; [done |]. split; [done |]. split; [done |].
    assert (E : forall f, sumZ (map f higher) =
      sumZ (map f (above b (from o) (upi_token pi) (validation_priority o))))
      by (intros f; apply sumZ_perm, Permutation_map, above_insert).
    rewrite !E. unfold supports in Hs. simpl in Hs.
    destruct (use_internal o); lia.
  - intros n Hn. apply (inserted_conflicts b (from o) (action_of o q pi) n); [done |].
    rewrite Hbp. by apply uncontested_nonce.
Qed.

(** ** Evaluation *)

Definition toy_raw : @RawPoolOrder toy_crypto AllOrders :=
  @AllOrders_raw toy_crypto toy_ps toy_es toy_pf toy_ef toy_tob.

(** A chain where every account has the given approval and wallet balance and
    nothing inside the contract. *)
Definition toy_chain (approval balance : Z) : StateFetchUtils := {|
  is_valid_nonce _ _ := Ok true;
  fetch_approval_balance_for_token _ _ := Ok (Some approval);
  fetch_balance_for_token _ _ := Ok balance;
  fetch_token_balance_in_angstrom _ _ := Ok 0;
|}.

Lemma toy_chain_laws x y : u256 x -> u256 y -> @FetchLaws (toy_chain x y).
Proof. intros Hx Hy. by constructor; simpl; try done; intros _ _ z [= <-]. Defined.

Definition bid_for (amt nonce : Z) (internal : bool) : AllOrders :=
  ExactStanding (mkExactStandingOrder 0 true amt 0 (10 ^ 27) internal 2 1 0 [] nonce 0
                   (mkOrderMeta true 77 [])).
Definition toy_info : UserOrderPoolInfo := mkUserOrderPoolInfo 2 true 9.

Definition toy_verify (x y : Z) (a : UserAccounts) (o : AllOrders) :
    M ((UserAccountVerificationError + OrderWithStorageData AllOrders) * UserAccounts) :=
  @verify_order dev (toy_chain x y) toy_crypto AllOrders toy_raw a o toy_info 10.

(** The state component of a result. *)
Definition accounts_after {A} (r : M (A * UserAccounts)) : UserAccounts :=
  match r with Ok (_, a) => a | _ => UserAccounts_new end.
Definition outcome_of (r : M ((UserAccountVerificationError + OrderWithStorageData AllOrders) * UserAccounts)) :
    option (option UserAccountVerificationError * list B256) :=
  match r with Ok (inr st, _) => Some (currently_invalid st, invalidates st) | _ => None end.
Definition pending_hashes (a : UserAccounts) : list B256 :=
  map pa_hash (default [] (pending_actions a !! 77)).
Definition hash_of (o : AllOrders) : B256 := @order_hash toy_crypto AllOrders toy_raw o.

(** An order on the internal balance is accepted against the wallet balance
    although nothing is deposited, and with no approval it is reported as
    invalidated by its own insertion. *)
Example internal_order_misfunded :
  @fetch_token_balance_in_angstrom (toy_chain 0 1000) 77 2 = Ok 0 /\
  outcome_of (toy_verify 0 1000 UserAccounts_new (bid_for 100 3 true)) =
    Some (None, [hash_of (bid_for 100 3 true)]).
Proof. split; vm_compute; reflexivity. Qed.

(** An unfunded order with the lower hash cancels a funded one with the same
    nonce when it comes second, and does nothing to it when it comes first. *)
Example unfunded_replaces_funded :
  pending_hashes (accounts_after (toy_verify 1000 1000 (accounts_after
    (toy_verify 1000 1000 UserAccounts_new (bid_for 3000 3 false))) (bid_for 300 3 false))) =
    [hash_of (bid_for 300 3 false)] /\
  pending_hashes (accounts_after (toy_verify 1000 1000 (accounts_after
    (toy_verify 1000 1000 UserAccounts_new (bid_for 300 3 false))) (bid_for 3000 3 false))) = [].
Proof. split; vm_compute; reflexivity. Qed.

Lemma bid_wf amt nonce internal :
  u128 amt -> @order_wf toy_crypto AllOrders toy_raw (bid_for amt nonce internal).
Proof.
  intros H. split; [exact H |]. split; [split; [done | by vm_compute] |].
  intros p [= <-]. by vm_compute.
Qed.

Lemma thousand_u256 : u256 1000.
Proof. split; [done | by vm_compute]. Qed.

Lemma accepted_order_funded_witness :
  exists st a', toy_verify 1000 1000 UserAccounts_new (bid_for 300 3 false) = Ok (inr st, a') /\
    with_nonce 3 (default [] (pending_actions a' !! 77)) =
    [@action_of toy_crypto AllOrders toy_raw (bid_for 300 3 false) 300 toy_info].
Proof.
  do 2 eexists. split; [vm_compute; reflexivity |].
  apply (@accepted_order_funded dev (toy_chain 1000 1000) (toy_chain_laws _ _ thousand_u256 thousand_u256)
           toy_crypto AllOrders toy_raw UserAccounts_new (bid_for 300 3 false) toy_info 10 300
           (match toy_verify 1000 1000 UserAccounts_new (bid_for 300 3 false) with
            | Ok (inr st, _) => st | _ => mkOrderWithStorageData (bid_for 0 0 false)
                (mkOrderPriorityData 0 0 0 0) [] 0 None true true 0 (mkOrderId 0 0 0 (Nonce 0) None None Limit) 0 end)).
  - exact new_accounts_ok.
  - vm_compute. discriminate.
  - apply bid_wf. split; [lia | by vm_compute].
  - reflexivity.
  - vm_compute. reflexivity.
  - lia.
  - split; [lia | by vm_compute].
  - vm_compute. reflexivity.
  - vm_compute. reflexivity.
  - reflexivity.
Defined.

Lemma nonce_race_converges_witness :
  exists st a1 e, toy_verify 1000 1000 UserAccounts_new (bid_for 200 3 false) = Ok (inr st, a1) /\
    toy_verify 1000 1000 a1 (bid_for 300 3 false) = Ok (inl e, a1).
Proof.
  pose (r := toy_verify 1000 1000 UserAccounts_new (bid_for 200 3 false)).
  destruct (@nonce_race_converges dev (toy_chain 1000 1000) (toy_chain_laws _ _ thousand_u256 thousand_u256)
           toy_crypto AllOrders toy_raw UserAccounts_new (bid_for 200 3 false) (bid_for 300 3 false)
           toy_info 10 200 300 3
           (match r with
            | Ok (inr st, _) => st | _ => mkOrderWithStorageData (bid_for 0 0 false)
                (mkOrderPriorityData 0 0 0 0) [] 0 None true true 0 (mkOrderId 0 0 0 (Nonce 0) None None Limit) 0 end)
           (accounts_after r)) as [[e He] _].
  - exact new_accounts_ok.
  - split; [lia | by vm_compute].
  - apply bid_wf. split; [lia | by vm_compute].
  - reflexivity.
  - vm_compute. reflexivity.
  - apply bid_wf. split; [lia | by vm_compute].
  - reflexivity.
  - vm_compute. reflexivity.
  - reflexivity.
  - reflexivity.
  - reflexivity.
  - vm_compute. reflexivity.
  - constructor.
  - vm_compute. reflexivity.
  - vm_compute. reflexivity.
  - eexists _, (accounts_after r), e. split; [vm_compute; reflexivity | exact He].
Defined.

Definition demo_action (h n amt : Z) : PendingUserAction :=
  mkPendingUserAction (mkOrderValidationPriority h false false (Nonce n)) 2 amt amt 0 toy_info.
Definition demo_accounts : UserAccounts :=
  mkUserAccounts {[ 77 := [demo_action 1 1 600] ]}
    {[ 77 := mkBaselineState {[ 2 := 1000 ]} {[ 2 := 1000 ]} {[ 2 := 1000 ]} ]}.

Lemma demo_accounts_ok : acc_ok demo_accounts.
Proof.
  assert (Hu : forall x, 0 <= x <= 1000 -> u128 x)
    by (intros x Hx; split; [lia | transitivity 1000; [lia | by vm_compute]]).
  split; apply map_Forall_singleton.
  - split; [repeat constructor |].
    constructor; [| constructor]. unfold action_ok. simpl. split; [| split]; apply Hu; lia.
  - intros t. simpl. destruct (decide (t = 2)) as [-> | Hne].
    + right. exists 1000, 1000, 1000. rewrite !lookup_singleton_eq. pose proof thousand_u256. done.
    + left. by rewrite !lookup_singleton_ne.
Qed.

Lemma invalidated_exact_witness :
  exists good rest, good ++ rest ≡ₚ [demo_action 1 1 600; demo_action 2 0 500] /\
    [1] = map pa_hash rest /\ funded 1000 1000 1000 good.
Proof.
  destruct (invalidated_exact demo_accounts 77 (demo_action 2 0 500)
    (mkBaselineState {[ 2 := 1000 ]} {[ 2 := 1000 ]} {[ 2 := 1000 ]}) 1000 1000 1000 [1]
    (accounts_after (insert_pending_user_action demo_accounts 77 (demo_action 2 0 500))))
    as (good & rest & _ & Hp & _ & Hb & Hf & _).
  - exact demo_accounts_ok.
  - unfold action_ok. simpl. repeat split; by vm_compute.
  - reflexivity.
  - reflexivity.
  - reflexivity.
  - reflexivity.
  - vm_compute. reflexivity.
  - exists good, rest. split; [exact Hp | by split].
Defined.
