(* ===== verification/StateFetch.v ===== *)
(** * Chain state access of order validation

    crates/validation/src/order/state/db_state_utils/ (nonces, balances, approvals, the
    search for the storage slots of a token) and state/config.rs (slot addresses): how the
    node reads nonces, balances and allowances from the storage of contracts.

    The database and the execution of a token's view functions are an interface
    ([EvmDb]).  The contract's own bookkeeping of nonces, contracts/src/modules/
    OrderInvalidation.sol, is the reference for the nonce check. *)

From S2P Require Import Prelude Ray Orders Accounts.
Import Accounts.

(** ** The chain *)

Class EvmDb := {
  (** A storage word; nothing when the database fails. *)
  storage_ref : Address -> Z -> option Z;
  (** Whether a storage word can be overwritten in the cache. *)
  insert_account_storage : Address -> bool;
  (** [balanceOf(owner)] and [allowance(owner, spender)] of a token, executed with some
      of its storage words overwritten, the newest first. *)
  call_balance_of : list (Z * Z) -> Address -> Address -> M Z;
  call_allowance : list (Z * Z) -> Address -> Address -> Address -> M Z;
}.

Definition ANGSTROM_NONCE_SLOT_CONST : Bytes := [218; 160; 80; 233].
Definition ANGSTROM_BALANCE_SLOT_OFFSET : Z := 4.
Definition PROBE_VALUE : Z := 123456789.

(** [abi_encode] of a pair of words. *)
Definition abi_encode2 (a b : Z) : Bytes := be_bytes 32 a ++ be_bytes 32 b.

(** ** Slots of a token (config.rs) *)

Inductive HashMethod := Solidity | Vyper.

Definition is_solidity (h : HashMethod) : bool := match h with Solidity => true | Vyper => false end.

Record TokenBalanceSlot := mkTokenBalanceSlot {
  tbs_token : Address;
  tbs_hash_method : HashMethod;
  tbs_slot_index : Z;
}.

Record TokenApprovalSlot := mkTokenApprovalSlot {
  tas_token : Address;
  tas_hash_method : HashMethod;
  tas_slot_index : Z;
}.

Definition TokenBalanceSlot_new (token : Address) (slot_index : Z) : TokenBalanceSlot :=
  mkTokenBalanceSlot token Solidity slot_index.
Definition TokenApprovalSlot_new (token : Address) (slot_index : Z) : TokenApprovalSlot :=
  mkTokenApprovalSlot token Solidity slot_index.

Section Fetching.
Context {C : OrderCrypto} {D : EvmDb}.

(** An address in bytes 12 to 32 of a buffer of 64, the index in the last one. *)
Definition address_and_index (a : Address) (index : Z) : Bytes :=
  replicate 12 0 ++ be_bytes 20 a ++ replicate 31 0 ++ [index].

Definition balance_slot (s : TokenBalanceSlot) (owner : Address) : M Z :=
  if negb (is_solidity (tbs_hash_method s)) then Err "current type of contract hashing is not supported"
  else Ok (keccak256 (address_and_index owner (tbs_slot_index s))).

Definition load_balance (s : TokenBalanceSlot) (owner : Address) : M Z :=
  let* slot := balance_slot s owner in
  ok_or (storage_ref (tbs_token s) slot) "failed to load balance slot".

Definition approval_slot (s : TokenApprovalSlot) (user contract : Address) : M Z :=
  if negb (is_solidity (tas_hash_method s)) then Err "current type of contract hashing is not supported"
  else
    let inner_hash := keccak256 (address_and_index user (tas_slot_index s)) in
    Ok (keccak256 (replicate 12 0 ++ be_bytes 20 contract ++ be_bytes 32 inner_hash)).

Definition load_approval_amount (s : TokenApprovalSlot) (user contract : Address) : M Z :=
  if negb (is_solidity (tas_hash_method s)) then Err "current type of contract hashing is not supported"
  else
    let* slot := approval_slot s user contract in
    ok_or (storage_ref (tas_token s) slot) "failed to load approval slot".

(** ** The search for the slots (finders.rs) *)

Fixpoint find_balance_offset (token probe : Address) (inserted : list (Z * Z)) (offsets : list Z) : M Z :=
  match offsets with
  | [] => Err "was not able to find balance offset"
  | offset :: rest =>
      let inserted := (keccak256 (abi_encode2 probe offset), PROBE_VALUE) :: inserted in
      if negb (insert_account_storage token) then Err "insert_account_storage" else
      let* return_data := call_balance_of inserted token probe in
      if return_data =? PROBE_VALUE then Ok offset else find_balance_offset token probe inserted rest
  end.

Definition find_slot_offset_for_balance (token probe : Address) : M Z :=
  find_balance_offset token probe [] (seqZ 0 100).

Definition allowance_word (owner spender : Address) (offset : Z) : Z :=
  keccak256 (abi_encode2 spender (keccak256 (abi_encode2 owner offset))).

Fixpoint find_approval_offset (token user contract : Address) (inserted : list (Z * Z)) (offsets : list Z) : M Z :=
  match offsets with
  | [] => Err "was not able to find approval offset"
  | offset :: rest =>
      let inserted := (allowance_word user contract offset, PROBE_VALUE) :: inserted in
      if negb (insert_account_storage token) then Panic else
      let* return_data := call_allowance inserted token user contract in
      if return_data =? PROBE_VALUE then Ok offset else find_approval_offset token user contract inserted rest
  end.

Definition find_slot_offset_for_approval (token user contract : Address) : M Z :=
  find_approval_offset token user contract [] (seqZ 0 100).

(** ** Balances *)

Record Balances := mkBalances {
  bal_tokens : gmap Address TokenBalanceSlot;
  bal_angstrom_address : Address;
}.

Definition Balances_new (angstrom_address : Address) : Balances := mkBalances ∅ angstrom_address.

(** The slot of a token, searched for on first use. *)
Definition token_balance_slot (b : Balances) (probe token : Address) : M (TokenBalanceSlot * Balances) :=
  match bal_tokens b !! token with
  | Some slot => Ok (slot, b)
  | None =>
      let* offset := find_slot_offset_for_balance token probe in
      let slot := TokenBalanceSlot_new token (wrap_u 8 offset) in
      Ok (slot, mkBalances (<[token := slot]> (bal_tokens b)) (bal_angstrom_address b))
  end.

(** [Result::ok]. *)
Definition result_ok {A} (r : M A) : M (option A) :=
  match r with Ok x => Ok (Some x) | Err _ => Ok None | Panic => Panic end.

Definition fetch_balance (b : Balances) (probe user token : Address) : M (Z * Balances) :=
  let* (slot, b) := token_balance_slot b probe token in
  let* r := result_ok (load_balance slot user) in
  Ok (default 0 r, b).

(** A word of storage, an override of it first. *)
Definition overridden_storage (overrides : gmap Address (gmap Z Z)) (token : Address) (slot : Z) : option Z :=
  match overrides !! token ≫= (fun m => m !! slot) with
  | Some v => Some v
  | None => storage_ref token slot
  end.

Definition fetch_balance_overrides (b : Balances) (probe user token : Address) (overrides : gmap Address (gmap Z Z)) :
    M (option Z * Balances) :=
  let* (slot, b) := token_balance_slot b probe token in
  let* r := result_ok (balance_slot slot user) in
  Ok (r ≫= overridden_storage overrides token, b).

Definition fetch_balance_in_angstrom (b : Balances) (token account : Address) : Z :=
  let token_slot := keccak256 (abi_encode2 token ANGSTROM_BALANCE_SLOT_OFFSET) in
  let final_slot := keccak256 (abi_encode2 token_slot account) in
  default 0 (storage_ref (bal_angstrom_address b) final_slot).

(** ** Approvals *)

Record Approvals := mkApprovals {
  app_angstrom_address : Address;
  app_slots : gmap Address TokenApprovalSlot;
}.

Definition Approvals_new (angstrom_address : Address) : Approvals := mkApprovals angstrom_address ∅.

Definition token_approval_slot (a : Approvals) (probes : Address * Address) (token : Address) :
    M (TokenApprovalSlot * Approvals) :=
  match app_slots a !! token with
  | Some slot => Ok (slot, a)
  | None =>
      let* offset := find_slot_offset_for_approval token probes.1 probes.2 in
      let slot := TokenApprovalSlot_new token (wrap_u 8 offset) in
      Ok (slot, mkApprovals (app_angstrom_address a) (<[token := slot]> (app_slots a)))
  end.

Definition fetch_approval (a : Approvals) (probes : Address * Address) (user token : Address) :
    M (option Z * Approvals) :=
  let* (slot, a) := token_approval_slot a probes token in
  let* r := result_ok (load_approval_amount slot user (app_angstrom_address a)) in
  Ok (r, a).

Definition fetch_approval_overrides (a : Approvals) (probes : Address * Address) (user token : Address)
    (overrides : gmap Address (gmap Z Z)) : M (option Z * Approvals) :=
  let* (slot, a) := token_approval_slot a probes token in
  let* r := result_ok (approval_slot slot user (app_angstrom_address a)) in
  Ok (r ≫= overridden_storage overrides token, a).

(** ** Nonces *)

Definition get_nonce_word_slot (user : Address) (nonce : Z) : B256 :=
  keccak256 (be_bytes 20 user ++ ANGSTROM_NONCE_SLOT_CONST ++ take 7 (be_bytes 8 nonce)).

Definition nonce_unused (angstrom_address user : Address) (nonce : Z) : M bool :=
  let* word := unwrap (storage_ref angstrom_address (get_nonce_word_slot user nonce)) in
  let flag := Z.shiftl 1 (nonce mod 256) in
  Ok (Z.land (Z.lxor word flag) flag =? flag).

(** ** The fetcher *)

Record FetchUtils := mkFetchUtils {
  fu_approvals : Approvals;
  fu_balances : Balances;
  fu_nonces : Address;
}.

Definition FetchUtils_new (angstrom_address : Address) : FetchUtils :=
  mkFetchUtils (Approvals_new angstrom_address) (Balances_new angstrom_address) angstrom_address.

(** What the fetcher answers with the slots it has cached; [probes] are the random
    addresses of a search. *)
Definition fetch_utils (f : FetchUtils) (probes : Address * Address) : StateFetchUtils := {|
  is_valid_nonce user nonce := nonce_unused (fu_nonces f) user nonce;
  fetch_approval_balance_for_token user token :=
    let* r := fetch_approval (fu_approvals f) probes user token in Ok r.1;
  fetch_balance_for_token user token :=
    let* r := fetch_balance (fu_balances f) probes.1 user token in Ok r.1;
  fetch_token_balance_in_angstrom user token :=
    Ok (fetch_balance_in_angstrom (fu_balances f) user token);
|}.

End Fetching.

(** The fetcher that approves of everything. *)
Definition AutoMaxFetchUtils : StateFetchUtils := {|
  is_valid_nonce _ _ := Ok true;
  fetch_approval_balance_for_token _ _ := Ok (Some (u_max 256));
  fetch_balance_for_token _ _ := Ok (u_max 256);
  fetch_token_balance_in_angstrom _ _ := Ok (u_max 256);
|}.

(** ** The contract (OrderInvalidation.sol) *)

Definition mstore (mem : Bytes) (offset : nat) (word : Z) : Bytes :=
  take offset mem ++ be_bytes 32 word ++ drop (offset + 32) mem.
Definition mem_slice (mem : Bytes) (offset size : nat) : Bytes := take size (drop offset mem).

Definition UNORDERED_NONCES_SLOT : Z := 3667939561.

(** [_invalidateNonce]: nothing when it reverts, otherwise the storage of the contract. *)
Definition invalidate_nonce `{OrderCrypto} (storage : Z -> Z) (mem : Bytes) (owner : Address) (nonce : Z) :
    option (Z -> Z) :=
  let mem := mstore mem 12 nonce in
  let mem := mstore mem 4 UNORDERED_NONCES_SLOT in
  let mem := mstore mem 0 owner in
  let bitmapPtr := keccak256 (mem_slice mem 12 31) in
  let flag := Z.shiftl 1 (Z.land nonce 255) in
  let updated := Z.lxor (storage bitmapPtr) flag in
  if Z.land updated flag =? 0 then None
  else Some (fun p => if p =? bitmapPtr then updated else storage p).

(** ** Lemmas *)

Definition bytes_ok (b : Bytes) : Prop := Forall (fun x => 0 <= x < 256) b.

Lemma be_bytes_ok n x : bytes_ok (be_bytes n x).
Proof.
  revert x. induction n as [| n IH]; intros x; [apply Forall_nil; done |]. cbn [be_bytes]. apply Forall_app.
  split; [apply IH | apply Forall_singleton, Z.mod_pos_bound; lia].
Qed.

Lemma be_bytes_app m n x : be_bytes (m + n) x = be_bytes m (x / 256 ^ Z.of_nat n) ++ be_bytes n x.
Proof.
  revert x. induction n as [| n IH]; intros x.
  - rewrite Nat.add_0_r. cbn [be_bytes]. by rewrite Z.div_1_r, app_nil_r.
  - rewrite Nat.add_succ_r. cbn [be_bytes]. rewrite IH, <- app_assoc. f_equal. f_equal.
    rewrite Nat2Z.inj_succ, Z.pow_succ_r, Z.div_div by lia. done.
Qed.

Lemma be_bytes_inj n x y :
  0 <= x < 256 ^ Z.of_nat n -> 0 <= y < 256 ^ Z.of_nat n -> be_bytes n x = be_bytes n y -> x = y.
Proof. intros Hx Hy H. rewrite <- (of_be_bytes_be n x), <- (of_be_bytes_be n y), H by done. done. Qed.

Lemma be_bytes_zero n : be_bytes n 0 = replicate n 0.
Proof. induction n as [| n IH]; [done |]. cbn [be_bytes]. rewrite Z.div_0_l, IH by lia. symmetry. apply replicate_cons_app. Qed.

(** A small number ends its word. *)
Lemma be_bytes_small m n x : 0 <= x < 256 ^ Z.of_nat n -> be_bytes (m + n) x = replicate m 0 ++ be_bytes n x.
Proof. intros Hx. by rewrite be_bytes_app, Z.div_small, be_bytes_zero. Qed.

(** What the contract hashes is what the node hashes. *)
Lemma nonce_memory mem owner nonce :
  (64 <= length mem)%nat -> 0 <= owner < 2 ^ 160 -> 0 <= nonce < 2 ^ 64 ->
  mem_slice (mstore (mstore (mstore mem 12 nonce) 4 UNORDERED_NONCES_SLOT) 0 owner) 12 31 =
  be_bytes 20 owner ++ ANGSTROM_NONCE_SLOT_CONST ++ take 7 (be_bytes 8 nonce).
Proof.
  intros Hm Ho Hn. unfold mem_slice, mstore.
  change (be_bytes 32 owner) with (be_bytes (12 + 20) owner).
  rewrite (be_bytes_small 12 20 owner Ho).
  change (be_bytes 32 UNORDERED_NONCES_SLOT) with (replicate 28 0 ++ ANGSTROM_NONCE_SLOT_CONST).
  change (be_bytes 32 nonce) with (be_bytes (24 + 8) nonce).
  rewrite (be_bytes_small 24 8 nonce Hn).
  set (rest := drop (12 + 32) mem).
  assert (H1 : drop (4 + 32) (take 12 mem ++ (replicate 24 0 ++ be_bytes 8 nonce) ++ rest) = be_bytes 8 nonce ++ rest).
  { rewrite app_assoc, app_assoc, <- (app_assoc _ (be_bytes 8 nonce)). apply drop_app_length'.
    rewrite length_app, length_take, length_replicate. lia. }
  rewrite H1. set (m1 := take 12 mem ++ _).
  assert (H2 : drop (0 + 32) (take 4 m1 ++ (replicate 28 0 ++ ANGSTROM_NONCE_SLOT_CONST) ++ be_bytes 8 nonce ++ rest) =
    ANGSTROM_NONCE_SLOT_CONST ++ be_bytes 8 nonce ++ rest).
  { rewrite <- (app_assoc (replicate 28 0)), app_assoc. apply drop_app_length'.
    rewrite length_app, length_take, length_replicate. unfold m1. rewrite !length_app, length_take, length_replicate. lia. }
  rewrite H2, take_0. cbn [app]. rewrite <- app_assoc, drop_app_length' by (by rewrite length_replicate).
  rewrite !app_assoc, <- app_assoc. rewrite (take_app_ge _ _ 31) by (rewrite length_app, be_bytes_length; cbn; lia).
  rewrite length_app, be_bytes_length. cbn [length ANGSTROM_NONCE_SLOT_CONST Nat.add Nat.sub].
  rewrite take_app_le by (rewrite be_bytes_length; lia). by rewrite <- app_assoc.
Qed.

Lemma bit_of w i : 0 <= i -> Z.land (Z.lxor w (Z.shiftl 1 i)) (Z.shiftl 1 i) = (if Z.testbit w i then 0 else Z.shiftl 1 i).
Proof.
  intros Hi. apply Z.bits_inj'. intros j Hj. rewrite Z.land_spec, Z.lxor_spec.
  replace (Z.testbit (Z.shiftl 1 i) j) with (j =? i).
  - destruct (Z.eqb_spec j i) as [-> | Hne].
    + destruct (Z.testbit w i); [by rewrite Z.bits_0 |]. cbn. rewrite Z.shiftl_1_l, Z.pow2_bits_true; done.
    + rewrite andb_false_r. destruct (Z.testbit w i); [by rewrite Z.bits_0 |].
      rewrite Z.shiftl_1_l, Z.pow2_bits_false; [done | lia].
  - rewrite Z.shiftl_1_l, Z.pow2_bits_eqb by lia. apply Z.eqb_sym.
Qed.

Lemma flag_nonzero i : 0 <= i -> Z.shiftl 1 i <> 0.
Proof. intros Hi. rewrite Z.shiftl_1_l. pose proof (Z.pow_pos_nonneg 2 i). lia. Qed.

Lemma low_byte n : Z.land n 255 = n mod 256.
Proof. change 255 with (Z.ones 8). by rewrite Z.land_ones. Qed.

Section NonceLemmas.
Context {C : OrderCrypto}.

Lemma nonce_unused_bit {D : EvmDb} angstrom user nonce w :
  storage_ref angstrom (get_nonce_word_slot user nonce) = Some w ->
  nonce_unused angstrom user nonce = Ok (negb (Z.testbit w (nonce mod 256))).
Proof.
  intros Hw. unfold nonce_unused. rewrite Hw. cbn [M_bind unwrap]. pose proof (Z.mod_pos_bound nonce 256).
  rewrite bit_of by lia. f_equal. destruct (Z.testbit w _); [| apply Z.eqb_refl].
  apply Z.eqb_neq. symmetry. apply flag_nonzero. lia.
Qed.

Lemma invalidate_bit st mem owner nonce :
  (64 <= length mem)%nat -> 0 <= owner < 2 ^ 160 -> 0 <= nonce < 2 ^ 64 ->
  let ptr := get_nonce_word_slot owner nonce in
  invalidate_nonce st mem owner nonce =
    (if Z.testbit (st ptr) (nonce mod 256) then None
     else Some (fun p => if p =? ptr then Z.lxor (st ptr) (Z.shiftl 1 (nonce mod 256)) else st p)).
Proof.
  intros Hm Ho Hn ptr. unfold invalidate_nonce. rewrite nonce_memory by done. fold (get_nonce_word_slot owner nonce).
  fold ptr. rewrite low_byte. pose proof (Z.mod_pos_bound nonce 256). rewrite bit_of by lia.
  destruct (Z.testbit _ _); [done |]. by rewrite (proj2 (Z.eqb_neq _ 0)) by (apply flag_nonzero; lia).
Qed.

(** Different users, and nonces in different words, have different words. *)
Lemma nonce_word_inj u u' n n' :
  (forall b b', length b = 31%nat -> length b' = 31%nat -> bytes_ok b -> bytes_ok b' -> keccak256 b = keccak256 b' -> b = b') ->
  0 <= u < 2 ^ 160 -> 0 <= u' < 2 ^ 160 -> 0 <= n < 2 ^ 64 -> 0 <= n' < 2 ^ 64 ->
  get_nonce_word_slot u n = get_nonce_word_slot u' n' -> u = u' /\ n / 256 = n' / 256.
Proof.
  intros Hinj Hu Hu' Hn Hn' H.
  assert (Ht : forall n, take 7 (be_bytes 8 n) = be_bytes 7 (n / 256)).
  { intros m. change 8%nat with (7 + 1)%nat. rewrite be_bytes_app. apply take_app_length'. by rewrite be_bytes_length. }
  unfold get_nonce_word_slot in H. rewrite !Ht in H.
  assert (Hok : forall u n, bytes_ok (be_bytes 20 u ++ ANGSTROM_NONCE_SLOT_CONST ++ be_bytes 7 n)).
  { intros a b. apply Forall_app. split; [apply be_bytes_ok |]. apply Forall_app. split; [| apply be_bytes_ok].
    repeat constructor; lia. }
  apply Hinj in H; [| by rewrite !length_app, !be_bytes_length .. | apply Hok | apply Hok].
  apply app_inj_1 in H as [H1 H2]; [| by rewrite !be_bytes_length]. apply app_inj_1 in H2 as [_ H2]; [| done].
  split; [exact (be_bytes_inj 20 u u' Hu Hu' H1) |].
  change (256 ^ Z.of_nat 7) with (2 ^ 56) in *. apply (be_bytes_inj 7); [| | done];
    change (256 ^ Z.of_nat 7) with (2 ^ 56); change (2 ^ 64) with (256 * 2 ^ 56) in *;
    (split; [apply Z.div_pos; lia | apply Z.div_lt_upper_bound; lia]).
Qed.

End NonceLemmas.

(** *** Tokens *)

Fixpoint overwritten (l : list (Z * Z)) (slot : Z) : option Z :=
  match l with [] => None | (s, v) :: l => if s =? slot then Some v else overwritten l slot end.

(** Keccak-256 without collisions on inputs of one length. *)
Definition collision_free `{OrderCrypto} (n : nat) : Prop :=
  forall b b', length b = n -> length b' = n -> bytes_ok b -> bytes_ok b' -> keccak256 b = keccak256 b' -> b = b'.

(** The words that a search overwrites, by index, meet the one of index [k] only there. *)
Definition only_word (word : Z -> Z) (k : Z) : Prop := forall x, 0 <= x < 100 -> word x = word k -> x = k.

Section TokenLayout.
Context {C : OrderCrypto} {D : EvmDb}.

Definition balance_word (owner : Address) (k : Z) : Z := keccak256 (abi_encode2 owner k).

Definition readable_token (token : Address) : Prop :=
  insert_account_storage token = true /\ forall p, is_Some (storage_ref token p).

(** A token of the usual Solidity layout: [balanceOf] reads a mapping at index [k],
    [allowance] a nested mapping. *)
Definition balance_layout (token : Address) (k : Z) : Prop :=
  0 <= k < 100 /\ forall l owner,
    let s := keccak256 (abi_encode2 owner k) in
    call_balance_of l token owner = Ok (default (default 0 (storage_ref token s)) (overwritten l s)).

Definition allowance_layout (token : Address) (k : Z) : Prop :=
  0 <= k < 100 /\ forall l owner spender,
    let s := allowance_word owner spender k in
    call_allowance l token owner spender = Ok (default (default 0 (storage_ref token s)) (overwritten l s)).

Lemma abi_encode2_length a b : length (abi_encode2 a b) = 64%nat.
Proof. unfold abi_encode2. by rewrite length_app, !be_bytes_length. Qed.

Lemma abi_encode2_ok a b : bytes_ok (abi_encode2 a b).
Proof. apply Forall_app. split; apply be_bytes_ok. Qed.

Lemma abi_encode2_inj a a' b b' : 0 <= a < 2 ^ 256 -> 0 <= a' < 2 ^ 256 -> 0 <= b < 2 ^ 256 -> 0 <= b' < 2 ^ 256 ->
  abi_encode2 a b = abi_encode2 a' b' -> a = a' /\ b = b'.
Proof.
  intros Ha Ha' Hb Hb' H. apply app_inj_1 in H as [H1 H2]; [| by rewrite !be_bytes_length].
  split; [exact (be_bytes_inj 32 a a' Ha Ha' H1) | exact (be_bytes_inj 32 b b' Hb Hb' H2)].
Qed.

(** The node's buffers are the encodings that Solidity hashes. *)
Lemma address_and_index_abi a k : 0 <= a < 2 ^ 160 -> 0 <= k < 256 -> address_and_index a k = abi_encode2 a k.
Proof.
  intros Ha Hk. unfold address_and_index, abi_encode2.
  rewrite (be_bytes_small 12 20 a Ha : be_bytes 32 a = _). rewrite (be_bytes_small 31 1 k Hk : be_bytes 32 k = _).
  change (be_bytes 1 k) with [k mod 256]. rewrite (Z.mod_small k 256 Hk). by rewrite <- app_assoc.
Qed.

Lemma balance_slot_abi token k owner : 0 <= owner < 2 ^ 160 -> 0 <= k < 256 ->
  balance_slot (TokenBalanceSlot_new token k) owner = Ok (keccak256 (abi_encode2 owner k)).
Proof. intros Ho Hk. unfold balance_slot. cbn [TokenBalanceSlot_new is_solidity negb tbs_hash_method tbs_slot_index].
  by rewrite address_and_index_abi. Qed.

Lemma approval_slot_abi token k owner spender : 0 <= owner < 2 ^ 160 -> 0 <= spender < 2 ^ 160 -> 0 <= k < 256 ->
  approval_slot (TokenApprovalSlot_new token k) owner spender = Ok (allowance_word owner spender k).
Proof.
  intros Ho Hs Hk. unfold approval_slot. cbn [TokenApprovalSlot_new is_solidity negb tas_hash_method tas_slot_index].
  rewrite address_and_index_abi by done. unfold allowance_word, abi_encode2 at 2.
  rewrite (be_bytes_small 12 20 spender Hs : be_bytes 32 spender = _). by rewrite <- app_assoc.
Qed.

(** The search finds the index: the other words it overwrites do not matter. *)
Lemma find_balance_at token k probe offsets l :
  only_word (balance_word probe) k -> insert_account_storage token = true -> balance_layout token k ->
  storage_ref token (balance_word probe k) <> Some PROBE_VALUE ->
  overwritten l (balance_word probe k) = None -> k ∈ offsets -> Forall (fun x => 0 <= x < 100) offsets ->
  find_balance_offset token probe l offsets = Ok k.
Proof.
  intros Hc Hi [Hk Hcall] Hfresh. revert l. induction offsets as [| x offsets IH]; intros l Hl Hin Hall;
    [by apply not_elem_of_nil in Hin |].
  apply Forall_cons in Hall as [Hx Hall]. cbn [find_balance_offset]. rewrite Hi. cbn [negb]. rewrite Hcall. cbn [M_bind overwritten].
  destruct (decide (x = k)) as [-> | Hne]; [rewrite Z.eqb_refl; reflexivity |].
  assert (Hs : balance_word probe x <> balance_word probe k) by (intros H; apply Hne; by apply Hc).
  unfold balance_word in *.
  rewrite (proj2 (Z.eqb_neq _ _) Hs), Hl. cbn [default].
  rewrite (proj2 (Z.eqb_neq _ PROBE_VALUE)).
  - apply IH; [| by apply elem_of_cons in Hin as [-> | ?] | done]. cbn [overwritten]. by rewrite (proj2 (Z.eqb_neq _ _) Hs).
  - destruct (storage_ref token _) as [v |]; cbn; [congruence | done].
Qed.

Lemma find_approval_at token k owner spender offsets l :
  only_word (allowance_word owner spender) k -> insert_account_storage token = true -> allowance_layout token k ->
  storage_ref token (allowance_word owner spender k) <> Some PROBE_VALUE ->
  overwritten l (allowance_word owner spender k) = None -> k ∈ offsets -> Forall (fun x => 0 <= x < 100) offsets ->
  find_approval_offset token owner spender l offsets = Ok k.
Proof.
  intros Hc Hi [Hk Hcall] Hfresh. revert l. induction offsets as [| x offsets IH]; intros l Hl Hin Hall;
    [by apply not_elem_of_nil in Hin |].
  apply Forall_cons in Hall as [Hx Hall]. cbn [find_approval_offset]. rewrite Hi. cbn [negb]. rewrite Hcall. cbn [M_bind overwritten].
  destruct (decide (x = k)) as [-> | Hne]; [rewrite Z.eqb_refl; reflexivity |].
  assert (Hs : allowance_word owner spender x <> allowance_word owner spender k) by (intros H; apply Hne; by apply Hc).
  rewrite (proj2 (Z.eqb_neq _ _) Hs), Hl. cbn [default].
  rewrite (proj2 (Z.eqb_neq _ PROBE_VALUE)).
  - apply IH; [| by apply elem_of_cons in Hin as [-> | ?] | done]. cbn [overwritten]. by rewrite (proj2 (Z.eqb_neq _ _) Hs).
  - destruct (storage_ref token _) as [v |]; cbn; [congruence | done].
Qed.

Lemma hundred_offsets k : 0 <= k < 100 -> k ∈ seqZ 0 100 /\ Forall (fun x => 0 <= x < 100) (seqZ 0 100).
Proof. intros Hk. split; [apply elem_of_seqZ; lia |]. apply Forall_forall. intros x Hx%elem_of_seqZ. lia. Qed.

(** What a cache may hold of a token. *)
Definition balance_cached (b : Balances) (token : Address) (k : Z) : Prop :=
  forall s, bal_tokens b !! token = Some s -> s = TokenBalanceSlot_new token k.
Definition approval_cached (a : Approvals) (token : Address) (k : Z) : Prop :=
  forall s, app_slots a !! token = Some s -> s = TokenApprovalSlot_new token k.

Lemma fetch_balance_spec b probe user token k :
  only_word (balance_word probe) k -> readable_token token -> balance_layout token k -> balance_cached b token k ->
  0 <= user < 2 ^ 160 -> storage_ref token (balance_word probe k) <> Some PROBE_VALUE ->
  exists x b', fetch_balance b probe user token = Ok (x, b') /\ call_balance_of [] token user = Ok x /\
    balance_cached b' token k /\ bal_angstrom_address b' = bal_angstrom_address b.
Proof.
  intros Hc [Hi Hr] Hl Hb Hu Hf. pose proof Hl as [Hk Hcall]. destruct (hundred_offsets k Hk) as [Hin Hall].
  assert (Hs : exists b', token_balance_slot b probe token = Ok (TokenBalanceSlot_new token k, b') /\
    balance_cached b' token k /\ bal_angstrom_address b' = bal_angstrom_address b).
  { unfold token_balance_slot. destruct (bal_tokens b !! token) as [s |] eqn:Es; [rewrite (Hb s Es); by exists b |].
    unfold find_slot_offset_for_balance. rewrite (find_balance_at token k) by done. cbn [M_bind].
    unfold wrap_u. rewrite Z.mod_small by lia. eexists. split; [done |]. split; [| done].
    intros s. cbn. rewrite lookup_insert_eq. by intros [= <-]. }
  destruct Hs as (b' & E & Hb' & Ha). destruct (Hr (keccak256 (abi_encode2 user k))) as [x Hx].
  exists x, b'. split; [| split; [rewrite Hcall; cbn [overwritten]; by rewrite Hx | done]].
  unfold fetch_balance. rewrite E. cbn [M_bind]. unfold load_balance. rewrite balance_slot_abi by lia.
  cbn [M_bind tbs_token TokenBalanceSlot_new]. by rewrite Hx.
Qed.

Lemma fetch_approval_spec a probes user token k :
  only_word (allowance_word probes.1 probes.2) k -> readable_token token -> allowance_layout token k ->
  approval_cached a token k -> 0 <= user < 2 ^ 160 ->
  0 <= app_angstrom_address a < 2 ^ 160 ->
  storage_ref token (allowance_word probes.1 probes.2 k) <> Some PROBE_VALUE ->
  exists x a', fetch_approval a probes user token = Ok (Some x, a') /\
    call_allowance [] token user (app_angstrom_address a) = Ok x /\ approval_cached a' token k /\
    app_angstrom_address a' = app_angstrom_address a.
Proof.
  intros Hc [Hi Hr] Hl Hb Hu Ha Hf. pose proof Hl as [Hk Hcall]. destruct (hundred_offsets k Hk) as [Hin Hall].
  assert (Hs : exists a', token_approval_slot a probes token = Ok (TokenApprovalSlot_new token k, a') /\
    approval_cached a' token k /\ app_angstrom_address a' = app_angstrom_address a).
  { unfold token_approval_slot. destruct (app_slots a !! token) as [s |] eqn:Es; [rewrite (Hb s Es); by exists a |].
    unfold find_slot_offset_for_approval. rewrite (find_approval_at token k) by done. cbn [M_bind].
    unfold wrap_u. rewrite Z.mod_small by lia. eexists. split; [done |]. split; [| done].
    intros s. cbn. rewrite lookup_insert_eq. by intros [= <-]. }
  destruct Hs as (a' & E & Ha' & Hang). destruct (Hr (allowance_word user (app_angstrom_address a) k)) as [x Hx].
  exists x, a'. split; [| split; [rewrite Hcall; cbn [overwritten]; by rewrite Hx | done]].
  unfold fetch_approval. rewrite E. cbn [M_bind]. unfold load_approval_amount. rewrite Hang, approval_slot_abi by lia.
  cbn [M_bind tas_token tas_hash_method is_solidity negb TokenApprovalSlot_new]. by rewrite Hx.
Qed.

End TokenLayout.

(** The fetcher answers without panicking, with 256-bit values, when the database does. *)
Lemma fetch_utils_laws {C : OrderCrypto} {D : EvmDb} f probes :
  (forall a p, exists v, storage_ref a p = Some v /\ u256 v) -> (forall a, insert_account_storage a = true) ->
  (forall l t o, call_balance_of l t o <> Panic) -> (forall l t o s, call_allowance l t o s <> Panic) ->
  FetchLaws (S := fetch_utils f probes).
Proof.
  intros Hst Hins Hb Ha.
  assert (Fb : forall offs l t p, find_balance_offset t p l offs <> Panic).
  { induction offs as [| x offs IH]; intros l t p; [done |]. cbn [find_balance_offset]. rewrite Hins. cbn [negb].
    destruct (call_balance_of _ t p) eqn:E; cbn [M_bind]; [| done | by apply Hb in E]. by destruct (_ =? _). }
  assert (Fa : forall offs l t o s, find_approval_offset t o s l offs <> Panic).
  { induction offs as [| x offs IH]; intros l t o s; [done |]. cbn [find_approval_offset]. rewrite Hins. cbn [negb].
    destruct (call_allowance _ t o s) eqn:E; cbn [M_bind]; [| done | by apply Ha in E]. by destruct (_ =? _). }
  assert (Ls : forall s o, exists r, result_ok (load_balance s o) = Ok r /\ forall v, r = Some v -> u256 v).
  { intros [t [] i] o; unfold load_balance, balance_slot; cbn; [| by eexists].
    edestruct (Hst t) as (v & -> & Hv). cbn. eexists. split; [done |]. by intros ? [= <-]. }
  assert (La : forall s o c, exists r, result_ok (load_approval_amount s o c) = Ok r /\ forall v, r = Some v -> u256 v).
  { intros [t [] i] o c; unfold load_approval_amount, approval_slot; cbn; [| by eexists].
    edestruct (Hst t) as (v & -> & Hv). cbn. eexists. split; [done |]. by intros ? [= <-]. }
  assert (Bp : forall u t, fetch_balance (fu_balances f) probes.1 u t <> Panic /\
    forall x b, fetch_balance (fu_balances f) probes.1 u t = Ok (x, b) -> u256 x).
  { intros u t. unfold fetch_balance. destruct (token_balance_slot _ _ t) as [[s b] | |] eqn:E; cbn [M_bind]; [| done |].
    - destruct (Ls s u) as (r & -> & Hr). cbn [M_bind]. split; [done |]. intros x b' [= <- <-].
      destruct r as [v |]; cbn; [by apply Hr | by vm_compute].
    - unfold token_balance_slot, find_slot_offset_for_balance in E. destruct (bal_tokens _ !! t); [done |].
      destruct (find_balance_offset _ _ _ _) eqn:E'; [done | done | by apply Fb in E']. }
  assert (Ap : forall u t, fetch_approval (fu_approvals f) probes u t <> Panic /\
    forall x a, fetch_approval (fu_approvals f) probes u t = Ok (Some x, a) -> u256 x).
  { intros u t. unfold fetch_approval. destruct (token_approval_slot _ _ t) as [[s a] | |] eqn:E; cbn [M_bind]; [| done |].
    - destruct (La s u (app_angstrom_address a)) as (r & -> & Hr). cbn [M_bind]. split; [done |]. intros x a' [= -> <-]. by apply Hr.
    - unfold token_approval_slot, find_slot_offset_for_approval in E. destruct (app_slots _ !! t); [done |].
      destruct (find_approval_offset _ _ _ _ _) eqn:E'; [done | done | by apply Fa in E']. }
  split; cbn [fetch_utils is_valid_nonce fetch_approval_balance_for_token fetch_balance_for_token].
  - intros u n. unfold nonce_unused. edestruct (Hst (fu_nonces f)) as (v & -> & _). done.
  - intros u t. destruct (Ap u t) as [H _]. by destruct (fetch_approval _ _ _ _).
  - intros u t. destruct (Bp u t) as [H _]. by destruct (fetch_balance _ _ _ _).
  - intros u t x. destruct (Ap u t) as [_ H]. destruct (fetch_approval _ _ _ _) as [[r a] | |]; cbn [M_bind]; [| done ..].
    intros [= ->]. by eapply H.
  - intros u t x. destruct (Bp u t) as [_ H]. destruct (fetch_balance _ _ _ _) as [[r b] | |]; cbn [M_bind]; [| done ..].
    intros [= ->]. by eapply H.
Qed.

(** Where the contract keeps the internal balance of an owner, for a mapping at index [p]. *)
Definition contract_balance_slot `{OrderCrypto} (p : Z) (asset owner : Address) : Z :=
  keccak256 (abi_encode2 owner (keccak256 (abi_encode2 asset p))).

(** The word read for an internal balance is the contract's word only when two hashes
    happen to be the user and the token: the arguments are swapped, and so are the words hashed. *)
Lemma internal_balance_misread {C : OrderCrypto} {D : EvmDb} b user token p :
  let user_hash := keccak256 (abi_encode2 user ANGSTROM_BALANCE_SLOT_OFFSET) in
  let asset_hash := keccak256 (abi_encode2 token p) in
  0 <= user < 2 ^ 160 -> 0 <= token < 2 ^ 160 -> 0 <= user_hash < 2 ^ 256 -> 0 <= asset_hash < 2 ^ 256 ->
  (keccak256 (abi_encode2 user_hash token) = keccak256 (abi_encode2 user asset_hash) ->
   abi_encode2 user_hash token = abi_encode2 user asset_hash) ->
  fetch_balance_in_angstrom b user token =
    default 0 (storage_ref (bal_angstrom_address b) (keccak256 (abi_encode2 user_hash token))) /\
  (keccak256 (abi_encode2 user_hash token) = contract_balance_slot p token user -> user_hash = user /\ asset_hash = token).
Proof.
  intros uh ah Hu Ht Huh Hah Hc. split; [done |]. intros H%Hc.
  apply abi_encode2_inj in H as [-> <-]; [done | done | lia | lia | done].
Qed.

(** ** Properties *)

(** C17: The nonce check agrees with the contract.  The node calls a nonce unused exactly
    when the contract would accept it, whatever its scratch memory holds; after the
    contract has used it the node calls it used, and every other nonce of every user as
    before. *)
Theorem nonce_check_follows_contract {C : OrderCrypto} {D : EvmDb} angstrom storage mem owner nonce :
  collision_free 31 -> (forall p, storage_ref angstrom p = Some (storage p)) ->
  (64 <= length mem)%nat -> 0 <= owner < 2 ^ 160 -> 0 <= nonce < 2 ^ 64 ->
  nonce_unused angstrom owner nonce = Ok (bool_decide (is_Some (invalidate_nonce storage mem owner nonce))) /\
  forall storage' (D' : EvmDb), invalidate_nonce storage mem owner nonce = Some storage' ->
    (forall p, storage_ref (EvmDb := D') angstrom p = Some (storage' p)) ->
    forall owner' nonce', 0 <= owner' < 2 ^ 160 -> 0 <= nonce' < 2 ^ 64 ->
      nonce_unused (D := D') angstrom owner' nonce' =
        if decide (owner' = owner /\ nonce' = nonce) then Ok false else nonce_unused (D := D) angstrom owner' nonce'.
Proof.
  intros Hinj Hs Hm Ho Hn. pose proof (invalidate_bit storage mem owner nonce Hm Ho Hn) as Hinv. cbn zeta in Hinv.
  rewrite (nonce_unused_bit _ _ _ _ (Hs _)), Hinv. split; [by destruct (Z.testbit _ _) |].
  intros storage' D' Hst' Hs' owner' nonce' Ho' Hn'. rewrite (nonce_unused_bit _ _ _ _ (Hs _)), (nonce_unused_bit _ _ _ _ (Hs' _)).
  destruct (Z.testbit (storage _) (nonce mod 256)) eqn:Hbit; [done |]. injection Hst' as <-. cbn beta.
  pose proof (Z.mod_pos_bound nonce 256 ltac:(lia)). pose proof (Z.mod_pos_bound nonce' 256 ltac:(lia)).
  destruct (Z.eqb_spec (get_nonce_word_slot owner' nonce') (get_nonce_word_slot owner nonce)) as [E | E].
  - rewrite <- E. rewrite <- E in Hbit. apply nonce_word_inj in E as [-> Hq]; [| done ..].
    rewrite Z.lxor_spec, Z.shiftl_1_l, Z.pow2_bits_eqb by lia.
    assert (Hmod : nonce' mod 256 = nonce mod 256 <-> nonce' = nonce) by (pose proof (Z_div_mod_eq_full nonce 256); pose proof (Z_div_mod_eq_full nonce' 256); lia).
    case_decide as Hd.
    + destruct Hd as [_ ->]. by rewrite Hbit, Z.eqb_refl.
    + rewrite (proj2 (Z.eqb_neq _ _)), xorb_false_r; [done |]. intros Heq. apply Hd. split; [done |]. by apply Hmod.
  - rewrite decide_False; [done |]. intros [-> ->]. done.
Qed.

(** Balances and allowances are read as the token reports them.  For a token whose
    balances and allowances are Solidity mappings with an index below 100, and probe
    addresses whose words are distinct and unused, the node finds both indices and answers
    for every user what
    [balanceOf] and [allowance] return; the slots it keeps stay right for later calls. *)
Theorem fetcher_reads_tokens {C : OrderCrypto} {D : EvmDb} f probes user token kb ka :
  only_word (balance_word probes.1) kb -> only_word (allowance_word probes.1 probes.2) ka ->
  readable_token token -> balance_layout token kb -> allowance_layout token ka ->
  balance_cached (fu_balances f) token kb -> approval_cached (fu_approvals f) token ka ->
  0 <= user < 2 ^ 160 -> 0 <= app_angstrom_address (fu_approvals f) < 2 ^ 160 ->
  storage_ref token (balance_word probes.1 kb) <> Some PROBE_VALUE ->
  storage_ref token (allowance_word probes.1 probes.2 ka) <> Some PROBE_VALUE ->
  exists bal app b' a',
    fetch_balance (fu_balances f) probes.1 user token = Ok (bal, b') /\ balance_cached b' token kb /\
    fetch_approval (fu_approvals f) probes user token = Ok (Some app, a') /\ approval_cached a' token ka /\
    call_balance_of [] token user = Ok bal /\
    call_allowance [] token user (app_angstrom_address (fu_approvals f)) = Ok app /\
    @fetch_balance_for_token (fetch_utils f probes) user token = Ok bal /\
    @fetch_approval_balance_for_token (fetch_utils f probes) user token = Ok (Some app).
Proof.
  intros Hc Hc' Ht Hb Ha Cb Ca Hu Han Fb Fa.
  destruct (fetch_balance_spec (fu_balances f) probes.1 user token kb) as (bal & b' & E1 & E2 & E3 & _); try done.
  destruct (fetch_approval_spec (fu_approvals f) probes user token ka) as (app & a' & E4 & E5 & E6 & _); try done.
  exists bal, app, b', a'. cbn. rewrite E1, E4. by split_and!.
Qed.

(** *** Witnesses *)

(** The bytes themselves as their hash. *)
Definition plain_crypto : OrderCrypto := {|
  Signature := unit;
  keccak256 b := of_be_bytes b;
  pade_decode_signature _ := None;
  recover_address_from_prehash _ _ := None;
  recover_address_from_msg _ _ := None;
  domain_hash_struct := 0;
|}.
#[local] Existing Instance plain_crypto.

(** Storage words as a function; a token with balances at index 3 and allowances at 4. *)
Definition plain_db (st : Z -> Z) : EvmDb := {|
  storage_ref _ p := Some (st p);
  insert_account_storage _ := true;
  call_balance_of l _ owner := Ok (default (st (balance_word owner 3)) (overwritten l (balance_word owner 3)));
  call_allowance l _ owner spender :=
    Ok (default (st (allowance_word owner spender 4)) (overwritten l (allowance_word owner spender 4)));
|}.

Lemma of_be_bytes_inj b b' :
  length b = length b' -> bytes_ok b -> bytes_ok b' -> of_be_bytes b = of_be_bytes b' -> b = b'.
Proof.
  revert b'. induction b as [| x b IH] using rev_ind; intros b'; destruct b' as [| y b' _] using rev_ind; try done;
    rewrite ?length_app; cbn; try lia.
  intros Hl [Hb Hx]%Forall_app [Hb' Hy]%Forall_app. apply (proj1 (Forall_singleton _ _)) in Hx, Hy. cbn beta in Hx, Hy.
  assert (Hsn : forall l z, of_be_bytes (l ++ [z]) = of_be_bytes l * 256 + z)
    by (intros l z; unfold of_be_bytes; by rewrite fold_left_app).
  rewrite !Hsn. intros H.
  assert (of_be_bytes b = of_be_bytes b' /\ x = y) as [H1 ->] by lia. f_equal. apply IH; [lia | done ..].
Qed.

Lemma plain_collision_free n : collision_free n.
Proof. intros b b' Hl Hl' Hb Hb' H. apply of_be_bytes_inj; [congruence | done ..]. Qed.

Lemma only_word_checked word k :
  Forall (fun x => word x = word k -> x = k) (seqZ 0 100) -> only_word word k.
Proof. intros H x Hx. apply (proj1 (Forall_forall _ _) H). apply elem_of_seqZ. lia. Qed.

Lemma plain_layouts st token :
  balance_layout (D := plain_db st) token 3 /\ allowance_layout (D := plain_db st) token 4.
Proof. split; (split; [lia |]); intros; reflexivity. Qed.

(** A nonce in the second word is used; the node then refuses it and no other. *)
Lemma nonce_check_follows_contract_witness :
  let db := plain_db (fun _ => 0) in
  nonce_unused (D := db) 50 7 300 = Ok true /\
  exists st', invalidate_nonce (fun _ => 0) (replicate 64 0) 7 300 = Some st' /\
    nonce_unused (D := plain_db st') 50 7 300 = Ok false /\ nonce_unused (D := plain_db st') 50 7 301 = Ok true.
Proof.
  intros db.
  destruct (nonce_check_follows_contract (D := db) 50 (fun _ => 0) (replicate 64 0) 7 300) as [H1 H2];
    [apply plain_collision_free | done | cbn; lia | lia | lia |].
  split; [vm_compute; reflexivity |]. destruct (invalidate_nonce _ _ _ _) as [st' |] eqn:E; [| vm_compute in E; discriminate].
  exists st'. split; [done |].
  pose proof (H2 st' (plain_db st') eq_refl (fun _ => eq_refl)) as H.
  split; [rewrite (H 7 300) by lia; reflexivity |]. rewrite (H 7 301) by lia. vm_compute. reflexivity.
Defined.

(** User 9 holds 5 and allows 6. *)
Definition token_words (p : Z) : Z :=
  if p =? balance_word 9 3 then 5 else if p =? allowance_word 9 50 4 then 6 else 0.

Lemma fetcher_reads_tokens_witness :
  let db := plain_db token_words in
  @fetch_balance_for_token (fetch_utils (D := db) (FetchUtils_new 50) (1000, 2000)) 9 77 = Ok 5 /\
  @fetch_approval_balance_for_token (fetch_utils (D := db) (FetchUtils_new 50) (1000, 2000)) 9 77 = Ok (Some 6).
Proof.
  intros db. destruct (fetcher_reads_tokens (D := db) (FetchUtils_new 50) (1000, 2000) 9 77 3 4)
    as (bal & app & b' & a' & _ & _ & _ & _ & E1 & E2 & E3 & E4).
  - apply only_word_checked, (bool_decide_unpack _). vm_compute. exact I.
  - apply only_word_checked, (bool_decide_unpack _). vm_compute. exact I.
  - split; [done |]. intros p. by eexists.
  - apply plain_layouts.
  - apply plain_layouts.
  - intros s Hs. discriminate Hs.
  - intros s Hs. discriminate Hs.
  - lia.
  - cbn. lia.
  - vm_compute. discriminate.
  - vm_compute. discriminate.
  - vm_compute in E1. injection E1 as <-. vm_compute in E2. injection E2 as <-. by split.
Defined.
