(* ===== verification/OrderPool.v ===== *)
(** * Order storage

    crates/order-pool/src/{limit,searcher,common}, finalization_pool.rs and
    order_storage.rs: the verified orders of every pool, pending or parked, the
    orders waiting for finality, and the operations of the storage on them.

    The mutexes are taken one operation at a time, so an operation is a function
    from state to state; a [Result] error comes with the state it leaves behind.
    Metrics are not modelled.  An order's size is [size_of] of its Rust type, a
    constant chosen by the compiler, hence a parameter. *)

From S2P Require Import Prelude Uniswap Ray Orders Accounts.

#[export] Instance OrderPriorityData_eq_dec : EqDecision OrderPriorityData.
Proof. solve_decision. Defined.
#[export] Program Instance OrderPriorityData_countable : Countable OrderPriorityData :=
  inj_countable' (fun p => (pd_price p, pd_volume p, pd_gas p, pd_gas_units p))
    (fun t => mkOrderPriorityData t.1.1.1 t.1.1.2 t.1.2 t.2) _.
Next Obligation. by intros []. Qed.

(** ** Pending and parked orders of one pool *)

Record PendingPool (Order : Type) := mkPendingPool {
  pp_orders : gmap B256 (OrderWithStorageData Order);
  pp_bids : gmap OrderPriorityData B256;
  pp_asks : gmap OrderPriorityData B256;
}.
Arguments mkPendingPool {Order}.
Arguments pp_orders {Order}.
Arguments pp_bids {Order}.
Arguments pp_asks {Order}.

Definition PendingPool_new {Order} : PendingPool Order := mkPendingPool ∅ ∅ ∅.

Module Pending.
Section Pending.
Context {Order : Type}.

Definition pending_get_order (p : PendingPool Order) (id : B256) : option (OrderWithStorageData Order) :=
  pp_orders p !! id.

Definition pending_add_order (p : PendingPool Order) (o : OrderWithStorageData Order) : PendingPool Order :=
  let hash := id_hash (order_id o) in
  let bids := if osd_is_bid o then <[priority_data o := hash]> (pp_bids p) else pp_bids p in
  let asks := if osd_is_bid o then pp_asks p else <[priority_data o := hash]> (pp_asks p) in
  mkPendingPool (<[hash := o]> (pp_orders p)) bids asks.

(** Each [?] returns with what was removed so far. *)
Definition pending_remove_order (p : PendingPool Order) (id : B256) :
    option (OrderWithStorageData Order) * PendingPool Order :=
  match pp_orders p !! id with
  | None => (None, p)
  | Some o =>
      let orders := delete id (pp_orders p) in
      if osd_is_bid o then
        match pp_bids p !! priority_data o with
        | None => (None, mkPendingPool orders (pp_bids p) (pp_asks p))
        | Some _ => (Some o, mkPendingPool orders (delete (priority_data o) (pp_bids p)) (pp_asks p))
        end
      else
        match pp_asks p !! priority_data o with
        | None => (None, mkPendingPool orders (pp_bids p) (pp_asks p))
        | Some _ => (Some o, mkPendingPool orders (pp_bids p) (delete (priority_data o) (pp_asks p)))
        end
  end.

Definition pending_all_orders (p : PendingPool Order) : list (OrderWithStorageData Order) :=
  map snd (map_to_list (pp_orders p)).

End Pending.
End Pending.

(** searcher/pending.rs is the same code at the type of top-of-block orders. *)
Definition SearcherPending : Type := PendingPool TopOfBlockOrder.
Definition searcher_pending_add : SearcherPending -> OrderWithStorageData TopOfBlockOrder -> SearcherPending :=
  Pending.pending_add_order.
Definition searcher_pending_remove : SearcherPending -> B256 ->
    option (OrderWithStorageData TopOfBlockOrder) * SearcherPending := Pending.pending_remove_order.

Definition ParkedPool : Type := gmap B256 (OrderWithStorageData AllOrders).

(** Removal in one entry of a map of pools. *)
Definition remove_at {A V} (remove : V -> option A * V) (m : gmap PoolId V) (id : PoolId) :
    option A * gmap PoolId V :=
  match m !! id with
  | None => (None, m)
  | Some p => let (r, p') := remove p in (r, <[id := p']> m)
  end.

Inductive LimitPoolError := LimitMaxSize | LimitNoPool (id : PoolId).
Inductive SearcherPoolError := SearcherMaxSize | SearcherNoPool (id : PoolId).

(** ** Vanilla limit orders (limit/standard.rs) *)

Record LimitPool := mkLimitPool {
  lp_pending : gmap PoolId (PendingPool AllOrders);
  lp_parked : gmap PoolId ParkedPool;
}.

Section Pools.
Context {P : Profile} {E : OrderEnv}.

Abbreviation Stored := (OrderWithStorageData AllOrders) (only parsing).


Definition parked_new_order (p : ParkedPool) (o : Stored) : ParkedPool :=
  <[order_hash (order o) := o]> p.
Definition parked_remove_order (p : ParkedPool) (id : B256) : option Stored * ParkedPool :=
  (p !! id, delete id p).

Definition LimitPool_new (ids : list PoolId) : LimitPool :=
  mkLimitPool (list_to_map (map (fun id => (id, PendingPool_new)) ids))
    (list_to_map (map (fun id => (id, ∅ : ParkedPool)) ids)).

(** [find_map] over the values of a map. *)
Definition find_values {V A} (f : V -> option A) (m : gmap PoolId V) : option A :=
  head (omap f (map snd (map_to_list m))).

Definition limit_order_status (l : LimitPool) (hash : B256) : M (option OrderStatus) :=
  match find_values (fun p => Pending.pending_get_order p hash) (lp_pending l) with
  | Some _ => Ok (Some Pending)
  | None =>
      match find_values (fun p : ParkedPool => p !! hash) (lp_parked l) with
      | None => Ok None
      | Some o =>
          let* e := unwrap (currently_invalid o) in
          let* s := expect_ok (try_from_err e) in
          Ok (Some s)
      end
  end.

Definition limit_get_order (l : LimitPool) (pool : PoolId) (id : B256) : option Stored :=
  match lp_pending l !! pool ≫= (fun p => Pending.pending_get_order p id) with
  | Some o => Some o
  | None => lp_parked l !! pool ≫= (fun p : ParkedPool => p !! id)
  end.

Definition limit_add_order (l : LimitPool) (o : Stored) : option LimitPoolError * LimitPool :=
  let pool := pool_id o in
  if is_currently_valid o then
    match lp_pending l !! pool with
    | None => (Some (LimitNoPool pool), l)
    | Some p => (None, mkLimitPool (<[pool := Pending.pending_add_order p o]> (lp_pending l)) (lp_parked l))
    end
  else
    match lp_parked l !! pool with
    | None => (Some (LimitNoPool pool), l)
    | Some p => (None, mkLimitPool (lp_pending l) (<[pool := parked_new_order p o]> (lp_parked l)))
    end.

Definition limit_remove_parked_order (l : LimitPool) (pool : PoolId) (id : B256) :
    option Stored * LimitPool :=
  let (r, parked) := remove_at (fun p => parked_remove_order p id) (lp_parked l) pool in
  (r, mkLimitPool (lp_pending l) parked).

Definition limit_remove_order (l : LimitPool) (pool : PoolId) (id : B256) : option Stored * LimitPool :=
  let (r, pending) := remove_at (fun p => Pending.pending_remove_order p id) (lp_pending l) pool in
  let l' := mkLimitPool pending (lp_parked l) in
  match r with
  | Some o => (Some o, l')
  | None => limit_remove_parked_order l' pool id
  end.

Definition limit_all_orders (l : LimitPool) : list Stored :=
  flat_map Pending.pending_all_orders (map snd (map_to_list (lp_pending l))).

Definition with_error (o : Stored) (e : UserAccountVerificationError) : Stored :=
  mkOrderWithStorageData (order o) (priority_data o) (invalidates o) (pool_id o) (Some e)
    (osd_is_bid o) (is_valid o) (valid_block o) (order_id o) (tob_reward o).

Definition limit_park_order (l : LimitPool) (id : OrderId) : M LimitPool :=
  match limit_remove_order l (id_pool_id id) (id_hash id) with
  | (None, l') => Ok l'
  | (Some o, l') =>
      match limit_add_order l' (with_error o (UnknownAccountError "parked by other transaction")) with
      | (None, l'') => Ok l''
      | (Some _, _) => Panic
      end
  end.

(** [||] does not evaluate its right side when the pending pool is new. *)
Definition limit_new_pool (l : LimitPool) (id : PoolId) : M LimitPool :=
  let pending := <[id := PendingPool_new]> (lp_pending l) in
  match lp_pending l !! id with
  | None => Ok (mkLimitPool pending (lp_parked l))
  | Some _ =>
      match lp_parked l !! id with
      | None => Ok (mkLimitPool pending (<[id := ∅ : ParkedPool]> (lp_parked l)))
      | Some _ => Panic
      end
  end.

Definition limit_remove_invalid (l : LimitPool) (hash : B256) : LimitPool :=
  mkLimitPool ((fun p => (Pending.pending_remove_order p hash).2) <$> lp_pending l)
    ((fun p : ParkedPool => (parked_remove_order p hash).2) <$> lp_parked l).

(** ** Composable limit orders (limit/composable.rs) *)

Definition ComposableLimitPool : Type := gmap PoolId (PendingPool AllOrders).

Definition ComposableLimitPool_new (ids : list PoolId) : ComposableLimitPool :=
  list_to_map (map (fun id => (id, PendingPool_new)) ids).

Definition composable_get_order (c : ComposableLimitPool) (pool : PoolId) (id : B256) : option Stored :=
  c !! pool ≫= (fun p => Pending.pending_get_order p id).

Definition composable_add_order (c : ComposableLimitPool) (o : Stored) :
    option LimitPoolError * ComposableLimitPool :=
  match c !! pool_id o with
  | None => (Some (LimitNoPool (pool_id o)), c)
  | Some p => (None, <[pool_id o := Pending.pending_add_order p o]> c)
  end.

Definition composable_remove_order (c : ComposableLimitPool) (pool : PoolId) (id : B256) :
    option Stored * ComposableLimitPool :=
  remove_at (fun p => Pending.pending_remove_order p id) c pool.

Definition composable_new_pool (c : ComposableLimitPool) (id : PoolId) : M ComposableLimitPool :=
  match c !! id with None => Ok (<[id := PendingPool_new]> c) | Some _ => Panic end.

Definition composable_remove_invalid (c : ComposableLimitPool) (hash : B256) : ComposableLimitPool :=
  (fun p => (Pending.pending_remove_order p hash).2) <$> c.

(** ** Sizes (common/size.rs) *)

Record SizeTracker := mkSizeTracker {
  st_max : option Z;
  st_current : Z;
}.

Definition has_space (s : SizeTracker) (size : Z) : M (bool * SizeTracker) :=
  let* sum := checked_u 64 (st_current s + size) in
  match st_max s with
  | Some max => if sum <=? max then Ok (true, mkSizeTracker (st_max s) sum) else Ok (false, s)
  | None => Ok (true, mkSizeTracker (st_max s) sum)
  end.

Definition size_remove_order (s : SizeTracker) (size : Z) : M SizeTracker :=
  let* current := checked_u 64 (st_current s - size) in Ok (mkSizeTracker (st_max s) current).

(** [size_of::<AllOrders>()] and [size_of::<TopOfBlockOrder>()]. *)
Context (size_all size_tob : Z).

(** ** All limit orders (limit/mod.rs) *)

Record LimitOrderPool := mkLimitOrderPool {
  lop_limit : LimitPool;
  lop_composable : ComposableLimitPool;
  lop_size : SizeTracker;
}.

Definition LimitOrderPool_new (ids : list PoolId) (max_size : option Z) : LimitOrderPool :=
  mkLimitOrderPool (LimitPool_new ids) (ComposableLimitPool_new ids) (mkSizeTracker max_size 0).

Definition lop_get_order (l : LimitOrderPool) (id : OrderId) : option Stored :=
  match limit_get_order (lop_limit l) (id_pool_id id) (id_hash id) with
  | Some o => Some o
  | None => composable_get_order (lop_composable l) (id_pool_id id) (id_hash id)
  end.

Definition lop_remove_pool (l : LimitOrderPool) (key : PoolId) : LimitOrderPool :=
  mkLimitOrderPool
    (mkLimitPool (delete key (lp_pending (lop_limit l))) (delete key (lp_parked (lop_limit l))))
    (delete key (lop_composable l)) (lop_size l).

Definition add_composable_order (l : LimitOrderPool) (o : Stored) :
    M (option LimitPoolError * LimitOrderPool) :=
  let* (fits, size) := has_space (lop_size l) size_all in
  if (fits : bool) then
    let (e, c) := composable_add_order (lop_composable l) o in
    Ok (e, mkLimitOrderPool (lop_limit l) c size)
  else Ok (Some LimitMaxSize, mkLimitOrderPool (lop_limit l) (lop_composable l) size).

Definition add_vanilla_order (l : LimitOrderPool) (o : Stored) :
    M (option LimitPoolError * LimitOrderPool) :=
  let* (fits, size) := has_space (lop_size l) size_all in
  if (fits : bool) then
    let (e, p) := limit_add_order (lop_limit l) o in
    Ok (e, mkLimitOrderPool p (lop_composable l) size)
  else Ok (Some LimitMaxSize, mkLimitOrderPool (lop_limit l) (lop_composable l) size).

Definition lop_remove_order (l : LimitOrderPool) (id : OrderId) : option Stored * LimitOrderPool :=
  let (r, p) := limit_remove_order (lop_limit l) (id_pool_id id) (id_hash id) in
  match r with
  | Some o => (Some o, mkLimitOrderPool p (lop_composable l) (lop_size l))
  | None =>
      let (r, c) := composable_remove_order (lop_composable l) (id_pool_id id) (id_hash id) in
      (r, mkLimitOrderPool p c (lop_size l))
  end.

Definition lop_remove_parked_order (l : LimitOrderPool) (id : OrderId) :
    option Stored * LimitOrderPool :=
  let (r, p) := limit_remove_parked_order (lop_limit l) (id_pool_id id) (id_hash id) in
  match r with
  | Some o => (Some o, mkLimitOrderPool p (lop_composable l) (lop_size l))
  | None =>
      let (r, c) := composable_remove_order (lop_composable l) (id_pool_id id) (id_hash id) in
      (r, mkLimitOrderPool p c (lop_size l))
  end.

Definition lop_all_orders_from_pool (l : LimitOrderPool) (pool : PoolId) : list AllOrders :=
  match lp_pending (lop_limit l) !! pool with
  | Some p => map order (Pending.pending_all_orders p)
  | None => []
  end.

Definition lop_park_order (l : LimitOrderPool) (id : OrderId) : M LimitOrderPool :=
  let* p := limit_park_order (lop_limit l) id in
  Ok (mkLimitOrderPool p (lop_composable l) (lop_size l)).

Definition lop_new_pool (l : LimitOrderPool) (id : PoolId) : M LimitOrderPool :=
  let* p := limit_new_pool (lop_limit l) id in
  let* c := composable_new_pool (lop_composable l) id in
  Ok (mkLimitOrderPool p c (lop_size l)).

Definition lop_remove_invalid (l : LimitOrderPool) (hash : B256) : LimitOrderPool :=
  mkLimitOrderPool (limit_remove_invalid (lop_limit l) hash)
    (composable_remove_invalid (lop_composable l) hash) (lop_size l).

(** ** Searcher orders (searcher/mod.rs) *)

Record SearcherPool := mkSearcherPool {
  sp_orders : gmap PoolId SearcherPending;
  sp_size : SizeTracker;
}.

Definition SearcherPool_new (ids : list PoolId) (max_size : option Z) : SearcherPool :=
  mkSearcherPool (list_to_map (map (fun id => (id, PendingPool_new)) ids)) (mkSizeTracker max_size 0).

Definition sp_all_orders_from_pool (s : SearcherPool) (pool : PoolId) : list AllOrders :=
  match sp_orders s !! pool with
  | Some p => map (fun o => TOB (order o)) (Pending.pending_all_orders p)
  | None => []
  end.

Definition sp_has_order (s : SearcherPool) (hash : B256) : bool :=
  match find_values (fun p => Pending.pending_get_order p hash) (sp_orders s) with Some _ => true | None => false end.

Definition sp_get_order (s : SearcherPool) (pool : PoolId) (id : B256) :
    option (OrderWithStorageData TopOfBlockOrder) :=
  sp_orders s !! pool ≫= (fun p => Pending.pending_get_order p id).

Definition add_searcher_order (s : SearcherPool) (o : OrderWithStorageData TopOfBlockOrder) :
    M (option SearcherPoolError * SearcherPool) :=
  let* (fits, size) := has_space (sp_size s) size_tob in
  if (fits : bool) then
    match sp_orders s !! pool_id o with
    | None => Ok (Some (SearcherNoPool (pool_id o)), mkSearcherPool (sp_orders s) size)
    | Some p => Ok (None, mkSearcherPool (<[pool_id o := searcher_pending_add p o]> (sp_orders s)) size)
    end
  else Ok (Some SearcherMaxSize, mkSearcherPool (sp_orders s) size).

Definition sp_remove_order (s : SearcherPool) (id : OrderId) :
    option (OrderWithStorageData TopOfBlockOrder) * SearcherPool :=
  let (r, m) := remove_at (fun p => searcher_pending_remove p (id_hash id)) (sp_orders s) (id_pool_id id) in
  (r, mkSearcherPool m (sp_size s)).

Definition sp_orders_for_pool (s : SearcherPool) (pool : PoolId) :
    option (list (OrderWithStorageData TopOfBlockOrder)) :=
  Pending.pending_all_orders <$> sp_orders s !! pool.

Definition sp_new_pool (s : SearcherPool) (id : PoolId) : M SearcherPool :=
  match sp_orders s !! id with
  | None => Ok (mkSearcherPool (<[id := PendingPool_new]> (sp_orders s)) (sp_size s))
  | Some _ => Panic
  end.

Definition sp_remove_pool (s : SearcherPool) (key : PoolId) : SearcherPool :=
  mkSearcherPool (delete key (sp_orders s)) (sp_size s).

(** A removed order gives back one byte. *)
Definition sp_remove_invalid (s : SearcherPool) (hash : B256) : M SearcherPool :=
  M_fold (fun s (e : PoolId * SearcherPending) =>
            let (r, p) := searcher_pending_remove e.2 hash in
            let* size := match r with Some _ => size_remove_order (sp_size s) 1 | None => Ok (sp_size s) end in
            Ok (mkSearcherPool (<[e.1 := p]> (sp_orders s)) size))
    s (map_to_list (sp_orders s)).

(** ** Orders waiting for finality (finalization_pool.rs) *)

Record FinalizationPool := mkFinalizationPool {
  id_to_orders : gmap B256 Stored;
  block_to_ids : gmap Z (list B256);
}.

Definition FinalizationPool_new : FinalizationPool := mkFinalizationPool ∅ ∅.

Definition new_orders (f : FinalizationPool) (block : Z) (orders : list Stored) : M FinalizationPool :=
  let ids := map (fun o => order_hash (order o)) orders in
  let by_id := fold_left (fun m o => <[order_hash (order o) := o]> m) orders (id_to_orders f) in
  match block_to_ids f !! block with
  | Some _ => Panic
  | None => Ok (mkFinalizationPool by_id (<[block := ids]> (block_to_ids f)))
  end.

Definition fin_has_order (f : FinalizationPool) (hash : B256) : bool :=
  match id_to_orders f !! hash with Some _ => true | None => false end.

(** Removes the hashes one by one, keeping what was found. *)
Fixpoint remove_ids (m : gmap B256 Stored) (ids : list B256) : list Stored * gmap B256 Stored :=
  match ids with
  | [] => ([], m)
  | h :: ids =>
      let (r, m') := remove_ids (delete h m) ids in
      (match m !! h with Some o => o :: r | None => r end, m')
  end.

Definition fin_reorg (f : FinalizationPool) (orders : list B256) : list Stored * FinalizationPool :=
  let (r, m) := remove_ids (id_to_orders f) orders in (r, mkFinalizationPool m (block_to_ids f)).

Definition finalized (f : FinalizationPool) (block : Z) : list Stored * FinalizationPool :=
  match block_to_ids f !! block with
  | None => ([], f)
  | Some ids =>
      let (r, m) := remove_ids (id_to_orders f) ids in
      (r, mkFinalizationPool m (delete block (block_to_ids f)))
  end.

(** ** The storage (order_storage.rs) *)

Record OrderStorage := mkOrderStorage {
  limit_orders : LimitOrderPool;
  searcher_orders : SearcherPool;
  pending_finalization_orders : FinalizationPool;
  filled_orders : gmap B256 Z;
}.

Definition OrderStorage_new (ids : list PoolId) (lo_max s_max : Z) : OrderStorage :=
  mkOrderStorage (LimitOrderPool_new ids (Some lo_max)) (SearcherPool_new ids (Some s_max))
    FinalizationPool_new ∅.

Definition set_limit (s : OrderStorage) (l : LimitOrderPool) : OrderStorage :=
  mkOrderStorage l (searcher_orders s) (pending_finalization_orders s) (filled_orders s).
Definition set_searcher (s : OrderStorage) (p : SearcherPool) : OrderStorage :=
  mkOrderStorage (limit_orders s) p (pending_finalization_orders s) (filled_orders s).
Definition set_finalization (s : OrderStorage) (f : FinalizationPool) : OrderStorage :=
  mkOrderStorage (limit_orders s) (searcher_orders s) f (filled_orders s).

Definition storage_remove_pool (s : OrderStorage) (key : PoolId) : OrderStorage :=
  set_limit (set_searcher s (sp_remove_pool (searcher_orders s) key))
    (lop_remove_pool (limit_orders s) key).

Definition fetch_status_of_order (s : OrderStorage) (hash : B256) : M (option OrderStatus) :=
  if bool_decide (is_Some (filled_orders s !! hash)) && fin_has_order (pending_finalization_orders s) hash
  then Ok (Some Filled)
  else if sp_has_order (searcher_orders s) hash then Ok (Some Pending)
  else limit_order_status (lop_limit (limit_orders s)) hash.

Definition get_orders_by_pool (s : OrderStorage) (pool : PoolId) (location : OrderLocation) :
    list AllOrders :=
  match location with
  | Limit => lop_all_orders_from_pool (limit_orders s) pool
  | Searcher => sp_all_orders_from_pool (searcher_orders s) pool
  end.

Definition as_tob (o : OrderWithStorageData TopOfBlockOrder) : Stored := with_order o (TOB (order o)).

Definition remove_limit_order (s : OrderStorage) (id : OrderId) : option Stored * OrderStorage :=
  let (r, l) := lop_remove_order (limit_orders s) id in (r, set_limit s l).

Definition remove_searcher_order (s : OrderStorage) (id : OrderId) : option Stored * OrderStorage :=
  let (r, p) := sp_remove_order (searcher_orders s) id in (as_tob <$> r, set_searcher s p).

Definition storage_remove_order (s : OrderStorage) (id : OrderId) : option Stored * OrderStorage :=
  match id_location id with
  | Limit => remove_limit_order s id
  | Searcher => remove_searcher_order s id
  end.

Definition remove_order_from_id (s : OrderStorage) (id : OrderId) : option Stored * OrderStorage :=
  match id_location id with
  | Limit => let (r, l) := lop_remove_order (limit_orders s) id in (r, set_limit s l)
  | Searcher => let (r, p) := sp_remove_order (searcher_orders s) id in (as_tob <$> r, set_searcher s p)
  end.

Definition get_order_from_id (s : OrderStorage) (id : OrderId) : option Stored :=
  match id_location id with
  | Limit => lop_get_order (limit_orders s) id
  | Searcher => as_tob <$> sp_get_order (searcher_orders s) (id_pool_id id) (id_hash id)
  end.

Definition storage_cancel_order (s : OrderStorage) (id : OrderId) : option Stored * OrderStorage :=
  if fin_has_order (pending_finalization_orders s) (id_hash id) then (None, s) else
  match id_location id with
  | Limit => let (r, l) := lop_remove_order (limit_orders s) id in (r, set_limit s l)
  | Searcher => let (r, p) := sp_remove_order (searcher_orders s) id in (as_tob <$> r, set_searcher s p)
  end.

Definition storage_park_orders (s : OrderStorage) (order_info : list OrderId) : M OrderStorage :=
  let* l := M_fold (fun l id => match id_location id with
                                | Limit => lop_park_order l id
                                | Searcher => Ok l
                                end) (limit_orders s) order_info in
  Ok (set_limit s l).

Definition top_tob_orders (s : OrderStorage) : M (list (OrderWithStorageData TopOfBlockOrder)) :=
  let* ls := M_map (fun id => unwrap (sp_orders_for_pool (searcher_orders s) id))
               (map fst (map_to_list (sp_orders (searcher_orders s)))) in
  Ok (concat ls).

Definition add_new_limit_order (s : OrderStorage) (o : Stored) :
    M (option LimitPoolError * OrderStorage) :=
  let* (e, l) := if is_vanilla (order o) then add_vanilla_order (limit_orders s) o
                 else add_composable_order (limit_orders s) o in
  Ok (e, set_limit s l).

Definition add_new_searcher_order (s : OrderStorage) (o : OrderWithStorageData TopOfBlockOrder) :
    M (option SearcherPoolError * OrderStorage) :=
  let* (e, p) := add_searcher_order (searcher_orders s) o in Ok (e, set_searcher s p).

Definition add_filled_orders (s : OrderStorage) (block : Z) (orders : list Stored) : M OrderStorage :=
  let* f := new_orders (pending_finalization_orders s) block orders in Ok (set_finalization s f).

Definition finalized_block (s : OrderStorage) (block : Z) : OrderStorage :=
  set_finalization s (finalized (pending_finalization_orders s) block).2.

Definition reorg (s : OrderStorage) (hashes : list B256) : list Stored * OrderStorage :=
  let (r, f) := fin_reorg (pending_finalization_orders s) hashes in (r, set_finalization s f).

Definition remove_parked_order (s : OrderStorage) (id : OrderId) : option Stored * OrderStorage :=
  let (r, l) := lop_remove_parked_order (limit_orders s) id in (r, set_limit s l).

Definition storage_all_orders (s : OrderStorage) : M (OrderSet AllOrders TopOfBlockOrder) :=
  let limit := limit_all_orders (lop_limit (limit_orders s)) in
  let* searcher := top_tob_orders s in
  Ok (mkOrderSet limit searcher).

Definition storage_new_pool (s : OrderStorage) (id : PoolId) : M OrderStorage :=
  let* l := lop_new_pool (limit_orders s) id in
  let* p := sp_new_pool (searcher_orders s) id in
  Ok (set_searcher (set_limit s l) p).

Definition storage_remove_invalid (s : OrderStorage) (hash : B256) : M OrderStorage :=
  let* p := sp_remove_invalid (searcher_orders s) hash in
  Ok (set_limit (set_searcher s p) (lop_remove_invalid (limit_orders s) hash)).

End Pools.

(** ** Lemmas on the parts *)

Lemma pending_remove_orders {O} (p : PendingPool O) h :
  pp_orders (Pending.pending_remove_order p h).2 = delete h (pp_orders p).
Proof.
  unfold Pending.pending_remove_order. destruct (pp_orders p !! h) as [o |] eqn:E;
    [by repeat case_match | by rewrite delete_id].
Qed.

Lemma pending_remove_Some {O} (p : PendingPool O) h o :
  (Pending.pending_remove_order p h).1 = Some o -> pp_orders p !! h = Some o.
Proof.
  unfold Pending.pending_remove_order. destruct (pp_orders p !! h) as [x |]; [| done].
  repeat case_match; simpl; congruence.
Qed.

Lemma find_values_Some {V A} (f : V -> option A) (m : gmap Z V) a :
  find_values f m = Some a -> exists k v, m !! k = Some v /\ f v = Some a.
Proof.
  unfold find_values. intros H. assert (Hin : a ∈ omap f (map snd (map_to_list m))).
  { destruct (omap f (map snd (map_to_list m))); [done |]. injection H as ->. apply list_elem_of_here. }
  apply list_elem_of_omap in Hin as (v & Hv & Hf). apply list_elem_of_fmap in Hv as ([k v'] & -> & Hkv).
  apply elem_of_map_to_list in Hkv. by exists k, v'.
Qed.

Lemma find_values_None {V A} (f : V -> option A) (m : gmap Z V) :
  find_values f m = None <-> map_Forall (fun _ v => f v = None) m.
Proof.
  unfold find_values. split.
  - intros H k v Hkv. destruct (f v) as [a |] eqn:Ef; [| done].
    assert (Hin : a ∈ omap f (map snd (map_to_list m))).
    { apply list_elem_of_omap. exists v. split; [| done]. apply list_elem_of_fmap. exists (k, v).
      split; [done |]. by apply elem_of_map_to_list. }
    by destruct (omap f (map snd (map_to_list m))); [apply not_elem_of_nil in Hin |].
  - intros H. destruct (omap f (map snd (map_to_list m))) as [| a l] eqn:E; [done |].
    assert (Hin : a ∈ omap f (map snd (map_to_list m))) by (rewrite E; apply list_elem_of_here).
    apply list_elem_of_omap in Hin as (v & Hv & Hf). apply list_elem_of_fmap in Hv as ([k v'] & -> & Hkv).
    apply elem_of_map_to_list in Hkv. apply H in Hkv. simpl in Hf. congruence.
Qed.

(** Every order of every pool satisfies [Q]. *)
Definition every {O} (Q : PoolId -> B256 -> OrderWithStorageData O -> Prop)
    (m : gmap PoolId (PendingPool O)) : Prop :=
  map_Forall (fun pool p => map_Forall (Q pool) (pp_orders p)) m.

Definition every_parked (Q : PoolId -> B256 -> OrderWithStorageData AllOrders -> Prop)
    (m : gmap PoolId ParkedPool) : Prop :=
  map_Forall (fun pool (p : ParkedPool) => map_Forall (Q pool) p) m.

Lemma every_add {O} Q m pool (p : PendingPool O) o :
  every Q m -> m !! pool = Some p -> Q pool (id_hash (order_id o)) o ->
  every Q (<[pool := Pending.pending_add_order p o]> m).
Proof.
  intros Hm Hp Ho. apply map_Forall_insert_2; [| done]. simpl.
  apply map_Forall_insert_2; [done | by apply (Hm pool)].
Qed.

Lemma every_remove {O} Q (m : gmap PoolId (PendingPool O)) pool h r m' :
  every Q m -> remove_at (fun p => Pending.pending_remove_order p h) m pool = (r, m') ->
  every Q m' /\ forall o, r = Some o -> Q pool h o.
Proof.
  unfold remove_at. intros Hm H. destruct (m !! pool) as [p |] eqn:Ep; [| by injection H as <- <-].
  pose proof (pending_remove_orders p h) as Ho. pose proof (pending_remove_Some p h) as Hs.
  destruct (Pending.pending_remove_order p h) as [r' p']. injection H as <- <-. simpl in *. split.
  - apply map_Forall_insert_2; [| done]. rewrite Ho. apply map_Forall_delete. by apply (Hm pool).
  - intros o ->. by apply (Hm pool p Ep), Hs.
Qed.

Lemma every_parked_remove Q m pool h r m' :
  every_parked Q m -> remove_at (fun p => parked_remove_order p h) m pool = (r, m') ->
  every_parked Q m' /\ forall o, r = Some o -> Q pool h o.
Proof.
  unfold remove_at, parked_remove_order. intros Hm H.
  destruct (m !! pool) as [p |] eqn:Ep; injection H as <- <-; [| done]. split.
  - apply map_Forall_insert_2; [| done]. apply map_Forall_delete. by apply (Hm pool).
  - intros o Ho. by apply (Hm pool p Ep).
Qed.

Lemma every_fmap_remove {O} Q (m : gmap PoolId (PendingPool O)) h :
  every Q m -> every Q ((fun p => (Pending.pending_remove_order p h).2) <$> m).
Proof.
  intros Hm pool p. rewrite lookup_fmap. destruct (m !! pool) as [q |] eqn:Eq; [| done].
  intros [= <-]. rewrite pending_remove_orders. apply map_Forall_delete. by apply (Hm pool).
Qed.

Lemma every_new_pools {O} (Q : PoolId -> B256 -> OrderWithStorageData O -> Prop) ids :
  every Q (list_to_map (map (fun id => (id, PendingPool_new)) ids)).
Proof.
  induction ids as [| id ids IH]; simpl; [apply map_Forall_empty |].
  apply map_Forall_insert_2; [apply map_Forall_empty | done].
Qed.

(** ** The invariant of the storage *)

Section Storage.
Context {P : Profile} {E : OrderEnv} (size_all size_tob : Z).

Definition statusable (e : UserAccountVerificationError) : Prop := exists st, try_from_err e = Ok st.

(** Stored under its own hash, in its own pool. *)
Definition keyed {O} `{!RawPoolOrder O} (pool : PoolId) (h : B256) (o : OrderWithStorageData O) : Prop :=
  id_hash (order_id o) = h /\ order_hash (order o) = h /\ pool_id o = pool.

Definition pending_good pool h (o : OrderWithStorageData AllOrders) : Prop :=
  keyed pool h o /\ currently_invalid o = None.
Definition parked_good pool h (o : OrderWithStorageData AllOrders) : Prop :=
  keyed pool h o /\ exists e, currently_invalid o = Some e /\ statusable e.

Definition limit_ok (l : LimitPool) : Prop :=
  every pending_good (lp_pending l) /\ every_parked parked_good (lp_parked l).

Definition storage_ok (s : OrderStorage) : Prop :=
  limit_ok (lop_limit (limit_orders s)) /\ every keyed (lop_composable (limit_orders s)) /\
  every keyed (sp_orders (searcher_orders s)) /\ filled_orders s = ∅.

(** What validation hands to the storage. *)
Definition stored_ok {O} `{!RawPoolOrder O} (o : OrderWithStorageData O) : Prop :=
  id_hash (order_id o) = order_hash (order o) /\
  forall e, currently_invalid o = Some e -> statusable e.

Lemma limit_add_ok l o e l' :
  limit_ok l -> stored_ok o -> limit_add_order l o = (e, l') -> limit_ok l'.
Proof.
  intros [Hp Hk] [Hh Hs] H. unfold limit_add_order, is_currently_valid in H.
  destruct (currently_invalid o) as [err |] eqn:Ev.
  - destruct (lp_parked l !! pool_id o) as [p |] eqn:Ep; injection H as <- <-; [| done].
    split; [done |]. apply map_Forall_insert_2; [| done].
    apply map_Forall_insert_2; [| by apply (Hk _ _ Ep)]. split; [done |]. exists err. split; [done |]. by apply Hs.
  - destruct (lp_pending l !! pool_id o) as [p |] eqn:Ep; injection H as <- <-; [| done].
    split; [| done]. by apply every_add.
Qed.

Lemma limit_remove_parked_ok l pool h r l' :
  limit_ok l -> limit_remove_parked_order l pool h = (r, l') ->
  limit_ok l' /\ forall o, r = Some o -> keyed pool h o.
Proof.
  intros [Hp Hk] H. unfold limit_remove_parked_order in H.
  destruct (remove_at _ (lp_parked l) pool) as [r' m] eqn:Em. injection H as <- <-.
  destruct (every_parked_remove _ _ _ _ _ _ Hk Em) as [Hm Hr]. split; [done |].
  intros o Ho. by apply Hr.
Qed.

Lemma limit_remove_ok l pool h r l' :
  limit_ok l -> limit_remove_order l pool h = (r, l') ->
  limit_ok l' /\ forall o, r = Some o -> keyed pool h o.
Proof.
  intros [Hp Hk] H. unfold limit_remove_order in H.
  destruct (remove_at _ (lp_pending l) pool) as [r' m] eqn:Em.
  destruct (every_remove _ _ _ _ _ _ Hp Em) as [Hm Hr].
  destruct r' as [o' |]; [| by eapply limit_remove_parked_ok, H].
  injection H as <- <-. split; [done |]. intros o [= <-]. by apply Hr.
Qed.

Lemma limit_park_ok l id l' : limit_ok l -> limit_park_order l id = Ok l' -> limit_ok l'.
Proof.
  intros Hl H. unfold limit_park_order in H.
  destruct (limit_remove_order l _ _) as [r l1] eqn:E1.
  destruct (limit_remove_ok _ _ _ _ _ Hl E1) as [H1 Hr].
  destruct r as [o |]; [| by injection H as <-].
  destruct (limit_add_order l1 _) as [[e |] l2] eqn:E2; [done |]. injection H as <-.
  destruct (Hr o eq_refl) as (K1 & K2 & K3).
  eapply limit_add_ok; [done | | exact E2]. split; [change (id_hash (order_id o) = order_hash (order o)); congruence |].
  intros e [= <-]. by eexists.
Qed.

Lemma limit_new_pool_ok l id l' : limit_ok l -> limit_new_pool l id = Ok l' -> limit_ok l'.
Proof.
  intros [Hp Hk] H. unfold limit_new_pool in H.
  assert (Hn : every pending_good (<[id := PendingPool_new]> (lp_pending l)))
    by (apply map_Forall_insert_2; [apply map_Forall_empty | done]).
  destruct (lp_pending l !! id); [| by injection H as <-].
  destruct (lp_parked l !! id); [done |]. injection H as <-. split; [done |].
  apply map_Forall_insert_2; [apply map_Forall_empty | done].
Qed.

Lemma limit_remove_invalid_ok l h : limit_ok l -> limit_ok (limit_remove_invalid l h).
Proof.
  intros [Hp Hk]. split; [by apply every_fmap_remove |]. intros pool p. simpl. rewrite lookup_fmap.
  destruct (lp_parked l !! pool) as [q |] eqn:Eq; [| done]. intros [= <-]. apply map_Forall_delete. by apply (Hk pool).
Qed.

(** One operation of the storage that returned. *)
Inductive storage_step : OrderStorage -> OrderStorage -> Prop :=
| st_add_limit s o e s' : stored_ok o -> add_new_limit_order size_all s o = Ok (e, s') -> storage_step s s'
| st_add_searcher s o e s' : stored_ok o -> add_new_searcher_order size_tob s o = Ok (e, s') -> storage_step s s'
| st_remove s id : storage_step s (storage_remove_order s id).2
| st_remove_from_id s id : storage_step s (remove_order_from_id s id).2
| st_remove_parked s id : storage_step s (remove_parked_order s id).2
| st_cancel s id : storage_step s (storage_cancel_order s id).2
| st_park s ids s' : storage_park_orders s ids = Ok s' -> storage_step s s'
| st_new_pool s id s' : storage_new_pool s id = Ok s' -> storage_step s s'
| st_remove_pool s id : storage_step s (storage_remove_pool s id)
| st_remove_invalid s h s' : storage_remove_invalid s h = Ok s' -> storage_step s s'
| st_filled s b os s' : add_filled_orders s b os = Ok s' -> storage_step s s'
| st_finalized s b : storage_step s (finalized_block s b)
| st_reorg s hs : storage_step s (reorg s hs).2.

(** The limit orders alone. *)
Definition lop_ok (l : LimitOrderPool) : Prop := limit_ok (lop_limit l) /\ every keyed (lop_composable l).

Lemma set_limit_ok s l : storage_ok s -> lop_ok l -> storage_ok (set_limit s l).
Proof. intros (_ & _ & Hs & Hf) [H1 H2]. done. Qed.
Lemma set_searcher_ok s p : storage_ok s -> every keyed (sp_orders p) -> storage_ok (set_searcher s p).
Proof. intros (H1 & H2 & _ & Hf) H. done. Qed.
Lemma storage_lop s : storage_ok s -> lop_ok (limit_orders s).
Proof. intros (H1 & H2 & _). done. Qed.

Lemma lop_remove_ok l id r l' : lop_ok l -> lop_remove_order l id = (r, l') -> lop_ok l'.
Proof.
  intros [H1 H2] H. unfold lop_remove_order in H. destruct (limit_remove_order _ _ _) as [r1 l1] eqn:E1.
  destruct (limit_remove_ok _ _ _ _ _ H1 E1) as [K1 _]. destruct r1; [by injection H as <- <- |].
  destruct (composable_remove_order _ _ _) as [r2 c] eqn:E2. injection H as <- <-.
  split; [done |]. apply (every_remove _ _ _ _ _ _ H2 E2).
Qed.

Lemma lop_remove_parked_ok l id r l' : lop_ok l -> lop_remove_parked_order l id = (r, l') -> lop_ok l'.
Proof.
  intros [H1 H2] H. unfold lop_remove_parked_order in H.
  destruct (limit_remove_parked_order _ _ _) as [r1 l1] eqn:E1.
  destruct (limit_remove_parked_ok _ _ _ _ _ H1 E1) as [K1 _]. destruct r1; [by injection H as <- <- |].
  destruct (composable_remove_order _ _ _) as [r2 c] eqn:E2. injection H as <- <-.
  split; [done |]. apply (every_remove _ _ _ _ _ _ H2 E2).
Qed.

Lemma sp_remove_ok p id r p' :
  every keyed (sp_orders p) -> sp_remove_order p id = (r, p') -> every keyed (sp_orders p').
Proof.
  intros H1 H. unfold sp_remove_order in H. destruct (remove_at _ _ _) as [r1 m] eqn:E1.
  injection H as <- <-. apply (every_remove _ _ _ _ _ _ H1 E1).
Qed.

Lemma lop_add_ok l o e l' :
  lop_ok l -> stored_ok o ->
  (add_vanilla_order size_all l o = Ok (e, l') \/ add_composable_order size_all l o = Ok (e, l')) -> lop_ok l'.
Proof.
  intros [H1 H2] Ho [H | H]; apply M_bind_Ok in H as ([fits size] & _ & H);
    (destruct fits; [| by injection H as <- <-]).
  - destruct (limit_add_order _ _) as [e1 l1] eqn:E1. injection H as <- <-.
    split; [by eapply limit_add_ok |]. done.
  - unfold composable_add_order in H. destruct (lop_composable l !! pool_id o) as [p |] eqn:Ep;
      injection H as <- <-; [| done].
    split; [done |]. apply every_add; [done | done |]. by destruct Ho.
Qed.

Lemma sp_add_ok p o e p' :
  every keyed (sp_orders p) -> stored_ok o -> add_searcher_order size_tob p o = Ok (e, p') ->
  every keyed (sp_orders p').
Proof.
  intros H1 Ho H. apply M_bind_Ok in H as ([fits size] & _ & H). destruct fits; [| by injection H as <- <-].
  destruct (sp_orders p !! pool_id o) as [q |] eqn:Eq; injection H as <- <-; [| done].
  apply every_add; [done | done |]. by destruct Ho.
Qed.

Lemma sp_remove_invalid_ok p h p' :
  every keyed (sp_orders p) -> sp_remove_invalid p h = Ok p' -> every keyed (sp_orders p').
Proof.
  unfold sp_remove_invalid. intros H1.
  assert (Hl : forall e : PoolId * SearcherPending,
    e ∈ map_to_list (sp_orders p) -> map_Forall (keyed e.1) (pp_orders e.2))
    by (intros [k v] He; apply (H1 k v); by apply elem_of_map_to_list).
  revert H1 Hl. generalize (map_to_list (sp_orders p)) as l. intros l. revert p.
  induction l as [| [k v] l IH]; intros p H1 Hl H; simpl in H; [by injection H as <- |].
  pose proof (pending_remove_orders v h) as Hr. unfold searcher_pending_remove in H.
  destruct (Pending.pending_remove_order v h) as [r v']. apply M_bind_Ok in H as (p1 & Hp1 & H).
  apply M_bind_Ok in Hp1 as (size & _ & Hp1). injection Hp1 as <-.
  eapply IH, H; [| by intros e He; apply Hl, list_elem_of_further]. simpl.
  apply map_Forall_insert_2; [| done]. simpl in Hr. rewrite Hr. apply map_Forall_delete.
  apply (Hl (k, v)), list_elem_of_here.
Qed.

Lemma park_all_ok ids l l' :
  lop_ok l ->
  M_fold (fun l id => match id_location id with Limit => lop_park_order l id | Searcher => Ok l end) l ids
    = Ok l' -> lop_ok l'.
Proof.
  revert l. induction ids as [| id ids IH]; intros l Hl H; simpl in H; [by injection H as <- |].
  apply M_bind_Ok in H as (l1 & H1 & H). eapply IH, H.
  destruct (id_location id); [| by injection H1 as <-].
  apply M_bind_Ok in H1 as (p & Hp & H1). injection H1 as <-. destruct Hl as [K1 K2].
  split; [by eapply limit_park_ok | done].
Qed.

Lemma storage_step_ok s s' : storage_step s s' -> storage_ok s -> storage_ok s'.
Proof.
  intros Hstep Hs. pose proof (storage_lop s Hs) as Hl. destruct Hs as (K1 & K2 & K3 & K4).
  assert (Hs : storage_ok s) by done.
  assert (Hrl : forall s id, storage_ok s -> storage_ok (remove_limit_order s id).2).
  { intros t id Ht. unfold remove_limit_order. destruct (lop_remove_order _ _) as [r l] eqn:El.
    apply set_limit_ok; [done |]. by eapply lop_remove_ok, El; apply storage_lop. }
  assert (Hrs : forall s id, storage_ok s -> storage_ok (remove_searcher_order s id).2).
  { intros t id Ht. unfold remove_searcher_order. destruct (sp_remove_order _ _) as [r p] eqn:Ep.
    apply set_searcher_ok; [done |]. by eapply sp_remove_ok, Ep; apply Ht. }
  destruct Hstep as [s o e s' Ho H | s o e s' Ho H | s id | s id | s id | s id | s ids s' H | s id s' H
    | s id | s h s' H | s b os s' H | s b | s hs].
  - apply M_bind_Ok in H as ([e1 l] & H & H'). injection H' as <- <-. apply set_limit_ok; [done |].
    eapply lop_add_ok; [done | done |]. destruct (is_vanilla (order o)); [left | right]; exact H.
  - apply M_bind_Ok in H as ([e1 p] & H & H'). injection H' as <- <-. apply set_searcher_ok; [done |].
    by eapply sp_add_ok, H.
  - unfold storage_remove_order. destruct (id_location id); [by apply Hrl | by apply Hrs].
  - unfold remove_order_from_id. destruct (id_location id); [by apply Hrl | by apply Hrs].
  - unfold remove_parked_order. destruct (lop_remove_parked_order _ _) as [r l] eqn:El.
    apply set_limit_ok; [done |]. by eapply lop_remove_parked_ok, El.
  - unfold storage_cancel_order. case_match; [done |]. destruct (id_location id); [by apply Hrl | by apply Hrs].
  - apply M_bind_Ok in H as (l & H & H'). injection H' as <-. apply set_limit_ok; [done |]. by eapply park_all_ok, H.
  - apply M_bind_Ok in H as (l & H & H'). apply M_bind_Ok in H' as (p & Hp & H'). injection H' as <-.
    apply M_bind_Ok in H as (l1 & H1 & H). apply M_bind_Ok in H as (c & Hc & H). injection H as <-.
    unfold composable_new_pool in Hc. destruct (lop_composable (limit_orders s) !! id); [done |]. injection Hc as <-.
    unfold sp_new_pool in Hp. destruct (sp_orders (searcher_orders s) !! id); [done |]. injection Hp as <-.
    split; [by eapply limit_new_pool_ok, H1 |]. split; [| split; [| done]];
      (apply map_Forall_insert_2; [apply map_Forall_empty | done]).
  - destruct K1 as [K1a K1b]. split; [split; [by apply map_Forall_delete | by apply map_Forall_delete] |].
    split; [by apply map_Forall_delete |]. split; [by apply map_Forall_delete | done].
  - apply M_bind_Ok in H as (p & Hp & H). injection H as <-. split; [by apply limit_remove_invalid_ok |].
    split; [by apply every_fmap_remove |]. split; [by eapply sp_remove_invalid_ok, Hp | done].
  - apply M_bind_Ok in H as (f & _ & H). by injection H as <-.
  - done.
  - unfold reorg. by destruct (fin_reorg _ _).
Qed.

Lemma storage_new_ok ids m1 m2 : storage_ok (OrderStorage_new ids m1 m2).
Proof.
  split; [split; [apply every_new_pools |] |]; [| split; [apply every_new_pools | split; [apply every_new_pools | done]]].
  simpl. induction ids as [| id ids IH]; simpl; [apply map_Forall_empty |].
  apply map_Forall_insert_2; [apply map_Forall_empty | done].
Qed.

Lemma storage_reachable_ok ids m1 m2 s : rtc storage_step (OrderStorage_new ids m1 m2) s -> storage_ok s.
Proof.
  intros H. assert (Hg : forall t, rtc storage_step t s -> storage_ok t -> storage_ok s).
  { induction 1; [done |]. intros Hx. by eapply IHrtc, storage_step_ok. }
  by apply (Hg _ H), storage_new_ok.
Qed.

End Storage.

Section Status.
Context {P : Profile} {E : OrderEnv} (size_all size_tob : Z).

Definition searcher_holds (s : OrderStorage) (h : B256) : Prop :=
  exists pool p, sp_orders (searcher_orders s) !! pool = Some p /\ is_Some (pp_orders p !! h).
Definition pending_holds (s : OrderStorage) (h : B256) : Prop :=
  exists pool p, lp_pending (lop_limit (limit_orders s)) !! pool = Some p /\ is_Some (pp_orders p !! h).
Definition parked_holds (s : OrderStorage) (h : B256) : Prop :=
  exists pool p, lp_parked (lop_limit (limit_orders s)) !! pool = Some p /\ is_Some ((p : ParkedPool) !! h).

Lemma find_pending {O} (m : gmap PoolId (PendingPool O)) h :
  (exists o, find_values (fun p => Pending.pending_get_order p h) m = Some o) <->
  exists pool p, m !! pool = Some p /\ is_Some (pp_orders p !! h).
Proof.
  split.
  - intros (o & H). apply find_values_Some in H as (k & p & Hp & Ho). exists k, p. split; [done | by exists o].
  - intros (k & p & Hp & [o Ho]). destruct (find_values _ m) as [x |] eqn:Ef; [by exists x |].
    rewrite find_values_None in Ef. apply Ef in Hp. unfold Pending.pending_get_order in Hp. congruence.
Qed.

Lemma sp_has_order_true s h : sp_has_order (searcher_orders s) h = true <-> searcher_holds s h.
Proof.
  unfold searcher_holds. rewrite <- (find_pending (sp_orders (searcher_orders s)) h). unfold sp_has_order.
  split; [| by intros [o Ho]; change (SearcherPending) with (PendingPool TopOfBlockOrder); rewrite Ho].
  case_match eqn:Ef; [| done]. intros _. by eexists.
Qed.

Lemma limit_status_spec l h :
  limit_ok l ->
  exists st, limit_order_status l h = Ok st /\ st <> Some Filled /\
    (st = Some Orders.Pending <-> exists pool p, lp_pending l !! pool = Some p /\ is_Some (pp_orders p !! h)) /\
    (st = None -> map_Forall (fun _ (p : ParkedPool) => p !! h = None) (lp_parked l)).
Proof.
  intros [Hp Hk]. unfold limit_order_status. pose proof (find_pending (lp_pending l) h) as Hf.
  destruct (find_values (fun p => Pending.pending_get_order p h) (lp_pending l)) as [o |].
  { exists (Some Orders.Pending). split; [done |]. split; [done |]. split; [| done].
    split; [intros _; apply Hf; by exists o | done]. }
  assert (Hno : ~ exists pool p, lp_pending l !! pool = Some p /\ is_Some (pp_orders p !! h))
    by (intros Hx; apply Hf in Hx as [? ?]; done).
  destruct (find_values (fun p : ParkedPool => p !! h) (lp_parked l)) as [o |] eqn:Ep.
  - apply find_values_Some in Ep as (k & p & Hkp & Ho). destruct (Hk k p Hkp h o Ho) as (_ & e & He & st & Hst).
    rewrite He. cbn [unwrap M_bind]. rewrite Hst. cbn [expect_ok M_bind]. exists (Some st).
    split; [done |]. destruct e; simpl in Hst; try done; injection Hst as <-.
    all: split; [done |]; split; [| done]; (split; [done | intros Hx; by destruct Hno]).
  - exists None. split; [done |]. split; [done |]. split; [split; [done | intros Hx; by destruct Hno] |].
    intros _. by apply find_values_None.
Qed.

End Status.

(** C19: whatever sequence of operations the storage has been through, every order
    is stored under its own hash in its own pool, orders in a pending pool are
    valid and parked ones carry an error that has a status.  So asking for the
    status of any hash never panics: the answer is pending exactly when a
    searcher pool or a pending pool holds the order, and an order without a
    status is in none of the pools.  It is never reported as filled. *)
Theorem storage_invariant {P : Profile} {E : OrderEnv} size_all size_tob ids m1 m2 s :
  rtc (storage_step size_all size_tob) (OrderStorage_new ids m1 m2) s ->
  storage_ok s /\
  forall h, exists st, fetch_status_of_order s h = Ok st /\ st <> Some Filled /\
    (st = Some Orders.Pending <-> searcher_holds s h \/ pending_holds s h) /\
    (st = None -> ~ searcher_holds s h /\ ~ pending_holds s h /\ ~ parked_holds s h).
Proof.
  intros H. apply storage_reachable_ok in H. split; [done |]. intros h.
  destruct H as (Hl & _ & _ & Hf). unfold fetch_status_of_order. rewrite Hf, bool_decide_false
    by (rewrite lookup_empty; apply is_Some_None). cbn [andb].
  pose proof (sp_has_order_true s h) as Hs. destruct (sp_has_order (searcher_orders s) h).
  { exists (Some Orders.Pending). split; [done |]. split; [done |]. split; [| done].
    split; [intros _; left; by apply Hs | done]. }
  assert (Hno : ~ searcher_holds s h) by (intros Hx; by apply Hs in Hx).
  destruct (limit_status_spec _ h Hl) as (st & Hst & Hnf & Hp & Hn). exists st. split; [done |]. split; [done |].
  split; [rewrite Hp; fold (pending_holds s h); split; [by right | by intros [? | ?]] |].
  intros ->. split; [done |]. split; [intros Hx; by apply Hp in Hx |].
  intros (k & p & Hk & [o Ho]). apply Hn in Hk; [| done]. congruence.
Qed.

(** ** Finality *)

Section Finality.
Context {P : Profile} {E : OrderEnv}.

Abbreviation hash_of_stored := (fun o : OrderWithStorageData AllOrders => order_hash (order o)) (only parsing).

Lemma insert_all_lookup (os : list (OrderWithStorageData AllOrders)) (m : gmap B256 _) :
  NoDup (map hash_of_stored os) ->
  let m' := fold_left (fun m o => <[order_hash (order o) := o]> m) os m in
  (forall o, o ∈ os -> m' !! order_hash (order o) = Some o) /\
  (forall h, h ∉ map hash_of_stored os -> m' !! h = m !! h).
Proof.
  revert m. induction os as [| x os IH]; intros m Hnd m'.
  { split; [by intros ? ?%not_elem_of_nil | done]. }
  cbn [map] in Hnd. apply NoDup_cons in Hnd as [Hx Hnd].
  destruct (IH (<[order_hash (order x) := x]> m) Hnd) as [H1 H2]. subst m'. cbn [fold_left].
  split.
  - intros o [-> | Ho]%elem_of_cons; [| by apply H1]. rewrite (H2 _ Hx). apply lookup_insert_eq.
  - intros h Hh. cbn [map] in Hh. apply not_elem_of_cons in Hh as [Hne Hh]. rewrite (H2 _ Hh).
    by apply lookup_insert_ne.
Qed.

Lemma remove_ids_spec ids m :
  NoDup ids ->
  (remove_ids m ids).1 = omap (fun h => m !! h) ids /\
  forall h, (remove_ids m ids).2 !! h = if bool_decide (h ∈ ids) then None else m !! h.
Proof.
  revert m. induction ids as [| x ids IH]; intros m Hnd; [done |]. apply NoDup_cons in Hnd as [Hx Hnd].
  destruct (IH (delete x m) Hnd) as [H1 H2]. cbn [remove_ids].
  destruct (remove_ids (delete x m) ids) as [r m']. cbn [fst snd] in *. split.
  - assert (Hr : r = omap (fun h => m !! h) ids).
    { rewrite H1. clear - Hx. induction ids as [| y ids IH]; [done |]. apply not_elem_of_cons in Hx as [Hne Hx].
      cbn [omap list_omap]. rewrite lookup_delete_ne by done. destruct (m !! y); rewrite (IH Hx); done. }
    rewrite Hr. simpl. by destruct (m !! x).
  - intros h. rewrite H2. destruct (decide (h = x)) as [-> | Hne].
    + rewrite lookup_delete_eq, (bool_decide_true (x ∈ x :: ids)) by apply list_elem_of_here. by case_bool_decide.
    + rewrite lookup_delete_ne by done. rewrite (bool_decide_ext (h ∈ ids) (h ∈ x :: ids)); [done |].
      rewrite elem_of_cons. split; [by right | by intros [? | ?]].
Qed.

End Finality.

Lemma omap_all {A B} (f : A -> option B) (g : B -> A) (l : list B) :
  (forall x, x ∈ l -> f (g x) = Some x) -> omap f (map g l) = l.
Proof.
  induction l as [| x l IH]; intros H; [done |]. cbn [map omap list_omap].
  rewrite (H x) by apply list_elem_of_here. f_equal. apply IH. intros y Hy. by apply H, list_elem_of_further.
Qed.

Lemma omap_remaining {A} (g : A -> B256) (m m' : gmap B256 A) (hs : list B256) (l : list A) :
  (forall x, x ∈ l -> m !! g x = Some x) ->
  (forall h, m' !! h = if bool_decide (h ∈ hs) then None else m !! h) ->
  omap (fun h => m' !! h) (map g l) = List.filter (fun x => negb (bool_decide (g x ∈ hs))) l.
Proof.
  intros Hm Hm'. induction l as [| x l IH]; [done |]. cbn [map omap list_omap List.filter]. rewrite Hm'.
  case_bool_decide; cbn [negb]; [| rewrite (Hm x) by apply list_elem_of_here; f_equal];
    apply IH; intros y Hy; by apply Hm, list_elem_of_further.
Qed.

Lemma filter_split_perm {A} (f : A -> bool) (l : list A) :
  List.filter f l ++ List.filter (fun x => negb (f x)) l ≡ₚ l.
Proof.
  induction l as [| x l IH]; simpl; [done |]. destruct (f x); simpl; [by rewrite IH |].
  rewrite <- Permutation_middle. by rewrite IH.
Qed.

Lemma hashes_back {E : OrderEnv} (os : list (OrderWithStorageData AllOrders)) hs :
  hs ⊆ map (fun o => order_hash (order o)) os ->
  exists back, hs = map (fun o => order_hash (order o)) back /\ back ⊆ os.
Proof.
  induction hs as [| h hs IH]; intros H; [exists []; split; [done | set_solver] |].
  destruct IH as (back & -> & Hb); [set_solver |].
  assert (Hin : h ∈ map (fun o => order_hash (order o)) os) by (apply H, list_elem_of_here).
  apply list_elem_of_fmap in Hin as (o & -> & Ho). exists (o :: back). split; [done | set_solver].
Qed.

(** orders filled in a block are kept until the block is final or undone:
    after recording them, reorganizing some of them back and finalizing the
    block, every order has come out exactly once, either with the
    reorganization or with the finalization, and the pool is what it was. *)
Theorem finalization_roundtrip {E : OrderEnv} f block
    (orders : list (OrderWithStorageData AllOrders)) hs :
  let hash o := order_hash (order (o : OrderWithStorageData AllOrders)) in
  block_to_ids f !! block = None -> NoDup (map hash orders) ->
  Forall (fun o => id_to_orders f !! hash o = None) orders ->
  NoDup hs -> hs ⊆ map hash orders ->
  exists f1 back f2 rest,
    new_orders f block orders = Ok f1 /\ Forall (fun o => fin_has_order f1 (hash o) = true) orders /\
    fin_reorg f1 hs = (back, f2) /\ finalized f2 block = (rest, f) /\ back ++ rest ≡ₚ orders.
Proof.
  intros hash Hb Hnd Hfresh Hhs Hsub. destruct (hashes_back orders hs Hsub) as (back & Eb & Hback).
  destruct (insert_all_lookup orders (id_to_orders f) Hnd) as [L1 L2].
  set (m1 := fold_left _ orders (id_to_orders f)) in *.
  destruct (remove_ids_spec hs m1 Hhs) as [R1 R2].
  destruct (remove_ids m1 hs) as [back' m2] eqn:E2. cbn [fst snd] in R1, R2.
  assert (Eback : back' = back).
  { rewrite R1, Eb. apply omap_all. intros o Ho. by apply L1, Hback. }
  destruct (remove_ids_spec (map hash orders) m2 Hnd) as [S1 S2].
  destruct (remove_ids m2 (map hash orders)) as [rest m3] eqn:E3. cbn [fst snd] in S1, S2.
  assert (Erest : rest = List.filter (fun o => negb (bool_decide (hash o ∈ hs))) orders).
  { rewrite S1. by apply (omap_remaining hash m1). }
  assert (Em3 : m3 = id_to_orders f).
  { apply map_eq. intros h. rewrite S2. case_bool_decide as Hin.
    - apply list_elem_of_fmap in Hin as (o & -> & Ho). symmetry. rewrite Forall_forall in Hfresh. by apply Hfresh.
    - rewrite R2, bool_decide_false by (intros Hx; apply Hin, Hsub, Hx). by apply L2. }
  eexists _, back, (mkFinalizationPool m2 _), rest. unfold new_orders. rewrite Hb. fold m1.
  split; [reflexivity |]. unfold fin_has_order, fin_reorg, finalized. cbn [id_to_orders block_to_ids].
  split; [rewrite Forall_forall; intros o Ho; unfold hash; by rewrite L1 |].
  rewrite E2, Eback. split; [reflexivity |]. cbn [block_to_ids id_to_orders].
  rewrite lookup_insert_eq. change (map (fun o => order_hash (order o)) orders) with (map hash orders).
  rewrite E3, delete_insert_id by done. split; [rewrite Em3; by destruct f |].
  transitivity (List.filter (fun o => bool_decide (hash o ∈ hs)) orders ++ rest);
    [| rewrite Erest; apply filter_split_perm].
  apply Permutation_app_tail, NoDup_Permutation.
  - apply (NoDup_fmap_1 hash). rewrite Eb in Hhs. exact Hhs.
  - apply NoDup_ListNoDup, List.NoDup_filter, NoDup_ListNoDup, (NoDup_fmap_1 hash), Hnd.
  - intros o. rewrite list_filter_in, bool_decide_eq_true. split.
    + intros Ho. split; [by apply Hback |]. rewrite Eb. apply list_elem_of_fmap. by exists o.
    + intros [Ho Hin]. rewrite Eb in Hin. apply list_elem_of_fmap in Hin as (x & Ex & Hx).
      assert (o = x) as ->; [| done]. pose proof (L1 o Ho) as A1. pose proof (L1 x (Hback x Hx)) as A2.
      unfold hash in Ex. rewrite Ex in A1. congruence.
Qed.

(** ** Parking *)

Section Parking.
Context {P : Profile} {E : OrderEnv}.

(** The order is in the price index of its side. *)
Definition indexed {O} (p : PendingPool O) (o : OrderWithStorageData O) : Prop :=
  is_Some ((if osd_is_bid o then pp_bids p else pp_asks p) !! priority_data o).

Lemma pending_remove_indexed {O} (p : PendingPool O) h o :
  pp_orders p !! h = Some o -> indexed p o -> (Pending.pending_remove_order p h).1 = Some o.
Proof.
  intros Ho [x Hx]. unfold Pending.pending_remove_order. rewrite Ho.
  destruct (osd_is_bid o); by rewrite Hx.
Qed.

Lemma limit_remove_pending l pool h p o :
  lp_pending l !! pool = Some p -> pp_orders p !! h = Some o -> indexed p o ->
  limit_remove_order l pool h =
  (Some o, mkLimitPool (<[pool := (Pending.pending_remove_order p h).2]> (lp_pending l)) (lp_parked l)).
Proof.
  intros Hp Ho Hi. unfold limit_remove_order, remove_at. rewrite Hp.
  pose proof (pending_remove_indexed p h o Ho Hi) as Hr.
  destruct (Pending.pending_remove_order p h) as [r p']. simpl in *. by subst r.
Qed.

End Parking.

Definition parked_error : UserAccountVerificationError := UnknownAccountError "parked by other transaction".

(** parking a pending order takes it out of matching without losing it: the
    order is found under the same id, now with the parking error and no longer
    in the pending pool, and every other order is found as before. *)
Theorem park_order_moves {E : OrderEnv} l id p k o :
  limit_ok l -> lp_pending l !! id_pool_id id = Some p -> lp_parked l !! id_pool_id id = Some k ->
  pp_orders p !! id_hash id = Some o -> indexed p o ->
  exists l' p', limit_park_order l id = Ok l' /\
    limit_get_order l' (id_pool_id id) (id_hash id) = Some (with_error o parked_error) /\
    lp_pending l' !! id_pool_id id = Some p' /\ pp_orders p' = delete (id_hash id) (pp_orders p) /\
    forall pool h, pool <> id_pool_id id \/ h <> id_hash id ->
      limit_get_order l' pool h = limit_get_order l pool h.
Proof.
  intros [Hpend _] Hp Hk Ho Hi. destruct (Hpend _ _ Hp _ _ Ho) as [(K1 & K2 & K3) _].
  unfold limit_park_order. rewrite (limit_remove_pending _ _ _ _ _ Hp Ho Hi).
  pose proof (pending_remove_orders p (id_hash id)) as Hr.
  set (p' := (Pending.pending_remove_order p (id_hash id)).2) in *. fold parked_error.
  assert (Ha : limit_add_order (mkLimitPool (<[id_pool_id id := p']> (lp_pending l)) (lp_parked l))
                 (with_error o parked_error) =
    (None, mkLimitPool (<[id_pool_id id := p']> (lp_pending l))
             (<[id_pool_id id := <[id_hash id := with_error o parked_error]> k]> (lp_parked l)))).
  { unfold limit_add_order, is_currently_valid, parked_new_order.
    cbn [currently_invalid with_error pool_id lp_parked lp_pending order]. by rewrite K3, Hk, K2. }
  rewrite Ha. eexists _, p'. split; [reflexivity |].
  unfold limit_get_order, Pending.pending_get_order. cbn [lp_pending lp_parked]. rewrite !lookup_insert_eq. simpl.
  unfold ParkedPool in *. rewrite Hr, lookup_delete_eq, lookup_insert_eq.
  split; [done |]. split; [done |]. split; [done |].
  intros pool h Hne. destruct (decide (pool = id_pool_id id)) as [-> | Hpool].
  - destruct Hne as [? | Hh]; [done |]. rewrite !lookup_insert_eq, Hp, Hk. simpl.
    by rewrite Hr, lookup_delete_ne, lookup_insert_ne.
  - by rewrite !lookup_insert_ne.
Qed.

(** two pending orders of one side with the same priority data share one
    entry of the price index.  Removing the first takes the entry away, and
    then the second, although it is stored and found by its hash, is deleted
    by a removal that reports there was no such order. *)
Theorem pending_tie_lost {O} (p : PendingPool O) (o1 o2 : OrderWithStorageData O) :
  let h1 := id_hash (order_id o1) in
  let h2 := id_hash (order_id o2) in
  h1 <> h2 -> osd_is_bid o1 = osd_is_bid o2 -> priority_data o1 = priority_data o2 ->
  let p1 := Pending.pending_add_order (Pending.pending_add_order p o1) o2 in
  let '(r1, p2) := Pending.pending_remove_order p1 h1 in
  let '(r2, p3) := Pending.pending_remove_order p2 h2 in
  r1 = Some o1 /\ Pending.pending_get_order p2 h2 = Some o2 /\ r2 = None /\ Pending.pending_get_order p3 h2 = None.
Proof.
  intros h1 h2 Hne Hs Hp p1.
  assert (E1 : pp_orders p1 !! h1 = Some o1)
    by (unfold p1; simpl; rewrite lookup_insert_ne by done; apply lookup_insert_eq).
  assert (E2 : pp_orders p1 !! h2 = Some o2) by apply lookup_insert_eq.
  unfold Pending.pending_remove_order at 1. rewrite E1.
  assert (Hi : (if osd_is_bid o1 then pp_bids p1 else pp_asks p1) !! priority_data o1 = Some h2).
  { unfold p1. simpl. rewrite <- Hs, Hp. destruct (osd_is_bid o1); apply lookup_insert_eq. }
  unfold Pending.pending_remove_order. destruct (osd_is_bid o1) eqn:Eb; rewrite Hi; cbn [pp_orders pp_bids pp_asks];
    rewrite lookup_delete_ne, E2 by done; rewrite <- Hs, <- Hp, lookup_delete_eq;
    unfold Pending.pending_get_order; cbn [pp_orders];
    rewrite lookup_delete_ne, lookup_delete_eq by done; done.
Qed.

(** a pool added at run time gets a pending pool and no parked pool, so the
    first time one of its orders is parked the code panics. *)
Theorem parking_in_new_pool_panics {E : OrderEnv} l id l' o l'' :
  lp_pending l !! id = None -> lp_parked l !! id = None ->
  limit_new_pool l id = Ok l' ->
  pool_id o = id -> id_pool_id (order_id o) = id -> currently_invalid o = None ->
  limit_add_order l' o = (None, l'') ->
  limit_park_order l'' (order_id o) = Panic.
Proof.
  intros Hp Hk Hn Ho Hid Hv Ha. unfold limit_new_pool in Hn. rewrite Hp in Hn. injection Hn as <-.
  unfold limit_add_order, is_currently_valid in Ha. rewrite Hv, Ho in Ha. cbn [lp_pending lp_parked] in Ha.
  rewrite lookup_insert_eq in Ha. injection Ha as <-.
  unfold limit_park_order. rewrite Hid.
  rewrite (limit_remove_pending _ id (id_hash (order_id o)) (Pending.pending_add_order PendingPool_new o) o);
    [| cbn [lp_pending]; apply lookup_insert_eq | apply lookup_insert_eq |].
  - unfold limit_add_order, is_currently_valid. cbn [currently_invalid with_error pool_id lp_parked].
    by rewrite Ho, Hk.
  - unfold indexed. exists (id_hash (order_id o)). simpl. destruct (osd_is_bid o); apply lookup_insert_eq.
Qed.

(** ** What validation promises to the storage *)

Section Interface.
Context {P : Profile} {S : StateFetchUtils} {E : OrderEnv} {O : Type} `{R : !RawPoolOrder O}.

Lemma can_support_statusable l (o : O) pi e :
  can_support_order l o pi = Ok (inl e) -> statusable e.
Proof.
  unfold can_support_order. destruct (negb _); [done |]. intros H. apply M_bind_Ok in H as (q & _ & H).
  destruct (use_internal o).
  - destruct (ls_angstrom_balance l <? q); [| done]. apply M_bind_Ok in H as (m & _ & H).
    injection H as <-. by eexists.
  - destruct (ls_approval l <? q), (ls_balance l <? q); [| | | done];
      repeat (apply M_bind_Ok in H as (? & _ & H)); injection H as <-; by eexists.
Qed.

Lemma storage_data_ok (o : O) block e valid pi inv st :
  (forall x, e = Some x -> statusable x) ->
  Accounts.into_order_storage_with_data o block e valid pi inv = Ok st -> stored_ok st.
Proof.
  intros He H. apply M_bind_Ok in H as (p & _ & H). injection H as <-. split; [done | exact He].
Qed.

End Interface.

(** what order validation hands over is what the storage relies on: an order
    that [verify_order] returns carries the id made from its own hash, and if it
    cannot be funded its error is one that has an order status. *)
Theorem verified_orders_storable {P : Profile} {S : StateFetchUtils} {E : OrderEnv} {O : Type}
    `{R : !RawPoolOrder O} a (o : O) pi block st a' :
  Accounts.verify_order a o pi block = Ok (inr st, a') -> stored_ok st.
Proof.
  unfold Accounts.verify_order. intros H. apply M_bind_Ok in H as ([e |] & _ & H); [done |].
  destruct (has_hook o); [done |]. destruct (existsb _ _); [done |].
  destruct (Accounts.get_live_state_for_order _ _ _ _) as [[l a2] | |]; [| done | done].
  apply M_bind_Ok in H as (supported & Hs & H). destruct supported as [e | act].
  - apply M_bind_Ok in H as (st' & Hst & H). injection H as <- <-.
    eapply storage_data_ok, Hst. intros x [= <-]. by eapply can_support_statusable.
  - apply M_bind_Ok in H as ([bad a3] & _ & H). apply M_bind_Ok in H as (st' & Hst & H). injection H as <- <-.
    eapply storage_data_ok, Hst. done.
Qed.

(** ** Evaluation *)

#[local] Existing Instance toy_env.

Definition pool_order (h : Z) (bid : bool) : OrderWithStorageData AllOrders :=
  mkOrderWithStorageData (bid_for 100 h false) (mkOrderPriorityData 5 100 0 0) [] 9 None bid true 1
    (mkOrderId 77 9 (hash_of (bid_for 100 h false)) (Nonce h) None None Limit) 0.

Lemma pool_order_stored h bid : stored_ok (pool_order h bid).
Proof. split; [reflexivity |]. by intros e [=]. Defined.

Definition one_order : OrderStorage :=
  match @add_new_limit_order dev toy_env 300 (OrderStorage_new [9] 1000 1000) (pool_order 1 true) with
  | Ok (_, s) => s
  | _ => OrderStorage_new [] 0 0
  end.

Lemma one_order_step :
  rtc (@storage_step dev toy_env 300 200) (OrderStorage_new [9] 1000 1000) one_order.
Proof.
  eapply rtc_l; [| apply rtc_refl].
  apply (@st_add_limit dev toy_env 300 200 _ (pool_order 1 true) None); [apply pool_order_stored |].
  vm_compute. reflexivity.
Defined.

Lemma storage_invariant_witness :
  storage_ok one_order /\
  exists st, fetch_status_of_order one_order 5 = Ok st /\ st <> Some Filled.
Proof.
  destruct (@storage_invariant dev toy_env 300 200 [9] 1000 1000 one_order one_order_step) as [Hok Hst].
  split; [exact Hok |]. destruct (Hst 5) as (st & H1 & H2 & _).
  exists st. split; [exact H1 | exact H2].
Defined.

Lemma finalization_roundtrip_witness :
  let h := hash_of (bid_for 100 1 false) in
  exists f1 back f2 rest,
    new_orders FinalizationPool_new 3 [pool_order 1 true; pool_order 2 false] = Ok f1 /\
    Forall (fun o => fin_has_order f1 (order_hash (order o)) = true)
      [pool_order 1 true; pool_order 2 false] /\
    fin_reorg f1 [h] = (back, f2) /\ finalized f2 3 = (rest, FinalizationPool_new) /\
    back ++ rest ≡ₚ [pool_order 1 true; pool_order 2 false].
Proof.
  apply (@finalization_roundtrip toy_env FinalizationPool_new 3 [pool_order 1 true; pool_order 2 false]).
  - reflexivity.
  - apply NoDup_cons. split; [| apply NoDup_singleton].
    intros H%list_elem_of_singleton. revert H. vm_compute. discriminate.
  - repeat constructor.
  - apply NoDup_singleton.
  - intros x ->%list_elem_of_singleton. apply list_elem_of_here.
Defined.

Lemma demo_pool_ok : limit_ok (lop_limit (limit_orders one_order)).
Proof. exact (proj1 (@storage_reachable_ok dev toy_env 300 200 [9] 1000 1000 one_order one_order_step)). Qed.

(** The pools of the demo storage. *)
Definition pool_9 : PendingPool AllOrders := Pending.pending_add_order PendingPool_new (pool_order 1 true).

Lemma park_order_moves_witness :
  exists l' p', limit_park_order (lop_limit (limit_orders one_order)) (order_id (pool_order 1 true)) = Ok l' /\
    lp_pending l' !! 9 = Some p' /\ pp_orders p' = delete (id_hash (order_id (pool_order 1 true))) (pp_orders pool_9).
Proof.
  destruct (park_order_moves (lop_limit (limit_orders one_order)) (order_id (pool_order 1 true)) pool_9 ∅
              (pool_order 1 true)) as (l' & p' & H1 & _ & H2 & H3 & _).
  - exact demo_pool_ok.
  - vm_compute. reflexivity.
  - vm_compute. reflexivity.
  - vm_compute. reflexivity.
  - eexists. vm_compute. reflexivity.
  - exists l', p'. split; [exact H1 | split; [exact H2 | exact H3]].
Defined.

Lemma pending_tie_lost_witness :
  let p1 := Pending.pending_add_order (Pending.pending_add_order PendingPool_new (pool_order 1 true)) (pool_order 2 true) in
  let '(r1, p2) := Pending.pending_remove_order p1 (id_hash (order_id (pool_order 1 true))) in
  let '(r2, p3) := Pending.pending_remove_order p2 (id_hash (order_id (pool_order 2 true))) in
  r1 = Some (pool_order 1 true) /\
  Pending.pending_get_order p2 (id_hash (order_id (pool_order 2 true))) = Some (pool_order 2 true) /\ r2 = None /\
  Pending.pending_get_order p3 (id_hash (order_id (pool_order 2 true))) = None.
Proof.
  apply (pending_tie_lost PendingPool_new (pool_order 1 true) (pool_order 2 true)).
  - vm_compute. discriminate.
  - reflexivity.
  - reflexivity.
Defined.

Definition empty_limit : LimitPool := mkLimitPool ∅ ∅.

Lemma parking_in_new_pool_panics_witness :
  limit_park_order (mkLimitPool {[ 9 := pool_9 ]} ∅) (order_id (pool_order 1 true)) = Panic.
Proof.
  apply (parking_in_new_pool_panics empty_limit 9 (mkLimitPool {[ 9 := PendingPool_new ]} ∅)
           (pool_order 1 true)); vm_compute; reflexivity.
Defined.

Lemma verified_orders_storable_witness :
  exists st a', toy_verify 1000 1000 UserAccounts_new (bid_for 300 3 false) = Ok (inr st, a') /\ stored_ok st.
Proof.
  do 2 eexists. split; [vm_compute; reflexivity |].
  apply (@verified_orders_storable dev (toy_chain 1000 1000) toy_env AllOrders _ UserAccounts_new
           (bid_for 300 3 false) toy_info 10 _
           (accounts_after (toy_verify 1000 1000 UserAccounts_new (bid_for 300 3 false)))).
  vm_compute. reflexivity.
Defined.

(** The space of a removed order is not given back: with room for two orders, an
    order that is added and removed twice cannot be added a third time. *)
Definition tob_order : OrderWithStorageData TopOfBlockOrder :=
  mkOrderWithStorageData (mkTopOfBlockOrder 5 5 0 false 1 2 0 2 (mkOrderMeta true 77 []))
    (mkOrderPriorityData 5 5 0 0) [] 9 None true true 1 (mkOrderId 77 9 4 (Block 2) None (Some 2) Searcher) 0.

Definition add_and_remove (s : SearcherPool) : M SearcherPool :=
  let* (_, s) := @add_searcher_order dev 200 s tob_order in Ok (sp_remove_order s (order_id tob_order)).2.

Example space_is_not_reclaimed :
  (let* s := add_and_remove (SearcherPool_new [9] (Some 500)) in
   let* s := add_and_remove s in
   let* (e, s) := @add_searcher_order dev 200 s tob_order in
   Ok (e, sp_has_order s 4)) = Ok (Some SearcherMaxSize, false).
Proof. vm_compute. reflexivity. Qed.
