(* ===== verification/BlockSync.v ===== *)
(** * Block synchronization

    crates/types/src/block_sync.rs: the modules of the node agree on the current
    block.  A new block or a reorganization becomes a proposal; every registered
    module signs it off when it has caught up, and the proposal takes effect with
    the last sign-off.

    [GlobalBlockSync] is shared between tasks.  [sign_off_on_block] and [sign_off_reorg]
    are the calls as functions; [call_step] is the same call one lock at a time, and the
    runs of the synchronization ([sync_run]) interleave the calls of the modules and the
    proposals of the producer at that grain.  The only restriction on the runs is the
    one the code needs and does not enforce: from recording its sign-off to its end a
    call is not overlapped by the same part of another call ([sign_off_race_panics]
    shows what happens otherwise).  A waker is the identifier of a task; the wake-ups a
    call performs are part of its result. *)

From S2P Require Import Prelude.

Inductive GlobalBlockState :=
| Processing (block : Z)
| PendingReorg (first last : Z)
| PendingProgression (block : Z).

#[export] Instance GlobalBlockState_eq_dec : EqDecision GlobalBlockState.
Proof. solve_decision. Defined.

Inductive SignOffState :=
| ReadyForNextBlock (waker : option Z)
| HandledReorg (waker : option Z).

(** [PartialEq for SignOffState] compares the kind only. *)
Definition sign_off_eq (a b : SignOffState) : bool :=
  match a, b with
  | ReadyForNextBlock _, ReadyForNextBlock _ | HandledReorg _, HandledReorg _ => true
  | _, _ => false
  end.

Definition try_wake_task (s : SignOffState) : list Z :=
  match s with ReadyForNextBlock w | HandledReorg w => option_list w end.

Record GlobalBlockSync := mkGlobalBlockSync {
  pending_state : list GlobalBlockState;
  block_number : Z;
  registered_modules : gmap string (list SignOffState);
  all_modules_registered : bool;
}.

Definition GlobalBlockSync_new (block : Z) : GlobalBlockSync := mkGlobalBlockSync [] block ∅ false.

Definition set_pending (s : GlobalBlockSync) (l : list GlobalBlockState) : GlobalBlockSync :=
  mkGlobalBlockSync l (block_number s) (registered_modules s) (all_modules_registered s).
Definition set_modules (s : GlobalBlockSync) (m : gmap string (list SignOffState)) : GlobalBlockSync :=
  mkGlobalBlockSync (pending_state s) (block_number s) m (all_modules_registered s).
Definition sync_set_block (s : GlobalBlockSync) (block : Z) : GlobalBlockSync :=
  mkGlobalBlockSync (pending_state s) block (registered_modules s) (all_modules_registered s).

Definition proper_proposal (s : GlobalBlockSync) (p : GlobalBlockState) : bool :=
  bool_decide (p ∈ pending_state s).

Definition sync_clear (s : GlobalBlockSync) : GlobalBlockSync := set_pending s [].

(** ** Producer *)

Definition sync_new_block (s : GlobalBlockSync) (block : Z) : GlobalBlockSync :=
  if bool_decide (last (pending_state s) = Some (PendingProgression block)) then s
  else set_pending s (pending_state s ++ [PendingProgression block]).

Definition sync_reorg (s : GlobalBlockSync) (first last : Z) : GlobalBlockSync :=
  set_pending s (pending_state s ++ [PendingReorg first last]).

Definition finalize_modules (s : GlobalBlockSync) : GlobalBlockSync :=
  mkGlobalBlockSync (pending_state s) (block_number s) (registered_modules s) true.

(** ** Consumer *)

(** [entry(module).and_modify(push_back)]: an unregistered module adds nothing. *)
Definition push_check (m : gmap string (list SignOffState)) (module : string) (check : SignOffState) :
    gmap string (list SignOffState) :=
  match m !! module with Some q => <[module := q ++ [check]]> m | None => m end.

Definition front_is (check : SignOffState) (q : list SignOffState) : bool :=
  match q with x :: _ => sign_off_eq x check | [] => false end.

Definition transition (m : gmap string (list SignOffState)) (check : SignOffState) : bool :=
  forallb (fun p => front_is check p.2) (map_to_list m).

(** Pops one sign-off of every module and wakes its task; [unwrap] of an empty
    queue panics. *)
Definition reset_sign_off (m : gmap string (list SignOffState)) :
    M (list Z * gmap string (list SignOffState)) :=
  if forallb (fun p => match p.2 with [] => false | _ => true end) (map_to_list m) then
    Ok (flat_map (fun p => match p.2 with x :: _ => try_wake_task x | [] => [] end) (map_to_list m),
        tail <$> m)
  else Panic.

(** The stages of a sign-off; each holds the locks of one part of the state. *)

Definition sign_off_guard (s : GlobalBlockSync) (p : GlobalBlockState) : bool :=
  negb (bool_decide (pending_state s = [])) && proper_proposal s p.

Definition push_sign_off (s : GlobalBlockSync) (module : string) (check : SignOffState) : GlobalBlockSync :=
  set_modules s (push_check (registered_modules s) module check).

Definition decide_sign_off (s : GlobalBlockSync) (check : SignOffState) : bool :=
  transition (registered_modules s) check.

Definition pop_pending (s : GlobalBlockSync) : option (GlobalBlockState * GlobalBlockSync) :=
  match pending_state s with [] => None | p :: rest => Some (p, set_pending s rest) end.

Definition store_block (s : GlobalBlockSync) (p : GlobalBlockState) : GlobalBlockSync :=
  match p with PendingProgression n => sync_set_block s n | _ => s end.

Definition reset_modules (s : GlobalBlockSync) : M (list Z * GlobalBlockSync) :=
  let* (woken, m) := reset_sign_off (registered_modules s) in Ok (woken, set_modules s m).

Definition sign_off_reorg (s : GlobalBlockSync) (module : string) (first last : Z) (waker : option Z) :
    M (list Z * GlobalBlockSync) :=
  if negb (sign_off_guard s (PendingReorg first last)) then Panic else
  let check := HandledReorg waker in
  let s := push_sign_off s module check in
  if decide_sign_off s check then
    match pop_pending s with
    | None => Ok ([], s)
    | Some (_, s) => reset_modules s
    end
  else Ok ([], s).

Definition sign_off_on_block (s : GlobalBlockSync) (module : string) (block : Z) (waker : option Z) :
    M (list Z * GlobalBlockSync) :=
  if negb (sign_off_guard s (PendingProgression block)) then Panic else
  let check := ReadyForNextBlock waker in
  let s := push_sign_off s module check in
  if decide_sign_off s check then
    match pop_pending s with
    | None => Ok ([], s)
    | Some (new_state, s) => reset_modules (store_block s new_state)
    end
  else Ok ([], s).

Definition has_proposal (s : GlobalBlockSync) : bool := negb (bool_decide (pending_state s = [])).
Definition can_operate (s : GlobalBlockSync) : bool := negb (has_proposal s).
Definition current_block_number (s : GlobalBlockSync) : Z := block_number s.
Definition fetch_current_proposal (s : GlobalBlockSync) : option GlobalBlockState := head (pending_state s).

(** The module replaces an earlier entry before the check panics. *)
Definition sync_register (s : GlobalBlockSync) (module : string) : M GlobalBlockSync :=
  if all_modules_registered s then Ok s else
  match registered_modules s !! module with
  | Some _ => Panic
  | None => Ok (set_modules s (<[module := []]> (registered_modules s)))
  end.


(** ** What the synchronization promises

    The abstract state is the sequence [ps] of all proposals made so far and the
    number of proposals each module has signed off.  A module signs proposals in
    the order they were made. *)

Definition check_of (p : GlobalBlockState) (w : option Z) : SignOffState :=
  match p with PendingReorg _ _ => HandledReorg w | _ => ReadyForNextBlock w end.

Definition is_proposal (p : GlobalBlockState) : bool :=
  match p with Processing _ => false | _ => true end.

(** What a module calls for the proposal [p]. *)
Definition sign_off (s : GlobalBlockSync) (module : string) (p : GlobalBlockState) (w : option Z) :
    M (list Z * GlobalBlockSync) :=
  match p with
  | PendingReorg first last => sign_off_reorg s module first last w
  | PendingProgression b => sign_off_on_block s module b w
  | Processing _ => Panic
  end.

(** The block number once the proposals [ps] have taken effect. *)
Definition block_after (start : Z) (ps : list GlobalBlockState) : Z :=
  fold_left (fun b p => match p with PendingProgression n => n | _ => b end) ps start.

(** [k] proposals have taken effect, and every module has signed at least those; its
    queue holds one sign-off of the right kind for each proposal it is ahead. *)
Definition queues_ok (ps : list GlobalBlockState) (cnt : gmap string nat) (k : nat) (s : GlobalBlockSync) : Prop :=
  forall m, match cnt !! m, registered_modules s !! m with
    | Some c, Some q => (k <= c <= length ps)%nat /\
        Forall2 (fun x p => sign_off_eq x (check_of p None) = true) q (take (c - k) (drop k ps))
    | None, None => True
    | _, _ => False
    end.

Definition sync_pushed (start : Z) ps (cnt : gmap string nat) (k : nat) (s : GlobalBlockSync) : Prop :=
  forallb is_proposal ps = true /\
  pending_state s = drop k ps /\
  block_number s = block_after start (take k ps) /\ queues_ok ps cnt k s.

(** Between two calls some module has signed no more than the [k] proposals. *)
Definition sync_rel (start : Z) ps (cnt : gmap string nat) (k : nat) (s : GlobalBlockSync) : Prop :=
  sync_pushed start ps cnt k s /\ exists m, cnt !! m = Some k.

(** ** Lemmas *)

Lemma sign_off_eq_trans a b c :
  sign_off_eq a b = true -> sign_off_eq a c = sign_off_eq b c.
Proof. by destruct a, b, c. Qed.

Lemma check_of_eq p w w' : sign_off_eq (check_of p w) (check_of p w') = true.
Proof. by destruct p. Qed.

Lemma sign_off_unfold s m p w :
  is_proposal p = true ->
  sign_off s m p w =
    if negb (sign_off_guard s p) then Panic else
    let s := push_sign_off s m (check_of p w) in
    if decide_sign_off s (check_of p w) then
      match pop_pending s with
      | None => Ok ([], s)
      | Some (p', s) =>
          reset_modules (match p with PendingReorg _ _ => s | _ => store_block s p' end)
      end
    else Ok ([], s).
Proof. by destruct p. Qed.

Lemma transition_true m check :
  transition m check = true <-> map_Forall (fun _ q => front_is check q = true) m.
Proof.
  unfold transition. rewrite forallb_forall, map_Forall_to_list, Forall_forall. split.
  - intros H [i q] Hx. apply (H (i, q)). by apply list_elem_of_In.
  - intros H [i q] Hx. apply (H (i, q)). by apply list_elem_of_In.
Qed.

Lemma transition_false m check :
  transition m check = false -> exists i q, m !! i = Some q /\ front_is check q = false.
Proof.
  intros H. destruct (decide (map_Forall (fun _ q => front_is check q = true) m)) as [E | E].
  - apply transition_true in E. congruence.
  - apply map_not_Forall in E as (i & q & E & F); [| intros; apply _].
    exists i, q. split; [done |]. by destruct (front_is check q).
Qed.

Lemma reset_sign_off_Ok m :
  map_Forall (fun _ q => q <> []) m -> exists woken, reset_sign_off m = Ok (woken, tail <$> m).
Proof.
  intros H. unfold reset_sign_off. rewrite (proj2 (forallb_forall _ _)); [eauto |].
  intros [i q] Hx%list_elem_of_In%elem_of_map_to_list. specialize (H i q Hx). by destruct q.
Qed.

Lemma forallb_lookup {A} (f : A -> bool) l i x : forallb f l = true -> l !! i = Some x -> f x = true.
Proof. rewrite forallb_forall. intros H Hx. by apply H, list_elem_of_In, (list_elem_of_lookup_2 _ i). Qed.

(** The queue of a module that signs its next proposal. *)
Lemma queue_push ps k c p q w :
  (k <= c)%nat -> ps !! c = Some p ->
  Forall2 (fun x p => sign_off_eq x (check_of p None) = true) q (take (c - k) (drop k ps)) ->
  Forall2 (fun x p => sign_off_eq x (check_of p None) = true) (q ++ [check_of p w])
    (take (S c - k) (drop k ps)).
Proof.
  intros Hk Hp Hq. replace (S c - k)%nat with (S (c - k)) by lia.
  rewrite (take_S_r _ _ p) by (rewrite lookup_drop; rewrite <- Hp; f_equal; lia).
  apply Forall2_app; [done |]. by repeat constructor; apply check_of_eq.
Qed.

(** The queue of a module starts with the oldest pending proposal, if it has signed it. *)
Lemma queue_front ps k c p q w :
  (k <= c <= length ps)%nat -> ps !! k = Some p ->
  Forall2 (fun x p => sign_off_eq x (check_of p None) = true) q (take (c - k) (drop k ps)) ->
  front_is (check_of p w) q = bool_decide (k < c)%nat.
Proof.
  intros Hk Hp Hq. rewrite (drop_S _ _ _ Hp) in Hq. case_bool_decide as E.
  - destruct (c - k)%nat eqn:Ec; [lia |]. simpl in Hq.
    destruct q as [| x q]; [by inversion Hq |]. apply Forall2_cons in Hq as [Hx _]. simpl.
    rewrite (sign_off_eq_trans _ _ _ Hx). apply check_of_eq.
  - replace (c - k)%nat with 0%nat in Hq by lia. by inversion Hq.
Qed.

Lemma queue_pop ps k c p q :
  (k < c)%nat -> ps !! k = Some p ->
  Forall2 (fun x p => sign_off_eq x (check_of p None) = true) q (take (c - k) (drop k ps)) ->
  Forall2 (fun x p => sign_off_eq x (check_of p None) = true) (tail q) (take (c - S k) (drop (S k) ps)).
Proof.
  intros Hk Hp Hq. rewrite (drop_S _ _ _ Hp) in Hq.
  replace (c - k)%nat with (S (c - S k)) in Hq by lia. by inversion Hq.
Qed.

Lemma block_after_snoc start ps p :
  block_after start (ps ++ [p]) =
  match p with PendingProgression n => n | _ => block_after start ps end.
Proof. unfold block_after. by rewrite fold_left_app. Qed.

Lemma push_pushed start ps cnt k s m c p w :
  sync_rel start ps cnt k s -> cnt !! m = Some c -> ps !! c = Some p ->
  sync_pushed start ps (<[m := S c]> cnt) k (push_sign_off s m (check_of p w)).
Proof.
  intros [(H1 & H2 & H3 & H4) H5] Hc Hp. split_and!; [done.. |]. intros m'.
  unfold push_sign_off, push_check. cbn. specialize (H4 m) as Hm. rewrite Hc in Hm.
  destruct (registered_modules s !! m) as [q |] eqn:Eq; [| done]. destruct Hm as [Hr Hq].
  destruct (decide (m' = m)) as [-> | Hne].
  - rewrite !lookup_insert, !decide_True by done. apply lookup_lt_Some in Hp as Hl.
    split; [lia |]. by apply queue_push; [lia | |].
  - rewrite !lookup_insert_ne by done. apply H4.
Qed.

Lemma pushed_decide start ps cnt k s p w :
  sync_pushed start ps cnt k s -> ps !! k = Some p ->
  decide_sign_off s (check_of p w) = true <-> map_Forall (fun _ c => k < c)%nat cnt.
Proof.
  intros (H1 & H2 & H3 & H4) Hp. unfold decide_sign_off. rewrite transition_true. split; intros H m.
  - intros c Hc. specialize (H4 m). rewrite Hc in H4.
    destruct (registered_modules s !! m) as [q |] eqn:Eq; [| done]. destruct H4 as [Hr Hq].
    specialize (H m q Eq). cbn in H. erewrite queue_front in H by done. by apply bool_decide_eq_true in H.
  - intros q Hq. specialize (H4 m). rewrite Hq in H4.
    destruct (cnt !! m) as [c |] eqn:Ec; [| done]. destruct H4 as [Hr Hf].
    erewrite queue_front by done. apply bool_decide_eq_true. by apply (H m).
Qed.

Lemma pushed_decide_early start ps cnt k s m check :
  sync_pushed start ps cnt k s -> cnt !! m = Some k -> decide_sign_off s check = false.
Proof.
  intros (H1 & H2 & H3 & H4) Hm. specialize (H4 m). rewrite Hm in H4.
  destruct (registered_modules s !! m) as [q |] eqn:Eq; [| done]. destruct H4 as [_ Hf].
  rewrite Nat.sub_diag in Hf. inversion Hf; subst. apply not_true_is_false.
  intros Ht%transition_true. by specialize (Ht m [] Eq).
Qed.

Lemma pushed_rel start ps cnt k s m :
  sync_pushed start ps cnt k s -> cnt !! m = Some k -> sync_rel start ps cnt k s.
Proof. intros H Hm. split; [done | eauto]. Qed.

(** The proposal [k] has been taken and the queues still hold its sign-offs; the block
    number is that of the first [b] proposals. *)
Definition sync_taken (start : Z) ps (cnt : gmap string nat) (k b : nat) (s : GlobalBlockSync) : Prop :=
  forallb is_proposal ps = true /\ pending_state s = drop (S k) ps /\ block_number s = block_after start (take b ps) /\
  queues_ok ps cnt k s /\ map_Forall (fun _ c => k < c)%nat cnt /\ is_Some (ps !! k).

Lemma taken_reset start ps cnt k s m :
  sync_taken start ps cnt k (S k) s -> cnt !! m = Some (S k) ->
  exists woken s', reset_modules s = Ok (woken, s') /\ sync_rel start ps cnt (S k) s'.
Proof.
  intros (H1 & H2 & H3 & H4 & Hall & [p Hp]) Hm.
  destruct (reset_sign_off_Ok (registered_modules s)) as [woken Er].
  { intros m' q Hq ->. specialize (H4 m'). rewrite Hq in H4.
    destruct (cnt !! m') as [c |] eqn:Ec; [| done]. specialize (Hall m' c Ec). cbn in Hall.
    destruct H4 as [Hr Hf]. rewrite (drop_S _ _ _ Hp) in Hf.
    replace (c - k)%nat with (S (c - S k)) in Hf by lia. inversion Hf. }
  unfold reset_modules. rewrite Er. cbn. do 2 eexists. split; [done |].
  split; [split_and!; cbn; [done | exact H2 | exact H3 |] | eauto].
  intros m'. cbn [registered_modules set_modules]. rewrite lookup_fmap. specialize (H4 m').
  destruct (cnt !! m') as [c |] eqn:Ec, (registered_modules s !! m') as [q |]; try done.
  specialize (Hall m' c Ec). cbn in Hall. destruct H4 as [Hr Hf]. split; [lia |].
  by apply (queue_pop ps k c p).
Qed.

(** Taking the oldest proposal. *)
Lemma pushed_take start ps cnt k s p :
  sync_pushed start ps cnt k s -> ps !! k = Some p -> map_Forall (fun _ c => k < c)%nat cnt ->
  exists s', pop_pending s = Some (p, s') /\ sync_taken start ps cnt k k s'.
Proof.
  intros (H1 & H2 & H3 & H4) Hp Hall. unfold pop_pending. rewrite H2, (drop_S _ _ _ Hp).
  eexists. split; [done |]. by split_and!; [| | | | | exists p].
Qed.

Lemma taken_store start ps cnt k s p :
  sync_taken start ps cnt k k s -> ps !! k = Some p -> sync_taken start ps cnt k (S k) (store_block s p).
Proof.
  intros (H1 & H2 & H3 & H4 & Hall & Hs) Hp. split_and!; [done | | | | done | done]; [by destruct p | | by destruct p].
  rewrite (take_S_r _ _ _ Hp), block_after_snoc, <- H3. by destruct p.
Qed.

(** A reorganization stores no block number. *)
Lemma taken_reorg start ps cnt k s f l :
  sync_taken start ps cnt k k s -> ps !! k = Some (PendingReorg f l) -> sync_taken start ps cnt k (S k) s.
Proof. intros H Hp. exact (taken_store _ _ _ _ _ _ H Hp). Qed.

Lemma pushed_transition start ps cnt k s m p :
  sync_pushed start ps cnt k s -> ps !! k = Some p -> cnt !! m = Some (S k) ->
  map_Forall (fun _ c => k < c)%nat cnt ->
  exists woken s',
    match pop_pending s with
    | None => Ok ([], s)
    | Some (p', s) =>
        reset_modules (match p with PendingReorg _ _ => s | _ => store_block s p' end)
    end = Ok (woken, s') /\ sync_rel start ps cnt (S k) s'.
Proof.
  intros H Hp Hm Hall. destruct (pushed_take _ _ _ _ _ _ H Hp Hall) as (s1 & -> & Ht).
  apply (taken_reset start ps cnt k _ m); [| done]. pose proof (taken_store _ _ _ _ _ _ Ht Hp) as Hs. by destruct p.
Qed.

(** An in-order sign-off returns and counts. *)
Lemma sign_off_rel start ps cnt k s m c p w :
  sync_rel start ps cnt k s -> cnt !! m = Some c -> ps !! c = Some p ->
  exists woken s' k', sign_off s m p w = Ok (woken, s') /\
    sync_rel start ps (<[m := S c]> cnt) k' s'.
Proof.
  intros H Hc Hp. pose proof (push_pushed _ _ _ _ _ _ _ _ w H Hc Hp) as Hpu.
  destruct H as [(H1 & H2 & H3 & H4) [m0 H5]].
  assert (Hkc : (k <= c)%nat).
  { specialize (H4 m). rewrite Hc in H4. destruct (registered_modules s !! m); [by destruct H4; lia | done]. }
  rewrite sign_off_unfold by (by eapply forallb_lookup).
  assert (Hin : p ∈ drop k ps).
  { apply (list_elem_of_lookup_2 _ (c - k)). rewrite lookup_drop, <- Hp. f_equal. lia. }
  assert (Hg : sign_off_guard s p = true).
  { unfold sign_off_guard, proper_proposal. rewrite H2, (bool_decide_true (p ∈ _)) by done.
    rewrite bool_decide_false; [done |]. intros E. rewrite E in Hin. by apply not_elem_of_nil in Hin. }
  rewrite Hg. cbn zeta. cbn [negb].
  destruct (decide (k < c)%nat) as [Hlt | Hge].
  - assert (m0 <> m) by (intros ->; assert (k = c) by congruence; lia).
    assert (Hm0 : <[m := S c]> cnt !! m0 = Some k) by (by rewrite lookup_insert_ne).
    rewrite (pushed_decide_early _ _ _ _ _ _ _ Hpu Hm0). do 3 eexists. split; [done |].
    by eapply pushed_rel.
  - assert (c = k) as -> by lia. destruct (decide_sign_off _ _) eqn:Ed.
    + pose proof Ed as Hall%(pushed_decide _ _ _ _ _ _ w Hpu Hp).
      destruct (pushed_transition _ _ _ _ _ m _ Hpu Hp) as (woken & s' & E & Hr);
        [by rewrite lookup_insert, decide_True | done |]. by do 3 eexists.
    + do 3 eexists. split; [done |].
      assert (Hn : ~ map_Forall (fun _ c => k < c)%nat (<[m := S k]> cnt)).
      { intros E%(pushed_decide _ _ _ _ _ _ w Hpu Hp). congruence. }
      apply map_not_Forall in Hn as (m' & c' & Em' & Hc'); [| intros; apply _].
      assert (c' = k) as ->.
      { destruct Hpu as (_ & _ & _ & Hq). specialize (Hq m'). rewrite Em' in Hq.
        destruct (registered_modules _ !! m'); [by destruct Hq; lia | done]. }
      by eapply pushed_rel.
Qed.

(** ** Runs

    The node registers its modules, fixes the set, and then blocks, reorganizations
    and in-order sign-offs arrive in any order. *)

Inductive sync_reach (start : Z) : list GlobalBlockState -> gmap string nat -> GlobalBlockSync -> Prop :=
| reach_init modules s :
    modules <> [] -> M_fold sync_register (GlobalBlockSync_new start) modules = Ok s ->
    sync_reach start [] (gset_to_gmap 0%nat (list_to_set modules)) (finalize_modules s)
| reach_register ps cnt s m s' :
    sync_reach start ps cnt s -> sync_register s m = Ok s' -> sync_reach start ps cnt s'
| reach_new_block ps cnt s b :
    sync_reach start ps cnt s ->
    sync_reach start
      (ps ++ if bool_decide (last (pending_state s) = Some (PendingProgression b)) then []
             else [PendingProgression b]) cnt (sync_new_block s b)
| reach_reorg ps cnt s first last :
    sync_reach start ps cnt s ->
    sync_reach start (ps ++ [PendingReorg first last]) cnt (sync_reorg s first last)
| reach_sign_off ps cnt s m c p w woken s' :
    sync_reach start ps cnt s -> cnt !! m = Some c -> ps !! c = Some p ->
    sign_off s m p w = Ok (woken, s') -> sync_reach start ps (<[m := S c]> cnt) s'.

(** A schedule of modules, each signing its next proposal when its turn comes. *)
Fixpoint run_sign_offs (ps : list GlobalBlockState) (cnt : gmap string nat) (s : GlobalBlockSync)
    (sched : list string) : M (gmap string nat * GlobalBlockSync) :=
  match sched with
  | [] => Ok (cnt, s)
  | m :: sched =>
      let* c := unwrap (cnt !! m) in
      let* p := unwrap (ps !! c) in
      let* (_, s) := sign_off s m p None in
      run_sign_offs ps (<[m := S c]> cnt) s sched
  end.

Lemma queues_append ps cnt k s ps' s' :
  queues_ok ps cnt k s -> registered_modules s' = registered_modules s -> queues_ok (ps ++ ps') cnt k s'.
Proof.
  intros H E m. rewrite E. specialize (H m).
  destruct (cnt !! m) as [c |], (registered_modules s !! m) as [q |]; try done.
  destruct H as [Hr Hf]. rewrite length_app. split; [lia |].
  rewrite drop_app_le, take_app_le by (rewrite ?length_drop; lia). done.
Qed.

Lemma queues_bound ps cnt k s m c : queues_ok ps cnt k s -> cnt !! m = Some c -> (k <= c <= length ps)%nat.
Proof. intros H Hc. specialize (H m). rewrite Hc in H. by destruct (registered_modules s !! m); [destruct H |]. Qed.

Lemma sync_pushed_append start ps cnt k s ps' m c :
  sync_pushed start ps cnt k s -> cnt !! m = Some c -> forallb is_proposal ps' = true ->
  sync_pushed start (ps ++ ps') cnt k (set_pending s (pending_state s ++ ps')).
Proof.
  intros (H1 & H2 & H3 & H4) Hm Hps'. pose proof (queues_bound _ _ _ _ _ _ H4 Hm). split_and!; cbn.
  - by rewrite forallb_app, H1.
  - by rewrite drop_app_le, H2 by lia.
  - by rewrite take_app_le by lia.
  - by eapply queues_append.
Qed.

Lemma sync_rel_append start ps cnt k s ps' s' :
  sync_rel start ps cnt k s -> forallb is_proposal ps' = true ->
  s' = set_pending s (pending_state s ++ ps') ->
  sync_rel start (ps ++ ps') cnt k s'.
Proof. intros [H [m0 H5]] Hps' ->. split; [by eapply sync_pushed_append | by exists m0]. Qed.

Lemma sync_taken_append start ps cnt k b s ps' :
  sync_taken start ps cnt k b s -> (b <= S k)%nat -> forallb is_proposal ps' = true ->
  sync_taken start (ps ++ ps') cnt k b (set_pending s (pending_state s ++ ps')).
Proof.
  intros (H1 & H2 & H3 & H4 & H5 & [p H6]) Hb Hps'. apply lookup_lt_Some in H6 as Hl. split_and!; cbn; [| | | | done |].
  - by rewrite forallb_app, H1.
  - by rewrite drop_app_le, H2 by lia.
  - by rewrite take_app_le by lia.
  - by eapply queues_append.
  - exists p. by apply lookup_app_l_Some.
Qed.

Lemma register_all_modules modules s s' :
  all_modules_registered s = false -> M_fold sync_register s modules = Ok s' ->
  pending_state s' = pending_state s /\ block_number s' = block_number s /\
  all_modules_registered s' = false /\
  registered_modules s' = gset_to_gmap [] (list_to_set modules) ∪ registered_modules s.
Proof.
  revert s. induction modules as [| m l IH]; intros s Ha H; cbn in H.
  - injection H as <-. split_and!; [done.. |]. cbn [list_to_set].
    by rewrite gset_to_gmap_empty, (left_id_L ∅ (∪)).
  - apply M_bind_Ok in H as (s1 & E & H). unfold sync_register in E. rewrite Ha in E.
    destruct (registered_modules s !! m) eqn:Em; [done |]. injection E as <-.
    apply IH in H as (-> & -> & -> & ->); [| done]. split_and!; [done.. |]. cbn.
    rewrite gset_to_gmap_union_singleton. rewrite <- insert_union_l.
    apply map_eq. intros i. destruct (decide (i = m)) as [-> | Hne].
    + rewrite lookup_union, !lookup_insert, !decide_True by done.
      rewrite lookup_gset_to_gmap. case_guard; done.
    + rewrite lookup_insert_ne, !lookup_union, lookup_insert_ne by done. done.
Qed.

Lemma register_finalized s m s' :
  all_modules_registered s = true -> sync_register s m = Ok s' -> s' = s.
Proof. unfold sync_register. intros ->. congruence. Qed.

Lemma sign_off_finalized s m p w woken s' :
  sign_off s m p w = Ok (woken, s') -> all_modules_registered s' = all_modules_registered s.
Proof.
  destruct p as [n | f l | n]; [done | |]; cbn; unfold sign_off_reorg, sign_off_on_block;
    (destruct (negb _); [done |]); (destruct (decide_sign_off _ _); [| by intros [= _ <-]]);
    unfold pop_pending, reset_modules; (destruct (pending_state _) as [| x rest]; [by intros [= _ <-] |]);
    intros H; m_inv; destruct x0; injection H0 as _ <-; try done; by destruct x.
Qed.

Lemma sync_reach_rel start ps cnt s :
  sync_reach start ps cnt s ->
  all_modules_registered s = true /\ exists k, sync_rel start ps cnt k s.
Proof.
  induction 1 as [modules s Hne Hm | ps cnt s m s' H [IH1 [k IH]] E | ps cnt s b H [IH1 [k IH]]
                 | ps cnt s first last H [IH1 [k IH]] | ps cnt s m c p w woken s' H [IH1 [k IH]] Hc Hp E].
  - split; [done |]. exists 0%nat.
    apply register_all_modules in Hm as (E1 & E2 & E3 & E4); [| done]. cbn in *.
    rewrite (right_id_L ∅ (∪)) in E4. split.
    + split_and!; cbn; [done.. |]. intros m. cbn. rewrite E4, !lookup_gset_to_gmap.
      case_guard; cbn; [by split; [lia | constructor] | done].
    + destruct modules as [| m l]; [done |]. exists m. apply lookup_gset_to_gmap_Some. split; [| done].
      apply elem_of_list_to_set. apply list_elem_of_here.
  - rewrite (register_finalized _ _ _ IH1 E). by eauto.
  - unfold sync_new_block. case_bool_decide; [rewrite app_nil_r; by eauto |].
    split; [done |]. exists k. by eapply sync_rel_append.
  - split; [done |]. exists k. by eapply sync_rel_append.
  - split; [by rewrite (sign_off_finalized _ _ _ _ _ _ E) |].
    destruct (sign_off_rel _ _ _ _ _ _ _ _ w IH Hc Hp) as (? & ? & k' & E' & Hr).
    assert (x0 = s') as -> by congruence. by exists k'.
Qed.

Lemma run_sign_offs_counts start ps sched cnt k s :
  sync_rel start ps cnt k s ->
  (forall m c, cnt !! m = Some c -> (c + length (filter (.= m) sched) = length ps)%nat) ->
  (forall m, m ∈ sched -> is_Some (cnt !! m)) ->
  exists cnt' s' k', run_sign_offs ps cnt s sched = Ok (cnt', s') /\ sync_rel start ps cnt' k' s' /\
    (forall m c, cnt' !! m = Some c -> c = length ps).
Proof.
  revert cnt k s. induction sched as [| m sched IH]; intros cnt k s Hr Hc Hin.
  - exists cnt, s, k. split_and!; [done.. |]. intros m c Hm. specialize (Hc m c Hm). cbn in Hc. lia.
  - destruct (Hin m (list_elem_of_here _ _)) as [c Ec]. pose proof (Hc m c Ec) as Hl.
    rewrite filter_cons_True in Hl by done. cbn in Hl.
    destruct (lookup_lt_is_Some_2 ps c) as [p Ep]; [lia |].
    destruct (sign_off_rel _ _ _ _ _ _ _ _ None Hr Ec Ep) as (woken & s' & k' & E & Hr').
    destruct (IH _ _ _ Hr') as (cnt' & s'' & k'' & E' & Hr'' & Hall).
    + intros m' c'. destruct (decide (m' = m)) as [-> | Hne].
      * rewrite lookup_insert, decide_True by done. intros [= <-]. lia.
      * rewrite lookup_insert_ne by done. intros Hm'. specialize (Hc m' c' Hm').
        by rewrite filter_cons_False in Hc.
    + intros m' Hm'. destruct (decide (m' = m)) as [-> | Hne].
      * rewrite lookup_insert, decide_True by done. eauto.
      * rewrite lookup_insert_ne by done. apply Hin. by apply list_elem_of_further.
    + exists cnt', s'', k''. split; [| done]. cbn [run_sign_offs]. rewrite Ec. cbn [unwrap M_bind].
      rewrite Ep. cbn [unwrap M_bind]. by rewrite E.
Qed.

(** ** Calls, one lock at a time *)

(** Where a sign-off is: it reads whether anything is pending, reads whether the proposal
    is, records its sign-off, compares the fronts of all queues, takes the proposal,
    stores the block number, and empties the fronts. *)
Inductive CallStage :=
| CheckEmpty | CheckProposal | RecordSignOff | Compare | TakePending | StoreBlock (taken : GlobalBlockState) | ResetFronts.

Record SignOffCall := mkSignOffCall {
  call_proposal : GlobalBlockState;
  call_waker : option Z;
  call_stage : CallStage;
}.

Definition at_stage (c : SignOffCall) (st : CallStage) : SignOffCall := mkSignOffCall (call_proposal c) (call_waker c) st.

(** One access of a call: the state it leaves, the tasks it wakes and the call if it goes on. *)
Definition call_step (s : GlobalBlockSync) (module : string) (c : SignOffCall) :
    M (option SignOffCall * list Z * GlobalBlockSync) :=
  let check := check_of (call_proposal c) (call_waker c) in
  match call_stage c with
  | CheckEmpty => if bool_decide (pending_state s = []) then Panic else Ok (Some (at_stage c CheckProposal), [], s)
  | CheckProposal => if proper_proposal s (call_proposal c) then Ok (Some (at_stage c RecordSignOff), [], s) else Panic
  | RecordSignOff => Ok (Some (at_stage c Compare), [], push_sign_off s module check)
  | Compare => Ok (if decide_sign_off s check then Some (at_stage c TakePending) else None, [], s)
  | TakePending =>
      match pop_pending s with
      | None => Ok (None, [], s)
      | Some (new_state, s) =>
          Ok (Some (at_stage c (match call_proposal c with PendingReorg _ _ => ResetFronts | _ => StoreBlock new_state end)), [], s)
      end
  | StoreBlock new_state => Ok (Some (at_stage c ResetFronts), [], store_block s new_state)
  | ResetFronts => let* (woken, s) := reset_modules s in Ok (None, woken, s)
  end.

(** A call that nothing interrupts. *)
Fixpoint run_call (fuel : nat) (s : GlobalBlockSync) (module : string) (c : SignOffCall) : M (list Z * GlobalBlockSync) :=
  match fuel with
  | 0%nat => Err "running"
  | S n =>
      let* (next, woken, s) := call_step s module c in
      match next with
      | None => Ok (woken, s)
      | Some c => let* (woken', s) := run_call n s module c in Ok (woken ++ woken', s)
      end
  end.

Lemma run_call_S n s module c :
  run_call (S n) s module c =
  let* (next, woken, s) := call_step s module c in
  match next with
  | None => Ok (woken, s)
  | Some c => let* (woken', s) := run_call n s module c in Ok (woken ++ woken', s)
  end.
Proof. done. Qed.

Ltac next_access := cbn [M_bind]; rewrite run_call_S; cbn [M_bind call_step call_stage at_stage call_proposal call_waker].

(** [sign_off_on_block] and [sign_off_reorg] are the call, uninterrupted. *)
Lemma run_call_sign_off s module p w :
  is_proposal p = true -> run_call 7 s module (mkSignOffCall p w CheckEmpty) = sign_off s module p w.
Proof.
  intros Hp. rewrite sign_off_unfold by done. unfold sign_off_guard. next_access.
  destruct (bool_decide (pending_state s = [])); [done |]. next_access. cbn [negb andb].
  destruct (proper_proposal s p); [| done]. do 2 next_access. cbn [negb]. set (s1 := push_sign_off _ _ _).
  destruct (decide_sign_off s1 _); [| done]. next_access. destruct (pop_pending s1) as [[p' s2] |]; [| done].
  destruct p as [n | f l | n]; [done | |]; repeat next_access; by destruct (reset_modules _) as [[woken s3] | |].
Qed.

(** The synchronization with the calls under way: those that have not recorded their
    sign-off, by module, and the one that has. *)
Record SyncRun := mkSyncRun {
  run_sync : GlobalBlockSync;
  run_calls : gmap string SignOffCall;
  run_section : option (string * SignOffCall);
}.

(** [ps] are the proposals made so far and [cnt] the sign-offs recorded by each module. *)
Inductive sync_run (start : Z) : list GlobalBlockState -> gmap string nat -> SyncRun -> Prop :=
| run_init modules s :
    modules <> [] -> M_fold sync_register (GlobalBlockSync_new start) modules = Ok s ->
    sync_run start [] (gset_to_gmap 0%nat (list_to_set modules)) (mkSyncRun (finalize_modules s) ∅ None)
| run_register ps cnt s calls sec m s' :
    sync_run start ps cnt (mkSyncRun s calls sec) -> sync_register s m = Ok s' -> sync_run start ps cnt (mkSyncRun s' calls sec)
| run_new_block ps cnt s calls sec b :
    sync_run start ps cnt (mkSyncRun s calls sec) ->
    sync_run start
      (ps ++ if bool_decide (last (pending_state s) = Some (PendingProgression b)) then [] else [PendingProgression b])
      cnt (mkSyncRun (sync_new_block s b) calls sec)
| run_reorg ps cnt s calls sec first last :
    sync_run start ps cnt (mkSyncRun s calls sec) ->
    sync_run start (ps ++ [PendingReorg first last]) cnt (mkSyncRun (sync_reorg s first last) calls sec)
| run_begin ps cnt s calls sec m c p w :
    sync_run start ps cnt (mkSyncRun s calls sec) -> calls !! m = None -> (forall c, sec <> Some (m, c)) ->
    cnt !! m = Some c -> ps !! c = Some p ->
    sync_run start ps cnt (mkSyncRun s (<[m := mkSignOffCall p w CheckEmpty]> calls) sec)
| run_check ps cnt s calls sec m c c' woken s' :
    sync_run start ps cnt (mkSyncRun s calls sec) -> calls !! m = Some c -> call_stage c <> RecordSignOff ->
    call_step s m c = Ok (Some c', woken, s') -> sync_run start ps cnt (mkSyncRun s' (<[m := c']> calls) sec)
| run_record ps cnt s calls m n c c' woken s' :
    sync_run start ps cnt (mkSyncRun s calls None) -> calls !! m = Some c -> call_stage c = RecordSignOff ->
    cnt !! m = Some n -> call_step s m c = Ok (Some c', woken, s') ->
    sync_run start ps (<[m := S n]> cnt) (mkSyncRun s' (delete m calls) (Some (m, c')))
| run_section_step ps cnt s calls m c next woken s' :
    sync_run start ps cnt (mkSyncRun s calls (Some (m, c))) -> call_step s m c = Ok (next, woken, s') ->
    sync_run start ps cnt (mkSyncRun s' calls (option_map (pair m) next)).

(** What holds while a call is in its section, by where it is. *)
Definition section_ok (start : Z) ps (cnt : gmap string nat) (k : nat) (s : GlobalBlockSync) (sec : option (string * SignOffCall)) : Prop :=
  match sec with
  | None => sync_rel start ps cnt k s
  | Some (m, c) =>
      match call_stage c with
      | Compare => sync_pushed start ps cnt k s /\ is_Some (cnt !! m) /\
          ((exists m0, cnt !! m0 = Some k) \/ cnt !! m = Some (S k) /\ ps !! k = Some (call_proposal c))
      | TakePending => sync_pushed start ps cnt k s /\ cnt !! m = Some (S k) /\ ps !! k = Some (call_proposal c) /\
          map_Forall (fun _ c => k < c)%nat cnt
      | StoreBlock taken => sync_taken start ps cnt k k s /\ cnt !! m = Some (S k) /\ ps !! k = Some taken
      | ResetFronts => sync_taken start ps cnt k (S k) s /\ cnt !! m = Some (S k)
      | _ => False
      end
  end.

(** How many proposals have been taken. *)
Definition taken_so_far (k : nat) (sec : option (string * SignOffCall)) : nat :=
  match sec with
  | Some (_, c) => match call_stage c with StoreBlock _ | ResetFronts => S k | _ => k end
  | None => k
  end.

Definition waiting_stage (st : CallStage) : bool := match st with CheckEmpty | CheckProposal | RecordSignOff => true | _ => false end.

(** A call that has not recorded its sign-off is for the next proposal of its module. *)
Definition calls_ok (ps : list GlobalBlockState) (cnt : gmap string nat) (calls : gmap string SignOffCall) (sec : option (string * SignOffCall)) : Prop :=
  map_Forall (fun m c => waiting_stage (call_stage c) = true /\ (forall c', sec <> Some (m, c')) /\
    exists n, cnt !! m = Some n /\ ps !! n = Some (call_proposal c)) calls.

Lemma section_bounds start ps cnt k s sec :
  section_ok start ps cnt k s sec ->
  pending_state s = drop (taken_so_far k sec) ps /\ map_Forall (fun _ c => taken_so_far k sec <= c)%nat cnt /\
  forallb is_proposal ps = true /\ exists m, is_Some (cnt !! m).
Proof.
  assert (Hb : forall k, queues_ok ps cnt k s -> map_Forall (fun _ c => k <= c)%nat cnt)
    by (intros k' Hq m c Hc; by eapply queues_bound in Hc as [? _]).
  destruct sec as [[m [p w []]] |]; cbn; try done.
  - intros ((H1 & H2 & H3 & H4) & Hm & _). split_and!; [done | by apply Hb | done | eauto].
  - intros ((H1 & H2 & H3 & H4) & Hm & _). split_and!; [done | by apply Hb | done | eauto].
  - intros ((H1 & H2 & H3 & H4 & H5 & _) & Hm & _). split_and!; [done | | done | eauto]. intros m' c Hc. by apply (H5 m' c).
  - intros ((H1 & H2 & H3 & H4 & H5 & _) & Hm). split_and!; [done | | done | eauto]. intros m' c Hc. by apply (H5 m' c).
  - intros [(H1 & H2 & H3 & H4) [m Hm]]. split_and!; [done | by apply Hb | done | eauto].
Qed.

Lemma section_block start ps cnt k s sec :
  section_ok start ps cnt k s sec ->
  exists b, current_block_number s = block_after start (take b ps) /\
    (b = taken_so_far k sec \/ S b = taken_so_far k sec /\ exists m c taken, sec = Some (m, c) /\ call_stage c = StoreBlock taken).
Proof.
  destruct sec as [[m [p w []]] |]; cbn; try done.
  - intros ((H1 & H2 & H3 & H4) & _). exists k. by split; [| left].
  - intros ((H1 & H2 & H3 & H4) & _). exists k. by split; [| left].
  - intros ((H1 & H2 & H3 & H4) & _). exists k. split; [done |]. right. split; [done |]. by do 3 eexists.
  - intros ((H1 & H2 & H3 & H4) & _). exists (S k). by split; [| left].
  - intros [(H1 & H2 & H3 & H4) _]. exists k. by split; [| left].
Qed.

Lemma section_append start ps cnt k s sec ps' :
  section_ok start ps cnt k s sec -> forallb is_proposal ps' = true ->
  section_ok start (ps ++ ps') cnt k (set_pending s (pending_state s ++ ps')) sec.
Proof.
  intros H Hps'. destruct sec as [[m [p w []]] |]; cbn in *; try done.
  - destruct H as (H & [c Hc] & Hor). split_and!; [by eapply sync_pushed_append | eauto |].
    destruct Hor as [Hm | [Hm Hp]]; [by left | right]. split; [done | by apply lookup_app_l_Some].
  - destruct H as (H & Hc & Hp & Hall). split_and!; [by eapply sync_pushed_append | done | by apply lookup_app_l_Some | done].
  - destruct H as (H & Hc & Hp). split_and!; [by apply sync_taken_append; [| lia |] | done | by apply lookup_app_l_Some].
  - destruct H as (H & Hc). split; [by apply sync_taken_append; [| lia |] | done].
  - by eapply sync_rel_append.
Qed.

(** Recording a sign-off enters the section. *)
Lemma section_record start ps cnt k s m n p w :
  sync_rel start ps cnt k s -> cnt !! m = Some n -> ps !! n = Some p ->
  section_ok start ps (<[m := S n]> cnt) k (push_sign_off s m (check_of p w)) (Some (m, mkSignOffCall p w Compare)).
Proof.
  intros H Hc Hp. pose proof (push_pushed _ _ _ _ _ _ _ _ w H Hc Hp) as Hpu. destruct H as [(_ & _ & _ & H4) [m0 H5]]. cbn.
  rewrite lookup_insert_eq. split_and!; [done | eauto |]. pose proof (queues_bound _ _ _ _ _ _ H4 Hc) as Hb.
  destruct (decide (m0 = m)) as [-> | Hne]; [right | left; exists m0; by rewrite lookup_insert_ne].
  assert (n = k) as -> by congruence. done.
Qed.

Lemma section_step start ps cnt k s m c :
  section_ok start ps cnt k s (Some (m, c)) ->
  exists next woken s' k', call_step s m c = Ok (next, woken, s') /\ section_ok start ps cnt k' s' (option_map (pair m) next).
Proof.
  destruct c as [p w []]; unfold section_ok at 1; cbn [call_stage]; try done.
  - intros (Hpu & Hsome & Hor). cbn [call_step call_stage call_proposal call_waker at_stage].
    do 3 eexists. exists k. split; [done |]. destruct Hor as [[m0 Hm0] | [Hm Hp]].
    + rewrite (pushed_decide_early _ _ _ _ _ _ _ Hpu Hm0). by split; [| exists m0].
    + destruct (decide_sign_off s (check_of p w)) eqn:Ed; cbn [option_map section_ok at_stage call_stage call_proposal] in *.
      * split_and!; [done.. |]. by apply (pushed_decide _ _ _ _ _ _ w Hpu Hp).
      * split; [done |]. assert (Hn : ~ map_Forall (fun _ c => k < c)%nat cnt).
        { intros E%(pushed_decide _ _ _ _ _ _ w Hpu Hp). congruence. }
        apply map_not_Forall in Hn as (m' & c' & Em' & Hc'); [| intros; apply _]. exists m'. rewrite Em'. f_equal.
        pose proof (queues_bound _ _ _ _ _ _ (proj2 (proj2 (proj2 Hpu))) Em'). lia.
  - intros (Hpu & Hm & Hp & Hall). cbn [call_step call_stage call_proposal call_waker at_stage] in *.
    destruct (pushed_take _ _ _ _ _ _ Hpu Hp Hall) as (s1 & -> & Ht). do 3 eexists. exists k. split; [done |].
    destruct p as [b | f l | b]; cbn; [done | | done]. split; [by eapply taken_reorg | done].
  - intros (Ht & Hm & Hp). cbn. do 3 eexists. exists k. split; [done |]. cbn. split; [by apply taken_store | done].
  - intros (Ht & Hm). cbn. destruct (taken_reset _ _ _ _ _ _ Ht Hm) as (woken & s' & -> & Hr). cbn. do 3 eexists. by exists (S k).
Qed.

Lemma check_step start ps cnt k s sec m c n :
  section_ok start ps cnt k s sec -> waiting_stage (call_stage c) = true -> cnt !! m = Some n -> ps !! n = Some (call_proposal c) ->
  exists c' s', call_step s m c = Ok (Some c', [], s') /\ call_proposal c' = call_proposal c /\
    (call_stage c <> RecordSignOff -> s' = s /\ waiting_stage (call_stage c') = true).
Proof.
  intros Hs Hw Hm Hp. destruct (section_bounds _ _ _ _ _ _ Hs) as (Hpend & Hall & _).
  specialize (Hall m n Hm). cbn in Hall.
  assert (Hin : call_proposal c ∈ pending_state s).
  { rewrite Hpend. apply (list_elem_of_lookup_2 _ (n - taken_so_far k sec)). rewrite lookup_drop, <- Hp. f_equal. lia. }
  destruct c as [p w []]; cbn in *; try done.
  - rewrite bool_decide_false by (intros E; rewrite E in Hin; by apply not_elem_of_nil in Hin). by do 2 eexists.
  - unfold proper_proposal. rewrite bool_decide_true by done. by do 2 eexists.
  - by do 2 eexists.
Qed.

Lemma calls_append ps cnt calls sec ps' : calls_ok ps cnt calls sec -> calls_ok (ps ++ ps') cnt calls sec.
Proof.
  intros H m c Hm. destruct (H m c Hm) as (H1 & H2 & n & H3 & H4). split_and!; [done | done |]. exists n. split; [done |]. by apply lookup_app_l_Some.
Qed.

Lemma call_step_finalized s m c next woken s' :
  call_step s m c = Ok (next, woken, s') -> all_modules_registered s' = all_modules_registered s.
Proof.
  destruct c as [p w []]; cbn.
  - by destruct (bool_decide _); [| intros [= _ _ <-]].
  - by destruct (proper_proposal _ _); [intros [= _ _ <-] |].
  - by intros [= _ _ <-].
  - by intros [= _ _ <-].
  - unfold pop_pending. destruct (pending_state s); by intros [= _ _ <-].
  - intros [= _ _ <-]. by destruct taken.
  - unfold reset_modules. intros H. apply M_bind_Ok in H as ([w1 s1] & H1 & H). apply M_bind_Ok in H1 as ([w2 m2] & _ & H1).
    injection H1 as <- <-. by injection H as _ _ <-.
Qed.

Lemma sync_run_ok start ps cnt r :
  sync_run start ps cnt r ->
  all_modules_registered (run_sync r) = true /\ calls_ok ps cnt (run_calls r) (run_section r) /\
  exists k, section_ok start ps cnt k (run_sync r) (run_section r).
Proof.
  induction 1 as [modules s Hne Hm | ps cnt s calls sec m s' H (I1 & I2 & k & I3) E | ps cnt s calls sec b H (I1 & I2 & k & I3)
    | ps cnt s calls sec f l H (I1 & I2 & k & I3) | ps cnt s calls sec m c p w H (I1 & I2 & k & I3) Hn Hsec Hc Hp
    | ps cnt s calls sec m c c' woken s' H (I1 & I2 & k & I3) Hm Hst Hstep
    | ps cnt s calls m n c c' woken s' H (I1 & I2 & k & I3) Hm Hst Hc Hstep
    | ps cnt s calls m c next woken s' H (I1 & I2 & k & I3) Hstep]; cbn [run_sync run_calls run_section] in *.
  - split; [done |]. split; [apply map_Forall_empty |]. destruct (sync_reach_rel start _ _ _ (reach_init start modules s Hne Hm)) as [_ Hk]. done.
  - rewrite (register_finalized _ _ _ I1 E). by eauto.
  - unfold sync_new_block. case_bool_decide; [rewrite app_nil_r; by eauto |]. split; [done |]. split; [by apply calls_append |].
    exists k. by apply section_append.
  - split; [done |]. split; [by apply calls_append |]. exists k. by apply section_append.
  - split; [done |]. split; [| by exists k]. apply map_Forall_insert_2; [| done]. split_and!; [done | done | by exists c].
  - destruct (I2 m c Hm) as (Hw & Hs & n & Hn & Hp).
    destruct (check_step start ps cnt k s sec m c n I3 Hw Hn Hp) as (c1 & s1 & E & Ec & Hst1). rewrite E in Hstep. injection Hstep as -> _ ->.
    destruct (Hst1 Hst) as [-> Hw']. split; [done |]. split; [| by exists k]. apply map_Forall_insert_2; [| done].
    split_and!; [done | done |]. exists n. by rewrite Ec.
  - destruct (I2 m c Hm) as (_ & _ & n' & Hn & Hp). assert (n' = n) as -> by congruence.
    unfold call_step in Hstep. rewrite Hst in Hstep. injection Hstep as <- _ <-. split; [done |]. split.
    + intros m' c' Hm'. apply lookup_delete_Some in Hm' as [Hne Hm']. destruct (I2 m' c' Hm') as (J1 & _ & J3).
      split_and!; [done | congruence |]. by rewrite lookup_insert_ne.
    + exists k. unfold at_stage. by apply section_record.
  - destruct (section_step _ _ _ _ _ _ _ I3) as (next' & woken' & s1 & k' & E & Hs). rewrite E in Hstep. injection Hstep as -> _ ->.
    split; [by rewrite (call_step_finalized _ _ _ _ _ _ E) |]. split; [| by exists k'].
    intros m' c' Hm'. destruct (I2 m' c' Hm') as (J1 & J2 & J3). split_and!; [done | | done].
    intros c2. destruct next; cbn; [| done]. intros [= -> _]. by apply (J2 c).
Qed.

(** ** Properties *)

(** C37: The calls of the modules and the proposals of the producer interleave lock by
    lock; modules sign proposals in the order they were made, and from recording its
    sign-off to its end no call is overlapped by the same part of another call.  In every
    such run the pending proposals are those after the ones every module has signed off,
    the block number is that of the proposals taken, except for the moment between
    taking a proposal and storing its number, outside of that part some module has signed
    no more than the proposals taken, and the next access of every call under way
    returns: no sign-off panics. *)
Theorem block_sync_refines start ps cnt r :
  sync_run start ps cnt r ->
  let s := run_sync r in
  exists k b,
    map_Forall (fun _ c => k <= c)%nat cnt /\ pending_state s = drop k ps /\
    current_block_number s = block_after start (take b ps) /\
    (b = k \/ S b = k /\ exists m c taken, run_section r = Some (m, c) /\ call_stage c = StoreBlock taken) /\
    (run_section r = None -> exists m, cnt !! m = Some k) /\
    forall m c, run_calls r !! m = Some c \/ run_section r = Some (m, c) -> exists next, call_step s m c = Ok next.
Proof.
  intros (_ & Hcalls & k & Hs)%sync_run_ok s. destruct (section_bounds _ _ _ _ _ _ Hs) as (Hpend & Hall & _).
  destruct (section_block _ _ _ _ _ _ Hs) as (b & Hb & Hbk). exists (taken_so_far k (run_section r)), b.
  split_and!; [done.. | |].
  - intros E. rewrite E in *. by destruct Hs as [_ ?].
  - intros m c [Hm | Hm].
    + destruct (Hcalls m c Hm) as (Hw & _ & n & Hn & Hp).
      destruct (check_step _ _ _ _ _ _ m c n Hs Hw Hn Hp) as (c' & s' & E & _). by eexists.
    + rewrite Hm in Hs. destruct (section_step _ _ _ _ _ _ _ Hs) as (next & woken & s' & k' & E & _). by eexists.
Qed.

(** The same for sign-offs that run one after the other: the block number is that of the
    proposals every module has signed off, the pending proposals are the remaining ones,
    and a module that signs off its next proposal never panics. *)
Theorem sign_offs_in_turn start ps cnt s :
  sync_reach start ps cnt s ->
  exists k,
    map_Forall (fun _ c => k <= c)%nat cnt /\ (exists m, cnt !! m = Some k) /\
    pending_state s = drop k ps /\
    current_block_number s = block_after start (take k ps) /\
    (forall m c p w, cnt !! m = Some c -> ps !! c = Some p ->
      exists woken s', sign_off s m p w = Ok (woken, s')).
Proof.
  intros [_ [k H]]%sync_reach_rel. exists k. pose proof H as [(H1 & H2 & H3 & H4) H5].
  split_and!; [| done.. |].
  - intros m c Hc. specialize (H4 m). rewrite Hc in H4.
    by destruct (registered_modules s !! m); [destruct H4; lia |].
  - intros m c p w Hc Hp. destruct (sign_off_rel _ _ _ _ _ _ _ _ w H Hc Hp) as (woken & s' & _ & E & _).
    eauto.
Qed.

(** Whatever the order in which the modules catch up, once each has signed off
    all proposals nothing is pending, the node can operate, and the block number is
    that of the last progression. *)
Theorem all_signed_off_operates start ps cnt s sched :
  sync_reach start ps cnt s ->
  (forall m c, cnt !! m = Some c -> (c + length (filter (.= m) sched) = length ps)%nat) ->
  (forall m, m ∈ sched -> is_Some (cnt !! m)) ->
  exists cnt' s', run_sign_offs ps cnt s sched = Ok (cnt', s') /\
    can_operate s' = true /\ current_block_number s' = block_after start ps.
Proof.
  intros [_ [k H]]%sync_reach_rel Hc Hin.
  destruct (run_sign_offs_counts _ _ _ _ _ _ H Hc Hin) as (cnt' & s' & k' & E & Hr & Hall).
  exists cnt', s'. split; [done |]. destruct Hr as [(H1 & H2 & H3 & H4) [m H5]].
  apply Hall in H5 as ->. unfold can_operate, has_proposal, current_block_number.
  by rewrite H2, H3, drop_all, firstn_all.
Qed.

(** Two modules whose sign-offs interleave between recording the sign-off and
    taking the proposal: both see that everyone has signed, and the second takes the
    next proposal, which nobody has signed; the block number is moved to it and the
    task panics while resetting the empty queues. *)
Theorem sign_off_race_panics s m1 m2 b1 b2 rest w1 w2 :
  m1 <> m2 -> registered_modules s = {[m1 := []; m2 := []]} ->
  pending_state s = PendingProgression b1 :: PendingProgression b2 :: rest ->
  let s2 := push_sign_off (push_sign_off s m1 (ReadyForNextBlock w1)) m2 (ReadyForNextBlock w2) in
  decide_sign_off s2 (ReadyForNextBlock w1) = true /\
  decide_sign_off s2 (ReadyForNextBlock w2) = true /\
  exists s3 woken s4 s5,
    pop_pending s2 = Some (PendingProgression b1, s3) /\
    reset_modules (store_block s3 (PendingProgression b1)) = Ok (woken, s4) /\
    pop_pending s4 = Some (PendingProgression b2, s5) /\
    block_number (store_block s5 (PendingProgression b2)) = b2 /\
    reset_modules (store_block s5 (PendingProgression b2)) = Panic.
Proof.
  intros Hne Hm Hp s2.
  assert (E : registered_modules s2 = {[m1 := [ReadyForNextBlock w1]; m2 := [ReadyForNextBlock w2]]}).
  { unfold s2, push_sign_off, push_check. cbn. rewrite Hm, lookup_insert, decide_True by done.
    rewrite insert_insert, decide_True by done. cbn.
    rewrite lookup_insert_ne, lookup_singleton, decide_True by done.
    rewrite insert_insert_ne by done. f_equal. by rewrite insert_singleton, decide_True. }
  assert (F : forall w, decide_sign_off s2 (ReadyForNextBlock w) = true).
  { intros w. unfold decide_sign_off. rewrite E. apply transition_true.
    apply map_Forall_insert_2; [done |]. by apply map_Forall_singleton. }
  split_and!; [done.. |].
  destruct (reset_sign_off_Ok (registered_modules s2)) as [woken Er].
  { rewrite E. apply map_Forall_insert_2; [done |]. by apply map_Forall_singleton. }
  assert (Ep : pop_pending s2 = Some (PendingProgression b1, set_pending s2 (PendingProgression b2 :: rest))).
  { unfold pop_pending. cbn. by rewrite Hp. }
  clearbody s2.
  exists (set_pending s2 (PendingProgression b2 :: rest)), woken. do 2 eexists.
  split_and!; [done | unfold reset_modules; cbn; by rewrite Er | done | done |].
  unfold reset_modules. cbn [registered_modules store_block sync_set_block set_pending set_modules].
  rewrite E, fmap_insert, map_fmap_singleton. cbn [tail].
  unfold reset_sign_off. destruct (forallb _ _) eqn:Ef; [| done].
  rewrite forallb_forall in Ef. specialize (Ef (m1, [])). cbn in Ef. discriminate Ef.
  apply list_elem_of_In, elem_of_map_to_list. by rewrite lookup_insert, decide_True.
Qed.

(** ** Witnesses *)

Definition demo_sync : M GlobalBlockSync :=
  let* s := M_fold sync_register (GlobalBlockSync_new 10) ["a"; "b"]%string in
  let s := sync_new_block (finalize_modules s) 11 in
  let* (_, s) := sign_off s "a" (PendingProgression 11) (Some 1) in
  Ok (sync_reorg s 10 11).

Lemma demo_reach s :
  demo_sync = Ok s ->
  sync_reach 10 [PendingProgression 11; PendingReorg 10 11]
    (<["a"%string := 1%nat]> (gset_to_gmap 0%nat (list_to_set ["a"; "b"]%string))) s.
Proof.
  intros H. unfold demo_sync in H. apply M_bind_Ok in H as (s0 & E0 & H).
  apply M_bind_Ok in H as ([woken s1] & E1 & H). injection H as <-.
  apply (reach_reorg _ [PendingProgression 11]).
  eapply (reach_sign_off _ _ _ _ _ 0%nat); [| by vm_compute | | exact E1]; [| done].
  pose proof (reach_init 10 ["a"; "b"]%string s0 ltac:(done) E0) as R.
  apply register_all_modules in E0 as (E & _); [| done].
  apply (reach_new_block 10 [] _ _ 11) in R. by rewrite bool_decide_false in R by (cbn; by rewrite E).
Qed.

(** Two calls check side by side; a reorganization is proposed while the first compares
    the fronts; the second takes the proposal and is about to store its number. *)
Definition demo_modules : GlobalBlockSync :=
  match M_fold sync_register (GlobalBlockSync_new 10) ["a"; "b"]%string with Ok s => s | _ => GlobalBlockSync_new 10 end.
Definition demo_checks : GlobalBlockSync := sync_new_block (finalize_modules demo_modules) 11.
Definition demo_first : GlobalBlockSync := push_sign_off demo_checks "a" (ReadyForNextBlock None).
Definition demo_both : GlobalBlockSync := push_sign_off (sync_reorg demo_first 10 11) "b" (ReadyForNextBlock None).
Definition demo_taken : GlobalBlockSync := set_pending demo_both [PendingReorg 10 11].
Definition demo_call (st : CallStage) : SignOffCall := mkSignOffCall (PendingProgression 11) None st.
Definition demo_counts : gmap string nat := gset_to_gmap 0%nat (list_to_set ["a"; "b"]%string).

Lemma demo_sync_run :
  sync_run 10 [PendingProgression 11; PendingReorg 10 11] (<["b"%string := 1%nat]> (<["a"%string := 1%nat]> demo_counts))
    (mkSyncRun demo_taken ∅ (Some ("b"%string, demo_call (StoreBlock (PendingProgression 11))))).
Proof.
  assert (R1 : sync_run 10 [PendingProgression 11] demo_counts (mkSyncRun demo_checks ∅ None)).
  { pose proof (run_init 10 ["a"; "b"]%string demo_modules ltac:(discriminate) ltac:(vm_compute; reflexivity)) as R0.
    exact (run_new_block _ _ _ _ _ _ 11 R0). }
  assert (R2 : sync_run 10 [PendingProgression 11] demo_counts
    (mkSyncRun demo_checks {["a"%string := demo_call RecordSignOff; "b"%string := demo_call RecordSignOff]} None)).
  { apply (run_begin _ _ _ _ _ _ "a"%string 0%nat (PendingProgression 11) None) in R1; [| reflexivity | done | vm_compute; reflexivity | reflexivity].
    apply (run_begin _ _ _ _ _ _ "b"%string 0%nat (PendingProgression 11) None) in R1; [| reflexivity | done | vm_compute; reflexivity | reflexivity].
    apply (run_check _ _ _ _ _ _ "a"%string (demo_call CheckEmpty) (demo_call CheckProposal) [] demo_checks) in R1; [| vm_compute; reflexivity | done | vm_compute; reflexivity].
    apply (run_check _ _ _ _ _ _ "b"%string (demo_call CheckEmpty) (demo_call CheckProposal) [] demo_checks) in R1; [| vm_compute; reflexivity | done | vm_compute; reflexivity].
    apply (run_check _ _ _ _ _ _ "a"%string (demo_call CheckProposal) (demo_call RecordSignOff) [] demo_checks) in R1; [| vm_compute; reflexivity | done | vm_compute; reflexivity].
    apply (run_check _ _ _ _ _ _ "b"%string (demo_call CheckProposal) (demo_call RecordSignOff) [] demo_checks) in R1; [| vm_compute; reflexivity | done | vm_compute; reflexivity].
    exact R1. }
  apply (run_record _ _ _ _ _ "a"%string 0%nat (demo_call RecordSignOff) (demo_call Compare) [] demo_first) in R2;
    [| vm_compute; reflexivity | done | vm_compute; reflexivity | vm_compute; reflexivity].
  apply (run_reorg _ _ _ _ _ _ 10 11) in R2.
  apply (run_section_step _ _ _ _ _ _ _ None [] (sync_reorg demo_first 10 11)) in R2; [| vm_compute; reflexivity].
  apply (run_record _ _ _ _ _ "b"%string 0%nat (demo_call RecordSignOff) (demo_call Compare) [] demo_both) in R2;
    [| vm_compute; reflexivity | done | vm_compute; reflexivity | vm_compute; reflexivity].
  apply (run_section_step _ _ _ _ _ _ _ (Some (demo_call TakePending)) [] demo_both) in R2; [| vm_compute; reflexivity].
  apply (run_section_step _ _ _ _ _ _ _ (Some (demo_call (StoreBlock (PendingProgression 11)))) [] demo_taken) in R2; [| vm_compute; reflexivity].
  exact R2.
Qed.

Lemma block_sync_refines_witness :
  exists k b, pending_state demo_taken = drop k [PendingProgression 11; PendingReorg 10 11] /\
    current_block_number demo_taken = block_after 10 (take b [PendingProgression 11; PendingReorg 10 11]) /\
    exists next, call_step demo_taken "b" (demo_call (StoreBlock (PendingProgression 11))) = Ok next.
Proof.
  destruct (block_sync_refines _ _ _ _ demo_sync_run) as (k & b & _ & H1 & H2 & _ & _ & H3).
  exists k, b. split; [exact H1 |]. split; [exact H2 |]. apply H3. right. reflexivity.
Defined.

Lemma all_signed_off_operates_witness :
  exists s, demo_sync = Ok s /\ exists cnt' s',
    run_sign_offs [PendingProgression 11; PendingReorg 10 11]
      (<["a"%string := 1%nat]> (gset_to_gmap 0%nat (list_to_set ["a"; "b"]%string))) s
      ["a"; "b"; "b"]%string = Ok (cnt', s') /\
    can_operate s' = true /\ current_block_number s' = 11.
Proof.
  destruct demo_sync as [s | |] eqn:E; [| vm_compute in E; discriminate E ..].
  exists s. split; [done |]. apply (all_signed_off_operates 10 _ _ _ _ (demo_reach s E)).
  - intros m c Hm. destruct (decide (m = "a"%string)) as [-> | Ha];
      [by vm_compute in Hm; injection Hm as <- |].
    rewrite lookup_insert_ne in Hm by done. apply lookup_gset_to_gmap_Some in Hm as [Hm <-].
    assert (m = "b"%string) as -> by set_solver. done.
  - intros m Hm. apply elem_of_cons in Hm as [-> | Hm]; [by eexists; vm_compute |].
    assert (m = "b"%string) as -> by set_solver. by eexists; vm_compute.
Defined.

Lemma sign_off_race_panics_witness :
  let s := mkGlobalBlockSync [PendingProgression 11; PendingProgression 12] 10
             {["a"%string := []; "b"%string := []]} true in
  let s2 := push_sign_off (push_sign_off s "a" (ReadyForNextBlock None)) "b" (ReadyForNextBlock None) in
  decide_sign_off s2 (ReadyForNextBlock None) = true.
Proof.
  apply (sign_off_race_panics
    (mkGlobalBlockSync [PendingProgression 11; PendingProgression 12] 10
       {["a"%string := []; "b"%string := []]} true) "a"%string "b"%string 11 12 [] None None);
    [discriminate | reflexivity | reflexivity].
Defined.
