(* ===== verification/OrderTracker.v ===== *)
(** * Order tracker, subscribers and validation queue

    crates/order-pool/src/order_tracker.rs, order_subscribers.rs, validator.rs and
    the update type of lib.rs: which orders the node knows by hash, who waits for
    the result of a validation, and the queue of validations across a block
    transition.

    The clock is an argument ([now], in seconds).  A hash set of order ids is a
    list without duplicates.  One-shot and broadcast channels are the list of what
    was sent through them.  A validation future is the order it validates: when it
    resolves, and to what, is an input of [validator_poll]. *)

From S2P Require Import Prelude Uniswap Ray Orders Accounts OrderPool.

Abbreviation PeerId := Z (only parsing).

Inductive OrderOrigin := Local | External | Private.

Inductive OrderValidationResults :=
| Valid (valid : OrderWithStorageData AllOrders)
| Invalid (hash : B256) (error : OrderValidationError)
| TransitionedToBlock.

(** ** Subscribers *)

Inductive PoolManagerUpdate :=
| NewOrder (o : OrderWithStorageData AllOrders)
| FilledOrder (block : Z) (o : OrderWithStorageData AllOrders)
| UnfilledOrders (o : OrderWithStorageData AllOrders)
| CancelledOrderUpdate (tob : bool) (user : Address) (pool : PoolId) (hash : B256)
| ExpiredOrder (hash : B256).

Definition update_order_id (u : PoolManagerUpdate) : B256 :=
  match u with
  | NewOrder o | FilledOrder _ o | UnfilledOrders o => id_hash (order_id o)
  | CancelledOrderUpdate _ _ _ h | ExpiredOrder h => h
  end.

Definition last_notification_for_order (u : PoolManagerUpdate) : bool :=
  match u with FilledOrder _ _ | ExpiredOrder _ | CancelledOrderUpdate _ _ _ _ => true | _ => false end.

(** [validation_sent] is what the one-shot channels received. *)
Record OrderSubscriptionTracker := mkOrderSubscriptionTracker {
  order_validation_subs : gmap B256 (list Z);
  orders_subscriber_tx : list PoolManagerUpdate;
  order_notification_tracker : gset B256;
  validation_sent : list (Z * OrderValidationResults);
}.

Definition OrderSubscriptionTracker_new : OrderSubscriptionTracker :=
  mkOrderSubscriptionTracker ∅ [] ∅ [].

Definition subscribe_to_order (s : OrderSubscriptionTracker) (hash : B256) (tx : Z) :
    OrderSubscriptionTracker :=
  mkOrderSubscriptionTracker
    (<[hash := default [] (order_validation_subs s !! hash) ++ [tx]]> (order_validation_subs s))
    (orders_subscriber_tx s) (order_notification_tracker s) (validation_sent s).

Definition notify_order_subscribers (s : OrderSubscriptionTracker) (u : PoolManagerUpdate) :
    OrderSubscriptionTracker :=
  let id := update_order_id u in
  if bool_decide (id ∈ order_notification_tracker s) && negb (last_notification_for_order u) then s
  else
    mkOrderSubscriptionTracker (order_validation_subs s) (orders_subscriber_tx s ++ [u])
      (if last_notification_for_order u then order_notification_tracker s ∖ {[id]}
       else order_notification_tracker s) (validation_sent s).

Definition notify_expired_orders (s : OrderSubscriptionTracker) (orders : list B256) :
    OrderSubscriptionTracker :=
  fold_left (fun s h =>
      mkOrderSubscriptionTracker (order_validation_subs s) (orders_subscriber_tx s ++ [ExpiredOrder h])
        (order_notification_tracker s ∖ {[h]}) (validation_sent s)) orders s.

Definition notify_validation_subscribers (s : OrderSubscriptionTracker) (hash : B256)
    (result : OrderValidationResults) : OrderSubscriptionTracker :=
  match order_validation_subs s !! hash with
  | None => s
  | Some subs =>
      mkOrderSubscriptionTracker (delete hash (order_validation_subs s)) (orders_subscriber_tx s)
        (order_notification_tracker s) (validation_sent s ++ map (fun tx => (tx, result)) subs)
  end.

(** ** The validation queue (validator.rs) *)

Inductive OrderValidator :=
| ClearingForNewBlock (block_number : Z) (waiting_for_new_block : list (OrderOrigin * AllOrders))
    (completed_orders : list B256) (revalidation_addresses : list Address)
    (remaining_futures : list (OrderOrigin * AllOrders))
| WaitingForStorageCleanup (waiting_for_new_block : list (OrderOrigin * AllOrders))
| InformState (waiting_for_new_block : list (OrderOrigin * AllOrders))
    (future : Z * list B256 * list Address)
| RegularProcessing (remaining_futures : list (OrderOrigin * AllOrders)).

Inductive OrderValidatorRes :=
| ValidatedOrder (res : OrderValidationResults)
| EnsureClearForTransition (block : Z) (orders : list B256) (addresses : list Address)
| TransitionComplete.

Definition OrderValidator_new : OrderValidator := RegularProcessing [].

Definition is_transitioning (v : OrderValidator) : bool :=
  match v with ClearingForNewBlock _ _ _ _ _ | InformState _ _ => true | _ => false end.

(** The [unreachable!] of the pattern is reached while waiting for the storage. *)
Definition on_new_block (v : OrderValidator) (block : Z) (completed : list B256)
    (addresses : list Address) : M OrderValidator :=
  if is_transitioning v then Panic else
  match v with
  | RegularProcessing remaining => Ok (ClearingForNewBlock block [] completed addresses remaining)
  | _ => Panic
  end.

Definition notify_validation_on_changes (v : OrderValidator) (block : Z) (orders : list B256)
    (changed : list Address) : OrderValidator :=
  match v with
  | WaitingForStorageCleanup waiting => InformState waiting (block, orders, changed)
  | _ => v
  end.

Definition validate_order (v : OrderValidator) (origin : OrderOrigin) (order : AllOrders) :
    OrderValidator :=
  match v with
  | RegularProcessing remaining => RegularProcessing (remaining ++ [(origin, order)])
  | WaitingForStorageCleanup waiting => WaitingForStorageCleanup (waiting ++ [(origin, order)])
  | ClearingForNewBlock b waiting c a remaining =>
      ClearingForNewBlock b (waiting ++ [(origin, order)]) c a remaining
  | InformState waiting f => InformState (waiting ++ [(origin, order)]) f
  end.

Definition handle_inform (waiting : list (OrderOrigin * AllOrders)) (ready : bool) :
    option OrderValidator :=
  if ready then
    Some (fold_left (fun v (x : OrderOrigin * AllOrders) => validate_order v x.1 x.2) waiting
            (RegularProcessing []))
  else None.

(** What the runtime reports to one poll: nothing, the [i]th pending validation with
    its result, or the new-block call. *)
Inductive Ready := NothingReady | ValidationReady (i : nat) (res : OrderValidationResults) | InformReady.

Definition poll_futures (l : list (OrderOrigin * AllOrders)) (r : Ready) :
    option (OrderValidationResults * list (OrderOrigin * AllOrders)) :=
  match r with
  | ValidationReady i res =>
      match l !! i with Some _ => Some (res, delete i l) | None => None end
  | _ => None
  end.

Definition validator_poll (v : OrderValidator) (r : Ready) : option OrderValidatorRes * OrderValidator :=
  match v with
  | ClearingForNewBlock b waiting completed addresses remaining =>
      match poll_futures remaining r with
      | Some (next, remaining) =>
          (Some (ValidatedOrder next), ClearingForNewBlock b waiting completed addresses remaining)
      | None =>
          if bool_decide (remaining = []) then
            (Some (EnsureClearForTransition b completed addresses), WaitingForStorageCleanup waiting)
          else (None, v)
      end
  | WaitingForStorageCleanup _ => (None, v)
  | InformState waiting f =>
      match handle_inform waiting (match r with InformReady => true | _ => false end) with
      | Some v' => (Some TransitionComplete, v')
      | None => (None, v)
      end
  | RegularProcessing remaining =>
      match poll_futures remaining r with
      | Some (next, remaining) => (Some (ValidatedOrder next), RegularProcessing remaining)
      | None => (None, v)
      end
  end.

(** ** The tracker (order_tracker.rs) *)

Definition ETH_BLOCK_TIME : Z := 12.
Definition MAX_NEW_ORDER_DELAY_PROPAGATION : Z := 7000.

Record InnerCancelOrderRequest := mkInnerCancelOrderRequest {
  icr_from : Address;
  icr_deadline : Z;
}.

Record OrderTracker := mkOrderTracker {
  address_to_orders : gmap Address (list OrderId);
  order_hash_to_order_id : gmap B256 OrderId;
  order_hash_to_peer_id : gmap B256 (list PeerId);
  seen_invalid_orders : gset B256;
  cancelled_orders : gmap B256 InnerCancelOrderRequest;
  validating : gset B256;
}.

Definition OrderTracker_new : OrderTracker := mkOrderTracker ∅ ∅ ∅ ∅ ∅ ∅.

Definition set_ids (t : OrderTracker) (m : gmap B256 OrderId) : OrderTracker :=
  mkOrderTracker (address_to_orders t) m (order_hash_to_peer_id t) (seen_invalid_orders t)
    (cancelled_orders t) (validating t).
Definition set_addresses (t : OrderTracker) (m : gmap Address (list OrderId)) : OrderTracker :=
  mkOrderTracker m (order_hash_to_order_id t) (order_hash_to_peer_id t) (seen_invalid_orders t)
    (cancelled_orders t) (validating t).
Definition set_peers (t : OrderTracker) (m : gmap B256 (list PeerId)) : OrderTracker :=
  mkOrderTracker (address_to_orders t) (order_hash_to_order_id t) m (seen_invalid_orders t)
    (cancelled_orders t) (validating t).
Definition set_seen (t : OrderTracker) (s : gset B256) : OrderTracker :=
  mkOrderTracker (address_to_orders t) (order_hash_to_order_id t) (order_hash_to_peer_id t) s
    (cancelled_orders t) (validating t).
Definition set_cancelled (t : OrderTracker) (m : gmap B256 InnerCancelOrderRequest) : OrderTracker :=
  mkOrderTracker (address_to_orders t) (order_hash_to_order_id t) (order_hash_to_peer_id t)
    (seen_invalid_orders t) m (validating t).
Definition set_validating (t : OrderTracker) (s : gset B256) : OrderTracker :=
  mkOrderTracker (address_to_orders t) (order_hash_to_order_id t) (order_hash_to_peer_id t)
    (seen_invalid_orders t) (cancelled_orders t) s.

Definition clear_invalid (t : OrderTracker) : OrderTracker := set_seen t ∅.
Definition is_seen_invalid (t : OrderTracker) (h : B256) : bool := bool_decide (h ∈ seen_invalid_orders t).
Definition is_cancelled (t : OrderTracker) (h : B256) : bool := bool_decide (is_Some (cancelled_orders t !! h)).
Definition start_validating (t : OrderTracker) (h : B256) : OrderTracker :=
  set_validating t ({[h]} ∪ validating t).
Definition stop_validating (t : OrderTracker) (h : B256) : OrderTracker :=
  set_validating t (validating t ∖ {[h]}).
Definition is_validating (t : OrderTracker) (h : B256) : bool := bool_decide (h ∈ validating t).

Definition is_valid_cancel (t : OrderTracker) (h : B256) (order_addr : Address) : bool :=
  match cancelled_orders t !! h with Some req => icr_from req =? order_addr | None => false end.

Definition is_duplicate (t : OrderTracker) (h : B256) : bool :=
  bool_decide (is_Some (order_hash_to_order_id t !! h)) || bool_decide (h ∈ seen_invalid_orders t).

Definition track_peer_id (t : OrderTracker) (h : B256) (peer : option PeerId) : OrderTracker :=
  match peer with
  | Some p => set_peers t (<[h := default [] (order_hash_to_peer_id t !! h) ++ [p]]> (order_hash_to_peer_id t))
  | None => t
  end.

Definition invalid_verification (t : OrderTracker) (h : B256) : list PeerId * OrderTracker :=
  (default [] (order_hash_to_peer_id t !! h),
   set_peers (set_seen t ({[h]} ∪ seen_invalid_orders t)) (delete h (order_hash_to_peer_id t))).

Definition new_valid_order (t : OrderTracker) (h : B256) (user : Address) (id : OrderId) : OrderTracker :=
  let ids := default [] (address_to_orders t !! user) in
  mkOrderTracker
    (<[user := if decide (id ∈ ids) then ids else ids ++ [id]]> (address_to_orders t))
    (<[h := id]> (order_hash_to_order_id t)) (delete h (order_hash_to_peer_id t))
    (seen_invalid_orders t) (cancelled_orders t) (validating t).

Definition insert_cancel_with_deadline (t : OrderTracker) (now : Z) (from : Address) (h : B256)
    (deadline : option Z) : OrderTracker :=
  set_cancelled t (<[h := mkInnerCancelOrderRequest from (default now deadline)]> (cancelled_orders t)).

Section Tracker.
Context {P : Profile} {E : OrderEnv}.

Abbreviation Stored := (OrderWithStorageData AllOrders) (only parsing).

Definition cancel_with_next_block_deadline (t : OrderTracker) (now : Z) (from : Address) (h : B256) :
    M OrderTracker :=
  let* d := checked_u 64 (now + MAX_NEW_ORDER_DELAY_PROPAGATION * ETH_BLOCK_TIME) in
  Ok (insert_cancel_with_deadline t now from h (Some d)).

Definition is_expired (expiry_deadline block : Z) (id : OrderId) : M bool :=
  if match id_deadline id with Some d => d <=? expiry_deadline | None => false end then Ok true else
  match id_flash_block id with
  | Some b => let* next := checked_u 64 (block + 1) in Ok (negb (b =? next))
  | None => Ok false
  end.

(** The body of the loop over the expired hashes. *)
Definition remove_expired (ts : OrderTracker * OrderStorage) (h : B256) :
    M (OrderTracker * OrderStorage) :=
  let (t, s) := ts in
  let* id := unwrap (order_hash_to_order_id t !! h) in
  let t := set_ids t (delete h (order_hash_to_order_id t)) in
  let t := set_addresses t (List.filter (fun o => bool_decide (o <> id)) <$> address_to_orders t) in
  Ok (t, match id_location id with
         | Searcher => (remove_searcher_order s id).2
         | Limit => (remove_limit_order s id).2
         end).

Definition remove_expired_orders (t : OrderTracker) (now block : Z) (s : OrderStorage) :
    M (list B256 * OrderTracker * OrderStorage) :=
  let expiry_deadline := now + ETH_BLOCK_TIME in
  let t := set_cancelled t (filter (fun p => expiry_deadline < icr_deadline p.2) (cancelled_orders t)) in
  let* expired := M_filter (fun p => is_expired expiry_deadline block p.2)
                    (map_to_list (order_hash_to_order_id t)) in
  let hashes := map fst expired in
  let* (t, s) := M_fold remove_expired (t, s) hashes in
  Ok (hashes, t, s).

Fixpoint tracker_filled_orders (t : OrderTracker) (orders : list B256) (s : OrderStorage) :
    list Stored * OrderTracker * OrderStorage :=
  match orders with
  | [] => ([], t, s)
  | h :: orders =>
      match order_hash_to_order_id t !! h with
      | None => tracker_filled_orders t orders s
      | Some id =>
          let t := set_ids t (delete h (order_hash_to_order_id t)) in
          let (r, s) := match id_location id with
                        | Limit => remove_limit_order s id
                        | Searcher => remove_searcher_order s id
                        end in
          let '(rest, t, s) := tracker_filled_orders t orders s in
          (match r with Some o => o :: rest | None => rest end, t, s)
      end
  end.

Definition tracker_park_orders (t : OrderTracker) (txes : list B256) (s : OrderStorage) : M OrderStorage :=
  storage_park_orders s (omap (fun h => order_hash_to_order_id t !! h) txes).

Definition tracker_cancel_order (t : OrderTracker) (now : Z) (from_ : Address) (h : B256) (s : OrderStorage) :
    M (option (bool * PoolId) * OrderTracker * OrderStorage) :=
  let removed := order_hash_to_order_id t !! h in
  let t := set_ids t (delete h (order_hash_to_order_id t)) in
  let (r, s) := match removed with Some id => storage_cancel_order s id | None => (None, s) end in
  match r with
  | Some o =>
      let oh := order_hash (order o) in
      let t := set_ids t (delete oh (order_hash_to_order_id t)) in
      let t := set_peers t (delete oh (order_hash_to_peer_id t)) in
      Ok (Some (is_tob (order o), pool_id o),
          insert_cancel_with_deadline t now (from (order o)) h (deadline (order o)), s)
  | None =>
      let* t := cancel_with_next_block_deadline t now from_ h in
      Ok (None, t, s)
  end.

(** The query is passed what it does to the storage. *)
Fixpoint collect_ids (f : OrderId -> OrderStorage -> option Stored * OrderStorage) (ids : list OrderId)
    (s : OrderStorage) : list Stored * OrderStorage :=
  match ids with
  | [] => ([], s)
  | id :: ids =>
      let (r, s) := f id s in
      let (rest, s) := collect_ids f ids s in
      (match r with Some o => o :: rest | None => rest end, s)
  end.

Definition tracker_orders_for_address (t : OrderTracker) (address : Address) (s : OrderStorage)
    (f : OrderId -> OrderStorage -> option Stored * OrderStorage) : list Stored * OrderStorage :=
  match address_to_orders t !! address with
  | Some ids => collect_ids f ids s
  | None => ([], s)
  end.

(** The ids of the addresses, taken out of the tracker one address at a time. *)
Fixpoint take_addresses (m : gmap Address (list OrderId)) (eoas : list Address) :
    list OrderId * gmap Address (list OrderId) :=
  match eoas with
  | [] => ([], m)
  | a :: eoas =>
      let (rest, m') := take_addresses (delete a m) eoas in (default [] (m !! a) ++ rest, m')
  end.

Definition eoa_state_changes (t : OrderTracker) (eoas : list Address) (s : OrderStorage)
    (v : OrderValidator) (f : OrderId -> OrderStorage * OrderValidator -> OrderStorage * OrderValidator) :
    OrderTracker * OrderStorage * OrderValidator :=
  let (ids, m) := take_addresses (address_to_orders t) eoas in
  let (s, v) := fold_left (fun sv id => f id sv) ids (s, v) in
  (set_addresses t m, s, v).

End Tracker.

(** ** The queue across block transitions *)

(** The validations under way and those that wait for the new block. *)
Definition outstanding (v : OrderValidator) : list (OrderOrigin * AllOrders) :=
  match v with
  | ClearingForNewBlock _ waiting _ _ remaining => remaining ++ waiting
  | WaitingForStorageCleanup waiting | InformState waiting _ => waiting
  | RegularProcessing remaining => remaining
  end.

(** The steps left until regular processing. *)
Definition phase (v : OrderValidator) : nat :=
  match v with
  | ClearingForNewBlock _ _ _ _ remaining => 3 + length remaining
  | WaitingForStorageCleanup _ => 2
  | InformState _ _ => 1
  | RegularProcessing _ => 0
  end.

(** What happens to the queue during a transition: orders arrive, the runtime polls
    it, and the indexer reports the storage clean. *)
Inductive QueueEvent :=
| Arrive (origin : OrderOrigin) (o : AllOrders)
| Poll (r : Ready)
| StorageClean (block : Z) (orders : list B256) (addresses : list Address).

Definition queue_step (v : OrderValidator) (e : QueueEvent) : OrderValidator :=
  match e with
  | Arrive origin o => validate_order v origin o
  | Poll r => (validator_poll v r).2
  | StorageClean b orders addresses => notify_validation_on_changes v b orders addresses
  end.

Definition arrivals (es : list QueueEvent) : list (OrderOrigin * AllOrders) :=
  omap (fun e => match e with Arrive origin o => Some (origin, o) | _ => None end) es.

(** The validation an event completes. *)
Definition resolved_by (v : OrderValidator) (e : QueueEvent) : list (OrderOrigin * AllOrders) :=
  match e, v with
  | Poll (ValidationReady i _), (ClearingForNewBlock _ _ _ _ l | RegularProcessing l) =>
      option_list (l !! i)
  | _, _ => []
  end.

(** Whether an event advances the transition: a completed validation, or a poll
    once all are complete, the report of the storage, the answer of the validator. *)
Definition advances (v : OrderValidator) (e : QueueEvent) : bool :=
  match v, e with
  | ClearingForNewBlock _ _ _ _ l, Poll (ValidationReady i _) =>
      bool_decide (l = [] \/ is_Some (l !! i))
  | ClearingForNewBlock _ _ _ _ l, Poll _ => bool_decide (length l = 0%nat)
  | WaitingForStorageCleanup _, StorageClean _ _ _ => true
  | InformState _ _, Poll InformReady => true
  | _, _ => false
  end.

Fixpoint queue_run (v : OrderValidator) (es : list QueueEvent) :
    list (OrderOrigin * AllOrders) * nat * OrderValidator :=
  match es with
  | [] => ([], 0%nat, v)
  | e :: es =>
      let '(resolved, n, v') := queue_run (queue_step v e) es in
      (resolved_by v e ++ resolved, ((if advances v e then 1 else 0) + n)%nat, v')
  end.

Lemma handle_inform_ready waiting : handle_inform waiting true = Some (RegularProcessing waiting).
Proof.
  unfold handle_inform. f_equal.
  assert (forall k, fold_left (fun v (x : OrderOrigin * AllOrders) => validate_order v x.1 x.2) waiting
            (RegularProcessing k) = RegularProcessing (k ++ waiting)) as H; [| apply H].
  induction waiting as [| [a o] l IH]; intros k; cbn; [by rewrite app_nil_r |].
  by rewrite IH, <- (assoc_L (++)).
Qed.

Lemma outstanding_validate v origin o :
  outstanding (validate_order v origin o) = outstanding v ++ [(origin, o)].
Proof. destruct v; cbn; rewrite <- ?(assoc_L (++)); done. Qed.

Lemma outstanding_notify v b orders addresses :
  outstanding (notify_validation_on_changes v b orders addresses) = outstanding v.
Proof. by destruct v. Qed.

Lemma poll_futures_Some l r next l' :
  poll_futures l r = Some (next, l') ->
  exists i x, r = ValidationReady i next /\ l !! i = Some x /\ l' = delete i l.
Proof.
  destruct r as [| i res |]; cbn; [done | | done]. destruct (l !! i) as [x |] eqn:E; [| done].
  intros [= <- <-]. by exists i, x.
Qed.

Lemma outstanding_poll v r :
  outstanding v ≡ₚ resolved_by v (Poll r) ++ outstanding (validator_poll v r).2.
Proof.
  assert (Hd : forall l i (x : OrderOrigin * AllOrders), l !! i = Some x -> l ≡ₚ option_list (l !! i) ++ delete i l).
  { intros l i x Hx. rewrite Hx. by apply delete_Permutation. }
  assert (Hn : forall l, poll_futures l r = None ->
    match r with ValidationReady i _ => l !! i = None | _ => True end).
  { intros l. destruct r as [| i res |]; cbn [poll_futures]; [done | by destruct (l !! i) | done]. }
  destruct v as [b w c a l | w | w f | l]; cbn [validator_poll outstanding].
  - destruct (poll_futures l r) as [[next l'] |] eqn:Ep.
    + apply poll_futures_Some in Ep as (i & x & -> & Hx & ->). cbn [snd outstanding resolved_by].
      rewrite (Hd _ _ _ Hx) at 1. by rewrite (assoc_L (++)).
    + apply Hn in Ep. case_bool_decide as El; cbn [snd outstanding];
        (destruct r as [| i res |]; cbn [resolved_by]; rewrite ?Ep; cbn [option_list app]; rewrite ?El; done).
  - by destruct r.
  - destruct r as [| i res |]; [done | done |]. rewrite handle_inform_ready. done.
  - destruct (poll_futures l r) as [[next l'] |] eqn:Ep.
    + apply poll_futures_Some in Ep as (i & x & -> & Hx & ->). by apply (Hd _ _ x).
    + apply Hn in Ep. destruct r as [| i res |]; cbn [resolved_by snd outstanding]; rewrite ?Ep; done.
Qed.

Lemma phase_poll v r :
  (phase (validator_poll v r).2 + (if advances v (Poll r) then 1 else 0) = phase v)%nat.
Proof.
  destruct v as [b w c a l | w | w f | l]; cbn.
  - destruct r as [| i res |]; cbn.
    1, 3: destruct l; done.
    destruct (l !! i) as [x |] eqn:Hx; cbn.
    + rewrite bool_decide_true by eauto. apply lookup_lt_Some in Hx as Hl.
      pose proof (length_delete l i ltac:(by exists x)). lia.
    + destruct l as [| y l]; [done |]. rewrite (bool_decide_false (y :: l = [])) by done.
      rewrite bool_decide_false; [cbn; lia |]. intros [? | [? ?]]; [done | congruence].
  - by destruct r.
  - destruct r as [| i res |]; [done | done |]. by rewrite handle_inform_ready.
  - destruct (poll_futures l r) as [[next l'] |]; done.
Qed.

Lemma queue_step_facts v e :
  outstanding v ++ arrivals [e] ≡ₚ resolved_by v e ++ outstanding (queue_step v e) /\
  (phase (queue_step v e) + (if advances v e then 1 else 0) = phase v)%nat.
Proof.
  destruct e as [origin o | r | b orders addresses].
  - cbn [arrivals omap list_omap queue_step]. rewrite outstanding_validate. split; [by destruct v |].
    by destruct v.
  - split; [cbn [arrivals omap list_omap]; rewrite app_nil_r; apply outstanding_poll | apply phase_poll].
  - cbn [arrivals omap list_omap queue_step]. rewrite outstanding_notify, app_nil_r. by destruct v.
Qed.

Lemma queue_run_facts es v resolved n v' :
  queue_run v es = (resolved, n, v') ->
  outstanding v ++ arrivals es ≡ₚ resolved ++ outstanding v' /\ (phase v' + n = phase v)%nat.
Proof.
  revert v resolved n v'. induction es as [| e es IH]; intros v resolved n v' H; cbn in H.
  - injection H as <- <- <-. cbn. rewrite app_nil_r. split; [done | lia].
  - destruct (queue_run (queue_step v e) es) as [[r k] w] eqn:Er. injection H as <- <- <-.
    destruct (IH _ _ _ _ Er) as [H1 H2]. destruct (queue_step_facts v e) as [H3 H4].
    change (arrivals (e :: es)) with (arrivals ([e] ++ es)). unfold arrivals at 1. rewrite omap_app.
    fold (arrivals [e]) (arrivals es). split; [| lia].
    rewrite (assoc_L (++)), H3, <- !(assoc_L (++)). by rewrite H1.
Qed.

(** ** The storage seen through order ids *)

Section Places.
Context {P : Profile} {E : OrderEnv}.

Definition pend_at {O} (m : gmap PoolId (PendingPool O)) (pool : PoolId) (h : B256) :
    option (OrderWithStorageData O) := m !! pool ≫= (fun p => pp_orders p !! h).
Definition park_at (m : gmap PoolId ParkedPool) (pool : PoolId) (h : B256) :
    option (OrderWithStorageData AllOrders) := m !! pool ≫= (fun p : ParkedPool => p !! h).

(** An order is pending, parked or composable, not two of them. *)
Definition single_copy (l : LimitOrderPool) (pool : PoolId) (h : B256) : Prop :=
  (is_Some (pend_at (lp_pending (lop_limit l)) pool h) ->
     park_at (lp_parked (lop_limit l)) pool h = None /\ pend_at (lop_composable l) pool h = None) /\
  (is_Some (park_at (lp_parked (lop_limit l)) pool h) -> pend_at (lop_composable l) pool h = None).

Definition copies_ok (s : OrderStorage) : Prop := forall pool h, single_copy (limit_orders s) pool h.

Lemma remove_at_pend {O} (m : gmap PoolId (PendingPool O)) pool h r m' :
  remove_at (fun p => Pending.pending_remove_order p h) m pool = (r, m') ->
  (forall pool' h', pend_at m' pool' h' =
     if decide (pool' = pool /\ h' = h) then None else pend_at m pool' h') /\
  (forall o, r = Some o -> pend_at m pool h = Some o).
Proof.
  unfold remove_at, pend_at. destruct (m !! pool) as [p |] eqn:Ep.
  - pose proof (pending_remove_orders p h) as Ho. pose proof (pending_remove_Some p h) as Hs.
    destruct (Pending.pending_remove_order p h) as [r' p']. intros [= <- <-]. cbn in Ho, Hs.
    split; [| intros o ->; cbn; by apply Hs].
    intros pool' h'. destruct (decide (pool' = pool)) as [-> | Hne].
    + rewrite lookup_insert, decide_True by done. cbn. rewrite Ho.
      destruct (decide (h' = h)) as [-> | Hh].
      * by rewrite lookup_delete, !decide_True.
      * rewrite lookup_delete_ne, decide_False by naive_solver. by rewrite Ep.
    + rewrite lookup_insert_ne, decide_False by naive_solver. done.
  - intros [= <- <-]. split; [| done]. intros pool' h'. destruct (decide _) as [[-> ->] |]; [by rewrite Ep | done].
Qed.

Lemma remove_at_park m pool h r m' :
  remove_at (fun p => parked_remove_order p h) m pool = (r, m') ->
  (forall pool' h', park_at m' pool' h' =
     if decide (pool' = pool /\ h' = h) then None else park_at m pool' h') /\
  r = park_at m pool h.
Proof.
  unfold remove_at, park_at, parked_remove_order. destruct (m !! pool) as [p |] eqn:Ep; intros [= <- <-].
  - split; [| done]. intros pool' h'. destruct (decide (pool' = pool)) as [-> | Hne].
    + rewrite lookup_insert, decide_True by done. cbn. unfold ParkedPool in *.
      destruct (decide (h' = h)) as [-> | Hh].
      * by rewrite lookup_delete, !decide_True.
      * rewrite lookup_delete_ne, decide_False by naive_solver. by rewrite Ep.
    + rewrite lookup_insert_ne, decide_False by naive_solver. done.
  - split; [| done]. intros pool' h'. destruct (decide _) as [[-> ->] |]; [by rewrite Ep | done].
Qed.

Lemma lop_get_order_at l id :
  lop_get_order l id =
  match pend_at (lp_pending (lop_limit l)) (id_pool_id id) (id_hash id) with
  | Some o => Some o
  | None =>
      match park_at (lp_parked (lop_limit l)) (id_pool_id id) (id_hash id) with
      | Some o => Some o
      | None => pend_at (lop_composable l) (id_pool_id id) (id_hash id)
      end
  end.
Proof.
  unfold lop_get_order, limit_get_order, composable_get_order, pend_at, park_at, Pending.pending_get_order.
  destruct (lp_pending _ !! _ ≫= _); [done |]. by destruct (lp_parked _ !! _ ≫= _).
Qed.

(** Removing a limit order empties its place and no other. *)
Lemma lop_remove_at l id r l' :
  lop_remove_order l id = (r, l') ->
  single_copy l (id_pool_id id) (id_hash id) ->
  forall pool h,
    pend_at (lp_pending (lop_limit l')) pool h =
      (if decide (pool = id_pool_id id /\ h = id_hash id) then None else pend_at (lp_pending (lop_limit l)) pool h) /\
    park_at (lp_parked (lop_limit l')) pool h =
      (if decide (pool = id_pool_id id /\ h = id_hash id) then None else park_at (lp_parked (lop_limit l)) pool h) /\
    pend_at (lop_composable l') pool h =
      (if decide (pool = id_pool_id id /\ h = id_hash id) then None else pend_at (lop_composable l) pool h).
Proof.
  intros H [Hs1 Hs2] pool h. revert H.
  unfold lop_remove_order, limit_remove_order, limit_remove_parked_order, composable_remove_order.
  destruct (remove_at _ (lp_pending _) _) as [r1 m1] eqn:E1.
  destruct (remove_at_pend _ _ _ _ _ E1) as [H1 R1]. intros H.
  destruct r1 as [o |].
  - injection H as <- <-. cbn. rewrite H1. specialize (R1 o eq_refl).
    destruct (Hs1 ltac:(by rewrite R1; eauto)) as [Hk Hc].
    destruct (decide _) as [[-> ->] |]; done.
  - cbn in H. destruct (remove_at _ (lp_parked _) _) as [r2 m2] eqn:E2.
    destruct (remove_at_park _ _ _ _ _ E2) as [H2 R2].
    destruct r2 as [o |].
    + injection H as <- <-. cbn. rewrite H1, H2.
      destruct (decide _) as [[-> ->] |]; [| done]. split_and!; [done | done |]. apply Hs2. rewrite <- R2. eauto.
    + destruct (remove_at _ (lop_composable _) _) as [r3 m3] eqn:E3.
      destruct (remove_at_pend _ _ _ _ _ E3) as [H3 R3]. injection H as <- <-. cbn. by rewrite H1, H2, H3.
Qed.

Definition same_place (a b : OrderId) : Prop :=
  id_location a = id_location b /\ id_pool_id a = id_pool_id b /\ id_hash a = id_hash b.

#[export] Instance same_place_dec a b : Decision (same_place a b).
Proof. unfold same_place. apply _. Defined.

Lemma if_same_place {A} a b (x y : A) :
  id_location a = id_location b ->
  (if decide (same_place a b) then x else y) =
  (if decide (id_pool_id a = id_pool_id b /\ id_hash a = id_hash b) then x else y).
Proof.
  intros El. destruct (decide (same_place a b)) as [(_ & H) | H]; [by rewrite decide_True |].
  rewrite decide_False; [done |]. intros [? ?]. by apply H.
Qed.

Lemma remove_stored s id :
  copies_ok s ->
  copies_ok (storage_remove_order s id).2 /\
  forall id', get_order_from_id (storage_remove_order s id).2 id' =
    if decide (same_place id' id) then None else get_order_from_id s id'.
Proof.
  intros Hc. unfold storage_remove_order. destruct (id_location id) eqn:El.
  - unfold remove_limit_order. destruct (lop_remove_order (limit_orders s) id) as [r l'] eqn:E1. cbn.
    pose proof (lop_remove_at _ _ _ _ E1 (Hc _ _)) as H. split.
    + intros pool h. destruct (H pool h) as (A & B & C). unfold single_copy. cbn. rewrite A, B, C.
      destruct (decide _); [by split; intros [? ?] | apply Hc].
    + intros id'. unfold get_order_from_id. cbn. destruct (id_location id') eqn:El'.
      * rewrite !lop_get_order_at. destruct (H (id_pool_id id') (id_hash id')) as (A & B & C).
        rewrite A, B, C. by rewrite (if_same_place id' id) by congruence; destruct (decide _).
      * rewrite decide_False; [done |]. intros (F & _). congruence.
  - unfold remove_searcher_order, sp_remove_order, searcher_pending_remove.
    destruct (remove_at _ (sp_orders _) _) as [r m] eqn:E1. destruct (remove_at_pend _ _ _ _ _ E1) as [H1 _].
    split; [exact Hc |]. intros id'. unfold get_order_from_id. cbn. destruct (id_location id') eqn:El'.
    + rewrite decide_False; [done |]. intros (F & _). congruence.
    + specialize (H1 (id_pool_id id') (id_hash id')).
      change (sp_get_order (mkSearcherPool m (sp_size (searcher_orders s))) (id_pool_id id') (id_hash id'))
        with (pend_at m (id_pool_id id') (id_hash id')). rewrite H1.
      by rewrite (if_same_place id' id) by congruence; destruct (decide _).
Qed.

(** What a removal returns was stored. *)
Lemma remove_returns_stored s id r s' :
  storage_remove_order s id = (Some r, s') -> get_order_from_id s id <> None.
Proof.
  unfold storage_remove_order, get_order_from_id. destruct (id_location id).
  - unfold remove_limit_order, lop_remove_order, limit_remove_order, limit_remove_parked_order, composable_remove_order.
    rewrite lop_get_order_at. destruct (remove_at _ (lp_pending _) _) as [r1 m1] eqn:E1.
    destruct (remove_at_pend _ _ _ _ _ E1) as [_ R1]. destruct r1 as [o |]; [by rewrite (R1 o eq_refl) |].
    cbn. destruct (remove_at _ (lp_parked _) _) as [r2 m2] eqn:E2. destruct (remove_at_park _ _ _ _ _ E2) as [_ R2].
    destruct r2 as [o |]; [rewrite <- R2; by case_match |].
    destruct (remove_at _ (lop_composable _) _) as [r3 m3] eqn:E3. destruct (remove_at_pend _ _ _ _ _ E3) as [_ R3].
    intros [= -> _]. rewrite (R3 r eq_refl). by repeat case_match.
  - unfold remove_searcher_order, sp_remove_order, searcher_pending_remove.
    destruct (remove_at _ (sp_orders _) _) as [r1 m1] eqn:E1. destruct (remove_at_pend _ _ _ _ _ E1) as [_ R1].
    destruct r1 as [o |]; [| done]. intros _.
    change (sp_get_order _ _ _) with (pend_at (sp_orders (searcher_orders s)) (id_pool_id id) (id_hash id)).
    by rewrite (R1 o eq_refl).
Qed.

Lemma remove_twice s id : copies_ok s -> (storage_remove_order (storage_remove_order s id).2 id).1 = None.
Proof.
  intros Hc. destruct (remove_stored s id Hc) as [_ Hg]. specialize (Hg id). rewrite decide_True in Hg by done.
  destruct (storage_remove_order (storage_remove_order s id).2 id) as [[r |] s'] eqn:Er; [| done].
  by apply remove_returns_stored in Er.
Qed.

(** ** Expiry *)

Definition expired (now block : Z) (id : OrderId) : bool :=
  match id_deadline id with Some d => d <=? now + ETH_BLOCK_TIME | None => false end ||
  match id_flash_block id with Some b => negb (b =? block + 1) | None => false end.

Definition ids_keyed (t : OrderTracker) : Prop :=
  map_Forall (fun h id => id_hash id = h) (order_hash_to_order_id t).

Lemma is_expired_spec now block id :
  0 <= block < u_max 64 -> is_expired (now + ETH_BLOCK_TIME) block id = Ok (expired now block id).
Proof.
  intros Hb. unfold is_expired, expired. destruct (match id_deadline id with Some _ => _ | None => _ end); [done |].
  destruct (id_flash_block id) as [b |]; [| done]. rewrite checked_u_Ok by lia. done.
Qed.

Lemma remove_expired_at t s h id :
  ids_keyed t -> copies_ok s -> order_hash_to_order_id t !! h = Some id ->
  exists t' s', remove_expired (t, s) h = Ok (t', s') /\
    order_hash_to_order_id t' = delete h (order_hash_to_order_id t) /\
    address_to_orders t' = List.filter (fun o => bool_decide (o <> id)) <$> address_to_orders t /\
    cancelled_orders t' = cancelled_orders t /\
    ids_keyed t' /\ copies_ok s' /\ get_order_from_id s' id = None /\
    (forall id', id_hash id' <> h -> get_order_from_id s' id' = get_order_from_id s id').
Proof.
  intros Hk Hc Hid. unfold remove_expired. rewrite Hid. cbn [unwrap M_bind].
  destruct (remove_stored s id Hc) as [Hc' Hg]. do 2 eexists. split; [done |].
  replace (match id_location id with Searcher => (remove_searcher_order s id).2
             | Limit => (remove_limit_order s id).2 end) with (storage_remove_order s id).2
    by (unfold storage_remove_order; by destruct (id_location id)).
  split_and!; [done.. | | done | |].
  - intros h' id' H. cbn in H. apply lookup_delete_Some in H as [_ H]. by apply Hk.
  - by rewrite Hg, decide_True.
  - intros id' Hne. rewrite Hg, decide_False; [done |]. intros (_ & _ & F). apply Hne. rewrite F. by apply Hk.
Qed.

Lemma remove_expired_all hs t s :
  NoDup hs -> (forall h, h ∈ hs -> is_Some (order_hash_to_order_id t !! h)) -> ids_keyed t -> copies_ok s ->
  exists t' s', M_fold remove_expired (t, s) hs = Ok (t', s') /\
    (forall h, order_hash_to_order_id t' !! h = if decide (h ∈ hs) then None else order_hash_to_order_id t !! h) /\
    cancelled_orders t' = cancelled_orders t /\
    (forall a l id h, address_to_orders t' !! a = Some l -> id ∈ l -> h ∈ hs ->
       order_hash_to_order_id t !! h <> Some id) /\
    (forall h id, h ∈ hs -> order_hash_to_order_id t !! h = Some id -> get_order_from_id s' id = None) /\
    (forall id, id_hash id ∉ hs -> get_order_from_id s' id = get_order_from_id s id).
Proof.
  revert t s. induction hs as [| h hs IH]; intros t s Hnd Hin Hk Hc.
  - exists t, s. split_and!; [done | | done | | | done].
    + intros h. by rewrite decide_False by apply not_elem_of_nil.
    + by intros a l id h _ _ ?%not_elem_of_nil.
    + by intros h id ?%not_elem_of_nil.
  - apply NoDup_cons in Hnd as [Hh Hnd]. destruct (Hin h (list_elem_of_here _ _)) as [id Hid].
    destruct (remove_expired_at t s h id Hk Hc Hid) as (t1 & s1 & E1 & I1 & A1 & C1 & K1 & P1 & G1 & O1).
    destruct (IH t1 s1 Hnd) as (t' & s' & E2 & I2 & C2 & A2 & G2 & O2); [| done | done |].
    { intros h' Hh'. rewrite I1, lookup_delete_ne by (by intros ->). apply Hin. by apply list_elem_of_further. }
    exists t', s'. split_and!.
    + cbn [M_fold]. by rewrite E1.
    + intros h'. rewrite I2, I1. destruct (decide (h' = h)) as [-> | Hne].
      * rewrite decide_False, lookup_delete, !decide_True by (done || apply list_elem_of_here). done.
      * rewrite lookup_delete_ne by done. destruct (decide (h' ∈ hs)).
        -- by rewrite decide_True by (by apply list_elem_of_further).
        -- rewrite decide_False; [done |]. by intros [? | ?]%elem_of_cons.
    + congruence.
    + intros a l id' h' Ha Hl [-> | Hh']%elem_of_cons Hx.
      * assert (id' = id) as -> by congruence.
        destruct (decide (id ∈ l)) as [_ |]; [| done].
        assert (Hsub : exists l1, address_to_orders t1 !! a = Some l1 /\ id ∈ l1).
        { clear -E2 Ha Hl. revert t1 s1 E2. induction hs as [| x hs IH]; intros t1 s1 E2; cbn [M_fold] in E2.
          - injection E2 as -> ->. eauto.
          - apply M_bind_Ok in E2 as ([t2 s2] & E & E2). destruct (IH _ _ E2) as (l2 & H2 & Hi).
            unfold remove_expired in E. apply M_bind_Ok in E as (y & _ & E). injection E as <- <-.
            cbn in H2. apply lookup_fmap_Some in H2 as (l1 & <- & H1). apply list_filter_in in Hi as [Hi _]. eauto. }
        destruct Hsub as (l1 & H1 & Hi). rewrite A1 in H1. apply lookup_fmap_Some in H1 as (l0 & <- & _).
        apply list_filter_in in Hi as [_ Hi]. apply bool_decide_eq_true in Hi. done.
      * apply (A2 a l id' h' Ha Hl Hh'). rewrite I1, lookup_delete_ne by (by intros ->). done.
    + intros h' id' [-> | Hh']%elem_of_cons Hx.
      * assert (id' = id) as -> by congruence. rewrite O2; [done |]. by rewrite (Hk h id Hid).
      * apply (G2 h' id' Hh'). rewrite I1, lookup_delete_ne by (by intros ->). done.
    + intros id' Hn. rewrite O2, O1; [done | |]; intros F; apply Hn; rewrite ?F;
        [apply list_elem_of_here | by apply list_elem_of_further].
Qed.

Lemma NoDup_map_filter {A B} (f : A -> B) (g : A -> bool) (l : list A) :
  NoDup (map f l) -> NoDup (map f (List.filter g l)).
Proof.
  induction l as [| x l IH]; cbn; [done |]. intros [Hx Hl]%NoDup_cons. destruct (g x); cbn; [| by apply IH].
  apply NoDup_cons. split; [| by apply IH]. intros (y & Ey & Hy)%list_elem_of_fmap. apply Hx.
  apply list_filter_in in Hy as [Hy _]. apply list_elem_of_fmap. eauto.
Qed.

End Places.

(** ** Properties *)

(** C36: A block transition ends, and loses no order: however validations complete and
    new orders arrive meanwhile, after as many advancing events as the transition has
    steps the queue processes orders again, and every order that was under way or
    arrived has been validated or is being validated now. *)
Theorem block_transition_live v es resolved n v' :
  queue_run v es = (resolved, n, v') -> (phase v <= n)%nat ->
  exists remaining, v' = RegularProcessing remaining /\
    outstanding v ++ arrivals es ≡ₚ resolved ++ remaining.
Proof.
  intros H Hn. destruct (queue_run_facts _ _ _ _ _ H) as [H1 H2].
  assert (phase v' = 0)%nat by lia. destruct v'; try done. eauto.
Qed.

(** At a new block every tracked order whose deadline is within a block time, or
    that is a flash order of another block, leaves the tracker, the address index and
    the storage; every other order stays where it is, and cancellations are kept
    until their deadline. *)
Theorem expired_orders_removed {P : Profile} t now block s :
  0 <= block < u_max 64 -> ids_keyed t -> copies_ok s ->
  exists hashes t' s', remove_expired_orders t now block s = Ok (hashes, t', s') /\
    NoDup hashes /\
    (forall h, h ∈ hashes <->
       exists id, order_hash_to_order_id t !! h = Some id /\ expired now block id = true) /\
    order_hash_to_order_id t' = filter (fun p => expired now block p.2 = false) (order_hash_to_order_id t) /\
    (forall a l id, address_to_orders t' !! a = Some l -> id ∈ l ->
       order_hash_to_order_id t !! id_hash id = Some id -> expired now block id = false) /\
    (forall h id, order_hash_to_order_id t !! h = Some id -> expired now block id = true ->
       get_order_from_id s' id = None) /\
    (forall id, id_hash id ∉ hashes -> get_order_from_id s' id = get_order_from_id s id) /\
    cancelled_orders t' = filter (fun p => now + ETH_BLOCK_TIME < icr_deadline p.2) (cancelled_orders t).
Proof.
  intros Hb Hk Hc. unfold remove_expired_orders.
  set (t1 := set_cancelled t _).
  rewrite (M_filter_Ok _ (fun p => expired now block p.2))
    by (apply Forall_forall; intros x _; by apply is_expired_spec).
  cbn [M_bind]. set (hs := map fst _).
  assert (Hhs : forall h, h ∈ hs <-> exists id, order_hash_to_order_id t !! h = Some id /\ expired now block id = true).
  { intros h. split.
    - intros ([h' id] & -> & [Hx He]%list_filter_in)%list_elem_of_fmap. apply elem_of_map_to_list in Hx. eauto.
    - intros (id & Hid & He). apply list_elem_of_fmap. exists (h, id). split; [done |]. apply list_filter_in. split; [| done].
      by apply elem_of_map_to_list. }
  assert (Hnd : NoDup hs) by (apply NoDup_map_filter, NoDup_fst_map_to_list).
  destruct (remove_expired_all hs t1 s Hnd) as (t' & s' & E1 & I1 & C1 & A1 & G1 & O1); [| done | done |].
  { intros h (id & Hid & _)%Hhs. eauto. }
  rewrite E1. cbn [M_bind]. exists hs, t', s'. split_and!; [done | done | done | | | | done | done].
  - apply map_eq. intros h. rewrite I1. destruct (decide (h ∈ hs)) as [Hh | Hh].
    + apply Hhs in Hh as (id & Hid & He). symmetry. apply map_lookup_filter_None. right.
      intros x Hx. cbn. assert (x = id) as -> by congruence. by rewrite He.
    + change (order_hash_to_order_id t1) with (order_hash_to_order_id t).
      destruct (order_hash_to_order_id t !! h) as [id |] eqn:Hid; symmetry.
      * apply map_lookup_filter_Some. split; [done |]. cbn. apply not_true_is_false. intros He. apply Hh, Hhs. eauto.
      * apply map_lookup_filter_None. by left.
  - intros a l id Ha Hl Hid. apply not_true_is_false. intros He.
    apply (A1 a l id (id_hash id) Ha Hl); [apply Hhs; eauto | done].
  - intros h id Hid He. apply (G1 h id); [apply Hhs; eauto | done].
Qed.

(** ** Witnesses *)

Lemma block_transition_live_witness :
  let v := ClearingForNewBlock 2 [] [] [] [(External, toy_order)] in
  let es := [Arrive Local toy_order; Poll (ValidationReady 0 TransitionedToBlock); Poll NothingReady;
             StorageClean 2 [] []; Arrive External toy_order; Poll InformReady] in
  exists remaining, (queue_run v es).2 = RegularProcessing remaining /\
    outstanding v ++ arrivals es ≡ₚ (queue_run v es).1.1 ++ remaining.
Proof.
  apply (block_transition_live _ _ _ 4%nat); [reflexivity | cbn; lia].
Defined.

Definition stale_id : OrderId := mkOrderId 77 9 5 (Nonce 1) (Some 50) None Limit.
Definition stale_tracker : OrderTracker := mkOrderTracker {[ 77 := [stale_id] ]} {[ 5 := stale_id ]} ∅ ∅ ∅ ∅.

Lemma new_pend_at O ids pool h :
  pend_at (list_to_map (map (fun id => (id, PendingPool_new)) ids) : gmap PoolId (PendingPool O)) pool h = None.
Proof.
  unfold pend_at. destruct (list_to_map _ !! pool) as [p |] eqn:Ep; [| done].
  apply elem_of_list_to_map_2 in Ep. apply list_elem_of_fmap in Ep as (? & [= -> ->] & _). done.
Qed.

Lemma new_park_at ids pool h :
  park_at (list_to_map (map (fun id => (id, ∅ : ParkedPool)) ids)) pool h = None.
Proof.
  unfold park_at. destruct (list_to_map _ !! pool) as [p |] eqn:Ep; [| done].
  apply elem_of_list_to_map_2 in Ep. apply list_elem_of_fmap in Ep as (? & [= -> ->] & _). done.
Qed.

Lemma empty_copies ids m1 m2 : copies_ok (OrderStorage_new ids m1 m2).
Proof.
  intros pool h. split; [| intros _; apply new_pend_at].
  intros [x Hx]. cbn in Hx. by rewrite new_pend_at in Hx.
Qed.

Lemma expired_orders_removed_witness :
  exists hashes t' s', @remove_expired_orders dev stale_tracker 100 1 (OrderStorage_new [9] 1000 1000) =
    Ok (hashes, t', s') /\ NoDup hashes /\ 5 ∈ hashes.
Proof.
  destruct (@expired_orders_removed dev stale_tracker 100 1 (OrderStorage_new [9] 1000 1000))
    as (hs & t' & s' & H & Hn & He & _).
  - split; [lia | reflexivity].
  - intros h id H. cbn in H. apply lookup_singleton_Some in H as [<- <-]. reflexivity.
  - apply empty_copies.
  - exists hs, t', s'. split_and!; [done | done |]. apply He. exists stale_id. split; reflexivity.
Defined.
