(* ===== verification/OrderIndexer.v ===== *)
(** * Order indexer

    crates/order-pool/src/order_indexer.rs: new orders, cancellations, validation
    results and block transitions drive the storage ([OrderPool]), the tracker, the
    subscribers and the validation queue ([OrderTracker]).

    [indexer_poll] is one iteration of the loop in [poll_next]; its input says what
    the runtime reports.  [cancel_calls] is what the indexer asked the validator to
    cancel. *)

From S2P Require Import Prelude Uniswap Ray Orders Accounts OrderPool OrderTracker.

Inductive PoolInnerEvent :=
| Propagation (order : AllOrders)
| BadOrderMessages (peers : list PeerId)
| HasTransitionedToNewBlock (block : Z)
| NoEvent.

Record OrderIndexer := mkOrderIndexer {
  order_storage : OrderStorage;
  ix_block_number : Z;
  order_tracker : OrderTracker;
  ix_validator : OrderValidator;
  subscribers : OrderSubscriptionTracker;
  cancel_calls : list (Address * B256);
}.

Definition OrderIndexer_new (s : OrderStorage) (block : Z) : OrderIndexer :=
  mkOrderIndexer s block OrderTracker_new OrderValidator_new OrderSubscriptionTracker_new [].

Definition with_storage (x : OrderIndexer) (s : OrderStorage) : OrderIndexer :=
  mkOrderIndexer s (ix_block_number x) (order_tracker x) (ix_validator x) (subscribers x) (cancel_calls x).
Definition with_tracker (x : OrderIndexer) (t : OrderTracker) : OrderIndexer :=
  mkOrderIndexer (order_storage x) (ix_block_number x) t (ix_validator x) (subscribers x) (cancel_calls x).
Definition with_validator (x : OrderIndexer) (v : OrderValidator) : OrderIndexer :=
  mkOrderIndexer (order_storage x) (ix_block_number x) (order_tracker x) v (subscribers x) (cancel_calls x).
Definition with_subscribers (x : OrderIndexer) (s : OrderSubscriptionTracker) : OrderIndexer :=
  mkOrderIndexer (order_storage x) (ix_block_number x) (order_tracker x) (ix_validator x) s (cancel_calls x).
Definition with_block (x : OrderIndexer) (b : Z) : OrderIndexer :=
  mkOrderIndexer (order_storage x) b (order_tracker x) (ix_validator x) (subscribers x) (cancel_calls x).

Definition notify_validation (x : OrderIndexer) (h : B256) (r : OrderValidationResults) : OrderIndexer :=
  with_subscribers x (notify_validation_subscribers (subscribers x) h r).
Definition notify_update (x : OrderIndexer) (u : PoolManagerUpdate) : OrderIndexer :=
  with_subscribers x (notify_order_subscribers (subscribers x) u).

(** [validator.cancel_order] reaches the validation service in every state. *)
Definition validator_cancel (x : OrderIndexer) (user : Address) (h : B256) : OrderIndexer :=
  mkOrderIndexer (order_storage x) (ix_block_number x) (order_tracker x) (ix_validator x) (subscribers x)
    (cancel_calls x ++ [(user, h)]).

Definition submit (x : OrderIndexer) (origin : OrderOrigin) (o : AllOrders) : OrderIndexer :=
  with_validator x (validate_order (ix_validator x) origin o).

Section Indexer.
Context {P : Profile} {E : OrderEnv} (size_all size_tob : Z).

Abbreviation Stored := (OrderWithStorageData AllOrders) (only parsing).

(** ** Queries *)

Definition pending_orders_for_address (x : OrderIndexer) (address : Address) : list Stored :=
  (tracker_orders_for_address (order_tracker x) address (order_storage x)
     (fun id s => (get_order_from_id s id, s))).1.

Definition orders_by_pool (x : OrderIndexer) (pool : PoolId) (location : OrderLocation) : list AllOrders :=
  get_orders_by_pool (order_storage x) pool location.

Definition order_status (x : OrderIndexer) (h : B256) : M (option OrderStatus) :=
  fetch_status_of_order (order_storage x) h.

Definition indexer_all_orders (x : OrderIndexer) : M (OrderSet AllOrders TopOfBlockOrder) :=
  storage_all_orders (order_storage x).

(** ** New orders *)

Definition new_order (x : OrderIndexer) (peer : option PeerId) (origin : OrderOrigin) (o : AllOrders)
    (sub : option Z) : OrderIndexer :=
  let hash := order_hash o in
  let x := match sub with
           | Some tx => with_subscribers x (subscribe_to_order (subscribers x) hash tx)
           | None => x
           end in
  if is_valid_cancel (order_tracker x) hash (from o) then
    notify_validation x hash (Invalid hash CancelledOrder)
  else if is_duplicate (order_tracker x) hash then
    notify_validation x hash (Invalid hash DuplicateOrder)
  else
    let x := with_tracker x (track_peer_id (order_tracker x) hash peer) in
    if is_validating (order_tracker x) hash then x else
    let x := with_tracker x (start_validating (order_tracker x) hash) in
    submit x origin o.

Definition new_rpc_order (x : OrderIndexer) (origin : OrderOrigin) (o : AllOrders) (tx : Z) : OrderIndexer :=
  new_order x None origin o (Some tx).

Definition new_network_order (x : OrderIndexer) (peer : PeerId) (origin : OrderOrigin) (o : AllOrders) :
    OrderIndexer := new_order x (Some peer) origin o None.

(** ** Cancellation *)

Definition indexer_cancel_order (x : OrderIndexer) (now : Z) (request : CancelOrderRequest) :
    M (bool * OrderIndexer) :=
  let user := cr_user_address request in
  let h := cr_order_id request in
  let* valid := cancel_is_valid request in
  if negb valid then Ok (false, x) else
  if is_seen_invalid (order_tracker x) h || is_cancelled (order_tracker x) h then Ok (true, x) else
  let x := validator_cancel x user h in
  let* (r, t, s) := tracker_cancel_order (order_tracker x) now user h (order_storage x) in
  let x := with_storage (with_tracker x t) s in
  match r with
  | None => Ok (false, x)
  | Some (tob, pool) =>
      let (parked, s) := tracker_orders_for_address (order_tracker x) user (order_storage x)
                           (fun id s => remove_parked_order s id) in
      let x := with_storage x s in
      let x := fold_left (fun x (o : Stored) =>
                   submit (validator_cancel x (from (order o)) (order_hash (order o))) Local (order o))
                 parked x in
      Ok (true, notify_update x (CancelledOrderUpdate tob user pool h))
  end.

(** ** Block transitions *)

Definition eoa_state_change (x : OrderIndexer) (eoas : list Address) : OrderIndexer :=
  let '(t, s, v) := eoa_state_changes (order_tracker x) eoas (order_storage x) (ix_validator x)
    (fun id sv => let (r, s) := remove_order_from_id sv.1 id in
                  (s, match r with Some o => validate_order sv.2 Local (order o) | None => sv.2 end)) in
  with_validator (with_storage (with_tracker x t) s) v.

Definition indexer_finalized_block (x : OrderIndexer) (block : Z) : OrderIndexer :=
  with_storage x (finalized_block (order_storage x) block).

Definition indexer_reorg (x : OrderIndexer) (orders : list B256) : OrderIndexer :=
  let (r, s) := reorg (order_storage x) orders in
  fold_left (fun x (o : Stored) => submit (notify_update x (UnfilledOrders o)) Local (order o))
    r (with_storage x s).

Definition indexer_filled_orders (x : OrderIndexer) (block : Z) (orders : list B256) : M OrderIndexer :=
  if bool_decide (orders = []) then Ok x else
  let '(filled, t, s) := tracker_filled_orders (order_tracker x) orders (order_storage x) in
  let x := fold_left (fun x o => notify_update x (FilledOrder block o)) filled
             (with_storage (with_tracker x t) s) in
  let* s := add_filled_orders (order_storage x) block filled in
  Ok (with_storage x s).

Definition start_new_block_processing (x : OrderIndexer) (block : Z) (completed : list B256)
    (changes : list Address) : M OrderIndexer :=
  let* v := on_new_block (ix_validator x) block completed changes in Ok (with_validator x v).

Definition finish_new_block_processing (x : OrderIndexer) (now block : Z) (completed : list B256)
    (changes : list Address) : M OrderIndexer :=
  let x := with_block x block in
  let x := with_tracker x (clear_invalid (order_tracker x)) in
  let x := eoa_state_change x changes in
  let* x := indexer_filled_orders x block completed in
  let* (expired, t, s) := remove_expired_orders (order_tracker x) now block (order_storage x) in
  let x := with_storage (with_tracker x t) s in
  let x := with_subscribers x (notify_expired_orders (subscribers x) expired) in
  Ok (with_validator x
        (notify_validation_on_changes (ix_validator x) block (completed ++ expired) changes)).

Definition indexer_new_pool (x : OrderIndexer) (id : PoolId) : M OrderIndexer :=
  let* s := storage_new_pool (order_storage x) id in Ok (with_storage x s).

Definition indexer_remove_pool (x : OrderIndexer) (key : PoolId) : OrderIndexer :=
  with_storage x (storage_remove_pool (order_storage x) key).

(** ** Validation results *)

(** The pool's error is logged by the caller. *)
Definition insert_order (s : OrderStorage) (res : Stored) : M OrderStorage :=
  match id_location (order_id res) with
  | Searcher =>
      let* o := expect_ok (try_map_inner res (fun inner =>
                   match inner with TOB o => Ok o | _ => Err "unreachable" end)) in
      let* (_, s) := add_new_searcher_order size_tob s o in Ok s
  | Limit => let* (_, s) := add_new_limit_order size_all s res in Ok s
  end.

Definition bad_order (x : OrderIndexer) (h : B256) : PoolInnerEvent * OrderIndexer :=
  let (peers, t) := invalid_verification (order_tracker x) h in
  (BadOrderMessages peers, with_tracker x t).

Definition handle_validated_order (x : OrderIndexer) (res : OrderValidationResults) :
    M (PoolInnerEvent * OrderIndexer) :=
  match res with
  | Valid valid =>
      let hash := order_hash (order valid) in
      let x := with_tracker x (stop_validating (order_tracker x) hash) in
      if negb (valid_block valid =? ix_block_number x) then
        Ok (bad_order (notify_validation x hash (Invalid hash InvalidOrderAtBlock)) hash)
      else
        let x := notify_update x (NewOrder valid) in
        let x := notify_validation x hash
                   (match currently_invalid valid with
                    | Some error => Invalid hash (StateError error)
                    | None => Valid valid
                    end) in
        let x := with_tracker x (new_valid_order (order_tracker x) hash (from (order valid)) (order_id valid)) in
        let* s := tracker_park_orders (order_tracker x) (invalidates valid) (order_storage x) in
        let x := with_storage x s in
        let* s := insert_order (order_storage x) valid in
        Ok (Propagation (order valid), with_storage x s)
  | Invalid hash _ =>
      let x := with_tracker x (stop_validating (order_tracker x) hash) in
      let x := notify_validation x hash res in
      let* s := storage_remove_invalid (order_storage x) hash in
      Ok (bad_order (with_storage x s) hash)
  | TransitionedToBlock => Ok (NoEvent, x)
  end.

(** One turn of the loop of [poll_next]; [None] ends it. *)
Definition indexer_poll (x : OrderIndexer) (now : Z) (r : Ready) :
    M (option (list PoolInnerEvent * OrderIndexer)) :=
  let (next, v) := validator_poll (ix_validator x) r in
  let x := with_validator x v in
  match next with
  | None => Ok None
  | Some (EnsureClearForTransition block orders addresses) =>
      let* x := finish_new_block_processing x now block orders addresses in Ok (Some ([], x))
  | Some (ValidatedOrder next) =>
      let* (e, x) := handle_validated_order x next in Ok (Some ([e], x))
  | Some TransitionComplete => Ok (Some ([HasTransitionedToNewBlock (ix_block_number x)], x))
  end.

Fixpoint indexer_poll_next (x : OrderIndexer) (now : Z) (rs : list Ready) :
    M (list PoolInnerEvent * OrderIndexer) :=
  match rs with
  | [] => Ok ([], x)
  | r :: rs =>
      let* step := indexer_poll x now r in
      match step with
      | None => Ok ([], x)
      | Some (validated, x) =>
          let* (rest, x) := indexer_poll_next x now rs in Ok (validated ++ rest, x)
      end
  end.

End Indexer.

(** ** Answers to subscribers *)

Section Answers.
Context {P : Profile} {E : OrderEnv} (size_all size_tob : Z).

(** The hash a validation result answers for. *)
Definition result_hash (r : OrderValidationResults) : option B256 :=
  match r with
  | Valid o => Some (order_hash (order o))
  | Invalid h _ => Some h
  | TransitionedToBlock => None
  end.

(** The validator answers a validation with a result for the same order. *)
Definition answers (v : OrderValidator) (r : Ready) : Prop :=
  match r, v with
  | ValidationReady i res, (ClearingForNewBlock _ _ _ _ l | RegularProcessing l) =>
      forall x, l !! i = Some x -> result_hash res = Some (order_hash x.2)
  | _, _ => True
  end.

Definition outstanding_hashes (v : OrderValidator) : gset B256 :=
  list_to_set (map (fun x => order_hash x.2) (outstanding v)).

Definition waiting_subs (s : OrderSubscriptionTracker) : list Z :=
  concat (map snd (map_to_list (order_validation_subs s))).

(** Subscribers and marks belong to outstanding validations, or to the hashes [extra];
    every subscription is waiting or answered. *)
Record served (extra : gset B256) (log : list Z) (x : OrderIndexer) : Prop := {
  sv_validating : validating (order_tracker x) ⊆ outstanding_hashes (ix_validator x) ∪ extra;
  sv_subs : dom (order_validation_subs (subscribers x)) ⊆ outstanding_hashes (ix_validator x) ∪ extra;
  sv_log : log ≡ₚ waiting_subs (subscribers x) ++ map fst (validation_sent (subscribers x));
  sv_notified : order_notification_tracker (subscribers x) = ∅;
}.

(** Runs of the indexer with the subscriptions made so far. *)
Inductive ix_step : list Z * OrderIndexer -> list Z * OrderIndexer -> Prop :=
| ix_rpc log x origin o tx : ix_step (log, x) (log ++ [tx], new_rpc_order x origin o tx)
| ix_network log x peer origin o : ix_step (log, x) (log, new_network_order x peer origin o)
| ix_cancel log x now req b x' : indexer_cancel_order x now req = Ok (b, x') -> ix_step (log, x) (log, x')
| ix_finalized log x b : ix_step (log, x) (log, indexer_finalized_block x b)
| ix_reorg log x hs : ix_step (log, x) (log, indexer_reorg x hs)
| ix_start log x b c a x' : start_new_block_processing x b c a = Ok x' -> ix_step (log, x) (log, x')
| ix_new_pool log x id x' : indexer_new_pool x id = Ok x' -> ix_step (log, x) (log, x')
| ix_remove_pool log x id : ix_step (log, x) (log, indexer_remove_pool x id)
| ix_poll log x now r evs x' :
    answers (ix_validator x) r ->
    indexer_poll size_all size_tob x now r = Ok (Some (evs, x')) -> ix_step (log, x) (log, x').

Lemma outstanding_hashes_elem v h :
  h ∈ outstanding_hashes v <-> exists x, x ∈ outstanding v /\ order_hash x.2 = h.
Proof.
  unfold outstanding_hashes. rewrite elem_of_list_to_set. split.
  - intros (x & -> & Hx)%list_elem_of_fmap. eauto.
  - intros (x & Hx & <-). apply list_elem_of_fmap. eauto.
Qed.

Lemma outstanding_hashes_validate v origin o :
  outstanding_hashes (validate_order v origin o) = outstanding_hashes v ∪ {[order_hash o]}.
Proof.
  apply set_eq. intros h. rewrite elem_of_union, elem_of_singleton, !outstanding_hashes_elem.
  rewrite outstanding_validate. split.
  - intros (x & [Hx | ->%list_elem_of_singleton]%elem_of_app & <-); [left; eauto | by right].
  - intros [(x & Hx & <-) | ->]; [exists x | exists (origin, o)]; (split; [| done]); apply elem_of_app;
      [by left | right; by apply list_elem_of_singleton].
Qed.

Lemma outstanding_hashes_perm v v' :
  outstanding v ≡ₚ outstanding v' -> outstanding_hashes v = outstanding_hashes v'.
Proof. intros H. apply set_eq. intros h. rewrite !outstanding_hashes_elem. by setoid_rewrite H. Qed.

(** What [served] looks at. *)
Lemma served_ext extra log x x' :
  served extra log x ->
  validating (order_tracker x') = validating (order_tracker x) ->
  outstanding_hashes (ix_validator x) ⊆ outstanding_hashes (ix_validator x') ->
  order_validation_subs (subscribers x') = order_validation_subs (subscribers x) ->
  validation_sent (subscribers x') = validation_sent (subscribers x) ->
  order_notification_tracker (subscribers x') = ∅ ->
  served extra log x'.
Proof.
  intros [H1 H2 H3 H4] E1 E2 E3 E4 E5. split; [rewrite E1; set_solver | rewrite E3; set_solver | | done].
  unfold waiting_subs. by rewrite E3, E4.
Qed.

Lemma served_notify_update extra log x u : served extra log x -> served extra log (notify_update x u).
Proof.
  intros H. pose proof (sv_notified _ _ _ H) as Hn. unfold notify_update, notify_order_subscribers.
  rewrite Hn, bool_decide_false by apply not_elem_of_empty. cbn [andb].
  eapply served_ext; [exact H | done.. |]. cbn. case_match; set_solver.
Qed.

Lemma served_submit extra log x origin o : served extra log x -> served extra log (submit x origin o).
Proof.
  intros H. eapply served_ext; [exact H | done | | done | done | apply H].
  cbn. rewrite outstanding_hashes_validate. set_solver.
Qed.

Lemma waiting_subs_subscribe s h tx :
  waiting_subs (subscribe_to_order s h tx) ≡ₚ tx :: waiting_subs s.
Proof.
  unfold waiting_subs, subscribe_to_order. cbn. set (m := order_validation_subs s).
  destruct (m !! h) as [l |] eqn:El; cbn.
  - rewrite <- (insert_delete_id m h l El) at 2. rewrite <- (insert_delete_eq m h (l ++ [tx])).
    rewrite !map_to_list_insert by apply lookup_delete_eq. cbn.
    rewrite <- (assoc_L (++)). cbn. by rewrite Permutation_middle.
  - rewrite map_to_list_insert by done. done.
Qed.

(** The subscribers of [h] are answered. *)
Lemma served_notify extra log x h r :
  served ({[h]} ∪ extra) log x ->
  validating (order_tracker x) ⊆ outstanding_hashes (ix_validator x) ∪ extra ->
  served extra log (notify_validation x h r).
Proof.
  intros [_ H2 H3 H4] H1. unfold notify_validation, notify_validation_subscribers.
  destruct (order_validation_subs (subscribers x) !! h) as [subs |] eqn:Es.
  - split; cbn; [done | rewrite dom_delete_L; set_solver | | done].
    rewrite H3. unfold waiting_subs. cbn. set (m := order_validation_subs (subscribers x)) in *.
    rewrite <- (insert_delete_id m h subs Es) at 1. rewrite map_to_list_insert by apply lookup_delete_eq. cbn.
    rewrite map_app, map_map. cbn. rewrite map_id.
    rewrite <- (assoc_L (++)). rewrite (Permutation_app_comm subs). by rewrite (assoc_L (++)).
  - apply not_elem_of_dom in Es. split; cbn; [done | set_solver | done | done].
Qed.

Lemma served_weaken extra extra' log x : served extra log x -> extra ⊆ extra' -> served extra' log x.
Proof. intros [H1 H2 H3 H4] He. split; [set_solver | set_solver | done | done]. Qed.

Lemma served_stop extra log x h :
  served ({[h]} ∪ extra) log x ->
  validating (order_tracker (with_tracker x (stop_validating (order_tracker x) h))) ⊆
    outstanding_hashes (ix_validator x) ∪ extra /\
  served ({[h]} ∪ extra) log (with_tracker x (stop_validating (order_tracker x) h)).
Proof.
  intros [H1 H2 H3 H4]. split; [cbn; set_solver |]. split; [cbn; set_solver | done..].
Qed.

Lemma served_subscribe log x h tx :
  served ∅ log x ->
  served {[h]} (log ++ [tx]) (with_subscribers x (subscribe_to_order (subscribers x) h tx)) .
Proof.
  intros [H1 H2 H3 H4]. split; cbn; [set_solver | rewrite dom_insert_L; set_solver | | done].
  rewrite waiting_subs_subscribe, H3, (Permutation_app_comm _ [tx]). done.
Qed.

(** The part of [new_order] after the subscription. *)
Lemma served_new_order log x origin o :
  let h := order_hash o in
  served {[h]} log x -> validating (order_tracker x) ⊆ outstanding_hashes (ix_validator x) ->
  forall peer,
  served ∅ log
    (if is_valid_cancel (order_tracker x) h (from o) then notify_validation x h (Invalid h CancelledOrder)
     else if is_duplicate (order_tracker x) h then notify_validation x h (Invalid h DuplicateOrder)
     else
       let x := with_tracker x (track_peer_id (order_tracker x) h peer) in
       if is_validating (order_tracker x) h then x else
       submit (with_tracker x (start_validating (order_tracker x) h)) origin o).
Proof.
  intros h H Hv peer. destruct (is_valid_cancel _ _ _).
  { apply served_notify; [by rewrite union_empty_r_L | set_solver]. }
  destruct (is_duplicate _ _).
  { apply served_notify; [by rewrite union_empty_r_L | set_solver]. }
  cbn zeta. set (x1 := with_tracker x _).
  assert (Et : validating (order_tracker x1) = validating (order_tracker x))
    by (unfold x1; cbn; by destruct peer).
  destruct H as [H1 H2 H3 H4]. unfold is_validating. rewrite Et. case_bool_decide as Hh.
  - split; cbn -[x1]; [rewrite Et; set_solver | | done | done]. cbn. set_solver.
  - assert (Es : validating (order_tracker (with_tracker x1 (start_validating (order_tracker x1) h))) =
                 {[h]} ∪ validating (order_tracker x)) by (cbn [with_tracker order_tracker start_validating
                   set_validating validating]; by rewrite Et).
    split; [| | done | done].
    + change (validating _) with (validating (order_tracker (with_tracker x1 (start_validating (order_tracker x1) h)))).
      rewrite Es. change (ix_validator (submit _ _ _)) with (validate_order (ix_validator x) origin o).
      rewrite outstanding_hashes_validate. fold h. set_solver.
    + change (ix_validator (submit _ _ _)) with (validate_order (ix_validator x) origin o).
      rewrite outstanding_hashes_validate. fold h. change (dom _) with (dom (order_validation_subs (subscribers x))).
      set_solver.
Qed.

Lemma served_new_rpc log x origin o tx :
  served ∅ log x -> served ∅ (log ++ [tx]) (new_rpc_order x origin o tx).
Proof.
  intros H. unfold new_rpc_order, new_order.
  apply (served_new_order (log ++ [tx]) _ origin o); [by apply served_subscribe |].
  pose proof (sv_validating _ _ _ H). set_solver.
Qed.

Lemma served_new_network log x peer origin o :
  served ∅ log x -> served ∅ log (new_network_order x peer origin o).
Proof.
  intros H. unfold new_network_order, new_order.
  apply (served_new_order log _ origin o); [eapply served_weaken; [exact H | set_solver] |].
  pose proof (sv_validating _ _ _ H). set_solver.
Qed.

Lemma served_fold {A} (f : OrderIndexer -> A -> OrderIndexer) extra log l x :
  (forall x a, served extra log x -> served extra log (f x a)) ->
  served extra log x -> served extra log (fold_left f l x).
Proof. intros Hf. revert x. induction l as [| a l IH]; intros x H; cbn; [done |]. apply IH, Hf, H. Qed.

(** Operations of the storage and the tracker that keep the marks. *)
Lemma served_storage extra log x s : served extra log x -> served extra log (with_storage x s).
Proof. by intros []. Qed.

Lemma served_tracker extra log x t :
  served extra log x -> validating t = validating (order_tracker x) -> served extra log (with_tracker x t).
Proof. intros H Ht. by eapply served_ext; [exact H | done.. | apply H]. Qed.

Lemma served_cancel_call extra log x u h : served extra log x -> served extra log (validator_cancel x u h).
Proof. by intros []. Qed.

Lemma tracker_cancel_validating t now user h s r t' s' :
  tracker_cancel_order t now user h s = Ok (r, t', s') -> validating t' = validating t.
Proof.
  unfold tracker_cancel_order. destruct (order_hash_to_order_id t !! h) as [id |]; cbn.
  - destruct (storage_cancel_order s id) as [[o |] s1]; [by intros [= _ <- _] |].
    intros H. m_inv. unfold cancel_with_next_block_deadline in *. m_inv. done.
  - intros H. m_inv. unfold cancel_with_next_block_deadline in *. m_inv. done.
Qed.

Lemma served_cancel log x now req b x' :
  served ∅ log x -> indexer_cancel_order x now req = Ok (b, x') -> served ∅ log x'.
Proof.
  intros H Hc. unfold indexer_cancel_order in Hc. apply M_bind_Ok in Hc as (valid & _ & Hc).
  destruct (negb valid); [by injection Hc as _ <- |].
  destruct (is_seen_invalid _ _ || is_cancelled _ _); [by injection Hc as _ <- |].
  apply M_bind_Ok in Hc as ([[r t] s] & Ht & Hc). apply tracker_cancel_validating in Ht.
  assert (H1 : served ∅ log (with_storage (with_tracker (validator_cancel x (cr_user_address req) (cr_order_id req)) t) s))
    by (by apply served_storage, served_tracker; [apply served_cancel_call |]).
  destruct r as [[tob pool] |]; [| by injection Hc as _ <-].
  destruct (tracker_orders_for_address _ _ _ _) as [parked s2]. injection Hc as _ <-.
  apply served_notify_update, served_fold; [| by apply served_storage].
  intros y o Hy. by apply served_submit, served_cancel_call.
Qed.

Lemma served_reorg log x hs : served ∅ log x -> served ∅ log (indexer_reorg x hs).
Proof.
  intros H. unfold indexer_reorg. destruct (reorg _ _) as [r s]. apply served_fold; [| by apply served_storage].
  intros y o Hy. by apply served_submit, served_notify_update.
Qed.

Lemma served_eoa log x eoas : served ∅ log x -> served ∅ log (eoa_state_change x eoas).
Proof.
  intros H. unfold eoa_state_change, eoa_state_changes. destruct (take_addresses _ _) as [ids m].
  set (f := fun _ _ => _).
  assert (Hf : forall sv, outstanding_hashes sv.2 ⊆ outstanding_hashes (fold_left f ids sv).2).
  { induction ids as [| id ids IH]; intros sv; cbn; [done |]. etransitivity; [| apply IH].
    unfold f. destruct (remove_order_from_id sv.1 id) as [[o |] s]; cbn; [| done].
    rewrite outstanding_hashes_validate. set_solver. }
  specialize (Hf (order_storage x, ix_validator x)). cbn in Hf.
  destruct (fold_left f ids _) as [s v]. eapply served_ext; [exact H | done | exact Hf | done | done | apply H].
Qed.

Lemma tracker_filled_validating t orders s r t' s' :
  tracker_filled_orders t orders s = (r, t', s') -> validating t' = validating t.
Proof.
  revert t s r. induction orders as [| h orders IH]; intros t s r; cbn; [by intros [= _ <- _] |].
  destruct (order_hash_to_order_id t !! h) as [id |]; [| apply IH].
  destruct (match id_location id with Limit => _ | Searcher => _ end) as [o s1].
  destruct (tracker_filled_orders _ orders s1) as [[rest t2] s2] eqn:Er. intros [= _ <- <-].
  by rewrite (IH _ _ _ Er).
Qed.

Lemma served_filled log x block orders x' :
  served ∅ log x -> indexer_filled_orders x block orders = Ok x' -> served ∅ log x'.
Proof.
  intros H Hf. unfold indexer_filled_orders in Hf. case_bool_decide; [by injection Hf as <- |].
  destruct (tracker_filled_orders _ _ _) as [[r t] s] eqn:Et. apply tracker_filled_validating in Et.
  apply M_bind_Ok in Hf as (s2 & _ & Hf). injection Hf as <-. apply served_storage, served_fold.
  - intros y o Hy. by apply served_notify_update.
  - by apply served_storage, served_tracker.
Qed.

Lemma remove_expired_validating hs t s t' s' :
  M_fold remove_expired (t, s) hs = Ok (t', s') -> validating t' = validating t.
Proof.
  revert t s. induction hs as [| h hs IH]; intros t s H; cbn in H; [by injection H as <- _ |].
  apply M_bind_Ok in H as ([t1 s1] & E1 & H). rewrite (IH _ _ H). clear H.
  unfold remove_expired in E1. apply M_bind_Ok in E1 as (id & _ & E1). by injection E1 as <- _.
Qed.

Lemma served_expired_notice extra log x hs :
  served extra log x -> served extra log (with_subscribers x (notify_expired_orders (subscribers x) hs)).
Proof.
  intros H. unfold notify_expired_orders.
  assert (Hf : forall s, let s' := fold_left (fun s h => mkOrderSubscriptionTracker (order_validation_subs s)
      (orders_subscriber_tx s ++ [ExpiredOrder h]) (order_notification_tracker s ∖ {[h]}) (validation_sent s)) hs s in
    order_validation_subs s' = order_validation_subs s /\ validation_sent s' = validation_sent s /\
    order_notification_tracker s' ⊆ order_notification_tracker s).
  { induction hs as [| h hs IH]; intros s; cbn; [done |]. destruct (IH (mkOrderSubscriptionTracker (order_validation_subs s)
      (orders_subscriber_tx s ++ [ExpiredOrder h]) (order_notification_tracker s ∖ {[h]}) (validation_sent s)))
      as (-> & -> & Hs). cbn in Hs. split_and!; [done | done | set_solver]. }
  destruct (Hf (subscribers x)) as (E1 & E2 & E3). eapply served_ext; [exact H | done | done | exact E1 | exact E2 |].
  cbn. pose proof (sv_notified _ _ _ H). set_solver.
Qed.

Lemma served_finish log x now block completed changes x' :
  served ∅ log x -> finish_new_block_processing x now block completed changes = Ok x' -> served ∅ log x'.
Proof.
  intros H Hf. unfold finish_new_block_processing in Hf.
  apply M_bind_Ok in Hf as (x1 & H1 & Hf). apply M_bind_Ok in Hf as ([[hs t] s] & H2 & Hf). injection Hf as <-.
  assert (S1 : served ∅ log x1).
  { eapply served_filled; [| exact H1]. apply served_eoa, served_tracker; [| done]. by destruct H. }
  unfold remove_expired_orders in H2. apply M_bind_Ok in H2 as (e & _ & H2).
  apply M_bind_Ok in H2 as ([t2 s2] & E2 & H2). injection H2 as <- <- <-. apply remove_expired_validating in E2.
  assert (S2 : served ∅ log (with_storage (with_tracker x1 t2) s2)) by (by apply served_storage, served_tracker).
  apply (served_expired_notice _ _ _ (map fst e)) in S2.
  eapply served_ext; [exact S2 | done | | done | done | apply S2].
  unfold outstanding_hashes at 2. cbn [ix_validator with_validator]. by rewrite outstanding_notify.
Qed.

Lemma served_validated log x res h e x' :
  served {[h]} log x -> result_hash res = Some h ->
  handle_validated_order size_all size_tob x res = Ok (e, x') -> served ∅ log x'.
Proof.
  intros H Hh Hr. rewrite <- (union_empty_r_L {[h]}) in H.
  destruct (served_stop ∅ log x h H) as [Hv H0].
  destruct res as [o | h' err |]; [| | done]; cbn [result_hash] in Hh; apply (inj Some) in Hh;
    cbn [handle_validated_order] in Hr.
  - rewrite Hh in Hr. cbn zeta in Hr. destruct (negb _).
    + injection Hr as _ <-. apply served_tracker; [| done]. by apply served_notify.
    + apply M_bind_Ok in Hr as (s1 & _ & Hr). apply M_bind_Ok in Hr as (s2 & _ & Hr). injection Hr as _ <-.
      apply served_storage, served_storage, served_tracker; [| done].
      apply served_notify; [by apply served_notify_update |].
      unfold notify_update, notify_order_subscribers. case_match; exact Hv.
  - subst h'. cbn zeta in Hr. apply M_bind_Ok in Hr as (s1 & _ & Hr). injection Hr as _ <-.
    apply served_tracker; [| done]. apply served_storage. by apply served_notify.
Qed.

Lemma poll_extra x r next v' :
  validator_poll (ix_validator x) r = (Some next, v') -> answers (ix_validator x) r ->
  exists extra, outstanding_hashes (ix_validator x) = outstanding_hashes v' ∪ extra /\
    match next with ValidatedOrder res => exists h, result_hash res = Some h /\ extra = {[h]} | _ => extra = ∅ end.
Proof.
  intros Hp Ha. pose proof (outstanding_poll (ix_validator x) r) as Ho. rewrite Hp in Ho. cbn [snd] in Ho.
  exists (list_to_set (map (fun y => order_hash y.2) (resolved_by (ix_validator x) (Poll r)))). split.
  - apply set_eq. intros h. rewrite elem_of_union, elem_of_list_to_set, !outstanding_hashes_elem. split.
    + intros (y & Hy & <-). rewrite Ho in Hy. apply elem_of_app in Hy as [Hy | Hy]; [right | left; eauto].
      apply list_elem_of_fmap. eauto.
    + intros [(y & Hy & <-) | (y & -> & Hy)%list_elem_of_fmap]; exists y; (split; [| done]); rewrite Ho;
        apply elem_of_app; [by right | by left].
  - destruct (ix_validator x) as [b w c a l | w | w f | l]; cbn [validator_poll] in Hp.
    + destruct (poll_futures l r) as [[res l'] |] eqn:Ep.
      * injection Hp as <- <-. apply poll_futures_Some in Ep as (i & y & -> & Hy & ->).
        cbn [answers] in Ha. specialize (Ha y Hy). exists (order_hash y.2). split; [done |].
        cbn [resolved_by]. rewrite Hy. cbn. set_solver.
      * case_bool_decide as El; [| done]. injection Hp as <- <-. subst l.
        by destruct r as [| i res |].
    + done.
    + destruct r; [done | done |]. rewrite handle_inform_ready in Hp. by injection Hp as <- <-.
    + destruct (poll_futures l r) as [[res l'] |] eqn:Ep; [| done].
      injection Hp as <- <-. apply poll_futures_Some in Ep as (i & y & -> & Hy & ->).
      cbn [answers] in Ha. specialize (Ha y Hy). exists (order_hash y.2). split; [done |].
      cbn [resolved_by]. rewrite Hy. cbn. set_solver.
Qed.

Lemma served_poll log x now r evs x' :
  served ∅ log x -> answers (ix_validator x) r ->
  indexer_poll size_all size_tob x now r = Ok (Some (evs, x')) -> served ∅ log x'.
Proof.
  intros H Ha Hp. unfold indexer_poll in Hp.
  destruct (validator_poll (ix_validator x) r) as [next v] eqn:Ev. destruct next as [next |]; [| done].
  destruct (poll_extra _ _ _ _ Ev Ha) as (extra & Ho & Hn).
  assert (S1 : served extra log (with_validator x v)).
  { destruct H as [H1 H2 H3 H4]. split; cbn; [rewrite Ho in H1; set_solver | rewrite Ho in H2; set_solver | done | done]. }
  destruct next as [res | block orders addresses |]; cbn [M_bind] in Hp.
  - destruct Hn as (h & Hh & ->). apply M_bind_Ok in Hp as ([e x1] & Hr & Hp). injection Hp as _ <-.
    by eapply served_validated.
  - subst extra. apply M_bind_Ok in Hp as (x1 & Hr & Hp). injection Hp as _ <-. by eapply served_finish.
  - subst extra. by injection Hp as _ <-.
Qed.

Lemma served_start log x b c a x' :
  served ∅ log x -> start_new_block_processing x b c a = Ok x' -> served ∅ log x'.
Proof.
  intros H Hs. unfold start_new_block_processing, on_new_block in Hs.
  destruct (is_transitioning _); [done |].
  destruct (ix_validator x) as [| | | l] eqn:Ev; try done. injection Hs as <-.
  eapply served_ext; [exact H | done | | done | done | apply H]. rewrite Ev. unfold outstanding_hashes. cbn.
  by rewrite app_nil_r.
Qed.

Lemma ix_step_served st st' : ix_step st st' -> served ∅ st.1 st.2 -> served ∅ st'.1 st'.2.
Proof.
  destruct 1; cbn; intros H'.
  - by apply served_new_rpc.
  - by apply served_new_network.
  - by eapply served_cancel.
  - by apply served_storage.
  - by apply served_reorg.
  - by eapply served_start.
  - unfold indexer_new_pool in H. apply M_bind_Ok in H as (s & _ & H). injection H as <-. by apply served_storage.
  - by apply served_storage.
  - by eapply served_poll.
Qed.

End Answers.

(** ** Properties *)

(** C18: Every subscriber gets exactly one answer: in every reachable state each
    subscription is either answered or waits for an order whose validation is under
    way, an order is marked as being validated only while it is, and when nothing
    is under way all subscriptions are answered and no mark is left. *)
Theorem subscribers_answered_once {P : Profile} {E : OrderEnv} size_all size_tob s block log x :
  rtc (ix_step size_all size_tob) ([], OrderIndexer_new s block) (log, x) ->
  log ≡ₚ waiting_subs (subscribers x) ++ map fst (validation_sent (subscribers x)) /\
  dom (order_validation_subs (subscribers x)) ⊆ outstanding_hashes (ix_validator x) /\
  validating (order_tracker x) ⊆ outstanding_hashes (ix_validator x) /\
  (outstanding (ix_validator x) = [] ->
     log ≡ₚ map fst (validation_sent (subscribers x)) /\ validating (order_tracker x) = ∅).
Proof.
  intros Hr.
  assert (S : forall st, rtc (ix_step size_all size_tob) ([], OrderIndexer_new s block) st ->
    served ∅ st.1 st.2).
  { apply rtc_ind_r; [split; cbn; [set_solver | set_solver | done | done] |].
    intros st st' _ Hs IH. by eapply ix_step_served. }
  specialize (S _ Hr). cbn in S.
  destruct S as [H1 H2 H3 H4]. split_and!; [done | set_solver | set_solver |].
  intros Ho. unfold outstanding_hashes in *. rewrite Ho in *. cbn in *. split; [| set_solver].
  rewrite H3. unfold waiting_subs. assert (order_validation_subs (subscribers x) = ∅) as ->
    by (apply dom_empty_inv_L; set_solver). done.
Qed.

Lemma submit_fold_tracker {P : Profile} {E : OrderEnv} l x :
  let x' := fold_left (fun x (o : OrderWithStorageData AllOrders) =>
    submit (validator_cancel x (from (order o)) (order_hash (order o))) Local (order o)) l x in
  order_tracker x' = order_tracker x.
Proof. revert x. induction l as [| o l IH]; intros x; cbn zeta; [done |]. cbn [fold_left]. by rewrite IH. Qed.

(** Nobody checks that the order belongs to the user of a cancellation request: a
    request with a valid signature of any user removes another user's order, and the
    owner's order is then rejected as cancelled when it is submitted again. *)
Theorem cancel_ignores_owner {P : Profile} {E : OrderEnv} x now req id o s' :
  let h := cr_order_id req in
  cancel_is_valid req = Ok true ->
  is_seen_invalid (order_tracker x) h = false -> is_cancelled (order_tracker x) h = false ->
  order_hash_to_order_id (order_tracker x) !! h = Some id ->
  storage_cancel_order (order_storage x) id = (Some o, s') ->
  from (order o) <> cr_user_address req ->
  exists x', indexer_cancel_order x now req = Ok (true, x') /\
    order_hash_to_order_id (order_tracker x') !! h = None /\
    (forall peer origin o' sub, order_hash o' = h -> from o' = from (order o) ->
       ix_validator (new_order x' peer origin o' sub) = ix_validator x').
Proof.
  intros h Hv Hs Hc Hid Ho Hne. unfold indexer_cancel_order. fold h. rewrite Hv. cbn [M_bind negb]. rewrite Hs, Hc. cbn [orb].
  unfold tracker_cancel_order. cbn [order_tracker order_storage validator_cancel]. rewrite Hid, Ho.
  cbn zeta. cbn [M_bind]. destruct (tracker_orders_for_address _ _ _ _) as [parked s2].
  eexists. split; [reflexivity |].
  set (x1 := fold_left _ parked _).
  assert (Ht : order_tracker x1 = insert_cancel_with_deadline
    (set_peers (set_ids (set_ids (order_tracker x) (delete h (order_hash_to_order_id (order_tracker x))))
       (delete (order_hash (order o)) (delete h (order_hash_to_order_id (order_tracker x)))))
       (delete (order_hash (order o)) (order_hash_to_peer_id (order_tracker x)))) now (from (order o)) h (deadline (order o))).
  { unfold x1. apply (submit_fold_tracker parked). }
  assert (Hu : order_tracker (notify_update x1 (CancelledOrderUpdate (is_tob (order o)) (cr_user_address req) (pool_id o) h)) = order_tracker x1) by done.
  split.
  - rewrite Hu, Ht. cbn [order_hash_to_order_id insert_cancel_with_deadline set_cancelled set_peers set_ids].
    destruct (decide (order_hash (order o) = h)) as [-> | Hn]; [by rewrite lookup_delete_eq |].
    by rewrite lookup_delete_ne, lookup_delete_eq by done.
  - intros peer origin o' sub Hh Hf. unfold new_order. rewrite Hh, Hf.
    assert (Hvc : is_valid_cancel (order_tracker x1) h (from (order o)) = true).
    { rewrite Ht. unfold is_valid_cancel. cbn [cancelled_orders insert_cancel_with_deadline set_cancelled].
      rewrite lookup_insert, decide_True by done. apply Z.eqb_refl. }
    destruct sub as [tx |]; cbn [order_tracker with_subscribers]; rewrite Hu, Hvc; done.
Qed.

Lemma remove_expired_finalization hs t s t' s' :
  M_fold remove_expired (t, s) hs = Ok (t', s') ->
  pending_finalization_orders s' = pending_finalization_orders s.
Proof.
  revert t s. induction hs as [| h hs IH]; intros t s H; cbn in H; [by injection H as _ <- |].
  apply M_bind_Ok in H as ([t1 s1] & E1 & H). rewrite (IH _ _ H). clear H.
  unfold remove_expired in E1. apply M_bind_Ok in E1 as (id & _ & E1). injection E1 as _ <-.
  unfold remove_limit_order, remove_searcher_order.
  destruct (id_location id); [by destruct (lop_remove_order _ _) | by destruct (sp_remove_order _ _)].
Qed.

Lemma expired_notice_no_fill s hs b o :
  FilledOrder b o ∈ orders_subscriber_tx (notify_expired_orders s hs) -> FilledOrder b o ∈ orders_subscriber_tx s.
Proof.
  unfold notify_expired_orders. revert s. induction hs as [| h hs IH]; intros s; cbn [fold_left]; [done |].
  intros H%IH. cbn in H. apply elem_of_app in H as [H | H%list_elem_of_singleton]; [done | discriminate H].
Qed.

(** When a filled order's owner is among the changed accounts of the block, which
    is always so since the accounts of the executed bundle are, the order is taken out
    of the storage for validation before the filled orders are collected: it is
    submitted again, not recorded for finality, and no fill is announced. *)
Theorem filled_order_of_changed_account_lost {P : Profile} {E : OrderEnv} x now block h id a w o s1 x' :
  ix_validator x = WaitingForStorageCleanup w ->
  copies_ok (order_storage x) ->
  order_hash_to_order_id (order_tracker x) !! h = Some id ->
  address_to_orders (order_tracker x) !! a = Some [id] ->
  remove_order_from_id (order_storage x) id = (Some o, s1) ->
  finish_new_block_processing x now block [h] [a] = Ok x' ->
  outstanding (ix_validator x') = w ++ [(Local, order o)] /\
  id_to_orders (pending_finalization_orders (order_storage x')) =
    id_to_orders (pending_finalization_orders s1) /\
  (forall b o', FilledOrder b o' ∈ orders_subscriber_tx (subscribers x') ->
     FilledOrder b o' ∈ orders_subscriber_tx (subscribers x)).
Proof.
  intros Hv Hc Hid Ha Hr Hf. unfold finish_new_block_processing in Hf.
  assert (Ee : eoa_state_change (with_tracker (with_block x block) (clear_invalid (order_tracker (with_block x block)))) [a] =
    mkOrderIndexer s1 block (set_addresses (clear_invalid (order_tracker x)) (delete a (address_to_orders (order_tracker x))))
      (WaitingForStorageCleanup (w ++ [(Local, order o)])) (subscribers x) (cancel_calls x)).
  { unfold eoa_state_change, eoa_state_changes. cbn [order_tracker with_tracker with_block clear_invalid set_seen address_to_orders take_addresses].
    rewrite Ha. cbn [from_option app fold_left order_storage ix_validator with_tracker with_block fst snd].
    change (Datatypes.id [id] ++ []) with [id]. cbn [fold_left fst snd]. rewrite Hr, Hv. done. }
  rewrite Ee in Hf. clear Ee. apply M_bind_Ok in Hf as (x1 & H1 & Hf).
  unfold indexer_filled_orders in H1. rewrite bool_decide_false in H1 by done.
  cbn [tracker_filled_orders order_tracker order_storage order_hash_to_order_id set_addresses clear_invalid set_seen] in H1.
  rewrite Hid in H1. pose proof (remove_twice (order_storage x) id Hc) as Ht.
  assert (Es : (storage_remove_order (order_storage x) id).2 = s1).
  { unfold storage_remove_order, remove_limit_order, remove_searcher_order. unfold remove_order_from_id in Hr.
    by destruct (id_location id); rewrite Hr. }
  rewrite Es in Ht.
  change (match id_location id with Limit => remove_limit_order s1 id | Searcher => remove_searcher_order s1 id end)
    with (storage_remove_order s1 id) in H1.
  destruct (storage_remove_order s1 id) as [r s2] eqn:E2. cbn [fst] in Ht. subst r. cbn [fold_left] in H1.
  apply M_bind_Ok in H1 as (s3 & H3 & H1). injection H1 as <-.
  assert (F2 : pending_finalization_orders s2 = pending_finalization_orders s1).
  { revert E2. clear. unfold storage_remove_order, remove_limit_order, remove_searcher_order.
    destruct (id_location id); [destruct (lop_remove_order _ _) | destruct (sp_remove_order _ _)]; by intros [= _ <-]. }
  assert (F3 : id_to_orders (pending_finalization_orders s3) = id_to_orders (pending_finalization_orders s1)).
  { unfold add_filled_orders, new_orders in H3. cbn [order_storage with_storage] in H3. rewrite F2 in H3. cbn in H3.
    destruct (block_to_ids _ !! block); [done |]. by injection H3 as <-. }
  apply M_bind_Ok in Hf as ([[hs t] s4] & H4 & Hf). injection Hf as <-.
  split_and!.
  - done.
  - rewrite <- F3. cbn [order_storage with_validator with_subscribers with_storage].
    unfold remove_expired_orders in H4. apply M_bind_Ok in H4 as (e & _ & H4).
    apply M_bind_Ok in H4 as ([t5 s5] & H5 & H4). injection H4 as _ _ <-. revert H5. cbn [order_storage with_storage].
    by intros <-%remove_expired_finalization.
  - intros b o'. cbn [subscribers with_validator with_subscribers with_storage with_tracker].
    apply expired_notice_no_fill.
Qed.

(** ** Witnesses *)

Definition demo_stored : OrderWithStorageData AllOrders := pool_order 1 true.
Definition demo_hash : B256 := id_hash (order_id demo_stored).

Definition demo_indexer (v : OrderValidator) : OrderIndexer :=
  mkOrderIndexer one_order 1
    (mkOrderTracker {[ 77 := [order_id demo_stored] ]} {[ demo_hash := order_id demo_stored ]} ∅ ∅ ∅ ∅)
    v OrderSubscriptionTracker_new [].

Lemma one_order_copies : copies_ok one_order.
Proof.
  assert (Hk : lp_parked (lop_limit (limit_orders one_order)) =
               list_to_map (map (fun id => (id, ∅ : ParkedPool)) [9])) by reflexivity.
  assert (Hc : lop_composable (limit_orders one_order) =
               list_to_map (map (fun id => (id, PendingPool_new)) [9])) by reflexivity.
  intros pool h. unfold single_copy. rewrite Hk, Hc. split; intros _;
    [split; [apply new_park_at | apply new_pend_at] | apply new_pend_at].
Qed.

Definition demo_run : OrderIndexer :=
  @new_rpc_order toy_env (OrderIndexer_new one_order 1) External (bid_for 100 2 false) 5.

Lemma subscribers_answered_once_witness :
  exists log x, rtc (@ix_step dev toy_env 300 200) ([], OrderIndexer_new one_order 1) (log, x) /\
    log = [5] /\ log ≡ₚ waiting_subs (subscribers x) ++ map fst (validation_sent (subscribers x)).
Proof.
  assert (H : rtc (@ix_step dev toy_env 300 200) ([], OrderIndexer_new one_order 1) ([5], demo_run)).
  { eapply rtc_l; [| apply rtc_refl]. exact (@ix_rpc dev toy_env 300 200 [] _ External _ 5). }
  exists [5], demo_run. split; [exact H |]. split; [reflexivity |].
  exact (proj1 (@subscribers_answered_once dev toy_env 300 200 one_order 1 [5] demo_run H)).
Defined.

Definition foreign_request : CancelOrderRequest := mkCancelOrderRequest [48] 100 demo_hash.

Lemma cancel_ignores_owner_witness :
  exists x', @indexer_cancel_order dev toy_env (demo_indexer (RegularProcessing [])) 50 foreign_request = Ok (true, x') /\
    order_hash_to_order_id (order_tracker x') !! cr_order_id foreign_request = None.
Proof.
  destruct (@cancel_ignores_owner dev toy_env (demo_indexer (RegularProcessing [])) 50
    foreign_request (order_id demo_stored) demo_stored
    (storage_cancel_order one_order (order_id demo_stored)).2) as (x' & H1 & H2 & _).
  - vm_compute. reflexivity.
  - vm_compute. reflexivity.
  - vm_compute. reflexivity.
  - vm_compute. reflexivity.
  - vm_compute. reflexivity.
  - vm_compute. discriminate.
  - exists x'. exact (conj H1 H2).
Defined.

Definition demo_finish : M OrderIndexer :=
  @finish_new_block_processing dev toy_env (demo_indexer (WaitingForStorageCleanup [])) 50 2 [demo_hash] [77].

Lemma filled_order_of_changed_account_lost_witness :
  exists x', demo_finish = Ok x' /\ outstanding (ix_validator x') = [] ++ [(Local, order demo_stored)].
Proof.
  destruct demo_finish as [x' | |] eqn:E; [| vm_compute in E; discriminate E ..].
  destruct (@filled_order_of_changed_account_lost dev toy_env (demo_indexer (WaitingForStorageCleanup [])) 50 2
    demo_hash (order_id demo_stored) 77 [] demo_stored (remove_order_from_id one_order (order_id demo_stored)).2 x')
    as (H & _).
  - reflexivity.
  - exact one_order_copies.
  - vm_compute. reflexivity.
  - vm_compute. reflexivity.
  - vm_compute. reflexivity.
  - exact E.
  - exists x'. exact (conj eq_refl H).
Defined.
