(* ===== verification/Chain.v ===== *)
(** * Canonical chain updates

    crates/types/src/primitive/chain_ext.rs: what the node reads of a chain segment
    that the execution client announces.  A segment is its list of blocks, oldest
    first; the client never announces an empty one, and its accessor of the tip
    panics on it. *)

From S2P Require Import Prelude Orders.

Record Log := mkLog {
  log_address : Address;
  log_topics : list B256;
  log_data : Bytes;
}.

Record Transaction := mkTransaction {
  tx_to : option Address;
  tx_input : Bytes;
}.

Record Block := mkBlock {
  blk_number : Z;
  blk_hash : B256;
  blk_transactions : list Transaction;
  blk_receipts : list (list Log);
}.

Definition Chain : Type := list Block.

(** [CanonStateNotification]. *)
Inductive CanonStateNotification :=
| Reorg (old new : Chain)
| Commit (new : Chain).

Definition MAX_REORG_DEPTH : Z := 150.

Definition chain_tip (c : Chain) : M Block := unwrap (last c).
Definition tip_number (c : Chain) : M Z := let* b := chain_tip c in Ok (blk_number b).
Definition tip_hash (c : Chain) : M B256 := let* b := chain_tip c in Ok (blk_hash b).
Definition tip_transactions (c : Chain) : M (list Transaction) :=
  let* b := chain_tip c in Ok (blk_transactions b).

Definition receipts_by_block_hash (c : Chain) (h : B256) : option (list (list Log)) :=
  blk_receipts <$> List.find (fun b => blk_hash b =? h) c.

Definition notification_tip (n : CanonStateNotification) : M Block :=
  match n with Reorg _ new => chain_tip new | Commit new => chain_tip new end.

Section Chain.
Context {P : Profile}.

(** Blocks are paired by position; a pair with different hashes was reorganized. *)
Definition reorged_blocks (start : Z) (old new : Chain) : list Z :=
  map (fun p => blk_number p.2)
    (List.filter (fun p => negb (blk_hash p.1 =? blk_hash p.2))
       (zip (List.filter (fun b => start <=? blk_number b) old)
          (List.filter (fun b => start <=? blk_number b) new))).

Definition reorged_range (old new : Chain) : M (option (Z * Z)) :=
  let* tip := tip_number new in
  let* start := checked_u 64 (tip - MAX_REORG_DEPTH) in
  match reorged_blocks start old new with
  | [] => Ok None
  | [r] => Ok (Some (r, r))
  | first :: rest => Ok (Some (first, List.last rest first))
  end.

(** [reorged_range(..).unwrap_or(tip..=tip)]. *)
Definition reorg_of (old new : Chain) : M (Z * Z) :=
  let* tip := tip_number new in
  let* r := reorged_range old new in
  Ok (default (tip, tip) r).

End Chain.

(** ** Lemmas *)

(** A segment whose blocks are numbered consecutively from [n]. *)
Definition numbered (n : Z) (c : Chain) : Prop :=
  forall i b, c !! i = Some b -> blk_number b = n + Z.of_nat i.

Lemma numbered_cons n b c : numbered n (b :: c) <-> blk_number b = n /\ numbered (n + 1) c.
Proof.
  split.
  - intros H. split; [rewrite (H O b) by done; lia |]. intros i x Hx. rewrite (H (S i) x) by done. lia.
  - intros [Hb H] [| i] x Hx; cbn in Hx; [injection Hx as <-; lia |]. rewrite (H i x) by done. lia.
Qed.

Lemma numbered_filter n c start :
  numbered n c -> start <= n -> List.filter (fun b => start <=? blk_number b) c = c.
Proof.
  revert n. induction c as [| b c IH]; intros n H Hs; [done |]. apply numbered_cons in H as [Hb H]. cbn.
  destruct (Z.leb_spec start (blk_number b)); [| lia]. by rewrite (IH (n + 1)) by (done || lia).
Qed.

Lemma numbered_last n c b : numbered n c -> last c = Some b -> blk_number b = n + Z.of_nat (length c) - 1.
Proof.
  intros H Hl. rewrite last_lookup in Hl. rewrite (H _ _ Hl).
  destruct c; [done |]. cbn [length pred]. lia.
Qed.

Lemma zip_numbers n old new :
  numbered n new ->
  (forall x y, (x, y) ∈ zip old new -> blk_hash x <> blk_hash y) ->
  map (fun p => blk_number p.2) (List.filter (fun p => negb (blk_hash p.1 =? blk_hash p.2)) (zip old new)) =
  map (fun i => n + Z.of_nat i) (seq 0 (Nat.min (length old) (length new))).
Proof.
  revert n new. induction old as [| x old IH]; intros n [| y new] Hn Hd; [done.. |].
  apply numbered_cons in Hn as [Hy Hn]. cbn [zip zip_with List.filter fst snd].
  destruct (Z.eqb_spec (blk_hash x) (blk_hash y)) as [E |];
    [by exfalso; apply (Hd x y); [apply list_elem_of_here |] |].
  cbn [negb map length Nat.min seq fst snd].
  f_equal; [lia |]. fold (zip old new).
  rewrite (IH (n + 1)) by (done || (intros a b Hab; apply Hd; by apply list_elem_of_further)).
  rewrite <- seq_shift, map_map. apply map_ext. intros i. lia.
Qed.

Lemma last_seq n k : (0 < k)%nat ->
  match map (fun i => n + Z.of_nat i) (seq 0 k) with
  | [] => None
  | first :: rest => Some (first, List.last rest first)
  end = Some (n, n + Z.of_nat k - 1).
Proof.
  intros Hk. destruct k as [| k]; [lia |]. cbn [seq map]. f_equal. f_equal; [lia |].
  destruct k as [| k]; [cbn; lia |]. rewrite seq_S, map_app. cbn [map]. rewrite List.last_last. lia.
Qed.

Lemma split_range (l : list Z) :
  match l with
  | [] => Ok None
  | [r] => Ok (Some (r, r))
  | first :: rest => Ok (Some (first, List.last rest first))
  end = Ok (match l with [] => None | first :: rest => Some (first, List.last rest first) end) :> M (option (Z * Z)).
Proof. by destruct l as [| x [| y l]]. Qed.

Lemma reorged_range_fork {P : Profile} n old new tip :
  numbered n old -> numbered n new -> old <> [] -> tip_number new = Ok tip ->
  MAX_REORG_DEPTH <= tip <= u_max 64 -> tip - MAX_REORG_DEPTH <= n ->
  (forall x y, (x, y) ∈ zip old new -> blk_hash x <> blk_hash y) ->
  reorged_range old new = Ok (Some (n, n + Z.of_nat (Nat.min (length old) (length new)) - 1)).
Proof.
  intros Ho Hn Hne Ht Hd Hs Hh. unfold reorged_range. rewrite Ht. cbn [M_bind].
  rewrite checked_u_Ok by (unfold MAX_REORG_DEPTH in *; lia). cbn [M_bind].
  unfold reorged_blocks. rewrite (numbered_filter n old), (numbered_filter n new) by done.
  rewrite (zip_numbers n) by done. rewrite split_range, last_seq; [done |].
  destruct old; [done |]. destruct new; [done |]. cbn. lia.
Qed.
