(* ===== verification/ConsensusMessages.v ===== *)
(** * Consensus messages

    crates/types/src/consensus: what validators sign and send.  A pre-proposal lists
    the orders a validator has, an aggregation signs a set of pre-proposals, a
    proposal signs aggregations and the solution of every pool.

    Signing and recovering ([SigningKey]) and the bincode encoding ([Bincode]) are
    code outside the repository. *)

From S2P Require Import Prelude Uniswap Ray Orders OrderPool.

#[export] Instance OrderWithStorageData_eq_dec {O} `{EqDecision O} : EqDecision (OrderWithStorageData O).
Proof. solve_decision. Defined.
#[export] Instance OrderOutcome_eq_dec : EqDecision OrderOutcome.
Proof. solve_decision. Defined.
#[export] Instance NetAmmOrder_eq_dec : EqDecision NetAmmOrder.
Proof. solve_decision. Defined.
#[export] Instance PoolSolution_eq_dec : EqDecision PoolSolution.
Proof. solve_decision. Defined.

Class SigningKey := {
  ConsensusSignature : Type;
  signature_eq_dec :: EqDecision ConsensusSignature;
  AngstromSigner : Type;
  (** [AngstromSigner::id], the peer id of the public key. *)
  signer_id : AngstromSigner -> Z;
  signer_address : AngstromSigner -> Address;
  sign_hash_sync : AngstromSigner -> B256 -> ConsensusSignature;
  (** [recover_from_prehash] followed by [public_key_to_peer_id]. *)
  recover_peer_id : ConsensusSignature -> B256 -> option Z;
}.

(** ECDSA: recovering the signer of a signed hash gives the signer. *)
Class SigningLaws (K : SigningKey) :=
  recover_signed : forall sk h, recover_peer_id (sign_hash_sync sk h) h = Some (signer_id sk).

Section Types.
Context {K : SigningKey}.

Record PreProposal := mkPreProposal {
  pp_block_height : Z;
  pp_source : Z;
  pp_limit : list (OrderWithStorageData AllOrders);
  pp_searcher : list (OrderWithStorageData TopOfBlockOrder);
  pp_signature : ConsensusSignature;
}.

#[export] Instance PreProposal_eq_dec : EqDecision PreProposal.
Proof. solve_decision. Defined.

Record PreProposalContent := mkPreProposalContent {
  ppc_block_height : Z;
  ppc_source : Z;
  ppc_limit : list (OrderWithStorageData AllOrders);
  ppc_searcher : list (OrderWithStorageData TopOfBlockOrder);
}.

Record PreProposalAggregation := mkPreProposalAggregation {
  ppa_block_height : Z;
  ppa_source : Z;
  ppa_pre_proposals : list PreProposal;
  ppa_signature : ConsensusSignature;
}.

#[export] Instance PreProposalAggregation_eq_dec : EqDecision PreProposalAggregation.
Proof. solve_decision. Defined.

Record Proposal := mkProposal {
  pr_block_height : Z;
  pr_source : Z;
  pr_preproposals : list PreProposalAggregation;
  pr_solutions : list PoolSolution;
  pr_signature : ConsensusSignature;
}.

#[export] Instance Proposal_eq_dec : EqDecision Proposal.
Proof. solve_decision. Defined.

End Types.

(** [bincode::serialize] at the types that are signed. *)
Class Bincode {K : SigningKey} := {
  ser_height : Z -> Bytes;
  ser_peer : Z -> Bytes;
  ser_limit : list (OrderWithStorageData AllOrders) -> Bytes;
  ser_searcher : list (OrderWithStorageData TopOfBlockOrder) -> Bytes;
  ser_pre_proposals : list PreProposal -> Bytes;
  ser_aggregations : list PreProposalAggregation -> Bytes;
  ser_solutions : list PoolSolution -> Bytes;
}.

Section Messages.
Context {K : SigningKey} {B : Bincode} {C : OrderCrypto}.

(** ** Pre-proposals (pre_prepose.rs) *)

Definition content (p : PreProposal) : PreProposalContent :=
  mkPreProposalContent (pp_block_height p) (pp_source p) (pp_limit p) (pp_searcher p).

Definition sign_payload (sk : AngstromSigner) (payload : Bytes) : ConsensusSignature :=
  sign_hash_sync sk (keccak256 payload).

Definition pp_serialize_payload (height : Z) (limit : list (OrderWithStorageData AllOrders))
    (searcher : list (OrderWithStorageData TopOfBlockOrder)) : Bytes :=
  ser_height height ++ ser_limit limit ++ ser_searcher searcher.

Definition generate_pre_proposal (height : Z) (sk : AngstromSigner)
    (limit : list (OrderWithStorageData AllOrders)) (searcher : list (OrderWithStorageData TopOfBlockOrder)) :
    PreProposal :=
  mkPreProposal height (signer_id sk) limit searcher
    (sign_payload sk (pp_serialize_payload height limit searcher)).

Definition PreProposal_new (height : Z) (sk : AngstromSigner) (orders : OrderSet AllOrders TopOfBlockOrder) :
    PreProposal := generate_pre_proposal height sk (os_limit orders) (os_searcher orders).

Definition pp_payload (p : PreProposal) : Bytes :=
  pp_serialize_payload (pp_block_height p) (pp_limit p) (pp_searcher p).

Definition pp_is_valid (p : PreProposal) (height : Z) : bool :=
  match recover_peer_id (pp_signature p) (keccak256 (pp_payload p)) with
  | None => false
  | Some source => (source =? pp_source p) && (pp_block_height p =? height)
  end.

(** A hash set of orders is a list without duplicates. *)
Definition set_insert {A} `{EqDecision A} (x : A) (l : list A) : list A :=
  if decide (x ∈ l) then l else l ++ [x].

Definition orders_by_pool_id (pps : list PreProposal) : gmap PoolId (list (OrderWithStorageData AllOrders)) :=
  fold_left (fun acc o => <[pool_id o := set_insert o (default [] (acc !! pool_id o))]> acc)
    (flat_map pp_limit pps) ∅.

(** ** Aggregations (pre_propose_agg.rs) *)

Definition ppa_serialize_payload (height : Z) (pps : list PreProposal) : Bytes :=
  ser_height height ++ ser_pre_proposals pps.

Definition PreProposalAggregation_new (height : Z) (sk : AngstromSigner) (pps : list PreProposal) :
    PreProposalAggregation :=
  mkPreProposalAggregation height (signer_id sk) pps (sign_payload sk (ppa_serialize_payload height pps)).

Definition ppa_payload (a : PreProposalAggregation) : Bytes :=
  ppa_serialize_payload (ppa_block_height a) (ppa_pre_proposals a).

Definition ppa_is_valid (a : PreProposalAggregation) (height : Z) (two_thirds : nat) : bool :=
  if negb (forallb (fun p => pp_is_valid p height) (ppa_pre_proposals a)) then false else
  if (length (ppa_pre_proposals a) <? two_thirds)%nat then false else
  match recover_peer_id (ppa_signature a) (keccak256 (ppa_payload a)) with
  | None => false
  | Some source => source =? ppa_source a
  end.

(** ** Proposals (proposal.rs) *)

Definition pr_serialize (height source : Z) (aggs : list PreProposalAggregation)
    (solutions : list PoolSolution) : Bytes :=
  ser_height height ++ ser_peer source ++ ser_aggregations aggs ++ ser_solutions solutions.

Definition generate_proposal (height : Z) (sk : AngstromSigner) (aggs : list PreProposalAggregation)
    (solutions : list PoolSolution) : Proposal :=
  let solutions := sort_by (fun a b => sol_id a ?= sol_id b) solutions in
  mkProposal height (signer_id sk) aggs solutions
    (sign_hash_sync sk (keccak256 (pr_serialize height (signer_id sk) aggs solutions))).

Definition pr_payload (p : Proposal) : Bytes :=
  pr_serialize (pr_block_height p) (pr_source p) (pr_preproposals p) (pr_solutions p).

Definition pr_is_valid (p : Proposal) (height : Z) (two_thirds : nat) : bool :=
  if negb (forallb (fun a => ppa_is_valid a height two_thirds) (pr_preproposals p)) then false else
  match recover_peer_id (pr_signature p) (keccak256 (pr_payload p)) with
  | None => false
  | Some source => source =? pr_source p
  end.

(** [unique_by] keeps the first element of each key. *)
Fixpoint unique_by {A} (key : A -> Z) (seen : list Z) (l : list A) : list A :=
  match l with
  | [] => []
  | x :: l => if decide (key x ∈ seen) then unique_by key seen l else x :: unique_by key (key x :: seen) l
  end.

Definition flattened_pre_proposals (p : Proposal) : list PreProposal :=
  unique_by pp_source [] (flat_map ppa_pre_proposals (pr_preproposals p)).

End Messages.

(** ** Lemmas *)

Lemma set_insert_elem {A} `{EqDecision A} (x y : A) l : y ∈ set_insert x l <-> y = x \/ y ∈ l.
Proof.
  unfold set_insert. destruct (decide (x ∈ l)); [naive_solver |].
  rewrite elem_of_app, list_elem_of_singleton. naive_solver.
Qed.

Lemma set_insert_NoDup {A} `{EqDecision A} (x : A) l : NoDup l -> NoDup (set_insert x l).
Proof.
  intros H. unfold set_insert. destruct (decide (x ∈ l)); [done |]. apply NoDup_app. split_and!; [done | | apply NoDup_singleton].
  intros y Hy ->%list_elem_of_singleton. done.
Qed.

Lemma unique_by_spec {A} (key : A -> Z) seen l :
  NoDup (map key (unique_by key seen l)) /\
  (forall x, x ∈ unique_by key seen l -> x ∈ l /\ key x ∉ seen) /\
  (forall x, x ∈ l -> key x ∉ seen -> exists y, y ∈ unique_by key seen l /\ key y = key x).
Proof.
  revert seen. induction l as [| x l IH]; intros seen; cbn.
  - split_and!; [constructor | by intros x ?%not_elem_of_nil | by intros x ?%not_elem_of_nil].
  - destruct (decide (key x ∈ seen)) as [Hx | Hx].
    + destruct (IH seen) as (H1 & H2 & H3). split_and!; [done | |].
      * intros y Hy. destruct (H2 y Hy). split; [by apply list_elem_of_further | done].
      * intros y [-> | Hy]%elem_of_cons Hs; [done | by apply H3].
    + destruct (IH (key x :: seen)) as (H1 & H2 & H3). split_and!.
      * cbn. apply NoDup_cons. split; [| done]. intros (y & Ey & Hy)%list_elem_of_fmap.
        destruct (H2 y Hy) as [_ Hn]. apply Hn. rewrite <- Ey. apply list_elem_of_here.
      * intros y [-> | Hy]%elem_of_cons; [split; [apply list_elem_of_here | done] |].
        destruct (H2 y Hy) as [Hl Hn]. split; [by apply list_elem_of_further |].
        intros Hs. apply Hn. by apply list_elem_of_further.
      * intros y Hy Hs. destruct (decide (key y = key x)) as [E | E].
        -- exists x. split; [apply list_elem_of_here | done].
        -- apply elem_of_cons in Hy as [-> | Hy]; [done |].
           destruct (H3 y Hy) as (z & Hz & Ez); [by intros [? | ?]%elem_of_cons |].
           exists z. split; [by apply list_elem_of_further | done].
Qed.

Section Valid.
Context {K : SigningKey} {L : SigningLaws K} {B : Bincode} {C : OrderCrypto}.

Lemma generated_pre_proposal_valid h sk limit searcher h' :
  pp_is_valid (generate_pre_proposal h sk limit searcher) h' = (h =? h').
Proof.
  unfold pp_is_valid, generate_pre_proposal, sign_payload, pp_payload. cbn. rewrite recover_signed, Z.eqb_refl. done.
Qed.

Lemma generated_aggregation_valid h sk pps n :
  ppa_is_valid (PreProposalAggregation_new h sk pps) h n =
  forallb (fun p => pp_is_valid p h) pps && (n <=? length pps)%nat.
Proof.
  unfold ppa_is_valid, PreProposalAggregation_new, sign_payload, ppa_payload. cbn -[Nat.ltb Nat.leb].
  rewrite recover_signed, Z.eqb_refl. destruct (forallb _ pps); [| done]. cbn -[Nat.ltb Nat.leb].
  by destruct (Nat.ltb_spec (length pps) n), (Nat.leb_spec n (length pps)); try lia.
Qed.

Lemma generated_proposal_valid h sk aggs sols n :
  pr_is_valid (generate_proposal h sk aggs sols) h n = forallb (fun a => ppa_is_valid a h n) aggs.
Proof.
  unfold pr_is_valid, generate_proposal, pr_payload. cbn. rewrite recover_signed, Z.eqb_refl.
  by destruct (forallb _ aggs).
Qed.

End Valid.
