(* ===== verification/Rounds.v ===== *)
(** * Consensus rounds

    crates/consensus/src/rounds and manager.rs: the state machine of one block's
    round (bid aggregation, pre-proposal, aggregation, proposal or finalization),
    the checks on messages of other validators, and the manager that resets the
    round at a new block.

    A hash set is a list without duplicates.  Timers and futures are inputs of
    [poll_transition] ([PollInput]): whether the wait has passed, whether the
    matching engine has answered, whether the submission has landed.  The matching
    engine and the bundle encoder are the interface [RoundEnv]; the wait estimate's
    sigmoid uses floating point and is an argument of the definitions that use it. *)

From S2P Require Import Prelude Uniswap Ray LeaderSelection Orders OrderPool BlockSync ConsensusMessages.

(** ** When to start (preproposal_wait_trigger.rs), in nanoseconds *)

Definition DEFAULT_DURATION : Z := 9 * 10 ^ 9.
Definition ORDER_SCALING : Z := 10 * 10 ^ 6.
Definition TARGET_SUBMISSION_TIME_REM : Z := 800 * 10 ^ 6.
Definition ROUND_ETH_BLOCK_TIME : Z := 12 * 10 ^ 9.
Definition SCALING_REM_ADJUSTMENT : Z := 3.

Definition PreProposalWaitTrigger_new (jitter_ms : Z) : Z := DEFAULT_DURATION + jitter_ms * 10 ^ 6.

Definition reset_before_submission (wait : Z) : Z := saturating_sub wait TARGET_SUBMISSION_TIME_REM.

(** The estimate before it is clamped. *)
Definition adjust_wait (wait time_to_complete : Z) : Z :=
  let base := ROUND_ETH_BLOCK_TIME - TARGET_SUBMISSION_TIME_REM in
  let delta := if time_to_complete <? base then (base - time_to_complete) / SCALING_REM_ADJUSTMENT
               else (time_to_complete - base) * SCALING_REM_ADJUSTMENT in
  if wait <? base then wait + delta else saturating_sub wait delta.

Definition update_wait_duration_base (sigmoid_clamp : Z -> Z) (wait time_to_complete : Z) : Z :=
  sigmoid_clamp (adjust_wait wait time_to_complete).

Definition update_for_new_round (sigmoid_clamp : Z -> Z) (wait : Z) (info : option Z) : Z :=
  match info with Some t => update_wait_duration_base sigmoid_clamp wait t | None => wait end.

Definition wait_over (wait elapsed total_orders : Z) : bool :=
  saturating_sub wait (ORDER_SCALING * total_orders) <? elapsed.

(** ** Messages *)

Inductive StromConsensusEvent {K : SigningKey} :=
| EventPreProposal (peer : Address) (p : PreProposal)
| EventPreProposalAgg (peer : Address) (a : PreProposalAggregation)
| EventProposal (peer : Address) (p : Proposal)
| EventBundleUnlockAttestation (peer : Address) (block : Z) (bytes : Bytes).

Definition event_block_height {K : SigningKey} (e : StromConsensusEvent) : Z :=
  match e with
  | EventPreProposal _ p => pp_block_height p
  | EventPreProposalAgg _ a => ppa_block_height a
  | EventProposal _ p => pr_block_height p
  | EventBundleUnlockAttestation _ block _ => block
  end.

Inductive ConsensusMessage {K : SigningKey} :=
| PropagatePreProposal (p : PreProposal)
| PropagatePreProposalAgg (a : PreProposalAggregation)
| PropagateProposal (p : Proposal)
| PropagateEmptyBlockAttestation (bytes : Bytes).

(** ** Attestations of an empty block (rpc_orders.rs) *)

(** The EIP-712 hash of the attestation struct and the PADE encoding of a
    signature, both from libraries. *)
Class AttestationCodec {K : SigningKey} := {
  attestation_hash : Z -> B256;
  pade_encode_sig : ConsensusSignature -> Bytes;
  pade_decode_sig : Bytes -> option ConsensusSignature;
  recover_signer_address : ConsensusSignature -> B256 -> option Address;
}.

Class AttestationLaws {K : SigningKey} (A : AttestationCodec) := {
  pade_sig_length : forall s, length (pade_encode_sig s) = 65%nat;
  pade_sig_roundtrip : forall s, pade_decode_sig (pade_encode_sig s) = Some s;
  recover_signed_address : forall sk h, recover_signer_address (sign_hash_sync sk h) h = Some (signer_address sk);
}.

Section Attestation.
Context {K : SigningKey} {A : AttestationCodec}.

Definition sign_and_encode (target_block : Z) (sk : AngstromSigner) : Bytes :=
  be_bytes 20 (signer_address sk) ++ pade_encode_sig (sign_hash_sync sk (attestation_hash target_block)).

Definition is_valid_attestation (target_block : Z) (bytes : Bytes) : bool :=
  if negb (length bytes =? 85)%nat then false else
  match pade_decode_sig (drop 20 bytes) with
  | None => false
  | Some sig =>
      match recover_signer_address sig (attestation_hash target_block) with
      | None => false
      | Some addr => of_be_bytes (take 20 bytes) =? addr
      end
  end.

End Attestation.

(** ** The round *)

(** What the round calls: the matching engine and the bundle encoder, both on the pool
    snapshots taken at the call.  Both can return an error and both can panic, the
    engine when its task is gone and the encoder inside the poll. *)
Class RoundEnv {K : SigningKey} := {
  Snapshots : Type;
  solve_pools : list (OrderWithStorageData AllOrders) -> list (OrderWithStorageData TopOfBlockOrder) ->
    Snapshots -> M (list PoolSolution);
  encode_bundle : Proposal -> Snapshots -> M unit;
}.

Section Rounds.
Context {P : Profile} {E : OrderEnv} {K : SigningKey} {B : Bincode} {A : AttestationCodec} {R : RoundEnv}.
Context (sigmoid_clamp : Z -> Z).

Record SharedRoundState := mkSharedRoundState {
  rs_block_height : Z;
  rs_signer : AngstromSigner;
  rs_round_leader : Address;
  rs_validators : list AngstromValidator;
  rs_order_storage : OrderStorage;
  rs_snapshots : Snapshots;
  rs_messages : list ConsensusMessage;
}.

Definition push_message (h : SharedRoundState) (m : ConsensusMessage) : SharedRoundState :=
  mkSharedRoundState (rs_block_height h) (rs_signer h) (rs_round_leader h) (rs_validators h)
    (rs_order_storage h) (rs_snapshots h) (rs_messages h ++ [m]).

Definition i_am_leader (h : SharedRoundState) : bool := rs_round_leader h =? signer_address (rs_signer h).

Definition two_thirds_of_validation_set (h : SharedRoundState) : nat :=
  Z.to_nat (div_ceil (2 * Z.of_nat (length (rs_validators h))) 3).

(** Counting with a hash map, then keeping the keys with enough occurrences. *)
Definition filter_quorum_orders {O} `{EqDecision O} (h : SharedRoundState)
    (input : list (OrderWithStorageData O)) : list (OrderWithStorageData O) :=
  List.filter (fun o => (two_thirds_of_validation_set h <=? length (filter (.= o) input))%nat)
    (fold_left (fun acc o => set_insert o acc) input []).

Record MatchingFuture := mkMatchingFuture {
  mf_limit : list (OrderWithStorageData AllOrders);
  mf_searcher : list (OrderWithStorageData TopOfBlockOrder);
  mf_snapshots : Snapshots;
}.

Definition matching_engine_output (h : SharedRoundState) (aggs : list PreProposalAggregation) : MatchingFuture :=
  let pps := flat_map ppa_pre_proposals aggs in
  mkMatchingFuture (filter_quorum_orders h (flat_map pp_limit pps))
    (filter_quorum_orders h (flat_map pp_searcher pps)) (rs_snapshots h).

Definition matching_result (f : MatchingFuture) : M (list PoolSolution) :=
  solve_pools (mf_limit f) (mf_searcher f) (mf_snapshots f).

Definition handle_proposal_verification {Pro} `{EqDecision Pro} (h : SharedRoundState) (peer : Address)
    (proposal : Pro) (set : list Pro) (valid : Pro -> Z -> bool) (into : Pro -> ConsensusMessage) :
    list Pro * SharedRoundState :=
  if negb (bool_decide (peer ∈ map peer_id (rs_validators h))) then (set, h) else
  if negb (valid proposal (rs_block_height h)) then (set, h) else
  if decide (proposal ∈ set) then (set, h)
  else (set_insert proposal set, push_message h (into proposal)).

Definition handle_pre_proposal_aggregation (h : SharedRoundState) (peer : Address)
    (agg : PreProposalAggregation) (set : list PreProposalAggregation) :
    list PreProposalAggregation * SharedRoundState :=
  handle_proposal_verification h peer agg set
    (fun a block => ppa_is_valid a block (two_thirds_of_validation_set h)) PropagatePreProposalAgg.

Definition handle_pre_proposal (h : SharedRoundState) (peer : Address) (p : PreProposal)
    (set : list PreProposal) : list PreProposal * SharedRoundState :=
  handle_proposal_verification h peer p set pp_is_valid PropagatePreProposal.

Definition verify_proposal (h : SharedRoundState) (peer : Address) (p : Proposal) :
    option Proposal * SharedRoundState :=
  if negb (rs_round_leader h =? peer) then (None, h) else
  if pr_is_valid p (rs_block_height h) (two_thirds_of_validation_set h)
  then (Some p, push_message h (PropagateProposal p)) else (None, h).

Inductive ConsensusState :=
| BidAggregationState (received : list PreProposal) (aggs : list PreProposalAggregation)
    (proposal : option Proposal)
| PreProposalState (pre_proposals : list PreProposal) (aggs : list PreProposalAggregation)
    (proposal : option Proposal)
| PreProposalAggregationState (aggs : list PreProposalAggregation) (proposal : option Proposal)
| ProposalState (matching : option MatchingFuture) (submission : bool)
    (aggs : list PreProposalAggregation) (proposal : option Proposal) (last_round_info : option Z)
| FinalizationState (proposal : Proposal) (verification : MatchingFuture) (completed : bool).

Definition last_round_info (s : ConsensusState) : option Z :=
  match s with ProposalState _ _ _ _ info => info | _ => None end.

(** *** Constructors of the states *)

Definition PreProposalState_new (pps : list PreProposal) (aggs : list PreProposalAggregation)
    (h : SharedRoundState) : M (ConsensusState * SharedRoundState) :=
  let* orders := storage_all_orders (rs_order_storage h) in
  let my_preproposal := PreProposal_new (rs_block_height h) (rs_signer h) orders in
  let h := push_message h (PropagatePreProposal my_preproposal) in
  Ok (PreProposalState (set_insert my_preproposal pps) aggs None, h).

Definition PreProposalAggregationState_new (pps : list PreProposal) (aggs : list PreProposalAggregation)
    (h : SharedRoundState) : ConsensusState * SharedRoundState :=
  let mine := PreProposalAggregation_new (rs_block_height h) (rs_signer h) pps in
  (PreProposalAggregationState (set_insert mine aggs) None, push_message h (PropagatePreProposalAgg mine)).

Definition ProposalState_new (aggs : list PreProposalAggregation) (h : SharedRoundState) : ConsensusState :=
  ProposalState (Some (matching_engine_output h aggs)) false aggs None None.

Definition FinalizationState_new (p : Proposal) (h : SharedRoundState) : ConsensusState :=
  FinalizationState p
    (matching_engine_output h (fold_left (fun acc a => set_insert a acc) (pr_preproposals p) [])) false.

(** The closure run when the matching engine has answered: both lists are sorted by
    pool and compared pairwise. *)
Definition verify_solutions (p : Proposal) (f : MatchingFuture) : M bool :=
  match matching_result f with
  | Panic => Panic
  | Err _ => Ok false
  | Ok solution =>
      Ok (forallb (fun x => bool_decide (x.1 = x.2))
            (zip (sort_by solution_cmp (pr_solutions p)) (sort_by solution_cmp solution)))
  end.

(** *** Messages in each state *)

Definition bid_on_message (pps : list PreProposal) (aggs : list PreProposalAggregation) (pr : option Proposal)
    (h : SharedRoundState) (e : StromConsensusEvent) : ConsensusState * SharedRoundState :=
  match e with
  | EventPreProposal peer p =>
      let (pps, h) := handle_pre_proposal h peer p pps in (BidAggregationState pps aggs pr, h)
  | EventPreProposalAgg peer a =>
      let (aggs, h) := handle_pre_proposal_aggregation h peer a aggs in (BidAggregationState pps aggs pr, h)
  | EventProposal peer p =>
      match verify_proposal h peer p with
      | (Some p, h) => (BidAggregationState pps aggs (Some p), h)
      | (None, h) => (BidAggregationState pps aggs pr, h)
      end
  | _ => (BidAggregationState pps aggs pr, h)
  end.

Definition pre_proposal_on_message (pps : list PreProposal) (aggs : list PreProposalAggregation)
    (pr : option Proposal) (h : SharedRoundState) (e : StromConsensusEvent) :
    ConsensusState * SharedRoundState :=
  match e with
  | EventPreProposal peer p =>
      let (pps, h) := handle_pre_proposal h peer p pps in (PreProposalState pps aggs pr, h)
  | EventPreProposalAgg peer a =>
      let (aggs, h) := handle_pre_proposal_aggregation h peer a aggs in (PreProposalState pps aggs pr, h)
  | EventProposal peer p =>
      match verify_proposal h peer p with
      | (Some p, h) => (PreProposalState pps aggs (Some p), h)
      | (None, h) => (PreProposalState pps aggs pr, h)
      end
  | _ => (PreProposalState pps aggs pr, h)
  end.

Definition aggregation_on_message (aggs : list PreProposalAggregation) (pr : option Proposal)
    (h : SharedRoundState) (e : StromConsensusEvent) : ConsensusState * SharedRoundState :=
  match e with
  | EventPreProposalAgg peer a =>
      let (aggs, h) := handle_pre_proposal_aggregation h peer a aggs in
      (PreProposalAggregationState aggs pr, h)
  | EventProposal peer p =>
      match verify_proposal h peer p with
      | (Some p, h) => (PreProposalAggregationState aggs (Some p), h)
      | (None, h) => (PreProposalAggregationState aggs pr, h)
      end
  | _ => (PreProposalAggregationState aggs pr, h)
  end.

(** The last two states ignore messages. *)
Definition on_consensus_message (s : ConsensusState) (h : SharedRoundState) (e : StromConsensusEvent) :
    ConsensusState * SharedRoundState :=
  match s with
  | BidAggregationState pps aggs pr => bid_on_message pps aggs pr h e
  | PreProposalState pps aggs pr => pre_proposal_on_message pps aggs pr h e
  | PreProposalAggregationState aggs pr => aggregation_on_message aggs pr h e
  | ProposalState _ _ _ _ _ | FinalizationState _ _ _ => (s, h)
  end.

(** *** Polling *)

Record PollInput := mkPollInput {
  wait_ready : bool;
  matching_ready : bool;
  submission_ready : option bool;
  elapsed : Z;
}.

Inductive PollTransition := TPending | TReady (next : option ConsensusState).

(** [try_build_proposal]: the state it leaves, and whether to go on. *)
Definition try_build_proposal (f : MatchingFuture) (sub : bool) (aggs : list PreProposalAggregation) (t : Z)
    (pr : option Proposal) (h : SharedRoundState) : M (bool * ConsensusState * SharedRoundState) :=
  let* target_block := checked_u 64 (rs_block_height h + 1) in
  match matching_result f with
  | Panic => Panic
  | Err _ => Ok (false, ProposalState None sub aggs pr (Some t), h)
  | Ok solution =>
      let proposal := generate_proposal (rs_block_height h) (rs_signer h) aggs solution in
      let built h := Ok (true, ProposalState None true aggs (Some proposal) (Some t), h) in
      match encode_bundle proposal (rs_snapshots h) with
      | Panic => Panic
      | Ok _ => built h
      | Err _ => built (push_message h (PropagateEmptyBlockAttestation (sign_and_encode target_block (rs_signer h))))
      end
  end.

(** The second half of the poll: the submission. *)
Definition poll_submission (s : ConsensusState) (h : SharedRoundState) (i : PollInput) :
    M (PollTransition * ConsensusState * SharedRoundState) :=
  match s with
  | ProposalState m true aggs pr info =>
      match submission_ready i with
      | None => Ok (TPending, s, h)
      | Some landed =>
          if landed then
            let* p := unwrap pr in
            Ok (TReady None, ProposalState m false aggs None info, push_message h (PropagateProposal p))
          else Ok (TReady None, ProposalState m false aggs pr info, h)
      end
  | _ => Ok (TPending, s, h)
  end.

Definition poll_bid (pps : list PreProposal) (aggs : list PreProposalAggregation) (pr : option Proposal)
    (h : SharedRoundState) (i : PollInput) : M (PollTransition * ConsensusState * SharedRoundState) :=
  match pr with
  | Some p => Ok (TReady (Some (FinalizationState_new p h)), BidAggregationState pps aggs None, h)
  | None =>
      if wait_ready i then
        let* (next, h) := PreProposalState_new pps aggs h in
        Ok (TReady (Some next), BidAggregationState [] [] None, h)
      else Ok (TPending, BidAggregationState pps aggs pr, h)
  end.

Definition poll_pre_proposal (pps : list PreProposal) (aggs : list PreProposalAggregation)
    (pr : option Proposal) (h : SharedRoundState) : M (PollTransition * ConsensusState * SharedRoundState) :=
  match pr with
  | Some p => Ok (TReady (Some (FinalizationState_new p h)), PreProposalState pps aggs None, h)
  | None =>
      if (two_thirds_of_validation_set h <=? length pps)%nat then
        let (next, h) := PreProposalAggregationState_new pps aggs h in
        Ok (TReady (Some next), PreProposalState [] [] None, h)
      else Ok (TPending, PreProposalState pps aggs pr, h)
  end.

Definition poll_aggregation (aggs : list PreProposalAggregation) (pr : option Proposal)
    (h : SharedRoundState) : M (PollTransition * ConsensusState * SharedRoundState) :=
  match pr with
  | Some p => Ok (TReady (Some (FinalizationState_new p h)), PreProposalAggregationState aggs None, h)
  | None =>
      if (two_thirds_of_validation_set h <=? length aggs)%nat && i_am_leader h then
        Ok (TReady (Some (ProposalState_new aggs h)), PreProposalAggregationState [] None, h)
      else Ok (TPending, PreProposalAggregationState aggs pr, h)
  end.

Definition poll_proposal (m : option MatchingFuture) (sub : bool) (aggs : list PreProposalAggregation)
    (pr : option Proposal) (info : option Z) (h : SharedRoundState) (i : PollInput) :
    M (PollTransition * ConsensusState * SharedRoundState) :=
  match m with
  | Some f =>
      if matching_ready i then
        let* (go, s, h) := try_build_proposal f sub aggs (elapsed i) pr h in
        if (go : bool) then poll_submission s h i else Ok (TReady None, s, h)
      else poll_submission (ProposalState m sub aggs pr info) h i
  | None => poll_submission (ProposalState m sub aggs pr info) h i
  end.

Definition poll_finalization (p : Proposal) (f : MatchingFuture) (completed : bool) (h : SharedRoundState)
    (i : PollInput) : M (PollTransition * ConsensusState * SharedRoundState) :=
  if completed then Ok (TReady None, FinalizationState p f completed, h)
  else if matching_ready i then
    let* _result := verify_solutions p f in
    Ok (TReady None, FinalizationState p f true, h)
  else Ok (TPending, FinalizationState p f completed, h).

Definition poll_transition (s : ConsensusState) (h : SharedRoundState) (i : PollInput) :
    M (PollTransition * ConsensusState * SharedRoundState) :=
  match s with
  | BidAggregationState pps aggs pr => poll_bid pps aggs pr h i
  | PreProposalState pps aggs pr => poll_pre_proposal pps aggs pr h
  | PreProposalAggregationState aggs pr => poll_aggregation aggs pr h
  | ProposalState m sub aggs pr info => poll_proposal m sub aggs pr info h i
  | FinalizationState p f completed => poll_finalization p f completed h i
  end.

(** *** The machine *)

Record RoundStateMachine := mkRoundStateMachine {
  current_state : ConsensusState;
  consensus_wait_duration : Z;
  shared_state : SharedRoundState;
}.

Definition RoundStateMachine_new (h : SharedRoundState) (jitter_ms : Z) : RoundStateMachine :=
  mkRoundStateMachine (BidAggregationState [] [] None) (PreProposalWaitTrigger_new jitter_ms) h.

Definition current_leader (m : RoundStateMachine) : Address := rs_round_leader (shared_state m).

Definition with_round (h : SharedRoundState) (block leader : Z) : SharedRoundState :=
  mkSharedRoundState block (rs_signer h) leader (rs_validators h) (rs_order_storage h) (rs_snapshots h)
    (rs_messages h).

Definition reset_round (m : RoundStateMachine) (new_block : Z) (new_leader : Address) : RoundStateMachine :=
  let info := last_round_info (current_state m) in
  let wait := match info with
              | None => if i_am_leader (shared_state m)
                        then reset_before_submission (consensus_wait_duration m)
                        else consensus_wait_duration m
              | Some _ => consensus_wait_duration m
              end in
  mkRoundStateMachine (BidAggregationState [] [] None) (update_for_new_round sigmoid_clamp wait info)
    (with_round (shared_state m) new_block new_leader).

Definition handle_message (m : RoundStateMachine) (e : StromConsensusEvent) : RoundStateMachine :=
  let (s, h) := on_consensus_message (current_state m) (shared_state m) e in
  mkRoundStateMachine s (consensus_wait_duration m) h.

(** One poll makes at most one transition and yields at most one message. *)
Definition round_poll_next (m : RoundStateMachine) (i : PollInput) :
    M (option ConsensusMessage * RoundStateMachine) :=
  let* (t, s, h) := poll_transition (current_state m) (shared_state m) i in
  let s := match t with TReady (Some next) => next | _ => s end in
  match rs_messages h with
  | [] => Ok (None, mkRoundStateMachine s (consensus_wait_duration m) h)
  | msg :: rest =>
      Ok (Some msg, mkRoundStateMachine s (consensus_wait_duration m)
                      (mkSharedRoundState (rs_block_height h) (rs_signer h) (rs_round_leader h) (rs_validators h)
                         (rs_order_storage h) (rs_snapshots h) rest))
  end.

End Rounds.

(** ** Lemmas *)

Lemma set_fold_elem {A} `{EqDecision A} (l acc : list A) x :
  x ∈ fold_left (fun acc a => set_insert a acc) l acc <-> x ∈ acc \/ x ∈ l.
Proof.
  revert acc. induction l as [| a l IH]; intros acc; cbn.
  - split; [by left | intros [? | ?%not_elem_of_nil]; done].
  - rewrite IH, set_insert_elem, elem_of_cons. tauto.
Qed.

Lemma set_fold_NoDup {A} `{EqDecision A} (l acc : list A) :
  NoDup acc -> NoDup (fold_left (fun acc a => set_insert a acc) l acc).
Proof.
  revert acc. induction l as [| a l IH]; intros acc H; cbn; [done |]. by apply IH, set_insert_NoDup.
Qed.

Lemma two_thirds_pos {K : SigningKey} {R : RoundEnv} h :
  rs_validators h <> [] -> (1 <= two_thirds_of_validation_set h)%nat.
Proof.
  intros H. unfold two_thirds_of_validation_set, div_ceil.
  destruct (rs_validators h) as [| v l]; [done |]. cbn [length].
  assert (1 <= (2 * Z.of_nat (S (length l)) + 3 - 1) / 3) by (apply Z.div_le_lower_bound; lia). lia.
Qed.

(** An attestation passes the check of every node, whoever signs it. *)
Lemma attestation_roundtrip {K : SigningKey} {A : AttestationCodec} {L : AttestationLaws A} block sk :
  0 <= signer_address sk < 2 ^ 160 -> is_valid_attestation block (sign_and_encode block sk) = true.
Proof.
  intros Ha. unfold is_valid_attestation, sign_and_encode.
  rewrite length_app, be_bytes_length, pade_sig_length. cbn [Nat.add Nat.eqb negb].
  rewrite take_app_length', drop_app_length' by (symmetry; apply be_bytes_length).
  rewrite pade_sig_roundtrip, recover_signed_address, of_be_bytes_be; [apply Z.eqb_refl |].
  exact Ha.
Qed.

Section RoundLemmas.
Context {P : Profile} {E : OrderEnv} {K : SigningKey} {L : SigningLaws K} {B : Bincode}
  {A : AttestationCodec} {R : RoundEnv}.
Context (sigmoid_clamp : Z -> Z).

(** *** The invariant *)

Definition pp_ok (h : SharedRoundState) (pps : list PreProposal) : Prop :=
  NoDup pps /\ Forall (fun p => pp_is_valid p (rs_block_height h) = true) pps.
Definition agg_ok (h : SharedRoundState) (aggs : list PreProposalAggregation) : Prop :=
  NoDup aggs /\
  Forall (fun a => ppa_is_valid a (rs_block_height h) (two_thirds_of_validation_set h) = true) aggs.
Definition prop_ok (h : SharedRoundState) (p : Proposal) : Prop :=
  pr_is_valid p (rs_block_height h) (two_thirds_of_validation_set h) = true.

Definition state_ok (s : ConsensusState) (h : SharedRoundState) : Prop :=
  match s with
  | BidAggregationState pps aggs pr | PreProposalState pps aggs pr =>
      pp_ok h pps /\ agg_ok h aggs /\ from_option (prop_ok h) True pr
  | PreProposalAggregationState aggs pr => agg_ok h aggs /\ from_option (prop_ok h) True pr
  | ProposalState m sub aggs pr info =>
      i_am_leader h = true /\ (two_thirds_of_validation_set h <= length aggs)%nat /\ agg_ok h aggs /\
      (sub = true -> is_Some pr) /\ from_option (prop_ok h) True pr
  | FinalizationState p _ _ => prop_ok h p
  end.

(** What the checks read of the shared state. *)
Definition same_round (h h' : SharedRoundState) : Prop :=
  rs_block_height h' = rs_block_height h /\ rs_validators h' = rs_validators h /\
  rs_round_leader h' = rs_round_leader h /\ rs_signer h' = rs_signer h.

Lemma same_round_state_ok s h h' : same_round h h' -> state_ok s h -> state_ok s h'.
Proof.
  intros (E1 & E2 & E3 & E4).
  assert (Et : two_thirds_of_validation_set h' = two_thirds_of_validation_set h)
    by (unfold two_thirds_of_validation_set; by rewrite E2).
  destruct s; unfold state_ok, pp_ok, agg_ok, prop_ok, i_am_leader; rewrite ?E1, ?E3, ?E4, ?Et; done.
Qed.

Lemma verification_ok {Pro} `{EqDecision Pro} h peer (x : Pro) set valid into set' h' :
  handle_proposal_verification h peer x set valid into = (set', h') ->
  NoDup set -> Forall (fun y => valid y (rs_block_height h) = true) set ->
  same_round h h' /\ NoDup set' /\ Forall (fun y => valid y (rs_block_height h) = true) set'.
Proof.
  unfold handle_proposal_verification. intros H Hn Hf.
  destruct (negb _); [by injection H as <- <- |].
  destruct (valid x (rs_block_height h)) eqn:Ev; cbn in H; [| by injection H as <- <-].
  destruct (decide (x ∈ set)); injection H as <- <-; [done |].
  split_and!; [done | by apply set_insert_NoDup |].
  apply Forall_forall. intros y [-> | Hy]%set_insert_elem; [done | by apply (proj1 (Forall_forall _ _) Hf)].
Qed.

Lemma verify_proposal_ok h peer p r h' :
  verify_proposal h peer p = (r, h') -> same_round h h' /\ from_option (prop_ok h) True r.
Proof.
  unfold verify_proposal. destruct (negb _); [by intros [= <- <-] |].
  destruct (pr_is_valid _ _ _) eqn:Ev; by intros [= <- <-].
Qed.

Lemma message_ok s h e s' h' :
  state_ok s h -> on_consensus_message s h e = (s', h') -> state_ok s' h' /\ same_round h h'.
Proof.
  intros Hs H.
  assert (Hself : (s, h) = (s', h') -> state_ok s' h' /\ same_round h h') by (by intros [= <- <-]).
  destruct s as [pps aggs pr | pps aggs pr | aggs pr | m sub aggs pr info | p f c];
    unfold on_consensus_message, bid_on_message, pre_proposal_on_message, aggregation_on_message in H;
    [| | | by apply Hself | by apply Hself].
  1, 2: destruct Hs as ([Hn Hf] & [Hn2 Hf2] & Hp); destruct e as [peer p | peer a | peer p | peer b by_];
    [| | | by apply Hself].
  1, 4: destruct (handle_pre_proposal _ _ _ _) as [pps' h1] eqn:Ev; injection H as <- <-;
    apply verification_ok in Ev as (Hsr & ? & ?); [| done | done]; split; [| done];
    by apply (same_round_state_ok _ _ _ Hsr).
  1, 3: destruct (handle_pre_proposal_aggregation _ _ _ _) as [aggs' h1] eqn:Ev; injection H as <- <-;
    apply verification_ok in Ev as (Hsr & ? & ?); [| done | done]; split; [| done];
    by apply (same_round_state_ok _ _ _ Hsr).
  1, 2: destruct (verify_proposal _ _ _) as [[q |] h1] eqn:Ev; injection H as <- <-;
    apply verify_proposal_ok in Ev as [Hsr Hq]; (split; [| done]); by apply (same_round_state_ok _ _ _ Hsr).
  destruct Hs as ([Hn2 Hf2] & Hp); destruct e as [peer p | peer a | peer p | peer b by_];
    [by apply Hself | | | by apply Hself].
  - destruct (handle_pre_proposal_aggregation _ _ _ _) as [aggs' h1] eqn:Ev; injection H as <- <-.
    apply verification_ok in Ev as (Hsr & ? & ?); [| done | done]. split; [| done].
    by apply (same_round_state_ok _ _ _ Hsr).
  - destruct (verify_proposal _ _ _) as [[q |] h1] eqn:Ev; injection H as <- <-;
      apply verify_proposal_ok in Ev as [Hsr Hq]; (split; [| done]); by apply (same_round_state_ok _ _ _ Hsr).
Qed.

Lemma submission_ok s h i t s' h' :
  state_ok s h -> poll_submission s h i = Ok (t, s', h') ->
  state_ok s' h' /\ same_round h h' /\ (t = TPending \/ t = TReady None).
Proof.
  intros Hs H. unfold poll_submission in H.
  destruct s as [| | | m [|] aggs pr info |]; try (injection H as <- <- <-; split_and!; [done | done | by left]).
  destruct (submission_ready i) as [landed |]; [| injection H as <- <- <-; split_and!; [done | done | by left]].
  destruct Hs as (H1 & H2 & H3 & H4 & H5). destruct landed.
  - apply M_bind_Ok in H as (p & Ep & H). injection H as <- <- <-. by split_and!; [| | right].
  - injection H as <- <- <-. by split_and!; [| | right].
Qed.

Lemma build_ok f aggs t pr h m0 sub info go s' h' :
  state_ok (ProposalState m0 sub aggs pr info) h ->
  try_build_proposal f sub aggs t pr h = Ok (go, s', h') -> state_ok s' h' /\ same_round h h'.
Proof.
  intros (H1 & H2 & H3 & H4 & H5) H. unfold try_build_proposal in H.
  apply M_bind_Ok in H as (tb & _ & H). destruct (matching_result f) as [sol | |]; [| by injection H as <- <- <- | done].
  - set (proposal := generate_proposal _ _ _ _) in H.
    assert (Hh : exists h1, (go, s', h') = (true, ProposalState None true aggs (Some proposal) (Some t), h1) /\ same_round h h1)
      by (destruct (encode_bundle _ _); [injection H as <- <- <-; by eexists .. | done]).
    clear H. destruct Hh as (h1 & [= -> -> ->] & Hsr). split; [| done]. apply (same_round_state_ok _ _ _ Hsr). split_and!; [done.. | eauto |].
    cbn. unfold prop_ok, proposal. rewrite generated_proposal_valid. apply forallb_forall.
    intros a Ha%list_elem_of_In. by apply (proj1 (Forall_forall _ _) (proj2 H3)).
Qed.

Lemma poll_ok s h i t s' h' :
  state_ok s h -> poll_transition s h i = Ok (t, s', h') ->
  state_ok s' h' /\ same_round h h' /\ (forall next, t = TReady (Some next) -> state_ok next h').
Proof.
  intros Hs H. unfold poll_transition, poll_bid, poll_pre_proposal, poll_aggregation, poll_proposal, poll_finalization in H. destruct s as [pps aggs [p |] | pps aggs [p |] | aggs [p |] | [f |] sub aggs pr info | p f c].
  - injection H as <- <- <-. destruct Hs as (H1 & H2 & H3). split_and!; [done | done |]. by intros next [= <-].
  - destruct Hs as (H1 & H2 & H3). destruct (wait_ready i); [| by injection H as <- <- <-].
    apply M_bind_Ok in H as ([next h1] & Hn & H). injection H as <- <- <-.
    unfold PreProposalState_new in Hn. apply M_bind_Ok in Hn as (orders & _ & Hn). injection Hn as <- <-.
    split_and!; [split_and!; [split; [constructor | done] | split; [constructor | done] | done] | done |].
    intros next [= <-]. split_and!; [| done | done]. destruct H1 as [Hd Hf].
    split; [by apply set_insert_NoDup |]. apply Forall_forall. intros y [-> | Hy]%set_insert_elem.
    + unfold PreProposal_new. rewrite generated_pre_proposal_valid. apply Z.eqb_refl.
    + by apply (proj1 (Forall_forall _ _) Hf).
  - injection H as <- <- <-. destruct Hs as (H1 & H2 & H3). split_and!; [done | done |]. by intros next [= <-].
  - destruct Hs as (H1 & H2 & H3). destruct (Nat.leb_spec (two_thirds_of_validation_set h) (length pps)) as [Hq | Hq];
      [| by injection H as <- <- <-].
    cbn in H. injection H as <- <- <-.
    split_and!; [split_and!; [split; [constructor | done] | split; [constructor | done] | done] | done |].
    intros next [= <-]. split; [| done]. destruct H2 as [Hd Hf].
    split; [by apply set_insert_NoDup |]. apply Forall_forall. intros y [-> | Hy]%set_insert_elem.
    + cbn. rewrite generated_aggregation_valid. apply andb_true_iff. split; [| by apply Nat.leb_le].
      apply forallb_forall. intros a Ha%list_elem_of_In. by apply (proj1 (Forall_forall _ _) (proj2 H1)).
    + by apply (proj1 (Forall_forall _ _) Hf).
  - injection H as <- <- <-. destruct Hs as (H1 & H2). split_and!; [done | done |]. by intros next [= <-].
  - destruct Hs as (H1 & H2).
    destruct (Nat.leb_spec (two_thirds_of_validation_set h) (length aggs)) as [Hq | Hq];
      [| by injection H as <- <- <-]. cbn [andb] in H.
    destruct (i_am_leader h) eqn:El; [| by injection H as <- <- <-]. injection H as <- <- <-.
    split_and!; [split; [split; [constructor | done] | done] | done |]. by intros next [= <-].
  - destruct (matching_ready i).
    + apply M_bind_Ok in H as ([[go s1] h1] & Hb & H). apply (build_ok _ _ _ _ _ _ _ _ _ _ _ Hs) in Hb as [Hs1 Hsr].
      destruct go.
      * destruct (submission_ok _ _ _ _ _ _ Hs1 H) as (H1 & H2 & H3). split_and!; [done | |].
        -- destruct Hsr as (? & ? & ? & ?), H2 as (? & ? & ? & ?). split_and!; congruence.
        -- intros next ->. destruct H3; congruence.
      * injection H as <- <- <-. done.
    + destruct (submission_ok _ _ _ _ _ _ Hs H) as (H1 & H2 & H3). split_and!; [done | done |].
      intros next ->. destruct H3; congruence.
  - destruct (submission_ok _ _ _ _ _ _ Hs H) as (H1 & H2 & H3). split_and!; [done | done |].
    intros next ->. destruct H3; congruence.
  - destruct c; [by injection H as <- <- <- |]. destruct (matching_ready i); [| by injection H as <- <- <-].
    apply M_bind_Ok in H as (r & _ & H). by injection H as <- <- <-.
Qed.

(** A run of the machine; between two steps the node's order storage and pool
    snapshots change. *)
Inductive round_step : RoundStateMachine -> RoundStateMachine -> Prop :=
| rs_message m e : round_step m (handle_message m e)
| rs_poll m i msg m' : round_poll_next m i = Ok (msg, m') -> round_step m m'
| rs_reset m block leader : round_step m (reset_round sigmoid_clamp m block leader)
| rs_world m storage snapshots :
    round_step m
      (mkRoundStateMachine (current_state m) (consensus_wait_duration m)
         (mkSharedRoundState (rs_block_height (shared_state m)) (rs_signer (shared_state m))
            (rs_round_leader (shared_state m)) (rs_validators (shared_state m)) storage snapshots
            (rs_messages (shared_state m)))).

Lemma round_step_ok m m' :
  round_step m m' -> state_ok (current_state m) (shared_state m) ->
  state_ok (current_state m') (shared_state m').
Proof.
  destruct 1 as [m e | m i msg m' H | m block leader | m storage snapshots]; intros Hs.
  - unfold handle_message. destruct (on_consensus_message _ _ _) as [s h] eqn:Em.
    by apply (message_ok _ _ _ _ _ Hs) in Em as [? _].
  - unfold round_poll_next in H. apply M_bind_Ok in H as ([[t s] h] & Hp & H).
    apply (poll_ok _ _ _ _ _ _ Hs) in Hp as (H1 & H2 & H3).
    assert (H4 : state_ok (match t with TReady (Some next) => next | _ => s end) h).
    { destruct t as [| [next |]]; [done | by apply H3 | done]. }
    destruct (rs_messages h) as [| msg0 rest]; injection H as _ <-; [done |].
    by apply (same_round_state_ok _ h).
  - cbn. split_and!; [split; [constructor | done] | split; [constructor | done] | done].
  - by apply (same_round_state_ok _ (shared_state m)).
Qed.

(** The polls that panic: the answer of the matching engine that the state waits for is
    taken and the engine has panicked, or so does the encoding of the leader's bundle. *)
Definition poll_panics (m : RoundStateMachine) (i : PollInput) : Prop :=
  let h := shared_state m in
  matching_ready i = true /\
  match current_state m with
  | ProposalState (Some f) _ aggs _ _ =>
      matching_result f = Panic \/
      exists solution, matching_result f = Ok solution /\
        encode_bundle (generate_proposal (rs_block_height h) (rs_signer h) aggs solution) (rs_snapshots h) = Panic
  | FinalizationState _ f false => matching_result f = Panic
  | _ => False
  end.

Lemma submission_returns s h i : state_ok s h -> exists r, poll_submission s h i = Ok r.
Proof.
  intros Hs. unfold poll_submission. destruct s as [| | | m0 [|] aggs pr info |]; try by eexists.
  destruct Hs as (_ & _ & _ & Hp & _). destruct (Hp eq_refl) as [p ->].
  destruct (submission_ready i) as [[|] |]; by eexists.
Qed.

Lemma build_returns f sub aggs t pr h :
  0 <= rs_block_height h < u_max 64 ->
  let panics := matching_result f = Panic \/ exists solution, matching_result f = Ok solution /\
    encode_bundle (generate_proposal (rs_block_height h) (rs_signer h) aggs solution) (rs_snapshots h) = Panic in
  try_build_proposal f sub aggs t pr h = Panic /\ panics \/ (exists r, try_build_proposal f sub aggs t pr h = Ok r) /\ ~ panics.
Proof.
  intros Hb. unfold try_build_proposal. rewrite checked_u_Ok by lia. cbn [M_bind].
  destruct (matching_result f) as [sol | e |]; [| right; split; [by eexists | by intros [? | (? & ? & _)]] | left; split; [done | by left]].
  destruct (encode_bundle _ _) eqn:Ee; [right | right | left; split; [done | right; by exists sol]];
    (split; [by eexists | intros [? | (sol' & [= <-] & ?)]; congruence]).
Qed.

Lemma poll_returns m i orders :
  state_ok (current_state m) (shared_state m) ->
  storage_all_orders (rs_order_storage (shared_state m)) = Ok orders ->
  0 <= rs_block_height (shared_state m) < u_max 64 ->
  round_poll_next m i = Panic /\ poll_panics m i \/ (exists msg m', round_poll_next m i = Ok (msg, m')) /\ ~ poll_panics m i.
Proof.
  intros Hs Ho Hb.
  enough (poll_transition (current_state m) (shared_state m) i = Panic /\ poll_panics m i \/
          (exists r, poll_transition (current_state m) (shared_state m) i = Ok r) /\ ~ poll_panics m i) as Hp.
  { destruct Hp as [[Hp Hx] | [[[[t s] h] Hp] Hx]]; [left | right]; (split; [| done]); unfold round_poll_next; rewrite Hp; [done |].
    cbn. destruct (rs_messages h); by do 2 eexists. }
  unfold poll_panics, poll_transition, poll_bid, poll_pre_proposal, poll_aggregation, poll_proposal, poll_finalization.
  destruct (current_state m) as [pps aggs [p |] | pps aggs [p |] | aggs [p |] | [f |] sub aggs pr info | p f c] eqn:Es;
    [right; split; [| by intros [_ []]] .. | | right; split; [| by intros [_ []]] |].
  - by eexists.
  - destruct (wait_ready i); [| by eexists]. unfold PreProposalState_new. rewrite Ho. by eexists.
  - by eexists.
  - destruct (_ <=? _)%nat; by eexists.
  - by eexists.
  - destruct (_ && _); by eexists.
  - destruct (matching_ready i); [| right; split; [by apply submission_returns | by intros [? _]]].
    destruct (build_returns f sub aggs (elapsed i) pr (shared_state m) Hb) as [[Et Hx] | [[[[go s1] h1] Et] Hx]].
    + left. by rewrite Et.
    + right. split; [| by intros [_ ?]]. rewrite Et. cbn [M_bind]. destruct go; [| by eexists].
      apply submission_returns. by apply (build_ok _ _ _ _ _ _ _ _ _ _ _ Hs Et).
  - by apply submission_returns.
  - destruct c; [right; split; [by eexists | by intros [_ ?]] |].
    destruct (matching_ready i); [| right; split; [by eexists | by intros [? _]]]. unfold verify_solutions.
    destruct (matching_result f); [right .. | by left]; (split; [by eexists | by intros [_ ?]]).
Qed.

(** *** Collecting messages *)

Lemma verification_new {Pro} `{EqDecision Pro} h peer (x : Pro) set valid into :
  peer ∈ map peer_id (rs_validators h) -> valid x (rs_block_height h) = true -> x ∉ set ->
  handle_proposal_verification h peer x set valid into = (set ++ [x], push_message h (into x)).
Proof.
  intros Hp Hv Hx. unfold handle_proposal_verification. rewrite bool_decide_true by done. rewrite Hv.
  cbn. unfold set_insert. by destruct (decide (x ∈ set)).
Qed.

Definition receive (m : RoundStateMachine) (es : list StromConsensusEvent) : RoundStateMachine :=
  fold_left handle_message es m.

(** Distinct valid pre-proposals from validators, all new to the node, are kept. *)
Lemma receive_pre_proposals msgs m pps aggs :
  current_state m = PreProposalState pps aggs None ->
  Forall (fun x => x.1 ∈ map peer_id (rs_validators (shared_state m)) /\
                   pp_is_valid x.2 (rs_block_height (shared_state m)) = true /\ x.2 ∉ pps) msgs ->
  NoDup (map snd msgs) ->
  let m' := receive m (map (fun x => EventPreProposal x.1 x.2) msgs) in
  current_state m' = PreProposalState (pps ++ map snd msgs) aggs None /\
  same_round (shared_state m) (shared_state m') /\ rs_snapshots (shared_state m') = rs_snapshots (shared_state m).
Proof.
  revert m pps. induction msgs as [| [peer p] msgs IH]; intros m pps Hs Hf Hn; cbn [map receive fold_left].
  - cbn. by rewrite app_nil_r.
  - apply Forall_cons in Hf as [(Hp & Hv & Hx) Hf]. apply NoDup_cons in Hn as [Hp2 Hn]. cbn in Hp, Hv, Hx.
    assert (Hm : handle_message m (EventPreProposal peer p) =
      mkRoundStateMachine (PreProposalState (pps ++ [p]) aggs None) (consensus_wait_duration m)
        (push_message (shared_state m) (PropagatePreProposal p))).
    { unfold handle_message. rewrite Hs. cbn. unfold handle_pre_proposal. by rewrite verification_new. }
    cbn [fst snd]. rewrite Hm. destruct (IH (mkRoundStateMachine (PreProposalState (pps ++ [p]) aggs None)
      (consensus_wait_duration m) (push_message (shared_state m) (PropagatePreProposal p))) (pps ++ [p])) as (H1 & H2 & H3).
    + done.
    + apply Forall_forall. intros [peer' p'] Hin. destruct (proj1 (Forall_forall _ _) Hf _ Hin) as (A1 & A2 & A3).
      split_and!; [done | done |]. cbn [snd]. intros [Hin2 | Heq%list_elem_of_singleton]%elem_of_app; [done |].
      subst p'. apply Hp2. apply list_elem_of_fmap. by exists (peer', p).
    + done.
    + cbn [snd]. rewrite <- (assoc_L (++)) in H1. done.
Qed.

Lemma receive_aggregations msgs m aggs :
  current_state m = PreProposalAggregationState aggs None ->
  Forall (fun x => x.1 ∈ map peer_id (rs_validators (shared_state m)) /\
                   ppa_is_valid x.2 (rs_block_height (shared_state m))
                     (two_thirds_of_validation_set (shared_state m)) = true /\ x.2 ∉ aggs) msgs ->
  NoDup (map snd msgs) ->
  let m' := receive m (map (fun x => EventPreProposalAgg x.1 x.2) msgs) in
  current_state m' = PreProposalAggregationState (aggs ++ map snd msgs) None /\
  same_round (shared_state m) (shared_state m') /\ rs_snapshots (shared_state m') = rs_snapshots (shared_state m).
Proof.
  revert m aggs. induction msgs as [| [peer a] msgs IH]; intros m aggs Hs Hf Hn; cbn [map receive fold_left].
  - cbn. by rewrite app_nil_r.
  - apply Forall_cons in Hf as [(Hp & Hv & Hx) Hf]. apply NoDup_cons in Hn as [Hp2 Hn]. cbn in Hp, Hv, Hx.
    assert (Hm : handle_message m (EventPreProposalAgg peer a) =
      mkRoundStateMachine (PreProposalAggregationState (aggs ++ [a]) None) (consensus_wait_duration m)
        (push_message (shared_state m) (PropagatePreProposalAgg a))).
    { unfold handle_message. rewrite Hs. cbn. unfold handle_pre_proposal_aggregation.
      by rewrite verification_new. }
    cbn [fst snd]. rewrite Hm. destruct (IH (mkRoundStateMachine (PreProposalAggregationState (aggs ++ [a]) None)
      (consensus_wait_duration m) (push_message (shared_state m) (PropagatePreProposalAgg a))) (aggs ++ [a])) as (H1 & H2 & H3).
    + done.
    + apply Forall_forall. intros [peer' a'] Hin. destruct (proj1 (Forall_forall _ _) Hf _ Hin) as (A1 & A2 & A3).
      split_and!; [done | done |]. cbn [snd]. intros [Hin2 | Heq%list_elem_of_singleton]%elem_of_app; [done |].
      subst a'. apply Hp2. apply list_elem_of_fmap. by exists (peer', a).
    + done.
    + cbn [snd]. rewrite <- (assoc_L (++)) in H1. done.
Qed.

(** A poll that makes a transition. *)
Lemma poll_next_transition m i next s h :
  poll_transition (current_state m) (shared_state m) i = Ok (TReady (Some next), s, h) ->
  exists msg h', round_poll_next m i = Ok (msg, mkRoundStateMachine next (consensus_wait_duration m) h') /\
    same_round h h' /\ rs_snapshots h' = rs_snapshots h.
Proof.
  intros H. unfold round_poll_next. rewrite H. cbn. destruct (rs_messages h); by do 2 eexists.
Qed.

(** The round of a leader: the wait passes, pre-proposals arrive, the node
    aggregates, aggregations arrive. *)
Definition leader_round (m : RoundStateMachine) (pps : list (Address * PreProposal))
    (aggs : list (Address * PreProposalAggregation)) (i1 i2 i3 : PollInput) : M RoundStateMachine :=
  let* (_, m) := round_poll_next m i1 in
  let m := receive m (map (fun x => EventPreProposal x.1 x.2) pps) in
  let* (_, m) := round_poll_next m i2 in
  let m := receive m (map (fun x => EventPreProposalAgg x.1 x.2) aggs) in
  let* (_, m) := round_poll_next m i3 in
  Ok m.

Lemma same_round_trans a b c : same_round a b -> same_round b c -> same_round a c.
Proof. intros (? & ? & ? & ?) (? & ? & ? & ?). split_and!; congruence. Qed.

(** The matching run depends on the validators, the aggregations and the snapshots. *)
Lemma matching_same_round h h' aggs :
  same_round h h' -> rs_snapshots h' = rs_snapshots h -> matching_engine_output h' aggs = matching_engine_output h aggs.
Proof.
  intros (_ & E2 & _) Es. unfold matching_engine_output, filter_quorum_orders, two_thirds_of_validation_set. by rewrite E2, Es.
Qed.

End RoundLemmas.

(** ** Properties *)

(** C34: In every run of the round every message kept is valid for the current block
    and kept once, a proposal is built only by the leader from a quorum of
    aggregations, a proposal waits for submission only when there is one, and the own
    messages pass the checks of the others.  The polls that panic are exactly those that
    take the answer of a matching engine that has panicked, or in which the encoding of
    the leader's bundle panics; with an order storage that can be read and a height
    below the largest, every other poll returns. *)
Theorem round_invariant {P : Profile} {E : OrderEnv} {K : SigningKey} {L : SigningLaws K} {B : Bincode}
    {A : AttestationCodec} {R : RoundEnv} sigmoid_clamp h jitter m :
  rtc (round_step sigmoid_clamp) (RoundStateMachine_new h jitter) m ->
  state_ok (current_state m) (shared_state m) /\
  forall i orders,
    storage_all_orders (rs_order_storage (shared_state m)) = Ok orders ->
    0 <= rs_block_height (shared_state m) < u_max 64 ->
    round_poll_next m i = Panic /\ poll_panics m i \/
    (exists msg m', round_poll_next m i = Ok (msg, m')) /\ ~ poll_panics m i.
Proof.
  intros Hr.
  assert (Hs : state_ok (current_state m) (shared_state m)).
  { revert m Hr. apply rtc_ind_r.
    - split_and!; [split; [constructor | done] | split; [constructor | done] | done].
    - intros m1 m2 _ Hstep IH. by eapply round_step_ok. }
  split; [done |]. intros i orders Ho Hb. by eapply poll_returns.
Qed.

(** C35: A leader that receives enough valid pre-proposals and then enough valid
    aggregations from validators reaches the proposal state with the matching run over
    its own aggregation and all that it received: the orders that a quorum of their
    pre-proposals contain, on the leader's pool snapshots. *)
Theorem leader_reaches_proposal {P : Profile} {E : OrderEnv} {K : SigningKey} {B : Bincode}
    {A : AttestationCodec} {R : RoundEnv} m orders pps aggs i1 i2 i3 :
  let h := shared_state m in
  let mine := PreProposal_new (rs_block_height h) (rs_signer h) orders in
  let my_agg := PreProposalAggregation_new (rs_block_height h) (rs_signer h) (mine :: map snd pps) in
  current_state m = BidAggregationState [] [] None -> i_am_leader h = true -> wait_ready i1 = true ->
  storage_all_orders (rs_order_storage h) = Ok orders ->
  Forall (fun x => x.1 ∈ map peer_id (rs_validators h) /\ pp_is_valid x.2 (rs_block_height h) = true /\
                   x.2 ∉ [mine]) pps ->
  NoDup (map snd pps) -> (two_thirds_of_validation_set h <= S (length pps))%nat ->
  Forall (fun x => x.1 ∈ map peer_id (rs_validators h) /\
                   ppa_is_valid x.2 (rs_block_height h) (two_thirds_of_validation_set h) = true /\
                   x.2 ∉ [my_agg]) aggs ->
  NoDup (map snd aggs) -> (two_thirds_of_validation_set h <= S (length aggs))%nat ->
  exists m', leader_round m pps aggs i1 i2 i3 = Ok m' /\
    current_state m' =
      ProposalState (Some (matching_engine_output h (my_agg :: map snd aggs))) false (my_agg :: map snd aggs) None None.
Proof.
  intros h mine my_agg Hs Hl Hw Ho Hp Hpn Hpl Ha Han Hal.
  assert (H1 : poll_transition (current_state m) h i1 =
    Ok (TReady (Some (PreProposalState [mine] [] None)), BidAggregationState [] [] None,
        push_message h (PropagatePreProposal mine))).
  { rewrite Hs. cbn. rewrite Hw. unfold PreProposalState_new. rewrite Ho. done. }
  apply poll_next_transition in H1 as (msg1 & h1 & H1 & S1 & N1).
  assert (S1' : same_round h h1) by (eapply same_round_trans; [| exact S1]; done).
  unfold leader_round. rewrite H1. cbn [M_bind]. clear H1.
  set (m1 := mkRoundStateMachine _ _ h1).
  assert (T1 : forall h', same_round h h' -> two_thirds_of_validation_set h' = two_thirds_of_validation_set h).
  { intros h' (_ & E2 & _). unfold two_thirds_of_validation_set. by rewrite E2. }
  destruct (receive_pre_proposals pps m1 [mine] []) as (C1 & S2 & N2); [done | | done |].
  { destruct S1' as (E1 & E2 & _). cbn. by rewrite E1, E2. }
  set (m2 := receive m1 _) in *.
  assert (S2' : same_round h (shared_state m2)) by (by eapply same_round_trans).
  assert (H2 : poll_transition (current_state m2) (shared_state m2) i2 =
    Ok (TReady (Some (PreProposalAggregationState [my_agg] None)), PreProposalState [] [] None,
        push_message (shared_state m2) (PropagatePreProposalAgg my_agg))).
  { rewrite C1. cbn [poll_transition poll_pre_proposal]. rewrite (T1 _ S2').
    rewrite (proj2 (Nat.leb_le _ _)) by (cbn [length app]; rewrite length_map; lia).
    unfold PreProposalAggregationState_new. destruct S2' as (E1 & E2 & E3 & E4). by rewrite E1, E4. }
  apply poll_next_transition in H2 as (msg2 & h2 & H2 & S3 & N3).
  assert (S3' : same_round h h2).
  { eapply same_round_trans; [exact S2' |]. eapply same_round_trans; [| exact S3]. done. }
  rewrite H2. cbn [M_bind]. clear H2. set (m3 := mkRoundStateMachine _ _ h2).
  destruct (receive_aggregations aggs m3 [my_agg]) as (C2 & S4 & N4); [done | | done |].
  { cbn [shared_state m3]. rewrite (T1 _ S3'). destruct S3' as (E1 & E2 & _). by rewrite E1, E2. }
  set (m4 := receive m3 _) in *.
  assert (S4' : same_round h (shared_state m4)) by (by eapply same_round_trans).
  assert (H3 : poll_transition (current_state m4) (shared_state m4) i3 =
    Ok (TReady (Some (ProposalState_new (my_agg :: map snd aggs) (shared_state m4))),
        PreProposalAggregationState [] None, shared_state m4)).
  { rewrite C2. cbn [poll_transition poll_aggregation app]. rewrite (T1 _ S4').
    rewrite (proj2 (Nat.leb_le _ _)) by (cbn [length]; rewrite length_map; lia).
    assert (i_am_leader (shared_state m4) = true) as ->
      by (destruct S4' as (E1 & E2 & E3 & E4); unfold i_am_leader; by rewrite E3, E4). done. }
  apply poll_next_transition in H3 as (msg3 & h3 & H3 & _). rewrite H3. cbn [M_bind].
  eexists. split; [done |]. cbn [current_state]. unfold ProposalState_new. rewrite (matching_same_round h); [done | done |].
  etrans; [exact N4 |]. etrans; [exact N3 |]. etrans; [exact N2 | exact N1].
Qed.

(** An order counts once for every aggregation that repeats the pre-proposal it
    is in: an order that a single validator has seen passes the quorum filter when
    enough aggregations contain that validator's pre-proposal. *)
Theorem quorum_counts_repetitions {K : SigningKey} {R : RoundEnv} h aggs p o :
  Forall (fun a => p ∈ ppa_pre_proposals a) aggs -> o ∈ pp_limit p ->
  (1 <= two_thirds_of_validation_set h <= length aggs)%nat ->
  o ∈ mf_limit (matching_engine_output h aggs).
Proof.
  intros Ha Ho Hl. unfold matching_engine_output, filter_quorum_orders. cbn [mf_limit].
  set (input := flat_map pp_limit _).
  assert (Hc : (length aggs <= length (filter (.= o) input))%nat).
  { unfold input. clear Hl input. induction Ha as [| a aggs Hp _ IH]; cbn; [lia |].
    rewrite flat_map_app, filter_app, length_app.
    assert (Ho' : o ∈ flat_map pp_limit (ppa_pre_proposals a)).
    { apply list_elem_of_In, in_flat_map. exists p. split; by apply list_elem_of_In. }
    assert (Hf : o ∈ filter (.= o) (flat_map pp_limit (ppa_pre_proposals a))) by (by apply list_elem_of_filter).
    destruct (filter (.= o) (flat_map pp_limit (ppa_pre_proposals a))) as [| y l] eqn:Ef;
      [by apply not_elem_of_nil in Hf | cbn; lia]. }
  apply list_filter_in. split; [| apply Nat.leb_le; lia].
  apply set_fold_elem. right.
  assert (Hne : filter (.= o) input <> []) by (intros Ef; rewrite Ef in Hc; cbn in Hc; lia).
  destruct (filter (.= o) input) as [| y l] eqn:Ef; [done |].
  assert (Hy : y ∈ filter (.= o) input) by (rewrite Ef; apply list_elem_of_here).
  apply list_elem_of_filter in Hy as [-> Hy]. done.
Qed.

(** The verification of a proposal compares solutions pairwise and stops at the
    end of the shorter list: a proposal that leaves out any number of the last pools,
    even all, passes. *)
Theorem finalization_checks_prefix {K : SigningKey} {R : RoundEnv} p f sol k :
  matching_result f = Ok sol -> pr_solutions p = take k (sort_by solution_cmp sol) ->
  verify_solutions p f = Ok true.
Proof.
  intros Hm Hp. unfold verify_solutions. rewrite Hm, Hp. f_equal.
  assert (Ht : forall a b c, solution_cmp a b <> Gt -> solution_cmp b c <> Gt -> solution_cmp a c <> Gt).
  { unfold solution_cmp. intros a b c H1 H2. change (sol_id a <= sol_id c). change (sol_id a <= sol_id b) in H1.
    change (sol_id b <= sol_id c) in H2. lia. }
  assert (Hg : forall a b, solution_cmp a b = Gt -> solution_cmp b a <> Gt).
  { unfold solution_cmp. intros a b H. apply Z.compare_gt_iff in H. change (sol_id b <= sol_id a). lia. }
  pose proof (sort_by_sorted solution_cmp Ht Hg sol) as Hs. set (l := sort_by solution_cmp sol) in *.
  rewrite (sort_by_id solution_cmp (take k l)).
  - clear. revert k. induction l as [| x l IH]; intros [| k]; cbn; [done.. |].
    rewrite bool_decide_true by done. cbn. apply IH.
  - rewrite <- (take_drop k l) in Hs. by apply StronglySorted_app_1_l in Hs.
Qed.

(** ** Witnesses *)

(** A toy signature scheme: a signature names its signer and the hash. *)
Definition toy_key : SigningKey := {|
  ConsensusSignature := Z * Z;
  AngstromSigner := Z;
  signer_id sk := sk;
  signer_address sk := sk;
  sign_hash_sync sk h := (sk, h);
  recover_peer_id s h := if s.2 =? h then Some s.1 else None;
|}.
#[local] Existing Instance toy_key.

Lemma toy_key_laws : SigningLaws toy_key.
Proof. intros sk h. cbn. by rewrite Z.eqb_refl. Qed.

Definition toy_bincode : Bincode := {|
  ser_height x := be_bytes 8 x;
  ser_peer x := be_bytes 8 x;
  ser_limit l := [Z.of_nat (length l)];
  ser_searcher l := [Z.of_nat (length l)];
  ser_pre_proposals l := map pp_source l;
  ser_aggregations l := map ppa_source l;
  ser_solutions l := map sol_id l;
|}.
#[local] Existing Instance toy_bincode.

Definition toy_attestation : AttestationCodec := {|
  attestation_hash block := block;
  pade_encode_sig s := be_bytes 32 s.1 ++ be_bytes 33 s.2;
  pade_decode_sig b := Some (of_be_bytes (take 32 b), of_be_bytes (drop 32 b));
  recover_signer_address s h := if s.2 =? h then Some s.1 else None;
|}.
#[local] Existing Instance toy_attestation.

Definition empty_solution (id : PoolId) : PoolSolution := mkPoolSolution id 0 None None [] 0 0.

(** A solver that answers for the pools it has snapshots of. *)
Definition toy_rounds : RoundEnv := {|
  Snapshots := list PoolId;
  solve_pools _ _ pools := Ok (map empty_solution pools);
  encode_bundle _ _ := Ok tt;
|}.
#[local] Existing Instance toy_rounds.
#[local] Existing Instance toy_env.
#[local] Existing Instance dev.

Definition toy_shared : SharedRoundState :=
  mkSharedRoundState 7 1 1 [mkValidator 1 10 0; mkValidator 2 10 0; mkValidator 3 10 0] one_order [9; 4] [].
Definition toy_machine : RoundStateMachine := RoundStateMachine_new toy_shared 0.

Definition toy_input : PollInput := mkPollInput true true (Some true) 1.

Definition pre_proposal_of (sk : Z) : PreProposal :=
  PreProposal_new 7 sk (match storage_all_orders one_order with Ok o => o | _ => mkOrderSet [] [] end).

(** A machine that has waited and seen a second pre-proposal. *)
Definition toy_run : RoundStateMachine :=
  match round_poll_next toy_machine toy_input with
  | Ok (_, m) => handle_message m (EventPreProposal 2 (pre_proposal_of 2))
  | _ => toy_machine
  end.

Lemma round_invariant_witness :
  state_ok (current_state toy_run) (shared_state toy_run) /\
  exists msg m', round_poll_next toy_run toy_input = Ok (msg, m').
Proof.
  assert (Hr : rtc (round_step (fun x => x)) (RoundStateMachine_new toy_shared 0) toy_run).
  { eapply rtc_l.
    - eapply (rs_poll _ _ toy_input). vm_compute. reflexivity.
    - eapply rtc_l; [| apply rtc_refl].
      apply (rs_message _ _ (EventPreProposal 2 (pre_proposal_of 2))). }
  destruct (@round_invariant dev toy_env toy_key toy_key_laws toy_bincode toy_attestation toy_rounds (fun x => x)
    toy_shared 0 toy_run Hr) as [Hs Hp].
  split; [exact Hs |].
  destruct (Hp toy_input (match storage_all_orders one_order with Ok o => o | _ => mkOrderSet [] [] end)) as [[H _] | [H _]].
  - vm_compute. reflexivity.
  - vm_compute. split; [discriminate | reflexivity].
  - revert H. vm_compute. discriminate.
  - exact H.
Defined.

Definition toy_agg (sk : Z) : PreProposalAggregation :=
  PreProposalAggregation_new 7 sk [pre_proposal_of 1; pre_proposal_of 2].

Lemma leader_reaches_proposal_witness :
  exists m', leader_round toy_machine [(2, pre_proposal_of 2)] [(3, toy_agg 3)] toy_input toy_input toy_input = Ok m' /\
    current_state m' =
      ProposalState (Some (matching_engine_output toy_shared [toy_agg 1; toy_agg 3])) false [toy_agg 1; toy_agg 3] None None.
Proof.
  apply (@leader_reaches_proposal dev toy_env toy_key toy_bincode toy_attestation toy_rounds toy_machine
    (match storage_all_orders one_order with Ok o => o | _ => mkOrderSet [] [] end)
    [(2, pre_proposal_of 2)] [(3, toy_agg 3)] toy_input toy_input toy_input).
  - reflexivity.
  - reflexivity.
  - reflexivity.
  - vm_compute. reflexivity.
  - apply Forall_singleton. split_and!; [apply (bool_decide_unpack _) | |]; [by vm_compute | by vm_compute |].
    apply (bool_decide_unpack _). by vm_compute.
  - apply NoDup_singleton.
  - by vm_compute; lia.
  - apply Forall_singleton. split_and!; [apply (bool_decide_unpack _) | |]; [by vm_compute | by vm_compute |].
    apply (bool_decide_unpack _). by vm_compute.
  - apply NoDup_singleton.
  - by vm_compute; lia.
Defined.

Definition lone_pre_proposal : PreProposal := generate_pre_proposal 7 3 [pool_order 1 true] [].
Definition lone_agg (sk : Z) : PreProposalAggregation := PreProposalAggregation_new 7 sk [lone_pre_proposal].

(** Two aggregations that repeat the pre-proposal of one validator. *)
Lemma quorum_counts_repetitions_witness :
  pool_order 1 true ∈ mf_limit (matching_engine_output toy_shared [lone_agg 1; lone_agg 2]).
Proof.
  apply (@quorum_counts_repetitions toy_key toy_rounds toy_shared _ lone_pre_proposal (pool_order 1 true)).
  - repeat constructor.
  - apply list_elem_of_here.
  - vm_compute. lia.
Defined.

Definition two_pools : MatchingFuture := mkMatchingFuture [] [] [9; 4].
Definition short_proposal : Proposal := generate_proposal 7 1 [] [empty_solution 4].

(** The leader's own proposal without the second of the two pools. *)
Lemma finalization_checks_prefix_witness :
  verify_solutions short_proposal two_pools = Ok true.
Proof.
  apply (@finalization_checks_prefix toy_key toy_rounds _ two_pools
    (map empty_solution [9; 4]) 1); reflexivity.
Defined.
