(* ===== verification/NetMessages.v ===== *)
(** * Network messages

    crates/angstrom-net/src/types (message.rs, status.rs), the builder of a status
    message (builder.rs) and the conversion of a consensus event into a message
    (manager.rs): what validators say to each other and how it is written on the wire.

    RLP and bincode are libraries: [WireCodec] is the encoding of a byte vector and of
    a message, [WireLaws] and
    [bincode_exact] that each is read back.  The recovery of a public key and its
    conversion to a peer id are those of [SigningKey]. *)

From S2P Require Import Prelude Uniswap Ray Orders ConsensusMessages Rounds.

Abbreviation PeerId := Z (only parsing).

(** ** Status messages *)

Record StatusState := mkStatusState {
  ss_version : Z;
  ss_chain : Z;
  ss_peer : PeerId;
  ss_timestamp : Z;
}.

Definition StatusState_new (peer : PeerId) : StatusState := mkStatusState 0 0 peer 0.
Definition with_peer (s : StatusState) (peer : PeerId) : StatusState :=
  mkStatusState (ss_version s) (ss_chain s) peer (ss_timestamp s).
(** [now] is the wall clock in milliseconds since the epoch. *)
Definition timestamp_now (now : Z) (s : StatusState) : StatusState :=
  mkStatusState (ss_version s) (ss_chain s) (ss_peer s) now.

Section Status.
Context {K : SigningKey} {C : OrderCrypto}.

Record Status := mkStatus {
  st_state : StatusState;
  st_signature : ConsensusSignature;
}.

Definition to_message (s : StatusState) : B256 :=
  keccak256 (be_bytes 1 (ss_version s) ++ be_bytes 8 (ss_chain s) ++ be_bytes 64 (ss_peer s)
             ++ be_bytes 16 (ss_timestamp s)).

(** The [unwrap] of the recovered key panics on a signature without one. *)
Definition status_verify (s : Status) : M PeerId :=
  unwrap (recover_peer_id (st_signature s) (to_message (st_state s))).

(** [StatusBuilder]: the state so far; [build] stamps and signs it. *)
Definition builder_version (version : Z) (s : StatusState) : StatusState :=
  mkStatusState version (ss_chain s) (ss_peer s) (ss_timestamp s).
Definition builder_chain (chain : Z) (s : StatusState) : StatusState :=
  mkStatusState (ss_version s) chain (ss_peer s) (ss_timestamp s).
Definition status_build (now : Z) (s : StatusState) (key : AngstromSigner) : Status :=
  let s := timestamp_now now s in
  mkStatus s (sign_hash_sync key (to_message s)).

Lemma built_status_verifies {L : SigningLaws K} now s key :
  status_verify (status_build now s key) = Ok (signer_id key).
Proof. unfold status_verify, status_build. cbn. by rewrite recover_signed. Qed.

End Status.

(** ** Messages *)

Inductive StromMessageID :=
| IdStatus
| IdPrePropose
| IdPreProposeAgg
| IdPropose
| IdBundleUnlockAttestation
| IdPropagatePooledOrders
| IdOrderCancellation.

#[export] Instance StromMessageID_eq_dec : EqDecision StromMessageID.
Proof. solve_decision. Defined.

Definition id_as_u8 (i : StromMessageID) : Z :=
  match i with
  | IdStatus => 0
  | IdPrePropose => 1
  | IdPreProposeAgg => 2
  | IdPropose => 3
  | IdBundleUnlockAttestation => 4
  | IdPropagatePooledOrders => 5
  | IdOrderCancellation => 6
  end.

(** The number of messages the capability declares, and the number the version of
    the protocol names. *)
Definition STROM_PROTOCOL_MESSAGES : Z := 5.
Definition total_messages : Z := 7.

Inductive StromMessage {K : SigningKey} :=
| StatusMessage (s : Status)
| PrePropose (p : PreProposal)
| PreProposeAgg (a : PreProposalAggregation)
| Propose (p : Proposal)
| BundleUnlockAttestation (block : Z) (bytes : Bytes)
| PropagatePooledOrders (orders : list AllOrders)
| OrderCancellation (request : CancelOrderRequest).

Section Messages.
Context {K : SigningKey}.

Definition message_id (m : StromMessage) : StromMessageID :=
  match m with
  | StatusMessage _ => IdStatus
  | PrePropose _ => IdPrePropose
  | PreProposeAgg _ => IdPreProposeAgg
  | Propose _ => IdPropose
  | BundleUnlockAttestation _ _ => IdBundleUnlockAttestation
  | PropagatePooledOrders _ => IdPropagatePooledOrders
  | OrderCancellation _ => IdOrderCancellation
  end.

(** [From<StromConsensusEvent> for StromMessage] *)
Definition event_message (e : StromConsensusEvent) : StromMessage :=
  match e with
  | EventPreProposal _ p => PrePropose p
  | EventPreProposalAgg _ a => PreProposeAgg a
  | EventProposal _ p => Propose p
  | EventBundleUnlockAttestation _ block bytes => BundleUnlockAttestation block bytes
  end.

Definition event_sender (e : StromConsensusEvent) : Address :=
  match e with
  | EventPreProposal a _ | EventPreProposalAgg a _ | EventProposal a _ => a
  | EventBundleUnlockAttestation a _ _ => a
  end.

Record StromProtocolMessage := mkStromProtocolMessage {
  spm_message_id : StromMessageID;
  spm_message : StromMessage;
}.

End Messages.

(** ** The wire *)

Class WireCodec {K : SigningKey} := {
  rlp_encode_vec : Bytes -> Bytes;
  (** The vector at the front of the buffer and what follows it. *)
  rlp_decode_vec : Bytes -> option (Bytes * Bytes);
  bincode_serialize : StromMessage -> Bytes;
  bincode_deserialize : Bytes -> option StromMessage;
}.

Class WireLaws {K : SigningKey} (W : WireCodec) :=
  rlp_vec_roundtrip : forall b rest, rlp_decode_vec (rlp_encode_vec b ++ rest) = Some (b, rest).

(** Bincode reads back what it wrote for the message. *)
Definition bincode_exact {K : SigningKey} {W : WireCodec} (m : StromMessage) : Prop :=
  bincode_deserialize (bincode_serialize m) = Some m.

Section Wire.
Context {K : SigningKey} {W : WireCodec}.

(** [Encodable] and [Decodable] of the message id. *)
Definition encode_id (i : StromMessageID) : Bytes := [id_as_u8 i].

Definition decode_id (buf : Bytes) : M (StromMessageID * Bytes) :=
  match buf with
  | [] => Err "InputTooShort"
  | id :: rest =>
      if id =? 0 then Ok (IdStatus, rest)
      else if id =? 1 then Ok (IdPrePropose, rest)
      else if id =? 2 then Ok (IdPreProposeAgg, rest)
      else if id =? 3 then Ok (IdPrePropose, rest)
      else if id =? 4 then Ok (IdBundleUnlockAttestation, rest)
      else if id =? 5 then Ok (IdPropagatePooledOrders, rest)
      else if id =? 6 then Ok (IdOrderCancellation, rest)
      else Err "Invalid message ID"
  end.

(** Errors of RLP become [InvalidMessageError]; the [unwrap] of bincode panics. *)
Definition decode_message (buf : Bytes) : M StromProtocolMessage :=
  let* (id, buf) := decode_id buf in
  let* (data, _) := ok_or (rlp_decode_vec buf) "InvalidMessageError" in
  let* message := unwrap (bincode_deserialize data) in
  Ok (mkStromProtocolMessage id message).

Definition encode_message (m : StromProtocolMessage) : Bytes :=
  encode_id (spm_message_id m) ++ rlp_encode_vec (bincode_serialize (spm_message m)).

(** [StromProtocolMessage { message_id: msg.message_id(), message: msg }], encoded. *)
Definition encode_with_id (m : StromMessage) : Bytes :=
  encode_message (mkStromProtocolMessage (message_id m) m).

End Wire.

(** The id under which a message is read. *)
Definition read_id (i : StromMessageID) : StromMessageID :=
  match i with IdPropose => IdPrePropose | i => i end.

Lemma decode_encode_id {K : SigningKey} i rest : decode_id (encode_id i ++ rest) = Ok (read_id i, rest).
Proof. by destruct i. Qed.

(** Every message a node writes is read by its peer as the same message; the id
    it is read with is its own, except that a proposal is read with the id of a
    pre-proposal. *)
Theorem wire_roundtrip {K : SigningKey} {W : WireCodec} {L : WireLaws W} m :
  bincode_exact m ->
  decode_message (encode_with_id m) = Ok (mkStromProtocolMessage (read_id (message_id m)) m) /\
  (read_id (message_id m) = message_id m <-> message_id m <> IdPropose).
Proof.
  intros Hb. split; [|destruct m; cbn; split; congruence].
  unfold decode_message, encode_with_id, encode_message. cbn [spm_message_id spm_message].
  rewrite decode_encode_id. cbn [M_bind].
  rewrite <- (app_nil_r (rlp_encode_vec _)), rlp_vec_roundtrip. cbn.
  by rewrite Hb.
Qed.

(** Ids beyond the declared number of messages: orders and cancellations. *)
Lemma order_messages_undeclared {K : SigningKey} m :
  STROM_PROTOCOL_MESSAGES <= id_as_u8 (message_id m) <->
  (exists os, m = PropagatePooledOrders os) \/ (exists r, m = OrderCancellation r).
Proof.
  unfold STROM_PROTOCOL_MESSAGES.
  split; [destruct m; cbn; intros; try lia; eauto | intros [[? ->]|[? ->]]; cbn; lia].
Qed.

(** A buffer with a known id and a readable vector whose content is not a message
    panics in the decoder, where an unknown id or an unreadable vector is an error. *)
Theorem malformed_message_panics {K : SigningKey} {W : WireCodec} id rest data tail :
  rlp_decode_vec rest = Some (data, tail) -> bincode_deserialize data = None ->
  decode_message (id :: rest) = if (0 <=? id) && (id <? total_messages) then Panic else Err "Invalid message ID".
Proof.
  intros Hr Hb. unfold decode_message, decode_id, total_messages.
  repeat match goal with |- context [id =? ?n] => destruct (Z.eqb_spec id n); [subst; cbn; by rewrite Hr; cbn; rewrite Hb|] end.
  cbn. destruct (0 <=? id) eqn:E1, (id <? 7) eqn:E2; cbn; try done. lia.
Qed.

(** ** A codec *)

#[local] Existing Instance toy_key.

(** Attestations only: the block and the bytes behind their length. *)
Definition toy_wire : WireCodec := {|
  rlp_encode_vec b := Z.of_nat (length b) :: b;
  rlp_decode_vec b :=
    match b with
    | n :: b => if n <=? Z.of_nat (length b) then Some (take (Z.to_nat n) b, drop (Z.to_nat n) b) else None
    | [] => None
    end;
  bincode_serialize m := match m with BundleUnlockAttestation block bytes => block :: bytes | _ => [] end;
  bincode_deserialize b := match b with block :: bytes => Some (BundleUnlockAttestation block bytes) | [] => None end;
|}.

Lemma toy_wire_laws : WireLaws toy_wire.
Proof.
  intros b rest. cbn. rewrite length_app.
  destruct (Z.leb_spec (Z.of_nat (length b)) (Z.of_nat (length b + length rest))); [|lia].
  by rewrite Nat2Z.id, take_app_length, drop_app_length.
Qed.

Lemma wire_roundtrip_witness :
  @decode_message toy_key toy_wire (@encode_with_id toy_key toy_wire (BundleUnlockAttestation 7 [1; 2]))
  = Ok (mkStromProtocolMessage IdBundleUnlockAttestation (BundleUnlockAttestation 7 [1; 2])).
Proof. apply (@wire_roundtrip toy_key toy_wire toy_wire_laws (BundleUnlockAttestation 7 [1; 2])). reflexivity. Defined.

Lemma malformed_message_panics_witness : @decode_message toy_key toy_wire [4; 0] = Panic.
Proof. apply (@malformed_message_panics toy_key toy_wire 4 [0] [] []); reflexivity. Defined.
