(* ===== verification/ConsensusManager.v ===== *)
(** * Consensus manager

    crates/consensus/src/manager.rs and lib.rs: the task that connects the round
    state machine with the chain, the network and the RPC server.  Its step for a new
    chain head composes leader selection, the reset of the round and the sign-off of
    the block synchronization.

    The shared block synchronization is part of the state.  What the task sends is
    recorded: messages for the network in [cm_network], answers to requests as the
    result of [handle_request], attestations in the queues of the subscribers.  A
    subscriber's channel holds five messages. *)

From S2P Require Import Prelude Uniswap Ray LeaderSelection Orders OrderPool Chain BlockSync ConsensusMessages Rounds NetMessages.

Definition MODULE_NAME : string := "Consensus".

Record ConsensusDataWithBlock (T : Type) := mkConsensusDataWithBlock {
  cd_data : T;
  cd_block : Z;
}.
Arguments mkConsensusDataWithBlock {T} _ _.
Arguments cd_data {T} _.
Arguments cd_block {T} _.

(** The capacity of [subscribe_empty_block_attestations]. *)
Definition SUBSCRIBER_CAPACITY : nat := 5.

(** The sending half of a bounded channel. *)
Record Subscriber := mkSubscriber {
  sub_id : Z;
  sub_queue : list (ConsensusDataWithBlock Bytes);
  sub_closed : bool;
}.

Definition try_send (d : ConsensusDataWithBlock Bytes) (s : Subscriber) : option Subscriber :=
  if sub_closed s || (SUBSCRIBER_CAPACITY <=? length (sub_queue s))%nat then None
  else Some (mkSubscriber (sub_id s) (sub_queue s ++ [d]) (sub_closed s)).

(** [retain(|tx| tx.try_send(..).is_ok())]. *)
Definition notify_subscribers (d : ConsensusDataWithBlock Bytes) (l : list Subscriber) : list Subscriber :=
  omap (try_send d) l.

Inductive ConsensusRequest :=
| CurrentLeader
| CurrentConsensusState
| SubscribeAttestations (tx : Subscriber).

Inductive ConsensusResponse :=
| LeaderResponse (d : ConsensusDataWithBlock Address)
| ValidatorsResponse (d : ConsensusDataWithBlock (list AngstromValidator)).

Section Manager.
Context {P : Profile} {E : OrderEnv} {K : SigningKey} {B : Bincode} {A : AttestationCodec} {R : RoundEnv}.
Context (sigmoid_clamp : Z -> Z).

Record ConsensusManager := mkConsensusManager {
  cm_height : Z;
  cm_leader_selection : WeightedRoundRobin;
  cm_round : RoundStateMachine;
  cm_block_sync : GlobalBlockSync;
  cm_subscribers : list Subscriber;
  cm_broadcasted : list StromConsensusEvent;
  cm_network : list StromMessage;
}.

Definition with_cm_round (m : ConsensusManager) (r : RoundStateMachine) : ConsensusManager :=
  mkConsensusManager (cm_height m) (cm_leader_selection m) r (cm_block_sync m) (cm_subscribers m)
    (cm_broadcasted m) (cm_network m).
Definition with_subscribers (m : ConsensusManager) (l : list Subscriber) : ConsensusManager :=
  mkConsensusManager (cm_height m) (cm_leader_selection m) (cm_round m) (cm_block_sync m) l
    (cm_broadcasted m) (cm_network m).
Definition broadcast_message (m : ConsensusManager) (msg : StromMessage) : ConsensusManager :=
  mkConsensusManager (cm_height m) (cm_leader_selection m) (cm_round m) (cm_block_sync m) (cm_subscribers m)
    (cm_broadcasted m) (cm_network m ++ [msg]).

Definition ConsensusManager_new (signer : AngstromSigner) (vs : list AngstromValidator) (storage : OrderStorage)
    (snapshots : Snapshots) (deploy_block height jitter_ms : Z) (sync : GlobalBlockSync) : M ConsensusManager :=
  let selection := WeightedRoundRobin_new vs deploy_block in
  let* (selection, leader) := choose_proposer selection height in
  let* leader := unwrap leader in
  let* sync := sync_register sync MODULE_NAME in
  Ok (mkConsensusManager height selection
        (RoundStateMachine_new (mkSharedRoundState height signer leader vs storage snapshots []) jitter_ms)
        sync [] [] []).

Definition on_blockchain_state (m : ConsensusManager) (n : CanonStateNotification) (waker : Z) :
    M (list Z * ConsensusManager) :=
  let* new_block := notification_tip n in
  let height := blk_number new_block in
  let* (selection, leader) := choose_proposer (cm_leader_selection m) height in
  let* round_leader := unwrap leader in
  let r := reset_round sigmoid_clamp (cm_round m) height round_leader in
  let* (woken, sync) :=
    match n with
    | Reorg old new =>
        let* (first, last) := reorg_of old new in
        sign_off_reorg (cm_block_sync m) MODULE_NAME first last (Some waker)
    | Commit _ => sign_off_on_block (cm_block_sync m) MODULE_NAME height (Some waker)
    end in
  Ok (woken, mkConsensusManager height selection r sync (cm_subscribers m) [] (cm_network m)).

Definition handle_request (m : ConsensusManager) (r : ConsensusRequest) :
    option ConsensusResponse * ConsensusManager :=
  match r with
  | CurrentLeader =>
      (Some (LeaderResponse (mkConsensusDataWithBlock (current_leader (cm_round m)) (cm_height m))), m)
  | CurrentConsensusState =>
      (Some (ValidatorsResponse
         (mkConsensusDataWithBlock (LeaderSelection.validators (cm_leader_selection m)) (cm_height m))), m)
  | SubscribeAttestations tx => (None, with_subscribers m (cm_subscribers m ++ [tx]))
  end.

Definition on_network_event (m : ConsensusManager) (e : StromConsensusEvent) : M ConsensusManager :=
  if negb (cm_height m =? event_block_height e) then Ok m else
  let* m :=
    match e with
    | EventBundleUnlockAttestation _ block bytes =>
        let* target := checked_u 64 (block + 1) in
        Ok (if is_valid_attestation target bytes
            then with_subscribers m
                   (notify_subscribers (mkConsensusDataWithBlock bytes (cm_height m)) (cm_subscribers m))
            else m)
    | _ => Ok m
    end in
  Ok (with_cm_round m (handle_message (cm_round m) e)).

Definition on_round_event (m : ConsensusManager) (e : ConsensusMessage) : ConsensusManager :=
  match e with
  | PropagateProposal p => broadcast_message m (Propose p)
  | PropagatePreProposal p => broadcast_message m (PrePropose p)
  | PropagatePreProposalAgg p => broadcast_message m (PreProposeAgg p)
  | PropagateEmptyBlockAttestation p =>
      let m := with_subscribers m
                 (notify_subscribers (mkConsensusDataWithBlock p (cm_height m)) (cm_subscribers m)) in
      broadcast_message m (BundleUnlockAttestation (cm_height m) p)
  end.

(** The last loop of [poll]: the round is polled until it yields no message; the
    result tells whether that point was reached within the inputs given. *)
Fixpoint drain_round (m : ConsensusManager) (inputs : list PollInput) : M (bool * ConsensusManager) :=
  match inputs with
  | [] => Ok (false, m)
  | i :: inputs =>
      let* (msg, r) := round_poll_next (cm_round m) i in
      let m := with_cm_round m r in
      match msg with
      | None => Ok (true, m)
      | Some msg => drain_round (on_round_event m msg) inputs
      end
  end.

(** What is ready when the task is polled; a broken block notification is an error
    that is only logged. *)
Record ManagerInput := mkManagerInput {
  mi_blocks : list (option CanonStateNotification);
  mi_requests : list ConsensusRequest;
  mi_events : list StromConsensusEvent;
  mi_polls : list PollInput;
}.

Definition manager_poll (m : ConsensusManager) (i : ManagerInput) (waker : Z) : M ConsensusManager :=
  let* m := M_fold (fun m n => match n with
                               | Some n => let* (_, m) := on_blockchain_state m n waker in Ok m
                               | None => Ok m
                               end) m (mi_blocks i) in
  let m := fold_left (fun m r => (handle_request m r).2) (mi_requests i) m in
  if can_operate (cm_block_sync m) then
    let* m := M_fold on_network_event m (mi_events i) in
    let* (_, m) := drain_round m (mi_polls i) in
    Ok m
  else Ok m.

End Manager.

(** ** Lemmas *)

Section ManagerLemmas.
Context {P : Profile} {E : OrderEnv} {K : SigningKey} {L : SigningLaws K} {B : Bincode}
  {A : AttestationCodec} {R : RoundEnv}.
Context (sigmoid_clamp : Z -> Z).

Lemma handle_message_keeps r e :
  state_ok (current_state r) (shared_state r) ->
  let r' := handle_message r e in
  state_ok (current_state r') (shared_state r') /\ same_round (shared_state r) (shared_state r').
Proof.
  intros Hs. unfold handle_message. destruct (on_consensus_message _ _ _) as [s h] eqn:Em.
  by apply (message_ok _ _ _ _ _ Hs) in Em.
Qed.

Lemma round_poll_keeps r i msg r' :
  state_ok (current_state r) (shared_state r) -> round_poll_next r i = Ok (msg, r') ->
  state_ok (current_state r') (shared_state r') /\ same_round (shared_state r) (shared_state r').
Proof.
  intros Hs H. split.
  - by apply (round_step_ok (fun x => x) r); [eapply rs_poll |].
  - unfold round_poll_next in H. apply M_bind_Ok in H as ([[t s] h] & Hp & H).
    apply (poll_ok _ _ _ _ _ _ Hs) in Hp as (_ & H2 & _).
    destruct (rs_messages h); injection H as _ <-; [done |]. by eapply same_round_trans.
Qed.

(** *** The leader of a node *)

(** The round of a node is that of the height it is at, led by the proposer of that
    height. *)
Definition follows (l : list AngstromValidator) (d : Z) (m : ConsensusManager) : Prop :=
  let h := shared_state (cm_round m) in
  state_ok (current_state (cm_round m)) h /\ rs_block_height h = cm_height m /\
  rs_round_leader h ∈ map peer_id l /\
  leads l d (cm_height m) (cm_leader_selection m) (rs_round_leader h).

Lemma follows_round l d m r :
  follows l d m -> state_ok (current_state r) (shared_state r) ->
  same_round (shared_state (cm_round m)) (shared_state r) -> follows l d (with_cm_round m r).
Proof. intros (_ & H2 & H3 & H4) Hs (E1 & _ & E3 & _). split_and!; cbn; rewrite ?E1, ?E3; done. Qed.

Lemma follows_event l d m e m' : follows l d m -> on_network_event m e = Ok m' -> follows l d m'.
Proof.
  intros Hf H. unfold on_network_event in H. destruct (negb _); [by injection H as <- |].
  apply M_bind_Ok in H as (m1 & H1 & H). injection H as <-.
  assert (Hf1 : follows l d m1 /\ cm_round m1 = cm_round m).
  { destruct e; try (by injection H1 as <-). apply M_bind_Ok in H1 as (t & _ & H1). injection H1 as <-. by case_match. }
  destruct Hf1 as [Hf1 E1]. destruct (handle_message_keeps (cm_round m1) e (proj1 Hf1)). by apply follows_round.
Qed.

Lemma follows_round_event l d m e : follows l d m -> follows l d (on_round_event m e).
Proof. by destruct e. Qed.

Lemma follows_drain l d inputs m b m' : follows l d m -> drain_round m inputs = Ok (b, m') -> follows l d m'.
Proof.
  revert m. induction inputs as [| i inputs IH]; intros m Hf H; cbn in H; [by injection H as _ <- |].
  apply M_bind_Ok in H as ([msg r] & Hr & H).
  destruct (round_poll_keeps _ _ _ _ (proj1 Hf) Hr) as [H1 H2].
  assert (Hf' : follows l d (with_cm_round m r)) by (by apply follows_round).
  destruct msg as [msg |]; [| by injection H as _ <-].
  apply (IH (on_round_event (with_cm_round m r) msg)); [by apply follows_round_event | done].
Qed.

(** Heads at or above the height of the node. *)
Definition tip_ahead (height : Z) (n : CanonStateNotification) : Prop :=
  exists b, notification_tip n = Ok b /\ 0 <= blk_number b - height <= u_max 64.

Lemma follows_block l d m n w woken m' :
  ok_set l -> bounded l -> follows l d m -> tip_ahead (cm_height m) n ->
  on_blockchain_state sigmoid_clamp m n w = Ok (woken, m') -> follows l d m'.
Proof.
  intros Hok Hb (Hs & Hh & Hm & Hl) (b & Eb & Hr) H. unfold on_blockchain_state in H. rewrite Eb in H.
  cbn [M_bind] in H. destruct (leads_choose _ _ _ _ _ (blk_number b) Hok Hb Hl Hr) as (s' & id & Ec & Hl' & Hm').
  rewrite Ec in H. cbn [M_bind unwrap] in H. apply M_bind_Ok in H as ([wk sync] & _ & H). injection H as _ <-.
  split_and!; [| done | done | done].
  eapply (round_step_ok sigmoid_clamp); [apply rs_reset | done].
Qed.

(** A run of the task: heads, requests, network events, drained rounds, and changes
    of the orders, the pool snapshots and the block synchronization by other tasks. *)
Inductive manager_step : ConsensusManager -> ConsensusManager -> Prop :=
| ms_block m n w woken m' :
    tip_ahead (cm_height m) n -> on_blockchain_state sigmoid_clamp m n w = Ok (woken, m') -> manager_step m m'
| ms_request m r : manager_step m (handle_request m r).2
| ms_event m e m' : on_network_event m e = Ok m' -> manager_step m m'
| ms_round m inputs b m' : drain_round m inputs = Ok (b, m') -> manager_step m m'
| ms_world m storage snapshots sync :
    let r := cm_round m in
    manager_step m
      (mkConsensusManager (cm_height m) (cm_leader_selection m)
         (mkRoundStateMachine (current_state r) (consensus_wait_duration r)
            (mkSharedRoundState (rs_block_height (shared_state r)) (rs_signer (shared_state r))
               (rs_round_leader (shared_state r)) (rs_validators (shared_state r)) storage snapshots
               (rs_messages (shared_state r))))
         sync (cm_subscribers m) (cm_broadcasted m) (cm_network m)).

Lemma manager_step_follows l d m m' :
  ok_set l -> bounded l -> manager_step m m' -> follows l d m -> follows l d m'.
Proof.
  intros Hok Hb Hstep Hf. destruct Hstep as [m n w woken m' Ht H | m r | m e m' H | m inputs b m' H | m storage snapshots sync r].
  - by eapply follows_block.
  - by destruct r.
  - by eapply follows_event.
  - by eapply follows_drain.
  - destruct Hf as (H1 & H2 & H3 & H4). split_and!; [| done | done | done].
    by apply (same_round_state_ok _ (shared_state r)).
Qed.

Lemma manager_run_follows l d m m' :
  ok_set l -> bounded l -> rtc manager_step m m' -> follows l d m -> follows l d m'.
Proof. intros Hok Hb. induction 1 as [| m m1 m2 Hs _ IH]; intros Hf; [done |]. eauto using manager_step_follows. Qed.

Lemma new_follows signer vs storage snapshots deploy height jitter sync m :
  ok_set vs -> bounded vs -> 0 < height - deploy <= u_max 64 ->
  ConsensusManager_new signer vs storage snapshots deploy height jitter sync = Ok m -> follows vs deploy m.
Proof.
  intros Hok Hb Hr H. unfold ConsensusManager_new in H.
  destruct (leads_new vs deploy height Hok Hb Hr) as (s & id & Ec & Hl & Hm). rewrite Ec in H.
  cbn [M_bind unwrap] in H. apply M_bind_Ok in H as (sy & _ & H). injection H as <-.
  split_and!; [| done | done | done]. split_and!; [split; [constructor | done] | split; [constructor | done] | done].
Qed.

(** *** Draining the round *)

(** How many messages the round can still send without another message or head. *)
Definition weight (s : ConsensusState) : nat :=
  match s with
  | BidAggregationState _ _ _ => 4
  | PreProposalState _ _ _ => 3
  | PreProposalAggregationState _ _ => 2
  | ProposalState (Some _) sub _ _ _ => if sub then 3 else 2
  | ProposalState None true _ _ _ => 1
  | _ => 0
  end.

Definition potential (r : RoundStateMachine) : nat :=
  (length (rs_messages (shared_state r)) + weight (current_state r))%nat.

Lemma submission_weight s h i t s' h' :
  poll_submission s h i = Ok (t, s', h') ->
  (length (rs_messages h') + weight s' <= length (rs_messages h) + weight s)%nat /\
  (t = TPending \/ t = TReady None).
Proof.
  intros H. unfold poll_submission in H.
  destruct s as [| | | m [|] aggs pr info |]; try (injection H as <- <- <-; split; [lia | by left]).
  destruct (submission_ready i) as [landed |]; [| injection H as <- <- <-; split; [lia | by left]].
  destruct landed.
  - apply M_bind_Ok in H as (p & _ & H). injection H as <- <- <-. split; [| by right].
    cbn. rewrite length_app. destruct m; cbn; lia.
  - injection H as <- <- <-. split; [| by right]. destruct m; cbn; lia.
Qed.

Lemma poll_weight s h i t s' h' :
  poll_transition s h i = Ok (t, s', h') ->
  (length (rs_messages h') + weight (match t with TReady (Some n) => n | _ => s' end) <=
   length (rs_messages h) + weight s)%nat.
Proof.
  intros H. unfold poll_transition, poll_bid, poll_pre_proposal, poll_aggregation, poll_proposal, poll_finalization in H.
  assert (Hsub : forall s0 h0, (length (rs_messages h0) + weight s0 <= length (rs_messages h) + weight s)%nat ->
    poll_submission s0 h0 i = Ok (t, s', h') ->
    (length (rs_messages h') + weight (match t with TReady (Some n) => n | _ => s' end) <=
     length (rs_messages h) + weight s)%nat).
  { intros s0 h0 Hle Hp. apply submission_weight in Hp as [Hw [-> | ->]]; lia. }
  destruct s as [pps aggs [p |] | pps aggs [p |] | aggs [p |] | [f |] sub aggs pr info | p f c].
  - injection H as <- <- <-. cbn. lia.
  - destruct (wait_ready i); [| injection H as <- <- <-; lia].
    apply M_bind_Ok in H as ([next h1] & Hn & H). injection H as <- <- <-.
    unfold PreProposalState_new in Hn. apply M_bind_Ok in Hn as (o & _ & Hn). injection Hn as <- <-.
    cbn. rewrite length_app. cbn. lia.
  - injection H as <- <- <-. cbn. lia.
  - destruct (_ <=? _)%nat; injection H as <- <- <-; cbn; rewrite ?length_app; cbn; lia.
  - injection H as <- <- <-. cbn. lia.
  - destruct (_ && _); injection H as <- <- <-; cbn; lia.
  - destruct (matching_ready i); [| by apply (Hsub _ _ (le_n _) H)].
    apply M_bind_Ok in H as ([[go s1] h1] & Hb & H).
    assert (Hle : (length (rs_messages h1) + weight s1 <=
      length (rs_messages h) + weight (ProposalState (Some f) sub aggs pr info))%nat).
    { unfold try_build_proposal in Hb. apply M_bind_Ok in Hb as (tb & _ & Hb).
      destruct (matching_result f); [| injection Hb as <- <- <-; destruct sub; cbn; lia | done].
      destruct (encode_bundle _ _); [injection Hb as <- <- <-; destruct sub; cbn; rewrite ?length_app; cbn; lia .. | done]. }
    destruct go; [by apply (Hsub _ _ Hle H) |]. by injection H as <- <- <-.
  - by apply (Hsub _ _ (le_n _) H).
  - destruct c; [injection H as <- <- <-; cbn; lia |].
    destruct (matching_ready i); [apply M_bind_Ok in H as (r & _ & H) |]; injection H as <- <- <-; cbn; lia.
Qed.

Lemma round_poll_weight r i msg r' :
  round_poll_next r i = Ok (msg, r') ->
  (potential r' + length (option_list msg) <= potential r)%nat.
Proof.
  intros H. unfold round_poll_next in H. apply M_bind_Ok in H as ([[t s] h] & Hp & H).
  apply poll_weight in Hp. unfold potential.
  destruct (rs_messages h) as [| msg0 rest] eqn:Em; injection H as <- <-; cbn in *; rewrite ?Em; cbn; lia.
Qed.

Lemma drain_ends inputs m b m' :
  drain_round m inputs = Ok (b, m') -> (potential (cm_round m) < length inputs)%nat -> b = true.
Proof.
  revert m. induction inputs as [| i inputs IH]; intros m H Hl; cbn in *; [lia |].
  apply M_bind_Ok in H as ([msg r] & Hr & H). apply round_poll_weight in Hr.
  destruct msg as [msg |]; [| by injection H as <- _]. apply (IH _ H). cbn in Hr.
  assert (cm_round (on_round_event (with_cm_round m r) msg) = r) as -> by (by destruct msg). lia.
Qed.

Lemma submission_storage s h i t s' h' :
  poll_submission s h i = Ok (t, s', h') -> rs_order_storage h' = rs_order_storage h.
Proof.
  intros H. unfold poll_submission in H. destruct s as [| | | m [|] aggs pr info |]; try by injection H as <- <- <-.
  destruct (submission_ready i) as [[|] |]; [| by injection H as <- <- <- ..].
  apply M_bind_Ok in H as (p & _ & H). by injection H as <- <- <-.
Qed.

Lemma poll_storage s h i t s' h' :
  poll_transition s h i = Ok (t, s', h') -> rs_order_storage h' = rs_order_storage h.
Proof.
  intros H. unfold poll_transition, poll_bid, poll_pre_proposal, poll_aggregation, poll_proposal, poll_finalization in H.
  destruct s as [pps aggs [p |] | pps aggs [p |] | aggs [p |] | [f |] sub aggs pr info | p f c].
  - by injection H as <- <- <-.
  - destruct (wait_ready i); [| by injection H as <- <- <-].
    apply M_bind_Ok in H as ([next h1] & Hn & H). injection H as <- <- <-.
    unfold PreProposalState_new in Hn. apply M_bind_Ok in Hn as (o & _ & Hn). by injection Hn as <- <-.
  - by injection H as <- <- <-.
  - destruct (_ <=? _)%nat; by injection H as <- <- <-.
  - by injection H as <- <- <-.
  - destruct (_ && _); by injection H as <- <- <-.
  - destruct (matching_ready i); [| by apply submission_storage in H].
    apply M_bind_Ok in H as ([[go s1] h1] & Hb & H).
    assert (Hs : rs_order_storage h1 = rs_order_storage h).
    { unfold try_build_proposal in Hb. apply M_bind_Ok in Hb as (tb & _ & Hb).
      destruct (matching_result f); [| by injection Hb as <- <- <- | done].
      destruct (encode_bundle _ _); [by injection Hb as <- <- <- .. | done]. }
    destruct go; [apply submission_storage in H; congruence | by injection H as <- <- <-].
  - by apply submission_storage in H.
  - destruct c; [by injection H as <- <- <- |].
    destruct (matching_ready i); [apply M_bind_Ok in H as (r & _ & H) |]; by injection H as <- <- <-.
Qed.

Lemma round_poll_storage r i msg r' :
  round_poll_next r i = Ok (msg, r') ->
  rs_order_storage (shared_state r') = rs_order_storage (shared_state r).
Proof.
  intros H. unfold round_poll_next in H. apply M_bind_Ok in H as ([[t s] h] & Hp & H).
  apply poll_storage in Hp. destruct (rs_messages h); by injection H as _ <-.
Qed.

(** The matching engine and the bundle encoder answer, with a result or an error. *)
Definition engine_answers : Prop :=
  (forall limit searcher pools, solve_pools limit searcher pools <> Panic) /\ forall p pools, encode_bundle p pools <> Panic.

Lemma drain_returns inputs m orders :
  let h := shared_state (cm_round m) in
  engine_answers -> state_ok (current_state (cm_round m)) h -> storage_all_orders (rs_order_storage h) = Ok orders ->
  0 <= rs_block_height h < u_max 64 -> exists b m', drain_round m inputs = Ok (b, m').
Proof.
  revert m. induction inputs as [| i inputs IH]; intros m h Heng Hs Ho Hh; cbn; [by do 2 eexists |].
  destruct (poll_returns (cm_round m) i orders Hs Ho Hh) as [[_ [_ Hp]] | [(msg & r & Hr) _]].
  { exfalso. destruct Heng as [He1 He2]. unfold matching_result in Hp.
    destruct (current_state (cm_round m)) as [| | | [f |] sub aggs pr info | p f []]; try done; [| by eapply He1].
    destruct Hp as [Hp | (sol & _ & Hp)]; [by eapply He1 | by eapply He2]. }
  rewrite Hr. cbn.
  destruct msg as [msg |]; [| by do 2 eexists].
  destruct (round_poll_keeps _ _ _ _ Hs Hr) as [Hs' (E1 & _)].
  assert (Er : cm_round (on_round_event (with_cm_round m r) msg) = r) by (by destruct msg).
  apply IH; rewrite ?Er; [done | done | by rewrite (round_poll_storage _ _ _ _ Hr) | by rewrite E1].
Qed.

End ManagerLemmas.

(** ** Properties *)

(** C33: Nodes agree on the leader: two nodes whose validator lists have the same
    members, started at any heights after the deployment block, that have seen any
    chain heads, messages and requests and are at the same height, are in the round of
    that height with the same leader, one of the validators. *)
Theorem nodes_agree {P : Profile} {E : OrderEnv} {K : SigningKey} {L : SigningLaws K} {B : Bincode}
    {A : AttestationCodec} {R : RoundEnv} sigmoid_clamp vs vs' deploy
    signer storage snapshots height jitter sync m0 m
    signer' storage' snapshots' height' jitter' sync' m0' m' :
  ok_set vs -> bounded vs -> vs ≡ₚ vs' ->
  0 < height - deploy <= u_max 64 -> 0 < height' - deploy <= u_max 64 ->
  ConsensusManager_new signer vs storage snapshots deploy height jitter sync = Ok m0 ->
  ConsensusManager_new signer' vs' storage' snapshots' deploy height' jitter' sync' = Ok m0' ->
  rtc (manager_step sigmoid_clamp) m0 m -> rtc (manager_step sigmoid_clamp) m0' m' ->
  cm_height m = cm_height m' ->
  rs_block_height (shared_state (cm_round m)) = rs_block_height (shared_state (cm_round m')) /\
  current_leader (cm_round m) = current_leader (cm_round m') /\
  current_leader (cm_round m) ∈ map peer_id vs.
Proof.
  intros Hok Hb Hp Hr Hr' Hn Hn' Hrun Hrun' Hh.
  assert (Hok' : ok_set vs') by (by eapply ok_set_perm). assert (Hb' : bounded vs') by (by eapply bounded_perm).
  destruct (manager_run_follows sigmoid_clamp vs deploy m0 m Hok Hb Hrun) as (_ & E1 & M1 & L1);
    [exact (new_follows _ _ _ _ _ _ _ _ _ Hok Hb Hr Hn) |].
  destruct (manager_run_follows sigmoid_clamp vs' deploy m0' m' Hok' Hb' Hrun') as (_ & E2 & M2 & L2);
    [exact (new_follows _ _ _ _ _ _ _ _ _ Hok' Hb' Hr' Hn') |].
  rewrite <- Hh in L2. unfold current_leader. split_and!; [congruence | | done].
  eapply leads_perm; [apply Hok | exact Hp | exact L1 | exact L2].
Qed.

(** The loop that drains the round ends: it polls at most once more than the
    queued messages and the stages that remain, and no poll panics if the matching
    engine and the bundle encoder do not. *)
Theorem drain_terminates {P : Profile} {E : OrderEnv} {K : SigningKey} {L : SigningLaws K} {B : Bincode}
    {A : AttestationCodec} {R : RoundEnv} m orders inputs :
  let h := shared_state (cm_round m) in
  engine_answers -> state_ok (current_state (cm_round m)) h -> storage_all_orders (rs_order_storage h) = Ok orders ->
  0 <= rs_block_height h < u_max 64 -> (length (rs_messages h) + 5 <= length inputs)%nat ->
  exists m', drain_round m inputs = Ok (true, m').
Proof.
  intros h He Hs Ho Hh Hl. destruct (drain_returns inputs m orders He Hs Ho Hh) as (b & m' & Hd).
  rewrite (drain_ends _ _ _ _ Hd) in Hd; [by exists m' |]. unfold potential. fold h.
  assert (weight (current_state (cm_round m)) <= 4)%nat; [| lia].
  destruct (current_state (cm_round m)) as [| | | [?|] [|] | ]; cbn; lia.
Qed.

(** An attestation of an empty block reaches every subscriber with room, and
    nothing checks that its signer or its sender is a validator: the attestation of
    any key, sent by any peer for the current block, is delivered; subscribers whose
    channel is full or closed are dropped. *)
Theorem attestation_of_any_key_delivered {P : Profile} {E : OrderEnv} {K : SigningKey} {B : Bincode}
    {A : AttestationCodec} {L : AttestationLaws A} {R : RoundEnv} m peer sk :
  0 <= signer_address sk < 2 ^ 160 -> 0 <= cm_height m < u_max 64 ->
  let bytes := sign_and_encode (cm_height m + 1) sk in
  exists m', on_network_event m (EventBundleUnlockAttestation peer (cm_height m) bytes) = Ok m' /\
    cm_subscribers m' =
      map (fun s => mkSubscriber (sub_id s) (sub_queue s ++ [mkConsensusDataWithBlock bytes (cm_height m)]) false)
        (List.filter (fun s => negb (sub_closed s) && (length (sub_queue s) <? SUBSCRIBER_CAPACITY)%nat)
           (cm_subscribers m)).
Proof.
  intros Ha Hh bytes. unfold on_network_event. cbn [event_block_height]. rewrite Z.eqb_refl. cbn [negb].
  rewrite checked_u_Ok by lia. cbn [M_bind]. unfold bytes at 1. rewrite attestation_roundtrip by done.
  eexists. split; [done |]. cbn [cm_subscribers with_cm_round with_subscribers].
  unfold notify_subscribers. clearbody bytes.
  induction (cm_subscribers m) as [| s l IH]; [done |]. cbn [List.filter]. change (omap ?f (s :: l)) with (match f s with Some y => y :: omap f l | None => omap f l end).
  unfold try_send at 1.
  destruct (sub_closed s) eqn:Ec; cbn [orb negb andb]; [exact IH |].
  destruct (Nat.leb_spec SUBSCRIBER_CAPACITY (length (sub_queue s))),
    (Nat.ltb_spec (length (sub_queue s)) SUBSCRIBER_CAPACITY); try lia; [exact IH |].
  cbn [map]. f_equal. exact IH.
Qed.

(** ** Witnesses *)

#[local] Existing Instance toy_key.
#[local] Existing Instance toy_bincode.
#[local] Existing Instance toy_attestation.
#[local] Existing Instance toy_rounds.
#[local] Existing Instance toy_env.
#[local] Existing Instance dev.

Definition demo_validators : list AngstromValidator :=
  [mkValidator 7 100000 0; mkValidator 3 200000 0; mkValidator 9 300000 0].

Definition demo_head (n : Z) : CanonStateNotification := Commit [mkBlock n n [] []].

(** A node of block 10's deployment, started at [height]. *)
Definition start_node (vs : list AngstromValidator) (height : Z) (sync : GlobalBlockSync) : M ConsensusManager :=
  ConsensusManager_new 7 vs one_order [9; 4] 10 height 0 sync.

Definition sync_at (n : Z) (ps : list GlobalBlockState) : GlobalBlockSync :=
  set_pending (GlobalBlockSync_new n) ps.

Definition node_of (r : M ConsensusManager) : ConsensusManager :=
  match r with
  | Ok m => m
  | _ => mkConsensusManager 0 (mkWRR [] 0 0 None) toy_machine (GlobalBlockSync_new 0) [] [] []
  end.

Definition early_node : ConsensusManager :=
  node_of (start_node demo_validators 12 (sync_at 12 [PendingProgression 15])).
Definition late_node : ConsensusManager :=
  node_of (start_node (reverse demo_validators) 15 (sync_at 15 [])).

Definition early_node_15 : ConsensusManager :=
  node_of (let* (_, m) := on_blockchain_state (fun x => x) early_node (demo_head 15) 1 in Ok m).

Lemma nodes_agree_witness :
  cm_height early_node_15 = 15 /\ cm_height late_node = 15 /\
  current_leader (cm_round early_node_15) = current_leader (cm_round late_node).
Proof.
  split; [vm_compute; reflexivity |]. split; [vm_compute; reflexivity |].
  apply (@nodes_agree dev toy_env toy_key toy_key_laws toy_bincode toy_attestation toy_rounds (fun x => x)
    demo_validators (reverse demo_validators) 10
    7 one_order [9; 4] 12 0 (sync_at 12 [PendingProgression 15]) early_node early_node_15
    7 one_order [9; 4] 15 0 (sync_at 15 []) late_node late_node).
  - exact (inv_set _ demo_inv).
  - exact (inv_bounded _ demo_inv).
  - symmetry. apply reverse_Permutation.
  - split; vm_compute; [reflexivity | discriminate].
  - split; vm_compute; [reflexivity | discriminate].
  - vm_compute. reflexivity.
  - vm_compute. reflexivity.
  - eapply rtc_l; [| apply rtc_refl].
    apply (@ms_block dev toy_env toy_key toy_bincode toy_attestation toy_rounds (fun x => x) early_node (demo_head 15)
      1 [1]).
    + exists (mkBlock 15 15 [] []). split; [reflexivity |]. split; vm_compute; discriminate.
    + vm_compute. reflexivity.
  - apply rtc_refl.
  - vm_compute. reflexivity.
Defined.

(** A leader at its block, with everything ready at every poll. *)
Definition demo_leader : ConsensusManager :=
  node_of (ConsensusManager_new 3 [mkValidator 3 200000 0] one_order [9; 4] 10 12 0 (sync_at 12 [])).

Lemma drain_terminates_witness :
  exists m', drain_round demo_leader (repeat toy_input 5) = Ok (true, m').
Proof.
  apply (@drain_terminates dev toy_env toy_key toy_key_laws toy_bincode toy_attestation toy_rounds demo_leader
    (match storage_all_orders one_order with Ok o => o | _ => mkOrderSet [] [] end) (repeat toy_input 5)).
  - by split.
  - assert (current_state (cm_round demo_leader) = BidAggregationState [] [] None) as -> by (vm_compute; reflexivity).
    split_and!; [split; constructor | split; constructor | exact I].
  - vm_compute. reflexivity.
  - split; vm_compute; [discriminate | reflexivity].
  - vm_compute. lia.
Defined.

(** A lone leader sends its pre-proposal and its aggregation in one drain, and its
    proposal when it is woken again for the matching. *)
Example lone_leader_messages :
  match (let* (_, m) := drain_round demo_leader (repeat toy_input 5) in drain_round m (repeat toy_input 5)) with
  | Ok (_, m) => map (fun x => match x with PrePropose _ => 1 | PreProposeAgg _ => 2 | Propose _ => 3 | _ => 4 end)
                   (cm_network m)
  | _ => []
  end = [1; 2; 3].
Proof. vm_compute. reflexivity. Qed.

(** A node started at the deployment block makes one selection more than the others
    and follows other leaders. *)
Definition leaders_from (start : Z) (heights : list Z) : list (option Z) :=
  (fold_left (fun acc h => match choose_proposer acc.1 h with
                           | Ok (s, l) => (s, acc.2 ++ [l])
                           | _ => acc
                           end) (start :: heights) (WeightedRoundRobin_new demo_validators 10, [])).2.

Example deployment_node_differs :
  leaders_from 10 [11; 12; 13] = [Some 9; Some 3; Some 9; Some 7] /\
  leaders_from 11 [12; 13] = [Some 9; Some 3; Some 9].
Proof. split; vm_compute; reflexivity. Qed.

(** The toy codec satisfies the laws of the codec for keys and hashes of its width. *)
Definition toy_codec : @AttestationCodec toy_key := {|
  attestation_hash block := block;
  pade_encode_sig s := repeat 0 63 ++ [s.1; s.2];
  pade_decode_sig b := match drop 63 b with [x; y] => Some (x, y) | _ => None end;
  recover_signer_address s h := if s.2 =? h then Some s.1 else None;
|}.

Lemma toy_codec_laws : @AttestationLaws toy_key toy_codec.
Proof. split; [done | by intros [x y] |]. intros sk h. cbn. by rewrite Z.eqb_refl. Qed.

(** Key 99 is no validator of the node. *)
Lemma attestation_of_any_key_delivered_witness :
  let m := with_subscribers early_node [mkSubscriber 1 [] false; mkSubscriber 2 [] true] in
  let bytes := @sign_and_encode toy_key toy_codec (cm_height m + 1) 99 in
  exists m', @on_network_event dev toy_env toy_key toy_bincode toy_codec toy_rounds m
      (EventBundleUnlockAttestation 98 (cm_height m) bytes) = Ok m' /\
    cm_subscribers m' = [mkSubscriber 1 [mkConsensusDataWithBlock bytes (cm_height m)] false].
Proof.
  apply (@attestation_of_any_key_delivered dev toy_env toy_key toy_bincode toy_codec toy_codec_laws toy_rounds
    (with_subscribers early_node [mkSubscriber 1 [] false; mkSubscriber 2 [] true]) 98 99).
  - split; vm_compute; [discriminate | reflexivity].
  - split; vm_compute; [discriminate | reflexivity].
Defined.
