(* ===== verification/BundleOrders.v ===== *)
(** * Orders inside a bundle

    crates/types/src/contract_payloads/mod.rs and angstrom/{order,tob}.rs: the
    compact form in which user and top-of-block orders are handed to the contract,
    how it is made from a pool order, and how the hash and the signer of the order are
    recovered from the compact form once a bundle has landed. *)

From S2P Require Import Prelude Uniswap Ray Orders Assets.
Import OmitOrderMeta.

(** ** Signatures (contract_payloads/mod.rs) *)

(** [alloy]'s signature: its parts, its constructor and the reading of the recovery
    byte. *)
Class AlloySignature {C : OrderCrypto} := {
  sig_v : Signature -> bool;
  sig_r : Signature -> Z;
  sig_s : Signature -> Z;
  Signature_new : Z -> Z -> bool -> Signature;
  normalize_v : Z -> option bool;
}.

Class AlloySignatureLaws {C : OrderCrypto} (A : AlloySignature) : Prop := {
  signature_parts : forall s, Signature_new (sig_r s) (sig_s s) (sig_v s) = s;
  normalize_27 : normalize_v 27 = Some false;
  normalize_28 : normalize_v 28 = Some true;
}.

Inductive ContractSignature :=
| SigContract (from : Address) (signature : Bytes)
| SigEcdsa (v r s : Z).

(** A pair of assets; the indices point into the asset list of the bundle. *)
Record Pair := mkPair {
  index0 : Z;
  index1 : Z;
  store_index : Z;
  price_1over0 : Z;
}.

Section Signatures.
Context {C : OrderCrypto} {A : AlloySignature}.

Definition signature_recover_signer (s : ContractSignature) (hash : B256) : M Address :=
  match s with
  | SigContract from _ => Ok from
  | SigEcdsa v r s =>
      let* parity := unwrap (normalize_v v) in
      unwrap (recover_address_from_prehash (Signature_new r s parity) hash)
  end.

Definition signature_from (s : Signature) : ContractSignature :=
  SigEcdsa (27 + Z.b2z (sig_v s)) (sig_r s) (sig_s s).

Lemma recover_from {L : AlloySignatureLaws A} s h :
  signature_recover_signer (signature_from s) h = unwrap (recover_address_from_prehash s h).
Proof.
  pose proof (signature_parts s) as E. unfold signature_recover_signer, signature_from.
  destruct (sig_v s) eqn:Ev; cbn [Z.b2z Z.add Pos.add].
  - change (27 + 1) with 28. rewrite normalize_28. cbn. by rewrite E.
  - change (27 + 0) with 27. rewrite normalize_27. cbn. by rewrite E.
Qed.

End Signatures.

(** ** User orders (order.rs) *)

Inductive OrderQuantities :=
| QExact (quantity : Z)
| QPartial (min_quantity_in max_quantity_in filled_quantity : Z).

Definition fetch_max_amount (q : OrderQuantities) : Z :=
  match q with QExact q => q | QPartial _ q _ => q end.

Record StandingValidation := mkStandingValidation {
  stv_nonce : Z;
  stv_deadline : Z;
}.

Record UserOrder := mkUserOrder {
  uo_ref_id : Z;
  uo_use_internal : bool;
  uo_pair_index : Z;
  uo_min_price : Z;
  uo_recipient : option Address;
  uo_hook_data : option Bytes;
  uo_zero_for_one : bool;
  uo_standing_validation : option StandingValidation;
  uo_order_quantities : OrderQuantities;
  uo_max_extra_fee_asset0 : Z;
  uo_extra_fee_asset0 : Z;
  uo_exact_in : bool;
  uo_signature : ContractSignature;
}.

Definition default_meta : OrderMeta := mkOrderMeta false 0 [].
Definition meta_of (from : Address) : OrderMeta := mkOrderMeta false from [].

(** [slice[i as usize]]. *)
Definition index {A} (l : list A) (i : Z) : M A := unwrap (l !! Z.to_nat i).

(** Token in and token out of an order on a pair. *)
Definition pair_tokens (pairs : list Pair) (assets : list Asset) (pair_index : Z) (zero_for_one : bool) :
    M (Address * Address) :=
  let* p := index pairs pair_index in
  let* a0 := index assets (index0 p) in
  let* a1 := index assets (index1 p) in
  Ok (if zero_for_one then (asset_addr a0, asset_addr a1) else (asset_addr a1, asset_addr a0)).

Section UserOrders.
Context {E : OrderEnv} {A : AlloySignature}.

(** The signed struct that [order_hash] and [signing_hash] rebuild. *)
Definition recovered_order (u : UserOrder) (pairs : list Pair) (assets : list Asset) (block : Z)
    (meta : OrderMeta) : M AllOrders :=
  let* (asset_in, asset_out) := pair_tokens pairs assets (uo_pair_index u) (uo_zero_for_one u) in
  let recipient := default 0 (uo_recipient u) in
  let hook_data := default [] (uo_hook_data u) in
  match uo_order_quantities u, uo_standing_validation u with
  | QExact quantity, Some v =>
      let* deadline := uint_from 40 (stv_deadline v) in
      Ok (ExactStanding (mkExactStandingOrder (uo_ref_id u) (uo_exact_in u) quantity
            (uo_max_extra_fee_asset0 u) (uo_min_price u) (uo_use_internal u) asset_in asset_out recipient
            hook_data (stv_nonce v) deadline meta))
  | QExact quantity, None =>
      Ok (ExactFlash (mkExactFlashOrder (uo_ref_id u) (uo_exact_in u) quantity
            (uo_max_extra_fee_asset0 u) (uo_min_price u) (uo_use_internal u) asset_in asset_out recipient
            hook_data block meta))
  | QPartial min_q max_q _, Some v =>
      let* deadline := uint_from 40 (stv_deadline v) in
      Ok (PartialStanding (mkPartialStandingOrder (uo_ref_id u) min_q max_q
            (uo_max_extra_fee_asset0 u) (uo_min_price u) (uo_use_internal u) asset_in asset_out recipient
            hook_data (stv_nonce v) deadline meta))
  | QPartial min_q max_q _, None =>
      Ok (PartialFlash (mkPartialFlashOrder (uo_ref_id u) min_q max_q
            (uo_max_extra_fee_asset0 u) (uo_min_price u) (uo_use_internal u) asset_in asset_out recipient
            hook_data block meta))
  end.

(** The digest a wallet signs for an order. *)
Definition order_signing_hash (o : AllOrders) : B256 :=
  match o with
  | ExactStanding x => no_meta_eip712_signing_hash x
  | PartialStanding x => no_meta_eip712_signing_hash x
  | ExactFlash x => no_meta_eip712_signing_hash x
  | PartialFlash x => no_meta_eip712_signing_hash x
  | TOB x => no_meta_eip712_signing_hash x
  end.

Definition uo_signing_hash (u : UserOrder) (pairs : list Pair) (assets : list Asset) (block : Z) : M B256 :=
  let* recovered := recovered_order u pairs assets block default_meta in
  Ok (order_signing_hash recovered).

Definition uo_recover_signer (u : UserOrder) (pairs : list Pair) (assets : list Asset) (block : Z) :
    M Address :=
  let* h := uo_signing_hash u pairs assets block in
  signature_recover_signer (uo_signature u) h.

Definition uo_order_hash (u : UserOrder) (pairs : list Pair) (assets : list Asset) (block : Z) : M B256 :=
  let* from := uo_recover_signer u pairs assets block in
  let* recovered := recovered_order u pairs assets block (meta_of from) in
  Ok (order_hash recovered).

(** Quantities, validation data, recipient and hook data of a limit order. *)
Definition order_parts (o : AllOrders) (outcome : OrderOutcome) :
    M (OrderQuantities * option StandingValidation * Address * Bytes) :=
  match o with
  | PartialFlash p =>
      Ok (QPartial (pf_min_amount_in p) (pf_max_amount_in p) (fill_amount outcome (pf_max_amount_in p)),
          None, pf_recipient p, pf_hook_data p)
  | PartialStanding p =>
      Ok (QPartial (ps_min_amount_in p) (ps_max_amount_in p) (fill_amount outcome (ps_max_amount_in p)),
          Some (mkStandingValidation (ps_nonce p) (ps_deadline p)), ps_recipient p, ps_hook_data p)
  | ExactFlash p => Ok (QExact (amount o), None, ef_recipient p, ef_hook_data p)
  | ExactStanding p =>
      Ok (QExact (amount o), Some (mkStandingValidation (es_nonce p) (es_deadline p)), es_recipient p,
          es_hook_data p)
  | TOB _ => Panic
  end.

Definition nonzero_recipient (r : Address) : option Address := if r =? 0 then None else Some r.
Definition nonempty_hook (h : Bytes) : option Bytes := if bool_decide (h = []) then None else Some h.

Definition from_internal_order (o : OrderWithStorageData AllOrders) (outcome : OrderOutcome)
    (shared_gas pair_index : Z) : M UserOrder :=
  let* (quantities, validation, recipient, hook) := order_parts (order o) outcome in
  let* gas_used := uint_from 128 (pd_gas (priority_data o)) in
  if max_gas_token_0 (order o) <? gas_used then Err "order used more gas than allocated" else
  let* sig := unwrap (order_signature (order o)) in
  let* min_price := limit_price (order o) in
  Ok (mkUserOrder 0 (use_internal (order o)) pair_index min_price (nonzero_recipient recipient)
        (nonempty_hook hook) (negb (osd_is_bid o)) validation quantities (max_gas_token_0 (order o)) gas_used
        (exact_in (order o)) (signature_from sig)).

Definition from_internal_order_max_gas (o : OrderWithStorageData AllOrders) (outcome : OrderOutcome)
    (pair_index : Z) : M UserOrder :=
  let* (quantities, validation, recipient, hook) := order_parts (order o) outcome in
  let* sig := unwrap (order_signature (order o)) in
  let* min_price := limit_price (order o) in
  let* gas_used := uint_from 128 (pd_gas (priority_data o)) in
  Ok (mkUserOrder 0 (use_internal (order o)) pair_index min_price (nonzero_recipient recipient)
        (nonempty_hook hook) (negb (osd_is_bid o)) validation quantities (max_gas_token_0 (order o)) gas_used
        (exact_in (order o)) (signature_from sig)).

(** ** Top-of-block orders (tob.rs) *)

Record ContractTob := mkContractTob {
  ct_use_internal : bool;
  ct_quantity_in : Z;
  ct_quantity_out : Z;
  ct_max_gas_asset_0 : Z;
  ct_gas_used_asset_0 : Z;
  ct_pairs_index : Z;
  ct_zero_for_1 : bool;
  ct_recipient : option Address;
  ct_signature : ContractSignature;
}.

Definition recover_order (c : ContractTob) (pairs : list Pair) (assets : list Asset) (block : Z) :
    M TopOfBlockOrder :=
  let* (asset_in, asset_out) := pair_tokens pairs assets (ct_pairs_index c) (ct_zero_for_1 c) in
  Ok (mkTopOfBlockOrder (ct_quantity_in c) (ct_quantity_out c) (ct_max_gas_asset_0 c) (ct_use_internal c)
        asset_in asset_out (default 0 (ct_recipient c)) block default_meta).

Definition tob_signing_hash (c : ContractTob) (pairs : list Pair) (assets : list Asset) (block : Z) : M B256 :=
  let* o := recover_order c pairs assets block in
  Ok (no_meta_eip712_signing_hash o).

Definition tob_user_address (c : ContractTob) (pairs : list Pair) (assets : list Asset) (block : Z) :
    M Address :=
  let* h := tob_signing_hash c pairs assets block in
  signature_recover_signer (ct_signature c) h.

Definition tob_order_hash (c : ContractTob) (pairs : list Pair) (assets : list Asset) (block : Z) : M B256 :=
  let* o := recover_order c pairs assets block in
  let* h := tob_signing_hash c pairs assets block in
  let* from := signature_recover_signer (ct_signature c) h in
  Ok (order_hash (set_meta (meta_of from) o)).

Definition of_max_gas (tob : OrderWithStorageData TopOfBlockOrder) (pairs_index : Z) : M ContractTob :=
  let o := order tob in
  let* sig := unwrap (pade_decode_signature (signature (tob_meta o))) in
  let* gas_used := uint_from 128 (pd_gas (priority_data tob)) in
  Ok (mkContractTob (tob_use_internal o) (tob_quantity_in o) (tob_quantity_out o) (tob_max_gas_asset0 o)
        gas_used pairs_index (negb (osd_is_bid tob)) (nonzero_recipient (tob_recipient o)) (signature_from sig)).

Definition tob_of (tob : OrderWithStorageData TopOfBlockOrder) (shared_gas pairs_index : Z) : M ContractTob :=
  let o := order tob in
  let* sig := unwrap (pade_decode_signature (signature (tob_meta o))) in
  let used_gas := saturate_u 128 (pd_gas (priority_data tob)) in
  if tob_max_gas_asset0 o <? used_gas then Err "order went over gas limit" else
  Ok (mkContractTob (tob_use_internal o) (tob_quantity_in o) (tob_quantity_out o) (tob_max_gas_asset0 o)
        used_gas pairs_index (negb (osd_is_bid tob)) (nonzero_recipient (tob_recipient o)) (signature_from sig)).

End UserOrders.

(** ** Lemmas *)

(** The reference of an order. *)
Definition order_ref_id (o : AllOrders) : Z :=
  match o with
  | ExactStanding x => es_ref_id x
  | PartialStanding x => ps_ref_id x
  | ExactFlash x => ef_ref_id x
  | PartialFlash x => pf_ref_id x
  | TOB _ => 0
  end.

Definition with_ref_id (r : Z) (o : AllOrders) : AllOrders :=
  match o with
  | ExactStanding x => ExactStanding (mkExactStandingOrder r (es_exact_in x) (es_amount x)
      (es_max_extra_fee_asset0 x) (es_min_price x) (es_use_internal x) (es_asset_in x) (es_asset_out x)
      (es_recipient x) (es_hook_data x) (es_nonce x) (es_deadline x) (es_meta x))
  | PartialStanding x => PartialStanding (mkPartialStandingOrder r (ps_min_amount_in x) (ps_max_amount_in x)
      (ps_max_extra_fee_asset0 x) (ps_min_price x) (ps_use_internal x) (ps_asset_in x) (ps_asset_out x)
      (ps_recipient x) (ps_hook_data x) (ps_nonce x) (ps_deadline x) (ps_meta x))
  | ExactFlash x => ExactFlash (mkExactFlashOrder r (ef_exact_in x) (ef_amount x)
      (ef_max_extra_fee_asset0 x) (ef_min_price x) (ef_use_internal x) (ef_asset_in x) (ef_asset_out x)
      (ef_recipient x) (ef_hook_data x) (ef_valid_for_block x) (ef_meta x))
  | PartialFlash x => PartialFlash (mkPartialFlashOrder r (pf_min_amount_in x) (pf_max_amount_in x)
      (pf_max_extra_fee_asset0 x) (pf_min_price x) (pf_use_internal x) (pf_asset_in x) (pf_asset_out x)
      (pf_recipient x) (pf_hook_data x) (pf_valid_for_block x) (pf_meta x))
  | TOB x => TOB x
  end.

Lemma with_own_ref o : with_ref_id (order_ref_id o) o = o.
Proof. by destruct o as [[] | [] | [] | [] | []]. Qed.

Class OrderEnvLaws (E : OrderEnv) := {
  laws_ps :: SolStructLaws PartialStandingOrder;
  laws_es :: SolStructLaws ExactStandingOrder;
  laws_pf :: SolStructLaws PartialFlashOrder;
  laws_ef :: SolStructLaws ExactFlashOrder;
  laws_tob :: SolStructLaws TopOfBlockOrder;
}.

Lemma recipient_back r : default 0 (nonzero_recipient r) = r.
Proof. unfold nonzero_recipient. by destruct (Z.eqb_spec r 0). Qed.

Lemma hook_back h : default [] (nonempty_hook h) = h.
Proof. unfold nonempty_hook. by case_bool_decide. Qed.

Section Recovery.
Context {E : OrderEnv} {A : AlloySignature}.

(** The pair at an index of the bundle has the tokens [t0] and [t1]. *)
Definition pair_at (pairs : list Pair) (assets : list Asset) (i t0 t1 : Z) : Prop :=
  exists p a0 a1, pairs !! Z.to_nat i = Some p /\ assets !! Z.to_nat (index0 p) = Some a0 /\
    assets !! Z.to_nat (index1 p) = Some a1 /\ asset_addr a0 = t0 /\ asset_addr a1 = t1.

(** The order trades [t0] against [t1], and its stored side is the right one. *)
Definition on_pair {O} `{!RawPoolOrder O} (o : OrderWithStorageData O) (t0 t1 : Z) : Prop :=
  if osd_is_bid o then token_in (order o) = t1 /\ token_out (order o) = t0
  else token_in (order o) = t0 /\ token_out (order o) = t1.

(** Orders that name a block name the given one; deadlines fit 40 bits. *)
Definition executable_at (o : AllOrders) (block : Z) : Prop :=
  (forall b, flash_block o = Some b -> b = block) /\
  (forall d, deadline o = Some d -> 0 <= d <= u_max 40).

Lemma pair_tokens_at pairs assets i t0 t1 z :
  pair_at pairs assets i t0 t1 ->
  pair_tokens pairs assets i z = Ok (if z then (t0, t1) else (t1, t0)).
Proof.
  intros (p & a0 & a1 & Hp & H0 & H1 & <- & <-). unfold pair_tokens, index.
  rewrite Hp. cbn [M_bind unwrap]. rewrite H0. cbn [M_bind unwrap]. by rewrite H1.
Qed.

Lemma parts_total (o : AllOrders) outcome :
  is_tob o = false -> exists parts, order_parts o outcome = Ok parts.
Proof. destruct o; [by eexists.. | done]. Qed.

(** A converted order, read back, is the order with reference 0. *)
Lemma recovered_back (o : OrderWithStorageData AllOrders) outcome q v r hk pi t0 t1 pairs assets block meta mp
    maxg g sg :
  order_parts (order o) outcome = Ok (q, v, r, hk) -> limit_price (order o) = Ok mp ->
  pair_at pairs assets pi t0 t1 -> on_pair o t0 t1 -> executable_at (order o) block ->
  maxg = max_gas_token_0 (order o) ->
  recovered_order
    (mkUserOrder 0 (use_internal (order o)) pi mp (nonzero_recipient r) (nonempty_hook hk) (negb (osd_is_bid o)) v q
       maxg g (exact_in (order o)) sg)
    pairs assets block meta = Ok (set_meta meta (with_ref_id 0 (order o))).
Proof.
  intros Hp Hl Hpair Hon [Hb Hd] ->. unfold recovered_order. cbn [uo_pair_index uo_zero_for_one].
  rewrite (pair_tokens_at _ _ _ _ _ _ Hpair). unfold on_pair in Hon.
  assert (Ht : (if negb (osd_is_bid o) then (t0, t1) else (t1, t0)) = (token_in (order o), token_out (order o)))
    by (destruct (osd_is_bid o); destruct Hon as [-> ->]; done).
  rewrite Ht. clear Ht Hon Hpair.
  destruct (order o) as [x | x | x | x | x]; cbn in Hp; [.. | done]; injection Hp as <- <- <- <-;
    cbn [M_bind uo_recipient uo_hook_data uo_order_quantities uo_standing_validation stv_deadline];
    rewrite ?recipient_back, ?hook_back; injection Hl as <-.
  - unfold uint_from. destruct (Hd (es_deadline x) eq_refl) as [H1 H2]. unfold fits_u.
    rewrite (proj2 (Z.leb_le _ _) H1), (proj2 (Z.leb_le _ _) H2). by destruct x.
  - unfold uint_from. destruct (Hd (ps_deadline x) eq_refl) as [H1 H2]. unfold fits_u.
    rewrite (proj2 (Z.leb_le _ _) H1), (proj2 (Z.leb_le _ _) H2). by destruct x.
  - rewrite <- (Hb (ef_valid_for_block x) eq_refl). by destruct x.
  - rewrite <- (Hb (pf_valid_for_block x) eq_refl). by destruct x.
Qed.

Context {LE : OrderEnvLaws E} {LA : AlloySignatureLaws A}.

Lemma signing_hash_set_meta o m : order_signing_hash (set_meta m o) = order_signing_hash o.
Proof. destruct o as [x | x | x | x | x]; exact (signing_hash_meta x m). Qed.

Lemma order_hash_set_meta (o : AllOrders) m : meta_from m = from o -> order_hash (set_meta m o) = order_hash o.
Proof.
  intros He. destruct o as [x | x | x | x | x]; cbn in *; rewrite He; exact (unique_hash_meta x m _).
Qed.

Lemma valid_signature_recovers (o : AllOrders) :
  is_valid_signature o = true ->
  exists sig, order_signature o = Some sig /\
    recover_address_from_prehash sig (order_signing_hash o) = Some (from o).
Proof. destruct o as [x | x | x | x | x]; cbn; by rewrite valid_signature_sound. Qed.

(** The order in the bundle, on success of the conversion. *)
Definition bundled (o : OrderWithStorageData AllOrders) (pi : Z) (u : UserOrder) : Prop :=
  exists outcome q v r hk mp sig,
    order_parts (order o) outcome = Ok (q, v, r, hk) /\ limit_price (order o) = Ok mp /\
    order_signature (order o) = Some sig /\
    u = mkUserOrder 0 (use_internal (order o)) pi mp (nonzero_recipient r) (nonempty_hook hk)
          (negb (osd_is_bid o)) v q (max_gas_token_0 (order o)) (pd_gas (priority_data o)) (exact_in (order o))
          (signature_from sig).

Lemma from_internal_bundled o outcome g pi u : from_internal_order o outcome g pi = Ok u -> bundled o pi u.
Proof.
  unfold from_internal_order. intros H. apply M_bind_Ok in H as ([[[q v] r] hk] & Hp & H).
  apply M_bind_Ok in H as (gu & Hg & H). unfold uint_from in Hg. destruct (fits_u _ _); [| done]. injection Hg as <-.
  destruct (_ <? _); [done |]. apply M_bind_Ok in H as (sig & Hs & H). apply M_bind_Ok in H as (mp & Hm & H).
  destruct (order_signature (order o)) eqn:Eo; [| done]. injection Hs as ->. injection H as <-.
  by exists outcome, q, v, r, hk, mp, sig.
Qed.

Lemma max_gas_bundled o outcome pi u : from_internal_order_max_gas o outcome pi = Ok u -> bundled o pi u.
Proof.
  unfold from_internal_order_max_gas. intros H. apply M_bind_Ok in H as ([[[q v] r] hk] & Hp & H).
  apply M_bind_Ok in H as (sig & Hs & H). apply M_bind_Ok in H as (mp & Hm & H).
  apply M_bind_Ok in H as (gu & Hg & H). unfold uint_from in Hg. destruct (fits_u _ _); [| done]. injection Hg as <-.
  destruct (order_signature (order o)) eqn:Eo; [| done]. injection Hs as ->. injection H as <-.
  by exists outcome, q, v, r, hk, mp, sig.
Qed.

Lemma bundled_signing_hash o pi u t0 t1 pairs assets block :
  bundled o pi u -> pair_at pairs assets pi t0 t1 -> on_pair o t0 t1 -> executable_at (order o) block ->
  uo_signing_hash u pairs assets block = Ok (order_signing_hash (with_ref_id 0 (order o))).
Proof.
  intros (outcome & q & v & r & hk & mp & sig & Hp & Hm & Hs & ->) Hpair Hon Hex. unfold uo_signing_hash.
  rewrite (recovered_back _ _ _ _ _ _ _ _ _ _ _ _ _ _ _ _ _ Hp Hm Hpair Hon Hex eq_refl). cbn [M_bind].
  by rewrite signing_hash_set_meta.
Qed.

Lemma bundled_hash o pi u t0 t1 pairs assets block :
  bundled o pi u -> pair_at pairs assets pi t0 t1 -> on_pair o t0 t1 -> executable_at (order o) block ->
  order_ref_id (order o) = 0 -> is_valid_signature (order o) = true ->
  uo_recover_signer u pairs assets block = Ok (from (order o)) /\
  uo_order_hash u pairs assets block = Ok (order_hash (order o)).
Proof.
  intros Hb Hpair Hon Hex Hr Hv.
  pose proof (bundled_signing_hash _ _ _ _ _ _ _ _ Hb Hpair Hon Hex) as Hsh.
  destruct Hb as (outcome & q & v & r & hk & mp & sig & Hp & Hm & Hs & Hu).
  rewrite <- Hr, with_own_ref in Hsh. destruct (valid_signature_recovers _ Hv) as (sig' & Hs' & Hrec).
  rewrite Hs in Hs'. injection Hs' as <-.
  assert (Hsigner : uo_recover_signer u pairs assets block = Ok (from (order o))).
  { unfold uo_recover_signer. rewrite Hsh. cbn [M_bind]. rewrite Hu. cbn [uo_signature].
    by rewrite recover_from, Hrec. }
  split; [done |]. unfold uo_order_hash. rewrite Hsigner. cbn [M_bind]. subst u.
  rewrite (recovered_back _ _ _ _ _ _ _ _ _ _ _ _ _ _ _ _ _ Hp Hm Hpair Hon Hex eq_refl). cbn [M_bind].
  rewrite <- Hr at 1. rewrite with_own_ref. f_equal. by apply order_hash_set_meta.
Qed.

(** Top-of-block orders likewise. *)
Definition tob_bundled (tob : OrderWithStorageData TopOfBlockOrder) (pi : Z) (c : ContractTob) : Prop :=
  exists g sig, pade_decode_signature (signature (tob_meta (order tob))) = Some sig /\
    let o := order tob in
    c = mkContractTob (tob_use_internal o) (tob_quantity_in o) (tob_quantity_out o) (tob_max_gas_asset0 o) g pi
          (negb (osd_is_bid tob)) (nonzero_recipient (tob_recipient o)) (signature_from sig).

Lemma tob_of_bundled tob g pi c : tob_of tob g pi = Ok c -> tob_bundled tob pi c.
Proof.
  unfold tob_of. intros H. apply M_bind_Ok in H as (sig & Hs & H).
  destruct (pade_decode_signature _) eqn:Ed; [| done]. injection Hs as ->. destruct (_ <? _); [done |].
  injection H as <-. by eexists _, sig.
Qed.

Lemma tob_max_gas_bundled tob pi c : of_max_gas tob pi = Ok c -> tob_bundled tob pi c.
Proof.
  unfold of_max_gas. intros H. apply M_bind_Ok in H as (sig & Hs & H).
  destruct (pade_decode_signature _) eqn:Ed; [| done]. injection Hs as ->.
  apply M_bind_Ok in H as (g & _ & H). injection H as <-. by eexists _, sig.
Qed.

Lemma tob_recover_back tob pi c t0 t1 pairs assets :
  tob_bundled tob pi c -> pair_at pairs assets pi t0 t1 -> on_pair tob t0 t1 ->
  recover_order c pairs assets (tob_valid_for_block (order tob)) = Ok (set_meta default_meta (order tob)).
Proof.
  intros (g & sig & Hs & ->) Hpair Hon. unfold recover_order. cbn [ct_pairs_index ct_zero_for_1].
  rewrite (pair_tokens_at _ _ _ _ _ _ Hpair). unfold on_pair in Hon. cbn in Hon |- *. rewrite recipient_back.
  destruct (order tob), (osd_is_bid tob); cbn in *; destruct Hon as [-> ->]; done.
Qed.

Lemma tob_bundled_hash tob pi c t0 t1 pairs assets :
  tob_bundled tob pi c -> pair_at pairs assets pi t0 t1 -> on_pair tob t0 t1 ->
  is_valid_signature (order tob) = true ->
  tob_user_address c pairs assets (tob_valid_for_block (order tob)) = Ok (from (order tob)) /\
  tob_order_hash c pairs assets (tob_valid_for_block (order tob)) = Ok (order_hash (order tob)).
Proof.
  intros Hb Hpair Hon Hv. pose proof (tob_recover_back _ _ _ _ _ _ _ Hb Hpair Hon) as Hr.
  cbn in Hv. apply valid_signature_sound in Hv as (sig' & Hs' & Hrec).
  destruct Hb as (g & sig & Hs & Hc). rewrite Hs in Hs'. injection Hs' as <-.
  assert (Hsh : tob_signing_hash c pairs assets (tob_valid_for_block (order tob)) =
    Ok (no_meta_eip712_signing_hash (order tob))).
  { unfold tob_signing_hash. rewrite Hr. cbn [M_bind]. f_equal. apply (signing_hash_meta (order tob)). }
  assert (Hsig : ct_signature c = signature_from sig) by (by rewrite Hc).
  split.
  - unfold tob_user_address. rewrite Hsh. cbn [M_bind]. by rewrite Hsig, recover_from, Hrec.
  - unfold tob_order_hash. rewrite Hr, Hsh. cbn [M_bind]. rewrite Hsig, recover_from, Hrec. cbn [M_bind unwrap].
    f_equal. cbn [order_hash TopOfBlockOrder_raw].
    change (set_meta (meta_of ?a) (set_meta default_meta ?x)) with (set_meta (meta_of a) x).
    exact (unique_hash_meta (order tob) _ _).
Qed.

End Recovery.

(** ** Properties *)

(** C38: A limit order of the pool that the bundle can carry is converted, and what is
    read back from the bundle on chain is the same order with reference 0: its signing
    digest is the one of that order, and for an order with reference 0 and a valid
    signature the recovered signer is the sender and the hash is the order's hash. *)
Theorem user_order_roundtrip {E : OrderEnv} {A : AlloySignature} {LE : OrderEnvLaws E}
    {LA : AlloySignatureLaws A} (o : OrderWithStorageData AllOrders) outcome g pi t0 t1 pairs assets block sig :
  is_tob (order o) = false -> order_signature (order o) = Some sig ->
  0 <= pd_gas (priority_data o) <= max_gas_token_0 (order o) -> max_gas_token_0 (order o) <= u_max 128 ->
  pair_at pairs assets pi t0 t1 -> on_pair o t0 t1 -> executable_at (order o) block ->
  exists u, from_internal_order o outcome g pi = Ok u /\ from_internal_order_max_gas o outcome pi = Ok u /\
    uo_signing_hash u pairs assets block = Ok (order_signing_hash (with_ref_id 0 (order o))) /\
    (order_ref_id (order o) = 0 -> is_valid_signature (order o) = true ->
     uo_recover_signer u pairs assets block = Ok (from (order o)) /\
     uo_order_hash u pairs assets block = Ok (order_hash (order o))).
Proof.
  intros Ht Hs Hg Hm Hpair Hon Hex. destruct (parts_total (order o) outcome Ht) as ([[[q v] r] hk] & Hp).
  assert (Hl : exists mp, limit_price (order o) = Ok mp) by (destruct (order o); [by eexists.. | done]).
  destruct Hl as (mp & Hl).
  assert (Hu : uint_from 128 (pd_gas (priority_data o)) = Ok (pd_gas (priority_data o))).
  { apply uint_from_Ok. split; [done | lia]. }
  assert (Hf : from_internal_order o outcome g pi = Ok (mkUserOrder 0 (use_internal (order o)) pi mp
    (nonzero_recipient r) (nonempty_hook hk) (negb (osd_is_bid o)) v q (max_gas_token_0 (order o))
    (pd_gas (priority_data o)) (exact_in (order o)) (signature_from sig))).
  { unfold from_internal_order. rewrite Hp. cbn [M_bind]. rewrite Hu. cbn [M_bind].
    rewrite (proj2 (Z.ltb_ge _ _)) by lia. rewrite Hs. cbn [M_bind unwrap]. by rewrite Hl. }
  eexists. split_and!; [exact Hf | | |].
  - unfold from_internal_order_max_gas. rewrite Hp. cbn [M_bind]. rewrite Hs. cbn [M_bind unwrap]. rewrite Hl.
    cbn [M_bind]. by rewrite Hu.
  - eapply bundled_signing_hash; [by eapply from_internal_bundled | done..].
  - intros Hr Hv. eapply bundled_hash; [by eapply from_internal_bundled | done..].
Qed.

(** ** Witnesses *)

Definition toy_alloy : @AlloySignature toy_crypto := {|
  sig_v _ := false;
  sig_r (s : @Signature toy_crypto) := s;
  sig_s _ := 0;
  Signature_new r _ _ := r;
  normalize_v v := if v =? 27 then Some false else if v =? 28 then Some true else None;
|}.

Lemma toy_alloy_laws : @AlloySignatureLaws toy_crypto toy_alloy.
Proof. by split. Qed.

Lemma toy_env_laws : OrderEnvLaws toy_env.
Proof.
  exact (Build_OrderEnvLaws toy_env toy_ps_laws toy_es_laws toy_pf_laws toy_ef_laws toy_tob_laws).
Defined.

#[local] Existing Instance toy_env.
#[local] Existing Instance toy_alloy.

(** Stored orders of the pool 9 on the tokens 1 and 2, with the sender their signature recovers to. *)
Definition signed_limit (bid : bool) (h max price : Z) : OrderWithStorageData AllOrders :=
  let o m := PartialStanding (mkPartialStandingOrder 0 1 max 2 price false (if bid then 2 else 1)
               (if bid then 1 else 2) 0 [] 3 99 m) in
  let sender := (1 + order_signing_hash (o default_meta)) mod 2 ^ 160 in
  mkOrderWithStorageData (o (mkOrderMeta true sender [1])) (mkOrderPriorityData price max 2 1) [] 9 None bid true 1
    (mkOrderId sender 9 h (Nonce 3) None None Limit) 0.

Definition signed_tob (bid : bool) (q_in q_out : Z) : OrderWithStorageData TopOfBlockOrder :=
  let o m := mkTopOfBlockOrder q_in q_out 3 false (if bid then 2 else 1) (if bid then 1 else 2) 0 8 m in
  let sender := (1 + no_meta_eip712_signing_hash (o default_meta)) mod 2 ^ 160 in
  mkOrderWithStorageData (o (mkOrderMeta true sender [1])) (mkOrderPriorityData 0 0 2 1) [] 9 None bid true 1
    (mkOrderId sender 9 0 (Nonce 0) None None Searcher) 0.

Lemma user_order_roundtrip_witness :
  let pairs := [mkPair 0 1 0 (10 ^ 27)] in
  let assets := [mkAsset 1 0 0 0; mkAsset 2 0 0 0] in
  let o := signed_limit false 5 100 (10 ^ 27) in
  exists u, from_internal_order o (mkOrderOutcome (order_id o) (PartialFill 40)) 0 0 = Ok u /\
    uo_order_quantities u = QPartial 1 100 40 /\
    uo_recover_signer u pairs assets 8 = Ok (from (order o)) /\
    uo_order_hash u pairs assets 8 = Ok (order_hash (order o)).
Proof.
  intros pairs assets o.
  destruct (user_order_roundtrip (LE := toy_env_laws) (LA := toy_alloy_laws) o
              (mkOrderOutcome (order_id o) (PartialFill 40)) 0 0 1 2 pairs assets 8 1)
    as (u & Hu & _ & _ & Hr).
  - reflexivity.
  - reflexivity.
  - vm_compute. split; discriminate.
  - vm_compute. discriminate.
  - by exists (mkPair 0 1 0 (10 ^ 27)), (mkAsset 1 0 0 0), (mkAsset 2 0 0 0).
  - by split.
  - split; [done |]. intros d [= <-]. vm_compute. split; discriminate.
  - exists u. split; [exact Hu |]. split.
    + vm_compute in Hu. injection Hu as <-. reflexivity.
    + apply Hr; vm_compute; reflexivity.
Defined.
