(* ===== verification/Bundle.v ===== *)
(** * Bundle construction

    crates/types/src/contract_payloads/angstrom/mod.rs (AngstromBundle): the payload
    the leader submits.  Solutions are ordered by the indices of their tokens; for
    each one the pair, the top-of-block order, the filled user orders, the net pool
    swap and the rewards are added, with the asset accounting of Assets.v beside them.

    [process_solution] of the source is one long function; its parts are definitions
    of their own here, composed by [process_solution] in the order of the source. *)

From S2P Require Import Prelude Uniswap Ray MatchMath Donation Orders PoolSwap Book Assets.
From S2P Require Import ConsensusMessages BundleOrders.
Import Builder.

Record PoolUpdate := mkPoolUpdate {
  pu_zero_for_one : bool;
  pu_pair_index : Z;
  pu_swap_in_quantity : Z;
  pu_rewards_update : RewardsUpdate;
}.

Record AngstromBundle := mkAngstromBundle {
  ab_asset_list : list Asset;
  ab_pairs : list Pair;
  ab_pool_updates : list PoolUpdate;
  ab_top_of_block_orders : list ContractTob;
  ab_user_order_list : list UserOrder;
}.

Definition has_book (b : AngstromBundle) : bool := negb (bool_decide (ab_user_order_list b = [])).

(** ** The floating-point split of the fees

    [u128 as f64] rounds to 53 significant bits, ties to even; so does the product
    with 0.75, whose exact value is three quarters of the rounded integer. *)

Definition rne53 (n : Z) : Z :=
  if n <? 2 ^ 53 then n else
  let u := 2 ^ (Z.log2 n - 52) in
  let q := n / u in
  let r := n mod u in
  if 2 * r <? u then q * u
  else if u <? 2 * r then (q + 1) * u
  else if Z.even q then q * u else (q + 1) * u.

(** [(fees as f64 * LP_DONATION_SPLIT) as u128]. *)
Definition lp_donation (fees : Z) : Z := rne53 (3 * rne53 fees) / 4.

Definition OrdersByPool : Type := gmap PoolId (list (OrderWithStorageData AllOrders)).
Definition Pools : Type := gmap PoolId (Address * Address * BaselinePoolState * Z).

(** What the functions build up. *)
Record BundleState := mkBundleState {
  st_pairs : list Pair;
  st_builder : AssetBuilder;
  st_user_orders : list UserOrder;
  st_tobs : list ContractTob;
  st_updates : list PoolUpdate;
}.

Definition BundleState_new (b : AssetBuilder) : BundleState := mkBundleState [] b [] [] [].

Section Bundle.
Context {P : Profile} {U : UniswapMath} {E : OrderEnv} {A : AlloySignature} {K : Keccak}.

(** ** Reading a bundle *)

Definition get_accounts (b : AngstromBundle) (block : Z) : M (list Address) :=
  let* tobs := M_map (fun o => tob_user_address o (ab_pairs b) (ab_asset_list b) block)
                 (ab_top_of_block_orders b) in
  let* users := M_map (fun o => uo_recover_signer o (ab_pairs b) (ab_asset_list b) block)
                  (ab_user_order_list b) in
  Ok (tobs ++ users).

Definition get_order_hashes (b : AngstromBundle) (block : Z) : M (list B256) :=
  let* tobs := M_map (fun o => tob_order_hash o (ab_pairs b) (ab_asset_list b) block)
                 (ab_top_of_block_orders b) in
  let* users := M_map (fun o => uo_order_hash o (ab_pairs b) (ab_asset_list b) block)
                  (ab_user_order_list b) in
  Ok (tobs ++ users).

(** ** Bundles of a single order, for gas estimates *)

Definition sort_pair (a b : Address) : Address * Address := if a <? b then (a, b) else (b, a).

Definition build_dummy_for_tob_gas (o : OrderWithStorageData TopOfBlockOrder) : M AngstromBundle :=
  let (t0, t1) := sort_pair (token_in (order o)) (token_out (order o)) in
  let (i0, b) := add_or_get_asset AssetBuilder_new t0 in
  let (i1, b) := add_or_get_asset b t1 in
  let pair := mkPair (wrap_u 16 (Z.of_nat i0)) (wrap_u 16 (Z.of_nat i1)) 0 1 in
  let* b := builder_external_swap b StageTopOfBlock (token_in (order o)) (token_out (order o))
              (tob_quantity_in (order o)) (tob_quantity_out (order o)) in
  let* c := of_max_gas o 0 in
  let* assets := get_asset_array b in
  Ok (mkAngstromBundle assets [pair] [] [c] []).

Definition build_dummy_for_user_gas (o : OrderWithStorageData AllOrders) : M AngstromBundle :=
  let (t0, t1) := sort_pair (token_in (order o)) (token_out (order o)) in
  let (i0, b) := add_or_get_asset AssetBuilder_new t0 in
  let (i1, b) := add_or_get_asset b t1 in
  let* price := limit_price (order o) in
  let pair := mkPair (wrap_u 16 (Z.of_nat i0)) (wrap_u 16 (Z.of_nat i1)) 0 price in
  let* u := from_internal_order_max_gas o (mkOrderOutcome (order_id o) CompleteFill) 0 in
  let* assets := get_asset_array b in
  Ok (mkAngstromBundle assets [pair] [] [] [u]).

(** ** Counting swaps and gas *)

(** Bids by falling, asks by rising priority data, bids first. *)
Definition gas_list_cmp (a b : OrderWithStorageData AllOrders) : comparison :=
  match osd_is_bid a, osd_is_bid b with
  | true, true => priority_data_cmp (priority_data b) (priority_data a)
  | false, false => priority_data_cmp (priority_data a) (priority_data b)
  | x, y => bool_cmp y x
  end.

Definition solution_gas (orders : OrdersByPool) (s : PoolSolution) : M (option (Z * Z)) :=
  match orders !! sol_id s with
  | None => Ok (option_map (fun x => (1, pd_gas_units (priority_data x))) (sol_searcher s))
  | Some l =>
      let l := sort_by gas_list_cmp l in
      let* acc := M_fold (fun acc p =>
                     if outcome_is_filled p.1 then
                       let* cnt := checked_u 64 (acc.1 + 1) in
                       let* g := checked_u 64 (acc.2 + pd_gas_units (priority_data p.2)) in
                       Ok (cnt, g)
                     else Ok acc) (0, 0) (zip (sol_limit s) l) in
      match sol_searcher s with
      | None => Ok (Some acc)
      | Some x =>
          let* cnt := checked_u 64 (acc.1 + 1) in
          let* g := checked_u 64 (acc.2 + pd_gas_units (priority_data x)) in
          Ok (Some (cnt, g))
      end
  end.

Definition fetch_total_orders_and_gas_delegated_to_orders (orders : OrdersByPool)
    (solutions : list PoolSolution) : M (Z * Z) :=
  M_fold (fun acc s =>
    let* r := solution_gas orders s in
    match r with
    | None => Ok acc
    | Some (cnt, g) =>
        let* cnt := checked_u 64 (acc.1 + cnt) in
        let* g := checked_u 64 (acc.2 + g) in
        Ok (cnt, g)
    end) (0, 0) solutions.

(** ** User orders of a solution *)

(** The map from identifiers to orders, and removal from it. *)
Definition order_map (l : list (OrderWithStorageData AllOrders)) : list (OrderWithStorageData AllOrders) :=
  fold_left (fun m o => o :: List.filter (fun x => negb (bool_decide (order_id x = order_id o))) m) l [].

Definition order_map_remove (id : OrderId) (m : list (OrderWithStorageData AllOrders)) :
    option (OrderWithStorageData AllOrders) * list (OrderWithStorageData AllOrders) :=
  (List.find (fun o => bool_decide (order_id o = id)) m,
   List.filter (fun o => negb (bool_decide (order_id o = id))) m).

(** The outcomes that are applied, with their orders; a filled outcome whose order is
    missing is skipped. *)
Fixpoint filled_orders_of (outcomes : list OrderOutcome) (m : list (OrderWithStorageData AllOrders)) :
    list (OrderOutcome * OrderWithStorageData AllOrders) :=
  match outcomes with
  | [] => []
  | x :: outcomes =>
      let (o, m) := order_map_remove (oo_id x) m in
      match o with
      | Some o => if outcome_is_filled x then (x, o) :: filled_orders_of outcomes m
                  else filled_orders_of outcomes m
      | None => filled_orders_of outcomes m
      end
  end.

Definition convert_order (shared_gas : option Z) (o : OrderWithStorageData AllOrders) (outcome : OrderOutcome)
    (pair_idx : Z) : M UserOrder :=
  match shared_gas with
  | Some g => from_internal_order o outcome g (wrap_u 16 pair_idx)
  | None => from_internal_order_max_gas o outcome (wrap_u 16 pair_idx)
  end.

Definition apply_user_order (outcome : OrderOutcome) (o : OrderWithStorageData AllOrders) (ucp fee : Z)
    (shared_gas : option Z) (pair_idx : Z) (b : AssetBuilder) (users : list UserOrder) :
    M (Z * AssetBuilder * list UserOrder) :=
  if negb (id_hash (oo_id outcome) =? id_hash (order_id o)) then Panic else
  let fill := fill_amount outcome (amount (order o)) in
  let* g := uint_from 128 (pd_gas (priority_data o)) in
  let* (t1, t0_net, t0_fee) :=
    get_quantities_at_price (is_bid (order o)) (exact_in (order o)) fill g fee ucp in
  let* (quantity_in, quantity_out) :=
    if is_bid (order o) then Ok (t1, t0_net)
    else let* x := u128_add t0_net t0_fee in let* x := u128_add x g in Ok (x, t1) in
  let* u := convert_order shared_gas o outcome pair_idx in
  let* b := builder_external_swap b StageUserOrder (token_in (order o)) (token_out (order o))
              quantity_in quantity_out in
  Ok (t0_fee, b, users ++ [u]).

Definition apply_user_orders (fills : list (OrderOutcome * OrderWithStorageData AllOrders)) (ucp fee : Z)
    (shared_gas : option Z) (pair_idx : Z) (b : AssetBuilder) (users : list UserOrder) :
    M (Z * AssetBuilder * list UserOrder) :=
  M_fold (fun acc p =>
    let '(fees, b, users) := acc in
    let* (t0_fee, b, users) := apply_user_order p.1 p.2 ucp fee shared_gas pair_idx b users in
    Ok (saturating_add 128 fees t0_fee, b, users)) (0, b, users) fills.

(** ** Top-of-block order of a solution *)

Definition add_tob (tob : OrderWithStorageData TopOfBlockOrder) (shared_gas : option Z) (t0 pair_idx : Z)
    (b : AssetBuilder) (tobs : list ContractTob) : M (AssetBuilder * list ContractTob) :=
  let* b := builder_external_swap b StageTopOfBlock (tob_asset_in (order tob)) (tob_asset_out (order tob))
              (tob_quantity_in (order tob)) (tob_quantity_out (order tob)) in
  match shared_gas with
  | Some g =>
      let* c := tob_of tob g (wrap_u 16 pair_idx) in
      let* b := builder_add_gas_fee b StageTopOfBlock t0 (ct_gas_used_asset_0 c) in
      Ok (b, tobs ++ [c])
  | None =>
      let* g := uint_from 128 (pd_gas (priority_data tob)) in
      let* b := builder_add_gas_fee b StageTopOfBlock t0 g in
      let* c := of_max_gas tob (wrap_u 16 pair_idx) in
      Ok (b, tobs ++ [c])
  end.

(** ** Pool swap and rewards of a solution *)

(** An error of the simulated swap only drops it. *)
Definition tob_swap_info (s : PoolSolution) (snapshot : BaselinePoolState) : M (option (PoolSwapResult * Z)) :=
  match sol_searcher s with
  | None => Ok None
  | Some tob =>
      match calc_vec_and_reward tob snapshot with
      | Ok r => Ok (Some r)
      | Err _ => Ok None
      | Panic => Panic
      end
  end.

Definition book_swap (s : PoolSolution) (post_tob : PoolSwapResult) : M (option PoolSwapResult) :=
  if sol_ucp s =? 0 then Ok None else
  let* ucp := SqrtPriceX96.from_ray (sol_ucp s) in
  let* r := swap_to_price post_tob (from_prices (sr_end_price post_tob) ucp) ucp in
  Ok (Some r).

Definition merge_donations (book tob : option (list DonationType)) : M (option DonationCalculation) :=
  match book, tob with
  | Some bsv, Some tob =>
      let* c := from_vec tob in let* c := calculation_add c bsv in Ok (Some c)
  | Some bsv, None => let* c := from_vec bsv in Ok (Some c)
  | None, Some tob => let* c := from_vec tob in Ok (Some c)
  | None, None => Ok None
  end.

(** The swap the contract makes: both swaps netted in the token sold. *)
Definition net_pool_swap (snapshot : BaselinePoolState) (tob : option (PoolSwapResult * Z))
    (book : option PoolSwapResult) : M PoolSwapResult :=
  match tob with
  | Some (tob_vec, _) =>
      let* net_t0 := i256_add (match book with Some b => t0_signed b | None => 0 end) (t0_signed tob_vec) in
      let* amount_in :=
        if net_t0 <? 0 then Ok (Z.abs net_t0)
        else let* net_t1 := i256_add (match book with Some b => t1_signed b | None => 0 end)
                              (t1_signed tob_vec) in
             Ok (Z.abs net_t1) in
      expect_ok (Baseline.swap_current_with_amount snapshot (from_raw amount_in)
                   (if net_t0 <? 0 then SellingT0 else BuyingT0))
  | None => Ok (default (Baseline.noop snapshot) book)
  end.

(** What a solution's swaps and rewards come to: the net swap, the donation and the
    reward updates. *)
Definition settle_pool (s : PoolSolution) (snapshot : BaselinePoolState) (user_fees : Z) :
    M (PoolSwapResult * Z * Z * (RewardsUpdate * option RewardsUpdate)) :=
  let* tob := tob_swap_info s snapshot in
  let post_tob := match tob with Some (v, _) => v | None => Baseline.noop snapshot end in
  let* book := book_swap s post_tob in
  let lp := lp_donation user_fees in
  let* save := u128_sub user_fees lp in
  let* book_vec :=
    match book with
    | Some bsv => let* q := u128_add (sol_reward_t0 s) lp in let* v := t0_donation_vec bsv q in Ok (Some v)
    | None => Ok None
    end in
  let* tob_vec :=
    match tob with Some (v, q) => let* d := t0_donation_vec v q in Ok (Some d) | None => Ok None end in
  let* donation := merge_donations book_vec tob_vec in
  let* direct := u128_add (sol_reward_t0 s) lp in
  let total_donation := match donation with Some d => dc_total_donated d | None => direct end in
  let* net := net_pool_swap snapshot tob book in
  let* rewards :=
    match donation with
    | Some d => into_reward_updates d
    | None => Ok (CurrentOnly total_donation (Baseline.current_liquidity snapshot), None)
    end in
  Ok (net, total_donation, save, rewards).

Definition process_solution (st : BundleState) (orders : OrdersByPool) (s : PoolSolution)
    (snapshot : BaselinePoolState) (t0 t1 store_idx : Z) (shared_gas : option Z) : M BundleState :=
  let (i0, b) := add_or_get_asset (st_builder st) t0 in
  let (i1, b) := add_or_get_asset b t1 in
  let t0_idx := wrap_u 16 (Z.of_nat i0) in
  let t1_idx := wrap_u 16 (Z.of_nat i1) in
  let pairs := st_pairs st ++ [mkPair t0_idx t1_idx store_idx (sol_ucp s)] in
  let pair_idx := Z.of_nat (length pairs) - 1 in
  let* (b, tobs) :=
    match sol_searcher s with
    | Some tob => add_tob tob shared_gas t0 pair_idx b (st_tobs st)
    | None => Ok (b, st_tobs st)
    end in
  let m := order_map (default [] (orders !! sol_id s)) in
  let* (user_fees, b, users) :=
    apply_user_orders (filled_orders_of (sol_limit s) m) (sol_ucp s) (sol_fee s) shared_gas pair_idx b
      (st_user_orders st) in
  let* (net, total_donation, save, rewards) := settle_pool s snapshot user_fees in
  let (in_idx, out_idx) := if zero_for_one net then (t0_idx, t1_idx) else (t1_idx, t0_idx) in
  let* b := builder_uniswap_swap b StageSwap (Z.to_nat in_idx) (Z.to_nat out_idx) (input net) (output net) in
  let* b := builder_allocate b StageReward t0 total_donation in
  let* b := builder_allocate b StageReward t0 save in
  let* b := builder_add_gas_fee b StageReward t0 save in
  let updates := st_updates st ++ [mkPoolUpdate (zero_for_one net) (wrap_u 16 pair_idx) (input net) rewards.1] in
  let updates := match rewards.2 with
                 | Some r => updates ++ [mkPoolUpdate false (wrap_u 16 pair_idx) 0 r]
                 | None => updates
                 end in
  Ok (mkBundleState pairs b users tobs updates).

(** ** Whole bundles *)

(** Every token is registered, then the assets are sorted. *)
Definition register_assets (pools : Pools) (solutions : list PoolSolution) : AssetBuilder :=
  let b := fold_left (fun b s => match pools !! sol_id s with
                                 | None => b
                                 | Some (t0, t1, _, _) => (add_or_get_asset (add_or_get_asset b t0).2 t1).2
                                 end) solutions AssetBuilder_new in
  mkAssetBuilder (ab_swaps b) (ab_rewards b) (ab_top_of_block b) (ab_user_orders b)
    (order_assets_properly (ab_assets b)).

(** The sort key; the tokens are registered, so looking them up changes nothing. *)
Definition solution_key (pools : Pools) (b : AssetBuilder) (s : PoolSolution) : Z :=
  match pools !! sol_id s with
  | None => 0
  | Some (t0, t1, _, _) =>
      let (i0, b) := add_or_get_asset b t0 in
      let (i1, _) := add_or_get_asset b t1 in
      Z.lor (Z.shiftl (Z.of_nat i0) 16) (Z.of_nat i1)
  end.

(** A solution without a pool is skipped. *)
Definition process_solutions (pools : Pools) (orders : OrdersByPool) (shared_gas : option Z)
    (solutions : list PoolSolution) (st : BundleState) : M BundleState :=
  M_fold (fun st s =>
    match pools !! sol_id s with
    | None => Ok st
    | Some (t0, t1, snapshot, store_idx) => process_solution st orders s snapshot t0 t1 store_idx shared_gas
    end) st solutions.

Definition build_bundle (pools : Pools) (orders : OrdersByPool) (shared_gas : option Z)
    (solutions : list PoolSolution) : M AngstromBundle :=
  let b := register_assets pools solutions in
  let sorted := sort_by (fun x y => solution_key pools b x ?= solution_key pools b y) solutions in
  let* st := process_solutions pools orders shared_gas sorted (BundleState_new b) in
  let* assets := get_asset_array (st_builder st) in
  Ok (mkAngstromBundle assets (st_pairs st) (st_updates st) (st_tobs st) (st_user_orders st)).

Definition from_proposal {SK : SigningKey} (p : Proposal) (pools : Pools) : M AngstromBundle :=
  let preproposals := flattened_pre_proposals p in
  let orders := orders_by_pool_id preproposals in
  let* (total_swaps, _) := fetch_total_orders_and_gas_delegated_to_orders orders (pr_solutions p) in
  if total_swaps =? 0 then Err "have a total swaps count of 0" else
  build_bundle pools orders (Some 0) (pr_solutions p).

Definition for_gas_finalization (limit : list (OrderWithStorageData AllOrders)) (solutions : list PoolSolution)
    (pools : Pools) : M AngstromBundle :=
  let orders := fold_left (fun acc x => <[pool_id x := set_insert x (default [] (acc !! pool_id x))]> acc)
                  limit ∅ in
  build_bundle pools orders None solutions.

End Bundle.

(** ** Lemmas *)

(** *** The fee split *)

Lemma rne53_error n : 0 <= n -> 0 <= rne53 n /\ 2 ^ 53 * Z.abs (rne53 n - n) <= n.
Proof.
  intros Hn. unfold rne53. destruct (Z.ltb_spec n (2 ^ 53)) as [H | H]; [rewrite Z.sub_diag; lia |].
  assert (Hp : 0 < n) by lia. pose proof (Z.log2_spec n Hp) as [Hlo Hhi].
  assert (Hl : 53 <= Z.log2 n) by (apply Z.log2_le_pow2; lia).
  set (u := 2 ^ (Z.log2 n - 52)).
  assert (Hu : 0 < u) by (apply Z.pow_pos_nonneg; lia).
  assert (Hun : 2 ^ 52 * u <= n).
  { unfold u. rewrite <- Z.pow_add_r by lia. by replace (52 + (Z.log2 n - 52)) with (Z.log2 n) by lia. }
  pose proof (Z.div_mod n u ltac:(lia)) as Hdm. pose proof (Z.mod_pos_bound n u Hu) as Hr.
  assert (Hq : 0 <= n / u) by (apply Z.div_pos; lia).
  set (q := n / u) in *. set (r := n mod u) in *.
  assert (Hdown : 2 * r <= u -> 0 <= q * u /\ 2 ^ 53 * Z.abs (q * u - n) <= n).
  { intros Hle. split; [nia |]. replace (q * u - n) with (- r) by lia. rewrite Z.abs_opp, Z.abs_eq by lia. nia. }
  assert (Hup : u <= 2 * r -> 0 <= (q + 1) * u /\ 2 ^ 53 * Z.abs ((q + 1) * u - n) <= n).
  { intros Hle. split; [nia |]. replace ((q + 1) * u - n) with (u - r) by lia. rewrite Z.abs_eq by lia. nia. }
  destruct (Z.ltb_spec (2 * r) u); [apply Hdown; lia |].
  destruct (Z.ltb_spec u (2 * r)); [apply Hup; lia |].
  destruct (Z.even q); [apply Hdown; lia | apply Hup; lia].
Qed.

Lemma lp_donation_spec n :
  0 <= n -> 0 <= lp_donation n <= n /\ 2 ^ 51 * Z.abs (4 * lp_donation n - 3 * n) <= 2 ^ 51 * 3 + 3 * n.
Proof.
  intros Hn. destruct (rne53_error n Hn) as [Hm0 Hm]. unfold lp_donation. set (m := rne53 n) in *.
  destruct (rne53_error (3 * m) ltac:(lia)) as [Hk0 Hk]. set (k := rne53 (3 * m)) in *.
  pose proof (Z.div_mod k 4 ltac:(lia)). pose proof (Z.mod_pos_bound k 4 ltac:(lia)).
  change (2 ^ 53) with 9007199254740992 in *. change (2 ^ 51) with 2251799813685248. lia.
Qed.

Lemma lor_shifted a b : 0 <= b < 2 ^ 16 -> Z.lor (a * 2 ^ 16) b = a * 2 ^ 16 + b.
Proof.
  intros Hb. assert (Hland : Z.land (a * 2 ^ 16) b = 0).
  { apply Z.bits_inj'. intros n Hn. rewrite Z.land_spec, Z.bits_0. destruct (Z.ltb_spec n 16).
    - by rewrite Z.mul_pow2_bits_low.
    - apply andb_false_iff. right. destruct (Z.eq_dec b 0) as [-> | Hne]; [apply Z.bits_0 |].
      apply Z.bits_above_log2; [lia |]. assert (Z.log2 b < 16) by (apply Z.log2_lt_pow2; lia). lia. }
  by rewrite Z.add_nocarry_lxor, Z.lxor_lor.
Qed.

(** *** The builder keeps its asset array *)

Lemma on_stage_assets b s f b' : on_stage b s f = Ok b' -> ab_assets b' = ab_assets b.
Proof. unfold on_stage. intros H. apply M_bind_Ok in H as (m & _ & H). injection H as <-. by destruct s. Qed.

Ltac stage_assets H :=
  unfold builder_external_swap, builder_add_gas_fee, builder_allocate, builder_uniswap_swap in H;
  apply on_stage_assets in H.

Section BundleLemmas.
Context {P : Profile} {U : UniswapMath} {E : OrderEnv} {A : AlloySignature} {K : Keccak}.

Lemma add_registered b t i : aa_assets_idx (ab_assets b) !! t = Some i -> add_or_get_asset b t = (i, b).
Proof. intros H. unfold add_or_get_asset, add_or_get_asset_idx. rewrite H. by destruct b. Qed.

Lemma add_tob_ok tob g t0 k b tobs b' tobs' :
  add_tob tob g t0 k b tobs = Ok (b', tobs') ->
  ab_assets b' = ab_assets b /\ exists c, tobs' = tobs ++ [c] /\ tob_bundled tob (wrap_u 16 k) c.
Proof.
  unfold add_tob. intros H. apply M_bind_Ok in H as (b1 & H1 & H). stage_assets H1. destruct g as [g |].
  - apply M_bind_Ok in H as (c & Hc & H). apply M_bind_Ok in H as (b2 & H2 & H). stage_assets H2.
    injection H as <- <-. split; [congruence |]. exists c. split; [done |]. by eapply tob_of_bundled.
  - apply M_bind_Ok in H as (gu & _ & H). apply M_bind_Ok in H as (b2 & H2 & H). stage_assets H2.
    apply M_bind_Ok in H as (c & Hc & H). injection H as <- <-. split; [congruence |]. exists c. split; [done |].
    by eapply tob_max_gas_bundled.
Qed.

Lemma apply_user_order_ok outcome o ucp fee g k b users r b' users' :
  apply_user_order outcome o ucp fee g k b users = Ok (r, b', users') ->
  ab_assets b' = ab_assets b /\ exists u, users' = users ++ [u] /\ bundled o (wrap_u 16 k) u.
Proof.
  unfold apply_user_order. intros H. destruct (negb _); [done |].
  apply M_bind_Ok in H as (gu & _ & H). apply M_bind_Ok in H as ([[t1 t0n] t0f] & _ & H).
  apply M_bind_Ok in H as ([qi qo] & _ & H). apply M_bind_Ok in H as (u & Hu & H).
  apply M_bind_Ok in H as (b1 & H1 & H). stage_assets H1. injection H as _ <- <-.
  split; [done |]. exists u. split; [done |]. unfold convert_order in Hu.
  destruct g; [by eapply from_internal_bundled | by eapply max_gas_bundled].
Qed.

Lemma apply_user_orders_ok fills ucp fee g k b users r b' users' :
  apply_user_orders fills ucp fee g k b users = Ok (r, b', users') ->
  ab_assets b' = ab_assets b /\
  exists us, users' = users ++ us /\ Forall2 (fun o u => bundled o (wrap_u 16 k) u) (map snd fills) us.
Proof.
  unfold apply_user_orders. generalize 0. revert b users.
  induction fills as [| [x o] fills IH]; intros b users z H; cbn [M_fold] in H.
  - injection H as <- <- <-. split; [done |]. exists []. by rewrite app_nil_r.
  - apply M_bind_Ok in H as ([[f1 b1] us1] & H1 & H). apply M_bind_Ok in H1 as ([[f2 b2] us2] & H2 & H1).
    injection H1 as <- <- <-. apply apply_user_order_ok in H2 as (Hb2 & u & -> & Hu).
    apply IH in H as (Hb & us & -> & Hf). split; [congruence |]. exists (u :: us).
    rewrite <- (assoc_L (++)). split; [done |]. by constructor.
Qed.

(** *** One solution *)

Definition fills_of (orders : OrdersByPool) (s : PoolSolution) : list (OrderOutcome * OrderWithStorageData AllOrders) :=
  filled_orders_of (sol_limit s) (order_map (default [] (orders !! sol_id s))).

Lemma process_solution_ok st orders s snapshot t0 t1 si g st' i0 i1 :
  process_solution st orders s snapshot t0 t1 si g = Ok st' ->
  aa_assets_idx (ab_assets (st_builder st)) !! t0 = Some i0 ->
  aa_assets_idx (ab_assets (st_builder st)) !! t1 = Some i1 ->
  let k := wrap_u 16 (Z.of_nat (length (st_pairs st))) in
  ab_assets (st_builder st') = ab_assets (st_builder st) /\
  st_pairs st' = st_pairs st ++ [mkPair (wrap_u 16 (Z.of_nat i0)) (wrap_u 16 (Z.of_nat i1)) si (sol_ucp s)] /\
  (exists us, st_user_orders st' = st_user_orders st ++ us /\
     Forall2 (fun o u => bundled o k u) (map snd (fills_of orders s)) us) /\
  (exists cs, st_tobs st' = st_tobs st ++ cs /\
     Forall2 (fun o c => tob_bundled o k c) (option_list (sol_searcher s)) cs).
Proof.
  intros H H0 H1 k. unfold process_solution in H. rewrite (add_registered _ _ _ H0), (add_registered _ _ _ H1) in H.
  rewrite length_app in H. cbn [length] in H.
  replace (Z.of_nat (length (st_pairs st) + 1) - 1) with (Z.of_nat (length (st_pairs st))) in H by lia.
  apply M_bind_Ok in H as ([b1 tobs] & Ht & H). apply M_bind_Ok in H as ([[fees b2] users] & Hu & H).
  apply apply_user_orders_ok in Hu as (Hb2 & us & -> & Hus).
  apply M_bind_Ok in H as ([[[net total] save] rewards] & _ & H).
  destruct (if zero_for_one net then _ else _) as [ii oi] in H.
  apply M_bind_Ok in H as (b3 & H3 & H). apply M_bind_Ok in H as (b4 & H4 & H).
  apply M_bind_Ok in H as (b5 & H5 & H). apply M_bind_Ok in H as (b6 & H6 & H).
  stage_assets H3. stage_assets H4. stage_assets H5. stage_assets H6. injection H as <-.
  assert (Htob : ab_assets b1 = ab_assets (st_builder st) /\ exists cs, tobs = st_tobs st ++ cs /\
    Forall2 (fun o c => tob_bundled o k c) (option_list (sol_searcher s)) cs).
  { destruct (sol_searcher s) as [tob |]; cbn.
    - apply add_tob_ok in Ht as (Hb & c & -> & Hc). split; [done |]. exists [c]. split; [done |]. by repeat constructor.
    - injection Ht as <- <-. split; [done |]. exists []. by rewrite app_nil_r. }
  destruct Htob as (Hb1 & Hcs). cbn. split_and!; [congruence | done | by exists us | done].
Qed.

(** *** All solutions *)

Definition has_pool (pools : Pools) (s : PoolSolution) : bool := bool_decide (is_Some (pools !! sol_id s)).

Definition idx_of (arr : AssetArray) (t : Z) : Z := Z.of_nat (default 0%nat (aa_assets_idx arr !! t)).

(** The pair of a solution. *)
Definition pair_of (pools : Pools) (arr : AssetArray) (s : PoolSolution) : Pair :=
  match pools !! sol_id s with
  | Some (t0, t1, _, si) => mkPair (wrap_u 16 (idx_of arr t0)) (wrap_u 16 (idx_of arr t1)) si (sol_ucp s)
  | None => mkPair 0 0 0 0
  end.

(** The tokens of the pool are registered, and the orders to be executed trade them. *)
Definition solution_ok (pools : Pools) (orders : OrdersByPool) (arr : AssetArray) (s : PoolSolution) : Prop :=
  forall t0 t1 snap si, pools !! sol_id s = Some (t0, t1, snap, si) ->
    is_Some (aa_assets_idx arr !! t0) /\ is_Some (aa_assets_idx arr !! t1) /\
    Forall (fun p => on_pair p.2 t0 t1) (fills_of orders s) /\
    Forall (fun o => on_pair o t0 t1) (option_list (sol_searcher s)).

(** An order of the bundle points to the pair of its tokens. *)
Definition placed (pairs : list Pair) (assets : list Asset) (o : OrderWithStorageData AllOrders)
    (u : UserOrder) : Prop :=
  exists pi t0 t1, bundled o pi u /\ pair_at pairs assets pi t0 t1 /\ on_pair o t0 t1.
Definition tob_placed (pairs : list Pair) (assets : list Asset) (o : OrderWithStorageData TopOfBlockOrder)
    (c : ContractTob) : Prop :=
  exists pi t0 t1, tob_bundled o pi c /\ pair_at pairs assets pi t0 t1 /\ on_pair o t0 t1.

Lemma wrap_small k : 0 <= k < 2 ^ 16 -> wrap_u 16 k = k.
Proof. intros H. unfold wrap_u. by apply Z.mod_small. Qed.

Lemma pair_at_app pairs more assets pi t0 t1 :
  pair_at pairs assets pi t0 t1 -> pair_at (pairs ++ more) assets pi t0 t1.
Proof.
  intros (p & a0 & a1 & Hp & H). exists p, a0, a1. split; [| done]. by apply lookup_app_l_Some.
Qed.

Lemma asset_of_index arr assets t i :
  array_ok arr -> map asset_addr assets = map asset_addr (aa_assets arr) ->
  aa_assets_idx arr !! t = Some i -> exists a, assets !! i = Some a /\ asset_addr a = t.
Proof.
  intros [Hidx _] Hm Hi. apply Hidx in Hi.
  assert (H : map asset_addr assets !! i = Some t).
  { rewrite Hm. change (map asset_addr (aa_assets arr)) with (asset_addr <$> aa_assets arr).
    by rewrite list_lookup_fmap, Hi. }
  change (map asset_addr assets) with (asset_addr <$> assets) in H.
  rewrite list_lookup_fmap in H. apply fmap_Some in H as (a & Ha & ->). by exists a.
Qed.

Lemma index_small arr t i :
  array_ok arr -> Z.of_nat (length (aa_assets arr)) <= 2 ^ 16 -> aa_assets_idx arr !! t = Some i ->
  0 <= Z.of_nat i < 2 ^ 16.
Proof.
  intros [Hidx _] Hl Hi. apply Hidx, lookup_lt_Some in Hi. lia.
Qed.

Lemma process_solutions_ok pools orders arr assets g sols st st' :
  array_ok arr -> map asset_addr assets = map asset_addr (aa_assets arr) ->
  Z.of_nat (length (aa_assets arr)) <= 2 ^ 16 -> Z.of_nat (length (st_pairs st) + length sols) <= 2 ^ 16 ->
  ab_assets (st_builder st) = arr -> Forall (solution_ok pools orders arr) sols ->
  process_solutions pools orders g sols st = Ok st' ->
  let done := List.filter (has_pool pools) sols in
  ab_assets (st_builder st') = arr /\ st_pairs st' = st_pairs st ++ map (pair_of pools arr) done /\
  (exists us, st_user_orders st' = st_user_orders st ++ us /\
     Forall2 (placed (st_pairs st') assets) (flat_map (fun s => map snd (fills_of orders s)) done) us) /\
  (exists cs, st_tobs st' = st_tobs st ++ cs /\
     Forall2 (tob_placed (st_pairs st') assets) (omap sol_searcher done) cs).
Proof.
  intros Harr Hassets Hlen. revert st. induction sols as [| s sols IH]; intros st Hk Hb Hok H; cbn [process_solutions M_fold] in H.
  - injection H as <-. cbn. rewrite !app_nil_r. split_and!; [done | done | |]; exists []; by rewrite app_nil_r.
  - apply Forall_cons in Hok as [Hs Hok]. unfold process_solutions in H. cbn [M_fold] in H.
    apply M_bind_Ok in H as (st1 & H1 & H). cbn [List.filter].
    assert (Hh : has_pool pools s = bool_decide (is_Some (pools !! sol_id s))) by done. rewrite Hh. clear Hh.
    destruct (pools !! sol_id s) as [[[[t0 t1] snap] si] |] eqn:Ep.
    2: { injection H1 as <-. rewrite bool_decide_false by (by intros [? ?]).
         apply IH; [cbn [length] in Hk; lia | done | done | done]. }
    rewrite bool_decide_true by eauto. destruct (Hs _ _ _ _ Ep) as ([i0 H0] & [i1 Hi1] & Hon & Htob).
    apply (process_solution_ok _ _ _ _ _ _ _ _ _ i0 i1) in H1 as (Hb1 & Hp1 & (us1 & Hu1 & Hf1) & (cs1 & Hc1 & Hg1));
      [| by rewrite Hb | by rewrite Hb].
    assert (Hkk : 0 <= Z.of_nat (length (st_pairs st)) < 2 ^ 16).
    { cbn [length] in Hk. lia. }
    rewrite wrap_small in Hf1, Hg1 by done.
    destruct (IH st1) as (Hb2 & Hp2 & (us2 & Hu2 & Hf2) & (cs2 & Hc2 & Hg2));
      [rewrite Hp1, length_app; cbn [length] in *; lia | congruence | done | done |].
    assert (Hpair : pair_of pools arr s = mkPair (wrap_u 16 (Z.of_nat i0)) (wrap_u 16 (Z.of_nat i1)) si (sol_ucp s)).
    { unfold pair_of, idx_of. by rewrite Ep, H0, Hi1. }
    assert (Hat : pair_at (st_pairs st') assets (Z.of_nat (length (st_pairs st))) t0 t1).
    { rewrite Hp2, Hp1. apply pair_at_app. destruct (asset_of_index _ _ _ _ Harr Hassets H0) as (a0 & Ha0 & E0).
      destruct (asset_of_index _ _ _ _ Harr Hassets Hi1) as (a1 & Ha1 & E1).
      eexists _, a0, a1. rewrite Nat2Z.id. split; [by apply list_lookup_middle |]. cbn [index0 index1].
      rewrite !wrap_small by (by eapply index_small). by rewrite !Nat2Z.id. }
    cbn [map flat_map]. split_and!; [done | | |].
    + rewrite Hp2, Hp1, <- (assoc_L (++)). cbn. by rewrite Hpair.
    + exists (us1 ++ us2). rewrite Hu2, Hu1, <- (assoc_L (++)). split; [done |]. apply Forall2_app; [| done].
      assert (Hin : Forall (fun o => on_pair o t0 t1) (map snd (fills_of orders s))) by (by apply Forall_map).
      clear - Hf1 Hat Hin. induction Hf1 as [| o u os us Hou _ IHf]; constructor.
      * apply Forall_cons in Hin as [Hin _]. by eexists _, t0, t1.
      * apply IHf. by apply Forall_cons in Hin as [_ ?].
    + exists (cs1 ++ cs2). rewrite Hc2, Hc1, <- (assoc_L (++)). split; [done |].
      change (omap sol_searcher (s :: ?l)) with
        (match sol_searcher s with Some y => y :: omap sol_searcher l | None => omap sol_searcher l end).
      destruct (sol_searcher s) as [tob |]; cbn in Hg1, Htob.
      * apply Forall2_cons_inv_l in Hg1 as (c & cs & Hc & Hn & ->). apply Forall2_nil_inv_l in Hn as ->.
        apply Forall_cons in Htob as [Htob _]. constructor; [by eexists _, t0, t1 | done].
      * by apply Forall2_nil_inv_l in Hg1 as ->.
Qed.

(** *** Registration *)

Lemma add_idx_mono a k t i : aa_assets_idx a !! t = Some i -> aa_assets_idx (add_or_get_asset_idx a k).2 !! t = Some i.
Proof.
  intros H. unfold add_or_get_asset_idx. destruct (aa_assets_idx a !! k) as [j |] eqn:Ek; [done |]. cbn.
  rewrite lookup_insert_ne; [done |]. intros ->. congruence.
Qed.

Lemma add_idx_registered a k : is_Some (aa_assets_idx (add_or_get_asset_idx a k).2 !! k).
Proof.
  unfold add_or_get_asset_idx. destruct (aa_assets_idx a !! k) as [j |] eqn:Ek; cbn; [by rewrite Ek |].
  by rewrite lookup_insert_eq.
Qed.

Lemma add_idx_length a k : (length (aa_assets (add_or_get_asset_idx a k).2) <= S (length (aa_assets a)))%nat.
Proof. unfold add_or_get_asset_idx. destruct (aa_assets_idx a !! k); cbn; [lia |]. rewrite length_app. cbn. lia. Qed.

Lemma add_builder_assets b t : ab_assets (add_or_get_asset b t).2 = (add_or_get_asset_idx (ab_assets b) t).2.
Proof. unfold add_or_get_asset. by destruct (add_or_get_asset_idx _ _). Qed.

Lemma register_assets_ok pools sols :
  let arr := ab_assets (register_assets pools sols) in
  array_ok arr /\ (length (aa_assets arr) <= 2 * length sols)%nat /\
  StronglySorted (fun x y => asset_addr x < asset_addr y) (aa_assets arr) /\
  Forall (fun s => forall t0 t1 snap si, pools !! sol_id s = Some (t0, t1, snap, si) ->
            is_Some (aa_assets_idx arr !! t0) /\ is_Some (aa_assets_idx arr !! t1)) sols.
Proof.
  cbn. set (step := fun b s => _).
  assert (Hmono : forall sols b t i, aa_assets_idx (ab_assets b) !! t = Some i ->
    aa_assets_idx (ab_assets (fold_left step sols b)) !! t = Some i).
  { clear. induction sols as [| s sols IH]; intros b t i H; [done |]. cbn. apply IH. unfold step.
    destruct (pools !! sol_id s) as [[[[t0 t1] sn] si] |]; [| done]. rewrite !add_builder_assets.
    by do 2 apply add_idx_mono. }
  assert (Hg : forall sols b, array_ok (ab_assets b) ->
    let a := ab_assets (fold_left step sols b) in
    array_ok a /\ (length (aa_assets a) <= length (aa_assets (ab_assets b)) + 2 * length sols)%nat /\
    Forall (fun s => forall t0 t1 snap si, pools !! sol_id s = Some (t0, t1, snap, si) ->
            is_Some (aa_assets_idx a !! t0) /\ is_Some (aa_assets_idx a !! t1)) sols).
  { clear - Hmono. induction sols as [| s sols IH]; intros b Hb; cbn [fold_left length]; [split_and!; [done | lia | done] |].
    set (b1 := step b s).
    assert (Hb1 : array_ok (ab_assets b1) /\
      (length (aa_assets (ab_assets b1)) <= length (aa_assets (ab_assets b)) + 2)%nat /\
      forall t0 t1 snap si, pools !! sol_id s = Some (t0, t1, snap, si) ->
        is_Some (aa_assets_idx (ab_assets b1) !! t0) /\ is_Some (aa_assets_idx (ab_assets b1) !! t1)).
    { unfold b1, step. destruct (pools !! sol_id s) as [[[[t0 t1] sn] si] |]; [| split_and!; [done | lia | done]].
      rewrite !add_builder_assets. pose proof (add_idx_length (ab_assets b) t0).
      pose proof (add_idx_length (add_or_get_asset_idx (ab_assets b) t0).2 t1).
      split_and!; [by do 2 apply add_asset_ok | lia |]. intros ? ? ? ? [= <- <- <- <-]. split; [| apply add_idx_registered].
      destruct (add_idx_registered (ab_assets b) t0) as [i Hi]. exists i. by apply add_idx_mono. }
    destruct Hb1 as (H1 & H2 & H3). destruct (IH b1 H1) as (I1 & I2 & I3). split_and!; [done | lia |].
    constructor; [| done]. intros t0 t1 snap si Hp. destruct (H3 _ _ _ _ Hp) as [[i0 ?] [i1 ?]].
    split; [exists i0 | exists i1]; by apply Hmono. }
  destruct (Hg sols AssetBuilder_new) as (H1 & H2 & H3); [apply array_new_ok |].
  destruct (order_ok _ H1) as (Ho & Hs & Hp). split_and!; [done | | done |].
  - rewrite Hp. done.
  - eapply Forall_impl; [exact H3 |]. cbn beta. intros s Hx t0 t1 snap si Hps.
    destruct (Hx _ _ _ _ Hps) as [Hr0 Hr1].
    assert (Hkeep : forall t, is_Some (aa_assets_idx (ab_assets (fold_left step sols AssetBuilder_new)) !! t) ->
      is_Some (aa_assets_idx (order_assets_properly (ab_assets (fold_left step sols AssetBuilder_new))) !! t)).
    { intros t [i Hi]. apply H1, list_elem_of_lookup_2 in Hi. rewrite <- Hp in Hi.
      apply list_elem_of_lookup in Hi as [j Hj]. exists j. by apply Ho. }
    split; by apply Hkeep.
Qed.

Lemma asset_array_addrs b assets :
  get_asset_array b = Ok assets -> map asset_addr assets = map asset_addr (aa_assets (ab_assets b)).
Proof.
  unfold get_asset_array. intros H. apply M_bind_Ok in H as (c & _ & H). injection H as <-.
  rewrite map_map. apply map_ext. intros a. by destruct (c !! asset_addr a).
Qed.

(** *** The whole bundle *)

(** The solutions that are executed, in the order of the bundle. *)
Definition processed (pools : Pools) (sols : list PoolSolution) : list PoolSolution :=
  let b := register_assets pools sols in
  List.filter (has_pool pools) (sort_by (fun x y => solution_key pools b x ?= solution_key pools b y) sols).

(** The orders of a solution that the bundle carries can be executed at [block]: they
    are on the pool's tokens, carry reference 0 and a valid signature. *)
Definition solution_valid (pools : Pools) (orders : OrdersByPool) (block : Z) (s : PoolSolution) : Prop :=
  forall t0 t1 snap si, pools !! sol_id s = Some (t0, t1, snap, si) ->
    Forall (fun o => on_pair o t0 t1 /\ executable_at (order o) block /\ order_ref_id (order o) = 0 /\
              is_valid_signature (order o) = true) (map snd (fills_of orders s)) /\
    Forall (fun o => on_pair o t0 t1 /\ tob_valid_for_block (order o) = block /\
              is_valid_signature (order o) = true) (option_list (sol_searcher s)).

Lemma Forall_sort_by {X} (cmp : X -> X -> comparison) (Q : X -> Prop) l : Forall Q l -> Forall Q (sort_by cmp l).
Proof. by rewrite sort_by_perm. Qed.

Lemma build_bundle_ok pools orders g sols b :
  build_bundle pools orders g sols = Ok b -> Z.of_nat (length sols) <= 2 ^ 15 ->
  Forall (fun s => forall t0 t1 snap si, pools !! sol_id s = Some (t0, t1, snap, si) ->
    Forall (fun p => on_pair p.2 t0 t1) (fills_of orders s) /\
    Forall (fun o => on_pair o t0 t1) (option_list (sol_searcher s))) sols ->
  let arr := ab_assets (register_assets pools sols) in
  map asset_addr (ab_asset_list b) = map asset_addr (aa_assets arr) /\
  ab_pairs b = map (pair_of pools arr) (processed pools sols) /\
  Forall2 (placed (ab_pairs b) (ab_asset_list b))
    (flat_map (fun s => map snd (fills_of orders s)) (processed pools sols)) (ab_user_order_list b) /\
  Forall2 (tob_placed (ab_pairs b) (ab_asset_list b)) (omap sol_searcher (processed pools sols))
    (ab_top_of_block_orders b).
Proof.
  intros H Hlen Hok arr. unfold build_bundle in H. apply M_bind_Ok in H as (st & Hst & H).
  apply M_bind_Ok in H as (assets & Ha & H). injection H as <-. cbn [ab_asset_list ab_pairs ab_user_order_list ab_top_of_block_orders].
  destruct (register_assets_ok pools sols) as (Harr & Hal & _ & Hreg). fold arr in Harr, Hal, Hreg.
  set (cmp := fun x y => _) in Hst.
  assert (Hk : Z.of_nat (length (st_pairs (BundleState_new (register_assets pools sols))) + length (sort_by cmp sols))
    <= 2 ^ 16) by (rewrite (Permutation_length (sort_by_perm _ _)); cbn; lia).
  assert (Hf : Forall (solution_ok pools orders arr) (sort_by cmp sols)).
  { apply Forall_sort_by. apply Forall_forall. intros s Hs t0 t1 snap si Hp.
    destruct (proj1 (Forall_forall _ _) Hreg s Hs _ _ _ _ Hp).
    destruct (proj1 (Forall_forall _ _) Hok s Hs _ _ _ _ Hp). by split_and!. }
  destruct (process_solutions_ok pools orders arr (aa_assets arr) g _ _ _ Harr eq_refl ltac:(lia) Hk eq_refl Hf Hst)
    as (Hb & _).
  pose proof (asset_array_addrs _ _ Ha) as Haddr. rewrite Hb in Haddr.
  destruct (process_solutions_ok pools orders arr assets g _ _ _ Harr Haddr ltac:(lia) Hk eq_refl Hf Hst)
    as (_ & Hp & (us & Hu & Hfu) & (cs & Hc & Hfc)).
  cbn in Hp, Hu, Hc. rewrite Hu, Hc. by split_and!.
Qed.

Lemma M_map_Forall2 {X Y Z0} (R : X -> Y -> Prop) (f : Y -> M Z0) (g : X -> Z0) xs ys :
  Forall2 R xs ys -> (forall x y, x ∈ xs -> R x y -> f y = Ok (g x)) -> M_map f ys = Ok (map g xs).
Proof.
  induction 1 as [| x y xs ys Hxy _ IH]; intros Hf; [done |]. cbn [M_map map].
  rewrite (Hf x y); [| apply list_elem_of_here | done]. cbn [M_bind].
  rewrite IH; [done |]. intros x' y' Hx. apply Hf. by apply list_elem_of_further.
Qed.

(** The sort key, for registered tokens. *)
Lemma solution_key_idx pools sols s t0 t1 snap si :
  s ∈ sols -> pools !! sol_id s = Some (t0, t1, snap, si) -> Z.of_nat (length sols) <= 2 ^ 15 ->
  let arr := ab_assets (register_assets pools sols) in
  solution_key pools (register_assets pools sols) s = idx_of arr t0 * 2 ^ 16 + idx_of arr t1 /\
  0 <= idx_of arr t0 < 2 ^ 16 /\ 0 <= idx_of arr t1 < 2 ^ 16.
Proof.
  intros Hs Hp Hl arr. destruct (register_assets_ok pools sols) as (Harr & Hal & _ & Hreg).
  destruct (proj1 (Forall_forall _ _) Hreg s Hs _ _ _ _ Hp) as [[i0 H0] [i1 H1]].
  unfold solution_key. rewrite Hp, (add_registered _ _ _ H0), (add_registered _ _ _ H1).
  fold arr in Harr, Hal, H0, H1. unfold idx_of. rewrite H0, H1. cbn [default].
  pose proof (index_small _ _ _ Harr ltac:(lia) H0). pose proof (index_small _ _ _ Harr ltac:(lia) H1).
  split; [| done]. rewrite Z.shiftl_mul_pow2 by lia. by apply lor_shifted.
Qed.

(** The tokens of a solution's pool. *)
Definition tokens_of (pools : Pools) (s : PoolSolution) : option (Z * Z) :=
  (fun x => (x.1.1.1, x.1.1.2)) <$> pools !! sol_id s.

Lemma idx_inj arr t t' :
  array_ok arr -> is_Some (aa_assets_idx arr !! t) -> is_Some (aa_assets_idx arr !! t') ->
  idx_of arr t = idx_of arr t' -> t = t'.
Proof.
  intros [Hidx _] [i Hi] [j Hj] He. unfold idx_of in He. rewrite Hi, Hj in He. cbn in He.
  assert (i = j) as -> by lia. apply Hidx in Hi, Hj. congruence.
Qed.

Definition pair_lt (p q : Pair) : Prop := index0 p < index0 q \/ index0 p = index0 q /\ index1 p < index1 q.

Lemma processed_spec pools sols s :
  s ∈ processed pools sols -> s ∈ sols /\ exists t0 t1 snap si, pools !! sol_id s = Some (t0, t1, snap, si).
Proof.
  intros [Hs Hp]%list_filter_in. rewrite sort_by_perm in Hs. split; [done |].
  apply bool_decide_eq_true in Hp as [[[[t0 t1] snap] si] Hp]. by exists t0, t1, snap, si.
Qed.

Lemma pairs_sorted pools sols l :
  Z.of_nat (length sols) <= 2 ^ 15 -> (forall s, s ∈ l -> s ∈ processed pools sols) ->
  NoDup (omap (tokens_of pools) l) ->
  StronglySorted (fun x y => solution_key pools (register_assets pools sols) x <=
                             solution_key pools (register_assets pools sols) y) l ->
  StronglySorted pair_lt (map (pair_of pools (ab_assets (register_assets pools sols))) l).
Proof.
  intros Hlen Hin Hnd Hs. destruct (register_assets_ok pools sols) as (Harr & _ & _ & Hreg).
  induction Hs as [| x l Hs IH Hx]; cbn [map]; [constructor |].
  destruct (processed_spec pools sols x (Hin x (list_elem_of_here _ _))) as (Hxs & t0 & t1 & snap & si & Hpx).
  change (omap (tokens_of pools) (x :: l)) with
    (match tokens_of pools x with Some y => y :: omap (tokens_of pools) l | None => omap (tokens_of pools) l end) in Hnd.
  assert (Htx : tokens_of pools x = Some (t0, t1)) by (unfold tokens_of; by rewrite Hpx).
  rewrite Htx in Hnd. apply NoDup_cons in Hnd as [Hnotin Hnd].
  constructor; [apply IH; [intros s Hs'; by apply Hin, list_elem_of_further | done] |].
  apply Forall_map, Forall_forall. intros y Hy. cbn beta.
  destruct (processed_spec pools sols y (Hin y (list_elem_of_further _ _ _ Hy))) as (Hys & u0 & u1 & snap' & si' & Hpy).
  assert (Hty : tokens_of pools y = Some (u0, u1)) by (unfold tokens_of; by rewrite Hpy).
  pose proof (proj1 (Forall_forall _ _) Hx y Hy) as Hle. cbn beta in Hle.
  destruct (solution_key_idx pools sols x t0 t1 snap si Hxs Hpx Hlen) as (Ekx & B0 & B1).
  destruct (solution_key_idx pools sols y u0 u1 snap' si' Hys Hpy Hlen) as (Eky & B2 & B3).
  destruct (proj1 (Forall_forall _ _) Hreg x Hxs _ _ _ _ Hpx) as [R0 R1].
  destruct (proj1 (Forall_forall _ _) Hreg y Hys _ _ _ _ Hpy) as [R2 R3].
  set (arr := ab_assets (register_assets pools sols)) in *.
  unfold pair_lt, pair_of. rewrite Hpx, Hpy. cbn [index0 index1]. rewrite !wrap_small by done.
  rewrite Ekx, Eky in Hle. clear Ekx Eky.
  destruct (Z.lt_trichotomy (idx_of arr t0) (idx_of arr u0)) as [? | [E0 | ?]]; [by left | | nia].
  destruct (Z.lt_trichotomy (idx_of arr t1) (idx_of arr u1)) as [? | [E1 | ?]]; [by right | | nia].
  exfalso. apply Hnotin. apply (idx_inj arr) in E0, E1; try done. subst u0 u1.
  apply list_elem_of_omap. by exists y.
Qed.

Lemma omap_filter_pool pools l :
  omap (tokens_of pools) (List.filter (has_pool pools) l) = omap (tokens_of pools) l.
Proof.
  induction l as [| x l IH]; [done |]. cbn [List.filter]. unfold has_pool at 1.
  change (omap (tokens_of pools) (x :: l)) with
    (match tokens_of pools x with Some y => y :: omap (tokens_of pools) l | None => omap (tokens_of pools) l end).
  case_bool_decide as Hp.
  - change (omap (tokens_of pools) (x :: ?k)) with
      (match tokens_of pools x with Some y => y :: omap (tokens_of pools) k | None => omap (tokens_of pools) k end).
    by rewrite IH.
  - unfold tokens_of at 2. destruct (pools !! sol_id x); [destruct Hp; eauto | done].
Qed.

Lemma processed_sorted pools sols :
  StronglySorted (fun x y => solution_key pools (register_assets pools sols) x <=
                             solution_key pools (register_assets pools sols) y) (processed pools sols).
Proof.
  set (key := solution_key pools (register_assets pools sols)).
  assert (Ht : forall x y z, (key x ?= key y) <> Gt -> (key y ?= key z) <> Gt -> (key x ?= key z) <> Gt).
  { intros x y z H1 H2. change (key x <= key y) in H1. change (key y <= key z) in H2. change (key x <= key z). lia. }
  assert (Ha : forall x y, (key x ?= key y) = Gt -> (key y ?= key x) <> Gt).
  { intros x y H. apply Z.compare_gt_iff in H. change (key y <= key x). lia. }
  unfold processed. fold key. rewrite (sort_by_filter _ Ht Ha).
  exact (sort_by_sorted (fun x y => key x ?= key y) Ht Ha _).
Qed.

Lemma sorted_by_key {X} (f : X -> Z) l : StronglySorted (fun x y => f x < f y) l <-> StronglySorted Z.lt (map f l).
Proof.
  induction l as [| x l IH]; cbn; [split; constructor |]. split; intros H; inversion_clear H as [| ? ? H1 H2].
  - constructor; [by apply IH |]. apply Forall_forall. intros y (z & -> & Hz)%list_elem_of_fmap.
    by apply (proj1 (Forall_forall _ _) H2).
  - constructor; [by apply IH |]. apply Forall_forall. intros y Hy.
    apply (proj1 (Forall_forall _ _) H2). by apply list_elem_of_fmap_2.
Qed.

(** *** Rewards *)

Lemma swap_step_length d fee limit ex st st' :
  swap_step d fee limit ex st = Ok st' -> length (st_steps st') = S (length (st_steps st)).
Proof.
  unfold swap_step. intros H. repeat (apply M_bind_Ok in H as (? & _ & H) || case_match || destruct_and?); m_inv;
    cbn; rewrite length_app; cbn; lia.
Qed.

Lemma swap_loop_length fuel d fee limit ex st st' :
  swap_loop fuel d fee limit ex st = Some (Ok st') -> (length (st_steps st') <= length (st_steps st) + fuel)%nat.
Proof.
  revert st. induction fuel as [| fuel IH]; intros st H; cbn [swap_loop] in H.
  - destruct (swap_continues limit st); [done |]. injection H as <-. lia.
  - destruct (swap_continues limit st); [| injection H as <-; lia].
    destruct (swap_step d fee limit ex st) as [s1 | |] eqn:Es; [| done | done].
    apply IH in H. apply swap_step_length in Es. lia.
Qed.

Lemma swap_fuel_Z : Z.of_nat swap_fuel = 2 * MAX_TICK + 3.
Proof. change swap_fuel with (Z.to_nat (2 * MAX_TICK + 3)). by rewrite Z2Nat.id. Qed.

Lemma swap_steps_bound sw r : swap sw = Ok r -> Z.of_nat (length (sr_steps r)) <= 2 * MAX_TICK + 3.
Proof.
  unfold swap. destruct (swap_loop _ _ _ _ _ _) as [[st | |] |] eqn:El; cbn [M_bind]; [| done | done | done].
  intros H. apply swap_loop_length in El. apply M_bind_Ok in H as (liq & _ & H).
  apply M_bind_Ok in H as ([t0 t1] & _ & H). injection H as <-. cbn [sr_steps].
  assert (E0 : length (st_steps (swap_init sw)) = 0%nat) by done. rewrite E0 in El.
  pose proof swap_fuel_Z as Ef. apply Nat2Z.inj_le in El. rewrite Nat2Z.inj_add, Ef in El. exact El.
Qed.

Lemma reduce_go_length dir steps : forall lst pend l,
  reduce_go dir lst pend steps = Ok l -> (length l <= length steps + length (option_list pend))%nat.
Proof.
  induction steps as [| v steps IH]; intros lst pend l H; cbn [reduce_go] in H.
  - injection H as <-. destruct pend; cbn; lia.
  - apply M_bind_Ok in H as (a & _ & H). destruct (ss_init a).
    + apply M_bind_Ok in H as (rest & Hr & H). injection H as <-. apply IH in Hr. cbn in *. lia.
    + apply IH in H. cbn in *. lia.
Qed.

(** The donations of a swap, as the merge needs them. *)
Lemma donation_vec_shape r q v :
  0 <= q -> t0_donation_vec r q = Ok v ->
  donated v <= q /\ Forall (fun d => 0 <= donation d) v /\ (v = [] \/ ends_current v) /\
  (length v <= length (sr_steps r))%nat.
Proof.
  intros Hq H. unfold t0_donation_vec in H. destruct (sr_steps r) as [| x xs] eqn:Es.
  { injection H as <-. split_and!; [done | constructor | by left | done]. }
  apply M_bind_Ok in H as (ranges & Hr & H). apply M_bind_Ok in H as ([rem blob] & _ & H).
  apply M_bind_Ok in H as (blob' & _ & H). apply M_bind_Ok in H as (fp & _ & H).
  destruct (donate_ranges_spec _ _ _ _ _ _ Hq H) as (H1 & H2 & H3 & H4).
  unfold reduce_ranges in Hr. rewrite Es in Hr. apply reduce_go_length in Hr. cbn [option_list option_rect length] in Hr.
  split_and!; [done | done | | cbn [length]; lia]. destruct ranges; [left | right; by apply H4]. by apply nil_length_inv.
Qed.

Lemma calculation_add_nil c :
  0 <= dc_break_idx c -> dc_break_idx c + 1 <= u_max 64 -> calculation_add c [] = Ok c.
Proof.
  intros H0 H1. unfold calculation_add. rewrite checked_u_Ok by lia. cbn. unfold saturating_sub.
  destruct c as [d t br tot]. cbn in *. by replace (Z.max 0 (br + 1 - 1)) with br by lia.
Qed.

(** A calculation that can be paid out. *)
Definition calc_payable (c : DonationCalculation) (total : Z) : Prop :=
  calc_wf c /\ dc_total_donated c = total /\
  (dc_donations c <> [] -> dc_break_idx c < Z.of_nat (length (dc_donations c))).

Lemma from_vec_payable v :
  (v = [] \/ ends_current v) -> Forall (fun d => 0 <= donation d) v -> donated v <= u_max 128 ->
  exists c, from_vec v = Ok c /\ calc_payable c (donated v) /\ length (dc_donations c) = length v.
Proof.
  intros Hs Hn Hm. destruct (from_vec_wf v Hs Hn Hm) as (c & Hc & Hwf & Hp). exists c. split; [done |].
  split; [| by rewrite Hp]. split; [done |]. split; [by rewrite (wf_total _ Hwf), Hp |]. intros Hne.
  unfold from_vec in Hc. destruct v as [| x v]; [injection Hc as <-; done |].
  destruct (negb _); [done |]. destruct x; apply M_bind_Ok in Hc as (? & _ & Hc); injection Hc as <-;
    cbn [dc_break_idx dc_donations]; rewrite ?length_reverse; cbn [length]; lia.
Qed.

Lemma merged_payable v1 v2 :
  (v1 = [] \/ ends_current v1) -> Forall (fun d => 0 <= donation d) v1 ->
  (v2 = [] \/ ends_current v2) -> Forall (fun d => 0 <= donation d) v2 ->
  donated v1 + donated v2 <= u_max 128 -> Z.of_nat (length v1) + Z.of_nat (length v2) + 2 <= u_max 64 ->
  exists c, (let* c := from_vec v1 in calculation_add c v2) = Ok c /\ calc_payable c (donated v1 + donated v2).
Proof.
  intros S1 N1 S2 N2 Hm Hl. pose proof (donated_nonneg _ N2).
  destruct (from_vec_payable v1 S1 N1 ltac:(lia)) as (c1 & E1 & (Hwf1 & Ht1 & Hb1) & Hl1).
  rewrite E1. cbn [M_bind]. destruct S2 as [-> | S2].
  - destruct (wf_break _ Hwf1). rewrite calculation_add_nil by (cbn in Hl; lia). exists c1.
    change (donated []) with 0. by rewrite Z.add_0_r.
  - destruct (calculation_add_Ok c1 v2 Hwf1 N2 ltac:(lia) ltac:(lia)) as (c2 & E2 & Hwf2 & Ht2 & Hb2).
    exists c2. split; [done |]. split; [done |]. split; [lia |]. intros _. by apply Hb2.
Qed.

Lemma payable_total c total :
  calc_payable c total -> exists u, into_reward_updates c = Ok u /\ update_total u = total.
Proof.
  intros (Hwf & <- & Hb). destruct (into_reward_updates_total c Hwf Hb) as (u & Hu & Et).
  exists u. split; [done |]. by rewrite Et, (wf_total _ Hwf).
Qed.

Lemma tob_swap_bound s snapshot v q :
  tob_swap_info s snapshot = Ok (Some (v, q)) -> Z.of_nat (length (sr_steps v)) <= 2 * MAX_TICK + 3.
Proof.
  unfold tob_swap_info. destruct (sol_searcher s) as [tob |]; [| done].
  destruct (calc_vec_and_reward tob snapshot) as [[r l] | |] eqn:Ec; [| done | done]. intros [= <- <-].
  unfold calc_vec_and_reward in Ec. destruct (osd_is_bid tob).
  - apply M_bind_Ok in Ec as (r1 & Hs & Ec). apply M_bind_Ok in Ec as (lo & _ & Ec). injection Ec as <- _.
    by apply swap_steps_bound in Hs.
  - apply M_bind_Ok in Ec as (r1 & _ & Ec). apply M_bind_Ok in Ec as (lo & _ & Ec).
    apply M_bind_Ok in Ec as (r2 & Hs & Ec). injection Ec as <- _. by apply swap_steps_bound in Hs.
Qed.

(** A donation vector as the swaps make them, paying at most [q]. *)
Definition vec_ok (q : Z) (v : list DonationType) : Prop :=
  donated v <= q /\ Forall (fun d => 0 <= donation d) v /\ (v = [] \/ ends_current v) /\
  Z.of_nat (length v) <= 2 * MAX_TICK + 3.

Lemma donation_vec_ok r q v :
  0 <= q -> Z.of_nat (length (sr_steps r)) <= 2 * MAX_TICK + 3 -> t0_donation_vec r q = Ok v -> vec_ok q v.
Proof.
  intros Hq Hl Hv. apply donation_vec_shape in Hv as (H1 & H2 & H3 & H4); [| done]. split_and!; [done | done | done | lia].
Qed.

Lemma book_swap_bound s post bs : book_swap s post = Ok (Some bs) -> Z.of_nat (length (sr_steps bs)) <= 2 * MAX_TICK + 3.
Proof.
  unfold book_swap. destruct (_ =? 0); [done |]. intros H. apply M_bind_Ok in H as (u & _ & H).
  apply M_bind_Ok in H as (r & Hs & H). injection H as <-. unfold swap_to_price in Hs.
  apply M_bind_Ok in Hs as (ps & _ & Hs). by apply swap_steps_bound in Hs.
Qed.

(** The merged donations pay what the two vectors pay. *)
Lemma merge_settles bv tv qb qt d rw :
  match bv with Some v => vec_ok qb v | None => True end -> match tv with Some v => vec_ok qt v | None => True end ->
  0 <= qb -> 0 <= qt -> qb + qt <= u_max 128 ->
  merge_donations bv tv = Ok (Some d) -> into_reward_updates d = Ok rw ->
  update_total rw = dc_total_donated d /\ dc_total_donated d <= qb + qt.
Proof.
  intros Hb Hv Hqb Hqt Hmax Hd Hrw.
  assert (Hlen : 2 * (2 * MAX_TICK + 3) + 2 <= u_max 64) by (vm_compute; discriminate).
  enough (exists t, calc_payable d t /\ t <= qb + qt) as (t & Hpay & Ht).
  { destruct (payable_total _ _ Hpay) as (u & Hu & Et). rewrite Hu in Hrw. injection Hrw as <-.
    destruct Hpay as (_ & Hdt & _). lia. }
  destruct bv as [bv |], tv as [tv |]; cbn [merge_donations] in Hd; [| | | done].
  - destruct Hb as (B1 & B2 & B3 & B4), Hv as (V1 & V2 & V3 & V4).
    destruct (merged_payable tv bv V3 V2 B3 B2 ltac:(lia) ltac:(lia)) as (c & Hc & Hpay).
    rewrite <- M_bind_assoc, Hc in Hd. cbn [M_bind] in Hd. injection Hd as <-. eexists. split; [exact Hpay | lia].
  - destruct Hb as (B1 & B2 & B3 & B4). destruct (from_vec_payable bv B3 B2 ltac:(lia)) as (c & Hc & Hpay & _).
    rewrite Hc in Hd. cbn [M_bind] in Hd. injection Hd as <-. eexists. split; [exact Hpay | lia].
  - destruct Hv as (V1 & V2 & V3 & V4). destruct (from_vec_payable tv V3 V2 ltac:(lia)) as (c & Hc & Hpay & _).
    rewrite Hc in Hd. cbn [M_bind] in Hd. injection Hd as <-. eexists. split; [exact Hpay | lia].
Qed.

End BundleLemmas.

(** What is read from the chain is what the proposal executed: the order hashes
    and the accounts recovered from the bundle of a proposal are exactly the hashes and
    the senders of the top-of-block orders and of the filled limit orders of the
    solutions whose pool is known, in the order of the bundle. *)
Lemma bundle_orders_read_back {P : Profile} {U : UniswapMath} {E : OrderEnv} {A : AlloySignature} {K : Keccak}
    {LE : OrderEnvLaws E} {LA : AlloySignatureLaws A} {SK : SigningKey} (p : Proposal) (pools : Pools) b block :
  let orders := orders_by_pool_id (flattened_pre_proposals p) in
  let tobs := map order (omap sol_searcher (processed pools (pr_solutions p))) in
  let users := map order (flat_map (fun s => map snd (fills_of orders s)) (processed pools (pr_solutions p))) in
  from_proposal p pools = Ok b -> Z.of_nat (length (pr_solutions p)) <= 2 ^ 15 ->
  Forall (solution_valid pools orders block) (pr_solutions p) ->
  get_order_hashes b block = Ok (map order_hash tobs ++ map order_hash users) /\
  get_accounts b block = Ok (map from tobs ++ map from users).
Proof.
  intros orders tobs users H Hlen Hv. unfold from_proposal in H. apply M_bind_Ok in H as ([n g0] & _ & H).
  destruct (n =? 0); [done |].
  assert (Hall : Forall (solution_valid pools orders block) (processed pools (pr_solutions p))).
  { apply Forall_forall. intros s [Hs _]%list_filter_in. rewrite sort_by_perm in Hs.
    by apply (proj1 (Forall_forall _ _) Hv). }
  assert (Hpool : Forall (fun s => is_Some (pools !! sol_id s)) (processed pools (pr_solutions p))).
  { apply Forall_forall. intros s [_ Hs]%list_filter_in. by apply bool_decide_eq_true in Hs. }
  apply build_bundle_ok in H as (_ & _ & Hu & Hc); [| done |].
  2: { apply Forall_forall. intros s Hs t0 t1 snap si Hp.
       destruct (proj1 (Forall_forall _ _) Hv s Hs _ _ _ _ Hp) as [H1 H2]. split.
       - apply Forall_map in H1. eapply Forall_impl; [exact H1 |]. by intros [x o] (? & _).
       - eapply Forall_impl; [exact H2 |]. by intros o (? & _). }
  fold orders in Hu.
  assert (Huser : forall o u, o ∈ flat_map (fun s => map snd (fills_of orders s)) (processed pools (pr_solutions p)) ->
    placed (ab_pairs b) (ab_asset_list b) o u ->
    uo_recover_signer u (ab_pairs b) (ab_asset_list b) block = Ok (from (order o)) /\
    uo_order_hash u (ab_pairs b) (ab_asset_list b) block = Ok (order_hash (order o))).
  { intros o u Ho (pi & t0 & t1 & Hb & Hat & Hon). apply list_elem_of_In, in_flat_map in Ho as (s & Hs & Ho).
    apply list_elem_of_In in Hs, Ho. destruct (proj1 (Forall_forall _ _) Hpool s Hs) as [[[[a0 a1] sn] si] Hps].
    destruct (proj1 (Forall_forall _ _) Hall s Hs _ _ _ _ Hps) as [H1 _].
    destruct (proj1 (Forall_forall _ _) H1 o Ho) as (_ & Hex & Hr & Hsig).
    by eapply (bundled_hash _ _ _ _ _ _ _ _ Hb Hat Hon). }
  assert (Htob : forall o c, o ∈ omap sol_searcher (processed pools (pr_solutions p)) ->
    tob_placed (ab_pairs b) (ab_asset_list b) o c ->
    tob_user_address c (ab_pairs b) (ab_asset_list b) block = Ok (from (order o)) /\
    tob_order_hash c (ab_pairs b) (ab_asset_list b) block = Ok (order_hash (order o))).
  { intros o c Ho (pi & t0 & t1 & Hb & Hat & Hon). apply list_elem_of_omap in Ho as (s & Hs & Ho).
    destruct (proj1 (Forall_forall _ _) Hpool s Hs) as [[[[a0 a1] sn] si] Hps].
    destruct (proj1 (Forall_forall _ _) Hall s Hs _ _ _ _ Hps) as [_ H1]. rewrite Ho in H1. cbn in H1.
    apply Forall_cons in H1 as [(_ & <- & Hsig) _]. by eapply (tob_bundled_hash _ _ _ _ _ _ _ Hb Hat Hon). }
  unfold get_order_hashes, get_accounts, tobs, users. rewrite !map_map. split.
  - rewrite (M_map_Forall2 _ _ (fun o => order_hash (order o)) _ _ Hc) by (intros o c Ho Hr; by apply Htob).
    cbn [M_bind].
    by rewrite (M_map_Forall2 _ _ (fun o => order_hash (order o)) _ _ Hu) by (intros o c Ho Hr; by apply Huser).
  - rewrite (M_map_Forall2 _ _ (fun o => from (order o)) _ _ Hc) by (intros o c Ho Hr; by apply Htob).
    cbn [M_bind].
    by rewrite (M_map_Forall2 _ _ (fun o => from (order o)) _ _ Hu) by (intros o c Ho Hr; by apply Huser).
Qed.

(** ** Properties *)

(** The pairs of a bundle are what the contract demands: strictly increasing by
    asset indices, the assets strictly increasing by address and each pair pointing to
    the two tokens of its pool, as long as no two solutions are on the same tokens. *)
Theorem bundle_pairs_sorted {P : Profile} {U : UniswapMath} {E : OrderEnv} {A : AlloySignature} {K : Keccak}
    (pools : Pools) (orders : OrdersByPool) g sols b :
  build_bundle pools orders g sols = Ok b -> Z.of_nat (length sols) <= 2 ^ 15 ->
  Forall (fun s => forall t0 t1 snap si, pools !! sol_id s = Some (t0, t1, snap, si) ->
    Forall (fun p => on_pair p.2 t0 t1) (fills_of orders s) /\
    Forall (fun o => on_pair o t0 t1) (option_list (sol_searcher s))) sols ->
  NoDup (omap (fun s => (fun x => (x.1.1.1, x.1.1.2)) <$> pools !! sol_id s) sols) ->
  StronglySorted (fun p q => index0 p < index0 q \/ index0 p = index0 q /\ index1 p < index1 q) (ab_pairs b) /\
  StronglySorted (fun x y => asset_addr x < asset_addr y) (ab_asset_list b) /\
  Forall2 (fun s q => exists t0 t1 snap si a0 a1, pools !! sol_id s = Some (t0, t1, snap, si) /\
      ab_asset_list b !! Z.to_nat (index0 q) = Some a0 /\ ab_asset_list b !! Z.to_nat (index1 q) = Some a1 /\
      asset_addr a0 = t0 /\ asset_addr a1 = t1 /\ price_1over0 q = sol_ucp s)
    (processed pools sols) (ab_pairs b).
Proof.
  intros H Hlen Hok Hnd. apply build_bundle_ok in H as (Haddr & Hp & _ & _); [| done | done].
  destruct (register_assets_ok pools sols) as (Harr & Hal & Hsorted & Hreg).
  split_and!.
  - rewrite Hp. apply pairs_sorted; [done | done | | apply processed_sorted].
    unfold processed. rewrite omap_filter_pool. fold (tokens_of pools) in Hnd. by rewrite sort_by_perm.
  - by rewrite sorted_by_key, Haddr, <- sorted_by_key.
  - rewrite Hp. apply Forall2_fmap_r, Forall_Forall2_diag, Forall_forall. intros s Hs.
    destruct (processed_spec pools sols s Hs) as (Hss & t0 & t1 & snap & si & Hps).
    destruct (proj1 (Forall_forall _ _) Hreg s Hss _ _ _ _ Hps) as [[i0 R0] [i1 R1]].
    destruct (asset_of_index _ _ _ _ Harr Haddr R0) as (a0 & A0 & E0).
    destruct (asset_of_index _ _ _ _ Harr Haddr R1) as (a1 & A1 & E1).
    exists t0, t1, snap, si, a0, a1. unfold pair_of, idx_of. rewrite Hps, R0, R1. cbn.
    pose proof (index_small _ _ _ Harr ltac:(lia) R0). pose proof (index_small _ _ _ Harr ltac:(lia) R1).
    rewrite !wrap_small by done. by rewrite !Nat2Z.id.
Qed.

(** C32: The rewards of a solution add up: the reward updates pay exactly the total that
    is allocated for them, which is at most the book's reward, the liquidity providers'
    share of the user fees and the top-of-block surplus; the share and the amount saved
    are together the user fees, and the floating-point share is three quarters of them
    up to rounding.  No step overflows. *)
Theorem settled_rewards {P : Profile} {U : UniswapMath} {E : OrderEnv} {K : Keccak} s snapshot fees tob net total
    save rw :
  tob_swap_info s snapshot = Ok tob -> 0 <= sol_reward_t0 s -> 0 <= fees ->
  (forall v q, tob = Some (v, q) -> 0 <= q) ->
  sol_reward_t0 s + fees + match tob with Some (_, q) => q | None => 0 end <= u_max 128 ->
  settle_pool s snapshot fees = Ok (net, total, save, rw) ->
  update_total rw = total /\
  total <= sol_reward_t0 s + lp_donation fees + match tob with Some (_, q) => q | None => 0 end /\
  save + lp_donation fees = fees /\ 0 <= save /\
  2 ^ 51 * Z.abs (4 * lp_donation fees - 3 * fees) <= 2 ^ 51 * 3 + 3 * fees.
Proof.
  intros Ht Hr Hf Hq Hmax H. destruct (lp_donation_spec fees Hf) as [Hlp Herr].
  unfold settle_pool in H. rewrite Ht in H. cbn [M_bind] in H. apply M_bind_Ok in H as (book & Hbook & H).
  set (lp := lp_donation fees) in *.
  assert (Hq0 : 0 <= match tob with Some (_, q) => q | None => 0 end) by (destruct tob as [[v q] |]; [by eapply Hq | done]).
  unfold u128_sub, u128_add in H. rewrite !(checked_u_Ok 128) in H by lia. cbn [M_bind] in H.
  apply M_bind_Ok in H as (bv & Hbv & H). apply M_bind_Ok in H as (tv & Htv & H).
  apply M_bind_Ok in H as (don & Hdon & H). apply M_bind_Ok in H as (nt & _ & H).
  apply M_bind_Ok in H as (rewards & Hrw & H). injection H as <- <- <- <-.
  assert (Hb : match bv with Some v => vec_ok (sol_reward_t0 s + lp) v | None => True end).
  { destruct book as [bs |]; [| by injection Hbv as <-]. apply M_bind_Ok in Hbv as (v & Hv & Hbv). injection Hbv as <-.
    apply (donation_vec_ok bs); [lia | by eapply book_swap_bound | done]. }
  assert (Hv : match tv with Some v => vec_ok (match tob with Some (_, q) => q | None => 0 end) v | None => True end).
  { destruct tob as [[tv' q] |]; [| by injection Htv as <-]. apply M_bind_Ok in Htv as (v & Hv & Htv). injection Htv as <-.
    apply (donation_vec_ok tv'); [lia | by eapply tob_swap_bound | done]. }
  destruct don as [d |].
  - destruct (merge_settles bv tv _ _ d rewards Hb Hv ltac:(lia) ltac:(lia) ltac:(lia) Hdon Hrw). split_and!; lia.
  - injection Hrw as <-. unfold update_total. cbn. split_and!; lia.
Qed.

(** When the book's swap does not move the pool, nothing is donated: the reward of
    the book and the liquidity providers' share of the fees, whatever they are, are
    left out of the total, and the update even names a liquidity of zero. *)
Theorem unmoved_pool_drops_rewards {P : Profile} {U : UniswapMath} {E : OrderEnv} {K : Keccak} s snapshot fees book
    net total save rw :
  sol_searcher s = None -> book_swap s (Baseline.noop snapshot) = Ok (Some book) -> sr_steps book = [] ->
  settle_pool s snapshot fees = Ok (net, total, save, rw) ->
  total = 0 /\ rw = (CurrentOnly 0 0, None).
Proof.
  intros Hs Hb He H. unfold settle_pool, tob_swap_info in H. rewrite Hs in H. cbn [M_bind] in H. rewrite Hb in H.
  cbn [M_bind] in H. apply M_bind_Ok in H as (sv & _ & H). apply M_bind_Ok in H as (bv & Hbv & H).
  apply M_bind_Ok in Hbv as (q & _ & Hbv). unfold t0_donation_vec in Hbv. rewrite He in Hbv. cbn [M_bind] in Hbv.
  injection Hbv as <-. cbn in H. apply M_bind_Ok in H as (d & _ & H). cbn in H. by injection H as _ <- _ <-.
Qed.

(** ** Witnesses *)

(** The linear pool of PoolSwap.v around the price 1. *)
Definition unit_math : UniswapMath := {|
  MIN_SQRT_RATIO := 2 ^ 96 - MAX_TICK;
  MAX_SQRT_RATIO := 2 ^ 96 + MAX_TICK;
  get_sqrt_ratio_at_tick t :=
    if (- MAX_TICK <=? t) && (t <=? MAX_TICK) then Ok (2 ^ 96 + t) else Err "tick";
  get_tick_at_sqrt_ratio p := Ok (p - 2 ^ 96);
  next_initialized_tick_within_one_word bm t _ lte :=
    let n := if lte then t else t + 1 in Ok (n, bool_decide (is_Some (bm !! n)));
  compute_swap_step := linear_step;
|}.

Definition unit_key : SigningKey := {|
  ConsensusSignature := Z;
  AngstromSigner := Z;
  signer_id sk := sk;
  signer_address sk := sk;
  sign_hash_sync sk h := sk + h;
  recover_peer_id s h := Some (s - h);
|}.

#[local] Existing Instance unit_math.
#[local] Existing Instance unit_key.
#[local] Existing Instance toy_env.
#[local] Existing Instance toy_alloy.
#[local] Existing Instance toy_keccak.
#[local] Existing Instance dev.

Definition unit_pool : BaselinePoolState :=
  mkBaselinePoolState (mkBaselineLiquidity 1 0 (2 ^ 96) 1000 demo_ticks demo_bitmap) 0.
Definition unit_pools : Pools := {[ 9 := (1, 2, unit_pool, 0) ]}.

Definition unit_ask : OrderWithStorageData AllOrders := signed_limit false 5 1000 (10 ^ 26).
Definition unit_solution (tob : option (OrderWithStorageData TopOfBlockOrder)) : PoolSolution :=
  mkPoolSolution 9 (10 ^ 27) tob None [mkOrderOutcome (order_id unit_ask) CompleteFill] 40 0.
Definition unit_tob : OrderWithStorageData TopOfBlockOrder := signed_tob false 3500 2600.
Definition unit_proposal : Proposal :=
  mkProposal 8 1 [mkPreProposalAggregation 8 1 [mkPreProposal 8 1 [unit_ask] [] 1] 1] [unit_solution (Some unit_tob)] 1.

Lemma bundle_pairs_sorted_witness :
  let pools : Pools := <[8 := (0, 2, unit_pool, 1)]> unit_pools in
  exists b, build_bundle pools ∅ (Some 0) [unit_solution None; mkPoolSolution 8 0 None None [] 0 0] = Ok b /\
    ab_pairs b = [mkPair 0 2 1 0; mkPair 1 2 0 (10 ^ 27)] /\
    StronglySorted (fun p q => index0 p < index0 q \/ index0 p = index0 q /\ index1 p < index1 q) (ab_pairs b).
Proof.
  intros pools. destruct (build_bundle _ _ _ _) as [b | |] eqn:Eb;
    [| vm_compute in Eb; discriminate | vm_compute in Eb; discriminate].
  exists b. split; [reflexivity |]. split; [vm_compute in Eb; injection Eb as <-; reflexivity |].
  refine (proj1 (bundle_pairs_sorted pools ∅ (Some 0) _ b Eb _ _ _)).
  - vm_compute. discriminate.
  - repeat constructor.
  - replace (omap _ _) with [(1, 2); (0, 2)] by (vm_compute; reflexivity).
    apply (bool_decide_unpack _). vm_compute. exact I.
Defined.

Lemma settled_rewards_witness :
  exists net total save rw, settle_pool (unit_solution (Some unit_tob)) unit_pool 101 = Ok (net, total, save, rw) /\
    update_total rw = total /\ save = 26 /\ total = 1015.
Proof.
  destruct (settle_pool (unit_solution (Some unit_tob)) unit_pool 101) as [[[[net total] save] rw] | |] eqn:Es;
    [| vm_compute in Es; discriminate | vm_compute in Es; discriminate].
  exists net, total, save, rw. split; [reflexivity |].
  split; [| vm_compute in Es; injection Es as _ <- <- _; by split].
  destruct (tob_swap_info (unit_solution (Some unit_tob)) unit_pool) as [tob | |] eqn:Et;
    [| vm_compute in Et; discriminate | vm_compute in Et; discriminate].
  refine (proj1 (settled_rewards (unit_solution (Some unit_tob)) unit_pool 101 tob net total save rw Et _ _ _ _ Es));
    [done | done | |]; vm_compute in Et; injection Et as <-.
  - intros v q [= _ <-]. done.
  - vm_compute. discriminate.
Defined.

Lemma unmoved_pool_drops_rewards_witness :
  exists net total save rw, settle_pool (unit_solution None) unit_pool 100 = Ok (net, total, save, rw) /\
    total = 0 /\ rw = (CurrentOnly 0 0, None).
Proof.
  destruct (settle_pool (unit_solution None) unit_pool 100) as [[[[net total] save] rw] | |] eqn:Es;
    [| vm_compute in Es; discriminate | vm_compute in Es; discriminate].
  exists net, total, save, rw. split; [reflexivity |].
  destruct (book_swap (unit_solution None) (Baseline.noop unit_pool)) as [[book |] | |] eqn:Eb;
    [| vm_compute in Eb; discriminate..].
  apply (unmoved_pool_drops_rewards (unit_solution None) unit_pool 100 book net total save rw).
  - reflexivity.
  - exact Eb.
  - vm_compute in Eb. injection Eb as <-. reflexivity.
  - exact Es.
Defined.
