(* ===== verification/PoolStore.v ===== *)
(** * Pool configuration store

    crates/types/src/contract_payloads/angstrom/mod.rs (AngstromPoolConfigStore,
    UniswapAngstromRegistry): the node's copy of the list of configured pools, which the
    contract keeps as the bytecode of a store contract.  The copy is decoded from the
    bytecode at start and then follows the events of the controller contract; the index
    of a pool in it is what a bundle names the pool by.

    The contract's side is modelled too (contracts/src/types/ConfigBuffer.sol and
    modules/TopLevelAuth.sol), as the reference the copy is compared with. *)

From S2P Require Import Prelude Orders.

Definition POOL_CONFIG_STORE_ENTRY_SIZE : nat := 32.

Record AngPoolConfigEntry := mkAngPoolConfigEntry {
  ce_partial_key : Bytes;
  ce_tick_spacing : Z;
  ce_fee_in_e6 : Z;
  ce_store_index : Z;
}.

Abbreviation AngstromPoolConfigStore := (gmap Bytes AngPoolConfigEntry) (only parsing).

Definition set_store_index (i : Z) (e : AngPoolConfigEntry) : AngPoolConfigEntry :=
  mkAngPoolConfigEntry (ce_partial_key e) (ce_tick_spacing e) (ce_fee_in_e6 e) i.

(** A pool of the pool manager. *)
Record PoolKey := mkPoolKey {
  currency0 : Address;
  currency1 : Address;
  pk_fee : Z;
  pk_tick_spacing : Z;
  pk_hooks : Address;
}.

Record UniswapAngstromRegistry := mkUniswapAngstromRegistry {
  uniswap_pools : gmap PoolId PoolKey;
  angstrom_config_store : AngstromPoolConfigStore;
}.

Definition store_length (s : AngstromPoolConfigStore) : Z := Z.of_nat (size s).

(** ** Decoding *)

(** [slice::chunks]. *)
Fixpoint chunks_fuel {A} (fuel n : nat) (l : list A) : list (list A) :=
  match fuel, l with
  | S fuel, _ :: _ => take n l :: chunks_fuel fuel n (drop n l)
  | _, _ => []
  end.

Definition chunks {A} (n : nat) (l : list A) : list (list A) := chunks_fuel (length l) n l.

Definition decode_entry (index : nat) (chunk : Bytes) : AngPoolConfigEntry :=
  mkAngPoolConfigEntry (take 27 chunk) (of_be_bytes (take 2 (drop 27 chunk)))
    (of_be_bytes (0 :: take 3 (drop 29 chunk))) (Z.of_nat index).

(** [collect] into the map: a later entry replaces an earlier one of the same key. *)
Definition collect_entries (l : list AngPoolConfigEntry) : AngstromPoolConfigStore :=
  fold_left (fun s e => <[ce_partial_key e := e]> s) l ∅.

Definition store_try_from (value : Bytes) : M AngstromPoolConfigStore :=
  match value with
  | [] => Ok ∅
  | first :: adjusted_entries =>
      if negb (first =? 0) then Err "Invalid encoded entries: must start with a safety byte of 0"
      else if negb (Nat.modulo (length adjusted_entries) POOL_CONFIG_STORE_ENTRY_SIZE =? 0)%nat then
        Err "Invalid encoded entries: incorrect length after removing safety byte"
      else Ok (collect_entries (imap decode_entry (chunks POOL_CONFIG_STORE_ENTRY_SIZE adjusted_entries)))
  end.

Section Store.
Context {C : OrderCrypto}.

(** ** Following the events *)

(** The last 27 bytes of the hash of the two encoded addresses. *)
Definition derive_store_key (asset0 asset1 : Address) : Bytes :=
  drop 5 (be_bytes 32 (keccak256 (be_bytes 32 asset0 ++ be_bytes 32 asset1))).

Definition remove_pair (s : AngstromPoolConfigStore) (asset0 asset1 : Address) : AngstromPoolConfigStore :=
  let key := derive_store_key asset0 asset1 in
  match s !! key with
  | None => s
  | Some entry =>
      (fun v => if ce_store_index entry <? ce_store_index v then set_store_index (ce_store_index v - 1) v else v)
        <$> delete key s
  end.

Definition new_pool (s : AngstromPoolConfigStore) (asset0 asset1 : Address) (pool : AngPoolConfigEntry) :
    AngstromPoolConfigStore :=
  <[derive_store_key asset0 asset1 := pool]> s.

Definition get_entry (s : AngstromPoolConfigStore) (asset0 asset1 : Address) : option AngPoolConfigEntry :=
  s !! derive_store_key asset0 asset1.

(** The entry the event handler makes of a [PoolConfigured] event. *)
Definition configured_entry (s : AngstromPoolConfigStore) (asset0 asset1 : Address) (tick_spacing fee : Z) :
    AngPoolConfigEntry :=
  mkAngPoolConfigEntry (derive_store_key asset0 asset1) tick_spacing fee (store_length s).

Definition get_uni_pool (r : UniswapAngstromRegistry) (id : PoolId) : option PoolKey := uniswap_pools r !! id.

Definition get_ang_entry (r : UniswapAngstromRegistry) (id : PoolId) : option AngPoolConfigEntry :=
  uni_entry ← get_uni_pool r id;
  get_entry (angstrom_config_store r) (currency0 uni_entry) (currency1 uni_entry).

End Store.

(** ** The contract's list *)

Record ConfigEntry := mkConfigEntry {
  cf_key : Bytes;
  cf_tick_spacing : Z;
  cf_bundle_fee : Z;
}.

(** The packed entry, and the bytecode of the store: a STOP byte and the entries. *)
Definition entry_bytes (e : ConfigEntry) : Bytes :=
  cf_key e ++ be_bytes 2 (cf_tick_spacing e) ++ be_bytes 3 (cf_bundle_fee e).

Definition store_code (es : list ConfigEntry) : Bytes := 0 :: concat (map entry_bytes es).

(** [configurePool]: an existing entry is changed in place, a new one is appended. *)
Fixpoint configure_entry (es : list ConfigEntry) (key : Bytes) (tick_spacing fee : Z) : list ConfigEntry :=
  match es with
  | [] => [mkConfigEntry key tick_spacing fee]
  | e :: es => if bool_decide (cf_key e = key) then mkConfigEntry key tick_spacing fee :: es
               else e :: configure_entry es key tick_spacing fee
  end.

(** [remove_entry]: the last entry takes the place of the removed one. *)
Definition remove_entry (es : list ConfigEntry) (key : Bytes) (index : nat) : M (list ConfigEntry) :=
  let* e := unwrap (es !! index) in
  if negb (bool_decide (cf_key e = key)) then Err "EntryKeyMismatch" else
  let new_length := (length es - 1)%nat in
  let* last := unwrap (es !! new_length) in
  Ok (take new_length (if (index <? new_length)%nat then <[index := last]> es else es)).

(** The store the node decodes from a list of entries. *)
Definition entry_at (i : nat) (e : ConfigEntry) : AngPoolConfigEntry :=
  mkAngPoolConfigEntry (cf_key e) (cf_tick_spacing e) (cf_bundle_fee e) (Z.of_nat i).

Definition store_of (es : list ConfigEntry) : AngstromPoolConfigStore :=
  collect_entries (imap entry_at es).

(** ** Lemmas *)

Definition entry_ok (e : ConfigEntry) : Prop :=
  length (cf_key e) = 27%nat /\ 0 <= cf_tick_spacing e < 2 ^ 16 /\ 0 <= cf_bundle_fee e < 2 ^ 24.

Lemma entry_bytes_length e : entry_ok e -> length (entry_bytes e) = POOL_CONFIG_STORE_ENTRY_SIZE.
Proof. intros (Hk & _). unfold entry_bytes. by rewrite !length_app, !be_bytes_length, Hk. Qed.

Lemma decode_entry_bytes i e : entry_ok e -> decode_entry i (entry_bytes e) = entry_at i e.
Proof.
  intros (Hk & Ht & Hf). unfold decode_entry, entry_bytes, entry_at.
  assert (Hd : drop 29 (cf_key e ++ be_bytes 2 (cf_tick_spacing e) ++ be_bytes 3 (cf_bundle_fee e)) =
    be_bytes 3 (cf_bundle_fee e)).
  { rewrite app_assoc. apply drop_app_length'. by rewrite length_app, be_bytes_length, Hk. }
  rewrite Hd, take_app_length', drop_app_length' by done. f_equal.
  - rewrite take_app_length' by (by rewrite be_bytes_length). by apply of_be_bytes_be.
  - rewrite take_ge by (by rewrite be_bytes_length).
    change (of_be_bytes (0 :: ?b)) with (of_be_bytes b). by apply of_be_bytes_be.
Qed.

Lemma chunks_fuel_concat {A} n (l : list (list A)) fuel :
  Forall (fun x => length x = S n) l -> (length l <= fuel)%nat -> chunks_fuel fuel (S n) (concat l) = l.
Proof.
  revert fuel. induction l as [| x l IH]; intros fuel Hl Hf; [by destruct fuel |].
  apply Forall_cons in Hl as [Hx Hl]. destruct fuel as [| fuel]; [cbn in Hf; lia |].
  cbn [concat chunks_fuel]. destruct x as [| y x]; [done |]. cbn [app].
  change (y :: x ++ concat l) with ((y :: x) ++ concat l).
  rewrite take_app_length', drop_app_length' by done. f_equal. apply IH; [done |]. cbn in Hf. lia.
Qed.

Lemma concat_length_const {A} n (l : list (list A)) :
  Forall (fun x => length x = n) l -> length (concat l) = (n * length l)%nat.
Proof.
  induction 1 as [| x l Hx _ IH]; [cbn; lia |]. cbn [concat length]. rewrite length_app, Hx, IH. lia.
Qed.

Lemma store_decodes es : Forall entry_ok es -> store_try_from (store_code es) = Ok (store_of es).
Proof.
  intros Hes. unfold store_try_from, store_code. cbn [Z.eqb negb].
  assert (Hl : Forall (fun x => length x = POOL_CONFIG_STORE_ENTRY_SIZE) (map entry_bytes es)).
  { apply Forall_map. eapply Forall_impl; [exact Hes |]. apply entry_bytes_length. }
  rewrite (concat_length_const POOL_CONFIG_STORE_ENTRY_SIZE) by done. rewrite Nat.mul_comm, Nat.Div0.mod_mul.
  cbn [Nat.eqb negb]. unfold chunks. do 2 f_equal.
  rewrite (chunks_fuel_concat 31); [| done |].
  - rewrite imap_fmap. clear Hl. unfold store_of. f_equal. apply imap_ext. intros i e He. cbn.
    apply decode_entry_bytes. by eapply Forall_lookup_1.
  - rewrite (concat_length_const POOL_CONFIG_STORE_ENTRY_SIZE) by done. unfold POOL_CONFIG_STORE_ENTRY_SIZE. lia.
Qed.

(** *** The store as an indexed list *)

Lemma collect_lookup (l : list AngPoolConfigEntry) (s : AngstromPoolConfigStore) k :
  NoDup (map ce_partial_key l) ->
  fold_left (fun s e => <[ce_partial_key e := e]> s) l s !! k =
  match List.find (fun e => bool_decide (ce_partial_key e = k)) l with Some e => Some e | None => s !! k end.
Proof.
  revert s. induction l as [| e l IH]; intros s Hnd; [done |]. apply NoDup_cons in Hnd as [Hni Hnd].
  cbn [fold_left List.find]. rewrite IH by done. case_bool_decide as Hk; [| by rewrite lookup_insert_ne].
  destruct (List.find _ l) as [e' |] eqn:Hf; [| subst k; apply lookup_insert_eq].
  apply List.find_some in Hf as [Hin Hk']. apply bool_decide_eq_true in Hk'. exfalso. apply Hni.
  apply list_elem_of_fmap. exists e'. split; [congruence | by apply list_elem_of_In].
Qed.

Lemma imap_keys es : map ce_partial_key (imap entry_at es) = map cf_key es.
Proof.
  change (ce_partial_key <$> imap entry_at es = cf_key <$> es). rewrite fmap_imap.
  apply list_eq. intros i. rewrite list_lookup_imap, list_lookup_fmap. by destruct (es !! i).
Qed.

Lemma store_of_Some es k v :
  NoDup (map cf_key es) ->
  store_of es !! k = Some v <-> exists i e, es !! i = Some e /\ cf_key e = k /\ v = entry_at i e.
Proof.
  intros Hnd. unfold store_of, collect_entries. rewrite collect_lookup by (by rewrite imap_keys). split.
  - destruct (List.find _ _) as [x |] eqn:Hf; [| done]. intros [= ->].
    apply List.find_some in Hf as [Hin Hk]. apply bool_decide_eq_true in Hk.
    apply list_elem_of_In, list_elem_of_lookup_1 in Hin as (i & Hi). rewrite list_lookup_imap in Hi.
    destruct (es !! i) as [e |] eqn:He; [| done]. injection Hi as <-. by exists i, e.
  - intros (i & e & He & <- & ->).
    assert (Hi : entry_at i e ∈ imap entry_at es).
    { apply list_elem_of_lookup_2 with i. by rewrite list_lookup_imap, He. }
    destruct (List.find _ _) as [x |] eqn:Hf.
    + apply List.find_some in Hf as [Hin Hk]. apply bool_decide_eq_true in Hk.
      apply list_elem_of_In, list_elem_of_lookup_1 in Hin as (j & Hj). rewrite list_lookup_imap in Hj.
      destruct (es !! j) as [e' |] eqn:He'; [| done]. injection Hj as <-.
      enough (i = j) as -> by (rewrite He in He'; by injection He' as <-).
      eapply (NoDup_lookup _ _ _ _ Hnd); rewrite ?list_lookup_fmap; [by rewrite He | by rewrite He'; cbn in *; rewrite Hk].
    + apply List.find_none with (x := entry_at i e) in Hf; [| by apply list_elem_of_In].
      apply bool_decide_eq_false in Hf. by destruct Hf.
Qed.

Lemma store_of_at es i e : NoDup (map cf_key es) -> es !! i = Some e -> store_of es !! cf_key e = Some (entry_at i e).
Proof. intros Hnd He. apply store_of_Some; [done |]. by exists i, e. Qed.

Lemma store_of_None es k : NoDup (map cf_key es) -> store_of es !! k = None <-> k ∉ map cf_key es.
Proof.
  intros Hnd. split.
  - intros Hn Hin. apply list_elem_of_fmap in Hin as (e & -> & (i & He)%list_elem_of_lookup_1).
    by rewrite (store_of_at _ _ _ Hnd He) in Hn.
  - intros Hni. destruct (store_of es !! k) as [v |] eqn:Hv; [| done].
    apply store_of_Some in Hv as (i & e & He & <- & _); [| done]. destruct Hni. apply list_elem_of_fmap.
    exists e. split; [done | by apply list_elem_of_lookup_2 with i].
Qed.

(** Different lists are different stores. *)
Lemma store_of_inj es es' :
  NoDup (map cf_key es) -> NoDup (map cf_key es') -> store_of es = store_of es' -> es = es'.
Proof.
  assert (Hsub : forall l l' i e, NoDup (map cf_key l) -> NoDup (map cf_key l') -> store_of l = store_of l' ->
    l !! i = Some e -> l' !! i = Some e).
  { intros l l' i e H1 H2 Heq He. pose proof (store_of_at _ _ _ H1 He) as Hs. rewrite Heq in Hs.
    apply store_of_Some in Hs as (j & e' & He' & Hk & Hv); [| done]. unfold entry_at in Hv.
    injection Hv as _ Ht Hf Hij. apply Nat2Z.inj in Hij as <-. rewrite He'. f_equal. destruct e, e'; cbn in *; congruence. }
  intros H1 H2 Heq. apply list_eq. intros i. destruct (es !! i) as [e |] eqn:He; [symmetry; exact (Hsub es es' i e H1 H2 Heq He) |].
  destruct (es' !! i) as [e |] eqn:He'; [| done]. rewrite <- He. exact (Hsub es' es i e H2 H1 (eq_sym Heq) He').
Qed.

Lemma store_of_snoc es e : store_of (es ++ [e]) = <[cf_key e := entry_at (length es) e]> (store_of es).
Proof. unfold store_of, collect_entries. rewrite imap_app, fold_left_app. cbn. by rewrite Nat.add_0_r. Qed.

Lemma store_of_size es : NoDup (map cf_key es) -> store_length (store_of es) = Z.of_nat (length es).
Proof.
  unfold store_length. induction es as [| e es IH] using rev_ind; intros Hnd; [done |].
  rewrite store_of_snoc, length_app. rewrite map_app in Hnd. apply NoDup_app in Hnd as (Hnd & Hdisj & _).
  rewrite map_size_insert_None; [cbn [length]; specialize (IH Hnd); lia |].
  apply store_of_None; [done |]. intros Hin. apply (Hdisj _ Hin). apply list_elem_of_here.
Qed.

Lemma delete_keys i (es : list ConfigEntry) : NoDup (map cf_key es) -> NoDup (map cf_key (delete i es)).
Proof.
  intros Hnd. eapply sublist_NoDup; [exact Hnd |]. apply fmap_sublist, sublist_delete.
Qed.

Lemma lookup_delete_Some {X} (l : list X) i j x :
  delete i l !! j = Some x <-> if (j <? i)%nat then l !! j = Some x else l !! S j = Some x.
Proof.
  destruct (Nat.ltb_spec j i); [by rewrite list_lookup_delete_lt | by rewrite list_lookup_delete_ge].
Qed.

Section StoreLemmas.
Context {C : OrderCrypto}.

(** Removal shifts the entries above down by one. *)
Lemma remove_pair_shifts es i e a0 a1 :
  NoDup (map cf_key es) -> es !! i = Some e -> cf_key e = derive_store_key a0 a1 ->
  remove_pair (store_of es) a0 a1 = store_of (delete i es).
Proof.
  intros Hnd He Hk. unfold remove_pair. rewrite <- Hk, (store_of_at _ _ _ Hnd He).
  pose proof (delete_keys i es Hnd) as Hnd'. apply map_eq. intros k. rewrite lookup_fmap.
  destruct (store_of (delete i es) !! k) as [v |] eqn:Hv.
  - apply store_of_Some in Hv as (j & x & Hx & <- & ->); [| done]. apply lookup_delete_Some in Hx.
    assert (Hp : exists p, es !! p = Some x /\ p <> i /\ j = (if (p <? i)%nat then p else p - 1)%nat).
    { destruct (Nat.ltb_spec j i); [exists j | exists (S j)]; (split; [done |]); split; try lia.
      - destruct (Nat.ltb_spec j i); lia.
      - destruct (Nat.ltb_spec (S j) i); lia. }
    destruct Hp as (p & Hp & Hne & ->).
    assert (Hkey : cf_key e <> cf_key x).
    { intros Heq. apply Hne. eapply (NoDup_lookup _ _ _ _ Hnd); rewrite ?list_lookup_fmap;
        [by rewrite Hp | by rewrite He; cbn; rewrite Heq]. }
    rewrite lookup_delete_ne, (store_of_at _ _ _ Hnd Hp) by done.
    cbn [fmap option_fmap option_map]. f_equal. unfold entry_at, set_store_index.
    cbn [ce_partial_key ce_tick_spacing ce_fee_in_e6 ce_store_index].
    destruct (Z.ltb_spec (Z.of_nat i) (Z.of_nat p)), (Nat.ltb_spec p i); try lia; f_equal; lia.
  - apply (store_of_None _ _ Hnd') in Hv. destruct (decide (k = cf_key e)) as [-> | Hne];
      [by rewrite lookup_delete_eq |]. rewrite lookup_delete_ne by done.
    destruct (store_of es !! k) as [v |] eqn:Hs; [| done]. exfalso. apply Hv.
    apply store_of_Some in Hs as (p & x & Hx & <- & _); [| done].
    assert (p <> i) by (intros ->; congruence). apply list_elem_of_fmap. exists x. split; [done |].
    apply list_elem_of_lookup_2 with (if (p <? i)%nat then p else p - 1)%nat. apply lookup_delete_Some.
    destruct (Nat.ltb_spec p i) as [Hlt | Hge]; [by rewrite (proj2 (Nat.ltb_lt p i) Hlt) |].
    rewrite (proj2 (Nat.ltb_ge (p - 1) i)) by lia. by replace (S (p - 1)) with p by lia.
Qed.

(** The contract's removal, when it succeeds. *)
Lemma remove_entry_Ok es i e :
  es !! i = Some e -> exists es', remove_entry es (cf_key e) i = Ok es' /\
    (forall j, es' !! j = if (j <? length es - 1)%nat then
       (if decide (j = i) then es !! (length es - 1)%nat else es !! j) else None).
Proof.
  intros He. pose proof (lookup_lt_Some _ _ _ He) as Hlt. unfold remove_entry. rewrite He. cbn [M_bind unwrap].
  rewrite bool_decide_eq_true_2 by done. cbn [negb].
  destruct (lookup_lt_is_Some_2 es (length es - 1)%nat) as (l & Hl); [lia |]. rewrite Hl. cbn [M_bind unwrap].
  eexists. split; [reflexivity |]. intros j. destruct (Nat.ltb_spec j (length es - 1)) as [Hj | Hj].
  - rewrite lookup_take_lt by done. destruct (Nat.ltb_spec i (length es - 1)).
    + case_decide; [subst; by rewrite list_lookup_insert_eq by lia | by rewrite list_lookup_insert_ne].
    + rewrite decide_False by lia. done.
  - by apply lookup_take_ge.
Qed.

Lemma configure_new es k t f :
  k ∉ map cf_key es -> configure_entry es k t f = es ++ [mkConfigEntry k t f].
Proof.
  induction es as [| e es IH]; intros Hni; [done |]. cbn [map] in Hni. apply not_elem_of_cons in Hni as [Hne Hni].
  cbn [configure_entry]. rewrite bool_decide_eq_false_2 by done. by rewrite IH.
Qed.

Lemma configure_old es k t f i e :
  NoDup (map cf_key es) -> es !! i = Some e -> cf_key e = k ->
  configure_entry es k t f = <[i := mkConfigEntry k t f]> es.
Proof.
  revert i. induction es as [| x es IH]; intros [| i] Hnd He Hk; [done | done | |]; cbn in He;
    apply NoDup_cons in Hnd as [Hni Hnd]; cbn [configure_entry].
  - injection He as ->. by rewrite bool_decide_eq_true_2.
  - rewrite bool_decide_eq_false_2; [cbn; by rewrite (IH i) |]. intros Heq. apply Hni. apply list_elem_of_fmap.
    exists e. split; [congruence | by apply list_elem_of_lookup_2 with i].
Qed.

(** When the two ways of removing agree. *)
Lemma remove_agree es es' i e :
  NoDup (map cf_key es) -> es !! i = Some e ->
  (forall j, es' !! j = if (j <? length es - 1)%nat then
       (if decide (j = i) then es !! (length es - 1)%nat else es !! j) else None) ->
  store_of (delete i es) = store_of es' <-> (length es <= i + 2)%nat.
Proof.
  intros Hnd He Hes'. pose proof (lookup_lt_Some _ _ _ He) as Hlt.
  assert (Hlook : forall j, delete i es !! j = if (j <? i)%nat then es !! j else es !! S j).
  { intros j. destruct (Nat.ltb_spec j i); [by rewrite list_lookup_delete_lt | by rewrite list_lookup_delete_ge]. }
  assert (Heq : (length es <= i + 2)%nat -> delete i es = es').
  { intros Hle. apply list_eq. intros j. rewrite Hlook, Hes'.
    destruct (Nat.ltb_spec j i) as [Hji | Hji].
    - rewrite (proj2 (Nat.ltb_lt j _)) by lia. by rewrite decide_False by lia.
    - destruct (Nat.ltb_spec j (length es - 1)); [| apply lookup_ge_None; lia].
      rewrite decide_True by lia. f_equal. lia. }
  split; [| by intros ->%Heq]. intros Hs. destruct (Nat.le_gt_cases (length es) (i + 2)) as [| Hgt]; [done |].
  exfalso. destruct (lookup_lt_is_Some_2 es (length es - 1)%nat) as (l & Hl); [lia |].
  assert (Hd : delete i es !! (length es - 2)%nat = Some l).
  { rewrite Hlook, (proj2 (Nat.ltb_ge _ _)) by lia. by replace (S (length es - 2)) with (length es - 1)%nat by lia. }
  pose proof (store_of_at _ _ _ (delete_keys i es Hnd) Hd) as Hat. rewrite Hs in Hat.
  assert (Hnd' : NoDup (map cf_key es')).
  { apply NoDup_alt. intros p q x Hp Hq. rewrite list_lookup_fmap in Hp, Hq. rewrite Hes' in Hp, Hq.
    destruct (Nat.ltb_spec p (length es - 1)), (Nat.ltb_spec q (length es - 1)); [| done..].
    assert (Hinj : forall p q, (cf_key <$> es !! p) = Some x -> (cf_key <$> es !! q) = Some x -> p = q).
    { intros p' q' H1 H2. apply (NoDup_lookup _ p' q' x Hnd); by rewrite list_lookup_fmap. }
    destruct (decide (p = i)), (decide (q = i)); subst; [done | | |];
      pose proof (Hinj _ _ Hp Hq); lia. }
  apply (store_of_Some _ _ _ Hnd') in Hat as (j & x & Hx & Hkx & Hv). injection Hv as _ _ _ Hj.
  apply Nat2Z.inj in Hj as <-. rewrite Hes', (proj2 (Nat.ltb_lt _ _)), decide_False in Hx by lia.
  assert (length es - 2 = length es - 1)%nat; [| lia].
  apply (NoDup_lookup _ _ _ (cf_key l) Hnd); rewrite list_lookup_fmap; [rewrite Hx; cbn; congruence | by rewrite Hl].
Qed.

End StoreLemmas.

(** ** Properties *)

(** What the node decodes from the bytecode of the store contract is the contract's
    list: every entry under its key with its tick spacing, its fee and its position, and
    nothing else; bytes that do not start with the safety byte or are not whole entries
    are refused. *)
Theorem store_roundtrip (es : list ConfigEntry) (b : Bytes) :
  Forall entry_ok es -> NoDup (map cf_key es) ->
  (exists s, store_try_from (store_code es) = Ok s /\ store_length s = Z.of_nat (length es) /\
     forall k v, s !! k = Some v <->
       exists i e, es !! i = Some e /\ cf_key e = k /\ v = entry_at i e) /\
  ((exists s, store_try_from b = Ok s) <->
     b = [] \/ exists r, b = 0 :: r /\ Nat.modulo (length r) POOL_CONFIG_STORE_ENTRY_SIZE = 0%nat).
Proof.
  intros Hok Hnd. split.
  - exists (store_of es). split; [by apply store_decodes |]. split; [by apply store_of_size |].
    intros k v. by apply store_of_Some.
  - unfold store_try_from. destruct b as [| x r]; [split; [by left | by eexists] |].
    destruct (Z.eqb_spec x 0) as [-> | Hx]; cbn [negb].
    + destruct (Nat.eqb_spec (length r mod POOL_CONFIG_STORE_ENTRY_SIZE) 0) as [Hm | Hm]; cbn [negb].
      * split; [| by eexists]. intros _. right. by exists r.
      * split; [by intros (? & ?) |]. intros [[=] | (r' & [= <-] & Hr)]. done.
    + split; [by intros (? & ?) |]. intros [[=] | (r' & [= -> <-] & Hr)]. done.
Qed.

(** The node's copy follows the contract's list exactly when a configured pool is
    new and a removed pool is the last or the last but one: only then are both stores
    the same after the event.  The node shifts the entries above a removed pool down,
    where the contract moves the last entry into the gap, and it gives a pool that is
    configured again a new last index, where the contract keeps its place. *)
Theorem store_follows_contract {C : OrderCrypto} (es : list ConfigEntry) a0 a1 :
  let k := derive_store_key a0 a1 in
  NoDup (map cf_key es) ->
  (forall t f, new_pool (store_of es) a0 a1 (configured_entry (store_of es) a0 a1 t f) =
      store_of (configure_entry es k t f) <-> k ∉ map cf_key es) /\
  (forall i e, es !! i = Some e -> cf_key e = k -> exists es', remove_entry es k i = Ok es' /\
      (remove_pair (store_of es) a0 a1 = store_of es' <-> (length es <= i + 2)%nat)).
Proof.
  intros k Hnd. split.
  - intros t f. unfold new_pool, configured_entry. fold k. rewrite store_of_size by done.
    destruct (decide (k ∈ map cf_key es)) as [Hin | Hni].
    + split; [| done]. intros Heq. exfalso.
      apply list_elem_of_fmap in Hin as (e & Hk & (i & He)%list_elem_of_lookup_1).
      pose proof (lookup_lt_Some _ _ _ He) as Hlt.
      rewrite (configure_old _ _ _ _ i e) in Heq by done.
      assert (Hkeys : map cf_key (<[i := mkConfigEntry k t f]> es) = map cf_key es).
      { change (cf_key <$> <[i := mkConfigEntry k t f]> es = cf_key <$> es). rewrite list_fmap_insert. cbn.
        apply list_insert_id. rewrite list_lookup_fmap, He. cbn. by f_equal. }
      assert (Hl : store_of (<[i := mkConfigEntry k t f]> es) !! k = Some (entry_at i (mkConfigEntry k t f))).
      { apply store_of_Some; [by rewrite Hkeys |]. exists i, (mkConfigEntry k t f).
        by rewrite list_lookup_insert_eq. }
      rewrite <- Heq, lookup_insert_eq in Hl. injection Hl as Hi. lia.
    + split; [done |]. intros _. rewrite (configure_new es k t f Hni). by rewrite store_of_snoc.
  - intros i e He Hk. destruct (remove_entry_Ok es i e He) as (es' & Hr & Hes'). rewrite Hk in Hr.
    exists es'. split; [done |]. rewrite (remove_pair_shifts es i e) by done. by apply (remove_agree es es' i e).
Qed.

(** ** Witnesses *)

#[local] Existing Instance toy_crypto.

(** Four pools on the tokens 1 to 5. *)
Definition demo_entries : list ConfigEntry :=
  map (fun p => mkConfigEntry (derive_store_key p.1 p.2) 60 3000) [(1, 2); (1, 3); (2, 3); (4, 5)].

Lemma demo_entries_ok : Forall entry_ok demo_entries /\ NoDup (map cf_key demo_entries).
Proof. split; apply (bool_decide_unpack _); vm_compute; exact I. Qed.

Lemma store_roundtrip_witness :
  exists s, store_try_from (store_code demo_entries) = Ok s /\ store_length s = 4.
Proof.
  destruct demo_entries_ok as [H1 H2].
  destruct (proj1 (store_roundtrip demo_entries [] H1 H2)) as (s & Hs & Hl & _).
  exists s. split; [exact Hs | exact Hl].
Defined.

Lemma store_follows_contract_witness :
  exists es', remove_entry demo_entries (derive_store_key 1 3) 1 = Ok es' /\
    remove_pair (store_of demo_entries) 1 3 <> store_of es' /\
    ce_store_index <$> get_entry (remove_pair (store_of demo_entries) 1 3) 4 5 = Some 2 /\
    ce_store_index <$> get_entry (store_of es') 4 5 = Some 1.
Proof.
  destruct demo_entries_ok as [_ Hnd].
  destruct (proj2 (store_follows_contract demo_entries 1 3 Hnd) 1%nat _ eq_refl eq_refl) as (es' & Hr & Hiff).
  exists es'. split; [exact Hr |]. split.
  - intros Heq. apply Hiff in Heq. vm_compute in Heq. lia.
  - vm_compute in Hr. injection Hr as <-. split; vm_compute; reflexivity.
Defined.
