(* ===== verification/EthManager.v ===== *)
(** * Chain events

    crates/eth/src/manager.rs (EthDataCleanser): the task that hears of new heads and
    reorganizations first.  It applies the events of the controller contract to the set
    of nodes, the pools and the tokens, opens a proposal of the block synchronization,
    reads the executed orders and the touched accounts from the tip block, tells the
    listeners, and only then passes the notification on to the other tasks. *)

From S2P Require Import Prelude Uniswap Donation LeaderSelection Orders OrderPool BlockSync Chain ConsensusMessages Rounds ConsensusManager.
From S2P Require Import BundleOrders Bundle PoolStore.

(** [PoolRemoved] and [PoolConfigured] of the controller. *)
Record PoolRemovedEvent := mkPoolRemovedEvent {
  pr_asset0 : Address;
  pr_asset1 : Address;
  pr_fee_in_e6 : Z;
  pr_tick_spacing : Z;
}.

Record PoolConfiguredEvent := mkPoolConfiguredEvent {
  pc_asset0 : Address;
  pc_asset1 : Address;
  pc_bundle_fee : Z;
  pc_tick_spacing : Z;
}.

(** The decoders generated from the contracts' interfaces, and the decoding of the
    bundle inside a call of [execute]. *)
Class ChainDecoders := {
  decode_node_removed : Log -> option Address;
  decode_node_added : Log -> option Address;
  decode_pool_removed : Log -> option PoolRemovedEvent;
  decode_pool_configured : Log -> option PoolConfiguredEvent;
  decode_transfer : Log -> option (Address * Address);
  decode_approval : Log -> option (Address * Address);
  execute_call_decode : Bytes -> option Bytes;
  bundle_decode : Bytes -> option AngstromBundle;
}.

Inductive EthEvent :=
| NewBlock (block : Z)
| NewBlockTransitions (block : Z) (filled_orders : list B256) (address_changeset : list Address)
| ReorgedOrders (orders : list B256) (first last : Z)
| FinalizedBlock (block : Z)
| NewPool (pool : PoolKey)
| RemovedPool (pool : PoolKey)
| AddedNode (node : Address)
| RemovedNode (node : Address).

(** An unbounded channel: sending fails once the receiver is gone. *)
Record Listener := mkListener {
  l_alive : bool;
  l_queue : list EthEvent;
}.

Inductive EthCommand := SubscribeEthNetworkEvents (l : Listener) | SubscribeCannon.

Record EthDataCleanser := mkEthDataCleanser {
  angstrom_address : Address;
  periphery_address : Address;
  event_listeners : list Listener;
  (** everything sent through [cannon_sender] *)
  cannon_sent : list CanonStateNotification;
  angstrom_tokens : gmap Address Z;
  eth_block_sync : GlobalBlockSync;
  pool_store : gmap Bytes AngPoolConfigEntry;
  node_set : gset Address;
}.

Definition with_listeners (m : EthDataCleanser) l : EthDataCleanser :=
  mkEthDataCleanser (angstrom_address m) (periphery_address m) l (cannon_sent m) (angstrom_tokens m)
    (eth_block_sync m) (pool_store m) (node_set m).
Definition with_sent (m : EthDataCleanser) l : EthDataCleanser :=
  mkEthDataCleanser (angstrom_address m) (periphery_address m) (event_listeners m) l (angstrom_tokens m)
    (eth_block_sync m) (pool_store m) (node_set m).
Definition with_sync (m : EthDataCleanser) s : EthDataCleanser :=
  mkEthDataCleanser (angstrom_address m) (periphery_address m) (event_listeners m) (cannon_sent m)
    (angstrom_tokens m) s (pool_store m) (node_set m).
Definition with_nodes (m : EthDataCleanser) s : EthDataCleanser :=
  mkEthDataCleanser (angstrom_address m) (periphery_address m) (event_listeners m) (cannon_sent m)
    (angstrom_tokens m) (eth_block_sync m) (pool_store m) s.
Definition with_pools (m : EthDataCleanser) tokens store : EthDataCleanser :=
  mkEthDataCleanser (angstrom_address m) (periphery_address m) (event_listeners m) (cannon_sent m) tokens
    (eth_block_sync m) store (node_set m).

Definition send_events (m : EthDataCleanser) (event : EthEvent) : EthDataCleanser :=
  with_listeners m
    (map (fun l => mkListener true (l_queue l ++ [event])) (List.filter l_alive (event_listeners m))).

(** The nodes are announced in the order the set gives them. *)
Definition eth_spawn (m : EthDataCleanser) : EthDataCleanser :=
  fold_left (fun m n => send_events m (AddedNode n)) (elements (node_set m)) m.

(** A subscriber of the chain gets what is sent from then on: its position. *)
Definition on_command (m : EthDataCleanser) (c : EthCommand) : option nat * EthDataCleanser :=
  match c with
  | SubscribeEthNetworkEvents l => (None, with_listeners m (event_listeners m ++ [l]))
  | SubscribeCannon => (Some (length (cannon_sent m)), m)
  end.

Section EthManager.
Context {P : Profile} {E : OrderEnv} {A : AlloySignature} {D : ChainDecoders}.

(** ** Events of the controller *)

(** [entry(token).or_default()], and removal of a token that one pool used. *)
Definition touch_token (t : gmap Address Z) (a : Address) : gmap Address Z :=
  match t !! a with Some _ => t | None => <[a := 0]> t end.
Definition drop_token (t : gmap Address Z) (count : Z) (a : Address) : gmap Address Z :=
  if count =? 1 then delete a t else t.
Definition count_token (t : gmap Address Z) (a : Address) : M (gmap Address Z) :=
  let* c := checked_u 64 (default 0 (t !! a) + 1) in Ok (<[a := c]> t).

Definition on_pool_removed (m : EthDataCleanser) (e : PoolRemovedEvent) : EthDataCleanser :=
  let store := remove_pair (pool_store m) (pr_asset0 e) (pr_asset1 e) in
  let t := touch_token (angstrom_tokens m) (pr_asset0 e) in
  let t0 := default 0 (t !! pr_asset0 e) in
  let t := touch_token t (pr_asset1 e) in
  let t1 := default 0 (t !! pr_asset1 e) in
  let t := drop_token (drop_token t t0 (pr_asset0 e)) t1 (pr_asset1 e) in
  send_events (with_pools m t store)
    (RemovedPool (mkPoolKey (pr_asset0 e) (pr_asset1 e) (pr_fee_in_e6 e) (pr_tick_spacing e) (angstrom_address m))).

Definition on_pool_configured (m : EthDataCleanser) (e : PoolConfiguredEvent) : M EthDataCleanser :=
  let entry := configured_entry (pool_store m) (pc_asset0 e) (pc_asset1 e) (pc_tick_spacing e) (pc_bundle_fee e) in
  let store := new_pool (pool_store m) (pc_asset0 e) (pc_asset1 e) entry in
  let* t := count_token (angstrom_tokens m) (pc_asset0 e) in
  let* t := count_token t (pc_asset1 e) in
  Ok (send_events (with_pools m t store)
        (NewPool (mkPoolKey (pc_asset0 e) (pc_asset1 e) (pc_bundle_fee e) (pc_tick_spacing e) (angstrom_address m)))).

Definition apply_periphery_log (m : EthDataCleanser) (log : Log) : M EthDataCleanser :=
  match decode_node_removed log with
  | Some n => Ok (send_events (with_nodes m (node_set m ∖ {[n]})) (RemovedNode n))
  | None =>
  match decode_node_added log with
  | Some n => Ok (send_events (with_nodes m ({[n]} ∪ node_set m)) (AddedNode n))
  | None =>
  match decode_pool_removed log with
  | Some e => Ok (on_pool_removed m e)
  | None =>
  match decode_pool_configured log with
  | Some e => on_pool_configured m e
  | None => Ok m
  end end end end.

(** The logs of the tip block. *)
Definition tip_logs (c : Chain) : M (list Log) :=
  let* h := tip_hash c in
  Ok (concat (default [] (receipts_by_block_hash c h))).

Definition apply_periphery_logs (m : EthDataCleanser) (c : Chain) : M EthDataCleanser :=
  let* logs := tip_logs c in
  M_fold apply_periphery_log m (List.filter (fun l => log_address l =? periphery_address m) logs).

(** ** Executed orders and touched accounts *)

Definition tip_bundles (m : EthDataCleanser) (c : Chain) : M (list AngstromBundle) :=
  let* txs := tip_transactions c in
  Ok (omap (fun t => encoded ← execute_call_decode (tx_input t); bundle_decode encoded)
        (List.filter (fun t => bool_decide (tx_to t = Some (angstrom_address m))) txs)).

Definition fetch_filled_order (m : EthDataCleanser) (c : Chain) : M (list B256) :=
  let* bundles := tip_bundles m c in
  let* tip := tip_number c in
  let* hashes := M_map (fun b => get_order_hashes b tip) bundles in
  Ok (concat hashes).

Definition log_accounts (log : Log) : list Address :=
  match decode_transfer log with
  | Some (x, y) => [x; y]
  | None => match decode_approval log with Some (x, y) => [x; y] | None => [] end
  end.

Definition get_eoa (m : EthDataCleanser) (c : Chain) : M (list Address) :=
  let* logs := tip_logs c in
  let touched := flat_map log_accounts
    (List.filter (fun l => bool_decide (is_Some (angstrom_tokens m !! log_address l))) logs) in
  let* bundles := tip_bundles m c in
  let* tip := tip_number c in
  let* accounts := M_map (fun b => get_accounts b tip) bundles in
  Ok (unique_by id [] (touched ++ concat accounts)).

(** ** Notifications *)

(** The order of the hash set that collects the difference is not fixed by the code. *)
Definition handle_reorg (m : EthDataCleanser) (old new : Chain) : M EthDataCleanser :=
  let* m := apply_periphery_logs m new in
  let* (first, last) := reorg_of old new in
  let m := with_sync m (sync_reorg (eth_block_sync m) first last) in
  let* _ := get_eoa m old in
  let* _ := get_eoa m new in
  let* old_filled := fetch_filled_order m old in
  let* new_filled := fetch_filled_order m new in
  let difference := List.filter (fun h => negb (bool_decide (h ∈ new_filled))) (unique_by id [] old_filled) in
  Ok (send_events m (ReorgedOrders difference first last)).

Definition handle_commit (m : EthDataCleanser) (new : Chain) : M EthDataCleanser :=
  let* m := apply_periphery_logs m new in
  let* tip := tip_number new in
  let m := with_sync m (sync_new_block (eth_block_sync m) tip) in
  let* filled_orders := fetch_filled_order m new in
  let* eoas := get_eoa m new in
  Ok (send_events m (NewBlockTransitions tip filled_orders eoas)).

Definition on_canon_update (m : EthDataCleanser) (n : CanonStateNotification) : M EthDataCleanser :=
  let* m := match n with
            | Reorg old new => handle_reorg m old new
            | Commit new => handle_commit m new
            end in
  Ok (with_sent m (cannon_sent m ++ [n])).

(** The task's poll.  The stream of updates gives [None] when it is closed and also
    when this receiver has missed updates; both end the task. *)
Fixpoint poll_updates (m : EthDataCleanser) (updates : list (option CanonStateNotification)) :
    M (bool * EthDataCleanser) :=
  match updates with
  | [] => Ok (false, m)
  | None :: _ => Ok (true, m)
  | Some n :: updates => let* m := on_canon_update m n in poll_updates m updates
  end.

Definition eth_poll (m : EthDataCleanser) (updates : list (option CanonStateNotification))
    (commands : list EthCommand) : M (bool * EthDataCleanser) :=
  let* r := poll_updates m updates in
  match r with
  | (true, m) => Ok (true, m)
  | (false, m) => Ok (false, fold_left (fun m c => (on_command m c).2) commands m)
  end.

End EthManager.

(** ** Lemmas *)

(** *** What an update leaves alone *)

Definition send1 (ls : list Listener) (e : EthEvent) : list Listener :=
  map (fun l => mkListener true (l_queue l ++ [e])) (List.filter l_alive ls).

(** Only nodes, pools and tokens change, and events are sent. *)
Definition kept (m m' : EthDataCleanser) : Prop :=
  angstrom_address m' = angstrom_address m /\ periphery_address m' = periphery_address m /\
  cannon_sent m' = cannon_sent m /\ eth_block_sync m' = eth_block_sync m /\
  exists evs, event_listeners m' = fold_left send1 evs (event_listeners m).

Lemma kept_refl m : kept m m.
Proof. split_and!; [done.. |]. by exists []. Qed.

Lemma kept_trans m m' m'' : kept m m' -> kept m' m'' -> kept m m''.
Proof.
  intros (H1 & H2 & H3 & H4 & evs & H5) (K1 & K2 & K3 & K4 & evs' & K5). split_and!; [congruence.. |].
  exists (evs ++ evs'). by rewrite fold_left_app, <- H5.
Qed.

Lemma send_kept m m' e :
  angstrom_address m' = angstrom_address m -> periphery_address m' = periphery_address m ->
  cannon_sent m' = cannon_sent m -> eth_block_sync m' = eth_block_sync m ->
  event_listeners m' = event_listeners m -> kept m (send_events m' e).
Proof. intros H1 H2 H3 H4 H5. split_and!; [done.. |]. exists [e]. cbn. by rewrite H5. Qed.

(** A live listener hears everything, in order. *)
Lemma heard evs ls l :
  l ∈ ls -> l_alive l = true -> mkListener true (l_queue l ++ evs) ∈ fold_left send1 evs ls.
Proof.
  revert ls l. induction evs as [| e evs IH]; intros ls l Hl Ha.
  - rewrite app_nil_r. cbn. by destruct l as [[] q].
  - cbn [fold_left]. specialize (IH (send1 ls e) (mkListener true (l_queue l ++ [e]))). cbn in IH.
    rewrite <- app_assoc in IH. cbn [app] in IH. apply IH; [| done]. unfold send1.
    apply list_elem_of_fmap. exists l. split; [done |]. by apply list_filter_in.
Qed.

Section EthLemmas.
Context {P : Profile} {E : OrderEnv} {A : AlloySignature} {D : ChainDecoders}.

(** *** Token counts *)

Definition counts_fit (t : gmap Address Z) (n : Z) : Prop :=
  0 <= n <= u_max 64 /\ map_Forall (fun _ c => 0 <= c /\ c + n <= u_max 64) t.

Lemma counts_fit_weaken t n n' : counts_fit t n -> 0 <= n' <= n -> counts_fit t n'.
Proof.
  intros [H1 H2] Hn. split; [lia |]. intros a c Hc. destruct (H2 a c Hc). lia.
Qed.

Lemma count_token_Ok t a n :
  counts_fit t (n + 1) -> 0 <= n ->
  count_token t a = Ok (<[a := default 0 (t !! a) + 1]> t) /\ counts_fit (<[a := default 0 (t !! a) + 1]> t) n.
Proof.
  intros [H1 H2] Hn. assert (Hd : 0 <= default 0 (t !! a) /\ default 0 (t !! a) + (n + 1) <= u_max 64).
  { destruct (t !! a) as [c |] eqn:Ec; cbn; [by apply (H2 a c Ec) | lia]. }
  split.
  - unfold count_token. by rewrite checked_u_Ok by lia.
  - split; [lia |]. intros b c Hc. destruct (decide (b = a)) as [-> | Hne].
    + rewrite lookup_insert_eq in Hc. injection Hc as <-. lia.
    + rewrite lookup_insert_ne in Hc by done. destruct (H2 b c Hc). lia.
Qed.

Lemma touch_fit t a n : counts_fit t n -> counts_fit (touch_token t a) n.
Proof.
  intros [H1 H2]. unfold touch_token. destruct (t !! a) as [c |] eqn:Ec; [done |]. split; [done |].
  intros b c Hc. destruct (decide (b = a)) as [-> | Hne].
  - rewrite lookup_insert_eq in Hc. injection Hc as <-. lia.
  - rewrite lookup_insert_ne in Hc by done. by apply (H2 b c).
Qed.

Lemma drop_fit t c a n : counts_fit t n -> counts_fit (drop_token t c a) n.
Proof.
  intros [H1 H2]. unfold drop_token. destruct (c =? 1); [| done]. split; [done |].
  by apply map_Forall_delete.
Qed.

Lemma apply_log_Ok m log n :
  counts_fit (angstrom_tokens m) (n + 2) -> 0 <= n ->
  exists m', apply_periphery_log m log = Ok m' /\ kept m m' /\ counts_fit (angstrom_tokens m') n.
Proof.
  intros Hf Hn. pose proof (counts_fit_weaken _ _ n Hf ltac:(lia)) as Hf'. unfold apply_periphery_log.
  destruct (decode_node_removed log); [eexists; split; [done |]; split; [by apply send_kept | done] |].
  destruct (decode_node_added log); [eexists; split; [done |]; split; [by apply send_kept | done] |].
  destruct (decode_pool_removed log) as [e |].
  { eexists. split; [done |]. split; [by apply send_kept |]. cbn. by apply drop_fit, drop_fit, touch_fit, touch_fit. }
  destruct (decode_pool_configured log) as [e |]; [| exists m; split; [done |]; split; [apply kept_refl | done]].
  unfold on_pool_configured. replace (n + 2) with (n + 1 + 1) in Hf by lia.
  destruct (count_token_Ok _ (pc_asset0 e) _ Hf ltac:(lia)) as [E1 F1]. rewrite E1. cbn [M_bind].
  destruct (count_token_Ok _ (pc_asset1 e) _ F1 ltac:(lia)) as [E2 F2]. rewrite E2. cbn [M_bind].
  eexists. split; [done |]. split; [by apply send_kept | exact F2].
Qed.

Lemma apply_logs_fold m logs n :
  counts_fit (angstrom_tokens m) (n + 2 * Z.of_nat (length logs)) -> 0 <= n ->
  exists m', M_fold apply_periphery_log m logs = Ok m' /\ kept m m' /\ counts_fit (angstrom_tokens m') n.
Proof.
  revert m. induction logs as [| l logs IH]; intros m Hf Hn.
  - exists m. split; [done |]. split; [apply kept_refl |]. by replace n with (n + 2 * 0) by lia.
  - destruct (apply_log_Ok m l (n + 2 * Z.of_nat (length logs))) as (m1 & E1 & K1 & F1);
      [eapply counts_fit_weaken; [exact Hf | cbn [length]; lia] | lia |].
    destruct (IH m1 F1 Hn) as (m2 & E2 & K2 & F2). exists m2. cbn [M_fold]. rewrite E1. cbn [M_bind].
    split; [done |]. split; [by eapply kept_trans | done].
Qed.

Lemma filtered_length_le {X} (f : X -> bool) l : (length (List.filter f l) <= length l)%nat.
Proof. induction l as [| x l IH]; cbn; [done |]. destruct (f x); cbn; lia. Qed.

(** The logs of the tip of a segment. *)
Definition logs_of (c : Chain) : list Log :=
  match tip_logs c with Ok l => l | _ => [] end.

Lemma apply_periphery_Ok m c b :
  last c = Some b -> counts_fit (angstrom_tokens m) (2 * Z.of_nat (length (logs_of c))) ->
  exists m', apply_periphery_logs m c = Ok m' /\ kept m m'.
Proof.
  intros Hl Hf. unfold logs_of in Hf. unfold apply_periphery_logs.
  assert (Ht : exists l, tip_logs c = Ok l) by (unfold tip_logs, tip_hash, chain_tip; rewrite Hl; by eexists).
  destruct Ht as (l & Ht). rewrite Ht in Hf |- *. cbn [M_bind].
  destruct (apply_logs_fold m (List.filter (fun l => log_address l =? periphery_address m) l) 0)
    as (m' & E' & K & _); [| done | by exists m'].
  eapply counts_fit_weaken; [exact Hf |].
  pose proof (filtered_length_le (fun l => log_address l =? periphery_address m) l). lia.
Qed.

Lemma apply_log_kept m log m' : apply_periphery_log m log = Ok m' -> kept m m'.
Proof.
  unfold apply_periphery_log. intros H.
  destruct (decode_node_removed log); [injection H as <-; by apply send_kept |].
  destruct (decode_node_added log); [injection H as <-; by apply send_kept |].
  destruct (decode_pool_removed log); [injection H as <-; by apply send_kept |].
  destruct (decode_pool_configured log); [| injection H as <-; apply kept_refl].
  unfold on_pool_configured in H. apply M_bind_Ok in H as (t0 & _ & H). apply M_bind_Ok in H as (t1 & _ & H).
  injection H as <-. by apply send_kept.
Qed.

Lemma fold_logs_kept m logs m' : M_fold apply_periphery_log m logs = Ok m' -> kept m m'.
Proof.
  revert m. induction logs as [| l logs IH]; intros m H; [injection H as <-; apply kept_refl |].
  apply M_bind_Ok in H as (m1 & H1 & H). eapply kept_trans; [by eapply apply_log_kept | by apply IH].
Qed.

Lemma apply_periphery_kept m c m' : apply_periphery_logs m c = Ok m' -> kept m m'.
Proof.
  unfold apply_periphery_logs. intros H. apply M_bind_Ok in H as (l & _ & H). by eapply fold_logs_kept.
Qed.

(** *** The block synchronization *)

(** The proposal a notification opens. *)
Definition proposal_of (n : CanonStateNotification) : M GlobalBlockState :=
  match n with
  | Reorg old new => let* (first, last) := reorg_of old new in Ok (PendingReorg first last)
  | Commit new => let* tip := tip_number new in Ok (PendingProgression tip)
  end.

Definition propose (s : GlobalBlockSync) (p : GlobalBlockState) : GlobalBlockSync :=
  match p with
  | PendingReorg first last => sync_reorg s first last
  | PendingProgression b => sync_new_block s b
  | Processing _ => s
  end.

Lemma update_proposes m n m' :
  on_canon_update m n = Ok m' ->
  exists p, proposal_of n = Ok p /\ is_proposal p = true /\
    eth_block_sync m' = propose (eth_block_sync m) p /\ cannon_sent m' = cannon_sent m ++ [n].
Proof.
  unfold on_canon_update. intros H. apply M_bind_Ok in H as (m1 & H1 & H). injection H as <-. destruct n as [old new | new].
  - unfold handle_reorg in H1. apply M_bind_Ok in H1 as (m2 & H2 & H1).
    apply apply_periphery_kept in H2 as (_ & _ & K3 & K4 & _).
    apply M_bind_Ok in H1 as ([first last] & Hr & H1). apply M_bind_Ok in H1 as (? & _ & H1).
    apply M_bind_Ok in H1 as (? & _ & H1). apply M_bind_Ok in H1 as (? & _ & H1). apply M_bind_Ok in H1 as (? & _ & H1).
    injection H1 as <-. exists (PendingReorg first last). cbn. rewrite Hr, K3, K4. done.
  - unfold handle_commit in H1. apply M_bind_Ok in H1 as (m2 & H2 & H1).
    apply apply_periphery_kept in H2 as (_ & _ & K3 & K4 & _).
    apply M_bind_Ok in H1 as (tip & Ht & H1). apply M_bind_Ok in H1 as (? & _ & H1). apply M_bind_Ok in H1 as (? & _ & H1).
    injection H1 as <-. exists (PendingProgression tip). cbn. rewrite Ht, K3, K4. done.
Qed.

(** A node: the producer, and the modules that sign off the notifications it passes on,
    each in the order they were sent; [ps] are the proposals opened so far. *)
Inductive node_run (start : Z) : EthDataCleanser -> list GlobalBlockState -> gmap string nat -> Prop :=
| nr_start m modules s :
    modules <> [] -> M_fold sync_register (GlobalBlockSync_new start) modules = Ok s ->
    eth_block_sync m = finalize_modules s -> cannon_sent m = [] ->
    node_run start m [] (gset_to_gmap 0%nat (list_to_set modules))
| nr_update m ps cnt n m' p :
    node_run start m ps cnt -> on_canon_update m n = Ok m' -> proposal_of n = Ok p ->
    last ps <> Some p -> node_run start m' (ps ++ [p]) cnt
| nr_command m ps cnt c : node_run start m ps cnt -> node_run start (on_command m c).2 ps cnt
| nr_sign m ps cnt module c n p w woken s' :
    node_run start m ps cnt -> cnt !! module = Some c -> cannon_sent m !! c = Some n -> proposal_of n = Ok p ->
    sign_off (eth_block_sync m) module p w = Ok (woken, s') ->
    node_run start (with_sync m s') ps (<[module := S c]> cnt).

Lemma node_run_sync start m ps cnt :
  node_run start m ps cnt ->
  sync_reach start ps cnt (eth_block_sync m) /\
  Forall2 (fun n p => proposal_of n = Ok p) (cannon_sent m) ps.
Proof.
  induction 1 as [m modules s Hne Hs Hm Hc | m ps cnt n m' p H [IH1 IH2] Hu Hp Hl | m ps cnt c H [IH1 IH2]
                 | m ps cnt module c n p w woken s' H [IH1 IH2] Hc Hn Hp Hs].
  - rewrite Hm, Hc. split; [by apply reach_init | done].
  - destruct (update_proposes _ _ _ Hu) as (p' & Hp' & Hip & Es & Ec). rewrite Hp in Hp'. injection Hp' as <-.
    rewrite Es, Ec. split; [| apply Forall2_app; [done | by repeat constructor]].
    destruct p as [b | first last | b]; cbn [propose]; [done | by apply reach_reorg |].
    pose proof (reach_new_block start ps cnt _ b IH1) as Hr. rewrite bool_decide_eq_false_2 in Hr; [done |].
    intros Hlast. apply Hl. apply sync_reach_rel in IH1 as (_ & k & (_ & Hpend & _) & _).
    rewrite Hpend, last_lookup, length_drop, lookup_drop in Hlast. rewrite last_lookup, <- Hlast. f_equal.
    apply lookup_lt_Some in Hlast. lia.
  - by destruct c.
  - cbn. split; [| done]. eapply reach_sign_off; [exact IH1 | done | | exact Hs].
    destruct (Forall2_lookup_l _ _ _ _ _ IH2 Hn) as (p' & Hl & Hp'). congruence.
Qed.

(** *** Tokens of configured pools *)

(** The pools configured after a log, as pairs of tokens. *)
Definition live_step (l : list (Address * Address)) (log : Log) : list (Address * Address) :=
  match decode_node_removed log, decode_node_added log with
  | None, None =>
      match decode_pool_removed log, decode_pool_configured log with
      | Some e, _ => List.filter (fun p => negb (bool_decide (p = (pr_asset0 e, pr_asset1 e)))) l
      | None, Some e => set_insert (pc_asset0 e, pc_asset1 e) l
      | None, None => l
      end
  | _, _ => l
  end.

(** The contract only removes pools that are configured, and pools have two tokens. *)
Definition log_wf (l : list (Address * Address)) (log : Log) : Prop :=
  (forall e, decode_pool_removed log = Some e -> (pr_asset0 e, pr_asset1 e) ∈ l) /\
  (forall e, decode_pool_configured log = Some e -> pc_asset0 e <> pc_asset1 e).

Fixpoint logs_wf (l : list (Address * Address)) (logs : list Log) : Prop :=
  match logs with [] => True | log :: logs => log_wf l log /\ logs_wf (live_step l log) logs end.

Definition uses (a : Address) (p : Address * Address) : bool := (p.1 =? a) || (p.2 =? a).

(** Every token is counted at least as often as pools use it. *)
Definition tracked (t : gmap Address Z) (l : list (Address * Address)) : Prop :=
  NoDup l /\ Forall (fun p => p.1 <> p.2) l /\
  forall a, (0 < length (List.filter (uses a) l))%nat ->
    exists c, t !! a = Some c /\ Z.of_nat (length (List.filter (uses a) l)) <= c.

Lemma filter_remove_length (f : Address * Address -> bool) x l :
  NoDup l -> x ∈ l ->
  length (List.filter f l) =
    (length (List.filter f (List.filter (fun p => negb (bool_decide (p = x))) l)) + if f x then 1 else 0)%nat.
Proof.
  induction l as [| y l IH]; intros Hnd Hin; [by apply not_elem_of_nil in Hin |].
  apply NoDup_cons in Hnd as [Hni Hnd]. cbn [List.filter]. case_bool_decide as Hy; cbn [negb].
  - subst y. replace (List.filter (fun p => negb (bool_decide (p = x))) l) with l.
    + destruct (f x); cbn; lia.
    + symmetry. clear IH Hin Hnd. induction l as [| z l IH]; [done |]. apply not_elem_of_cons in Hni as [Hz Hni].
      cbn. rewrite bool_decide_eq_false_2 by done. cbn. by rewrite IH.
  - apply elem_of_cons in Hin as [-> | Hin]; [done |]. cbn [List.filter]. specialize (IH Hnd Hin).
    destruct (f y); cbn [length]; lia.
Qed.

Lemma touch_lookup t a b : touch_token t a !! b = if decide (b = a) then Some (default 0 (t !! a)) else t !! b.
Proof.
  unfold touch_token. case_decide as H; [subst |]; destruct (t !! a) as [c |] eqn:Ec; try done.
  - by rewrite lookup_insert_eq.
  - by rewrite lookup_insert_ne.
Qed.

Lemma touch_keeps t a b c : t !! b = Some c -> touch_token t a !! b = Some c.
Proof. intros H. rewrite touch_lookup. case_decide; [subst; by rewrite H | done]. Qed.

Lemma drop_keeps t n a b c : t !! b = Some c -> (b = a -> n <> 1) -> drop_token t n a !! b = Some c.
Proof.
  intros H Hn. unfold drop_token. destruct (Z.eqb_spec n 1); [| done].
  rewrite lookup_delete_ne; [done |]. intros ->. by apply Hn.
Qed.

Lemma removed_tracked m l e :
  let x := (pr_asset0 e, pr_asset1 e) in
  tracked (angstrom_tokens m) l -> x ∈ l ->
  tracked (angstrom_tokens (on_pool_removed m e)) (List.filter (fun p => negb (bool_decide (p = x))) l).
Proof.
  intros x (Hnd & Hne & Ht) Hrem. split_and!.
  - clear -Hnd. induction l as [| y l IH]; cbn; [constructor |]. apply NoDup_cons in Hnd as [Hni Hnd].
    destruct (negb _); [| by apply IH]. apply NoDup_cons. split; [| by apply IH]. by intros [? _]%list_filter_in.
  - apply Forall_forall. intros y [Hy _]%list_filter_in. by apply (proj1 (Forall_forall _ _) Hne).
  - intros a Hpos. pose proof (filter_remove_length (uses a) x l Hnd Hrem) as Hlen.
    destruct (Ht a) as (c & Hc & Hle); [lia |]. exists c. split; [| lia].
    assert (Huse : a = pr_asset0 e \/ a = pr_asset1 e -> 2 <= c).
    { intros Ha. assert (uses a x = true) as Hu; [| rewrite Hu in Hlen; lia].
      unfold uses, x. cbn. apply orb_true_iff. rewrite !Z.eqb_eq. destruct Ha; [by left | by right]. }
    cbn [on_pool_removed send_events with_listeners with_pools angstrom_tokens].
    apply drop_keeps; [apply drop_keeps; [by do 2 apply touch_keeps |] |].
    + intros ->. erewrite touch_keeps by exact Hc. specialize (Huse (or_introl eq_refl)). cbn. lia.
    + intros ->. erewrite touch_keeps by (apply touch_keeps; exact Hc). specialize (Huse (or_intror eq_refl)). cbn. lia.
Qed.

Lemma set_insert_uses a x l :
  length (List.filter (uses a) (set_insert x l)) =
    (length (List.filter (uses a) l) + if bool_decide (x ∈ l) then 0 else if uses a x then 1 else 0)%nat.
Proof.
  unfold set_insert. destruct (decide (x ∈ l)); [rewrite bool_decide_eq_true_2 by done; lia |].
  rewrite bool_decide_eq_false_2, List.filter_app, length_app by done. cbn. destruct (uses a x); cbn; lia.
Qed.

Lemma configured_tracked m l e m' n :
  tracked (angstrom_tokens m) l -> pc_asset0 e <> pc_asset1 e -> counts_fit (angstrom_tokens m) (n + 2) -> 0 <= n ->
  on_pool_configured m e = Ok m' -> tracked (angstrom_tokens m') (set_insert (pc_asset0 e, pc_asset1 e) l).
Proof.
  intros (Hnd & Hne & Ht) Hx Hf Hn H. set (x := (pc_asset0 e, pc_asset1 e)). unfold on_pool_configured in H.
  replace (n + 2) with (n + 1 + 1) in Hf by lia. pose proof Hf as [_ Hpos].
  destruct (count_token_Ok _ (pc_asset0 e) _ Hf ltac:(lia)) as [E1 F1]. rewrite E1 in H. cbn [M_bind] in H.
  destruct (count_token_Ok _ (pc_asset1 e) _ F1 ltac:(lia)) as [E2 F2]. rewrite E2 in H. cbn [M_bind] in H.
  injection H as <-. cbn [send_events with_listeners with_pools angstrom_tokens]. rewrite lookup_insert_ne by done.
  assert (Hd : forall a, Z.of_nat (length (List.filter (uses a) l)) <= default 0 (angstrom_tokens m !! a)).
  { intros a. destruct (decide (0 < length (List.filter (uses a) l))%nat) as [Hl | Hl].
    - destruct (Ht a Hl) as (c & -> & Hle). done.
    - destruct (angstrom_tokens m !! a) as [c |] eqn:Ec; cbn; [destruct (Hpos a c Ec); lia | lia]. }
  split_and!.
  - by apply set_insert_NoDup.
  - apply Forall_forall. intros y [-> | Hy]%set_insert_elem; [done | by apply (proj1 (Forall_forall _ _) Hne)].
  - intros a Ha. specialize (Hd a). rewrite set_insert_uses in Ha |- *.
    assert (Hone : ((if bool_decide (x ∈ l) then 0 else if uses a x then 1 else 0) <= 1)%nat)
      by (case_bool_decide; [lia |]; destruct (uses a x); lia).
    destruct (decide (a = pc_asset1 e)) as [-> | H1]; [rewrite lookup_insert_eq; eexists; split; [done | lia] |].
    rewrite lookup_insert_ne by done.
    destruct (decide (a = pc_asset0 e)) as [-> | H0]; [rewrite lookup_insert_eq; eexists; split; [done | lia] |].
    rewrite lookup_insert_ne by done. assert (Hu : uses a x = false).
    { unfold uses, x. cbn. apply orb_false_iff. rewrite !Z.eqb_neq. split; congruence. }
    rewrite Hu in Ha |- *. replace (length (List.filter (uses a) l) + (if bool_decide (x ∈ l) then 0 else 0))%nat
      with (length (List.filter (uses a) l)) in Ha |- * by (case_bool_decide; lia).
    exact (Ht a Ha).
Qed.

Lemma tracked_logs m l logs m' n :
  tracked (angstrom_tokens m) l -> logs_wf l logs ->
  counts_fit (angstrom_tokens m) (n + 2 * Z.of_nat (length logs)) -> 0 <= n ->
  M_fold apply_periphery_log m logs = Ok m' ->
  tracked (angstrom_tokens m') (fold_left live_step logs l).
Proof.
  revert m l. induction logs as [| log logs IH]; intros m l Ht Hwf Hf Hn H; [by injection H as <- |].
  destruct Hwf as [[Hrem Hconf] Hwf]. apply M_bind_Ok in H as (m1 & H1 & H). cbn [fold_left].
  replace (n + 2 * Z.of_nat (length (log :: logs))) with (n + 2 * Z.of_nat (length logs) + 2) in Hf by (cbn [length]; lia).
  destruct (apply_log_Ok m log _ Hf ltac:(lia)) as (m1' & H1' & _ & F1). rewrite H1 in H1'. injection H1' as <-.
  apply (IH m1); [| done..]. unfold apply_periphery_log in H1. unfold live_step.
  destruct (decode_node_removed log); [injection H1 as <-; by destruct (decode_node_added log) |].
  destruct (decode_node_added log); [by injection H1 as <- |].
  destruct (decode_pool_removed log) as [e |]; [injection H1 as <-; apply removed_tracked; [done | by apply Hrem] |].
  destruct (decode_pool_configured log) as [e |]; [| by injection H1 as <-].
  eapply configured_tracked; [done | by apply Hconf | exact Hf | lia | done].
Qed.

(** *** A committed segment *)

(** The order hashes and accounts of the bundles of a tip can be read. *)
Definition readable (m : EthDataCleanser) (c : Chain) (hashes : list B256) (accounts : list Address) : Prop :=
  exists bundles tip hs acs, tip_bundles m c = Ok bundles /\ tip_number c = Ok tip /\
    M_map (fun b => get_order_hashes b tip) bundles = Ok hs /\ M_map (fun b => get_accounts b tip) bundles = Ok acs /\
    hashes = concat hs /\ accounts = concat acs.

(** Accounts named by transfers and approvals of tracked tokens. *)
Definition touched_accounts (t : gmap Address Z) (c : Chain) : list Address :=
  flat_map log_accounts (List.filter (fun l => bool_decide (is_Some (t !! log_address l))) (logs_of c)).

Lemma commit_reports m c blk hashes accounts :
  last c = Some blk -> counts_fit (angstrom_tokens m) (2 * Z.of_nat (length (logs_of c))) ->
  readable m c hashes accounts ->
  exists m' m1 evs, apply_periphery_logs m c = Ok m1 /\ on_canon_update m (Commit c) = Ok m' /\
    event_listeners m' = fold_left send1 (evs ++ [NewBlockTransitions (blk_number blk) hashes
      (unique_by id [] (touched_accounts (angstrom_tokens m1) c ++ accounts))]) (event_listeners m).
Proof.
  intros Hl Hf (bundles & tip & hs & acs & Hb & Ht & Hh & Ha & -> & ->).
  destruct (apply_periphery_Ok m c blk Hl Hf) as (m1 & E1 & (K1 & K2 & K3 & K4 & evs & K5)).
  assert (Htip : tip_number c = Ok (blk_number blk)) by (unfold tip_number, chain_tip; by rewrite Hl).
  rewrite Ht in Htip. injection Htip as ->.
  assert (Hlogs : tip_logs c = Ok (logs_of c)).
  { unfold logs_of, tip_logs, tip_hash, chain_tip. by rewrite Hl. }
  assert (Hb' : forall s, tip_bundles (with_sync m1 s) c = Ok bundles).
  { intros s. rewrite <- Hb. unfold tip_bundles. cbn [with_sync angstrom_address]. by rewrite K1. }
  eexists _, m1, evs. split; [done |]. split.
  - unfold on_canon_update, handle_commit. rewrite E1. cbn [M_bind]. rewrite Ht. cbn [M_bind].
    unfold fetch_filled_order. rewrite Hb'. cbn [M_bind]. rewrite Ht. cbn [M_bind]. rewrite Hh. cbn [M_bind].
    unfold get_eoa. rewrite Hlogs. cbn [M_bind]. rewrite Hb'. cbn [M_bind]. rewrite Ht. cbn [M_bind]. rewrite Ha.
    cbn [M_bind]. reflexivity.
  - cbn [with_sent with_sync send_events with_listeners event_listeners]. rewrite fold_left_app, <- K5. done.
Qed.

Lemma unique_by_In x (l : list Z) : x ∈ unique_by id [] l <-> x ∈ l.
Proof.
  destruct (unique_by_spec id [] l) as (_ & H2 & H3). split; [intros H; by apply H2 |].
  intros H. destruct (H3 x H) as (y & Hy & Ey); [apply not_elem_of_nil |]. cbn in Ey. by subst.
Qed.

(** A tip whose only transaction to the contract carries a bundle. *)
Lemma single_bundle m c blk pre tx post encoded b :
  last c = Some blk -> blk_transactions blk = pre ++ tx :: post ->
  Forall (fun t => tx_to t <> Some (angstrom_address m)) (pre ++ post) ->
  tx_to tx = Some (angstrom_address m) ->
  execute_call_decode (tx_input tx) = Some encoded -> bundle_decode encoded = Some b ->
  tip_bundles m c = Ok [b].
Proof.
  intros Hl Htx Hother Hto He Hd. unfold tip_bundles, tip_transactions, chain_tip. rewrite Hl. cbn [M_bind unwrap].
  rewrite Htx. apply Forall_app in Hother as [H1 H2]. rewrite List.filter_app. cbn [List.filter].
  rewrite bool_decide_eq_true_2 by done.
  assert (Hnone : forall l, Forall (fun t => tx_to t <> Some (angstrom_address m)) l ->
    List.filter (fun t => bool_decide (tx_to t = Some (angstrom_address m))) l = []).
  { induction 1 as [| t l Ht _ IH]; [done |]. cbn. by rewrite bool_decide_eq_false_2. }
  rewrite (Hnone pre H1), (Hnone post H2). cbn. rewrite He. cbn. by rewrite Hd.
Qed.

End EthLemmas.

(** ** Properties *)


(** C20: Orders that were executed in the newest block are reported.  When the bundle of
    a proposal of valid solutions is in the tip block of the announced segment, as the
    only transaction there to the contract, every live listener is told of the block with
    exactly the hashes of the proposal's top-of-block orders and filled limit orders, and
    with a set of changed accounts that contains every sender, and nothing on the way
    panics.  Bundles of the segment's earlier blocks are not read ([only_tip_read]), and a
    malformed transaction to the contract panics ([malformed_bundle_panics]). *)
Theorem landed_bundle_reported {P : Profile} {U : UniswapMath} {E : OrderEnv} {A : AlloySignature} {K : Keccak}
    {LE : OrderEnvLaws E} {LA : AlloySignatureLaws A} {SK : SigningKey} {D : ChainDecoders}
    (p : Proposal) (pools : Pools) b (m : EthDataCleanser) c blk pre tx post encoded :
  let orders := orders_by_pool_id (flattened_pre_proposals p) in
  let tobs := map order (omap sol_searcher (processed pools (pr_solutions p))) in
  let users := map order (flat_map (fun s => map snd (fills_of orders s)) (processed pools (pr_solutions p))) in
  from_proposal p pools = Ok b -> Z.of_nat (length (pr_solutions p)) <= 2 ^ 15 ->
  Forall (solution_valid pools orders (blk_number blk)) (pr_solutions p) ->
  last c = Some blk -> blk_transactions blk = pre ++ tx :: post ->
  Forall (fun t => tx_to t <> Some (angstrom_address m)) (pre ++ post) ->
  tx_to tx = Some (angstrom_address m) ->
  execute_call_decode (tx_input tx) = Some encoded -> bundle_decode encoded = Some b ->
  counts_fit (angstrom_tokens m) (2 * Z.of_nat (length (logs_of c))) ->
  exists m' changed, on_canon_update m (Commit c) = Ok m' /\
    (forall a, a ∈ map from tobs ++ map from users -> a ∈ changed) /\
    forall l, l ∈ event_listeners m -> l_alive l = true -> exists evs,
      mkListener true (l_queue l ++ evs ++
        [NewBlockTransitions (blk_number blk) (map order_hash tobs ++ map order_hash users) changed])
      ∈ event_listeners m'.
Proof.
  intros orders tobs users Hp Hlen Hv Hl Htx Hother Hto He Hd Hf.
  destruct (bundle_orders_read_back p pools b (blk_number blk) Hp Hlen Hv) as [Hh Ha].
  fold orders in Hh, Ha. fold tobs users in Hh, Ha.
  assert (Hr : readable m c (map order_hash tobs ++ map order_hash users) (map from tobs ++ map from users)).
  { exists [b], (blk_number blk), [map order_hash tobs ++ map order_hash users], [map from tobs ++ map from users].
    split_and!; [by eapply single_bundle | unfold tip_number, chain_tip; by rewrite Hl | | | |].
    - cbn [M_map]. by rewrite Hh.
    - cbn [M_map]. by rewrite Ha.
    - cbn. by rewrite app_nil_r.
    - cbn. by rewrite app_nil_r. }
  destruct (commit_reports m c blk _ _ Hl Hf Hr) as (m' & m1 & evs & _ & Hu & Hls).
  eexists m', _. split; [exact Hu |]. split; [| intros l Hin Hal; exists evs; rewrite Hls; by apply heard].
  intros a Hin. apply unique_by_In, elem_of_app. by right.
Qed.

(** Balance changes of traded tokens are noticed.  As long as every token is counted
    for the pools that use it, this stays so under every sequence of controller events
    the contract can emit, and the accounts reported for a block contain both parties of
    every transfer and approval of a token of any pool configured after it. *)
Theorem balance_changes_noticed {P : Profile} {E : OrderEnv} {A : AlloySignature} {D : ChainDecoders}
    (m : EthDataCleanser) c blk hashes accounts live :
  let logs := List.filter (fun l => log_address l =? periphery_address m) (logs_of c) in
  let live' := fold_left live_step logs live in
  last c = Some blk -> counts_fit (angstrom_tokens m) (2 * Z.of_nat (length (logs_of c))) ->
  readable m c hashes accounts -> tracked (angstrom_tokens m) live -> logs_wf live logs ->
  exists m' changed, on_canon_update m (Commit c) = Ok m' /\ tracked (angstrom_tokens m') live' /\
    (forall pool log x, pool ∈ live' -> log ∈ logs_of c ->
       log_address log = pool.1 \/ log_address log = pool.2 -> x ∈ log_accounts log -> x ∈ changed) /\
    forall l, l ∈ event_listeners m -> l_alive l = true -> exists evs,
      mkListener true (l_queue l ++ evs ++ [NewBlockTransitions (blk_number blk) hashes changed])
      ∈ event_listeners m'.
Proof.
  intros logs live' Hl Hf Hr Ht Hwf.
  destruct (commit_reports m c blk _ _ Hl Hf Hr) as (m' & m1 & evs & H1 & Hu & Hls).
  assert (Htok : angstrom_tokens m' = angstrom_tokens m1).
  { unfold on_canon_update, handle_commit in Hu. rewrite H1 in Hu. cbn [M_bind] in Hu.
    apply M_bind_Ok in Hu as (m2 & Hu & E2). injection E2 as <-. apply M_bind_Ok in Hu as (? & _ & Hu).
    apply M_bind_Ok in Hu as (? & _ & Hu). apply M_bind_Ok in Hu as (? & _ & Hu). by injection Hu as <-. }
  assert (Htr : tracked (angstrom_tokens m1) live').
  { unfold apply_periphery_logs in H1. replace (tip_logs c) with (Ok (logs_of c)) in H1
      by (unfold logs_of, tip_logs, tip_hash, chain_tip; by rewrite Hl). cbn [M_bind] in H1.
    eapply (tracked_logs m live logs m1 0); [done | done | | done | exact H1].
    eapply counts_fit_weaken; [exact Hf |].
    pose proof (filtered_length_le (fun l => log_address l =? periphery_address m) (logs_of c)). fold logs in H. lia. }
  eexists m', _. split; [exact Hu |]. rewrite Htok. split; [done |].
  split; [| intros l Hin Hal; exists evs; rewrite Hls; by apply heard].
  intros pool log x Hp Hlog Hon Hx. apply unique_by_In, elem_of_app. left. unfold touched_accounts.
  apply list_elem_of_In, in_flat_map. exists log. split; [| by apply list_elem_of_In].
  apply list_elem_of_In, list_filter_in. split; [done |]. apply bool_decide_eq_true.
  destruct Htr as (_ & _ & Hcount). destruct (Hcount (log_address log)) as (n & Hn & _); [| by exists n].
  assert (Hin : pool ∈ List.filter (uses (log_address log)) live').
  { apply list_filter_in. split; [done |]. unfold uses. apply orb_true_iff. rewrite !Z.eqb_eq. by destruct Hon; [left | right]. }
  destruct (List.filter _ live'); [by apply not_elem_of_nil in Hin | cbn; lia].
Qed.

(** A transaction anyone can send stops the task.  When the tip holds a transaction
    to the contract whose bundle decodes but has an order on a pair it does not list,
    reading the order panics; whether the transaction succeeded is not looked at. *)
Theorem malformed_bundle_panics {P : Profile} {E : OrderEnv} {A : AlloySignature} {D : ChainDecoders}
    (m : EthDataCleanser) c blk pre tx post encoded b u rest :
  last c = Some blk -> blk_transactions blk = pre ++ tx :: post ->
  Forall (fun t => tx_to t <> Some (angstrom_address m)) (pre ++ post) ->
  tx_to tx = Some (angstrom_address m) ->
  execute_call_decode (tx_input tx) = Some encoded -> bundle_decode encoded = Some b ->
  ab_top_of_block_orders b = [] -> ab_user_order_list b = u :: rest ->
  Z.of_nat (length (ab_pairs b)) <= uo_pair_index u ->
  counts_fit (angstrom_tokens m) (2 * Z.of_nat (length (logs_of c))) ->
  on_canon_update m (Commit c) = Panic.
Proof.
  intros Hl Htx Hother Hto He Hd Htob Hu Hidx Hf.
  destruct (apply_periphery_Ok m c blk Hl Hf) as (m1 & E1 & (K1 & _)).
  unfold on_canon_update, handle_commit. rewrite E1. cbn [M_bind].
  assert (Ht : tip_number c = Ok (blk_number blk)) by (unfold tip_number, chain_tip; by rewrite Hl).
  rewrite Ht. cbn [M_bind]. unfold fetch_filled_order.
  rewrite (single_bundle (with_sync m1 _) c blk pre tx post encoded b Hl Htx) by (done || cbn; rewrite K1; done).
  cbn [M_bind]. rewrite Ht. cbn [M_bind M_map]. unfold get_order_hashes at 1. rewrite Htob. cbn [M_bind M_map]. rewrite Hu.
  cbn [M_map]. assert (Hpanic : uo_order_hash u (ab_pairs b) (ab_asset_list b) (blk_number blk) = Panic).
  { unfold uo_order_hash, uo_recover_signer, uo_signing_hash, recovered_order, pair_tokens, index.
    by rewrite (lookup_ge_None_2 (ab_pairs b)) by lia. }
  by rewrite Hpanic.
Qed.

(** Earlier blocks of a segment are not read: their bundles, controller events and
    transfers are lost when several blocks are committed at once. *)
Lemma only_tip_read {P : Profile} {E : OrderEnv} {A : AlloySignature} {D : ChainDecoders}
    (m : EthDataCleanser) c blk :
  Forall (fun x => blk_hash x <> blk_hash blk) c ->
  handle_commit m (c ++ [blk]) = handle_commit m [blk].
Proof.
  intros Hh. assert (Hl : last (c ++ [blk]) = Some blk) by apply last_snoc.
  assert (Hlogs : tip_logs (c ++ [blk]) = tip_logs [blk]).
  { unfold tip_logs, tip_hash, chain_tip. rewrite Hl. cbn. f_equal. f_equal. f_equal. unfold receipts_by_block_hash.
    f_equal. rewrite Z.eqb_refl. clear Hl. induction Hh as [| x c Hx _ IH]; cbn; [by rewrite Z.eqb_refl |].
    destruct (Z.eqb_spec (blk_hash x) (blk_hash blk)); [done |]. exact IH. }
  unfold handle_commit, apply_periphery_logs, fetch_filled_order, get_eoa, tip_bundles, tip_number, tip_transactions, chain_tip.
  by rewrite Hlogs, Hl.
Qed.

(** ** Witnesses *)

#[local] Existing Instance toy_env.
#[local] Existing Instance toy_alloy.
#[local] Existing Instance toy_keccak.
#[local] Existing Instance unit_math.
#[local] Existing Instance unit_key.
#[local] Existing Instance dev.

(** A bundle with one order on a pair that does not exist. *)
Definition bad_bundle : AngstromBundle :=
  mkAngstromBundle [] [] [] []
    [mkUserOrder 0 false 3 0 None None true None (QExact 5) 0 0 true (SigContract 0 [])].

Definition unit_bundle : option AngstromBundle :=
  match from_proposal unit_proposal unit_pools with Ok b => Some b | _ => None end.

(** Logs whose first topic names the event. *)
Definition toy_decoders : ChainDecoders := {|
  decode_node_removed l := match log_topics l with [1; n] => Some n | _ => None end;
  decode_node_added l := match log_topics l with [2; n] => Some n | _ => None end;
  decode_pool_removed l :=
    match log_topics l with [3; a; b; f; t] => Some (mkPoolRemovedEvent a b f t) | _ => None end;
  decode_pool_configured l :=
    match log_topics l with [4; a; b; f; t] => Some (mkPoolConfiguredEvent a b f t) | _ => None end;
  decode_transfer l := match log_topics l with [5; x; y] => Some (x, y) | _ => None end;
  decode_approval l := match log_topics l with [6; x; y] => Some (x, y) | _ => None end;
  execute_call_decode b := match b with 77 :: r => Some r | _ => None end;
  bundle_decode b := match b with [1] => unit_bundle | [2] => Some bad_bundle | _ => None end;
|}.
#[local] Existing Instance toy_decoders.

Definition demo_sync : GlobalBlockSync :=
  match M_fold sync_register (GlobalBlockSync_new 12) [MODULE_NAME] with
  | Ok s => finalize_modules s | _ => GlobalBlockSync_new 0
  end.

(** The contract is at 50, the controller at 60; two pools on the tokens 1, 2 and 3. *)
Definition demo_eth : EthDataCleanser :=
  mkEthDataCleanser 50 60 [mkListener true [NewBlock 7]] [] {[ 1 := 2; 2 := 1; 3 := 1 ]} demo_sync ∅ {[ 9 ]}.

Definition demo_block (txs : list Transaction) (logs : list Log) : Block := mkBlock 8 80 txs [logs].

Definition eth_15 : EthDataCleanser :=
  match on_canon_update demo_eth (demo_head 15) with Ok m => m | _ => demo_eth end.

Lemma eth_15_run :
  node_run 12 eth_15 [PendingProgression 15] (gset_to_gmap 0%nat (list_to_set [MODULE_NAME])).
Proof.
  apply (nr_update 12 demo_eth [] _ (demo_head 15)); [| vm_compute; reflexivity | reflexivity | done].
  eapply (nr_start 12 demo_eth [MODULE_NAME]); [done | | | reflexivity]; vm_compute; reflexivity.
Qed.

Definition following_node : ConsensusManager (K := toy_key) (R := toy_rounds) :=
  node_of (ConsensusManager_new (K := toy_key) (R := toy_rounds) 7 demo_validators one_order [9; 4] 10 12 0
             (eth_block_sync eth_15)).


Definition landed : Block :=
  demo_block [mkTransaction (Some 4) []; mkTransaction (Some 50) [77; 1]] [mkLog 1 [5; 30; 31] []; mkLog 60 [1; 9] []].

Lemma landed_bundle_reported_witness :
  exists m' changed, on_canon_update demo_eth (Commit [landed]) = Ok m' /\
    mkListener true [NewBlock 7; RemovedNode 9;
      NewBlockTransitions 8 [order_hash (order unit_tob); order_hash (order unit_ask)] changed]
      ∈ event_listeners m'.
Proof.
  destruct unit_bundle as [b |] eqn:Eb; [| vm_compute in Eb; discriminate].
  assert (Ep : from_proposal unit_proposal unit_pools = Ok b).
  { unfold unit_bundle in Eb. destruct (from_proposal _ _); [by injection Eb as -> | done | done]. }
  destruct (landed_bundle_reported (LE := toy_env_laws) (LA := toy_alloy_laws) unit_proposal unit_pools b demo_eth
    [landed] landed [mkTransaction (Some 4) []] (mkTransaction (Some 50) [77; 1]) [] [1] Ep)
    as (m' & changed & Hu & _ & Hl).
  - vm_compute. discriminate.
  - apply Forall_singleton. intros t0 t1 snap si [= <- <- <- <-]. split.
    + replace (map snd _) with [unit_ask] by (vm_compute; reflexivity). apply Forall_singleton.
      split; [by split |]. split; [| split; vm_compute; reflexivity].
      split; [done |]. intros d [= <-]. vm_compute. split; discriminate.
    + apply Forall_singleton. split; [by split |]. split; vm_compute; reflexivity.
  - reflexivity.
  - reflexivity.
  - repeat constructor; discriminate.
  - reflexivity.
  - reflexivity.
  - exact Eb.
  - split; [vm_compute; split; discriminate |]. apply (bool_decide_unpack _). vm_compute. exact I.
  - exists m', changed. split; [exact Hu |].
    assert (Ht : omap sol_searcher (processed unit_pools (pr_solutions unit_proposal)) = [unit_tob])
      by (vm_compute; reflexivity).
    assert (Ho : flat_map (fun s => map snd (fills_of (orders_by_pool_id (flattened_pre_proposals unit_proposal)) s))
      (processed unit_pools (pr_solutions unit_proposal)) = [unit_ask]) by (vm_compute; reflexivity).
    rewrite Ht, Ho in Hl. cbn [map app] in Hl.
    destruct (Hl (mkListener true [NewBlock 7]) (list_elem_of_here _ _) eq_refl) as (evs & Hin).
    enough (evs = [RemovedNode 9]) as -> by exact Hin. clear Hl Ht Ho.
    match type of Hin with context [NewBlockTransitions ?a ?b ?c] => generalize dependent (NewBlockTransitions a b c) end.
    intros e Hin.
    assert (Hq : match on_canon_update demo_eth (Commit [landed]) with
                 | Ok m => map (fun l => (take 2 (l_queue l), length (l_queue l))) (event_listeners m)
                 | _ => []
                 end = [([NewBlock 7; RemovedNode 9], 3%nat)]) by (vm_compute; reflexivity).
    rewrite Hu in Hq. apply (list_elem_of_fmap_2 (fun l => (take 2 (l_queue l), length (l_queue l)))) in Hin.
    change ((fun l => (take 2 (l_queue l), length (l_queue l))) <$> event_listeners m')
      with (map (fun l => (take 2 (l_queue l), length (l_queue l))) (event_listeners m')) in Hin.
    rewrite Hq in Hin. apply list_elem_of_singleton in Hin. injection Hin as H1 H2. cbn [l_queue app length] in H1, H2.
    rewrite length_app in H2. cbn [length] in H2. destruct evs as [| x [| y evs]]; [done | | cbn in H2; lia].
    cbn in H1. by injection H1 as ->.
Defined.

Lemma balance_changes_noticed_witness :
  let blk := demo_block [] [mkLog 3 [5; 30; 31] []; mkLog 60 [3; 1; 2; 0; 60] []] in
  exists m' (changed : list Address), on_canon_update demo_eth (Commit [blk]) = Ok m' /\
    tracked (angstrom_tokens m') [(1, 3)] /\ 30 ∈ changed /\ 31 ∈ changed.
Proof.
  intros blk.
  destruct (balance_changes_noticed demo_eth [blk] blk [] [] [(1, 2); (1, 3)])
    as (m' & changed & Hu & Ht & Hc & _).
  - reflexivity.
  - split; [vm_compute; split; discriminate |]. apply (bool_decide_unpack _). vm_compute. exact I.
  - by exists [], 8, [], [].
  - split_and!; [apply (bool_decide_unpack _); vm_compute; exact I.. |].
    intros a Ha. cbn [List.filter] in Ha. destruct (decide (a = 1)) as [-> | H1]; [exists 2; vm_compute; split; [done | discriminate] |].
    destruct (decide (a = 2)) as [-> | H2]; [exists 1; vm_compute; split; [done | discriminate] |].
    destruct (decide (a = 3)) as [-> | H3]; [exists 1; vm_compute; split; [done | discriminate] |].
    exfalso. unfold uses in Ha. cbn [fst snd] in Ha.
    rewrite (proj2 (Z.eqb_neq 1 a)), (proj2 (Z.eqb_neq 2 a)), (proj2 (Z.eqb_neq 3 a)) in Ha by congruence. cbn in Ha. lia.
  - split; [| done]. split; [| done]. intros e [= <-]. apply list_elem_of_here.
  - exists m', changed. split; [exact Hu |]. split; [exact Ht |].
    split; (eapply (Hc (1, 3) (mkLog 3 [5; 30; 31] []));
      [apply (bool_decide_unpack _); vm_compute; exact I | apply list_elem_of_here | by right | apply (bool_decide_unpack _); vm_compute; exact I]).
Defined.

Lemma malformed_bundle_panics_witness :
  on_canon_update demo_eth (Commit [demo_block [mkTransaction (Some 50) [77; 2]] []]) = Panic.
Proof.
  eapply (malformed_bundle_panics demo_eth _ (demo_block [mkTransaction (Some 50) [77; 2]] []) []
    (mkTransaction (Some 50) [77; 2]) [] [2] bad_bundle); try reflexivity.
  - constructor.
  - vm_compute. discriminate.
  - split; [vm_compute; split; discriminate |]. apply (bool_decide_unpack _). vm_compute. exact I.
Defined.
