(* ===== verification/TokenPricing.v ===== *)
(** * Token prices and gas

    crates/validation/src/common/token_pricing.rs (TokenPriceGenerator),
    types/src/pair_with_price.rs, and the gas part of order validation,
    validation/src/order/sim/{mod,gas}.rs: the average price of each pool over the last
    blocks, the price of the gas token in the first token of a pair, and what an order is
    charged for gas.

    The pools synchronized with the chain belong to another task; what is read of them,
    the two tokens and the price, is an argument ([uni]). *)

From S2P Require Import Prelude Uniswap Ray Orders Assets BundleOrders Bundle Chain PoolStore EthManager.

Definition BLOCKS_TO_AVG_PRICE : Z := 15.
Definition BOOK_GAS : Z := 50000.
Definition BOOK_GAS_INTERNAL : Z := 10000.
Definition TOB_GAS : Z := 160000.
Definition TOB_GAS_INTERNAL : Z := 150000.

Record PairsWithPrice := mkPairsWithPrice {
  pwp_token0 : Address;
  pwp_token1 : Address;
  pwp_price_1_over_0 : Z;
  pwp_block_num : Z;
}.

(** What is read of a synchronized pool. *)
Record UniPool := mkUniPool {
  up_token0 : Address;
  up_token1 : Address;
  up_sqrt_price : Z;
}.

Abbreviation UniPools := (gmap PoolId UniPool) (only parsing).

Record TokenPriceGenerator := mkTokenPriceGenerator {
  prev_prices : gmap PoolId (list PairsWithPrice);
  pair_to_pool : gmap (Address * Address) PoolId;
  base_gas_token : Address;
  tp_cur_block : Z;
  blocks_to_avg_price : Z;
  base_wei : Z;
}.

Definition with_prices (g : TokenPriceGenerator) (prices : gmap PoolId (list PairsWithPrice))
    (pairs : gmap (Address * Address) PoolId) : TokenPriceGenerator :=
  mkTokenPriceGenerator prices pairs (base_gas_token g) (tp_cur_block g) (blocks_to_avg_price g) (base_wei g).

(** ** Updates of prices *)

(** The prices a landed bundle settled at. *)
Definition from_angstrom_bundle (block_num : Z) (b : AngstromBundle) : M (list PairsWithPrice) :=
  M_map (fun p =>
    let* a0 := index (ab_asset_list b) (index0 p) in
    let* a1 := index (ab_asset_list b) (index1 p) in
    Ok (mkPairsWithPrice (asset_addr a0) (asset_addr a1) (price_1over0 p) block_num)) (ab_pairs b).

(** The bundle of the first of the transactions that decodes; calldata of a transaction
    before it that is not a call of [execute] panics. *)
Fixpoint first_bundle `{ChainDecoders} (txs : list Transaction) : M (option AngstromBundle) :=
  match txs with
  | [] => Ok None
  | t :: txs =>
      let* encoded := unwrap (execute_call_decode (tx_input t)) in
      match bundle_decode encoded with Some b => Ok (Some b) | None => first_bundle txs end
  end.

(** What a notification adds to the stream of price updates. *)
Definition price_updates_of `{ChainDecoders} (angstrom_address : Address) (n : CanonStateNotification) :
    M (list PairsWithPrice) :=
  let* tip := notification_tip n in
  let* b := first_bundle
    (List.filter (fun t => bool_decide (tx_to t = Some angstrom_address)) (blk_transactions tip)) in
  match b with Some b => from_angstrom_bundle (blk_number tip) b | None => Ok [] end.

Definition pool_price (pool : UniPool) : M Z := Ray.from_sqrt (up_sqrt_price pool).

Definition replace_price_if_empty (p : PairsWithPrice) (local : M Z) : M PairsWithPrice :=
  if pwp_price_1_over_0 p =? 0 then
    let* price := local in Ok (mkPairsWithPrice (pwp_token0 p) (pwp_token1 p) price (pwp_block_num p))
  else Ok p.

Section Pricing.
Context {P : Profile}.

(** [load block] is what the pool's data loader finds at a block. *)
Definition TokenPriceGenerator_new (uni : UniPools) (gas_price : option Z) (load : PoolId -> Z -> M (Address * Address * Z))
    (current_block : Z) (gas_token : Address) (blocks_override : option Z) : M TokenPriceGenerator :=
  let pairs := fold_left (fun m e => <[(up_token0 e.2, up_token1 e.2) := e.1]> m) (map_to_list uni) ∅ in
  let n := default BLOCKS_TO_AVG_PRICE blocks_override in
  let first := saturating_sub current_block n in
  let* prices := M_fold (fun acc id =>
      let* queue := M_map (fun b =>
          let* d := expect_ok (load id b) in
          Ok (mkPairsWithPrice d.1.1 d.1.2 d.2 b)) (seqZ first (current_block - first)) in
      Ok (<[id := queue]> acc)) ∅ (map fst (map_to_list uni)) in
  Ok (mkTokenPriceGenerator prices pairs gas_token current_block n (default 0 gas_price)).

Definition pop_if_extended (g : TokenPriceGenerator) (q : list PairsWithPrice) : list PairsWithPrice :=
  if Z.of_nat (length q) =? blocks_to_avg_price g + 1 then tail q else q.

(** The pool of an update; one that is not known yet is looked for in the pools. *)
Definition update_key (g : TokenPriceGenerator) (uni : UniPools) (u : PairsWithPrice) : M (PoolId * TokenPriceGenerator) :=
  let pair := (pwp_token0 u, pwp_token1 u) in
  match pair_to_pool g !! pair with
  | Some k => Ok (k, g)
  | None =>
      let* e := unwrap (List.find (fun e => (up_token0 e.2 =? pwp_token0 u) && (up_token1 e.2 =? pwp_token1 u))
                          (map_to_list uni)) in
      Ok (e.1, with_prices g (<[e.1 := []]> (prev_prices g)) (<[pair := e.1]> (pair_to_pool g)))
  end.

Definition apply_pool_update (uni : UniPools) (acc : TokenPriceGenerator * list PoolId) (u : PairsWithPrice) :
    M (TokenPriceGenerator * list PoolId) :=
  let (g, updated) := acc in
  let* next := checked_u 64 (tp_cur_block g + 1) in
  if negb (pwp_block_num u =? next) then Panic else
  let* (key, g) := update_key g uni u in
  let* queue := unwrap (prev_prices g !! key) in
  let* u := replace_price_if_empty u
              (match uni !! key with Some pool => pool_price pool | None => Ok 0 end) in
  let queue := if pwp_price_1_over_0 u =? 0 then queue else queue ++ [u] in
  Ok (with_prices g (<[key := pop_if_extended g queue]> (prev_prices g)) (pair_to_pool g), updated ++ [key]).

(** A pool without an update repeats its last price. *)
Definition repeat_price (g : TokenPriceGenerator) (q : list PairsWithPrice) : list PairsWithPrice :=
  match last q with
  | None => q
  | Some p =>
      pop_if_extended g (q ++ [mkPairsWithPrice (pwp_token0 p) (pwp_token1 p) (pwp_price_1_over_0 p) (tp_cur_block g)])
  end.

Definition add_missing_pool (g : TokenPriceGenerator) (e : PoolId * UniPool) : M TokenPriceGenerator :=
  match prev_prices g !! e.1 with
  | Some _ => Ok g
  | None =>
      let* price := pool_price e.2 in
      Ok (with_prices g (<[e.1 := [mkPairsWithPrice (up_token0 e.2) (up_token1 e.2) price (tp_cur_block g)]]> (prev_prices g))
            (<[(up_token0 e.2, up_token1 e.2) := e.1]> (pair_to_pool g)))
  end.

Definition apply_update (g : TokenPriceGenerator) (uni : UniPools) (new_gas_wei : Z) (updates : list PairsWithPrice) :
    M TokenPriceGenerator :=
  let g := mkTokenPriceGenerator (prev_prices g) (pair_to_pool g) (base_gas_token g) (tp_cur_block g)
             (blocks_to_avg_price g) new_gas_wei in
  let* (g, updated) := M_fold (apply_pool_update uni) (g, []) updates in
  let* next := checked_u 64 (tp_cur_block g + 1) in
  let g := mkTokenPriceGenerator (prev_prices g) (pair_to_pool g) (base_gas_token g) next (blocks_to_avg_price g)
             (base_wei g) in
  let prices := map_imap (fun k q => Some (if decide (k ∈ updated) then q else repeat_price g q)) (prev_prices g) in
  let remove_keys := List.filter (fun k => negb (bool_decide (is_Some (uni !! k)))) (map fst (map_to_list prices)) in
  let prices := fold_left (fun m k => delete k m) remove_keys prices in
  let pairs := fold_left (fun m k => filter (fun e => e.2 <> k) m) remove_keys (pair_to_pool g) in
  M_fold add_missing_pool (with_prices g prices pairs) (map_to_list uni).

Definition new_pool_update (g : TokenPriceGenerator) (id : PoolId) (token0 token1 : Address) (prices : list PairsWithPrice) :
    TokenPriceGenerator :=
  with_prices g (<[id := prices]> (prev_prices g)) (<[(token0, token1) := id]> (pair_to_pool g)).

(** ** Conversion *)

Definition ray_sum (l : list Z) : Z := fold_left (fun acc r => uint_add 256 acc r) l 0.

(** [Ray / U256]. *)
Definition ray_div (r n : Z) : M Z := if n =? 0 then Panic else Ok (r / n).

Definition avg_price (f : Z -> M Z) (q : list PairsWithPrice) : M Z :=
  let* l := M_map (fun p => f (pwp_price_1_over_0 p)) q in
  ray_div (ray_sum l) (Z.of_nat (length q)).

Definition gas_wei (g : TokenPriceGenerator) : Z := if base_wei g =? 0 then 10 ^ 18 else base_wei g.

(** The price of the gas token in the pair's first token, before it is scaled by the gas
    price: every branch of the source ends with the same scaling. *)
Definition raw_conversion_price (g : TokenPriceGenerator) (token_0 token_1 : Address) : M (option Z) :=
  let weth := base_gas_token g in
  if token_0 =? weth then let* one := Ray.scale_to_ray 1 in Ok (Some one) else
  if token_1 =? weth then
    match pair_to_pool g !! (token_0, token_1) with
    | None => Ok None
    | Some key =>
        match prev_prices g !! key with
        | None => Ok None
        | Some prices => let* avg := avg_price (fun x => Ok x) prices in Ok (Some avg)
        end
    end
  else
  let first_flip := token_0 <? weth in
  let hop1 := if first_flip then (token_0, weth) else (weth, token_0) in
  let second_flip := token_1 <? weth in
  let hop2 := if second_flip then (token_1, weth) else (weth, token_1) in
  match pair_to_pool g !! hop1 with
  | Some key =>
      match prev_prices g !! key with
      | None => Ok None
      | Some prices =>
          let* avg := avg_price (fun x => if first_flip then Ok x else Ray.inv_ray x) prices in Ok (Some avg)
      end
  | None =>
      match pair_to_pool g !! hop2 with
      | None => Ok None
      | Some key =>
          let* default_key := unwrap (pair_to_pool g !! (token_0, token_1)) in
          match prev_prices g !! default_key with
          | None => Ok None
          | Some prices =>
              let* first_hop := avg_price (fun x => Ok x) prices in
              match prev_prices g !! key with
              | None => Ok None
              | Some prices =>
                  let* second_hop := avg_price (fun x => if second_flip then Ok x else Ray.inv_ray x) prices in
                  let* r := Ray.mul_ray first_hop second_hop in Ok (Some r)
              end
          end
      end
  end.

Definition get_eth_conversion_price (g : TokenPriceGenerator) (token_0 token_1 : Address) : M (option Z) :=
  let* raw := raw_conversion_price g token_0 token_1 in
  match raw with
  | None => Ok None
  | Some r => let* x := Ray.mul_wad r (gas_wei g) 18 in Ok (Some x)
  end.

Definition generate_lookup_map (g : TokenPriceGenerator) : M (gmap (Address * Address) Z) :=
  M_fold (fun m e =>
    let (t0, t1) := if e.1.2 <? e.1.1 then (e.1.2, e.1.1) else e.1 in
    let* price := get_eth_conversion_price g t0 t1 in
    Ok (match price with Some p => <[(t0, t1) := p]> m | None => m end)) ∅ (map_to_list (pair_to_pool g)).

(** ** Gas of an order *)

Section Gas.
Context {C : OrderCrypto} {O : Type} `{!RawPoolOrder O}.

(** [gas_of_tob_order] and [gas_of_book_order]. *)
Definition gas_of_order (tob : bool) (o : O) : Z :=
  if tob then (if use_internal o then TOB_GAS_INTERNAL else TOB_GAS)
  else (if use_internal o then BOOK_GAS_INTERNAL else BOOK_GAS).

(** [calculate_tob_gas] and [calculate_user_gas]: the units and the charge in the first token. *)
Definition calculate_gas (tob : bool) (g : TokenPriceGenerator) (o : O) : M (Z * Z) :=
  let gas_in_wei := gas_of_order tob o in
  let (token0, token1) := if token_in o <? token_out o then (token_in o, token_out o) else (token_out o, token_in o) in
  let* price := get_eth_conversion_price g token0 token1 in
  let* conversion_factor := ok_or price "failed to get conversion price" in
  let* gas_token_0 := Ray.inverse_quantity conversion_factor gas_in_wei false in
  if max_gas_token_0 o <? gas_token_0 then Err "gas_needed_token0 > max_gas" else Ok (gas_in_wei, gas_token_0).

End Gas.

(** The estimate given over the wire. *)
Definition gas_estimation (g : TokenPriceGenerator) (is_book is_internal : bool) (token_0 token_1 : Address) : M Z :=
  let (t0, t1) := if token_1 <? token_0 then (token_1, token_0) else (token_0, token_1) in
  let* price := get_eth_conversion_price g t0 t1 in
  let* cvrt := ok_or price "not valid token pair" in
  let gas_in_wei := if is_book then (if is_internal then BOOK_GAS_INTERNAL else BOOK_GAS)
                    else (if is_internal then TOB_GAS_INTERNAL else TOB_GAS) in
  Ray.inverse_quantity cvrt gas_in_wei false.

End Pricing.

(** ** Lemmas *)

Definition MAX_PRICE : Z := 2 ^ 224.
Definition price_ok (x : Z) : Prop := 0 < x <= MAX_PRICE.

(** A price history: never empty, never longer than the averaging window. *)
Definition queue_ok (n : Z) (q : list PairsWithPrice) : Prop :=
  q <> [] /\ Z.of_nat (length q) <= n /\ Forall (fun p => price_ok (pwp_price_1_over_0 p)) q.

Definition up_tokens (p : UniPool) : Address * Address := (up_token0 p, up_token1 p).

(** Synchronized pools: priced, and one pool per pair of tokens. *)
Definition pools_ok (uni : UniPools) : Prop :=
  (forall k p, uni !! k = Some p -> exists r, pool_price p = Ok r /\ price_ok r) /\
  (forall k k' p p', uni !! k = Some p -> uni !! k' = Some p' -> up_tokens p = up_tokens p' -> k = k').

(** The history and the index of pairs agree. *)
Definition indexed (uni : UniPools) (g : TokenPriceGenerator) : Prop :=
  (forall k q, prev_prices g !! k = Some q -> queue_ok (blocks_to_avg_price g) q) /\
  (forall pr k, pair_to_pool g !! pr = Some k -> is_Some (prev_prices g !! k)) /\
  (forall k p, uni !! k = Some p -> is_Some (prev_prices g !! k) -> pair_to_pool g !! up_tokens p = Some k).

Definition pricing_inv (uni : UniPools) (g : TokenPriceGenerator) : Prop :=
  1 <= blocks_to_avg_price g <= 2 ^ 16 /\ indexed uni g /\
  (forall k, is_Some (prev_prices g !! k) <-> is_Some (uni !! k)).

(** An update for the next block of a pool that is known or synchronized. *)
Definition update_ok (uni : UniPools) (g : TokenPriceGenerator) (u : PairsWithPrice) : Prop :=
  pwp_block_num u = tp_cur_block g + 1 /\ 0 <= pwp_price_1_over_0 u <= MAX_PRICE /\
  (is_Some (pair_to_pool g !! (pwp_token0 u, pwp_token1 u)) \/
   exists k p, uni !! k = Some p /\ up_tokens p = (pwp_token0 u, pwp_token1 u)).

Section PricingLemmas.
Context {P : Profile}.

Lemma push_ok g n q u :
  blocks_to_avg_price g = n -> 1 <= n -> (q = [] \/ queue_ok n q) -> price_ok (pwp_price_1_over_0 u) ->
  queue_ok n (pop_if_extended g (q ++ [u])).
Proof.
  intros <- Hn Hq Hu. assert (Hl : Z.of_nat (length q) <= blocks_to_avg_price g) by (destruct Hq as [-> | (_ & ? & _)]; cbn; lia).
  assert (Hf : Forall (fun p => price_ok (pwp_price_1_over_0 p)) (q ++ [u])).
  { apply Forall_app. split; [| by apply Forall_singleton]. destruct Hq as [-> | (_ & _ & ?)]; [by apply Forall_nil | done]. }
  unfold pop_if_extended. rewrite length_app. cbn [length].
  destruct (Z.eqb_spec (Z.of_nat (length q + 1)) (blocks_to_avg_price g + 1)) as [E | E].
  - destruct q as [| x q]; [cbn in E; lia |]. cbn [app tail]. cbn [length] in E. split; [by destruct q |].
    split; [rewrite length_app; cbn; lia |]. by apply Forall_cons in Hf as [_ Hf].
  - split; [by destruct q |]. split; [rewrite length_app; cbn; lia | done].
Qed.

Lemma pop_keeps g n q : blocks_to_avg_price g = n -> 1 <= n -> queue_ok n q -> pop_if_extended g q = q.
Proof. intros <- Hn (_ & Hl & _). unfold pop_if_extended. by rewrite (proj2 (Z.eqb_neq _ _)) by lia. Qed.

Lemma repeat_ok g n q : blocks_to_avg_price g = n -> 1 <= n -> queue_ok n q -> queue_ok n (repeat_price g q).
Proof.
  intros Hb Hn Hq. unfold repeat_price. destruct (last q) as [p |] eqn:El; [| done].
  apply push_ok; [done | done | by right |]. cbn. destruct Hq as (_ & _ & Hf).
  apply (proj1 (Forall_forall _ _) Hf). by apply last_Some_elem_of.
Qed.

Lemma find_pool uni a b :
  (exists k p, uni !! k = Some p /\ up_tokens p = (a, b)) ->
  exists e, List.find (fun e : PoolId * UniPool => (up_token0 e.2 =? a) && (up_token1 e.2 =? b)) (map_to_list uni) = Some e /\
    uni !! e.1 = Some e.2 /\ up_tokens e.2 = (a, b).
Proof.
  intros (k & p & Hk & Ht). destruct (List.find _ _) as [e |] eqn:Hf.
  - exists e. split; [done |]. apply List.find_some in Hf as [Hin Hb]. apply list_elem_of_In in Hin.
    destruct e as [k' p']. apply elem_of_map_to_list in Hin. split; [done |].
    apply andb_true_iff in Hb as [H0 H1]. cbn in *. unfold up_tokens. f_equal; by apply Z.eqb_eq.
  - exfalso. apply List.find_none with (x := (k, p)) in Hf; [| by apply list_elem_of_In, elem_of_map_to_list].
    unfold up_tokens in Ht. injection Ht as H0 H1. cbn in Hf. by rewrite H0, H1, !Z.eqb_refl in Hf.
Qed.

(** One update keeps the index, and pools already known stay known. *)
Lemma pool_update_ok uni g updated u :
  pools_ok uni -> indexed uni g -> 1 <= blocks_to_avg_price g -> 0 <= tp_cur_block g < u_max 64 -> update_ok uni g u ->
  exists g' k, apply_pool_update uni (g, updated) u = Ok (g', updated ++ [k]) /\ indexed uni g' /\
    blocks_to_avg_price g' = blocks_to_avg_price g /\ tp_cur_block g' = tp_cur_block g /\
    base_gas_token g' = base_gas_token g /\ base_wei g' = base_wei g /\
    (forall x, is_Some (pair_to_pool g !! x) -> is_Some (pair_to_pool g' !! x)).
Proof.
  intros (Hpr & Hinj) (H1 & H2 & H3) Hn Hc (Hblk & Hu & Hk). unfold apply_pool_update.
  rewrite checked_u_Ok by lia. cbn [M_bind]. rewrite Hblk, Z.eqb_refl. cbn [negb]. unfold update_key.
  set (pr := (pwp_token0 u, pwp_token1 u)) in *.
  assert (Hloc : forall k, exists lp, (match uni !! k with Some pool => pool_price pool | None => Ok 0 end) = Ok lp /\
    0 <= lp <= MAX_PRICE /\ (is_Some (uni !! k) -> 0 < lp)).
  { intros k. destruct (uni !! k) as [p |] eqn:Ek; [| exists 0; split; [done | split; [by vm_compute | by intros []]]].
    destruct (Hpr k p Ek) as (r & -> & Hr). exists r. unfold price_ok in Hr. split; [done |]. lia. }
  destruct (pair_to_pool g !! pr) as [k |] eqn:Epr.
  - cbn [M_bind]. destruct (H2 pr k Epr) as [q Eq]. rewrite Eq. cbn [M_bind unwrap].
    destruct (Hloc k) as (lp & -> & Hlp & _). pose proof (H1 k q Eq) as Hq.
    assert (Hrep : exists u', replace_price_if_empty u (Ok lp) = Ok u' /\ 0 <= pwp_price_1_over_0 u' <= MAX_PRICE).
    { unfold replace_price_if_empty. destruct (pwp_price_1_over_0 u =? 0); cbn; eexists; split; [done | done | done | done]. }
    destruct Hrep as (u' & -> & Hu'). cbn [M_bind].
    set (q' := if pwp_price_1_over_0 u' =? 0 then q else q ++ [u']).
    assert (Hq' : queue_ok (blocks_to_avg_price g) (pop_if_extended g q')).
    { unfold q'. destruct (Z.eqb_spec (pwp_price_1_over_0 u') 0); [by rewrite (pop_keeps g _ q eq_refl Hn Hq) |].
      apply push_ok; [done | done | by right | split; lia]. }
    eexists _, k. split; [done |]. cbn. split_and!; try done.
    split_and!; cbn [with_prices prev_prices pair_to_pool blocks_to_avg_price].
    + intros k' q0. destruct (decide (k' = k)) as [-> | Hne]; [rewrite lookup_insert_eq; by intros [= <-] |].
      rewrite lookup_insert_ne by done. apply H1.
    + intros pr' k' Hp. destruct (decide (k' = k)) as [-> | Hne]; [rewrite lookup_insert_eq; by eexists |].
      rewrite lookup_insert_ne by done. by eapply H2.
    + intros k' p Hp Hs. apply H3; [done |]. destruct (decide (k' = k)) as [-> | Hne]; [by eexists |].
      by rewrite lookup_insert_ne in Hs.
  - destruct Hk as [[? ?] | Hk]; [done |]. destruct (find_pool uni _ _ Hk) as ([k p] & Hf & Hkp & Htok). cbn in Hkp, Htok.
    rewrite Hf. cbn [M_bind unwrap fst]. cbn [with_prices prev_prices]. rewrite lookup_insert_eq. cbn [M_bind unwrap].
    destruct (Hloc k) as (lp & -> & Hlp & Hpos). specialize (Hpos ltac:(by eexists)).
    assert (Hrep : exists u', replace_price_if_empty u (Ok lp) = Ok u' /\ price_ok (pwp_price_1_over_0 u')).
    { unfold replace_price_if_empty. destruct (Z.eqb_spec (pwp_price_1_over_0 u) 0); cbn; eexists; (split; [done |]);
        cbn; split; lia. }
    destruct Hrep as (u' & -> & Hu'). cbn [M_bind]. rewrite (proj2 (Z.eqb_neq _ 0)) by (unfold price_ok in Hu'; lia).
    set (g1 := with_prices g (<[k := []]> (prev_prices g)) (<[pr := k]> (pair_to_pool g))).
    pose proof (push_ok g1 (blocks_to_avg_price g) [] u' eq_refl Hn (or_introl eq_refl) Hu') as Hq'.
    eexists _, k. split; [done |]. cbn. split_and!; try done.
    2: { intros x Hx. destruct (decide (x = pr)) as [-> | Hne]; [rewrite lookup_insert_eq; by eexists |].
         by rewrite lookup_insert_ne. }
    split_and!; cbn [with_prices prev_prices pair_to_pool blocks_to_avg_price].
    + intros k' q0. destruct (decide (k' = k)) as [-> | Hne]; [rewrite lookup_insert_eq; by intros [= <-] |].
      rewrite !lookup_insert_ne by done. apply H1.
    + intros pr' k' Hp. destruct (decide (k' = k)) as [-> | Hne]; [rewrite lookup_insert_eq; by eexists |].
      rewrite !lookup_insert_ne by done. destruct (decide (pr' = pr)) as [-> | Hne'];
        [rewrite lookup_insert_eq in Hp; congruence |]. rewrite lookup_insert_ne in Hp by done. by eapply H2.
    + intros k' p' Hp Hs. destruct (decide (k' = k)) as [-> | Hne].
      * assert (p' = p) as -> by congruence. rewrite Htok. apply lookup_insert_eq.
      * rewrite !lookup_insert_ne in Hs by done. rewrite lookup_insert_ne; [by apply H3 |].
        intros Heq. apply Hne. eapply Hinj; [exact Hp | exact Hkp | by rewrite Htok, <- Heq].
Qed.

Lemma pool_updates_ok uni g updated us :
  pools_ok uni -> indexed uni g -> 1 <= blocks_to_avg_price g -> 0 <= tp_cur_block g < u_max 64 ->
  Forall (update_ok uni g) us ->
  exists g' updated', M_fold (apply_pool_update uni) (g, updated) us = Ok (g', updated') /\ indexed uni g' /\
    blocks_to_avg_price g' = blocks_to_avg_price g /\ tp_cur_block g' = tp_cur_block g /\
    base_gas_token g' = base_gas_token g /\ base_wei g' = base_wei g.
Proof.
  intros Hp. revert g updated. induction us as [| u us IH]; intros g updated Hi Hn Hc Hus.
  - by exists g, updated.
  - apply Forall_cons in Hus as [Hu Hus].
    destruct (pool_update_ok uni g updated u Hp Hi Hn Hc Hu) as (g1 & k & E1 & I1 & B1 & C1 & G1 & W1 & M1).
    destruct (IH g1 (updated ++ [k]) I1) as (g2 & up2 & E2 & I2 & B2 & C2 & G2 & W2); [by rewrite B1 | by rewrite C1 | |].
    + eapply Forall_impl; [exact Hus |]. intros x (H1 & H2 & H3). split; [by rewrite C1 |]. split; [done |].
      destruct H3 as [H3 | H3]; [left; by apply M1 | by right].
    + exists g2, up2. cbn [M_fold]. rewrite E1. cbn [M_bind]. split; [done |]. split; [done |].
      split_and!; congruence.
Qed.

Lemma fold_delete_lookup {V} ks (m : gmap Z V) k :
  fold_left (fun m k => delete k m) ks m !! k = if decide (k ∈ ks) then None else m !! k.
Proof.
  revert m. induction ks as [| x ks IH]; intros m; [done |]. cbn [fold_left]. rewrite IH.
  destruct (decide (k ∈ ks)) as [Hin | Hin]; [by rewrite decide_True by by apply list_elem_of_further |].
  destruct (decide (k = x)) as [-> | Hne].
  - rewrite decide_True by apply list_elem_of_here. apply lookup_delete_eq.
  - rewrite decide_False by (intros [-> | ?]%elem_of_cons; done). by apply lookup_delete_ne.
Qed.

Lemma fold_filter_lookup (ks : list PoolId) (m : gmap (Address * Address) PoolId) pr (k : PoolId) :
  fold_left (fun m k => filter (fun e : Address * Address * PoolId => e.2 <> k) m) ks m !! pr = Some k <-> m !! pr = Some k /\ k ∉ ks.
Proof.
  revert m. induction ks as [| x ks IH]; intros m; cbn [fold_left].
  - split; [intros ?; split; [done | apply not_elem_of_nil] | by intros []].
  - rewrite IH, map_lookup_filter_Some, not_elem_of_cons. naive_solver.
Qed.

(** Pools that appear get an entry. *)
Lemma add_missing_ok uni g l :
  pools_ok uni -> indexed uni g -> 1 <= blocks_to_avg_price g ->
  (forall e, e ∈ l -> uni !! e.1 = Some e.2) -> (forall k, is_Some (prev_prices g !! k) -> is_Some (uni !! k)) ->
  exists g', M_fold add_missing_pool g l = Ok g' /\ indexed uni g' /\
    blocks_to_avg_price g' = blocks_to_avg_price g /\ tp_cur_block g' = tp_cur_block g /\
    base_gas_token g' = base_gas_token g /\ base_wei g' = base_wei g /\
    (forall k, is_Some (prev_prices g' !! k) -> is_Some (uni !! k)) /\
    (forall k, is_Some (prev_prices g !! k) \/ k ∈ map fst l -> is_Some (prev_prices g' !! k)).
Proof.
  intros Hp. revert g. induction l as [| e l IH]; intros g Hi Hn Hl Hd.
  - exists g. split; [done |]. split_and!; try done. intros k [Hk | Hk]; [done | by apply not_elem_of_nil in Hk].
  - assert (He : uni !! e.1 = Some e.2) by (apply Hl, list_elem_of_here).
    destruct Hi as (H1 & H2 & H3).
    assert (Hstep : exists g1, add_missing_pool g e = Ok g1 /\ indexed uni g1 /\
      blocks_to_avg_price g1 = blocks_to_avg_price g /\ tp_cur_block g1 = tp_cur_block g /\
      base_gas_token g1 = base_gas_token g /\ base_wei g1 = base_wei g /\
      (forall k, is_Some (prev_prices g1 !! k) <-> is_Some (prev_prices g !! k) \/ k = e.1)).
    { unfold add_missing_pool. destruct (prev_prices g !! e.1) as [q |] eqn:Eq.
      { exists g. split; [done |]. split; [done |]. split_and!; try done. intros k. split; [by left |].
        intros [Hk | ->]; [done | by eexists]. }
      destruct (proj1 Hp _ _ He) as (r & -> & Hr). cbn [M_bind]. eexists. split; [done |]. split; [| split_and!; try done].
      - split_and!; cbn [with_prices prev_prices pair_to_pool blocks_to_avg_price].
        + intros k q. destruct (decide (k = e.1)) as [-> | Hne]; [| rewrite lookup_insert_ne by done; apply H1].
          rewrite lookup_insert_eq. intros [= <-]. split; [done |]. split; [cbn; lia | by apply Forall_singleton].
        + intros pr k Hk. destruct (decide (k = e.1)) as [-> | Hne]; [rewrite lookup_insert_eq; by eexists |].
          rewrite lookup_insert_ne by done. apply (H2 pr). destruct (decide (pr = up_tokens e.2)) as [-> | Hpr];
            [unfold up_tokens in Hk; rewrite lookup_insert_eq in Hk; congruence |].
          unfold up_tokens in Hpr. by rewrite lookup_insert_ne in Hk.
        + intros k p Hk Hs. change (up_token0 e.2, up_token1 e.2) with (up_tokens e.2).
          destruct (decide (k = e.1)) as [-> | Hne].
          * assert (p = e.2) as -> by congruence. apply lookup_insert_eq.
          * rewrite lookup_insert_ne in Hs by done. rewrite lookup_insert_ne; [by apply H3 |].
            intros Heq. apply Hne. by eapply (proj2 Hp).
      - intros k. cbn. destruct (decide (k = e.1)) as [-> | Hne]; [rewrite lookup_insert_eq; naive_solver |].
        rewrite lookup_insert_ne by done. naive_solver. }
    destruct Hstep as (g1 & E1 & I1 & B1 & C1 & G1 & W1 & D1).
    destruct (IH g1 I1) as (g2 & E2 & I2 & B2 & C2 & G2 & W2 & D2 & D3); [by rewrite B1 | | |].
    + intros x Hx. apply Hl. by apply list_elem_of_further.
    + intros k [Hk | ->]%D1; [by apply Hd | by rewrite He].
    + exists g2. cbn [M_fold]. rewrite E1. cbn [M_bind]. split; [done |]. split; [done |].
      split_and!; try congruence; [done |]. intros k [Hk | Hk]; apply D3; [left; apply D1; by left |].
      cbn [map] in Hk. apply elem_of_cons in Hk as [-> | Hk]; [left; apply D1; by right | by right].
Qed.

Lemma apply_update_ok uni uni' g wei us :
  pricing_inv uni g -> pools_ok uni' ->
  (forall k p p', uni !! k = Some p -> uni' !! k = Some p' -> up_tokens p = up_tokens p') ->
  0 <= tp_cur_block g < u_max 64 -> Forall (update_ok uni' g) us ->
  exists g', apply_update g uni' wei us = Ok g' /\ pricing_inv uni' g' /\ tp_cur_block g' = tp_cur_block g + 1 /\
    base_gas_token g' = base_gas_token g /\ base_wei g' = wei /\ blocks_to_avg_price g' = blocks_to_avg_price g.
Proof.
  intros (Hn & (H1 & H2 & H3) & Hd) Hp Hsame Hc Hus. unfold apply_update.
  set (g0 := mkTokenPriceGenerator (prev_prices g) (pair_to_pool g) (base_gas_token g) (tp_cur_block g)
    (blocks_to_avg_price g) wei).
  assert (I0 : indexed uni' g0).
  { split_and!; [done | done |]. intros k p' Hk Hs. destruct (proj1 (Hd k) Hs) as [p Hk0].
    rewrite <- (Hsame k p p' Hk0 Hk). by apply H3. }
  destruct (pool_updates_ok uni' g0 [] us Hp I0 ltac:(cbn; lia) Hc Hus) as (g1 & up & E1 & I1 & B1 & C1 & G1 & W1).
  rewrite E1. cbn [M_bind]. rewrite checked_u_Ok by (rewrite C1; cbn; lia). cbn [M_bind].
  destruct I1 as (J1 & J2 & J3).
  set (g2 := mkTokenPriceGenerator (prev_prices g1) (pair_to_pool g1) (base_gas_token g1) (tp_cur_block g1 + 1)
    (blocks_to_avg_price g1) (base_wei g1)).
  set (prices := map_imap (fun k q => Some (if decide (k ∈ up) then q else repeat_price g2 q)) (prev_prices g2)).
  set (rm := List.filter (fun k => negb (bool_decide (is_Some (uni' !! k)))) (map fst (map_to_list prices))).
  assert (Hrm : forall k, k ∈ rm <-> is_Some (prices !! k) /\ uni' !! k = None).
  { intros k. unfold rm. rewrite list_filter_in, negb_true_iff, bool_decide_eq_false, <- eq_None_not_Some.
    change (map fst (map_to_list prices)) with ((map_to_list prices).*1). split; intros [Ha Hb]; (split; [| done]).
    - apply list_elem_of_fmap in Ha as ([k' q] & -> & Hq). apply elem_of_map_to_list in Hq. by eexists.
    - destruct Ha as [q Hq]. apply list_elem_of_fmap. exists (k, q). split; [done |]. by apply elem_of_map_to_list. }
  assert (Hdom : forall k, is_Some (prices !! k) <-> is_Some (prev_prices g1 !! k)).
  { intros k. unfold prices. rewrite map_lookup_imap. cbn. destruct (prev_prices g1 !! k); cbn; split; intros []; by eexists. }
  set (g3 := with_prices g2 (fold_left (fun m k => delete k m) rm prices)
    (fold_left (fun m k => filter (fun e => e.2 <> k) m) rm (pair_to_pool g2))).
  assert (I3 : indexed uni' g3).
  { split_and!; cbn [g3 with_prices prev_prices pair_to_pool blocks_to_avg_price].
    - intros k q. rewrite fold_delete_lookup. case_decide; [done |]. unfold prices. rewrite map_lookup_imap. cbn.
      destruct (prev_prices g1 !! k) as [q0 |] eqn:Eq; [| done]. cbn. intros [= <-]. pose proof (J1 k q0 Eq) as Hq.
      case_decide; [done |]. apply repeat_ok; [done | rewrite B1; cbn; lia | done].
    - intros pr k [Hk Hni]%fold_filter_lookup. rewrite fold_delete_lookup, decide_False by done.
      apply Hdom. by eapply J2.
    - intros k p Hk Hs. apply fold_filter_lookup. rewrite fold_delete_lookup in Hs. case_decide; [by destruct Hs |].
      split; [| done]. apply J3; [done |]. by apply Hdom. }
  destruct (add_missing_ok uni' g3 (map_to_list uni') Hp I3) as (g4 & E4 & I4 & B4 & C4 & G4 & W4 & D4 & D5).
  - cbn. rewrite B1. cbn. lia.
  - intros [k p] Hin. by apply elem_of_map_to_list in Hin.
  - intros k Hs. cbn in Hs. rewrite fold_delete_lookup in Hs. case_decide as Hin; [by destruct Hs |].
    destruct (uni' !! k) eqn:Ek; [by eexists |]. exfalso. apply Hin. by apply Hrm.
  - exists g4. split; [exact E4 |]. split; [| cbn in *; split_and!; congruence].
    split; [rewrite B4; cbn; rewrite B1; done |]. split; [done |]. intros k. split; [apply D4 |].
    intros [p Hk]. apply D5. right. apply list_elem_of_fmap. exists (k, p). split; [done |]. by apply elem_of_map_to_list.
Qed.

End PricingLemmas.

(** *** Averages *)

Lemma ray_sum_exact l : Forall (fun x => 0 <= x) l -> sumZ l <= u_max 256 -> ray_sum l = sumZ l.
Proof.
  intros Hl Hm. unfold ray_sum.
  assert (Hg : forall acc, 0 <= acc -> acc + sumZ l <= u_max 256 ->
    fold_left (fun acc r => uint_add 256 acc r) l acc = acc + sumZ l); [| by rewrite Hg by lia].
  clear Hm. induction Hl as [| x l Hx Hl IH]; intros acc Ha Hs; cbn [fold_left sumZ] in *; [cbn in *; lia |].
  change (sumZ (x :: l)) with (x + sumZ l) in *. pose proof (sumZ_nonneg l Hl).
  assert (Hw : uint_add 256 acc x = acc + x).
  { unfold uint_add, wrap_u. apply Z.mod_small. unfold u_max in Hs. lia. }
  rewrite Hw, IH by lia. lia.
Qed.

Lemma sum_spread l : l <> [] -> exists lo hi, lo ∈ l /\ hi ∈ l /\
  lo * Z.of_nat (length l) <= sumZ l <= hi * Z.of_nat (length l).
Proof.
  induction l as [| x l IH]; [done |]. intros _. destruct l as [| y l].
  - exists x, x. split; [apply list_elem_of_here |]. split; [apply list_elem_of_here |]. cbn. lia.
  - destruct IH as (lo & hi & Hlo & Hhi & H); [done |].
    change (sumZ (x :: y :: l)) with (x + sumZ (y :: l)). change (length (x :: y :: l)) with (S (length (y :: l))).
    rewrite Nat2Z.inj_succ. assert (0 < Z.of_nat (length (y :: l))) by (cbn; lia).
    exists (Z.min x lo), (Z.max x hi). split_and!; [| | nia | nia].
    + destruct (Z.min_spec x lo) as [[_ ->] | [_ ->]]; [apply list_elem_of_here | by apply list_elem_of_further].
    + destruct (Z.max_spec x hi) as [[_ ->] | [_ ->]]; [by apply list_elem_of_further | apply list_elem_of_here].
Qed.

Lemma avg_ok n q :
  1 <= n <= 2 ^ 16 -> queue_ok n q ->
  exists x lo hi, avg_price (fun x => Ok x) q = Ok x /\ lo ∈ map pwp_price_1_over_0 q /\ hi ∈ map pwp_price_1_over_0 q /\
    lo <= x <= hi.
Proof.
  intros Hn (Hne & Hl & Hf). set (l := map pwp_price_1_over_0 q).
  assert (Hlen : length l = length q) by apply length_map.
  assert (Hp : Forall (fun x => 0 <= x <= MAX_PRICE) l).
  { unfold l. apply Forall_map. eapply Forall_impl; [exact Hf |]. unfold price_ok. cbn. lia. }
  assert (Hpos : 0 < Z.of_nat (length q)) by (destruct q; [done | cbn; lia]).
  assert (Hs : sumZ l <= MAX_PRICE * Z.of_nat (length l)).
  { clear -Hp. induction Hp as [| x l Hx Hp IH]; [cbn; lia |]. change (sumZ (x :: l)) with (x + sumZ l).
    cbn [length]. lia. }
  assert (Hbig : MAX_PRICE * 2 ^ 16 <= u_max 256) by (vm_compute; discriminate).
  destruct (sum_spread l) as (lo & hi & Hlo & Hhi & H1 & H2); [by destruct q |]. rewrite Hlen in *.
  exists (sumZ l / Z.of_nat (length q)), lo, hi. split; [| split_and!; [done | done | |]].
  - unfold avg_price. rewrite (M_map_Ok _ pwp_price_1_over_0) by (apply Forall_forall; done). cbn [M_bind].
    unfold ray_div. rewrite (proj2 (Z.eqb_neq _ 0)) by lia. fold l. rewrite ray_sum_exact; [done | |].
    + eapply Forall_impl; [exact Hp |]. cbn. lia.
    + assert (0 <= MAX_PRICE) by (vm_compute; discriminate). nia.
  - apply Z.div_le_lower_bound; lia.
  - apply Z.div_le_upper_bound; lia.
Qed.

Lemma mul_wad_ok r wei :
  0 <= r <= MAX_PRICE -> 0 <= wei <= 2 ^ 80 -> Ray.mul_wad r wei 18 = Ok (r * wei / 10 ^ 18).
Proof.
  intros Hr Hw. unfold Ray.mul_wad. rewrite div_round_Ok by lia. cbn [M_bind]. unfold div_floor.
  apply uint_from_Ok. split; [done |]. unfold MAX_PRICE in Hr. split; [apply Z.div_pos; nia |].
  unfold u_max. enough (r * wei / 10 ^ 18 < 2 ^ 256) by lia. apply Z.div_lt_upper_bound; [lia |].
  assert (r * wei <= 2 ^ 224 * 2 ^ 80) by nia. assert (2 ^ 224 * 2 ^ 80 < 10 ^ 18 * 2 ^ 256) by (vm_compute; reflexivity). lia.
Qed.

(** The price of the gas token in itself. *)
Lemma gas_token_price g token_1 :
  0 <= gas_wei g <= 2 ^ 80 ->
  get_eth_conversion_price g (base_gas_token g) token_1 = Ok (Some (const_1e27 * gas_wei g / 10 ^ 18)).
Proof.
  intros Hg. unfold get_eth_conversion_price, raw_conversion_price. rewrite Z.eqb_refl.
  change (Ray.scale_to_ray 1) with (Ok const_1e27). cbn [M_bind].
  rewrite mul_wad_ok; [done | split; by vm_compute | done].
Qed.

Lemma scale_to_ray_one : Ray.scale_to_ray 1 = Ok const_1e27.
Proof. vm_compute. reflexivity. Qed.

Lemma saturate_u_id w a : 0 <= a <= u_max w -> saturate_u w a = a.
Proof. unfold saturate_u. lia. Qed.

(** What an estimate that is given was computed from. *)
Lemma estimate_inv (g : TokenPriceGenerator) (is_book is_internal : bool) (t0 t1 c gas : Z) :
  gas = (if is_book then (if is_internal then BOOK_GAS_INTERNAL else BOOK_GAS)
         else (if is_internal then TOB_GAS_INTERNAL else TOB_GAS)) ->
  gas_estimation g is_book is_internal t0 t1 = Ok c ->
  exists r f, raw_conversion_price g (Z.min t0 t1) (Z.max t0 t1) = Ok (Some r) /\
    f = r * gas_wei g / 10 ^ 18 /\ f <> 0 /\ c = saturate_u 128 (gas * const_1e27 / f).
Proof.
  intros Hgas. unfold gas_estimation. rewrite <- Hgas.
  replace (if t1 <? t0 then (t1, t0) else (t0, t1)) with (Z.min t0 t1, Z.max t0 t1)
    by (destruct (Z.ltb_spec t1 t0); f_equal; lia).
  unfold get_eth_conversion_price. destruct (raw_conversion_price g _ _) as [[r |] | |]; cbn [M_bind ok_or]; try done.
  unfold Ray.mul_wad. rewrite div_round_Ok by lia. cbn [M_bind]. unfold div_floor.
  destruct (uint_from 256 _) as [f | |] eqn:Ef; cbn [M_bind ok_or]; try done. apply uint_from_Ok in Ef as [-> _].
  unfold Ray.inverse_quantity, div_round, rounding. destruct (Z.eqb_spec (r * gas_wei g / 10 ^ 18) 0); cbn [M_bind]; [done |].
  intros [= <-]. by exists r, (r * gas_wei g / 10 ^ 18).
Qed.

Lemma from_bundle_block block_num b us :
  from_angstrom_bundle block_num b = Ok us -> Forall (fun u => pwp_block_num u = block_num) us.
Proof.
  unfold from_angstrom_bundle. intros H. apply Forall_forall. intros u Hu.
  destruct (M_map_elem _ _ _ _ H Hu) as (x & _ & Hx). revert Hx.
  destruct (index _ (index0 x)); cbn [M_bind]; [| done..]. destruct (index _ (index1 x)); cbn [M_bind]; [| done..].
  by intros [= <-].
Qed.

(** ** Properties *)

(** C28: Prices stay available from block to block.  For an update of exactly the next
    block, with prices of known or synchronized pools up to the largest price, and
    whatever pools appear or disappear, the update does not panic (a skipped block and an
    unknown pool do), every synchronized pool keeps a history of at least one and at most
    the configured number of prices, and a pool with the gas token has a conversion price:
    the gas price itself when the gas token is its first token, and a price between the
    lowest and the highest of its history, scaled by the gas price, when it is the second. *)
Theorem prices_available {P : Profile} (uni uni' : UniPools) g wei us :
  pricing_inv uni g -> pools_ok uni' ->
  (forall k p p', uni !! k = Some p -> uni' !! k = Some p' -> up_tokens p = up_tokens p') ->
  0 <= tp_cur_block g < u_max 64 -> Forall (update_ok uni' g) us -> 0 <= wei <= 2 ^ 80 ->
  exists g', apply_update g uni' wei us = Ok g' /\ pricing_inv uni' g' /\ tp_cur_block g' = tp_cur_block g + 1 /\
    (forall token_1, get_eth_conversion_price g' (base_gas_token g) token_1
       = Ok (Some (const_1e27 * gas_wei g' / 10 ^ 18))) /\
    forall k p, uni' !! k = Some p -> up_token0 p <> base_gas_token g -> up_token1 p = base_gas_token g ->
      exists q lo hi x, prev_prices g' !! k = Some q /\
        lo ∈ map pwp_price_1_over_0 q /\ hi ∈ map pwp_price_1_over_0 q /\
        get_eth_conversion_price g' (up_token0 p) (up_token1 p) = Ok (Some x) /\
        lo * gas_wei g' / 10 ^ 18 <= x <= hi * gas_wei g' / 10 ^ 18.
Proof.
  intros Hinv Hp Hsame Hc Hus Hw.
  destruct (apply_update_ok uni uni' g wei us Hinv Hp Hsame Hc Hus) as (g' & E & Hinv' & Hc' & Hg & Hwei & Hb).
  exists g'. split; [done |]. split; [done |]. split; [done |].
  assert (Hgw : 0 <= gas_wei g' <= 2 ^ 80) by (unfold gas_wei; rewrite Hwei; destruct (wei =? 0); lia).
  split; [intros token_1; rewrite <- Hg; by apply gas_token_price |]. intros k p Hk H0 H1.
  destruct Hinv' as (Hn & (J1 & J2 & J3) & Hd). destruct (proj2 (Hd k)) as [q Hq]; [by eexists |].
  pose proof (J1 k q Hq) as Hqok. destruct (avg_ok _ q Hn Hqok) as (x & lo & hi & Ha & Hlo & Hhi & Hx).
  assert (Hbound : forall y, y ∈ map pwp_price_1_over_0 q -> price_ok y).
  { intros y (pp & -> & Hin)%list_elem_of_fmap. destruct Hqok as (_ & _ & Hf). by apply (proj1 (Forall_forall _ _) Hf). }
  pose proof (Hbound lo Hlo) as [Hlo0 _]. pose proof (Hbound hi Hhi) as [_ Hhi1].
  exists q, lo, hi, (x * gas_wei g' / 10 ^ 18). split; [done |]. split; [done |]. split; [done |]. split.
  - unfold get_eth_conversion_price, raw_conversion_price. rewrite Hg, (proj2 (Z.eqb_neq _ _)) by done.
    rewrite H1, Z.eqb_refl, <- H1. change (up_token0 p, up_token1 p) with (up_tokens p).
    rewrite (J3 k p Hk) by (by eexists). rewrite Hq, Ha. cbn [M_bind]. by rewrite mul_wad_ok by lia.
  - split; apply Z.div_le_mono; nia.
Qed.

(** An order is charged less when gas is more expensive.  The charge is the gas units
    divided by a price that contains the gas price as a factor: for the same prices a
    higher gas price never raises the charge, and for a pair whose first token is the gas
    token the charge is the gas units times 10^18 divided by the gas price. *)
Theorem gas_charge_falls g wei wei' is_book is_internal t0 t1 c c' :
  let at_wei w := mkTokenPriceGenerator (prev_prices g) (pair_to_pool g) (base_gas_token g) (tp_cur_block g)
                    (blocks_to_avg_price g) w in
  0 < wei -> wei <= wei' <= 2 ^ 80 ->
  gas_estimation (at_wei wei) is_book is_internal t0 t1 = Ok c ->
  gas_estimation (at_wei wei') is_book is_internal t0 t1 = Ok c' ->
  (forall r, raw_conversion_price g (Z.min t0 t1) (Z.max t0 t1) = Ok (Some r) -> 0 <= r) ->
  c' <= c /\
  (Z.min t0 t1 = base_gas_token g ->
   c = (if is_book then (if is_internal then BOOK_GAS_INTERNAL else BOOK_GAS)
        else (if is_internal then TOB_GAS_INTERNAL else TOB_GAS)) * 10 ^ 18 / wei).
Proof.
  intros at_wei H0 Hw Hc Hc' Hr. set (gas := if is_book then _ else _).
  assert (Hg : 0 <= gas <= 160000) by (unfold gas; destruct is_book, is_internal; by vm_compute).
  apply (estimate_inv _ _ _ _ _ _ gas eq_refl) in Hc as (r & f & Er & Ef & Hf & ->).
  apply (estimate_inv _ _ _ _ _ _ gas eq_refl) in Hc' as (r' & f' & Er' & Ef' & Hf' & ->).
  change (raw_conversion_price (at_wei wei)) with (raw_conversion_price g) in Er.
  change (raw_conversion_price (at_wei wei')) with (raw_conversion_price g) in Er'.
  rewrite Er in Er'. injection Er' as <-. pose proof (Hr r Er) as Hr0.
  replace (gas_wei (at_wei wei)) with wei in Ef by (unfold gas_wei; cbn; by rewrite (proj2 (Z.eqb_neq _ _)) by lia).
  replace (gas_wei (at_wei wei')) with wei' in Ef' by (unfold gas_wei; cbn; by rewrite (proj2 (Z.eqb_neq _ _)) by lia).
  split.
  - assert (f <= f') by (subst f f'; apply Z.div_le_mono; nia).
    assert (0 <= f) by (subst f; apply Z.div_pos; nia).
    apply saturate_u_mono. apply Z.div_le_compat_l; [pose proof const_1e27_pos; nia | lia].
  - intros Hb. unfold raw_conversion_price in Er. rewrite Hb, Z.eqb_refl in Er.
    rewrite scale_to_ray_one in Er. injection Er as <-.
    assert (f = wei * 10 ^ 9) as -> by (subst f; change const_1e27 with (10 ^ 9 * 10 ^ 18);
      rewrite <- Z.mul_assoc, (Z.mul_comm (10 ^ 18)), Z.mul_assoc, Z.div_mul by lia; lia).
    change const_1e27 with (10 ^ 18 * 10 ^ 9). rewrite Z.mul_assoc, Z.div_mul_cancel_r by lia.
    apply saturate_u_id. split; [apply Z.div_pos; lia |].
    transitivity (gas * 10 ^ 18); [apply Z.div_le_upper_bound; nia | unfold u_max; nia].
Qed.

(** A notification that does not end one block after the last one stops the task.
    When the tip of the announced chain holds a bundle with a pair and is not the block
    after the current one (a reorganization to a tip of the same height, or several
    blocks announced at once), applying its prices panics. *)
Theorem skipped_block_stops_pricing {P : Profile} `{ChainDecoders} angstrom n tip us g uni wei :
  price_updates_of angstrom n = Ok us -> us <> [] -> notification_tip n = Ok tip ->
  0 <= tp_cur_block g < u_max 64 -> blk_number tip <> tp_cur_block g + 1 ->
  apply_update g uni wei us = Panic.
Proof.
  intros Hu Hne Ht Hc Hb. unfold price_updates_of in Hu. rewrite Ht in Hu. cbn [M_bind] in Hu.
  destruct (first_bundle _) as [[b |] | |]; cbn [M_bind] in Hu; try done; [| by injection Hu as <-].
  apply from_bundle_block in Hu. destruct Hu as [| u us Hu _]; [done |].
  unfold apply_update. cbn [M_fold apply_pool_update tp_cur_block]. rewrite checked_u_Ok by lia. cbn [M_bind].
  by rewrite Hu, (proj2 (Z.eqb_neq _ _)).
Qed.

(** One pool of token 1 against the gas token 5, with two prices, and an update without a
    price; a second pool appears in the block. *)
Definition wit_pools : UniPools := {[ 7 := mkUniPool 1 5 (2 ^ 96) ]}.
Definition wit_pools' : UniPools := <[9 := mkUniPool 5 6 (2 ^ 96)]> wit_pools.
Definition wit_pricing : TokenPriceGenerator :=
  mkTokenPriceGenerator {[ 7 := [mkPairsWithPrice 1 5 (2 * 10 ^ 27) 99; mkPairsWithPrice 1 5 (3 * 10 ^ 27) 100] ]}
    {[ (1, 5) := 7 ]} 5 100 2 (10 ^ 9).
Definition wit_price_update : PairsWithPrice := mkPairsWithPrice 1 5 0 101.

Lemma wit_pools_cases k p : wit_pools !! k = Some p -> k = 7 /\ p = mkUniPool 1 5 (2 ^ 96).
Proof. unfold wit_pools. intros [<- <-]%lookup_singleton_Some. done. Qed.

Lemma wit_pools'_cases k p : wit_pools' !! k = Some p ->
  (k = 9 /\ p = mkUniPool 5 6 (2 ^ 96)) \/ (k = 7 /\ p = mkUniPool 1 5 (2 ^ 96)).
Proof.
  unfold wit_pools'. intros [[<- <-] | [_ Hk]]%lookup_insert_Some; [by left | right]. by apply wit_pools_cases.
Qed.

Lemma prices_available_witness :
  (apply_update (P := dev) wit_pricing wit_pools' (2 * 10 ^ 9) [wit_price_update] = Panic -> False) /\
  exists g', apply_update (P := dev) wit_pricing wit_pools' (2 * 10 ^ 9) [wit_price_update] = Ok g' /\
    pricing_inv wit_pools' g' /\ get_eth_conversion_price g' 1 5 = Ok (Some (4 * 10 ^ 18)).
Proof.
  assert (Hp : pools_ok wit_pools').
  { split.
    - intros k p [[-> ->] | [-> ->]]%wit_pools'_cases; (exists const_1e27; split; [by vm_compute | split; vm_compute; done]).
    - intros k k' p p' [[-> ->] | [-> ->]]%wit_pools'_cases [[-> ->] | [-> ->]]%wit_pools'_cases; done. }
  destruct (prices_available (P := dev) wit_pools wit_pools' wit_pricing (2 * 10 ^ 9) [wit_price_update])
    as (g' & E & Hinv & _ & _).
  - split; [vm_compute; split; discriminate |]. split; [split_and! |]; cbn [prev_prices pair_to_pool blocks_to_avg_price wit_pricing].
    + intros k q [<- <-]%lookup_singleton_Some. split; [done |]. split; [by vm_compute |].
      repeat constructor; vm_compute; done.
    + intros pr k [<- <-]%lookup_singleton_Some. by eexists.
    + intros k p [-> ->]%wit_pools_cases _. reflexivity.
    + intros k. split; intros [x Hx]; [apply lookup_singleton_Some in Hx as [<- _] | apply wit_pools_cases in Hx as [-> _]];
        by eexists.
  - exact Hp.
  - intros k p p' [-> ->]%wit_pools_cases Hk. by apply wit_pools'_cases in Hk as [[? _] | [_ ->]].
  - by vm_compute.
  - apply Forall_singleton. split; [done |]. split; [by vm_compute |]. left. by eexists.
  - by vm_compute.
  - split; [rewrite E; discriminate |]. exists g'. split; [exact E |]. split; [exact Hinv |].
    pose proof E as E'. vm_compute in E'. injection E' as <-. vm_compute. reflexivity.
Defined.

(** At 1 gwei a book order is charged 50000 * 10^9 of the gas token, at 2 gwei half of it. *)
Lemma gas_charge_falls_witness :
  let g := mkTokenPriceGenerator ∅ ∅ 5 100 2 (10 ^ 9) in
  let g' := mkTokenPriceGenerator ∅ ∅ 5 100 2 (2 * 10 ^ 9) in
  gas_estimation g true false 5 6 = Ok (50000 * 10 ^ 9) /\
  gas_estimation g' true false 5 6 = Ok (25000 * 10 ^ 9) /\ 25000 * 10 ^ 9 <= 50000 * 10 ^ 9.
Proof.
  intros g g'. split; [vm_compute; reflexivity |]. split; [vm_compute; reflexivity |].
  destruct (gas_charge_falls g (10 ^ 9) (2 * 10 ^ 9) true false 5 6 (50000 * 10 ^ 9) (25000 * 10 ^ 9))
    as [H _]; [vm_compute; reflexivity | vm_compute; split; discriminate | vm_compute; reflexivity | vm_compute; reflexivity
    | | exact H].
  intros r Hr. vm_compute in Hr. injection Hr as <-. vm_compute. discriminate.
Defined.

(** Calldata is the bundle's own number; the only bundle settles the pair (1, 5). *)
Definition pricing_decoders : ChainDecoders := {|
  decode_node_removed _ := None; decode_node_added _ := None; decode_pool_removed _ := None;
  decode_pool_configured _ := None; decode_transfer _ := None; decode_approval _ := None;
  execute_call_decode b := Some b;
  bundle_decode _ := Some (mkAngstromBundle [mkAsset 1 0 0 0; mkAsset 5 0 0 0] [mkPair 0 1 0 (10 ^ 27)] [] [] []);
|}.

(** The block 100 is reorganized to another block 100. *)
Lemma skipped_block_stops_pricing_witness :
  let n := Reorg [mkBlock 100 1 [] []] [mkBlock 100 2 [mkTransaction (Some 77) []] []] in
  exists us, price_updates_of (H := pricing_decoders) 77 n = Ok us /\
    apply_update (P := release) wit_pricing wit_pools (10 ^ 9) us = Panic.
Proof.
  intros n. eexists. split; [vm_compute; reflexivity |].
  apply (skipped_block_stops_pricing (P := release) (H := pricing_decoders) 77 n (mkBlock 100 2 [mkTransaction (Some 77) []] []));
    [vm_compute; reflexivity | discriminate | reflexivity | by vm_compute | by vm_compute].
Defined.
