(* ===== verification/Validation.v ===== *)
(** * Order validation

    crates/validation/src: the front end of order validation.  The order validators
    (order/state/order_validators), the pool tracker (order/state/pools), the state
    validation (order/state/mod.rs), the gas check (order/mod.rs), the order validator
    (order/order_validator.rs), the request loop (validator.rs) and the thread pool that
    runs the validations of a user (common/key_split_threadpool.rs).

    A validation is one task.  The two maps of the account state are locked for one access
    at a time, so the tasks interleave at every access: [access] is one access of
    [Accounts.verify_order], by the stage a task has reached ([Stage]), and the task pool
    is a step relation over accesses.  [try_fetch_live_pending_state] and
    [fetch_all_invalidated_orders] hold the lock of the known balances while they read the
    pending actions, so each is one access. *)

From S2P Require Import Prelude Uniswap Ray Orders PoolSwap Book Accounts OrderTracker.
From S2P Require Import Assets BundleOrders Bundle Chain PoolStore EthManager TokenPricing.
Import Accounts.

(** ** Order validators *)

Inductive OrderValidatorKind := EnsureAmountSet | EnsureMaxGasLessThanMinAmount | EnsurePriceSet | EnsureGasSet.

Definition ORDER_VALIDATORS : list OrderValidatorKind :=
  [EnsureAmountSet; EnsureGasSet; EnsurePriceSet; EnsureMaxGasLessThanMinAmount].

Section Validators.
Context {U : UniswapMath} {C : OrderCrypto} {O : Type} `{!RawPoolOrder O}.

(** [OrderValidationState]: the order and its least quantity, computed once. *)
Record OrderValidationState := mkOrderValidationState {
  vs_order : O;
  vs_min_qty : option Z;
}.

Definition OrderValidationState_new (o : O) : OrderValidationState := mkOrderValidationState o None.

Definition min_qty_in_t0 (s : OrderValidationState) : M (Z * OrderValidationState) :=
  match vs_min_qty s with
  | Some q => Ok (q, s)
  | None =>
      let* q := min_qty_t0 (vs_order s) in
      let* q := unwrap q in
      Ok (q, mkOrderValidationState (vs_order s) (Some q))
  end.

Definition ensure_amount_set (s : OrderValidationState) : M (option OrderValidationError * OrderValidationState) :=
  Ok (if min_amount (vs_order s) =? 0 then Some NoAmountSpecified else None, s).

Definition ensure_gas_set (s : OrderValidationState) : M (option OrderValidationError * OrderValidationState) :=
  Ok (if max_gas_token_0 (vs_order s) =? 0 then Some NoGasSpecified else None, s).

Definition ensure_price_set (s : OrderValidationState) : M (option OrderValidationError * OrderValidationState) :=
  let* p := limit_price (vs_order s) in
  if p =? 0 then Ok (Some NoPriceSpecified, s) else
  let* within := Ray.within_sqrt_price_bounds p in
  Ok (if negb within then Some PriceOutOfPoolBounds else None, s).

Definition ensure_max_gas_lt_min (s : OrderValidationState) : M (option OrderValidationError * OrderValidationState) :=
  let* (q, s) := min_qty_in_t0 s in
  Ok (if q <? max_gas_token_0 (vs_order s) then Some MaxGasGreaterThanMinAmount else None, s).

Definition run_validator (v : OrderValidatorKind) (s : OrderValidationState) :
    M (option OrderValidationError * OrderValidationState) :=
  match v with
  | EnsureAmountSet => ensure_amount_set s
  | EnsureMaxGasLessThanMinAmount => ensure_max_gas_lt_min s
  | EnsureGasSet => ensure_gas_set s
  | EnsurePriceSet => ensure_price_set s
  end.

Fixpoint run_validators (vs : list OrderValidatorKind) (s : OrderValidationState) : M (option OrderValidationError) :=
  match vs with
  | [] => Ok None
  | v :: vs =>
      let* (e, s) := run_validator v s in
      match e with Some e => Ok (Some e) | None => run_validators vs s end
  end.

(** [StateValidation::validate]. *)
Definition validate (o : O) : M (option OrderValidationError) :=
  run_validators ORDER_VALIDATORS (OrderValidationState_new o).

End Validators.
Arguments OrderValidationState : clear implicits.

(** ** Pools *)

Record AngstromPoolsTracker := mkAngstromPoolsTracker {
  apt_angstrom_address : Address;
  apt_pool_store : AngstromPoolConfigStore;
}.

Section Pools.
Context {C : OrderCrypto}.

(** [PoolId::from(PoolKey)]: the hash of currencies, fee, tick spacing and hooks. *)
Definition pool_key_id (currency0 currency1 fee tick_spacing hooks : Z) : PoolId :=
  keccak256 (be_bytes 32 currency0 ++ be_bytes 32 currency1 ++ be_bytes 32 fee ++ be_bytes 32 tick_spacing ++
             be_bytes 32 hooks).

Definition get_poolid (t : AngstromPoolsTracker) (addr1 addr2 : Address) : option PoolId :=
  store ← get_entry (apt_pool_store t) addr1 addr2;
  let (addr1, addr2) := if addr2 <? addr1 then (addr2, addr1) else (addr1, addr2) in
  Some (pool_key_id addr1 addr2 (ce_fee_in_e6 store) (ce_tick_spacing store) (apt_angstrom_address t)).

Definition order_info (t : AngstromPoolsTracker) (currency_in currency_out : Address) : option (bool * PoolId) :=
  let is_bid := currency_out <? currency_in in
  let (currency_in, currency_out) :=
    if currency_out <? currency_in then (currency_out, currency_in) else (currency_in, currency_out) in
  key ← get_poolid t currency_in currency_out;
  Some (is_bid, key).

Definition fetch_pool_info_for_order {O} `{!RawPoolOrder O} (t : AngstromPoolsTracker) (o : O) : option UserOrderPoolInfo :=
  i ← order_info t (token_in o) (token_out o);
  Some (mkUserOrderPoolInfo (token_in o) i.1 i.2).

End Pools.

(** ** Rewards of a top-of-block order (uniswap-v4/src/uniswap/pool_manager.rs) *)

Definition ATTEMPTS : nat := 5.

Section Validation.
Context {P : Profile} {U : UniswapMath} {C : OrderCrypto} {F : StateFetchUtils}.
Context `{!RawPoolOrder TopOfBlockOrder, !RawPoolOrder AllOrders}.

(** [snapshots] are the pool as it is read at each attempt: more ticks are loaded between
    them. *)
Fixpoint reward_attempts (cnt : nat) (snapshots : list BaselinePoolState) (tob : OrderWithStorageData TopOfBlockOrder) : M Z :=
  match snapshots with
  | [] => Panic
  | snapshot :: rest =>
      match calc_vec_and_reward tob snapshot with
      | Ok (_, r) => Ok r
      | Panic => Panic
      | Err e => match cnt with 0%nat | 1%nat => Err e | S cnt => reward_attempts cnt rest tob end
      end
  end.

Definition calculate_rewards (snapshots : list BaselinePoolState) (tob : OrderWithStorageData TopOfBlockOrder) : M Z :=
  reward_attempts ATTEMPTS snapshots tob.

(** ** State validation *)

Record StateValidation := mkStateValidation {
  user_account_tracker : UserAccounts;
  pool_tacker : AngstromPoolsTracker;
}.

Definition with_accounts (s : StateValidation) (a : UserAccounts) : StateValidation := mkStateValidation a (pool_tacker s).

Definition sv_new_block (s : StateValidation) (completed_orders : list B256) (address_changes : list Address) : StateValidation :=
  with_accounts s (prepare_for_new_block (user_account_tracker s) address_changes completed_orders).

Definition sv_cancel_order (s : StateValidation) (user : Address) (hash : B256) : StateValidation :=
  with_accounts s (processor_cancel_order (user_account_tracker s) user hash).

(** The checks before the account state: the pool of the order, or why it is refused. *)
Definition check_static {O} `{!RawPoolOrder O} (t : AngstromPoolsTracker) (o : O) :
    M (OrderValidationError + UserOrderPoolInfo) :=
  if negb (is_valid_signature o) then Ok (inl InvalidSignature) else
  let* e := validate o in
  match e with
  | Some e => Ok (inl e)
  | None => match fetch_pool_info_for_order t o with None => Ok (inl InvalidPool) | Some pi => Ok (inr pi) end
  end.

Definition handle_regular_order {O} `{!RawPoolOrder O} (into : O -> AllOrders) (s : StateValidation) (o : O) (block : Z) :
    M (OrderValidationResults * StateValidation) :=
  let hash := order_hash o in
  let* checked := check_static (pool_tacker s) o in
  match checked with
  | inl e => Ok (Invalid hash e, s)
  | inr pool_info =>
      let* (r, a) := verify_order (user_account_tracker s) o pool_info block in
      let s := with_accounts s a in
      match r with
      | inl e => Ok (Invalid hash (StateError e), s)
      | inr st => let* st := expect_ok (try_map_inner st (fun inner => Ok (into inner))) in Ok (Valid st, s)
      end
  end.

Definition set_tob_reward (st : OrderWithStorageData AllOrders) (r : Z) : OrderWithStorageData AllOrders :=
  mkOrderWithStorageData (order st) (priority_data st) (invalidates st) (pool_id st) (currently_invalid st) (osd_is_bid st)
    (is_valid st) (valid_block st) (order_id st) r.

(** [try_map_inner] to the top-of-block order. *)
Definition all_as_tob (st : OrderWithStorageData AllOrders) : M (OrderWithStorageData TopOfBlockOrder) :=
  expect_ok (try_map_inner st (fun inner => match inner with TOB o => Ok o | _ => Err "unreachable" end)).

(** The rewards of a validated top-of-block order. *)
Definition add_reward (snapshots : PoolId -> list BaselinePoolState) (hash : B256) (results : OrderValidationResults) :
    M OrderValidationResults :=
  match results with
  | Valid tob_order =>
      let* tob := all_as_tob tob_order in
      match calculate_rewards (snapshots (pool_id tob)) tob with
      | Ok total_reward => Ok (Valid (set_tob_reward tob_order total_reward))
      | Err _ => Ok (Invalid hash InvalidToBSwap)
      | Panic => Panic
      end
  | r => Ok r
  end.

Definition handle_tob_order (snapshots : PoolId -> list BaselinePoolState) (s : StateValidation) (o : TopOfBlockOrder) (block : Z) :
    M (OrderValidationResults * StateValidation) :=
  let* (results, s) := handle_regular_order TOB s o block in
  let* results := add_reward snapshots (order_hash o) results in
  Ok (results, s).

(** ** Gas (order/mod.rs) *)

Definition with_gas {O} (st : OrderWithStorageData O) (gas_used gas_units : Z) : OrderWithStorageData O :=
  let d := priority_data st in
  mkOrderWithStorageData (order st) (mkOrderPriorityData (pd_price d) (pd_volume d) (uint_add 256 (pd_gas d) gas_used) gas_units)
    (invalidates st) (pool_id st) (currently_invalid st) (osd_is_bid st) (is_valid st) (valid_block st) (order_id st)
    (tob_reward st).

Definition map_and_process {Old New} (st : OrderWithStorageData Old) (map_new : Old -> M New) (map_old : New -> Old)
    (calculate_function : New -> M (Z * Z)) : M (OrderWithStorageData Old) :=
  let* o := expect_ok (try_map_inner st map_new) in
  let* (gas_units, gas_used) := calculate_function (order o) in
  try_map_inner (with_gas o gas_used gas_units) (fun n => Ok (map_old n)).

Definition add_gas_cost_or_invalidate (token_price : TokenPriceGenerator) (is_limit : bool) (r : OrderValidationResults) :
    M OrderValidationResults :=
  match r with
  | Valid st =>
      let res :=
        if is_limit then
          map_and_process st (fun o => Ok o) (fun o => o) (calculate_gas false token_price)
        else
          map_and_process st (fun o => match o with TOB s => Ok s | _ => Panic end) TOB (calculate_gas true token_price) in
      match res with
      | Ok st => Ok (Valid st)
      | Err _ => Ok (Invalid (order_hash (order st)) NotEnoughGas)
      | Panic => Panic
      end
  | r => Ok r
  end.

(** ** The order validator and the request loop *)

(** Oneshot channels by number. *)
Inductive ValidationRequest :=
| OrderRequest (sender : nat) (o : AllOrders) (origin : OrderOrigin)
| BundleRequest (sender : nat) (bundle : AngstromBundle)
| NewBlockRequest (sender : nat) (block_number : Z) (orders : list B256) (addresses : list Address)
| NonceRequest (sender : nat) (user_address : Address)
| CancelOrderRequest (user : Address) (hash : B256)
| GasEstimationRequest (sender : nat) (is_book is_internal : bool) (token_0 token_1 : Address).

Inductive ValidationResponse :=
| OrderResult (r : OrderValidationResults)
| NonceResult (nonce : Z)
| GasResult (r : M Z)
| BundleResult (gas : M (gmap (Address * Address) Z * Z)).

(** A validation: the block and the prices are read when the request arrives. *)
Record OrderTask := mkOrderTask {
  task_sender : nat;
  task_order : AllOrders;
  task_block : Z;
  task_prices : TokenPriceGenerator;
}.

Definition task_user (t : OrderTask) : Address := from (task_order t).

(** [Limit] or [Searcher]. *)
Definition is_limit_order (o : AllOrders) : bool := match o with TOB _ => false | _ => true end.

(** A whole task, when nothing runs between its accesses. *)
Definition run_task (snapshots : PoolId -> list BaselinePoolState) (s : StateValidation) (t : OrderTask) :
    M (OrderValidationResults * StateValidation) :=
  let* (results, s) :=
    match task_order t with
    | TOB o => handle_tob_order snapshots s o (task_block t)
    | o => handle_regular_order (fun o => o) s o (task_block t)
    end in
  let* results := add_gas_cost_or_invalidate (task_prices t) (is_limit_order (task_order t)) results in
  Ok (results, s).

(** [fetch_nonce] draws nonces until one is unused; nothing when [draws] are used up. *)
Fixpoint fetch_nonce (draws : list Z) (addr : Address) : M (option Z) :=
  match draws with
  | [] => Ok None
  | nonce :: draws =>
      let* valid := expect_ok (is_valid_nonce addr nonce) in
      if (valid : bool) then Ok (Some nonce) else fetch_nonce draws addr
  end.

Record Validator := mkValidator {
  v_state : StateValidation;
  v_block_number : Z;
  v_token_pricing : TokenPriceGenerator;
  v_tasks : list OrderTask;
  v_sent : list (nat * ValidationResponse);
}.

Definition send_response (v : Validator) (s : StateValidation) (block : Z) (out : list (nat * ValidationResponse)) : Validator :=
  mkValidator s block (v_token_pricing v) (v_tasks v) (v_sent v ++ out).

(** [draws] are the random nonces, [simulate] the result of the simulation of a bundle. *)
Definition on_new_validation_request (draws : list Z) (simulate : AngstromBundle -> Z -> M Z) (v : Validator) (req : ValidationRequest) :
    M Validator :=
  let s := v_state v in
  let n := v_block_number v in
  match req with
  | CancelOrderRequest user hash => Ok (send_response v (sv_cancel_order s user hash) n [])
  | OrderRequest sender o _ =>
      Ok (mkValidator s n (v_token_pricing v) (v_tasks v ++ [mkOrderTask sender o n (v_token_pricing v)]) (v_sent v))
  | BundleRequest sender bundle =>
      let* lookup := generate_lookup_map (v_token_pricing v) in
      match simulate bundle n with
      | Ok gas_used => Ok (send_response v s n [(sender, BundleResult (Ok (lookup, gas_used)))])
      | Err e => Ok (send_response v s n [(sender, BundleResult (Err e))])
      | Panic => Panic
      end
  | NewBlockRequest sender block_number orders addresses =>
      Ok (send_response v (sv_new_block s orders addresses) block_number [(sender, OrderResult TransitionedToBlock)])
  | NonceRequest sender user =>
      let* nonce := fetch_nonce draws user in
      Ok (send_response v s n (match nonce with Some x => [(sender, NonceResult x)] | None => [] end))
  | GasEstimationRequest sender is_book is_internal token_0 token_1 =>
      match gas_estimation (v_token_pricing v) is_book is_internal token_0 token_1 with
      | Panic => Panic
      | r => Ok (send_response v s n [(sender, GasResult r)])
      end
  end.

(** [SharedTools::poll]: price updates of blocks, after finished tasks. *)
Definition apply_price_updates (uni : UniPools) (v : Validator) (updates : list (Z * list PairsWithPrice)) : M Validator :=
  M_fold (fun v u =>
    let* g := apply_update (v_token_pricing v) uni u.1 u.2 in
    Ok (mkValidator (v_state v) (v_block_number v) g (v_tasks v) (v_sent v))) v updates.

(** ** Tasks of one user *)

Definition MAX_VALIDATION_PER_ADDR : nat := 2.

(** What a validation does next: read the conflicting orders, cancel them one by one and
    read the live state, load the balances, read the live state again, push its action,
    collect the orders that it invalidates. *)
Inductive Stage :=
| Conflicts (pool_info : UserOrderPoolInfo)
| Cancelling (pool_info : UserOrderPoolInfo) (conflicting todo : list PendingUserAction)
| Loading (pool_info : UserOrderPoolInfo) (conflicting : list PendingUserAction)
| Reading (pool_info : UserOrderPoolInfo) (conflicting : list PendingUserAction)
| Pushing (pool_info : UserOrderPoolInfo) (conflicting : list PendingUserAction) (action : PendingUserAction)
| Collecting (pool_info : UserOrderPoolInfo) (conflicting : list PendingUserAction) (action : PendingUserAction).

Section Accesses.
Context {O : Type} `{!RawPoolOrder O} (into : O -> AllOrders) (o : O) (block : Z).

Abbreviation Next := (OrderValidationResults + Stage)%type (only parsing).

Definition refuse (e : UserAccountVerificationError) : Next := inl (Invalid (order_hash o) (StateError e)).

Definition store (pool_info : UserOrderPoolInfo) (e : option UserAccountVerificationError) (invalids : list B256) : M Next :=
  let* stored := into_order_storage_with_data o block e true pool_info invalids in
  Ok (inl (Valid (with_order stored (into (order stored))))).

(** Everything before the first access to the accounts. *)
Definition begin_order (t : AngstromPoolsTracker) : M Next :=
  let* checked := check_static t o in
  match checked with
  | inl e => Ok (inl (Invalid (order_hash o) e))
  | inr pool_info =>
      let* respend_error := check_respend o block in
      match respend_error with
      | Some e => Ok (refuse e)
      | None => Ok (if has_hook o then refuse NonEmptyHook else inr (Conflicts pool_info))
      end
  end.

Definition decide_order (pool_info : UserOrderPoolInfo) (conflicting : list PendingUserAction) (live_state : LiveState) : M Next :=
  let* supported := can_support_order live_state o pool_info in
  match supported with
  | inr action => Ok (inr (Pushing pool_info conflicting action))
  | inl e => store pool_info (Some e) (map pa_hash conflicting)
  end.

Definition access (st : Stage) (a : UserAccounts) : M (Next * UserAccounts) :=
  let user := from o in
  let live pool_info := try_fetch_live_pending_state a user (upi_token pool_info) (validation_priority o) in
  match st with
  | Conflicts pool_info =>
      let conflicting := respend_conflicts a user (respend_avoidance_strategy o) in
      if existsb (fun c => pa_hash c <=? order_hash o) conflicting then Ok (refuse (DuplicateNonce (order_hash o)), a)
      else Ok (inr (Cancelling pool_info conflicting conflicting), a)
  | Cancelling pool_info conflicting (c :: todo) =>
      Ok (inr (Cancelling pool_info conflicting todo), (cancel_order a user (pa_hash c)).2)
  | Cancelling pool_info conflicting [] =>
      match live pool_info with
      | Some l => let* next := decide_order pool_info conflicting l in Ok (next, a)
      | None => Ok (inr (Loading pool_info conflicting), a)
      end
  | Loading pool_info conflicting =>
      match load_state_for a user (upi_token pool_info) with
      | Ok a => Ok (inr (Reading pool_info conflicting), a)
      | Err e => Ok (refuse (CouldNotFetch e), a)
      | Panic => Panic
      end
  | Reading pool_info conflicting =>
      match live pool_info with
      | Some l => let* next := decide_order pool_info conflicting l in Ok (next, a)
      | None => Ok (refuse (CouldNotFetch
          "after loading state for a address, the state wasn't found. this should be impossible"), a)
      end
  | Pushing pool_info conflicting action =>
      Ok (inr (Collecting pool_info conflicting action), push_pending_action a user action)
  | Collecting pool_info conflicting action =>
      let* invalid_orders := fetch_all_invalidated_orders a user (token_address action) in
      let* next := store pool_info None (invalid_orders ++ map pa_hash conflicting) in
      Ok (next, a)
  end.

End Accesses.

(** A searcher's order is validated as its own type, the others as [AllOrders]. *)
Definition for_order {X} (o : AllOrders) (k : forall O, RawPoolOrder O -> (O -> AllOrders) -> O -> X) : X :=
  match o with TOB o => k TopOfBlockOrder _ TOB o | o => k AllOrders _ (fun o => o) o end.

Definition task_begin (tracker : AngstromPoolsTracker) (t : OrderTask) : M (OrderValidationResults + Stage) :=
  for_order (task_order t) (fun O _ into o => begin_order o (task_block t) tracker).

Definition task_access (t : OrderTask) (st : Stage) (a : UserAccounts) : M ((OrderValidationResults + Stage) * UserAccounts) :=
  for_order (task_order t) (fun O _ into o => access into o (task_block t) st a).

(** What follows the state validation: rewards of a searcher's order, and gas. *)
Definition finish_task (snapshots : PoolId -> list BaselinePoolState) (t : OrderTask) (r : OrderValidationResults) :
    M OrderValidationResults :=
  let* r := match task_order t with TOB o => add_reward snapshots (order_hash o) r | _ => Ok r end in
  add_gas_cost_or_invalidate (task_prices t) (is_limit_order (task_order t)) r.

(** The tasks that wait for a permit, those that hold one, and the results sent. *)
Record TaskPool := mkTaskPool {
  tp_waiting : list OrderTask;
  tp_running : list (OrderTask * Stage);
  tp_results : list (OrderTask * OrderValidationResults);
}.

Definition permits_taken (run : list (OrderTask * Stage)) (u : Address) : nat :=
  length (List.filter (fun r => task_user r.1 =? u) run).

(** The permit of a task is released when it has sent its result. *)
Inductive pool_step (snapshots : PoolId -> list BaselinePoolState) (permits : nat) :
    StateValidation * TaskPool -> StateValidation * TaskPool -> Prop :=
| task_refused s w1 t w2 run res r r' :
    (permits_taken run (task_user t) < permits)%nat ->
    task_begin (pool_tacker s) t = Ok (inl r) -> finish_task snapshots t r = Ok r' ->
    pool_step snapshots permits (s, mkTaskPool (w1 ++ t :: w2) run res) (s, mkTaskPool (w1 ++ w2) run (res ++ [(t, r')]))
| task_started s w1 t w2 run res st :
    (permits_taken run (task_user t) < permits)%nat ->
    task_begin (pool_tacker s) t = Ok (inr st) ->
    pool_step snapshots permits (s, mkTaskPool (w1 ++ t :: w2) run res) (s, mkTaskPool (w1 ++ w2) (run ++ [(t, st)]) res)
| task_accessed s w r1 t st r2 res st' a :
    task_access t st (user_account_tracker s) = Ok (inr st', a) ->
    pool_step snapshots permits (s, mkTaskPool w (r1 ++ (t, st) :: r2) res)
      (with_accounts s a, mkTaskPool w (r1 ++ (t, st') :: r2) res)
| task_finished s w r1 t st r2 res r a r' :
    task_access t st (user_account_tracker s) = Ok (inl r, a) -> finish_task snapshots t r = Ok r' ->
    pool_step snapshots permits (s, mkTaskPool w (r1 ++ (t, st) :: r2) res)
      (with_accounts s a, mkTaskPool w (r1 ++ r2) (res ++ [(t, r')])).

End Validation.

(** ** Lemmas *)

Section ValidatorLemmas.
Context {U : UniswapMath} {C : OrderCrypto} {O : Type} `{!RawPoolOrder O}.

(** What the validators leave of an order. *)
Definition statically_valid (o : O) : Prop :=
  min_amount o <> 0 /\ max_gas_token_0 o <> 0 /\
  (exists p, limit_price o = Ok p /\ p <> 0 /\ Ray.within_sqrt_price_bounds p = Ok true) /\
  exists q, min_qty_t0 o = Ok (Some q) /\ max_gas_token_0 o <= q.

Lemma validate_spec (o : O) : validate o = Ok None <-> statically_valid o.
Proof.
  unfold validate, ORDER_VALIDATORS, statically_valid. cbn [run_validators run_validator].
  unfold ensure_amount_set, ensure_gas_set, ensure_price_set, ensure_max_gas_lt_min, min_qty_in_t0.
  cbn [M_bind OrderValidationState_new vs_order vs_min_qty].
  destruct (Z.eqb_spec (min_amount o) 0); [by split; [| intros (? & _)] |].
  destruct (Z.eqb_spec (max_gas_token_0 o) 0); [by split; [| intros (_ & ? & _)] |].
  destruct (limit_price o) as [p | |]; cbn [M_bind]; [| by split; [| intros (_ & _ & (? & ? & _) & _)] ..].
  destruct (Z.eqb_spec p 0); [split; [done | intros (_ & _ & (? & [= <-] & ? & _) & _); done] |].
  destruct (Ray.within_sqrt_price_bounds p) as [[] | |] eqn:Hw; cbn [M_bind negb];
    [| split; [done | intros (_ & _ & (? & [= <-] & _ & ?) & _); congruence] ..].
  cbn [OrderValidationState_new vs_order vs_min_qty].
  destruct (min_qty_t0 o) as [[q |] | |]; cbn [M_bind unwrap vs_order];
    [| split; [done | intros (_ & _ & _ & ? & ? & _); congruence] ..].
  destruct (Z.ltb_spec q (max_gas_token_0 o)); (split; [| done || intros (_ & _ & _ & ? & [= <-] & ?); lia]); [done |].
  intros _. split; [done |]. split; [done |]. split; [by exists p | by exists q].
Qed.

(** An order that may buy nothing but asks for something is not refused: it panics. *)
Lemma validate_no_amount (o : O) p :
  amount o = 0 -> min_amount o <> 0 -> max_gas_token_0 o <> 0 ->
  limit_price o = Ok p -> p <> 0 -> Ray.within_sqrt_price_bounds p = Ok true -> validate o = Panic.
Proof.
  intros Ha Hm Hg Hp Hp0 Hw. unfold validate, ORDER_VALIDATORS. cbn [run_validators run_validator].
  unfold ensure_amount_set, ensure_gas_set, ensure_price_set, ensure_max_gas_lt_min, min_qty_in_t0.
  cbn [M_bind OrderValidationState_new vs_order vs_min_qty].
  rewrite (proj2 (Z.eqb_neq _ _) Hm), (proj2 (Z.eqb_neq _ _) Hg), Hp. cbn [M_bind].
  rewrite (proj2 (Z.eqb_neq _ _) Hp0), Hw. cbn [M_bind negb OrderValidationState_new vs_order vs_min_qty]. unfold min_qty_t0. by rewrite Ha.
Qed.

End ValidatorLemmas.

Section ValidationLemmas.
Context {P : Profile} {U : UniswapMath} {C : OrderCrypto} {F : StateFetchUtils}.

Lemma check_static_spec {O} `{!RawPoolOrder O} t (o : O) pi :
  check_static t o = Ok (inr pi) <->
  is_valid_signature o = true /\ statically_valid o /\ fetch_pool_info_for_order t o = Some pi.
Proof.
  unfold check_static. destruct (is_valid_signature o); cbn [negb]; [| naive_solver].
  rewrite <- validate_spec. destruct (validate o) as [[e |] | |]; cbn [M_bind]; [naive_solver | | naive_solver ..].
  destruct (fetch_pool_info_for_order t o); naive_solver.
Qed.

Lemma pool_info_spec {O} `{!RawPoolOrder O} t (o : O) pi :
  fetch_pool_info_for_order t o = Some pi <->
  exists e, get_entry (apt_pool_store t) (Z.min (token_in o) (token_out o)) (Z.max (token_in o) (token_out o)) = Some e /\
    pi = mkUserOrderPoolInfo (token_in o) (is_bid o)
           (pool_key_id (Z.min (token_in o) (token_out o)) (Z.max (token_in o) (token_out o)) (ce_fee_in_e6 e) (ce_tick_spacing e)
              (apt_angstrom_address t)).
Proof.
  unfold fetch_pool_info_for_order, order_info, is_bid.
  replace (if token_out o <? token_in o then (token_out o, token_in o) else (token_in o, token_out o))
    with (Z.min (token_in o) (token_out o), Z.max (token_in o) (token_out o))
    by (destruct (Z.ltb_spec (token_out o) (token_in o)); f_equal; lia).
  unfold get_poolid. destruct (get_entry _ _ _) as [e |]; cbn; [| naive_solver].
  rewrite (proj2 (Z.ltb_ge (Z.max (token_in o) (token_out o)) (Z.min (token_in o) (token_out o)))) by lia. cbn. naive_solver.
Qed.

(** *** Accesses without interleaving *)

Lemma load_then_live a u t p a' :
  load_state_for a u t = Ok a' -> is_Some (try_fetch_live_pending_state a' u t p).
Proof.
  intros H. unfold load_state_for in H. apply M_bind_Ok in H as (fe & _ & H). destruct fe as [x |]; [| done].
  cbn [ok_or M_bind] in H. apply M_bind_Ok in H as (y & _ & H). injection H as <-.
  unfold try_fetch_live_pending_state. cbn. rewrite lookup_insert_eq. cbn. rewrite !lookup_insert_eq. cbn. by eexists.
Qed.

Section Accesses.
Context {O : Type} `{!RawPoolOrder O} (into : O -> AllOrders) (o : O) (block : Z).

Fixpoint run_accesses (fuel : nat) (x : OrderValidationResults + Stage) (a : UserAccounts) : M (OrderValidationResults * UserAccounts) :=
  match x, fuel with
  | inl r, _ => Ok (r, a)
  | inr _, 0%nat => Err "running"
  | inr st, S n => let* (x, a) := access into o block st a in run_accesses n x a
  end.

(** Accesses of a validation when it runs alone. *)
Definition accesses_needed (a : UserAccounts) : nat :=
  (6 + length (respend_conflicts a (from o) (respend_avoidance_strategy o)))%nat.

Lemma run_done n r a : run_accesses n (inl r) a = Ok (r, a).
Proof. by destruct n. Qed.

Lemma run_more n k x a v : run_accesses n x a = Ok v -> run_accesses (n + k) x a = Ok v.
Proof.
  revert x a. induction n as [| n IH]; intros [r | st] a; cbn [run_accesses Nat.add]; try done; [by rewrite run_done |].
  intros (p & -> & Hp)%M_bind_Ok. cbn [M_bind]. destruct p as [x' a']. by apply IH.
Qed.

Lemma run_cancels pi con todo m a :
  run_accesses (length todo + m) (inr (Cancelling pi con todo)) a =
  run_accesses m (inr (Cancelling pi con [])) (fold_left (fun a c => (cancel_order a (from o) (pa_hash c)).2) todo a).
Proof. revert a. induction todo as [| c todo IH]; intros a; [done |]. cbn [length Nat.add run_accesses access M_bind fold_left]. apply IH. Qed.

(** [verify_order] once the live state is known. *)
Definition decided (pi : UserOrderPoolInfo) (con : list PendingUserAction) (l : LiveState) (a : UserAccounts) :
    M (OrderValidationResults * UserAccounts) :=
  let* supported := can_support_order l o pi in
  match supported with
  | inr act =>
      let* (bad, a) := insert_pending_user_action a (from o) act in
      let* st := into_order_storage_with_data o block None true pi (bad ++ map pa_hash con) in
      Ok (Valid (with_order st (into (order st))), a)
  | inl e =>
      let* st := into_order_storage_with_data o block (Some e) true pi (map pa_hash con) in
      Ok (Valid (with_order st (into (order st))), a)
  end.

Lemma run_decided m pi con l a :
  (let* (x, a) := (let* next := decide_order into o block pi con l in Ok (next, a)) in run_accesses (2 + m) x a) =
  decided pi con l a.
Proof.
  unfold decide_order, decided. destruct (can_support_order l o pi) as [[e | act] | |]; cbn [M_bind]; [| | done ..].
  - unfold store. by destruct (into_order_storage_with_data _ _ _ _ _ _).
  - cbn [Nat.add run_accesses access M_bind]. unfold insert_pending_user_action.
    destruct (fetch_all_invalidated_orders _ _ _) as [bad | |]; cbn [M_bind]; [| done ..]. unfold store.
    destruct (into_order_storage_with_data _ _ _ _ _ _); cbn [M_bind]; [apply run_done | done ..].
Qed.

(** The accesses from the first one on are [verify_order] from there on. *)
Lemma run_accesses_verify pi a k :
  run_accesses (accesses_needed a + k) (inr (Conflicts pi)) a =
  let con := respend_conflicts a (from o) (respend_avoidance_strategy o) in
  if existsb (fun c => pa_hash c <=? order_hash o) con
  then Ok (Invalid (order_hash o) (StateError (DuplicateNonce (order_hash o))), a) else
  let a1 := fold_left (fun a c => (cancel_order a (from o) (pa_hash c)).2) con a in
  match get_live_state_for_order a1 (from o) (upi_token pi) (validation_priority o) with
  | Panic => Panic
  | Err e => Ok (Invalid (order_hash o) (StateError (CouldNotFetch e)), a1)
  | Ok (l, a2) => decided pi con l a2
  end.
Proof.
  unfold accesses_needed. set (con := respend_conflicts a (from o) (respend_avoidance_strategy o)).
  replace (6 + length con + k)%nat with (S (length con + (5 + k)))%nat by lia.
  cbn [run_accesses access]. fold con. cbv zeta. destruct (existsb _ con); cbn [M_bind]; [apply run_done |].
  rewrite run_cancels. set (a1 := fold_left _ con a).
  cbn [Nat.add run_accesses access]. unfold get_live_state_for_order.
  destruct (try_fetch_live_pending_state a1 _ _ _) as [l |]; [apply (run_decided (2 + k)%nat) |]. cbn [M_bind run_accesses access].
  destruct (load_state_for a1 (from o) (upi_token pi)) as [a2 | e |] eqn:El; cbn [M_bind run_accesses access]; [| done ..].
  destruct (try_fetch_live_pending_state a2 _ _ _) as [l |] eqn:E2; cbn [ok_or M_bind]; [apply (run_decided k) |].
  apply load_then_live with (p := validation_priority o) in El as [l Hl]. congruence.
Qed.

(** [handle_regular_order] is its accesses, run one after the other. *)
Lemma handle_run s k :
  handle_regular_order into s o block =
  (let* x := begin_order o block (pool_tacker s) in
   let* (r, a) := run_accesses (accesses_needed (user_account_tracker s) + k) x (user_account_tracker s) in
   Ok (r, with_accounts s a)).
Proof.
  unfold handle_regular_order, begin_order. destruct (check_static _ o) as [[e | pi] | |]; cbn [M_bind]; [| | done ..].
  { rewrite run_done. by destruct s. }
  unfold verify_order. destruct (check_respend o block) as [[e |] | |]; cbn [M_bind]; [| | done ..].
  { unfold refuse. rewrite run_done. done. }
  destruct (has_hook o); [unfold refuse; by rewrite run_done |]. rewrite run_accesses_verify. cbv zeta.
  destruct (existsb _ _); [done |]. destruct (get_live_state_for_order _ _ _ _) as [[l a2] | e |]; [| done ..].
  unfold decided. destruct (can_support_order l o pi) as [[e | act] | |]; cbn [M_bind]; [| | done ..].
  - by destruct (into_order_storage_with_data _ _ _ _ _ _).
  - destruct (insert_pending_user_action _ _ _) as [[bad a3] | |]; cbn [M_bind]; [| done ..].
    by destruct (into_order_storage_with_data _ _ _ _ _ _).
Qed.

(** What is stored of an order that the state validation accepts. *)
Lemma accepted_facts s st s' :
  handle_regular_order into s o block = Ok (Valid st, s') ->
  exists pi p bad cur, check_static (pool_tacker s) o = Ok (inr pi) /\ check_respend o block = Ok None /\ has_hook o = false /\
    limit_price o = Ok p /\
    st = mkOrderWithStorageData (into o) (mkOrderPriorityData p (amount o) 0 0) bad (upi_pool_id pi) cur (upi_is_bid pi) true block
           (from_all_orders o (upi_pool_id pi)) 0.
Proof.
  rewrite (handle_run s 0). unfold begin_order. destruct (check_static _ o) as [[e | pi] | |]; cbn [M_bind]; [by rewrite run_done | | done ..].
  destruct (check_respend o block) as [[e |] | |]; cbn [M_bind]; [by unfold refuse; rewrite run_done | | done ..].
  destruct (has_hook o); [by unfold refuse; rewrite run_done |]. rewrite run_accesses_verify. cbv zeta.
  destruct (existsb _ _); [done |]. destruct (get_live_state_for_order _ _ _ _) as [[l a2] | e |]; [| done ..].
  unfold decided, into_order_storage_with_data.
  destruct (can_support_order l o pi) as [[e | act] | |]; cbn [M_bind]; [| | done ..].
  - destruct (limit_price o) as [p | |]; cbn [M_bind]; [| done ..]. intros [= <- <-]. exists pi, p. by do 2 eexists.
  - destruct (insert_pending_user_action _ _ _) as [[bad a3] | |]; cbn [M_bind]; [| done ..].
    destruct (limit_price o) as [p | |]; cbn [M_bind]; [| done ..]. intros [= <- <-]. exists pi, p. by do 2 eexists.
Qed.

End Accesses.

Context `{!RawPoolOrder TopOfBlockOrder, !RawPoolOrder AllOrders}.

Lemma calculate_gas_le {O} `{!RawPoolOrder O} tob g (o : O) units charge :
  calculate_gas tob g o = Ok (units, charge) -> charge <= max_gas_token_0 o.
Proof.
  unfold calculate_gas. destruct (if token_in o <? token_out o then _ else _) as [t0 t1].
  destruct (get_eth_conversion_price g t0 t1) as [[f |] | |]; cbn [M_bind ok_or]; [| done ..].
  destruct (Ray.inverse_quantity _ _ _) as [c | |]; cbn [M_bind]; [| done ..].
  destruct (Z.ltb_spec (max_gas_token_0 o) c); [done |]. intros [= <- <-]. done.
Qed.

Lemma run_task_split snapshots s t :
  run_task snapshots s t =
  (let* (r, s) := for_order (task_order t) (fun O _ into o => handle_regular_order into s o (task_block t)) in
   let* r := finish_task snapshots t r in Ok (r, s)).
Proof.
  unfold run_task, finish_task, handle_tob_order, for_order. destruct (task_order t) as [| | | | o].
  5: destruct (handle_regular_order TOB s o _) as [[r s1] | |]; cbn [M_bind]; [| done ..];
     by destruct (add_reward snapshots (order_hash o) r); cbn [M_bind].
  all: by destruct (handle_regular_order _ s _ _) as [[r s1] | |].
Qed.

Lemma run_limit_task snapshots s t :
  is_limit_order (task_order t) = true ->
  run_task snapshots s t =
  (let* (r, s) := handle_regular_order (fun o => o) s (task_order t) (task_block t) in
   let* r := add_gas_cost_or_invalidate (task_prices t) true r in Ok (r, s)).
Proof. intros H. unfold run_task. rewrite H. by destruct (task_order t). Qed.

(** The gas a task charges for its order. *)
Definition task_gas (t : OrderTask) : M (Z * Z) :=
  for_order (task_order t) (fun O _ _ o => calculate_gas (negb (is_limit_order (task_order t))) (task_prices t) o).

Lemma add_gas_valid t st st' :
  order st = task_order t -> add_gas_cost_or_invalidate (task_prices t) (is_limit_order (task_order t)) (Valid st) = Ok (Valid st') ->
  exists units charge, task_gas t = Ok (units, charge) /\ st' = with_gas st charge units.
Proof.
  intros Ho. unfold add_gas_cost_or_invalidate, map_and_process, try_map_inner, task_gas, for_order, is_limit_order.
  destruct st as [o d inv pid cur bid v b id rw]. cbn [order] in *. subst o. destruct (task_order t) as [| | | | o]; cbn [M_bind expect_ok order with_order].
  all: destruct (calculate_gas _ _ _) as [[units charge] | |]; cbn [M_bind]; [| done ..]; intros [= <-]; by do 2 eexists.
Qed.

(** The reward of a searcher's order; the others have none. *)
Definition rewarded (snapshots : PoolId -> list BaselinePoolState) (t : OrderTask) (st : OrderWithStorageData AllOrders) (reward : Z) : Prop :=
  match task_order t with
  | TOB o => calculate_rewards (snapshots (pool_id st)) (with_order st o) = Ok reward
  | _ => reward = tob_reward st
  end.

Lemma finish_valid snapshots t st st' :
  order st = task_order t -> finish_task snapshots t (Valid st) = Ok (Valid st') ->
  exists units charge reward, task_gas t = Ok (units, charge) /\ rewarded snapshots t st reward /\
    st' = with_gas (set_tob_reward st reward) charge units.
Proof.
  intros Ho (r & Hr & Hg)%M_bind_Ok.
  enough (exists reward, r = Valid (set_tob_reward st reward) /\ rewarded snapshots t st reward) as (reward & -> & Hw).
  - destruct (add_gas_valid t (set_tob_reward st reward) st') as (units & charge & Hc & ->); [done | done |]. by exists units, charge, reward.
  - unfold rewarded. destruct (task_order t) as [| | | | o] eqn:Et.
    1-4: injection Hr as <-; exists (tob_reward st); split; [by destruct st | done].
    unfold add_reward, all_as_tob, try_map_inner in Hr. rewrite Ho in Hr. cbn [M_bind expect_ok] in Hr.
    change (pool_id (with_order st o)) with (pool_id st) in Hr.
    destruct (calculate_rewards _ _) as [reward | |]; [| injection Hr as <-; done | done]. injection Hr as <-. by exists reward.
Qed.

Lemma finish_invalid snapshots t r st : (forall st, r <> Valid st) -> finish_task snapshots t r <> Ok (Valid st).
Proof. unfold finish_task. intros Hr H. destruct r as [st0 | |]; [by destruct (Hr st0) | |]; by destruct (task_order t). Qed.

(** An order that is stored as funded has its pledge among the pending ones. *)
Lemma accepted_pledged s o block st s' :
  handle_regular_order (fun o => o) s o block = Ok (Valid st, s') -> currently_invalid st = None ->
  exists act, act ∈ default [] (pending_actions (user_account_tracker s') !! from o) /\ pa_hash act = order_hash o /\
    vp_respend (order_priority act) = respend_avoidance_strategy o /\ order st = o /\ pool_tacker s' = pool_tacker s.
Proof.
  unfold handle_regular_order. destruct (check_static _ o) as [[e | pi] | |]; cbn [M_bind]; [done | | done ..].
  unfold verify_order. destruct (check_respend o block) as [[e |] | |]; cbn [M_bind]; [done | | done ..].
  destruct (has_hook o); [done |]. destruct (existsb _ _); [done |].
  destruct (get_live_state_for_order _ _ _ _) as [[l a2] | e |]; [| done ..].
  destruct (can_support_order l o pi) as [[e | act] | |] eqn:Es; cbn [M_bind]; [| | done ..].
  { unfold into_order_storage_with_data. destruct (limit_price o); cbn [M_bind]; [| done ..]. intros [= <- <-]. done. }
  unfold insert_pending_user_action. destruct (fetch_all_invalidated_orders _ _ _) as [bad | |]; cbn [M_bind]; [| done ..].
  unfold into_order_storage_with_data. destruct (limit_price o); cbn [M_bind]; [| done ..]. intros [= <- <-] _.
  exists act. cbn [with_accounts user_account_tracker pending_actions pool_tacker push_pending_action]. rewrite lookup_insert_eq. cbn [default].
  split; [rewrite sort_by_perm; apply elem_of_app; right; apply list_elem_of_singleton; done |].
  unfold can_support_order in Es. destruct (negb _); [done |]. destruct (fetch_amount_in o) as [q | |]; cbn [M_bind] in Es; [| done ..].
  assert (Ha : exists d, act = mkPendingUserAction (mkOrderValidationPriority (order_hash o) (is_tob o) (is_partial o)
    (respend_avoidance_strategy o)) (upi_token pi) d.2 q d.1 pi).
  { destruct (use_internal o).
    - destruct (_ <? _); [by destruct (to_u128 _) |]. injection Es as <-. by exists (q, 0).
    - destruct (_ <? _), (_ <? _); repeat (destruct (to_u128 _); cbn [M_bind] in Es; try done). injection Es as <-. by exists (0, q). }
  destruct Ha as [d ->]. done.
Qed.

(** A pledge with the nonce of an order and at most its hash refuses it. *)
Lemma conflict_refused s o block pi act :
  check_static (pool_tacker s) o = Ok (inr pi) -> check_respend o block = Ok None -> has_hook o = false ->
  act ∈ default [] (pending_actions (user_account_tracker s) !! from o) -> vp_respend (order_priority act) = respend_avoidance_strategy o ->
  (exists n, respend_avoidance_strategy o = Nonce n) -> pa_hash act <= order_hash o ->
  exists s', handle_regular_order (fun o => o) s o block = Ok (Invalid (order_hash o) (StateError (DuplicateNonce (order_hash o))), s') /\ s' = s.
Proof.
  intros Hs Hr Hh Hin Hv [n Hn] Hle. exists s. split; [| done]. unfold handle_regular_order. rewrite Hs. cbn [M_bind]. unfold verify_order.
  rewrite Hr. cbn [M_bind]. rewrite Hh. replace (existsb _ _) with true; [by destruct s |]. symmetry. apply existsb_exists.
  exists act. split; [| by apply Z.leb_le]. unfold respend_conflicts. rewrite Hn. apply list_elem_of_In, list_filter_in.
  split; [done |]. apply bool_decide_eq_true. congruence.
Qed.

(** *** One user's accounts *)

(** The user of a searcher's order is the same for both types. *)
Class TobUser := tob_user o : from (TOB o) = from o.

Context {TU : TobUser}.

Lemma for_order_case t :
  exists O (R : RawPoolOrder O) (into : O -> AllOrders) (o : O), from o = task_user t /\ into o = task_order t /\
    forall X (k : forall O, RawPoolOrder O -> (O -> AllOrders) -> O -> X), for_order (task_order t) k = k O R into o.
Proof.
  unfold task_user, for_order. destruct (task_order t) as [x | x | x | x | x].
  5: exists TopOfBlockOrder, _, TOB, x; split; [symmetry; apply tob_user | done].
  all: by eexists AllOrders, _, (fun o => o), _.
Qed.

(** The accounts [b] with the entries of [u] from [a]. *)
Definition put (u : Address) (a b : UserAccounts) : UserAccounts :=
  mkUserAccounts (partial_alter (fun _ => pending_actions a !! u) u (pending_actions b))
    (partial_alter (fun _ => last_known_state a !! u) u (last_known_state b)).

Lemma put_pending u a b : pending_actions (put u a b) !! u = pending_actions a !! u.
Proof. apply lookup_partial_alter_eq. Qed.

Lemma put_known u a b : last_known_state (put u a b) !! u = last_known_state a !! u.
Proof. apply lookup_partial_alter_eq. Qed.

Lemma put_self u a : put u a a = a.
Proof. destruct a. unfold put. cbn. f_equal; apply partial_alter_self. Qed.

Lemma put_put u a b c : put u a (put u b c) = put u a c.
Proof. unfold put. cbn. f_equal; apply partial_alter_partial_alter_eq. Qed.

(** Changing what [u] has in one map. *)
Lemma put_set_pending u a b x :
  mkUserAccounts (<[u := x]> (pending_actions (put u a b))) (last_known_state (put u a b)) =
  put u (mkUserAccounts (<[u := x]> (pending_actions a)) (last_known_state a)) b.
Proof. unfold put. cbn. f_equal. rewrite lookup_insert_eq. apply partial_alter_partial_alter_eq. Qed.

Lemma put_set_known u a b x :
  mkUserAccounts (pending_actions (put u a b)) (<[u := x]> (last_known_state (put u a b))) =
  put u (mkUserAccounts (pending_actions a) (<[u := x]> (last_known_state a))) b.
Proof. unfold put. cbn. f_equal. rewrite lookup_insert_eq. apply partial_alter_partial_alter_eq. Qed.

Lemma put_other u v a b : v <> u -> put v (put u a b) = put v b.
Proof. intros H. unfold put. cbn. by rewrite !lookup_partial_alter_ne. Qed.

Ltac at_user := rewrite ?put_pending, ?put_known.

Lemma cancel_put u a b h : (cancel_order (put u a b) u h).2 = put u (cancel_order a u h).2 b.
Proof.
  unfold cancel_order. at_user. destruct (pending_actions a !! u) as [l |]; [| done]. cbn [snd].
  apply put_set_pending.
Qed.

Lemma live_put u a b t p : try_fetch_live_pending_state (put u a b) u t p = try_fetch_live_pending_state a u t p.
Proof. unfold try_fetch_live_pending_state. by at_user. Qed.

Lemma load_put u a b t : load_state_for (put u a b) u t = (let* a' := load_state_for a u t in Ok (put u a' b)).
Proof.
  unfold load_state_for. destruct (fetch_approval_balance_for_token u t) as [[x |] | |]; cbn [M_bind ok_or]; [| done ..].
  destruct (fetch_balance_for_token u t); cbn [M_bind]; [| done ..]. at_user. by rewrite <- put_set_known.
Qed.

Lemma push_put u a b act : push_pending_action (put u a b) u act = put u (push_pending_action a u act) b.
Proof. unfold push_pending_action. at_user. apply put_set_pending. Qed.

Lemma invalidated_put u a b t : fetch_all_invalidated_orders (put u a b) u t = fetch_all_invalidated_orders a u t.
Proof. unfold fetch_all_invalidated_orders. by at_user. Qed.

(** An access reads and writes the entries of its user only. *)
Lemma access_put {O} `{!RawPoolOrder O} (into : O -> AllOrders) (o : O) block st a b :
  access into o block st (put (from o) a b) =
  (let* (x, a') := access into o block st a in Ok (x, put (from o) a' b)).
Proof.
  destruct st as [pi | pi con [| c todo] | pi con | pi con | pi con act | pi con act]; cbn [access].
  - unfold respend_conflicts. at_user. destruct (respend_avoidance_strategy o); by destruct (existsb _ _).
  - rewrite live_put. destruct (try_fetch_live_pending_state _ _ _ _); [| done]. by destruct (decide_order _ _ _ _ _ _).
  - by rewrite cancel_put.
  - rewrite load_put. by destruct (load_state_for _ _ _).
  - rewrite live_put. destruct (try_fetch_live_pending_state _ _ _ _); [| done]. by destruct (decide_order _ _ _ _ _ _).
  - by rewrite push_put.
  - rewrite invalidated_put. destruct (fetch_all_invalidated_orders _ _ _) as [bad | |]; cbn [M_bind]; [| done ..].
    by destruct (store _ _ _ _ _ _).
Qed.

Lemma task_access_put t st a b x a' :
  task_access t st a = Ok (x, a') -> task_access t st (put (task_user t) a b) = Ok (x, put (task_user t) a' b).
Proof.
  destruct (for_order_case t) as (O & R & into & o & <- & _ & E). unfold task_access. rewrite !E. intros H.
  by rewrite access_put, H.
Qed.

(** What an access leaves alone. *)
Lemma task_access_frame t st a x a' : task_access t st a = Ok (x, a') -> a' = put (task_user t) a' a.
Proof. intros H. pose proof (task_access_put t st a a x a' H) as H'. rewrite put_self, H in H'. by injection H'. Qed.

(** The part of the pool that belongs to a user. *)
Definition of_user (u : Address) (p : TaskPool) : TaskPool :=
  mkTaskPool (List.filter (fun t => task_user t =? u) (tp_waiting p)) (List.filter (fun r => task_user r.1 =? u) (tp_running p))
    (List.filter (fun r => task_user r.1 =? u) (tp_results p)).

Lemma permits_of_user run u : permits_taken (List.filter (fun r => task_user r.1 =? u) run) u = permits_taken run u.
Proof.
  unfold permits_taken. f_equal. apply filter_all. apply Forall_forall. intros x [_ Hx]%list_filter_in. done.
Qed.

(** A step of the pool is a step of the user's part when it is one of its tasks, and
    changes nothing of it otherwise. *)
Lemma user_step snapshots permits c c' u b :
  pool_step snapshots permits c c' ->
  pool_tacker c'.1 = pool_tacker c.1 /\
  rtc (pool_step snapshots permits) (with_accounts c.1 (put u (user_account_tracker c.1) b), of_user u c.2)
    (with_accounts c'.1 (put u (user_account_tracker c'.1) b), of_user u c'.2).
Proof.
  destruct 1 as [s w1 t w2 run res r r' Hp Hb Hf | s w1 t w2 run res st Hp Hb | s w r1 t st r2 res st' a Ha
    | s w r1 t st r2 res r a r' Ha Hf]; (split; [done |]); unfold of_user; cbn [fst snd tp_waiting tp_running tp_results];
    rewrite !List.filter_app; cbn [List.filter fst]; destruct (Z.eqb_spec (task_user t) u) as [<- | Hne]; rewrite ?app_nil_r.
  - apply rtc_once, task_refused with (r := r); [by rewrite permits_of_user | done | done].
  - apply rtc_refl.
  - apply rtc_once, task_started; [by rewrite permits_of_user | done].
  - apply rtc_refl.
  - apply rtc_once. apply (task_accessed _ _ (with_accounts s (put (task_user t) (user_account_tracker s) b))). by apply task_access_put.
  - cbn [user_account_tracker with_accounts]. rewrite (task_access_frame _ _ _ _ _ Ha), put_other by done. apply rtc_refl.
  - apply rtc_once.
    apply (task_finished _ _ (with_accounts s (put (task_user t) (user_account_tracker s) b))) with (r := r); [by apply task_access_put | done].
  - cbn [user_account_tracker with_accounts]. rewrite (task_access_frame _ _ _ _ _ Ha), put_other by done. apply rtc_refl.
Qed.

Lemma user_run snapshots permits c c' u b :
  rtc (pool_step snapshots permits) c c' ->
  pool_tacker c'.1 = pool_tacker c.1 /\
  rtc (pool_step snapshots permits) (with_accounts c.1 (put u (user_account_tracker c.1) b), of_user u c.2)
    (with_accounts c'.1 (put u (user_account_tracker c'.1) b), of_user u c'.2).
Proof.
  induction 1 as [c | c1 c2 c3 Hs _ [Ht IH]]; [by split; [| apply rtc_refl] |].
  destruct (user_step snapshots permits c1 c2 u b Hs) as [Ht' Hr]. split; [congruence | by etrans].
Qed.

(** *** A task that is alone *)

Definition task_run (t : OrderTask) (fuel : nat) (x : OrderValidationResults + Stage) (a : UserAccounts) :
    M (OrderValidationResults * UserAccounts) :=
  for_order (task_order t) (fun O _ into o => run_accesses into o (task_block t) fuel x a).

Lemma task_run_access t n st a :
  task_run t (S n) (inr st) a = (let* (x, a) := task_access t st a in task_run t n x a).
Proof.
  destruct (for_order_case t) as (O & R & into & o & _ & _ & E). unfold task_run, task_access. rewrite !E. cbn [run_accesses].
  destruct (access _ _ _ _ _) as [[x a1] | |]; cbn [M_bind]; [by rewrite E | done ..].
Qed.

Lemma task_run_done t n r a : task_run t n (inl r) a = Ok (r, a).
Proof. destruct (for_order_case t) as (O & R & into & o & _ & _ & E). unfold task_run. rewrite !E. apply run_done. Qed.

(** The accesses of a task in a row give the result of the whole task. *)
Lemma task_run_whole snapshots s t x n r a r' :
  task_begin (pool_tacker s) t = Ok x -> task_run t n x (user_account_tracker s) = Ok (r, a) -> finish_task snapshots t r = Ok r' ->
  run_task snapshots s t = Ok (r', with_accounts s a).
Proof.
  rewrite run_task_split. destruct (for_order_case t) as (O & R & into & o & _ & _ & E). unfold task_begin, task_run. rewrite !E.
  intros Hb Hr Hf. rewrite (handle_run into o (task_block t) s n), Hb. cbn [M_bind].
  rewrite Nat.add_comm, (run_more into o (task_block t) n _ x _ _ Hr). cbn [M_bind]. by rewrite Hf.
Qed.

(** A pool whose only task is [t]: not started, at a stage that the task reaches on its
    own, or done. *)
Definition alone (snapshots : PoolId -> list BaselinePoolState) (s : StateValidation) (t : OrderTask) (c : StateValidation * TaskPool) : Prop :=
  c = (s, mkTaskPool [t] [] []) \/
  (exists st a x, c = (with_accounts s a, mkTaskPool [] [(t, st)] []) /\ task_begin (pool_tacker s) t = Ok x /\
     forall n v, task_run t n (inr st) a = Ok v -> exists m, task_run t m x (user_account_tracker s) = Ok v) \/
  exists r s', c = (s', mkTaskPool [] [] [(t, r)]) /\ run_task snapshots s t = Ok (r, s').

Lemma app_cons_single {A} (l1 l2 : list A) x y : l1 ++ x :: l2 = [y] -> l1 = [] /\ l2 = [] /\ x = y.
Proof. destruct l1 as [| z l1]; cbn; [by intros [= -> ->] |]. intros [= _ H]. by destruct l1. Qed.

Lemma alone_step snapshots permits s t c c' :
  pool_step snapshots permits c c' -> alone snapshots s t c -> alone snapshots s t c'.
Proof.
  destruct 1 as [s1 w1 t1 w2 run res r r' _ Hb Hf | s1 w1 t1 w2 run res st _ Hb | s1 w r1 t1 st r2 res st' a Ha
    | s1 w r1 t1 st r2 res r a r' Ha Hf];
    (intros [H | [(st0 & a0 & x & H & Hx & Hr) | (r0 & s0 & H & _)]]; injection H as -> H1 H2 H3;
     [try (apply app_cons_single in H1 as (-> & -> & ->)) | try (by destruct w1) | try (by destruct w1)];
     try (by destruct r1); subst).
  - right; right. exists r', s. split; [done |].
    rewrite (task_run_whole snapshots s t (inl r) 0 r (user_account_tracker s) r'); [by destruct s | done | apply task_run_done | done].
  - right; left. exists st, (user_account_tracker s), (inr st). split; [by destruct s |]. split; [done |]. by eauto.
  - apply app_cons_single in H2 as (-> & -> & [= -> ->]). right; left. exists st', a, x. split; [done |]. split; [done |].
    intros n v Hv. apply (Hr (S n)). rewrite task_run_access. cbn [user_account_tracker with_accounts] in Ha. by rewrite Ha.
  - apply app_cons_single in H2 as (-> & -> & [= -> ->]). right; right. exists r', (with_accounts s a). split; [done |].
    destruct (Hr 1%nat (r, a)) as [m Hm]; [rewrite task_run_access; cbn [user_account_tracker with_accounts] in Ha; rewrite Ha; apply task_run_done |].
    by eapply task_run_whole.
Qed.

Lemma alone_run snapshots permits s t s' res :
  rtc (pool_step snapshots permits) (s, mkTaskPool [t] [] []) (s', mkTaskPool [] [] res) ->
  exists r, res = [(t, r)] /\ run_task snapshots s t = Ok (r, s').
Proof.
  intros H. assert (Hg : forall c c', rtc (pool_step snapshots permits) c c' -> alone snapshots s t c -> alone snapshots s t c').
  { induction 1 as [| c1 c2 c3 Hs _ IH]; [done |]. intros Hc. by eapply IH, alone_step. }
  destruct (Hg _ _ H) as [[= _] | [(? & ? & ? & [= _] & _) | (r & s1 & [= -> ->] & Hr)]]; [by left |]. by exists r.
Qed.

End ValidationLemmas.

(** ** Interleaved validations *)

Section StageLemmas.
Context {P : Profile} {U : UniswapMath} {C : OrderCrypto} {F : StateFetchUtils} {FL : FetchLaws}.
Context {O : Type} `{!RawPoolOrder O} (into : O -> AllOrders) (o : O) (block : Z).

Definition token_known (a : UserAccounts) (u : Address) (t : Address) : Prop :=
  exists base, last_known_state a !! u = Some base /\ is_Some (token_approval base !! t).

Definition stage_pool (st : Stage) : UserOrderPoolInfo :=
  match st with
  | Conflicts pi | Cancelling pi _ _ | Loading pi _ | Reading pi _ | Pushing pi _ _ | Collecting pi _ _ => pi
  end.

(** What a task has established at a stage. *)
Definition stage_ok (a : UserAccounts) (st : Stage) : Prop :=
  order_wf o /\ statically_valid o /\ token_in o = upi_token (stage_pool st) /\
  match st with
  | Pushing _ _ act =>
      action_ok act /\ vp_respend (order_priority act) = respend_avoidance_strategy o /\ token_known a (from o) (token_address act)
  | Collecting _ _ act => token_known a (from o) (token_address act) /\ is_Some (pending_actions a !! from o)
  | _ => True
  end.

(** Accounts only learn while tasks run. *)
Definition grows (a a' : UserAccounts) : Prop :=
  forall u, (is_Some (pending_actions a !! u) -> is_Some (pending_actions a' !! u)) /\
    forall t, token_known a u t -> token_known a' u t.

Lemma stage_grows a a' st : grows a a' -> stage_ok a st -> stage_ok a' st.
Proof.
  intros Hg (Hw & Hs & Ht & H). repeat (split; [done |]). destruct (Hg (from o)) as [Hp Hk]. destruct st; naive_solver.
Qed.

Lemma grows_refl a : grows a a.
Proof. by split. Qed.

Lemma grows_cancel a u h : grows a (cancel_order a u h).2.
Proof.
  intros v. unfold cancel_order, token_known. destruct (pending_actions a !! u) as [l |] eqn:E; [| done].
  cbn. split; [| done]. intros H. destruct (decide (u = v)) as [<- | Hne]; [by rewrite lookup_insert_eq | by rewrite lookup_insert_ne].
Qed.

Lemma grows_push a u act : grows a (push_pending_action a u act) /\ is_Some (pending_actions (push_pending_action a u act) !! u).
Proof.
  split; [| cbn; by rewrite lookup_insert_eq]. intros v. split; [| done]. intros H. cbn.
  destruct (decide (u = v)) as [<- | Hne]; [by rewrite lookup_insert_eq | by rewrite lookup_insert_ne].
Qed.

Lemma grows_load a u t a' : load_state_for a u t = Ok a' -> grows a a'.
Proof.
  intros H. unfold load_state_for in H. apply M_bind_Ok in H as (fe & _ & H). destruct fe as [x |]; [| done].
  cbn [ok_or M_bind] in H. apply M_bind_Ok in H as (y & _ & H). injection H as <-. intros v. split; [done |].
  intros t' (base & Hb & Ht). unfold token_known. cbn. destruct (decide (u = v)) as [<- | Hne].
  - rewrite lookup_insert_eq, Hb. cbn. eexists. split; [done |]. cbn. destruct (decide (t = t')) as [<- | Hne];
      [by rewrite lookup_insert_eq | by rewrite lookup_insert_ne].
  - rewrite lookup_insert_ne by done. by exists base.
Qed.

(** The action of a supported order. *)
Lemma supported_action l pi act :
  order_wf o -> can_support_order l o pi = Ok (inr act) ->
  action_ok act /\ vp_respend (order_priority act) = respend_avoidance_strategy o /\ token_address act = upi_token pi.
Proof.
  intros Hw Es. unfold can_support_order in Es. destruct (negb _); [done |].
  destruct (fetch_amount_in o) as [q | |] eqn:Eq; cbn [M_bind] in Es; [| done ..].
  apply fetch_amount_in_u128 in Eq; [| done]. assert (H0 : u128 0) by (split; [done | by vm_compute]).
  destruct (use_internal o).
  - destruct (_ <? _); [by destruct (to_u128 _) |]. by injection Es as <-.
  - destruct (_ <? _), (_ <? _); repeat (destruct (to_u128 _); cbn [M_bind] in Es; try done). by injection Es as <-.
Qed.

Lemma decide_stage pi con l a x p :
  acc_ok a -> order_wf o -> statically_valid o -> token_in o = upi_token pi ->
  try_fetch_live_pending_state a (from o) (upi_token pi) p = Some l -> decide_order into o block pi con l = Ok x ->
  forall st, x = inr st -> stage_ok a st.
Proof.
  intros Ha Hw Hs Ht Hl H st ->. unfold decide_order in H. apply M_bind_Ok in H as ([e | act] & Hc & H).
  { unfold store in H. by apply M_bind_Ok in H as (? & _ & ?). }
  injection H as <-. destruct (supported_action l pi act Hw Hc) as (H1 & H2 & H3).
  destruct (live_basic a (from o) _ p l Ha Hl) as [_ (base & Hb & _ & Hk)]. repeat (split; [done |]).
  exists base. by rewrite H3.
Qed.

Lemma access_ok st a x a' :
  acc_ok a -> stage_ok a st -> access into o block st a = Ok (x, a') ->
  acc_ok a' /\ grows a a' /\ forall st', x = inr st' -> stage_ok a' st'.
Proof.
  intros Ha (Hw & Hs & Ht & Hst) H.
  destruct st as [pi | pi con [| c todo] | pi con | pi con | pi con act | pi con act]; cbn [access stage_pool] in *.
  - destruct (existsb _ _); injection H as <- <-; (split; [done |]); (split; [apply grows_refl |]); [done |]. by intros st' [= <-].
  - destruct (try_fetch_live_pending_state _ _ _ _) as [l |] eqn:El.
    + apply M_bind_Ok in H as (y & Hd & H). injection H as <- <-. split; [done |]. split; [apply grows_refl |].
      by eapply decide_stage.
    + injection H as <- <-. split; [done |]. split; [apply grows_refl |]. by intros st' [= <-].
  - injection H as <- <-. split; [by apply cancel_ok |]. split; [apply grows_cancel |]. by intros st' [= <-].
  - destruct (load_state_for a (from o) (upi_token pi)) as [a1 | e |] eqn:El; [| injection H as <- <- | done].
    + injection H as <- <-. split; [by eapply load_ok |]. split; [by eapply grows_load |]. by intros st' [= <-].
    + split; [done |]. by split; [apply grows_refl |].
  - destruct (try_fetch_live_pending_state _ _ _ _) as [l |] eqn:El.
    + apply M_bind_Ok in H as (y & Hd & H). injection H as <- <-. split; [done |]. split; [apply grows_refl |].
      by eapply decide_stage.
    + injection H as <- <-. split; [done |]. by split; [apply grows_refl |].
  - destruct Hst as (Hact & Hr & Hk). injection H as <- <-. split; [exact (push_pending_ok a (from o) act Ha Hact) |].
    destruct (grows_push a (from o) act) as [Hg Hsome]. split; [exact Hg |]. intros st' [= <-].
    split; [done |]. split; [done |]. split; [done |]. split; [exact (proj2 (Hg (from o)) _ Hk) | exact Hsome].
  - apply M_bind_Ok in H as (bad & _ & H). unfold store in H. rewrite M_bind_Ok in H. destruct H as (y & Hy & H).
    apply M_bind_Ok in Hy as (z & _ & Hy). injection Hy as <-. injection H as <- <-. split; [done |]. by split; [apply grows_refl |].
Qed.

(** Without overflow checks an access returns. *)
Lemma checked_u_wraps w x : overflow_checks = false -> exists y, checked_u w x = Ok y.
Proof. intros H. unfold checked_u. rewrite H. destruct (fits_u w x); by eexists. Qed.

Lemma amount_in_returns : overflow_checks = false -> statically_valid o -> exists q, fetch_amount_in o = Ok q.
Proof.
  intros Hc (_ & _ & (p & Hp & Hp0 & _) & _). unfold fetch_amount_in. rewrite Hp. cbn [M_bind].
  assert (Hi : forall q, exists r, Ray.inverse_quantity p q true = Ok r).
  { intros q. unfold Ray.inverse_quantity, div_round. rewrite (proj2 (Z.eqb_neq _ _) Hp0). by eexists. }
  destruct (is_bid o), (exact_in o); [by eexists | | by eexists |].
  - destruct (checked_u_wraps 128 (amount o + max_gas_token_0 o) Hc) as [y Hy]. unfold u128_add. rewrite Hy. apply Hi.
  - destruct (Hi (amount o)) as [q ->]. cbn [M_bind]. by apply checked_u_wraps.
Qed.

Lemma decide_returns a pi con l p :
  overflow_checks = false -> acc_ok a -> order_wf o -> statically_valid o -> token_in o = upi_token pi ->
  try_fetch_live_pending_state a (from o) (upi_token pi) p = Some l -> exists x, decide_order into o block pi con l = Ok x.
Proof.
  intros Hc Ha Hw Hs Ht Hl. destruct (amount_in_returns Hc Hs) as [q Hq]. destruct Hs as (_ & _ & (lp & Hlp & _) & _).
  destruct (live_basic a (from o) _ p l Ha Hl) as [(Htok & L1 & L2 & L3) _]. unfold decide_order, store, into_order_storage_with_data.
  destruct (can_support_spec l o q pi) as [[_ ->] | [_ [e ->]]]; [congruence | done | by eapply fetch_amount_in_u128 | done .. | |];
    cbn [M_bind]; rewrite ?Hlp; by eexists.
Qed.

Lemma access_returns st a :
  overflow_checks = false -> acc_ok a -> stage_ok a st -> exists v, access into o block st a = Ok v.
Proof.
  intros Hc Ha (Hw & Hs & Ht & Hst).
  destruct st as [pi | pi con [| c todo] | pi con | pi con | pi con act | pi con act]; cbn [access stage_pool] in *; try (by eexists).
  - destruct (existsb _ _); by eexists.
  - destruct (try_fetch_live_pending_state _ _ _ _) as [l |] eqn:El; [| by eexists].
    destruct (decide_returns a pi con l _ Hc Ha Hw Hs Ht El) as [x ->]. by eexists.
  - pose proof (approval_answers (from o) (upi_token pi)). pose proof (balance_answers (from o) (upi_token pi)).
    unfold load_state_for. destruct (fetch_approval_balance_for_token _ _) as [[x |] | |]; cbn [M_bind ok_or]; try done; try (by eexists).
    destruct (fetch_balance_for_token _ _); cbn [M_bind]; [by eexists .. | done].
  - destruct (try_fetch_live_pending_state _ _ _ _) as [l |] eqn:El; [| by eexists].
    destruct (decide_returns a pi con l _ Hc Ha Hw Hs Ht El) as [x ->]. by eexists.
  - destruct Hst as [(base & Hb & Hk) [l Hp]]. destruct Ha as [_ Ha]. unfold fetch_all_invalidated_orders. rewrite Hb.
    destruct (Ha _ _ Hb (token_address act)) as [[E _] | (x & y & z & -> & -> & -> & _)]; [rewrite E in Hk; by destruct Hk |].
    rewrite Hp. cbn [unwrap M_bind]. unfold store, into_order_storage_with_data.
    destruct Hs as (_ & _ & (lp & -> & _) & _). cbn [M_bind]. by eexists.
Qed.

(** A task begins unless a check of the order itself panics. *)
Lemma begin_stage t st : order_wf o -> begin_order o block t = Ok (inr st) -> forall a, stage_ok a st.
Proof.
  intros Hw H a. unfold begin_order in H. apply M_bind_Ok in H as ([e | pi] & Hs & H); [done |].
  apply M_bind_Ok in H as ([e |] & _ & H); [done |]. destruct (has_hook o); [done |]. injection H as <-.
  apply check_static_spec in Hs as (_ & Hv & (e & _ & ->)%pool_info_spec). done.
Qed.

Lemma begin_conflicts t st : begin_order o block t = Ok (inr st) -> st = Conflicts (stage_pool st).
Proof.
  intros H. unfold begin_order in H. apply M_bind_Ok in H as ([e | pi] & _ & H); [done |].
  apply M_bind_Ok in H as ([e |] & _ & H); [done |]. destruct (has_hook o); [done |]. by injection H as <-.
Qed.

Lemma begin_returns t x : overflow_checks = false -> check_static t o = Ok x -> exists y, begin_order o block t = Ok y.
Proof.
  intros Hc Hs. unfold begin_order. rewrite Hs. cbn [M_bind]. destruct x as [e | pi]; [by eexists |].
  unfold check_respend. destruct (respend_avoidance_strategy o) as [n | b].
  - pose proof (nonce_answers (from o) n). destruct (is_valid_nonce (from o) n) as [[] | |]; try done; by eexists.
  - destruct (checked_u_wraps 64 (block + 1) Hc) as [y ->]. cbn [M_bind]. destruct (y =? b); cbn [M_bind]; by eexists.
Qed.

(** *** Actions per nonce *)

(** Whether a task is past reading the conflicts and not yet past its insertion. *)
Definition counts (x : OrderValidationResults + Stage) : bool :=
  match x with inr (Cancelling _ _ _ | Loading _ _ | Reading _ _ | Pushing _ _ _) => true | _ => false end.

(** The actions a task is about to cancel. *)
Definition todo_of (x : OrderValidationResults + Stage) : list PendingUserAction :=
  match x with inr (Cancelling _ _ todo) => todo | _ => [] end.

Definition targets (todo : list PendingUserAction) (p : PendingUserAction) : bool := existsb (fun c => pa_hash c =? pa_hash p) todo.

(** Actions with a nonce that stay when [K] and the actions of [todo] go. *)
Definition staying (n : Z) (K : PendingUserAction -> bool) (todo l : list PendingUserAction) : nat :=
  length (List.filter (fun p => negb (K p || targets todo p)) (with_nonce n l)).

Definition adds (n : Z) (x : OrderValidationResults + Stage) : nat :=
  if counts x && bool_decide (respend_avoidance_strategy o = Nonce n) then 1%nat else 0%nat.

Lemma filter_len_mono {A} (f g : A -> bool) (l : list A) :
  (forall x, x ∈ l -> f x = true -> g x = true) -> (length (List.filter f l) <= length (List.filter g l))%nat.
Proof.
  induction l as [| x l IH]; intros H; [done |]. cbn [List.filter].
  assert (IH' := IH (fun y Hy => H y (list_elem_of_further _ _ _ Hy))).
  destruct (f x) eqn:E; [rewrite (H x (list_elem_of_here _ _) E); cbn; lia |]. destruct (g x); cbn; lia.
Qed.

Lemma filter_filter {A} (f g : A -> bool) (l : list A) : List.filter f (List.filter g l) = List.filter (fun x => g x && f x) l.
Proof. induction l as [| x l IH]; [done |]. cbn [List.filter]. destruct (g x); cbn [List.filter andb]; by rewrite IH. Qed.

Lemma staying_same n K todo l : (staying n K [] l >= staying n K todo l)%nat.
Proof. apply filter_len_mono. intros x _ Hx. unfold targets at 1. cbn. rewrite orb_false_r. destruct (K x); done. Qed.

Lemma staying_cancel n K c todo l :
  (staying n K todo (List.filter (fun p => negb (pa_hash p =? pa_hash c)%Z) l) <= staying n K (c :: todo) l)%nat.
Proof.
  unfold staying, with_nonce. rewrite !filter_filter. apply filter_len_mono. intros x _ Hx.
  apply andb_true_iff in Hx as [Hc Hx]. apply andb_true_iff in Hx as [Hn Hx]. rewrite Hn. cbn [andb]. unfold targets in *. cbn [existsb].
  by rewrite (Z.eqb_sym (pa_hash c)), (proj1 (negb_true_iff _) Hc).
Qed.

Lemma staying_push n K l act :
  (staying n K [] (sort_by action_cmp (l ++ [act])) <=
   staying n K [] l + if bool_decide (vp_respend (order_priority act) = Nonce n) then 1 else 0)%nat.
Proof.
  unfold staying, with_nonce. rewrite (filter_perm _ _ _ (filter_perm _ _ _ (sort_by_perm _ _))), !List.filter_app, length_app. cbn [List.filter].
  case_bool_decide; cbn [List.filter]; [destruct (negb _) |]; cbn [length]; lia.
Qed.

Lemma decide_todo pi con lv y : decide_order into o block pi con lv = Ok y -> todo_of y = [].
Proof.
  intros Hy. unfold decide_order in Hy. apply M_bind_Ok in Hy as ([e | act] & _ & Hy).
  - unfold store in Hy. apply M_bind_Ok in Hy as (? & _ & Hy). by injection Hy as <-.
  - by injection Hy as <-.
Qed.

Lemma load_pending a u t a1 : load_state_for a u t = Ok a1 -> pending_actions a1 = pending_actions a.
Proof.
  intros H. unfold load_state_for in H. apply M_bind_Ok in H as (fe & _ & H). apply M_bind_Ok in H as (x1 & _ & H).
  apply M_bind_Ok in H as (y1 & _ & H). by injection H as <-.
Qed.

(** An access leaves no more actions of a nonce than there were, unless it is the one
    that reads the conflicts: then all of them are about to be cancelled. *)
Lemma access_count n K st a x a' :
  stage_ok a st -> access into o block st a = Ok (x, a') ->
  let l a := default [] (pending_actions a !! from o) in
  (staying n K (todo_of x) (l a') + adds n x <= staying n K (todo_of (inr st)) (l a) + adds n (inr st))%nat \/
  staying n K (todo_of x) (l a') = 0%nat /\ st = Conflicts (stage_pool st).
Proof.
  intros (_ & _ & _ & Hst) H l. unfold adds.
  destruct st as [pi | pi con [| c todo] | pi con | pi con | pi con act | pi con act]; cbn [access stage_pool] in *.
  - destruct (existsb _ _); injection H as <- <-; [left; done |]. cbn [todo_of counts].
    destruct (decide (respend_avoidance_strategy o = Nonce n)) as [E | E]; [right; split; [| done] | left; rewrite bool_decide_false by done].
    + unfold staying, respend_conflicts. rewrite E. fold (with_nonce n (l a)).
      destruct (List.filter _ (with_nonce n (l a))) as [| p k] eqn:Ef; [done | exfalso].
      assert (Hp : p ∈ p :: k) by apply list_elem_of_here. rewrite <- Ef in Hp. apply list_filter_in in Hp as [Hp Hn].
      apply negb_true_iff, orb_false_iff in Hn as [_ Hn]. unfold targets in Hn.
      apply not_true_iff_false in Hn. apply Hn, existsb_exists. exists p. split; [by apply list_elem_of_In | apply Z.eqb_refl].
    + cbn [andb]. pose proof (staying_same n K (respend_conflicts a (from o) (respend_avoidance_strategy o)) (l a)). cbn [todo_of]. lia.
  - destruct (try_fetch_live_pending_state _ _ _ _) as [lv |]; [| injection H as <- <-; by left].
    apply M_bind_Ok in H as (y & Hd & H). injection H as <- <-. left. rewrite (decide_todo _ _ _ _ Hd). cbn [counts todo_of andb].
    destruct (counts y), (bool_decide _); cbn [andb]; lia.
  - injection H as <- <-. left. cbn [counts todo_of]. apply Nat.add_le_mono_r.
    replace (l (cancel_order a (from o) (pa_hash c)).2) with (List.filter (fun p => negb (pa_hash p =? pa_hash c)) (l a));
      [apply staying_cancel |].
    unfold l, cancel_order. destruct (pending_actions a !! from o) eqn:E; cbn; [by rewrite lookup_insert_eq | by rewrite E].
  - destruct (load_state_for a (from o) (upi_token pi)) as [a1 | e |] eqn:El; [| injection H as <- <- | done].
    + injection H as <- <-. left. unfold l. by rewrite (load_pending a _ _ a1 El).
    + left. cbn [counts todo_of refuse andb]. lia.
  - destruct (try_fetch_live_pending_state _ _ _ _) as [lv |]; [| injection H as <- <-; left; cbn [counts todo_of refuse andb]; lia].
    apply M_bind_Ok in H as (y & Hd & H). injection H as <- <-. left. rewrite (decide_todo _ _ _ _ Hd). cbn [counts todo_of andb].
    destruct (counts y), (bool_decide _); cbn [andb]; lia.
  - destruct Hst as (_ & <- & _). injection H as <- <-. left. cbn [counts todo_of andb].
    pose proof (staying_push n K (l a) act) as Hp.
    replace (l _) with (sort_by action_cmp (l a ++ [act])) by (unfold l; cbn; by rewrite lookup_insert_eq).
    destruct (bool_decide _); lia.
  - apply M_bind_Ok in H as (bad & _ & H). apply M_bind_Ok in H as (y & Hy & H). injection H as <- <-. left.
    unfold store in Hy. apply M_bind_Ok in Hy as (z & _ & Hy). injection Hy as <-. done.
Qed.

End StageLemmas.

Section Runs.
Context {P : Profile} {U : UniswapMath} {C : OrderCrypto}.
Context `{!RawPoolOrder TopOfBlockOrder, !RawPoolOrder AllOrders} {TU : TobUser}.

Definition task_ok (t : OrderTask) : Prop := for_order (task_order t) (fun O _ _ o => order_wf o).

Definition task_respend (t : OrderTask) : RespendAvoidanceMethod :=
  for_order (task_order t) (fun O _ _ o => respend_avoidance_strategy o).

(** What happens to the validator: a task runs, with a chain that may answer differently
    each time; an order arrives; an order is cancelled; the pools change; a block arrives,
    which the order pool announces when it has no validation outstanding. *)
Inductive validator_step (permits : nat) : StateValidation * TaskPool -> StateValidation * TaskPool -> Prop :=
| tasks_run (F : StateFetchUtils) (FL : @FetchLaws F) snapshots c c' : pool_step snapshots permits c c' -> validator_step permits c c'
| order_arrived s w run res t : task_ok t -> validator_step permits (s, mkTaskPool w run res) (s, mkTaskPool (w ++ [t]) run res)
| order_cancelled s p user hash : validator_step permits (s, p) (sv_cancel_order s user hash, p)
| pools_changed s p tracker : validator_step permits (s, p) (mkStateValidation (user_account_tracker s) tracker, p)
| block_arrived s res orders addresses :
    validator_step permits (s, mkTaskPool [] [] res) (sv_new_block s orders addresses, mkTaskPool [] [] res).

Definition running_ok (a : UserAccounts) (r : OrderTask * Stage) : Prop :=
  for_order (task_order r.1) (fun O _ _ o => stage_ok o a r.2).

(** What one task does to the actions of a user with a nonce: those it is about to
    cancel, and the one it may insert. *)
Definition targets_of (u : Address) (r : OrderTask * Stage) (p : PendingUserAction) : bool :=
  (task_user r.1 =? u) && targets (todo_of (inr r.2)) p.

Definition inserts (u n : Z) (r : OrderTask * Stage) : nat :=
  if (task_user r.1 =? u) && counts (inr r.2) && bool_decide (task_respend r.1 = Nonce n) then 1 else 0.

Definition nonce_load (a : UserAccounts) (run : list (OrderTask * Stage)) (u n : Z) : nat :=
  (staying n (fun p => existsb (fun r => targets_of u r p) run) [] (default [] (pending_actions a !! u)) +
   list_sum (map (inserts u n) run))%nat.

Definition validator_inv (permits : nat) (c : StateValidation * TaskPool) : Prop :=
  let a := user_account_tracker c.1 in
  acc_ok a /\ Forall task_ok (tp_waiting c.2) /\ Forall (running_ok a) (tp_running c.2) /\
  forall u, (permits_taken (tp_running c.2) u <= permits)%nat /\ forall n, (nonce_load a (tp_running c.2) u n <= permits)%nat.

Lemma running_grows a a' run : grows a a' -> Forall (running_ok a) run -> Forall (running_ok a') run.
Proof.
  intros Hg H. eapply Forall_impl; [exact H |]. intros [t st]. unfold running_ok. cbn [fst snd].
  destruct (for_order_case t) as (O & R & into & o & _ & _ & E). rewrite !E. by apply stage_grows.
Qed.

(** A user's list shrinks: so does its load. *)
Lemma nonce_load_filter a a' run u n f :
  default [] (pending_actions a' !! u) = List.filter f (default [] (pending_actions a !! u)) ->
  (nonce_load a' run u n <= nonce_load a run u n)%nat.
Proof.
  intros H. unfold nonce_load. apply Nat.add_le_mono_r. rewrite H. unfold staying, with_nonce. rewrite !filter_filter.
  apply filter_len_mono. intros x _ Hx. by apply andb_true_iff in Hx as [_ Hx].
Qed.

Lemma existsb_middle {A} (f : A -> bool) l1 x l2 : existsb f (l1 ++ x :: l2) = f x || existsb f (l1 ++ l2).
Proof. rewrite !existsb_app. cbn [existsb]. by destruct (existsb f l1), (f x). Qed.

Lemma list_sum_middle {A} (f : A -> nat) l1 x l2 : list_sum (map f (l1 ++ x :: l2)) = (f x + list_sum (map f (l1 ++ l2)))%nat.
Proof. rewrite !map_app, !list_sum_app. cbn [map]. change (list_sum (f x :: map f l2)) with (f x + list_sum (map f l2))%nat. lia. Qed.

(** The load of a pool, with one running task apart. *)
Lemma nonce_load_split a r1 t st r2 u n :
  nonce_load a (r1 ++ (t, st) :: r2) u n =
  (if (task_user t =? u)%Z
   then staying n (fun p => existsb (fun r => targets_of u r p) (r1 ++ r2)) (todo_of (inr st)) (default [] (pending_actions a !! u)) +
        (if counts (inr st) && bool_decide (task_respend t = Nonce n) then 1 else 0) + list_sum (map (inserts u n) (r1 ++ r2))
   else nonce_load a (r1 ++ r2) u n)%nat.
Proof.
  unfold nonce_load. rewrite list_sum_middle. destruct (task_user t =? u) eqn:Eu.
  - unfold inserts at 1. cbn [fst snd]. rewrite Eu. cbn [andb]. rewrite Nat.add_assoc. do 2 f_equal.
    unfold staying. f_equal. apply List.filter_ext. intros p. f_equal. change (targets [] p) with false.
    rewrite existsb_middle, orb_false_r, orb_comm. unfold targets_of at 2. cbn [fst snd]. by rewrite Eu.
  - unfold inserts at 1. cbn [fst snd]. rewrite Eu. cbn [andb]. f_equal. unfold staying. f_equal. apply List.filter_ext. intros p.
    rewrite existsb_middle. unfold targets_of at 1. cbn [fst]. by rewrite Eu.
Qed.

Lemma permits_middle r1 t st r2 u :
  permits_taken (r1 ++ (t, st) :: r2) u = ((if (task_user t =? u)%Z then 1 else 0) + permits_taken (r1 ++ r2) u)%nat.
Proof. unfold permits_taken. rewrite !List.filter_app, !length_app. cbn [List.filter fst]. destruct (task_user t =? u); cbn [length]; lia. Qed.

(** At most as many insertions are under way as permits are taken. *)
Lemma inserts_permits run u n : (list_sum (map (inserts u n) run) <= permits_taken run u)%nat.
Proof.
  induction run as [| r run IH]; [done |]. unfold permits_taken in *. cbn [map List.filter]. unfold inserts at 1.
  destruct (task_user r.1 =? u); cbn [andb length]; [| exact IH].
  destruct (counts _ && bool_decide _); cbn [list_sum fold_right]; unfold list_sum in IH; lia.
Qed.

(** A running task makes an access and goes on to [x]. *)
Definition moved (r1 : list (OrderTask * Stage)) (t : OrderTask) (x : OrderValidationResults + Stage) (r2 : list (OrderTask * Stage)) :
    list (OrderTask * Stage) :=
  match x with inl _ => r1 ++ r2 | inr st => r1 ++ (t, st) :: r2 end.

Lemma nonce_load_moved a r1 t x r2 u n :
  nonce_load a (moved r1 t x r2) u n =
  (if (task_user t =? u)%Z
   then staying n (fun p => existsb (fun r => targets_of u r p) (r1 ++ r2)) (todo_of x) (default [] (pending_actions a !! u)) +
        (if counts x && bool_decide (task_respend t = Nonce n) then 1 else 0) + list_sum (map (inserts u n) (r1 ++ r2))
   else nonce_load a (r1 ++ r2) u n)%nat.
Proof.
  destruct x as [r | st]; [| apply nonce_load_split]. cbn [moved todo_of counts andb]. unfold nonce_load. destruct (task_user t =? u); lia.
Qed.

Lemma access_inv {F : StateFetchUtils} {FL : FetchLaws} permits a r1 t st r2 x a' :
  acc_ok a -> Forall (running_ok a) (r1 ++ (t, st) :: r2) -> task_access t st a = Ok (x, a') ->
  (forall u, (permits_taken (r1 ++ (t, st) :: r2) u <= permits)%nat /\ forall n, (nonce_load a (r1 ++ (t, st) :: r2) u n <= permits)%nat) ->
  acc_ok a' /\ Forall (running_ok a') (moved r1 t x r2) /\
  forall u, (permits_taken (moved r1 t x r2) u <= permits)%nat /\ forall n, (nonce_load a' (moved r1 t x r2) u n <= permits)%nat.
Proof.
  intros Ha Hrun Hacc Hcnt. pose proof (task_access_frame t st a x a' Hacc) as Hframe.
  apply Forall_app in Hrun as [H1 H2]. apply Forall_cons in H2 as [Ht H2].
  unfold running_ok in Ht. unfold task_access in Hacc.
  destruct (for_order_case t) as (O & R & into & o & Hu & _ & E). rewrite E in Ht, Hacc. cbn [fst snd] in Ht.
  destruct (access_ok into o (task_block t) st a x a' Ha Ht Hacc) as (Ha' & Hg & Hst). split; [done |]. split.
  { assert (Hrest : Forall (running_ok a') (r1 ++ r2)) by (apply (running_grows a); [done |]; by apply Forall_app).
    destruct x as [r | st']; [done |]. cbn [moved]. apply Forall_app in Hrest as [K1 K2]. apply Forall_app. split; [done |].
    constructor; [| done]. unfold running_ok. cbn [fst snd]. rewrite E. by apply Hst. }
  intros u. destruct (Hcnt u) as [Hp Hn]. rewrite permits_middle in Hp. split.
  { destruct x as [r | st']; cbn [moved]; [| by rewrite permits_middle]. destruct (task_user t =? u); lia. }
  intros n. specialize (Hn n). rewrite nonce_load_split in Hn. rewrite nonce_load_moved.
  assert (Hresp : task_respend t = respend_avoidance_strategy o) by (unfold task_respend; by rewrite E).
  destruct (task_user t =? u) eqn:Eu; [apply Z.eqb_eq in Eu as <- | apply Z.eqb_neq in Eu].
  - destruct (access_count into o (task_block t) n (fun p => existsb (fun r => targets_of (task_user t) r p) (r1 ++ r2)) st a x a' Ht Hacc)
      as [Hle | [H0 _]]; unfold adds in *; rewrite Hresp in *; rewrite Hu in *; [lia |].
    pose proof (inserts_permits (r1 ++ r2) (task_user t) n). rewrite H0. destruct (counts x && _); lia.
  - rewrite Hframe. unfold nonce_load. unfold put at 1. cbn [pending_actions]. by rewrite lookup_partial_alter_ne.
Qed.

Lemma deletes_lookup {V} us (m : gmap Z V) (u : Z) :
  fold_left (fun m u => delete u m) us m !! u = m !! u \/ fold_left (fun m u => delete u m) us m !! u = None.
Proof.
  revert m. induction us as [| v us IH]; intros m; [by left |]. cbn [fold_left]. destruct (IH (delete v m)) as [-> | ->]; [| by right].
  destruct (decide (v = u)) as [<- | Hne]; [right; apply lookup_delete_eq | left; by apply lookup_delete_ne].
Qed.

(** Cancellations and blocks only take actions away. *)
Lemma cancel_filters a v h u :
  exists f, default [] (pending_actions (cancel_order a v h).2 !! u) = List.filter f (default [] (pending_actions a !! u)).
Proof.
  assert (Hid : List.filter (fun _ => true) (default [] (pending_actions a !! u)) = default [] (pending_actions a !! u)) by by apply filter_true.
  unfold cancel_order. destruct (pending_actions a !! v) as [l |] eqn:E; cbn; [| by eexists; rewrite Hid].
  destruct (decide (v = u)) as [<- | Hne]; [rewrite lookup_insert_eq, E; by eexists | rewrite lookup_insert_ne by done].
  by eexists; rewrite Hid.
Qed.

Lemma block_filters a users orders u :
  exists f, default [] (pending_actions (prepare_for_new_block a users orders) !! u) = List.filter f (default [] (pending_actions a !! u)).
Proof.
  cbn. rewrite lookup_omap. destruct (deletes_lookup users (pending_actions a) u) as [-> | ->]; cbn.
  - exists (fun p => negb (existsb (Z.eqb (pa_hash p)) orders)). destruct (pending_actions a !! u) as [l |]; [| done]. cbn.
    fold (without_hashes orders l). by destruct (without_hashes orders l).
  - exists (fun _ => false). induction (default [] (pending_actions a !! u)) as [| x l IH]; [done | exact IH].
Qed.

Lemma validator_step_inv permits c c' : validator_step permits c c' -> validator_inv permits c -> validator_inv permits c'.
Proof.
  intros Hstep (Ha & Hw & Hr & Hn). destruct Hstep as [F FL snapshots c c' Hs | s w run res t Ht | s p user hash | s p tracker | s res orders addresses];
    unfold validator_inv in *; cbn [fst snd tp_waiting tp_running user_account_tracker with_accounts sv_cancel_order sv_new_block] in *.
  - destruct Hs as [s w1 t w2 run res r r' Hp Hb Hf | s w1 t w2 run res st Hp Hb | s w r1 t st r2 res st' a Hacc
      | s w r1 t st r2 res r a r' Hacc Hf]; cbn [fst snd tp_waiting tp_running user_account_tracker with_accounts] in *.
    1-2: apply Forall_app in Hw as [W1 W2]; apply Forall_cons in W2 as [Wt W2].
    + repeat (split; [done || by apply Forall_app |]). done.
    + split; [done |]. split; [by apply Forall_app |]. split.
      * apply Forall_app. split; [done |]. constructor; [| done]. unfold running_ok, task_ok, task_begin in *.
        destruct (for_order_case t) as (O & R & into & o & _ & _ & E). rewrite E in *. by eapply begin_stage.
      * intros u. specialize (Hn u) as [Hn1 Hn2]. rewrite permits_middle, app_nil_r. split.
        -- destruct (Z.eqb_spec (task_user t) u) as [<- | _]; lia.
        -- intros n. rewrite nonce_load_split, app_nil_r. specialize (Hn2 n). unfold task_begin in Hb.
           destruct (for_order_case t) as (O & R & into & o & _ & _ & E). rewrite E in Hb.
           replace st with (Conflicts (stage_pool st)) by (symmetry; by eapply begin_conflicts). cbn [todo_of counts andb].
           rewrite Nat.add_0_r. by destruct (task_user t =? u).
    + destruct (access_inv permits _ _ _ _ _ _ _ Ha Hr Hacc Hn) as (H1 & H2 & H3). done.
    + destruct (access_inv permits _ _ _ _ _ _ _ Ha Hr Hacc Hn) as (H1 & H2 & H3). done.
  - split; [done |]. split; [| done]. apply Forall_app. by split; [| constructor].
  - split; [by apply cancel_ok |]. split; [done |]. split; [eapply running_grows; [apply grows_cancel | done] |].
    intros u. destruct (Hn u) as [Hn1 Hn2]. split; [done |]. intros n. etrans; [| apply (Hn2 n)].
    destruct (cancel_filters (user_account_tracker s) user hash u) as [f Hf]. by eapply nonce_load_filter.
  - done.
  - split; [by apply new_block_ok |]. split; [done |]. split; [done |]. intros u. destruct (Hn u) as [Hn1 Hn2]. split; [done |].
    intros n. etrans; [| apply (Hn2 n)]. destruct (block_filters (user_account_tracker s) addresses orders u) as [f Hf]. by eapply nonce_load_filter.
Qed.

Lemma reachable_inv permits tracker c :
  rtc (validator_step permits) (mkStateValidation UserAccounts_new tracker, mkTaskPool [] [] []) c -> validator_inv permits c.
Proof.
  intros H. assert (Hg : forall c0, rtc (validator_step permits) c0 c -> validator_inv permits c0 -> validator_inv permits c).
  { induction 1 as [| c1 c2 c3 Hs _ IH]; [done |]. intros Hx. by eapply IH, validator_step_inv. }
  apply (Hg _ H). split; [apply new_accounts_ok |]. split; [constructor |]. split; [constructor |]. intros u. split; [cbn; lia |].
  intros n. unfold nonce_load. cbn [fst snd user_account_tracker tp_running UserAccounts_new pending_actions]. rewrite lookup_empty. cbn. lia.
Qed.

(** When no task of the user is about to cancel anything, the load bounds its actions. *)
Lemma idle_nonce permits a run u n :
  (forall u, (permits_taken run u <= permits)%nat /\ forall n, (nonce_load a run u n <= permits)%nat) ->
  Forall (fun r => task_user r.1 = u -> todo_of (inr r.2) = []) run ->
  (length (with_nonce n (default [] (pending_actions a !! u))) <= permits)%nat.
Proof.
  intros Hn Ht. destruct (Hn u) as [_ Hl]. specialize (Hl n). unfold nonce_load, staying in Hl. rewrite (filter_true (fun p => negb (_ || _))) in Hl; [lia |].
  intros p. unfold targets at 1. cbn [existsb]. rewrite orb_false_r. apply negb_true_iff, not_true_iff_false. intros (r & Hr & Hx)%existsb_exists.
  apply list_elem_of_In in Hr. apply andb_true_iff in Hx as [Hu Hx]. apply Z.eqb_eq in Hu.
  rewrite Forall_forall in Ht. by rewrite (Ht r Hr Hu) in Hx.
Qed.

End Runs.

(** ** Properties *)

(** C3: The accounts through interleaved validations.  Tasks of any users run with the
    permits of the thread pool and interleave at every access to the accounts; orders
    arrive, are cancelled, pools change, and blocks arrive when no validation is
    outstanding.  In every state reached, whatever the chain answers, every user's pending
    actions are sorted by priority, amounts are in range and a token's approval, balance
    and internal balance are known together; once no task of a user is cancelling
    conflicts, the user has at most as many pending actions of a nonce as it has permits
    (with two permits, two is reached).  And in a build without overflow checks every
    running task's next access returns, as does the start of every waiting task whose
    order passes the order validators without a panic: the lookups the code unwraps are
    always there. *)
Theorem accounts_invariant {P : Profile} {U : UniswapMath} {C : OrderCrypto}
    `{!RawPoolOrder TopOfBlockOrder, !RawPoolOrder AllOrders} {TU : TobUser} permits tracker s p :
  rtc (validator_step permits) (mkStateValidation UserAccounts_new tracker, mkTaskPool [] [] []) (s, p) ->
  let a := user_account_tracker s in
  acc_ok a /\
  (forall u n, Forall (fun r => task_user r.1 = u -> todo_of (inr r.2) = []) (tp_running p) ->
     (length (with_nonce n (default [] (pending_actions a !! u))) <= permits)%nat) /\
  (overflow_checks = false -> forall (F : StateFetchUtils) (FL : @FetchLaws F),
     Forall (fun r => exists next, task_access r.1 r.2 a = Ok next) (tp_running p) /\
     Forall (fun t => forall x, for_order (task_order t) (fun O _ _ o => check_static (pool_tacker s) o) = Ok x ->
       exists next, task_begin (pool_tacker s) t = Ok next) (tp_waiting p)).
Proof.
  intros Hrun a. destruct (reachable_inv permits tracker (s, p) Hrun) as (Ha & _ & Hr & Hn). cbn [fst snd] in *.
  split; [done |]. split; [intros u n Ht; by eapply idle_nonce |]. intros Hc F FL. split.
  - eapply Forall_impl; [exact Hr |]. intros [t st] Hst. unfold running_ok, task_access in *. cbn [fst snd] in *.
    destruct (for_order_case t) as (O & R & into & o & _ & _ & E). rewrite E in *. by apply access_returns.
  - apply Forall_forall. intros t _ x Hx. unfold task_begin.
    destruct (for_order_case t) as (O & R & into & o & _ & _ & E). rewrite E in *. by eapply begin_returns.
Qed.

(** C10: Users are validated independently, with any number of permits.  Of every run of
    the task pool, the part that concerns a user (its tasks, their results, its pending
    actions and known balances) is a run of that user's tasks alone, from the same state;
    the tasks of the others do not show.  So a user with one order in the pool gets the
    result, and ends with the accounts, of the whole sequential validation of that order,
    however the accesses of other users' tasks fall between its own. *)
Theorem users_independent {P : Profile} {U : UniswapMath} {C : OrderCrypto} {F : StateFetchUtils}
    `{!RawPoolOrder TopOfBlockOrder, !RawPoolOrder AllOrders} {TU : TobUser} snapshots permits s p s' p' u :
  rtc (pool_step snapshots permits) (s, p) (s', p') ->
  let own := with_accounts s (put u (user_account_tracker s') (user_account_tracker s)) in
  rtc (pool_step snapshots permits) (s, of_user u p) (own, of_user u p') /\
  forall t res, of_user u p = mkTaskPool [t] [] [] -> of_user u p' = mkTaskPool [] [] res ->
    exists r, res = [(t, r)] /\ run_task snapshots s t = Ok (r, own).
Proof.
  intros Hrun own. destruct (user_run snapshots permits (s, p) (s', p') u (user_account_tracker s) Hrun) as [Ht Hu]. cbn [fst snd] in *.
  rewrite put_self in Hu. replace (with_accounts s' _) with own in Hu by (unfold own, with_accounts; by rewrite Ht).
  replace (with_accounts s _) with s in Hu by by destruct s. split; [done |]. intros t res E E'. rewrite E, E' in Hu. by eapply alone_run.
Qed.

(** What an order that validation accepts satisfies, and what is stored of it. *)
Definition accepted_as {P : Profile} {U : UniswapMath} {C : OrderCrypto} {F : StateFetchUtils}
    `{!RawPoolOrder TopOfBlockOrder, !RawPoolOrder AllOrders} {O} `{!RawPoolOrder O} snapshots (s : StateValidation) (t : OrderTask) (o : O)
    (st : OrderWithStorageData AllOrders) : Prop :=
  let t0 := Z.min (token_in o) (token_out o) in
  let t1 := Z.max (token_in o) (token_out o) in
  is_valid_signature o = true /\ has_hook o = false /\ check_respend o (task_block t) = Ok None /\ min_amount o <> 0 /\
  exists p e units charge q reward st0,
    limit_price o = Ok p /\ p <> 0 /\ Ray.within_sqrt_price_bounds p = Ok true /\
    get_entry (apt_pool_store (pool_tacker s)) t0 t1 = Some e /\
    task_gas t = Ok (units, charge) /\ min_qty_t0 o = Ok (Some q) /\ charge <= max_gas_token_0 o <= q /\
    priority_data st = mkOrderPriorityData p (amount o) (uint_add 256 0 charge) units /\
    pool_id st = pool_key_id t0 t1 (ce_fee_in_e6 e) (ce_tick_spacing e) (apt_angstrom_address (pool_tacker s)) /\
    osd_is_bid st = is_bid o /\ is_valid st = true /\ valid_block st = task_block t /\ order_id st = from_all_orders o (pool_id st) /\
    st0 = mkOrderWithStorageData (task_order t) (mkOrderPriorityData p (amount o) 0 0) (invalidates st) (pool_id st) (currently_invalid st)
            (osd_is_bid st) true (task_block t) (order_id st) 0 /\
    rewarded snapshots t st0 reward /\ tob_reward st = reward.

(** C9: An order that validation accepts, a user's or a searcher's, satisfies every rule,
    and what is stored of it is determined.  It is signed by its sender, has an amount and
    a price within Uniswap's bounds; the gas it is charged is at most its limit, which is
    at most its least quantity; its pool is configured; its nonce or block is unused, and
    it has no hook.  It is stored with its limit price, its amount, the gas charged and
    the gas units as priority data, with that pool's identifier, its side, its block and
    its identifier, and with the reward of its swap against the pool's snapshot if it is a
    top-of-block order, none otherwise. *)
Theorem accepted_order_checked {P : Profile} {U : UniswapMath} {C : OrderCrypto} {F : StateFetchUtils}
    `{!RawPoolOrder TopOfBlockOrder, !RawPoolOrder AllOrders} {TU : TobUser} snapshots s t st s' :
  run_task snapshots s t = Ok (Valid st, s') ->
  order st = task_order t /\ for_order (task_order t) (fun O _ _ o => accepted_as snapshots s t o st).
Proof.
  intros Hrun. rewrite run_task_split in Hrun. destruct (for_order_case t) as (O & R & into & o & _ & Hinto & E). rewrite E in *.
  destruct (handle_regular_order into s o _) as [[r s1] | |] eqn:Eh; cbn [M_bind] in Hrun; [| done ..].
  destruct (finish_task snapshots t r) as [r' | |] eqn:Ef; cbn [M_bind] in Hrun; [| done ..]. injection Hrun as -> ->.
  destruct r as [st1 | h e |]; [| exfalso; by apply finish_invalid in Ef ..].
  destruct (accepted_facts into o _ s st1 s' Eh) as (pi & p & bad & cur & Hs & Hresp & Hh & Hp & ->). rewrite Hinto in *.
  apply finish_valid in Ef as (units & charge & reward & Hg & Hw & ->); [| done]. split; [done |].
  apply check_static_spec in Hs as (Hsig & (Hm & Hgas & (p' & Hp' & Hp0 & Hb) & q & Hq & Hle) & (e & He & ->)%pool_info_spec).
  rewrite Hp in Hp'. injection Hp' as <-. repeat (split; [done |]). exists p, e, units, charge, q, reward. eexists.
  repeat (split; [done |]). split; [| by repeat (split; [done |])].
  split; [| done]. unfold task_gas in Hg. rewrite E in Hg. by eapply calculate_gas_le.
Qed.

(** One signed order stops validation.  An order that passes the signature, amount,
    gas and price rules but whose largest amount is 0 panics in the task that validates
    it, whatever the state: the amount rule looks at the least amount only. *)
Theorem empty_order_panics {P : Profile} {U : UniswapMath} {C : OrderCrypto} {F : StateFetchUtils}
    `{!RawPoolOrder TopOfBlockOrder, !RawPoolOrder AllOrders} snapshots s t p :
  let o := task_order t in
  is_limit_order o = true -> is_valid_signature o = true -> amount o = 0 -> min_amount o <> 0 -> max_gas_token_0 o <> 0 ->
  limit_price o = Ok p -> p <> 0 -> Ray.within_sqrt_price_bounds p = Ok true ->
  run_task snapshots s t = Panic.
Proof.
  intros o Hlim Hsig Ha Hm Hg Hp Hp0 Hw. rewrite run_limit_task by done. fold o. unfold handle_regular_order, check_static.
  rewrite Hsig. cbn [negb]. by rewrite (validate_no_amount o p).
Qed.

(** An order refused for its gas keeps its pledge.  A funded order whose gas charge
    exceeds its limit is reported as invalid, but the tokens it would spend stay pledged,
    and every later order of the user with the same nonce and a hash that is not lower is
    refused as a duplicate of it. *)
Theorem gas_refusal_keeps_pledge {P : Profile} {U : UniswapMath} {C : OrderCrypto} {F : StateFetchUtils}
    `{!RawPoolOrder TopOfBlockOrder, !RawPoolOrder AllOrders} snapshots s t st s' e n :
  let o := task_order t in
  is_limit_order o = true -> handle_regular_order (fun o => o) s o (task_block t) = Ok (Valid st, s') ->
  currently_invalid st = None -> calculate_gas false (task_prices t) o = Err e -> respend_avoidance_strategy o = Nonce n ->
  run_task snapshots s t = Ok (Invalid (order_hash o) NotEnoughGas, s') /\
  (exists act, act ∈ default [] (pending_actions (user_account_tracker s') !! from o) /\ pa_hash act = order_hash o) /\
  forall o2 block2 pi2, from o2 = from o -> respend_avoidance_strategy o2 = Nonce n -> order_hash o <= order_hash o2 ->
    check_static (pool_tacker s') o2 = Ok (inr pi2) -> check_respend o2 block2 = Ok None -> has_hook o2 = false ->
    handle_regular_order (fun o => o) s' o2 block2 =
      Ok (Invalid (order_hash o2) (StateError (DuplicateNonce (order_hash o2))), s').
Proof.
  intros o Hlim Hh Hc Hg Hn. destruct (accepted_pledged s o _ st s' Hh Hc) as (act & Hin & Hhash & Hresp & Ho & Hpt).
  split; [| split; [by exists act |]].
  - rewrite run_limit_task by done. fold o. rewrite Hh. cbn [M_bind]. unfold add_gas_cost_or_invalidate, map_and_process, try_map_inner.
    cbn [M_bind expect_ok]. change (order (with_order st (order st))) with (order st). by rewrite Ho, Hg.
  - intros o2 block2 pi2 Hf Hn2 Hle Hs Hr Hk.
    destruct (conflict_refused s' o2 block2 pi2 act Hs Hr Hk) as (s2 & E & ->); [by rewrite Hf | congruence | by exists n | lia | done].
Qed.

(** *** Schedules *)

Section Schedules.
Context {P : Profile} {U : UniswapMath} {C : OrderCrypto} {F : StateFetchUtils}.
Context `{!RawPoolOrder TopOfBlockOrder, !RawPoolOrder AllOrders}.

(** Which task moves: a waiting one takes a permit, a running one makes its next access. *)
Inductive Event := Start (i : nat) | Move (i : nat).

Definition schedule_step (snapshots : PoolId -> list BaselinePoolState) (permits : nat) (c : StateValidation * TaskPool) (e : Event) :
    M (StateValidation * TaskPool) :=
  let (s, p) := c in
  match e with
  | Start i =>
      match tp_waiting p !! i with
      | None => Err "no such task"
      | Some t =>
          if (permits_taken (tp_running p) (task_user t) <? permits)%nat then
            let* x := task_begin (pool_tacker s) t in
            match x with
            | inl r => let* r := finish_task snapshots t r in
                       Ok (s, mkTaskPool (delete i (tp_waiting p)) (tp_running p) (tp_results p ++ [(t, r)]))
            | inr st => Ok (s, mkTaskPool (delete i (tp_waiting p)) (tp_running p ++ [(t, st)]) (tp_results p))
            end
          else Err "no permit"
      end
  | Move i =>
      match tp_running p !! i with
      | None => Err "no such task"
      | Some (t, st) =>
          let* (x, a) := task_access t st (user_account_tracker s) in
          match x with
          | inl r => let* r := finish_task snapshots t r in
                     Ok (with_accounts s a, mkTaskPool (tp_waiting p) (delete i (tp_running p)) (tp_results p ++ [(t, r)]))
          | inr st => Ok (with_accounts s a, mkTaskPool (tp_waiting p) (<[i := (t, st)]> (tp_running p)) (tp_results p))
          end
      end
  end.

(** The tasks one after the other. *)
Definition run_serial (snapshots : PoolId -> list BaselinePoolState) (s : StateValidation) (tasks : list OrderTask) :
    M (StateValidation * list (OrderTask * OrderValidationResults)) :=
  M_fold (fun acc t => let* (r, s) := run_task snapshots acc.1 t in Ok (s, acc.2 ++ [(t, r)])) (s, []) tasks.

Definition run_schedule snapshots permits c events : M (StateValidation * TaskPool) := M_fold (schedule_step snapshots permits) c events.

Lemma schedule_sound snapshots permits c e c' : schedule_step snapshots permits c e = Ok c' -> pool_step snapshots permits c c'.
Proof.
  destruct c as [s [w run res]]. destruct e as [i | i]; cbn [schedule_step tp_waiting tp_running tp_results]; intros H.
  - destruct (w !! i) as [t |] eqn:Ei; [| done]. destruct (Nat.ltb_spec (permits_taken run (task_user t)) permits); [| done].
    rewrite (delete_take_drop w i) in H. rewrite <- (take_drop_middle w i t Ei) at 1.
    apply M_bind_Ok in H as ([r | st] & Hx & H).
    + apply M_bind_Ok in H as (r' & Hr & H). injection H as <-. by eapply task_refused.
    + injection H as <-. by apply task_started.
  - destruct (run !! i) as [[t st] |] eqn:Ei; [| done]. apply M_bind_Ok in H as ([[r | st'] a] & Hx & H).
    + apply M_bind_Ok in H as (r' & Hr & H). injection H as <-. rewrite (delete_take_drop run i).
      rewrite <- (take_drop_middle run i (t, st) Ei) at 1. by eapply task_finished.
    + injection H as <-. rewrite (insert_take_drop run i) by by eapply lookup_lt_Some.
      rewrite <- (take_drop_middle run i (t, st) Ei) at 1. by apply task_accessed.
Qed.

Lemma run_schedule_sound snapshots permits c events c' :
  run_schedule snapshots permits c events = Ok c' -> rtc (pool_step snapshots permits) c c'.
Proof.
  revert c. induction events as [| e events IH]; intros c H; cbn in H; [injection H as <-; apply rtc_refl |].
  apply M_bind_Ok in H as (c1 & H1 & H). eapply rtc_l; [by eapply schedule_sound | by apply IH].
Qed.

Lemma run_schedule_end snapshots permits c events c' :
  run_schedule snapshots permits c events = Ok c' -> rtc (pool_step snapshots permits) c (c'.1, c'.2).
Proof. destruct c'. apply run_schedule_sound. Qed.

End Schedules.

#[export] Instance concrete_tob_user {C : OrderCrypto} `{!SolStruct PartialStandingOrder, !SolStruct ExactStandingOrder,
    !SolStruct PartialFlashOrder, !SolStruct ExactFlashOrder, !SolStruct TopOfBlockOrder} : TobUser.
Proof. done. Qed.

(** *** Evaluation *)

#[local] Existing Instance dev.
#[local] Existing Instance toy_crypto.
#[local] Existing Instance toy_raw.
#[local] Existing Instances toy_ps toy_es toy_pf toy_ef toy_tob.

(** Uniswap's bounds; every account has 1000 of every token, approved. *)
#[local] Instance uniswap_limits : UniswapMath :=
  bounds_only 4295128739 1461446703485210103287273052203988822378723970342.
#[local] Instance thousand_chain : StateFetchUtils := toy_chain 1000 1000.

(** Orders that sell token 2 for token 1 at price 1, signed by user 77 or another one. *)
Definition toy_signature (u : Address) (h : B256) : OrderMeta := mkOrderMeta true u [(u - h) mod 2 ^ 160].

Definition exact_bid_of (u amt gas nonce : Z) : AllOrders :=
  let body m := mkExactStandingOrder 0 true amt gas (10 ^ 27) false 2 1 0 [] nonce 0 m in
  ExactStanding (body (toy_signature u (OmitOrderMeta.no_meta_eip712_signing_hash (body (mkOrderMeta true u []))))).

Definition exact_bid (amt gas nonce : Z) : AllOrders := exact_bid_of 77 amt gas nonce.

Definition partial_bid (lo hi gas nonce : Z) : AllOrders :=
  let body m := mkPartialStandingOrder 0 lo hi gas (10 ^ 27) false 2 1 0 [] nonce 0 m in
  PartialStanding (body (toy_signature 77 (OmitOrderMeta.no_meta_eip712_signing_hash (body (mkOrderMeta true 77 []))))).

(** The pool of the two tokens is configured, and nothing is pledged. *)
Definition demo_validation : StateValidation :=
  mkStateValidation UserAccounts_new
    (mkAngstromPoolsTracker 50 (new_pool ∅ 1 2 (mkAngPoolConfigEntry (derive_store_key 1 2) 60 500 0))).

(** Token 1 is the gas token; a book order costs 5 of it. *)
Definition gas_prices : TokenPriceGenerator := mkTokenPriceGenerator ∅ ∅ 1 100 15 (10 ^ 22).
Definition demo_task (n : nat) (o : AllOrders) : OrderTask := mkOrderTask n o 10 gas_prices.

Definition state_after {A} (r : M (A * StateValidation)) : StateValidation :=
  match r with Ok (_, s) => s | _ => demo_validation end.
Definition stored_of (r : M (OrderValidationResults * StateValidation)) : OrderWithStorageData AllOrders :=
  match r with
  | Ok (Valid st, _) => st
  | _ => mkOrderWithStorageData (exact_bid 0 0 0) (mkOrderPriorityData 0 0 0 0) [] 0 None true true 0
           (mkOrderId 0 0 0 (Nonce 0) None None Limit) 0
  end.
Definition no_pools : PoolId -> list BaselinePoolState := fun _ => [].

Lemma accepted_order_checked_witness :
  exists st s', run_task no_pools demo_validation (demo_task 0 (exact_bid 600 10 3)) = Ok (Valid st, s') /\
    accepted_as no_pools demo_validation (demo_task 0 (exact_bid 600 10 3)) (exact_bid 600 10 3) st /\
    priority_data st = mkOrderPriorityData (10 ^ 27) 600 5 50000.
Proof.
  set (r := run_task no_pools demo_validation (demo_task 0 (exact_bid 600 10 3))).
  assert (E : r = Ok (Valid (stored_of r), state_after r)) by (vm_compute; reflexivity).
  exists (stored_of r), (state_after r). split; [exact E |]. split; [| vm_compute; reflexivity].
  exact (proj2 (accepted_order_checked no_pools demo_validation (demo_task 0 (exact_bid 600 10 3)) (stored_of r) (state_after r) E)).
Defined.

Lemma empty_order_panics_witness :
  is_valid_signature (partial_bid 5 0 4 3) = true /\
  run_task no_pools demo_validation (demo_task 0 (partial_bid 5 0 4 3)) = Panic.
Proof.
  assert (H : is_valid_signature (partial_bid 5 0 4 3) = true) by (vm_compute; reflexivity). split; [exact H |].
  apply (empty_order_panics no_pools demo_validation (demo_task 0 (partial_bid 5 0 4 3)) (10 ^ 27));
    [reflexivity | exact H | reflexivity | discriminate | discriminate | reflexivity | discriminate | vm_compute; reflexivity].
Defined.

(** With a gas limit of 4 the order is refused; another order with the same nonce and
    a limit that suffices is then refused too. *)
Lemma gas_refusal_keeps_pledge_witness :
  exists s', run_task no_pools demo_validation (demo_task 0 (exact_bid 300 4 3)) =
      Ok (Invalid (order_hash (exact_bid 300 4 3)) NotEnoughGas, s') /\
    exists h, handle_regular_order (fun o => o) s' (exact_bid 600 10 3) 10 = Ok (Invalid h (StateError (DuplicateNonce h)), s').
Proof.
  set (r := handle_regular_order (fun o => o) demo_validation (exact_bid 300 4 3) 10).
  assert (E : r = Ok (Valid (stored_of r), state_after r)) by (vm_compute; reflexivity).
  destruct (gas_refusal_keeps_pledge no_pools demo_validation (demo_task 0 (exact_bid 300 4 3)) (stored_of r) (state_after r)
    "gas_needed_token0 > max_gas" 3) as (H1 & _ & H2);
    [reflexivity | exact E | vm_compute; reflexivity | vm_compute; reflexivity | reflexivity |].
  exists (state_after r). split; [exact H1 |]. exists (order_hash (exact_bid 600 10 3)).
  set (pi := match check_static (pool_tacker demo_validation) (exact_bid 600 10 3) with Ok (inr pi) => pi | _ => toy_info end).
  refine (H2 (exact_bid 600 10 3) 10 pi _ _ _ _ _ _).
  - reflexivity.
  - reflexivity.
  - apply Z.leb_le. vm_compute. reflexivity.
  - vm_compute. reflexivity.
  - vm_compute. reflexivity.
  - reflexivity.
Defined.

(** What user 77 has pledged of its wallet. *)
Definition pledged (s : StateValidation) : Z :=
  sumZ (map token_delta (default [] (pending_actions (user_account_tracker s) !! 77))).

Definition bid_a : OrderTask := demo_task 0 (exact_bid 600 10 3).
Definition bid_b : OrderTask := demo_task 1 (exact_bid 500 10 3).

Definition pool_of (tasks : list OrderTask) : TaskPool := mkTaskPool tasks [] [].
Definition at_end (r : M (StateValidation * TaskPool)) : StateValidation * TaskPool :=
  match r with Ok c => c | _ => (demo_validation, pool_of []) end.

Definition ends (r : M (StateValidation * TaskPool)) : bool := match r with Ok _ => true | _ => false end.

Lemma ends_at r : ends r = true -> r = Ok (at_end r).
Proof. by destruct r. Qed.

(** What the run left waiting and running, and how many results there are. *)
Definition shape (p : TaskPool) : nat * nat * nat := (length (tp_waiting p), length (tp_running p), length (tp_results p)).

Lemma shape_done p n : shape p = (0%nat, 0%nat, n) -> p = mkTaskPool [] [] (tp_results p).
Proof. destruct p as [[| t w] [| r run] res]; done. Qed.

(** Both start and find no conflict; the first loads the balances and decides, then the
    second decides and inserts, then the first inserts. *)
Definition both_decide : list Event := [Start 0; Start 0; Move 0; Move 1; Move 0; Move 0; Move 0; Move 1].
Abbreviation race :=
  (run_schedule no_pools MAX_VALIDATION_PER_ADDR (demo_validation, pool_of [bid_a; bid_b]) (both_decide ++ [Move 1; Move 1; Move 0; Move 0])) (only parsing).

Lemma race_ends : race = Ok (at_end race).
Proof. apply ends_at. vm_compute. reflexivity. Qed.

(** Two permits per user let a nonce and a balance be used twice.  With the permits
    the validator gives, two orders of a user with the same nonce, for 600 and 500 of a
    balance of 1000, can both be accepted as valid, neither reported as invalidated by the
    other, and pledge 1100; validated one after the other, in either order, only 500 stays
    pledged. *)
Theorem two_permits_overspend :
  (exists s' p' st1 st2,
     rtc (pool_step no_pools MAX_VALIDATION_PER_ADDR) (demo_validation, pool_of [bid_a; bid_b]) (s', p') /\
     tp_waiting p' = [] /\ tp_running p' = [] /\ tp_results p' = [(bid_b, Valid st2); (bid_a, Valid st1)] /\
     currently_invalid st1 = None /\ currently_invalid st2 = None /\
     ~ order_hash (order st1) ∈ invalidates st2 /\ ~ order_hash (order st2) ∈ invalidates st1 /\ pledged s' = 1100 /\
     length (with_nonce 3 (default [] (pending_actions (user_account_tracker s') !! 77))) = MAX_VALIDATION_PER_ADDR) /\
  fetch_balance_for_token 77 2 = Ok 1000 /\
  Forall (fun sequence => exists s' res, run_serial no_pools demo_validation sequence = Ok (s', res) /\ pledged s' = 500)
    [[bid_a; bid_b]; [bid_b; bid_a]].
Proof.
  split; [| split; [reflexivity | repeat constructor; do 2 eexists; (split; [vm_compute; reflexivity | vm_compute; reflexivity])]].
  pose proof race_ends as E.
  exists (at_end race).1, (at_end race).2. do 2 eexists. split.
  { exact (run_schedule_end _ _ _ _ _ E). }
  split; [vm_compute; reflexivity |]. split; [vm_compute; reflexivity |]. split; [vm_compute; reflexivity |].
  split; [reflexivity |]. split; [reflexivity |].
  split; [apply (bool_decide_unpack _); vm_compute; exact I |]. split; [apply (bool_decide_unpack _); vm_compute; exact I |].
  split; vm_compute; reflexivity.
Qed.

(** The race again, up to the first insertion: both tasks hold a permit. *)
Abbreviation mid_race :=
  (@run_schedule release _ _ _ _ _ no_pools MAX_VALIDATION_PER_ADDR (demo_validation, pool_of [bid_a; bid_b]) both_decide) (only parsing).

Lemma mid_race_ends : mid_race = Ok (at_end mid_race).
Proof. apply ends_at. vm_compute. reflexivity. Qed.

Lemma bid_task_ok n amt gas nonce : u128 amt -> u128 gas -> task_ok (demo_task n (exact_bid amt gas nonce)).
Proof. intros Ha Hg. split; [exact Ha |]. split; [exact Hg |]. intros p [= <-]. by vm_compute. Qed.

Lemma accounts_invariant_witness :
  acc_ok (user_account_tracker (at_end mid_race).1) /\ length (tp_running (at_end mid_race).2) = 2%nat /\
  Forall (fun r => exists next, @task_access release _ _ _ _ r.1 r.2 (user_account_tracker (at_end mid_race).1) = Ok next)
    (tp_running (at_end mid_race).2).
Proof.
  pose proof mid_race_ends as E.
  assert (L : length (tp_running (at_end mid_race).2) = 2%nat) by (vm_compute; reflexivity).
  revert E L. generalize (at_end mid_race). intros [s p] E L.
  destruct (@accounts_invariant release uniswap_limits toy_crypto _ _ _ MAX_VALIDATION_PER_ADDR (pool_tacker demo_validation) s p)
    as (Ha & _ & Hrun).
  - eapply rtc_l; [apply (order_arrived _ demo_validation [] [] [] bid_a); apply bid_task_ok; split; by vm_compute |].
    eapply rtc_l; [apply (order_arrived _ demo_validation [bid_a] [] [] bid_b); apply bid_task_ok; split; by vm_compute |].
    eapply rtc_subrel; [| exact (run_schedule_sound _ _ _ _ _ E)].
    intros c c' Hs. eapply tasks_run; [| exact Hs]. apply toy_chain_laws; apply thousand_u256.
  - split; [exact Ha |]. split; [exact L |].
    exact (proj1 (Hrun eq_refl thousand_chain (toy_chain_laws 1000 1000 thousand_u256 thousand_u256))).
Defined.

(** Orders of two users, interleaved access by access. *)
Definition bid_c : OrderTask := demo_task 2 (exact_bid_of 78 700 10 3).
Abbreviation two_users :=
  (run_schedule no_pools MAX_VALIDATION_PER_ADDR (demo_validation, pool_of [bid_a; bid_c])
    ([Start 0; Start 0] ++ concat (repeat [Move 0; Move 1] 5) ++ [Move 0; Move 0])) (only parsing).

Lemma two_users_ends : two_users = Ok (at_end two_users).
Proof. apply ends_at. vm_compute. reflexivity. Qed.

Lemma users_independent_witness :
  length (tp_results (at_end two_users).2) = 2%nat /\
  exists r s', run_task no_pools demo_validation bid_c = Ok (r, s') /\ (bid_c, r) ∈ tp_results (at_end two_users).2.
Proof.
  pose proof two_users_ends as E.
  assert (L : length (tp_results (at_end two_users).2) = 2%nat) by (vm_compute; reflexivity).
  assert (E2 : of_user 78 (at_end two_users).2 = mkTaskPool [] [] (tp_results (of_user 78 (at_end two_users).2))).
  { apply (shape_done _ 1). vm_compute. reflexivity. }
  assert (E1 : of_user 78 (pool_of [bid_a; bid_c]) = mkTaskPool [bid_c] [] []).
  { unfold of_user. cbn [pool_of tp_waiting tp_running tp_results List.filter].
    replace (task_user bid_a) with 77 by (vm_compute; reflexivity). replace (task_user bid_c) with 78 by (vm_compute; reflexivity). reflexivity. }
  revert E L E2. generalize (at_end two_users). intros [s' p'] E L E2. split; [exact L |].
  destruct (proj2 (users_independent no_pools MAX_VALIDATION_PER_ADDR demo_validation (pool_of [bid_a; bid_c]) s' p' 78
    (run_schedule_sound _ _ _ _ _ E)) bid_c _ E1 E2) as (r & Hres & Hr).
  eexists r, _. split; [exact Hr |]. assert (Hin : (bid_c, r) ∈ [(bid_c, r)]) by apply list_elem_of_here.
  rewrite <- Hres in Hin. exact (proj1 (proj1 (list_filter_in _ _ _) Hin)).
Defined.
