(* ===== verification/UniPool.v ===== *)
(** * The node's copy of a Uniswap pool

    crates/uniswap-v4/src/uniswap/{pool,pool_data_loader,mod}.rs:
    [EnhancedUniswapPool] holds the price, the liquidity and the initialized ticks
    of one pool as they were read from the chain, [fetch_pool_snapshot] turns
    it into the [BaselinePoolState] that the rest of the node works on, and
    [simulate_swap_with_fee] is its own walk over the ticks.

    What the node reads from the chain (the two calls of the loader contracts)
    is the parameter [ChainCalls]; the bit position of a tick is that of the crate
    uniswap_v3_math ([TickBitmap]). *)

From S2P Require Import Prelude Uniswap Ray Orders PoolSwap PoolStore StateFetch Validation.

(** ** Data (pool_data_loader.rs) *)

Record PoolDataV4 := mkPoolDataV4 {
  v4_token0_decimals : Z;
  v4_token1_decimals : Z;
  v4_liquidity : Z;
  v4_sqrt_price : Z;
  v4_tick : Z;
  v4_liquidity_net : Z;
}.

Record PoolData := mkPoolData {
  pd_token_a : Address;
  pd_token_a_decimals : Z;
  pd_token_b : Address;
  pd_token_b_decimals : Z;
  pd_liquidity : Z;
  pd_sqrt_price : Z;
  pd_tick : Z;
  pd_tick_spacing : Z;
  pd_fee : Z;
  pd_liquidity_net : Z;
}.

Record TickData := mkTickData {
  td_initialized : bool;
  td_tick : Z;
  td_liquidity_gross : Z;
  td_liquidity_net : Z;
}.

#[export] Instance TickData_eq_dec : EqDecision TickData.
Proof. solve_decision. Defined.

Record TicksWithBlock := mkTicksWithBlock {
  tb_ticks : list TickData;
  tb_valid_to : Z;
  tb_block_number : Z;
}.

(** ** The pool registry (primitive/contract/mod.rs) *)

Record UniswapPoolRegistry := mkUniswapPoolRegistry {
  reg_pools : gmap PoolId PoolKey;
  conversion_map : gmap PoolId PoolId;
}.

(** The two calls the loader makes: the constructor of a loader contract run
    at a block, its result decoded. *)
Class ChainCalls := {
  (** pool id, pool manager, zero-for-one, start tick, count, spacing, block *)
  call_tick_data : PoolId -> Address -> bool -> Z -> Z -> Z -> option Z -> M TicksWithBlock;
  (** pool id, pool manager, currencies, block *)
  call_pool_data : PoolId -> Address -> Address -> Address -> option Z -> M PoolDataV4;
}.

(** [uniswap_v3_math::tick_bitmap::position]: word and bit of a compressed tick. *)
Class TickBitmap := position : Z -> Z * Z.

(** What its documentation promises, over the 24-bit ticks: a bit of a
    256-bit word, and no two ticks share one. *)
Class TickBitmapLaws (T : TickBitmap) := {
  position_bit : forall c, 0 <= (position c).2 < 256;
  position_inj : forall c c', i_min 24 <= c <= i_max 24 -> i_min 24 <= c' <= i_max 24 ->
    position c = position c' -> c = c';
}.

(** ** Conversions (uniswap/mod.rs) *)

Definition MIN_I24 : Z := -8388608.
Definition MAX_I24 : Z := 8388607.

(** [I24::from_be_bytes] and [I256::from_be_bytes]. *)
Definition signed_from_be_bytes (bits : Z) (b : Bytes) : Z := wrap_i bits (of_be_bytes b).

Section Conversions.
Context {P : Profile}.

Definition i32_to_i24 (val : Z) : M Z :=
  if negb ((MIN_I24 <=? val) && (val <=? MAX_I24)) then Err "overflow from i32 to i24" else
  let* inner := checked_i 32 (Z.abs val) in
  let new := signed_from_be_bytes 24 (drop 1 (be_bytes 4 inner)) in
  if val <? 0 then checked_i 24 (- new) else Ok new.

Definition i128_to_i256 (value : Z) : Z :=
  let value_bytes := be_bytes 16 value in
  let signed_byte := if Z.land (default 0 (head value_bytes)) 128 =? 128 then 255 else 0 in
  signed_from_be_bytes 256 (replicate 16 signed_byte ++ value_bytes).

End Conversions.

(** ** The loader (pool_data_loader.rs, [DataLoader]) *)

Record DataLoader := mkDataLoader {
  dl_private_address : PoolId;
  dl_public_address : PoolId;
  dl_pool_registry : option UniswapPoolRegistry;
  dl_pool_manager : option Address;
}.

Definition new_with_registry (private_address public_address : PoolId) (registry : UniswapPoolRegistry)
    (pool_manager : Address) : DataLoader :=
  mkDataLoader private_address public_address (Some registry) (Some pool_manager).

(** [DataLoader::default()]. *)
Definition default_loader : DataLoader := mkDataLoader 0 0 None None.

Definition default_lowest : TickData := mkTickData false (- MAX_TICK) 0 0.
Definition default_highest : TickData := mkTickData false MAX_TICK 0 0.

Definition loader_pool_key (d : DataLoader) : M PoolKey :=
  let* registry := unwrap (dl_pool_registry d) in
  unwrap (reg_pools registry !! dl_public_address d).

Definition pool_fee (d : DataLoader) : M Z :=
  let* pool_key := loader_pool_key d in Ok (pk_fee pool_key).

Section Loader.
Context {N : ChainCalls}.

Definition load_pool_data (d : DataLoader) (block_number : option Z) : M PoolData :=
  let* pool_key := loader_pool_key d in
  let* pool_manager := unwrap (dl_pool_manager d) in
  let* v4 := call_pool_data (dl_private_address d) pool_manager (currency0 pool_key) (currency1 pool_key)
               block_number in
  Ok (mkPoolData (currency0 pool_key) (v4_token0_decimals v4) (currency1 pool_key) (v4_token1_decimals v4)
        (v4_liquidity v4) (v4_sqrt_price v4) (v4_tick v4) (pk_tick_spacing pool_key) (pk_fee pool_key)
        (v4_liquidity_net v4)).

Definition load_tick_data (d : DataLoader) (current_tick : Z) (zero_for_one : bool) (num_ticks tick_spacing : Z)
    (block_number : option Z) : M (list TickData * Z) :=
  let* pool_manager := unwrap (dl_pool_manager d) in
  let* result := call_tick_data (dl_private_address d) pool_manager zero_for_one current_tick num_ticks
                   tick_spacing block_number in
  let* valid_to := uint_from 64 (tb_valid_to result) in
  Ok (take (Z.to_nat valid_to) (tb_ticks result), tb_block_number result).

End Loader.

(** ** The pool (pool.rs) *)

Record EnhancedUniswapPool := mkEnhancedUniswapPool {
  sync_swap_with_sim : bool;
  initial_ticks_per_side : Z;
  data_loader : DataLoader;
  token0 : Address;
  token0_decimals : Z;
  token1 : Address;
  token1_decimals : Z;
  liquidity : Z;
  pool_liquidity_net : Z;
  sqrt_price : Z;
  book_fee : Z;
  tick : Z;
  tick_spacing : Z;
  tick_bitmap : gmap Z Z;
  ticks : gmap Z TickInfo;
}.

Definition pool_new (loader : DataLoader) (per_side : Z) : EnhancedUniswapPool :=
  mkEnhancedUniswapPool false per_side loader 0 0 0 0 0 0 0 0 0 0 ∅ ∅.

Definition set_tick_state (p : EnhancedUniswapPool) (bm : gmap Z Z) (ts : gmap Z TickInfo) : EnhancedUniswapPool :=
  mkEnhancedUniswapPool (sync_swap_with_sim p) (initial_ticks_per_side p) (data_loader p) (token0 p)
    (token0_decimals p) (token1 p) (token1_decimals p) (liquidity p) (pool_liquidity_net p) (sqrt_price p)
    (book_fee p) (tick p) (tick_spacing p) bm ts.

Definition set_ticks (p : EnhancedUniswapPool) (ts : gmap Z TickInfo) : EnhancedUniswapPool :=
  set_tick_state p (tick_bitmap p) ts.
Definition set_bitmap (p : EnhancedUniswapPool) (bm : gmap Z Z) : EnhancedUniswapPool :=
  set_tick_state p bm (ticks p).

Definition set_sim_swap_sync (p : EnhancedUniswapPool) (b : bool) : EnhancedUniswapPool :=
  mkEnhancedUniswapPool b (initial_ticks_per_side p) (data_loader p) (token0 p)
    (token0_decimals p) (token1 p) (token1_decimals p) (liquidity p) (pool_liquidity_net p) (sqrt_price p)
    (book_fee p) (tick p) (tick_spacing p) (tick_bitmap p) (ticks p).

Definition fetch_lowest_tick (p : EnhancedUniswapPool) : M Z :=
  unwrap (match map fst (map_to_list (ticks p)) with [] => None | t :: l => Some (fold_left Z.min l t) end).
Definition fetch_highest_tick (p : EnhancedUniswapPool) : M Z :=
  unwrap (match map fst (map_to_list (ticks p)) with [] => None | t :: l => Some (fold_left Z.max l t) end).

Definition data_is_populated (p : EnhancedUniswapPool) : bool := negb ((token0 p =? 0) || (token1 p =? 0)).

Definition get_token_out (p : EnhancedUniswapPool) (token_in : Address) : Address :=
  if token0 p =? token_in then token1 p else token0 p.

(** [SqrtPriceX96::from(U256)] panics on a price of more than 160 bits. *)
Definition fetch_pool_snapshot (p : EnhancedUniswapPool) : M (Address * Address * BaselinePoolState) :=
  if negb (data_is_populated p) then Err "Pool is not initialized" else
  let* price := SqrtPriceX96.from_u256 (sqrt_price p) in
  Ok (token0 p, token1 p,
      mkBaselinePoolState
        (mkBaselineLiquidity (tick_spacing p) (tick p) price (liquidity p) (ticks p) (tick_bitmap p))
        (book_fee p)).

(** *** Ticks *)

Section Ticks.
Context {P : Profile} {T : TickBitmap}.

(** [tick / tick_spacing] on i32: truncated, and a panic on zero. *)
Definition compressed (t spacing : Z) : M Z := if spacing =? 0 then Panic else checked_i 32 (Z.quot t spacing).

Definition flip_tick_if_not_init (p : EnhancedUniswapPool) (t spacing : Z) : M EnhancedUniswapPool :=
  let* c := compressed t spacing in
  let (word_pos, bit_pos) := position c in
  let mask := Z.shiftl 1 bit_pos in
  Ok (match tick_bitmap p !! word_pos with
      | Some word =>
          if Z.land (Z.lxor word mask) mask =? mask
          then set_bitmap p (<[word_pos := Z.lxor word mask]> (tick_bitmap p))
          else p
      | None => set_bitmap p (<[word_pos := mask]> (tick_bitmap p))
      end).

Definition flip_tick (p : EnhancedUniswapPool) (t spacing : Z) : M EnhancedUniswapPool :=
  let* c := compressed t spacing in
  let (word_pos, bit_pos) := position c in
  let mask := Z.shiftl 1 bit_pos in
  Ok (set_bitmap p (<[word_pos := match tick_bitmap p !! word_pos with
                                  | Some word => Z.lxor word mask
                                  | None => mask
                                  end]> (tick_bitmap p))).

Definition update_tick (p : EnhancedUniswapPool) (t liquidity_delta : Z) (upper : bool) :
    M (bool * EnhancedUniswapPool) :=
  let info := default (mkTickInfo 0 0 false) (ticks p !! t) in
  let gross_before := liquidity_gross info in
  let* gross_after := if liquidity_delta <? 0 then Ok (saturating_sub gross_before (Z.abs liquidity_delta))
                      else u128_add gross_before (Z.abs liquidity_delta) in
  let flipped := negb (eqb (gross_after =? 0) (gross_before =? 0)) in
  let init := if gross_before =? 0 then true else initialized info in
  let* net := checked_i 128 (if upper then liquidity_net info - liquidity_delta
                             else liquidity_net info + liquidity_delta) in
  Ok (flipped, set_ticks p (<[t := mkTickInfo gross_after net init]> (ticks p))).

(** [sort_by_key] is stable; [unique] keeps the first of equal elements. *)
Definition sort_by_tick (l : list TickData) : list TickData :=
  merge_sort (fun a b => Is_true (td_tick a <=? td_tick b)) l.

Fixpoint unique (seen l : list TickData) : list TickData :=
  match l with
  | [] => []
  | x :: l => if decide (x ∈ seen) then unique seen l else x :: unique (x :: seen) l
  end.

(** The body of the loop of [apply_ticks]; [is_edge] is false past the filter. *)
Definition apply_tick (p : EnhancedUniswapPool) (t : TickData) : M EnhancedUniswapPool :=
  let is_edge := negb (td_initialized t) in
  let p := set_ticks p (<[td_tick t := mkTickInfo (td_liquidity_gross t) (td_liquidity_net t) (td_initialized t)]>
                          (ticks p)) in
  if negb is_edge then flip_tick_if_not_init p (td_tick t) (tick_spacing p) else Ok p.

Definition apply_ticks (p : EnhancedUniswapPool) (fetched : list TickData) : M EnhancedUniswapPool :=
  M_fold apply_tick p (List.filter td_initialized (unique [] (sort_by_tick fetched))).

End Ticks.

(** *** Loading *)

Definition TICKS_PER_BATCH : Z := 25.

Record TickRangeToLoad := mkTickRangeToLoad {
  tr_pool_id : PoolId;
  tr_start_tick : Z;
  tr_zfo : bool;
  tr_tick_count : Z;
}.

Section Loading.
Context {P : Profile} {T : TickBitmap} {N : ChainCalls}.

Definition end_tick (r : TickRangeToLoad) (spacing : Z) : M Z :=
  let* d := checked_i 32 (tr_tick_count r * spacing) in
  checked_i 32 (if tr_zfo r then tr_start_tick r - d else tr_start_tick r + d).

Definition get_tick_data_batch_request (p : EnhancedUniswapPool) (tick_start : Z) (zero_for_one : bool)
    (num_ticks : Z) (block_number : option Z) : M (list TickData * Z) :=
  let* spacing := i32_to_i24 (tick_spacing p) in
  load_tick_data (data_loader p) tick_start zero_for_one num_ticks spacing block_number.

(** [min_by_key] and [max_by_key] of the ticks of a batch. *)
Definition next_start (direction : bool) (batch : list TickData) : option Z :=
  match map td_tick batch with
  | [] => None
  | t :: l => Some (fold_left (if direction then Z.min else Z.max) l t)
  end.

(** The loop of [load_ticks_in_direction]; [n] counts its remaining rounds. *)
Fixpoint load_batches (n : nat) (p : EnhancedUniswapPool) (block_number : option Z) (direction : bool)
    (current_tick : Z) (fetched : list TickData) : M (Z * list TickData) :=
  match n with
  | O => Ok (current_tick, fetched)
  | S n =>
      let* start := i32_to_i24 current_tick in
      let* (batch, _) := get_tick_data_batch_request p start direction TICKS_PER_BATCH block_number in
      match next_start direction batch with
      | None => Ok (current_tick, fetched)
      | Some next_tick =>
          if negb (Z.of_nat (length batch) =? TICKS_PER_BATCH) then Ok (next_tick, fetched ++ batch)
          else load_batches n p block_number direction next_tick (fetched ++ batch)
      end
  end.

Definition load_ticks_in_direction (p : EnhancedUniswapPool) (block_number : option Z) (direction : bool) :
    M (Z * Z * list TickData) :=
  if tick_spacing p =? 0 then Panic else
  let extra := if Z.rem (tick p) (tick_spacing p) =? 0 then 1 else 0 in
  let* width := checked_i 32 (tick_spacing p * initial_ticks_per_side p) in
  let* width := checked_i 32 (width - extra) in
  let* adjustment := if direction then Ok width else checked_i 32 (- width) in
  let* start_tick := checked_i 32 (tick p + adjustment) in
  let* (current_tick, fetched) :=
    load_batches (Z.to_nat (div_ceil (initial_ticks_per_side p) TICKS_PER_BATCH)) p block_number direction
      start_tick [] in
  Ok (start_tick, current_tick, fetched).

(** Both directions are read at once; a failure of the first is reported first. *)
Definition sync_ticks (p : EnhancedUniswapPool) (block_number : option Z) : M EnhancedUniswapPool :=
  if negb (data_is_populated p) then Err "Pool already initialized" else
  let p := set_tick_state p ∅ ∅ in
  let asks := load_ticks_in_direction p block_number true in
  let bids := load_ticks_in_direction p block_number false in
  match asks, bids with
  | Panic, _ | _, Panic => Panic
  | _, _ =>
      let* (_, _, asks) := asks in
      let* p := apply_ticks p asks in
      let* (_, _, bids) := bids in
      apply_ticks p bids
  end.

Definition load_more_ticks (p : EnhancedUniswapPool) (tick_data : TickRangeToLoad) (block_number : option Z) :
    M EnhancedUniswapPool :=
  let* start := i32_to_i24 (tr_start_tick tick_data) in
  let* (fetched, _) := get_tick_data_batch_request p start (tr_zfo tick_data) (tr_tick_count tick_data) block_number in
  apply_ticks p fetched.

Definition populate_data (p : EnhancedUniswapPool) (block_number : option Z) : M EnhancedUniswapPool :=
  let* d := load_pool_data (data_loader p) block_number in
  let* fee := pool_fee (data_loader p) in
  Ok (mkEnhancedUniswapPool (sync_swap_with_sim p) (initial_ticks_per_side p) (data_loader p) (pd_token_a d)
        (pd_token_a_decimals d) (pd_token_b d) (pd_token_b_decimals d) (pd_liquidity d) (pd_liquidity_net d)
        (pd_sqrt_price d) fee (pd_tick d) (pd_tick_spacing d) (tick_bitmap p) (ticks p)).

Definition update_to_block (p : EnhancedUniswapPool) (block_number : option Z) : M EnhancedUniswapPool :=
  let* p := populate_data p block_number in sync_ticks p block_number.

(** [initialize] runs the same two steps. *)
Definition initialize (p : EnhancedUniswapPool) (block_number : option Z) : M EnhancedUniswapPool :=
  let* p := populate_data p block_number in
  let* p := sync_ticks p block_number in
  Ok p.

End Loading.

(** *** The pool's own swap simulation *)

Record SwapResult := mkSwapResult {
  res_amount0 : Z;
  res_amount1 : Z;
  res_sqrt_price_x_96 : Z;
  res_liquidity : Z;
  res_tick : Z;
}.

(** The mutable variables of the loop. *)
Record SimState := mkSimState {
  sim_remaining : Z;
  sim_calculated : Z;
  sim_sqrt_price : Z;
  sim_tick : Z;
  sim_liquidity : Z;
}.

Section Simulate.
Context {P : Profile} {U : UniswapMath}.

(** The liquidity after crossing [tick_next]. *)
Definition sim_cross (p : EnhancedUniswapPool) (zero_for_one : bool) (tick_next liq : Z) : M Z :=
  let* net := match ticks p !! tick_next with
              | Some info => if zero_for_one then checked_i 128 (- liquidity_net info) else Ok (liquidity_net info)
              | None => Ok 0
              end in
  if net <? 0 then ok_or (checked_sub liq (Z.abs net)) "Liquidity underflow"
  else u128_add liq (Z.abs net).

Definition sim_step (p : EnhancedUniswapPool) (zero_for_one exact_input : bool) (limit fee : Z) (s : SimState) :
    M SimState :=
  let* (next, init) :=
    next_initialized_tick_within_one_word (tick_bitmap p) (sim_tick s) (tick_spacing p) zero_for_one in
  let tick_next := Z.min MAX_TICK (Z.max (- MAX_TICK) next) in
  let* price_next := get_sqrt_ratio_at_tick tick_next in
  let target := if (zero_for_one && (price_next <? limit)) || (negb zero_for_one && (limit <? price_next))
                then limit else price_next in
  let* (new_price, amount_in, amount_out, fee_amount) :=
    compute_swap_step (sim_sqrt_price s) target (sim_liquidity s) (sim_remaining s) fee in
  let spent := from_raw (uint_add 256 amount_in fee_amount) in
  let* (remaining, calculated) :=
    if exact_input then
      let* r := i256_sub (sim_remaining s) spent in
      let* c := i256_sub (sim_calculated s) (from_raw amount_out) in Ok (r, c)
    else
      let* r := i256_add (sim_remaining s) (from_raw amount_out) in
      let* c := i256_add (sim_calculated s) spent in Ok (r, c) in
  if new_price =? price_next then
    let* liq := if (init : bool) then sim_cross p zero_for_one tick_next (sim_liquidity s)
                else Ok (sim_liquidity s) in
    let* t := if zero_for_one then checked_i 32 (tick_next - 1) else Ok tick_next in
    Ok (mkSimState remaining calculated new_price t liq)
  else if negb (new_price =? sim_sqrt_price s) then
    let* t := get_tick_at_sqrt_ratio new_price in
    Ok (mkSimState remaining calculated new_price t (sim_liquidity s))
  else Ok (mkSimState remaining calculated new_price (sim_tick s) (sim_liquidity s)).

Definition sim_continues (limit : Z) (s : SimState) : bool :=
  negb (sim_remaining s =? 0) && negb (sim_sqrt_price s =? limit).

(** [None] when the fuel runs out. *)
Fixpoint sim_loop (fuel : nat) (p : EnhancedUniswapPool) (zero_for_one exact_input : bool) (limit fee : Z)
    (s : SimState) : option (M SimState) :=
  if sim_continues limit s then
    match fuel with
    | O => None
    | S fuel =>
        match sim_step p zero_for_one exact_input limit fee s with
        | Ok s => sim_loop fuel p zero_for_one exact_input limit fee s
        | Err e => Some (Err e)
        | Panic => Some Panic
        end
    end
  else Some (Ok s).

Definition sim_limit (zero_for_one : bool) (limit : option Z) : Z :=
  match limit with
  | Some l => l
  | None => if zero_for_one then uint_add 256 MIN_SQRT_RATIO 1 else uint_sub 256 MAX_SQRT_RATIO 1
  end.

Definition limit_rejected (p : EnhancedUniswapPool) (zero_for_one : bool) (limit : Z) : bool :=
  (zero_for_one && ((sqrt_price p <=? limit) || (limit <=? MIN_SQRT_RATIO))) ||
  (negb zero_for_one && ((limit <=? sqrt_price p) || (MAX_SQRT_RATIO <=? limit))).

(** [_simulate_swap]. *)
Definition simulate_swap_with_fee (p : EnhancedUniswapPool) (token_in : Address) (amount_specified : Z)
    (sqrt_price_limit : option Z) (with_fee : bool) : M SwapResult :=
  if amount_specified =? 0 then Err "Amount specified must be non-zero" else
  let zero_for_one := token_in =? token0 p in
  let exact_input := 0 <? amount_specified in
  let limit := sim_limit zero_for_one sqrt_price_limit in
  if limit_rejected p zero_for_one limit then Err "Invalid sqrt price limit" else
  let fee := if with_fee then book_fee p else 0 in
  match sim_loop swap_fuel p zero_for_one exact_input limit fee
          (mkSimState amount_specified 0 (sqrt_price p) (tick p) (liquidity p)) with
  | None => Panic
  | Some r =>
      let* s := r in
      let* used := i256_sub amount_specified (sim_remaining s) in
      let (amount0, amount1) := if eqb zero_for_one exact_input then (used, sim_calculated s)
                                else (sim_calculated s, used) in
      Ok (mkSwapResult amount0 amount1 (sim_sqrt_price s) (sim_liquidity s) (sim_tick s))
  end.

Definition simulate_swap (p : EnhancedUniswapPool) (token_in : Address) (amount_specified : Z)
    (sqrt_price_limit : option Z) : M (Z * Z) :=
  let* r := simulate_swap_with_fee p token_in amount_specified sqrt_price_limit false in
  Ok (res_amount0 r, res_amount1 r).

End Simulate.

(** ** Conversions are exact *)

Section ConversionLemmas.
Context {P : Profile}.

(** The bytes of a number that fits denote it. *)
Lemma i32_to_i24_spec val : MIN_I24 < val <= MAX_I24 -> i32_to_i24 val = Ok val.
Proof.
  unfold MIN_I24, MAX_I24, i32_to_i24. intros H.
  rewrite (proj2 (Z.leb_le _ _)), (proj2 (Z.leb_le val _)) by (unfold MIN_I24, MAX_I24; lia). simpl negb. cbn iota.
  assert (i_min 32 = -2147483648) by done. assert (i_max 32 = 2147483647) by done.
  assert (i_min 24 = -8388608) by done. assert (i_max 24 = 8388607) by done.
  rewrite checked_i_Ok by lia. cbn [M_bind].
  assert (signed_from_be_bytes 24 (drop 1 (be_bytes 4 (Z.abs val))) = Z.abs val) as ->.
  { unfold signed_from_be_bytes. rewrite <- (wrap_i_id 24 (Z.abs val)) at 2 by lia. f_equal.
    set (a := Z.abs val). assert (0 <= a <= 8388608) by (unfold a; lia). clearbody a.
    cbn. Z.div_mod_to_equations. lia. }
  destruct (Z.ltb_spec val 0); [rewrite checked_i_Ok by lia |]; f_equal; lia.
Qed.

Lemma i32_to_i24_error val : ~ (MIN_I24 <= val <= MAX_I24) -> i32_to_i24 val = Err "overflow from i32 to i24".
Proof.
  unfold i32_to_i24. intros H.
  destruct (Z.leb_spec MIN_I24 val), (Z.leb_spec val MAX_I24); simpl; (done || lia).
Qed.

(** The least 24-bit number has no negative: with overflow checks its
    conversion panics. *)
Lemma i32_to_i24_min : i32_to_i24 MIN_I24 = if overflow_checks then Panic else Ok MIN_I24.
Proof. destruct P; vm_compute; reflexivity. Qed.

Lemma i32_to_i24_Ok val x : i32_to_i24 val = Ok x -> x = val /\ MIN_I24 <= val <= MAX_I24.
Proof.
  intros H. destruct (decide (MIN_I24 <= val <= MAX_I24)) as [Hr | Hr]; [| by rewrite i32_to_i24_error in H].
  split; [| done]. destruct (decide (val = MIN_I24)) as [-> | Hn].
  - rewrite i32_to_i24_min in H. destruct overflow_checks; congruence.
  - rewrite i32_to_i24_spec in H by lia. congruence.
Qed.

Lemma of_be_bytes_mod n x : of_be_bytes (be_bytes n x) = x mod 256 ^ Z.of_nat n.
Proof.
  revert x. induction n as [| n IH]; intros x; [cbn; by rewrite Z.mod_1_r |].
  cbn [be_bytes]. unfold of_be_bytes in *. rewrite fold_left_app. cbn [fold_left]. rewrite IH.
  rewrite Nat2Z.inj_succ, Z.pow_succ_r by lia. rewrite Z.rem_mul_r by lia. lia.
Qed.

Lemma high_bit_byte b : 0 <= b < 256 -> (Z.land b 128 =? 128) = (128 <=? b).
Proof.
  intros H.
  assert (forallb (fun b => eqb (Z.land b 128 =? 128) (128 <=? b)) (map Z.of_nat (seq 0 256)) = true) as Hall
    by (vm_compute; reflexivity).
  rewrite forallb_forall in Hall. apply eqb_prop, Hall. apply in_map_iff.
  exists (Z.to_nat b). split; [lia |]. apply in_seq. lia.
Qed.

(** Sign extension keeps every value. *)
Lemma i128_to_i256_id v : i_min 128 <= v <= i_max 128 -> i128_to_i256 v = v.
Proof.
  intros Hv. assert (i_min 128 = - 256 ^ 15 * 128) by done. assert (i_max 128 = 256 ^ 15 * 128 - 1) by done.
  assert (replicate 16 (if Z.land (default 0 (head (be_bytes 16 v))) 128 =? 128 then 255 else 0) ++ be_bytes 16 v =
          be_bytes 32 v) as E.
  { change (be_bytes 32 v) with (be_bytes (16 + 16) v). rewrite (be_bytes_app 16 16 v). f_equal.
    change (be_bytes 16 v) with (be_bytes (1 + 15) v). rewrite (be_bytes_app 1 15 v). cbn [be_bytes app head default]. unfold id. rewrite high_bit_byte by (apply Z.mod_pos_bound; lia).
    change (Z.of_nat 15) with 15. change (256 ^ Z.of_nat 16) with (256 ^ 15 * 256).
    destruct (Z.leb_spec 0 v).
    - rewrite (Z.div_small v (256 ^ 15 * 256)) by lia.
      assert (v / 256 ^ 15 < 128) by (apply Z.div_lt_upper_bound; lia).
      assert (0 <= v / 256 ^ 15) by (apply Z.div_pos; lia).
      rewrite Z.mod_small by lia. rewrite (proj2 (Z.leb_gt _ _)) by lia. done.
    - assert (v / (256 ^ 15 * 256) = -1) as -> by (symmetry; apply (Z.div_unique_pos _ _ _ (v + 256 ^ 15 * 256)); lia).
      assert (-128 <= v / 256 ^ 15) by (apply Z.div_le_lower_bound; lia).
      assert (v / 256 ^ 15 < 0) by (apply Z.div_lt_upper_bound; lia).
      rewrite <- (Z.mod_unique _ 256 (-1) (v / 256 ^ 15 + 256)) by lia.
      rewrite (proj2 (Z.leb_le _ _)) by lia. done. }
  unfold i128_to_i256. rewrite E. unfold signed_from_be_bytes, wrap_i. rewrite of_be_bytes_mod.
  change (256 ^ Z.of_nat 32) with (2 ^ 256). rewrite Z.add_mod_idemp_l by done.
  apply (wrap_i_id 256 v); [done |]. split.
  - transitivity (i_min 128); [by vm_compute | lia].
  - transitivity (i_max 128); [lia | by vm_compute].
Qed.

End ConversionLemmas.

(** ** The bitmap and the ticks agree *)

Definition in_i24 (c : Z) : Prop := i_min 24 <= c <= i_max 24.

Section BitmapLemmas.
Context {P : Profile} {T : TickBitmap} {TL : TickBitmapLaws T}.

(** The bit of a compressed tick; an absent word reads as zero. *)
Definition word_bit (bm : gmap Z Z) (c : Z) : bool :=
  Z.testbit (default 0 (bm !! (position c).1)) (position c).2.

Lemma mask_clear word b : 0 <= b ->
  (Z.land (Z.lxor word (Z.shiftl 1 b)) (Z.shiftl 1 b) =? Z.shiftl 1 b) = negb (Z.testbit word b).
Proof.
  intros Hb. rewrite Z.shiftl_1_l.
  assert (Z.testbit (Z.land (Z.lxor word (2 ^ b)) (2 ^ b)) b = negb (Z.testbit word b)) as E.
  { rewrite Z.land_spec, Z.lxor_spec, Z.pow2_bits_true by done. by destruct (Z.testbit word b). }
  destruct (Z.eqb_spec (Z.land (Z.lxor word (2 ^ b)) (2 ^ b)) (2 ^ b)) as [Ha | Ha].
  - rewrite Ha, Z.pow2_bits_true in E by done. done.
  - destruct (Z.testbit word b) eqn:Eb; [done |]. exfalso. apply Ha. apply Z.bits_inj'. intros n Hn.
    destruct (decide (n = b)) as [-> | Hnb].
    + by rewrite E, Z.pow2_bits_true.
    + rewrite Z.land_spec, Z.pow2_bits_false by done. apply andb_false_r.
Qed.

Lemma set_bit_spec word b n : 0 <= b -> 0 <= n -> Z.testbit word b = false ->
  Z.testbit (Z.lxor word (Z.shiftl 1 b)) n = (n =? b) || Z.testbit word n.
Proof.
  intros Hb Hn Hw. rewrite Z.lxor_spec, Z.shiftl_1_l, Z.pow2_bits_eqb by done. rewrite (Z.eqb_sym b n).
  destruct (Z.eqb_spec n b) as [-> |]; [by rewrite Hw | apply xorb_false_r].
Qed.

(** Flipping on sets the bit of the tick and no other. *)
Lemma flip_tick_if_not_init_spec p t spacing c :
  spacing <> 0 -> t = c * spacing -> in_i24 c ->
  exists bm, flip_tick_if_not_init p t spacing = Ok (set_bitmap p bm) /\
    forall c', in_i24 c' -> word_bit bm c' = (c' =? c) || word_bit (tick_bitmap p) c'.
Proof.
  intros Hs -> Hc. unfold flip_tick_if_not_init, compressed.
  rewrite (proj2 (Z.eqb_neq spacing 0)) by done. rewrite Z.quot_mul by done.
  rewrite checked_i_Ok by (unfold in_i24, i_min, i_max in *; simpl in *; lia). cbn [M_bind].
  destruct (position c) as [w b] eqn:Ep.
  pose proof (position_bit c) as Hb. rewrite Ep in Hb. simpl in Hb.
  assert (forall c' x, in_i24 c' -> Z.testbit (default 0 (tick_bitmap p !! w)) b = false ->
            x = Z.lxor (default 0 (tick_bitmap p !! w)) (Z.shiftl 1 b) ->
            word_bit (<[w := x]> (tick_bitmap p)) c' = (c' =? c) || word_bit (tick_bitmap p) c') as Hset.
  { intros c' x Hc' Hf ->. unfold word_bit. destruct (position c') as [w' b'] eqn:Ep'. simpl.
    pose proof (position_bit c') as Hb'. rewrite Ep' in Hb'. simpl in Hb'.
    destruct (decide (w = w')) as [<- | Hw].
    - rewrite lookup_insert_eq. simpl. rewrite set_bit_spec by (lia || done). f_equal.
      destruct (Z.eqb_spec b' b) as [-> | Hne].
      + rewrite <- Ep in Ep'. symmetry. apply Z.eqb_eq. by apply position_inj.
      + symmetry. apply Z.eqb_neq. intros ->. congruence.
    - rewrite lookup_insert_ne by done. rewrite (proj2 (Z.eqb_neq c' c)); [done |]. intros ->. congruence. }
  destruct (tick_bitmap p !! w) as [word |] eqn:Ew; simpl in Hset.
  - rewrite mask_clear by lia. destruct (Z.testbit word b) eqn:Eb; simpl negb; cbn iota.
    + exists (tick_bitmap p). split; [by destruct p |]. intros c' Hc'.
      destruct (Z.eqb_spec c' c) as [-> |]; [| done]. unfold word_bit. rewrite Ep. simpl. by rewrite Ew.
    + eexists. split; [done |]. intros c' Hc'. by apply Hset.
  - eexists. split; [done |]. intros c' Hc'. apply Hset; [done | apply Z.bits_0 |]. by rewrite Z.lxor_0_l.
Qed.

(** The well-formedness of a pool's tick tables: every stored tick is initialized
    and a multiple of the spacing, and the bits set are those of the stored ticks. *)
Record ticks_ok (p : EnhancedUniswapPool) : Prop := {
  ok_spacing : 0 < tick_spacing p;
  ok_stored : forall t info, ticks p !! t = Some info ->
    initialized info = true /\ exists c, t = c * tick_spacing p /\ in_i24 c;
  ok_bits : forall c, in_i24 c -> word_bit (tick_bitmap p) c = true <-> is_Some (ticks p !! (c * tick_spacing p));
}.

(** What the chain guarantees: only multiples of the spacing are initialized. *)
Definition tick_aligned (spacing : Z) (d : TickData) : Prop :=
  td_initialized d = true -> exists c, td_tick d = c * spacing /\ in_i24 c.

Lemma apply_tick_spec p d :
  ticks_ok p -> tick_aligned (tick_spacing p) d -> td_initialized d = true ->
  exists p', apply_tick p d = Ok p' /\ ticks_ok p' /\ tick_spacing p' = tick_spacing p /\
    ticks p' = <[td_tick d := mkTickInfo (td_liquidity_gross d) (td_liquidity_net d) true]> (ticks p) /\
    set_tick_state p' ∅ ∅ = set_tick_state p ∅ ∅.
Proof.
  intros [Hs Hst Hb] Ha Hi. destruct (Ha Hi) as (c & Ec & Hc).
  unfold apply_tick. rewrite Hi. simpl negb. cbn iota.
  set (q := set_ticks p _).
  destruct (flip_tick_if_not_init_spec q (td_tick d) (tick_spacing q) c) as (bm & -> & Hbm);
    [simpl; lia | done | done |].
  eexists. split; [done |]. split; [| done]. split; [done | |].
  - intros t info. simpl. rewrite lookup_insert_Some. intros [[<- <-] | [_ H]]; [| by eapply Hst].
    split; [done |]. by exists c.
  - intros c' Hc'. simpl. rewrite Hbm by done. simpl. rewrite Ec, orb_true_iff, Z.eqb_eq, Hb by done.
    destruct (decide (c' = c)) as [-> | Hne].
    + rewrite lookup_insert_eq. naive_solver.
    + rewrite lookup_insert_ne by (intros H%Z.mul_cancel_r; lia). naive_solver.
Qed.

(** The record of a tick stored from what was read of it. *)
Definition stored_as (d : TickData) (t : Z) (info : TickInfo) : Prop :=
  td_tick d = t /\ info = mkTickInfo (td_liquidity_gross d) (td_liquidity_net d) true.

Lemma apply_tick_fold l p :
  ticks_ok p -> Forall (tick_aligned (tick_spacing p)) l -> Forall (fun d => td_initialized d = true) l ->
  exists p', M_fold apply_tick p l = Ok p' /\ ticks_ok p' /\
    set_tick_state p' ∅ ∅ = set_tick_state p ∅ ∅ /\
    (forall t, is_Some (ticks p' !! t) <-> is_Some (ticks p !! t) \/ exists d, d ∈ l /\ td_tick d = t) /\
    (forall t info, ticks p' !! t = Some info -> ticks p !! t = Some info \/ exists d, d ∈ l /\ stored_as d t info).
Proof.
  revert p. induction l as [| d l IH]; intros p Hp Ha Hi.
  - exists p. split; [done |]. split; [done |]. split; [done |]. split; [| by left].
    intros t. split; [by left | intros [H | (d & Hd & _)]; [done | by apply not_elem_of_nil in Hd]].
  - apply Forall_cons in Ha as [Hd Ha]. apply Forall_cons in Hi as [Hdi Hi].
    destruct (apply_tick_spec p d Hp Hd Hdi) as (q & E & Hq & Hsp & Et & Eq).
    destruct (IH q Hq) as (p' & E' & Hp' & Es & Hi' & Hv); [by rewrite Hsp | done |].
    exists p'. cbn [M_fold]. rewrite E. cbn [M_bind]. split; [done |]. split; [done |].
    split; [by rewrite Es |]. split.
    2: { intros t info [H | (x & Hx & H)]%Hv; [| right; exists x; split; [by apply list_elem_of_further | done]].
         rewrite Et in H. apply lookup_insert_Some in H as [[<- <-] | [_ H]]; [| by left].
         right. exists d. split; [apply list_elem_of_here | by split]. }
    intros t. rewrite Hi', Et. destruct (decide (td_tick d = t)) as [<- | Hne].
    + rewrite lookup_insert_eq. split; [intros _; right; exists d; set_solver | intros _; left; by eexists].
    + rewrite lookup_insert_ne by done. split.
      * intros [H | (x & Hx & E0)]; [by left | right; exists x; set_solver].
      * intros [H | (x & Hx & E0)]; [by left |]. apply elem_of_cons in Hx as [-> | Hx]; [done |].
        right. by exists x.
Qed.

Lemma unique_elem seen l x : x ∈ unique seen l <-> x ∈ l /\ x ∉ seen.
Proof.
  revert seen. induction l as [| y l IH]; intros seen; simpl; [set_solver |].
  destruct (decide (y ∈ seen)); [rewrite IH; set_solver |].
  rewrite elem_of_cons, IH. destruct (decide (x = y)) as [-> |]; set_solver.
Qed.

Lemma kept_ticks_elem l d :
  d ∈ List.filter td_initialized (unique [] (sort_by_tick l)) <-> d ∈ l /\ td_initialized d = true.
Proof.
  rewrite list_elem_of_In, filter_In, <- list_elem_of_In, unique_elem.
  unfold sort_by_tick. rewrite merge_sort_Permutation. set_solver.
Qed.

Lemma apply_ticks_spec p l :
  ticks_ok p -> Forall (tick_aligned (tick_spacing p)) l ->
  exists p', apply_ticks p l = Ok p' /\ ticks_ok p' /\ set_tick_state p' ∅ ∅ = set_tick_state p ∅ ∅ /\
    (forall t, is_Some (ticks p' !! t) <->
       is_Some (ticks p !! t) \/ exists d, d ∈ l /\ td_initialized d = true /\ td_tick d = t) /\
    (forall t info, ticks p' !! t = Some info ->
       ticks p !! t = Some info \/ exists d, d ∈ l /\ td_initialized d = true /\ stored_as d t info).
Proof.
  intros Hp Ha. destruct (apply_tick_fold (List.filter td_initialized (unique [] (sort_by_tick l))) p Hp)
    as (p' & E & Hp' & Es & Hi & Hv).
  - apply Forall_forall. intros d [Hd _]%kept_ticks_elem. rewrite Forall_forall in Ha. by apply Ha.
  - apply Forall_forall. intros d [_ Hd]%kept_ticks_elem. done.
  - exists p'. split; [done |]. split; [done |]. split; [done |]. split.
    2: { intros t info [H | (d & [Hd Hdi]%kept_ticks_elem & H)]%Hv; [by left | right; by exists d]. }
    intros t. rewrite Hi. split; (intros [H | (d & Hd & H)]; [by left | right; exists d]).
    + apply kept_ticks_elem in Hd. naive_solver.
    + split; [apply kept_ticks_elem |]; naive_solver.
Qed.

End BitmapLemmas.

(** ** The two swap simulations agree

    [simulate_swap_with_fee] and the walk of [PoolSwap.swap] are separate
    implementations of the same loop. *)

(** Documented of [compute_swap_step]: a step that pays out an exact amount charges the
    fee rate on its input, so nothing at rate zero. *)
Class ZeroFeeLaw (U : UniswapMath) :=
  zero_fee_exact_out : forall cur tgt liq amt p i o f,
    compute_swap_step cur tgt liq amt 0 = Ok (p, i, o, f) -> amt < 0 -> f = 0.

Section SimulationLemmas.
Context {P : Profile} {U : UniswapMath} {L : SwapLaws U} {Z0 : ZeroFeeLaw U}.

Definition step_out (ask : bool) (s : PoolSwapStep) : Z := if ask then ss_d_t1 s else ss_d_t0 s.

Definition step_u128 (s : PoolSwapStep) : Prop := 0 <= ss_d_t0 s <= u_max 128 /\ 0 <= ss_d_t1 s <= u_max 128.

Lemma swap_step_amounts d fee limit ei s s' :
  swap_step d fee limit ei s = Ok s' -> exists st, st_steps s' = st_steps s ++ [st] /\ step_u128 st.
Proof.
  unfold swap_step. intros H.
  apply M_bind_Ok in H as ([[n l] i] & _ & H). apply M_bind_Ok in H as (r & _ & H). cbn zeta in H.
  apply M_bind_Ok in H as ([[[q a] b] f] & _ & H).
  apply M_bind_Ok in H as (x & [-> Hx]%uint_from_Ok & H). apply M_bind_Ok in H as (y & [-> Hy]%uint_from_Ok & H).
  destruct (sort_tokens d a b) as [d0 d1] eqn:Ed. apply M_bind_Ok in H as (lq & _ & H).
  injection H as <-. eexists. split; [done |].
  destruct d; injection Ed as <- <-; split; simpl; lia.
Qed.

Lemma steps_sum_u128 (f : PoolSwapStep -> Z) l :
  Forall step_u128 l -> (f = step_in true \/ f = step_in false) ->
  0 <= sumZ (map f l) <= Z.of_nat (length l) * u_max 128.
Proof.
  intros Hl Hf. pose proof (sumZ_bounds (map f l) 0 (u_max 128)) as H. rewrite length_map in H.
  rewrite Z.mul_0_l, Z.mul_comm in H. apply H. apply Forall_map. eapply Forall_impl; [done |].
  intros s [H0 H1]. destruct Hf as [-> | ->]; done.
Qed.

Lemma step_out_in ask : step_out ask = step_in (negb ask).
Proof. by destruct ask. Qed.

(** The amount calculated so far: what was paid out, or what was taken in. *)
Definition calc_of (ask ei : bool) (l : list PoolSwapStep) : Z :=
  if ei then - sumZ (map (step_out ask) l) else sumZ (map (step_in ask) l).

(** The states of the two loops correspond. *)
Record sim_rel (p : EnhancedUniswapPool) (ask ei : bool) (amount : Z) (s : SwapState) (m : SimState) : Prop := {
  rel_bitmap : lp_tick_bitmap (st_liquidity s) = tick_bitmap p;
  rel_ticks : lp_initialized_ticks (st_liquidity s) = ticks p;
  rel_spacing : lp_tick_spacing (st_liquidity s) = tick_spacing p;
  rel_tick : lp_current_tick (st_liquidity s) = sim_tick m;
  rel_liquidity : lp_current_liquidity (st_liquidity s) = sim_liquidity m;
  rel_price : st_sqrt_price s = sim_sqrt_price m;
  rel_remaining : st_remaining s = sim_remaining m;
  rel_calculated : sim_calculated m = calc_of ask ei (st_steps s);
  rel_used : if ei then sumZ (map (step_in ask) (st_steps s)) + st_remaining s <= amount
             else st_remaining s = amount + sumZ (map (step_out ask) (st_steps s));
  rel_steps : Forall step_u128 (st_steps s);
  rel_signed : signed_left ei (st_remaining s);
}.

Lemma price_target (ask : bool) r limit tgt :
  tgt = (if ask then Z.max r limit else Z.min r limit) ->
  (if (ask && (r <? limit)) || (negb ask && (limit <? r)) then limit else r) = tgt.
Proof.
  intros ->. destruct ask; simpl; rewrite ?orb_false_r;
    [destruct (Z.ltb_spec r limit) | destruct (Z.ltb_spec limit r)]; lia.
Qed.

Lemma cross_tick_sim p ask (l : LiquidityAtPoint) n q :
  lp_initialized_ticks l = ticks p -> cross_tick l n ask = Ok q -> sim_cross p ask n (lp_current_liquidity l) = Ok q.
Proof.
  intros Ht H. unfold cross_tick in H. unfold sim_cross. rewrite Ht in H.
  apply M_bind_Ok in H as (net & -> & H). cbn [M_bind]. destruct (net <? 0); [| done].
  unfold ok_or in *. by destruct (checked_sub _ _).
Qed.

(** The tick and the liquidity after a step, on both sides. *)
Lemma move_sim p ask (l l' : LiquidityAtPoint) n i r q start :
  - MAX_TICK <= n <= MAX_TICK -> lp_initialized_ticks l = ticks p ->
  next_initialized_tick_within_one_word (lp_tick_bitmap l) (lp_current_tick l) (lp_tick_spacing l) ask = Ok (n, i) ->
  move_to_next_tick l q ask (q =? r) (negb (q =? start)) = Ok l' ->
  lp_tick_bitmap l' = lp_tick_bitmap l /\ lp_initialized_ticks l' = lp_initialized_ticks l /\
  lp_tick_spacing l' = lp_tick_spacing l /\
  forall rem calc,
    (if q =? r then
       let* liq := if (i : bool) then sim_cross p ask n (lp_current_liquidity l) else Ok (lp_current_liquidity l) in
       let* t := if ask then checked_i 32 (n - 1) else Ok n in
       Ok (mkSimState rem calc q t liq)
     else if negb (q =? start) then
       let* t := get_tick_at_sqrt_ratio q in Ok (mkSimState rem calc q t (lp_current_liquidity l))
     else Ok (mkSimState rem calc q (lp_current_tick l) (lp_current_liquidity l)))
    = Ok (mkSimState rem calc q (lp_current_tick l') (lp_current_liquidity l')).
Proof.
  intros Hn Ht En H. unfold move_to_next_tick in H. rewrite En in H. cbn [M_bind] in H.
  destruct (q =? r).
  - apply M_bind_Ok in H as (lq & Hlq & H). apply M_bind_Ok in H as (t & Hti & H). injection H as <-.
    split; [done |]. split; [done |]. split; [done |]. intros rem calc. destruct i.
    + rewrite (cross_tick_sim p _ _ _ _ Ht Hlq). cbn [M_bind]. by rewrite Hti.
    + injection Hlq as <-. cbn [M_bind]. by rewrite Hti.
  - destruct (negb (q =? start)).
    + apply M_bind_Ok in H as (t & Hti & H). injection H as <-. rewrite Hti. done.
    + by injection H as <-.
Qed.

(** The signed amounts of a step do not leave 256 bits. *)
Lemma sim_amounts (ei : bool) rem calc a_in a_out f :
  0 <= a_out <= i_max 256 -> 0 <= a_in + f <= i_max 256 ->
  i_min 256 <= (if ei then rem - (a_in + f) else rem + a_out) <= i_max 256 ->
  i_min 256 <= (if ei then calc - a_out else calc + (a_in + f)) <= i_max 256 ->
  (if ei then
     let* r := i256_sub rem (from_raw (uint_add 256 a_in f)) in
     let* c := i256_sub calc (from_raw a_out) in Ok (r, c)
   else
     let* r := i256_add rem (from_raw a_out) in
     let* c := i256_add calc (from_raw (uint_add 256 a_in f)) in Ok (r, c))
  = Ok (if ei then rem - (a_in + f) else rem + a_out, if ei then calc - a_out else calc + (a_in + f)).
Proof.
  intros Ho Hi Hr Hc. unfold uint_add, wrap_u, i256_sub, i256_add.
  assert (i_max 256 < 2 ^ 256) by (by vm_compute).
  rewrite Z.mod_small by lia. rewrite !from_raw_id by lia.
  destruct ei; rewrite !checked_i_Ok by done; done.
Qed.

Lemma fuel_sum_bound n : (n < swap_fuel)%nat -> Z.of_nat (S n) * u_max 128 <= i_max 256.
Proof.
  intros H. change swap_fuel with (Z.to_nat (2 * MAX_TICK + 3)) in H.
  transitivity ((2 * MAX_TICK + 3) * u_max 128); [| apply Z.leb_le; vm_compute; reflexivity].
  apply Z.mul_le_mono_nonneg_r; [apply Z.leb_le; vm_compute; reflexivity | lia].
Qed.

Lemma calc_of_snoc ask ei l st :
  calc_of ask ei (l ++ [st]) = if ei then calc_of ask ei l - step_out ask st else calc_of ask ei l + step_in ask st.
Proof. unfold calc_of. rewrite !map_app, !sumZ_app. destruct ei; simpl; lia. Qed.

Lemma calc_of_range ask ei l :
  Forall step_u128 l -> (length l <= swap_fuel)%nat -> i_min 256 <= calc_of ask ei l <= i_max 256.
Proof.
  intros Hl Hn. assert (i_min 256 = - i_max 256 - 1) by done.
  assert (0 <= i_max 256) by (apply Z.leb_le; vm_compute; reflexivity).
  pose proof (steps_sum_u128 (step_in ask) _ Hl ltac:(destruct ask; auto)).
  pose proof (steps_sum_u128 (step_out ask) _ Hl ltac:(rewrite step_out_in; destruct ask; auto)).
  assert (Z.of_nat (length l) * u_max 128 <= i_max 256).
  { destruct (length l) as [| n]; [simpl; lia |]. by apply fuel_sum_bound. }
  unfold calc_of. destruct ei; lia.
Qed.

Lemma sim_step_rel p d limit ei amount s m s' :
  sim_rel p (dir_is_ask d) ei amount s m -> st_remaining s <> 0 -> (length (st_steps s) < swap_fuel)%nat ->
  swap_step d 0 limit ei s = Ok s' ->
  exists m', sim_step p (dir_is_ask d) ei limit 0 m = Ok m' /\ sim_rel p (dir_is_ask d) ei amount s' m' /\
    length (st_steps s') = S (length (st_steps s)).
Proof.
  intros [Rb Rt Rs Rk Rl Rp Rr Rc Rd Ru Rg] Hne Hlen H.
  destruct (swap_step_amounts _ _ _ _ _ _ H) as (st & Est & Hst).
  destruct (swap_step_spec _ _ _ _ _ _ Rg Hne H) as
    (n & i & r & q & a_in & a_out & f & liq' & tgt & En & Er & Et & Ec & Hm & Es & Hg' & Hi0 & Ho0).
  destruct (step_nonneg _ _ _ _ _ _ _ _ _ Ec) as (_ & _ & Hf0).
  assert (u_max 128 <= i_max 256) by (apply Z.leb_le; vm_compute; reflexivity).
  assert (step_in (dir_is_ask d) st = a_in /\ step_out (dir_is_ask d) st = a_out) as [Hin Hout].
  { rewrite Es in Est. cbn [st_steps] in Est. apply app_inv_head in Est. injection Est as <-. by destruct d. }
  assert (0 <= a_in <= u_max 128 /\ 0 <= a_out <= u_max 128) as [Hi Ho]
    by (rewrite <- Hin, <- Hout; destruct d, Hst; done).
  assert (Forall step_u128 (st_steps s')) as Hu' by (rewrite Est; by apply Forall_app_2; [| constructor]).
  assert (length (st_steps s') = S (length (st_steps s))) as Hl' by (rewrite Est, length_app; simpl; lia).
  pose proof (ratio_tick_range _ _ Er) as Hn.
  destruct (move_sim p _ _ _ _ _ _ _ _ Hn Rt En Hm) as (Mb & Mt & Ms & Mm).
  pose proof (calc_of_range (dir_is_ask d) ei _ Hu' ltac:(lia)) as Hcr.
  rewrite Est, calc_of_snoc, Hin, Hout in Hcr.
  assert (ei = false -> f = 0) as Hf.
  { intros ->. apply (zero_fee_exact_out _ _ _ _ _ _ _ _ Ec). unfold signed_left in Rg. lia. }
  assert (st_remaining s' = if ei then st_remaining s - (a_in + f) else st_remaining s + a_out) as Er'
    by (by rewrite Es).
  unfold sim_step. rewrite <- Rb, <- Rk, <- Rs, En. cbn [M_bind].
  rewrite (Z.max_r (- MAX_TICK) n), (Z.min_r MAX_TICK n) by lia. rewrite Er. cbn [M_bind].
  rewrite (price_target _ _ _ _ Et), <- Rp, <- Rl, <- Rr, Ec. cbn [M_bind]. rewrite Rc.
  rewrite sim_amounts; [| lia | | |].
  - cbn [M_bind]. rewrite Mm. eexists. split; [done |]. split; [| done].
    assert (st_liquidity s' = liq' /\ st_sqrt_price s' = q) as [El Ep] by (by rewrite Es).
    split; cbn [sim_tick sim_liquidity sim_sqrt_price sim_remaining sim_calculated]; try congruence.
    + rewrite Est, calc_of_snoc, Hin, Hout. destruct ei; [done |]. rewrite (Hf eq_refl). lia.
    + rewrite Est, !map_app, !sumZ_app, Er'. cbn [map]. rewrite Hin, Hout. destruct ei; simpl; lia.
  - unfold signed_left in *. rewrite Er' in Hg'. destruct ei; [lia | rewrite (Hf eq_refl); lia].
  - rewrite <- Er'. unfold signed_left in Hg'. assert (i_min 256 = - i_max 256 - 1) by done. destruct ei; lia.
  - destruct ei; [lia | rewrite (Hf eq_refl), Z.add_0_r; lia].
Qed.

Lemma sim_loop_rel p d limit ei amount n s m st :
  sim_rel p (dir_is_ask d) ei amount s m -> (length (st_steps s) + n <= swap_fuel)%nat ->
  swap_loop n d 0 limit ei s = Some (Ok st) ->
  exists m', sim_loop n p (dir_is_ask d) ei limit 0 m = Some (Ok m') /\ sim_rel p (dir_is_ask d) ei amount st m'.
Proof.
  revert s m. induction n as [| n IH]; intros s m Hr Hn H; cbn [swap_loop sim_loop] in *;
    (assert (sim_continues limit m = swap_continues limit s) as ->
       by (unfold sim_continues, swap_continues; by rewrite (rel_remaining _ _ _ _ _ _ Hr), (rel_price _ _ _ _ _ _ Hr)));
    destruct (swap_continues limit s) eqn:Hc; try done; try (injection H as <-; by exists m).
  unfold swap_continues in Hc. apply andb_true_iff in Hc as [Hc%negb_true_iff%Z.eqb_neq _].
  destruct (swap_step d 0 limit ei s) as [s' | |] eqn:Hs; [| done | done].
  destruct (sim_step_rel _ _ _ _ _ _ _ _ Hr Hc ltac:(lia) Hs) as (m' & -> & Hr' & Hl).
  apply (IH s' m'); [done | lia | done].
Qed.

(** What the two results have in common: end price, tick and liquidity, the
    amount received, and the amount paid up to the dust a step keeps as fee. *)
Definition same_swap (zero_for_one : bool) (amount : Z) (out : SwapResult) (r : PoolSwapResult) : Prop :=
  let paid := if zero_for_one then res_amount0 out else res_amount1 out in
  let received := - if zero_for_one then res_amount1 out else res_amount0 out in
  res_sqrt_price_x_96 out = sr_end_price r /\ res_tick out = sr_end_tick r /\
  res_liquidity out = lp_current_liquidity (sr_end_liquidity r) /\
  received = sumZ (map (step_out zero_for_one) (sr_steps r)) /\
  sumZ (map (step_in zero_for_one) (sr_steps r)) <= paid /\
  if 0 <? amount then paid <= amount else paid = sumZ (map (step_in zero_for_one) (sr_steps r)).

Definition sim_direction (p : EnhancedUniswapPool) (token_in : Address) : Direction :=
  if token_in =? token0 p then SellingT0 else BuyingT0.

Lemma sim_direction_ask p token_in : dir_is_ask (sim_direction p token_in) = (token_in =? token0 p).
Proof. unfold sim_direction. by destruct (_ =? _). Qed.

Lemma sim_rel_init p ask limit amount d :
  i_min 256 <= amount <= i_max 256 ->
  sim_rel p ask (0 <? amount) amount
    (swap_init (mkPoolSwap (current (mkBaselineLiquidity (tick_spacing p) (tick p) (sqrt_price p) (liquidity p)
       (ticks p) (tick_bitmap p))) limit amount d 0))
    (mkSimState amount 0 (sqrt_price p) (tick p) (liquidity p)).
Proof.
  intros Ha. split; try done; simpl; [by destruct (0 <? amount) | destruct (0 <? amount); lia |].
  unfold signed_left. destruct (Z.ltb_spec 0 amount); lia.
Qed.

Lemma simulate_spec p token_in amount limit t0 t1 b r :
  i_min 256 <= amount <= i_max 256 -> amount <> 0 ->
  limit_rejected p (token_in =? token0 p) (sim_limit (token_in =? token0 p) limit) = false ->
  fetch_pool_snapshot p = Ok (t0, t1, b) ->
  swap (mkPoolSwap (current (bp_liquidity b)) limit amount (sim_direction p token_in) 0) = Ok r ->
  exists out, simulate_swap_with_fee p token_in amount limit false = Ok out /\
    same_swap (token_in =? token0 p) amount out r.
Proof.
  intros Ha Hne Hlim Hsn Hsw. unfold fetch_pool_snapshot in Hsn.
  destruct (negb (data_is_populated p)); [done |]. apply M_bind_Ok in Hsn as (price & Hp & [= <- <- <-]).
  apply uint_from_Ok in Hp as [-> _]. unfold swap in Hsw. simpl in Hsw.
  destruct (swap_loop _ _ _ _ _ _) as [[st | |] |] eqn:El; try done. cbn [M_bind] in Hsw.
  apply M_bind_Ok in Hsw as (lq & Hlq & Hsw). apply M_bind_Ok in Hsw as ([x y] & _ & [= <-]).
  unfold set_sqrt_price in Hlq. apply M_bind_Ok in Hlq as (pr & [-> _]%uint_from_Ok & [= <-]).
  assert (price_limit (mkPoolSwap (current (mkBaselineLiquidity (tick_spacing p) (tick p) (sqrt_price p) (liquidity p)
            (ticks p) (tick_bitmap p))) limit amount (sim_direction p token_in) 0) =
          sim_limit (token_in =? token0 p) limit) as Elim.
  { unfold price_limit, sim_limit. simpl. by rewrite sim_direction_ask. }
  rewrite Elim in El.
  destruct (fun H => sim_loop_rel p _ _ _ amount _ _ _ _ (sim_rel_init p _ limit amount (sim_direction p token_in) Ha) H El)
    as (m & Em & Hm); [simpl; lia |].
  rewrite sim_direction_ask in Em, Hm. unfold simulate_swap_with_fee.
  rewrite (proj2 (Z.eqb_neq amount 0)) by done. rewrite Hlim. cbn iota.
  rewrite Em. cbn [M_bind]. destruct Hm as [_ _ _ Rk Rl Rp Rr Rc Rd Ru Rg].
  unfold calc_of in Rc. unfold signed_left in Rg. rewrite Rr in Rd, Rg.
  assert (i_min 256 = - i_max 256 - 1) by done.
  unfold i256_sub. rewrite checked_i_Ok by (destruct (Z.ltb_spec 0 amount); lia). cbn [M_bind].
  unfold same_swap. cbn [sr_end_price sr_end_tick sr_end_liquidity sr_steps lp_set lp_current_sqrt_price
    lp_current_tick lp_current_liquidity].
  destruct (Z.ltb_spec 0 amount), (token_in =? token0 p); simpl eqb; cbn iota; eexists;
    (split; [done |]); simpl; repeat split; congruence || lia.
Qed.

End SimulationLemmas.

(** ** Every pool the node holds is well formed *)

(** The loader contract only reports multiples of the spacing as initialized. *)
Class TickCallLaws (N : ChainCalls) :=
  call_aligned : forall id pm zfo t n sp b res d,
    call_tick_data id pm zfo t n sp b = Ok res -> d ∈ tb_ticks res -> tick_aligned sp d.

(** The spacing a pool was registered with. *)
Definition loader_ok (d : DataLoader) : Prop :=
  forall k, loader_pool_key d = Ok k -> 0 < pk_tick_spacing k <= MAX_I24.

Section ReachLemmas.
Context {P : Profile} {T : TickBitmap} {TL : TickBitmapLaws T} {N : ChainCalls} {NL : TickCallLaws N}.

Lemma batch_aligned p start zfo n b l x :
  0 < tick_spacing p <= MAX_I24 -> get_tick_data_batch_request p start zfo n b = Ok (l, x) ->
  Forall (tick_aligned (tick_spacing p)) l.
Proof.
  intros Hs H. unfold get_tick_data_batch_request, load_tick_data in H.
  rewrite i32_to_i24_spec in H by (unfold MIN_I24; lia). cbn [M_bind] in H.
  apply M_bind_Ok in H as (pm & _ & H). apply M_bind_Ok in H as (res & Hres & H).
  apply M_bind_Ok in H as (v & _ & [= <- <-]). apply Forall_forall. intros d Hd.
  apply elem_of_take in Hd as (i & Hi & _). apply (call_aligned _ _ _ _ _ _ _ _ _ Hres).
  by apply list_elem_of_lookup_2 in Hi.
Qed.

Lemma load_batches_aligned n p b dir cur l cur' l' :
  0 < tick_spacing p <= MAX_I24 -> Forall (tick_aligned (tick_spacing p)) l ->
  load_batches n p b dir cur l = Ok (cur', l') -> Forall (tick_aligned (tick_spacing p)) l'.
Proof.
  intros Hs. revert cur l. induction n as [| n IH]; intros cur l Hl H; simpl in H; [by injection H as <- <- |].
  apply M_bind_Ok in H as (start & _ & H). apply M_bind_Ok in H as ([batch x] & Hb & H).
  pose proof (batch_aligned _ _ _ _ _ _ _ Hs Hb) as Ha.
  destruct (next_start dir batch); [| by injection H as <- <-].
  destruct (negb _); [injection H as <- <-; by apply Forall_app_2 |].
  eapply IH; [| done]. by apply Forall_app_2.
Qed.

Lemma load_direction_aligned p b dir x y l :
  0 < tick_spacing p <= MAX_I24 -> load_ticks_in_direction p b dir = Ok (x, y, l) ->
  Forall (tick_aligned (tick_spacing p)) l.
Proof.
  intros Hs H. unfold load_ticks_in_direction in H. destruct (_ =? 0); [done |]. m_inv.
  match goal with H : _ = Ok (x, y, l) |- _ => destruct x4 as [c f]; injection H as <- <- <- end.
  eapply load_batches_aligned; [done | constructor | done].
Qed.

Lemma ticks_ok_empty p : 0 < tick_spacing p -> ticks_ok (set_tick_state p ∅ ∅).
Proof.
  intros H. split; [done | done |]. intros c _. simpl. unfold word_bit. rewrite !lookup_empty. simpl.
  rewrite Z.bits_0. split; [done |]. by intros [? ?].
Qed.

Lemma sync_ticks_spec p b p' :
  0 < tick_spacing p <= MAX_I24 -> sync_ticks p b = Ok p' ->
  ticks_ok p' /\ set_tick_state p' ∅ ∅ = set_tick_state p ∅ ∅ /\
  exists s c s' c' asks bids,
    load_ticks_in_direction (set_tick_state p ∅ ∅) b true = Ok (s, c, asks) /\
    load_ticks_in_direction (set_tick_state p ∅ ∅) b false = Ok (s', c', bids) /\
    (forall t, is_Some (ticks p' !! t) <->
       exists d, (d ∈ asks \/ d ∈ bids) /\ td_initialized d = true /\ td_tick d = t) /\
    (forall t info, ticks p' !! t = Some info ->
       exists d, (d ∈ asks \/ d ∈ bids) /\ td_initialized d = true /\ stored_as d t info).
Proof.
  intros Hs H. unfold sync_ticks in H. destruct (negb _); [done |].
  destruct (load_ticks_in_direction _ b true) as [[[s c] asks] | |] eqn:Ea; [| destruct (load_ticks_in_direction _ b false); discriminate H | discriminate H].
  destruct (load_ticks_in_direction _ b false) as [[[s' c'] bids] | |] eqn:Eb; [| | done]; cbn [M_bind] in H;
    [| by destruct (apply_ticks _ _)].
  pose proof (load_direction_aligned (set_tick_state p ∅ ∅) _ _ _ _ _ Hs Ea) as Ha.
  pose proof (load_direction_aligned (set_tick_state p ∅ ∅) _ _ _ _ _ Hs Eb) as Hb.
  destruct (apply_ticks_spec _ _ (ticks_ok_empty p ltac:(lia)) Ha) as (q & E & Hq & Eq & Hqi & Hqv).
  rewrite E in H. cbn [M_bind] in H.
  assert (tick_spacing q = tick_spacing p) as Es by (by injection Eq).
  destruct (apply_ticks_spec q bids Hq ltac:(by rewrite Es)) as (q' & E' & Hq' & Eq' & Hqi' & Hqv').
  assert (q' = p') as -> by congruence. split; [done |]. split; [by rewrite Eq', Eq |].
  exists s, c, s', c', asks, bids. split; [done |]. split; [done |]. split.
  2: { intros t info [[Hn | (d & Hd & Ht)]%Hqv | (d & Hd & Ht)]%Hqv'; [| exists d; tauto | exists d; tauto].
       simpl in Hn. by rewrite lookup_empty in Hn. }
  intros t. rewrite Hqi', Hqi. simpl. rewrite lookup_empty. split.
  - intros [[[? [=]] | (d & Hd & Ht)] | (d & Hd & Ht)]; exists d; naive_solver.
  - intros (d & [Hd | Hd] & Ht); [left; right | right]; by exists d.
Qed.

(** The pools of the manager: created by the factory, brought to a block, extended on request. *)
Inductive pool_reach : EnhancedUniswapPool -> Prop :=
| reach_initialize loader n b p :
    loader_ok loader -> initialize (pool_new loader n) b = Ok p -> pool_reach p
| reach_update p b p' : pool_reach p -> update_to_block p b = Ok p' -> pool_reach p'
| reach_more p r b p' : pool_reach p -> load_more_ticks p r b = Ok p' -> pool_reach p'
| reach_sim p b : pool_reach p -> pool_reach (set_sim_swap_sync p b).

Lemma populate_spec p b p' :
  loader_ok (data_loader p) -> populate_data p b = Ok p' ->
  data_loader p' = data_loader p /\ 0 < tick_spacing p' <= MAX_I24.
Proof.
  intros Hl H. unfold populate_data, load_pool_data in H. apply M_bind_Ok in H as (d & Hd & H).
  apply M_bind_Ok in Hd as (k & Hk & Hd). apply M_bind_Ok in Hd as (pm & _ & Hd).
  apply M_bind_Ok in Hd as (v & _ & [= <-]). apply M_bind_Ok in H as (fee & _ & [= <-]). simpl.
  split; [done |]. by apply Hl.
Qed.

Lemma update_ok p b p' :
  loader_ok (data_loader p) -> update_to_block p b = Ok p' ->
  ticks_ok p' /\ loader_ok (data_loader p') /\ 0 < tick_spacing p' <= MAX_I24.
Proof.
  intros Hl H. unfold update_to_block in H. apply M_bind_Ok in H as (q & Hq & H).
  destruct (populate_spec _ _ _ Hl Hq) as [El Hs].
  destruct (sync_ticks_spec _ _ _ Hs H) as (Hok & E & _). split; [done |].
  assert (data_loader p' = data_loader q /\ tick_spacing p' = tick_spacing q) as [-> ->] by (by injection E).
  by rewrite El.
Qed.

Lemma reach_ok p : pool_reach p -> ticks_ok p /\ loader_ok (data_loader p) /\ 0 < tick_spacing p <= MAX_I24.
Proof.
  induction 1 as [loader n b p Hl H | p b p' _ (_ & Hl & _) H | p r b p' _ (Hok & Hl & Hs) H | p b _ (Hok & Hl & Hs)].
  - apply (update_ok (pool_new loader n) b p Hl). unfold initialize in H. unfold update_to_block.
    apply M_bind_Ok in H as (q & -> & H). cbn [M_bind]. by apply M_bind_Ok in H as (q' & -> & [= ->]).
  - by apply (update_ok p b).
  - unfold load_more_ticks in H. apply M_bind_Ok in H as (start & _ & H).
    apply M_bind_Ok in H as ([l x] & Hb & H). pose proof (batch_aligned _ _ _ _ _ _ _ Hs Hb) as Ha.
    destruct (apply_ticks_spec p l Hok Ha) as (q & E & Hq & Eq & _ & _).
    assert (q = p') as -> by congruence.
    assert (data_loader p' = data_loader p /\ tick_spacing p' = tick_spacing p) as [-> ->] by (by injection Eq). done.
  - split; [| done]. by destruct Hok.
Qed.

End ReachLemmas.

(** ** Theorems *)

(** C29: a pool the node holds, whatever blocks it was brought to and whatever ticks
    were loaded on request, is well formed: every stored tick is initialized and a multiple of
    the spacing, and the bitmap has exactly the bits of the stored ticks, so
    a walk that stops at a set bit always finds the tick's liquidity. *)
Theorem pool_ticks_agree (P : Profile) (T : TickBitmap) (TL : TickBitmapLaws T) (N : ChainCalls)
    (NL : TickCallLaws N) p :
  pool_reach p -> ticks_ok p.
Proof. intros H. by destruct (reach_ok p H). Qed.

(** C6: the pool's own simulation and the simulator that matching and bundle
    construction use are the same function: whenever the latter swaps an amount on the
    pool's snapshot, [simulate_swap_with_fee] without fee returns as well, with the same end
    price, tick and liquidity and the same amount received; an exact output
    costs the same, an exact input takes at least what the simulator's steps
    took and no more than was offered. *)
Theorem simulation_matches_swap (P : Profile) (U : UniswapMath) (L : SwapLaws U) (Z0 : ZeroFeeLaw U)
    p token_in amount limit t0 t1 b r :
  i_min 256 <= amount <= i_max 256 -> amount <> 0 ->
  limit_rejected p (token_in =? token0 p) (sim_limit (token_in =? token0 p) limit) = false ->
  fetch_pool_snapshot p = Ok (t0, t1, b) ->
  swap (mkPoolSwap (current (bp_liquidity b)) limit amount (sim_direction p token_in) 0) = Ok r ->
  exists out, simulate_swap_with_fee p token_in amount limit false = Ok out /\
    same_swap (token_in =? token0 p) amount out r.
Proof. apply simulate_spec. Qed.

(** ** Witnesses *)

Definition demo_position : TickBitmap := fun c => (Z.shiftr c 8, c mod 256).

Lemma demo_position_laws : TickBitmapLaws demo_position.
Proof.
  split; [intros c; apply Z.mod_pos_bound; done |].
  intros c c' _ _ [= H1 H2]. rewrite !Z.shiftr_div_pow2 in H1 by done. change (2 ^ 8) with 256 in H1.
  rewrite (Z.div_mod c 256), (Z.div_mod c' 256) by done. congruence.
Defined.

(** One position from minus one to plus one spacing, at price 2^96. *)
Definition demo_calls : ChainCalls := {|
  call_tick_data _ _ _ _ _ sp _ :=
    Ok (mkTicksWithBlock [mkTickData true sp 7 (-7); mkTickData false 0 0 0; mkTickData true (- sp) 7 7] 3 100);
  call_pool_data _ _ _ _ _ := Ok (mkPoolDataV4 18 6 7 (2 ^ 96) 0 0);
|}.

Lemma demo_calls_laws : TickCallLaws demo_calls.
Proof.
  intros id pm zfo t n sp b res d [= <-] Hd Hi. simpl in Hd.
  repeat (apply elem_of_cons in Hd as [-> | Hd]); simpl in *; try done.
  - exists 1. split; [lia | by vm_compute].
  - exists (-1). split; [lia | by vm_compute].
  - by apply not_elem_of_nil in Hd.
Defined.

Definition demo_registry : UniswapPoolRegistry :=
  mkUniswapPoolRegistry {[ 1 := mkPoolKey 10 20 3000 60 99 ]} {[ 1 := 2 ]}.
Definition demo_loader : DataLoader := new_with_registry 2 1 demo_registry 5.
Definition demo_pool : EnhancedUniswapPool :=
  match @initialize dev demo_position demo_calls (pool_new demo_loader 50) (Some 100) with
  | Ok p => p
  | _ => pool_new demo_loader 50
  end.

Lemma demo_pool_reach : @pool_reach dev demo_position demo_calls demo_pool.
Proof.
  apply (@reach_initialize dev demo_position demo_calls demo_loader 50 (Some 100)).
  - intros k [= <-]. vm_compute. split; [reflexivity | discriminate].
  - vm_compute. reflexivity.
Defined.

Lemma pool_ticks_agree_witness :
  map_to_list (ticks demo_pool) = [(-60, mkTickInfo 7 7 true); (60, mkTickInfo 7 (-7) true)] /\
  @word_bit demo_position (tick_bitmap demo_pool) (-1) = true /\ ticks_ok (T := demo_position) demo_pool.
Proof.
  split; [vm_compute; reflexivity |]. split; [vm_compute; reflexivity |].
  exact (pool_ticks_agree dev demo_position demo_position_laws demo_calls demo_calls_laws demo_pool demo_pool_reach).
Defined.

Lemma linear_zero_fee : ZeroFeeLaw linear_math.
Proof.
  intros cur tgt liq amt p i o f H Ha. simpl in H. unfold linear_step in H.
  rewrite (proj2 (Z.leb_gt 0 amt)) in H by done. destruct (_ <=? - amt); by injection H as <- <- <- <-.
Defined.

(** The pool of [PoolSwap]'s demonstration, held by the node. *)
Definition linear_pool : EnhancedUniswapPool :=
  mkEnhancedUniswapPool false 400 demo_loader 10 18 20 6 1000 0 (10 ^ 7) 3000 0 1 demo_bitmap demo_ticks.

Lemma simulation_matches_swap_witness :
  exists out, @simulate_swap_with_fee dev linear_math linear_pool 10 3500 None false = Ok out /\
    same_swap true 3500 out demo_result /\ res_amount0 out = 3500 /\ res_amount1 out = -3500.
Proof.
  destruct (simulation_matches_swap dev linear_math linear_laws linear_zero_fee linear_pool 10 3500 None 10 20
              (mkBaselinePoolState demo_liquidity 3000) demo_result) as (out & E & H).
  - vm_compute. split; discriminate.
  - discriminate.
  - vm_compute. reflexivity.
  - vm_compute. reflexivity.
  - vm_compute. reflexivity.
  - exists out. split; [exact E |]. split; [exact H |]. vm_compute in E. injection E as <-. split; vm_compute; reflexivity.
Defined.
