(* ===== verification/TickSync.v ===== *)
(** * Reading the ticks of a pool from the chain

    The contract that the node deploys in a call to read ticks
    (crates/uniswap-v4/src/uniswap/loaders/GetUniswapV4TickData.sol, with
    IUniV4.sol and TickLib.sol of contracts/src), and what the node's loops around it
    ([load_ticks_in_direction], [sync_ticks]) read of the chain's pool. *)

From S2P Require Import Prelude Uniswap Orders PoolSwap PoolStore UniPool.

(** ** The loader contract *)

(** A pool as the pool manager stores it: the bitmap, and gross and net liquidity per tick. *)
Record ChainPool := mkChainPool {
  cp_bitmap : gmap Z Z;
  cp_ticks : gmap Z (Z * Z);
}.

(** solady's LibBit, not part of the repository. *)
Class LibBit := {
  fls : Z -> Z;
  ffs : Z -> Z;
}.

(** Its documentation: index of the most and of the least significant bit set, 256 when there is none. *)
Class LibBitLaws (B : LibBit) := {
  fls_zero : fls 0 = 256;
  ffs_zero : ffs 0 = 256;
  fls_spec : forall x, 0 < x < 2 ^ 256 ->
    0 <= fls x < 256 /\ Z.testbit x (fls x) = true /\ forall i, fls x < i -> Z.testbit x i = false;
  ffs_spec : forall x, 0 < x < 2 ^ 256 ->
    0 <= ffs x < 256 /\ Z.testbit x (ffs x) = true /\ forall i, 0 <= i < ffs x -> Z.testbit x i = false;
}.

(** Checked int24 arithmetic reverts. *)
Definition int24 (x : Z) : M Z := if fits_i 24 x then Ok x else Err "execution reverted".

(** [sdiv] and [smod] of the EVM. *)
Definition sdiv (a b : Z) : Z := if b =? 0 then 0 else Z.quot a b.
Definition smod (a b : Z) : Z := if b =? 0 then 0 else Z.rem a b.

Module TickLib.
Section TickLib.
Context {B : LibBit}.

Definition compress (tick tick_spacing : Z) : Z :=
  sdiv tick tick_spacing - (if smod tick tick_spacing <? 0 then 1 else 0).

Definition position (compressed : Z) : Z * Z := (Z.shiftr compressed 8, Z.land compressed 255).

Definition nextBitPosLte (word bit_pos : Z) : bool * Z :=
  let offset := 255 - bit_pos in
  let relative_pos := fls (wrap_u 256 (Z.shiftl word offset)) in
  let init := negb (relative_pos =? 256) in
  (init, if init then relative_pos - offset else 0).

Definition nextBitPosGte (word bit_pos : Z) : bool * Z :=
  let relative_pos := ffs (Z.shiftr word bit_pos) in
  let init := negb (relative_pos =? 256) in
  (init, if init then relative_pos + bit_pos else 255).

Definition toTick (word_pos bit_pos tick_spacing : Z) : M Z :=
  let* w := int24 (word_pos * 256) in
  let* c := int24 (w + bit_pos) in
  int24 (c * tick_spacing).

End TickLib.
End TickLib.

Module IUniV4.
Section IUniV4.
Context {B : LibBit}.

Definition getPoolBitmapInfo (c : ChainPool) (word_pos : Z) : Z := default 0 (cp_bitmap c !! word_pos).

Definition getTickLiquidity (c : ChainPool) (tick : Z) : Z * Z := default (0, 0) (cp_ticks c !! tick).

Definition getNextTickLe (c : ChainPool) (tick tick_spacing : Z) : M (bool * Z) :=
  let (word_pos, bit_pos) := TickLib.position (TickLib.compress tick tick_spacing) in
  let (init, bit_pos) := TickLib.nextBitPosLte (getPoolBitmapInfo c word_pos) bit_pos in
  let* t := TickLib.toTick word_pos bit_pos tick_spacing in Ok (init, t).

Definition getNextTickGt (c : ChainPool) (tick tick_spacing : Z) : M (bool * Z) :=
  let* next := int24 (TickLib.compress tick tick_spacing + 1) in
  let (word_pos, bit_pos) := TickLib.position next in
  let (init, bit_pos) := TickLib.nextBitPosGte (getPoolBitmapInfo c word_pos) bit_pos in
  let* t := TickLib.toTick word_pos bit_pos tick_spacing in Ok (init, t).

End IUniV4.
End IUniV4.

Section Contract.
Context {B : LibBit}.

Definition contract_next (c : ChainPool) (zfo : bool) (tick tick_spacing : Z) : M (bool * Z) :=
  if zfo then IUniV4.getNextTickLe c tick tick_spacing else IUniV4.getNextTickGt c tick tick_spacing.

(** The loop of the constructor, [n] entries from its end; the result is the filled part of the array. *)
Fixpoint contract_loop (n : nat) (c : ChainPool) (zfo : bool) (current_tick tick_spacing : Z)
    (filled : list TickData) : M (list TickData) :=
  match n with
  | O => Ok filled
  | S n =>
      let* (init, next_tick) := contract_next c zfo current_tick tick_spacing in
      let (gross, net) := IUniV4.getTickLiquidity c next_tick in
      if (next_tick <? - MAX_TICK) || (MAX_TICK <=? next_tick) then Ok filled else
      let* current_tick := if zfo then int24 (next_tick - 1) else Ok next_tick in
      contract_loop n c zfo current_tick tick_spacing (filled ++ [mkTickData init next_tick gross net])
  end.

(** The constructor: the array keeps default entries past [validTo]. *)
Definition GetUniswapV4TickData (c : ChainPool) (block : Z) (zfo : bool) (current_tick num_ticks tick_spacing : Z) :
    M TicksWithBlock :=
  let* filled := contract_loop (Z.to_nat num_ticks) c zfo current_tick tick_spacing [] in
  Ok (mkTicksWithBlock (filled ++ replicate (Z.to_nat num_ticks - length filled) (mkTickData false 0 0 0))
        (Z.of_nat (length filled)) block).

(** A node whose calls reach this contract: [chain] is the pool at each block
    ([None] for the latest), [slot0] the answer of the other loader contract. *)
Definition contract_calls (chain : PoolId -> option Z -> ChainPool) (head : Z)
    (slot0 : PoolId -> Address -> Address -> Address -> option Z -> M PoolDataV4) : ChainCalls := {|
  call_tick_data id _ zfo tick n sp block :=
    GetUniswapV4TickData (chain id block) (default head block) zfo tick n sp;
  call_pool_data := slot0;
|}.

End Contract.

(** ** What the contract reads *)

Section ContractLemmas.
Context {B : LibBit} {BL : LibBitLaws B}.

Lemma nextBitPosLte_spec word b init n :
  0 <= word < 2 ^ 256 -> 0 <= b < 256 -> TickLib.nextBitPosLte word b = (init, n) ->
  0 <= n <= b /\ init = Z.testbit word n /\ forall i, n < i <= b -> Z.testbit word i = false.
Proof.
  intros Hw Hb. unfold TickLib.nextBitPosLte. set (x := wrap_u 256 (Z.shiftl word (255 - b))).
  assert (forall i, 0 <= i < 256 -> Z.testbit x i = Z.testbit word (i - (255 - b))) as Hx.
  { intros i Hi. unfold x, wrap_u. rewrite Z.mod_pow2_bits_low by lia. apply Z.shiftl_spec. lia. }
  assert (0 <= x < 2 ^ 256) as Hr by (apply Z.mod_pos_bound; apply Z.pow_pos_nonneg; lia).
  clearbody x. destruct (decide (x = 0)) as [-> | Hx0].
  - rewrite fls_zero. intros [= <- <-].
    assert (forall i, 0 <= i <= b -> Z.testbit word i = false) as Hf.
    { intros i Hi. specialize (Hx (i + (255 - b)) ltac:(lia)). rewrite Z.bits_0 in Hx.
      by replace (i + (255 - b) - (255 - b)) with i in Hx by lia. }
    split; [lia |]. split; [symmetry; apply Hf; lia |]. intros i Hi. apply Hf. lia.
  - destruct (fls_spec x) as (Hf & Ht & Hn); [lia |]. rewrite (proj2 (Z.eqb_neq _ _)) by lia. simpl.
    intros [= <- <-]. rewrite Hx in Ht by lia.
    assert (0 <= fls x - (255 - b)).
    { destruct (decide (0 <= fls x - (255 - b))); [done |]. rewrite Z.testbit_neg_r in Ht by lia. done. }
    split; [lia |]. split; [done |]. intros i Hi. rewrite <- (Hn (i + (255 - b))) by lia.
    rewrite Hx by lia. f_equal. lia.
Qed.

Lemma nextBitPosGte_spec word b init n :
  0 <= word < 2 ^ 256 -> 0 <= b < 256 -> TickLib.nextBitPosGte word b = (init, n) ->
  b <= n < 256 /\ init = Z.testbit word n /\ forall i, b <= i < n -> Z.testbit word i = false.
Proof.
  intros Hw Hb. unfold TickLib.nextBitPosGte. set (x := Z.shiftr word b).
  assert (forall i, 0 <= i -> Z.testbit x i = Z.testbit word (i + b)) as Hx by (intros i Hi; by apply Z.shiftr_spec).
  assert (0 <= x < 2 ^ 256) as Hr.
  { unfold x. rewrite Z.shiftr_div_pow2 by lia. assert (1 <= 2 ^ b) by (apply (Z.pow_le_mono_r 2 0 b); lia).
    split; [apply Z.div_pos; lia | apply Z.div_lt_upper_bound; nia]. }
  clearbody x. destruct (decide (x = 0)) as [-> | Hx0].
  - rewrite ffs_zero. intros [= <- <-].
    assert (forall i, b <= i -> Z.testbit word i = false) as Hf.
    { intros i Hi. specialize (Hx (i - b) ltac:(lia)). rewrite Z.bits_0 in Hx. by replace (i - b + b) with i in Hx by lia. }
    split; [lia |]. split; [symmetry; apply Hf; lia |]. intros i Hi. apply Hf. lia.
  - destruct (ffs_spec x) as (Hf & Ht & Hn); [lia |]. rewrite (proj2 (Z.eqb_neq _ _)) by lia. simpl.
    intros [= <- <-]. rewrite Hx in Ht by lia.
    assert (ffs x + b < 256).
    { destruct (decide (ffs x + b < 256)); [done |].
      rewrite <- (Z.mod_small word (2 ^ 256)), Z.mod_pow2_bits_high in Ht by lia. done. }
    split; [lia |]. split; [done |]. intros i Hi. rewrite <- (Hn (i - b)) by lia. rewrite Hx by lia. f_equal. lia.
Qed.

Lemma compress_div t sp : 0 < sp -> TickLib.compress t sp = t / sp.
Proof.
  intros Hs. unfold TickLib.compress, sdiv, smod. rewrite (proj2 (Z.eqb_neq sp 0)) by lia.
  pose proof (Z.quot_rem' t sp) as E. pose proof (Z.rem_bound_abs t sp ltac:(lia)) as Hb.
  destruct (Z.ltb_spec (Z.rem t sp) 0).
  - apply (Z.div_unique_pos _ _ _ (Z.rem t sp + sp)); lia.
  - rewrite Z.sub_0_r. apply (Z.div_unique_pos _ _ _ (Z.rem t sp)); lia.
Qed.

Lemma position_spec c : TickLib.position c = (c / 256, c mod 256).
Proof.
  unfold TickLib.position. rewrite Z.shiftr_div_pow2 by done. change 255 with (Z.ones 8).
  by rewrite Z.land_ones.
Qed.

(** Whether a compressed tick is initialized on the chain. *)
Definition chain_bit (c : ChainPool) (x : Z) : bool :=
  Z.testbit (IUniV4.getPoolBitmapInfo c (x / 256)) (x mod 256).

Definition chain_ok (c : ChainPool) : Prop := forall w word, cp_bitmap c !! w = Some word -> 0 <= word < 2 ^ 256.

Lemma chain_word c w : chain_ok c -> 0 <= IUniV4.getPoolBitmapInfo c w < 2 ^ 256.
Proof. intros H. unfold IUniV4.getPoolBitmapInfo. destruct (cp_bitmap c !! w) eqn:E; simpl; [by eapply H | done]. Qed.

Lemma chain_bit_word c w b : 0 <= b < 256 -> chain_bit c (w * 256 + b) = Z.testbit (IUniV4.getPoolBitmapInfo c w) b.
Proof.
  intros Hb. unfold chain_bit. rewrite Z.div_add_l, (Z.div_small b), Z.add_0_r by lia.
  rewrite (Z.add_comm _ b), Z.mod_add, Z.mod_small by lia. done.
Qed.

Lemma int24_Ok x y : int24 x = Ok y -> y = x.
Proof. unfold int24. destruct (fits_i 24 x); congruence. Qed.

Lemma toTick_Ok w b sp t : TickLib.toTick w b sp = Ok t -> t = (w * 256 + b) * sp.
Proof. unfold TickLib.toTick. intros H. m_inv. repeat match goal with H : int24 _ = Ok _ |- _ => apply int24_Ok in H end. subst. done. Qed.

(** The first compressed tick a read from [t] considers, and the way it goes. *)
Definition first_tick (zfo : bool) (t sp : Z) : Z := if zfo then t / sp else t / sp + 1.
Definition sgn (zfo : bool) : Z := if zfo then -1 else 1.

(** One read stops at the first initialized tick or earlier. *)
Lemma contract_next_spec c zfo t sp init nt :
  chain_ok c -> 0 < sp -> contract_next c zfo t sp = Ok (init, nt) ->
  exists x, nt = x * sp /\ init = chain_bit c x /\ 0 <= sgn zfo * (x - first_tick zfo t sp) /\
    forall y, 0 <= sgn zfo * (y - first_tick zfo t sp) -> 0 < sgn zfo * (x - y) -> chain_bit c y = false.
Proof.
  intros Hc Hs H. unfold contract_next in H.
  assert (forall q, exists w b, TickLib.position q = (w, b) /\ q = w * 256 + b /\ 0 <= b < 256) as Hpos.
  { intros q. exists (q / 256), (q mod 256). pose proof (Z.div_mod q 256). pose proof (Z.mod_pos_bound q 256).
    rewrite position_spec. split; [done |]. lia. }
  destruct zfo; unfold IUniV4.getNextTickLe, IUniV4.getNextTickGt in H; rewrite compress_div in H by done;
    [| apply M_bind_Ok in H as (q & ->%int24_Ok & H)]; unfold first_tick, sgn;
    [destruct (Hpos (t / sp)) as (w & b & Ep & Eq & Hb) | destruct (Hpos (t / sp + 1)) as (w & b & Ep & Eq & Hb)];
    rewrite Ep in H;
    [destruct (TickLib.nextBitPosLte _ _) as [i n] eqn:En | destruct (TickLib.nextBitPosGte _ _) as [i n] eqn:En];
    (apply M_bind_Ok in H as (tt & ->%toTick_Ok & [= <- <-]));
    [apply nextBitPosLte_spec in En as (Hn & -> & Hf) | apply nextBitPosGte_spec in En as (Hn & -> & Hf)];
    try done; try (by apply chain_word); exists (w * 256 + n);
    (split; [done |]); (split; [symmetry; apply chain_bit_word; lia |]); (split; [lia |]);
    intros y Hy1 Hy2; replace y with (w * 256 + (y - w * 256)) by lia; rewrite chain_bit_word by lia; apply Hf; lia.
Qed.

(** What the contract reports of a compressed tick. *)
Definition chain_tick (c : ChainPool) (sp x : Z) : TickData :=
  mkTickData (chain_bit c x) (x * sp) (IUniV4.getTickLiquidity c (x * sp)).1 (IUniV4.getTickLiquidity c (x * sp)).2.

(** A read does not start outside the tick range. *)
Definition start_ok (zfo : bool) (q sp : Z) : Prop := if zfo then q * sp < MAX_TICK else - MAX_TICK <= q * sp.

Definition in_range (y sp : Z) : Prop := - MAX_TICK <= y * sp < MAX_TICK.

(** The ticks read get as far as [y]: fewer than asked for came back, or the last one is not before [y]. *)
Definition reads_to (zfo : bool) (n : nat) (xs : list Z) (y : Z) : Prop :=
  (length xs < n)%nat \/ exists e, last xs = Some e /\ 0 <= sgn zfo * (e - y).

(** The ticks [xs] are what a read of [n] ticks from [q] on returns. *)
Record scan_ok (c : ChainPool) (zfo : bool) (sp q : Z) (n : nat) (xs : list Z) : Prop := {
  scan_length : (length xs <= n)%nat;
  scan_ahead : Forall (fun x => 0 <= sgn zfo * (x - q)) xs;
  scan_last : forall e, last xs = Some e ->
    Z.of_nat (length xs) - 1 <= sgn zfo * (e - q) /\ Forall (fun x => 0 <= sgn zfo * (e - x)) xs;
  scan_complete : forall y, 0 <= sgn zfo * (y - q) -> chain_bit c y = true -> in_range y sp ->
    reads_to zfo n xs y -> y ∈ xs;
}.

Lemma first_tick_next zfo x sp : 0 < sp -> first_tick zfo (if zfo then x * sp - 1 else x * sp) sp = x + sgn zfo.
Proof.
  intros Hs. unfold first_tick, sgn. destruct zfo.
  - symmetry. apply (Z.div_unique_pos _ _ _ (sp - 1)); lia.
  - by rewrite Z.div_mul by lia.
Qed.

Lemma scan_cons c zfo sp q n x xs :
  0 <= sgn zfo * (x - q) ->
  (forall y, 0 <= sgn zfo * (y - q) -> 0 < sgn zfo * (x - y) -> chain_bit c y = false) ->
  scan_ok c zfo sp (x + sgn zfo) n xs -> scan_ok c zfo sp q (S n) (x :: xs).
Proof.
  intros Hx Hf [Hl Ha He Hc]. assert (sgn zfo * sgn zfo = 1) as Hsq by (by destruct zfo).
  assert (forall z, 0 <= sgn zfo * (z - (x + sgn zfo)) -> 1 <= sgn zfo * (z - x)) as Hz by (intros; lia).
  split.
  - simpl. lia.
  - constructor; [done |]. eapply Forall_impl; [done |]. intros z Hz'. simpl in Hz'. lia.
  - intros e Hle. rewrite last_cons in Hle. destruct (last xs) as [e' |] eqn:El.
    + injection Hle as ->. destruct (He e eq_refl) as [H1 H2]. cbn [length]. split; [lia |].
      constructor; [| done]. lia.
    + injection Hle as <-. apply last_None in El as ->. simpl. split; [lia |]. constructor; [lia | constructor].
  - intros y Hy Hb Hr Hreach. destruct (decide (y = x)) as [-> | Hne]; [set_solver |].
    assert (1 <= sgn zfo * (y - x)) as Hyx.
    { destruct (decide (0 < sgn zfo * (x - y))) as [H | H]; [rewrite Hf in Hb by done; done |].
      destruct zfo; unfold sgn in *; lia. }
    apply elem_of_cons. right. apply Hc; [lia | done | done |].
    destruct Hreach as [Hn | (e & Hle & Hey)]; [left; simpl in Hn; lia |].
    rewrite last_cons in Hle. destruct (last xs) as [e' |] eqn:El; [| injection Hle as <-; lia].
    injection Hle as ->. right. by exists e.
Qed.

Lemma contract_loop_spec n c zfo t sp acc out :
  chain_ok c -> 0 < sp -> start_ok zfo (first_tick zfo t sp) sp ->
  contract_loop n c zfo t sp acc = Ok out ->
  exists xs, out = acc ++ map (chain_tick c sp) xs /\ scan_ok c zfo sp (first_tick zfo t sp) n xs.
Proof.
  intros Hc Hs. revert t acc. induction n as [| n IH]; intros t acc Hst H; cbn [contract_loop] in H.
  - injection H as <-. exists []. rewrite app_nil_r. split; [done |]. split; [done | constructor | done |].
    intros y _ _ _ [Hn | (e & He & _)]; [simpl in Hn; lia | done].
  - apply M_bind_Ok in H as ([init nt] & Hn & H).
    destruct (contract_next_spec _ _ _ _ _ _ Hc Hs Hn) as (x & -> & -> & Hx & Hf).
    destruct (IUniV4.getTickLiquidity c (x * sp)) as [gross net] eqn:El.
    destruct ((x * sp <? - MAX_TICK) || (MAX_TICK <=? x * sp)) eqn:Er.
    + injection H as <-. exists []. rewrite app_nil_r. split; [done |]. split; [simpl; lia | constructor | done |].
      intros y Hy Hb Hr _. exfalso. unfold in_range, start_ok in *.
      destruct (decide (0 < sgn zfo * (x - y))) as [H | H]; [rewrite Hf in Hb by done; done |].
      apply orb_true_iff in Er. rewrite Z.ltb_lt, Z.leb_le in Er. destruct zfo; unfold sgn in *; nia.
    + apply M_bind_Ok in H as (t' & Ht' & H).
      assert (first_tick zfo t' sp = x + sgn zfo) as Eq.
      { rewrite <- (first_tick_next zfo x sp Hs). f_equal. destruct zfo; [by apply int24_Ok in Ht' | congruence]. }
      apply orb_false_iff in Er as [Er1%Z.ltb_ge Er2%Z.leb_gt].
      destruct (IH t' (acc ++ [mkTickData (chain_bit c x) (x * sp) gross net])) as (xs & -> & Hok);
        [rewrite Eq; unfold start_ok, sgn; destruct zfo; lia | done |].
      exists (x :: xs). split; [| by rewrite Eq in Hok; eapply scan_cons].
      rewrite <- app_assoc. simpl. unfold chain_tick at 2. by rewrite El.
Qed.

End ContractLemmas.

(** ** What the node reads *)

Lemma fold_min_eq l t m : (forall x, x ∈ t :: l -> m <= x) -> m ∈ t :: l -> fold_left Z.min l t = m.
Proof.
  revert t. induction l as [| x l IH]; intros t Hle Hm; simpl; [set_solver |].
  pose proof (Hle t ltac:(set_solver)). pose proof (Hle x ltac:(set_solver)). apply IH.
  - intros y [-> | Hy]%elem_of_cons; [lia | apply Hle; set_solver].
  - apply elem_of_cons in Hm as [-> | [-> | Hm]%elem_of_cons]; apply elem_of_cons; [left; lia | left; lia | by right].
Qed.

Lemma fold_max_eq l t m : (forall x, x ∈ t :: l -> x <= m) -> m ∈ t :: l -> fold_left Z.max l t = m.
Proof.
  revert t. induction l as [| x l IH]; intros t Hle Hm; simpl; [set_solver |].
  pose proof (Hle t ltac:(set_solver)). pose proof (Hle x ltac:(set_solver)). apply IH.
  - intros y [-> | Hy]%elem_of_cons; [lia | apply Hle; set_solver].
  - apply elem_of_cons in Hm as [-> | [-> | Hm]%elem_of_cons]; apply elem_of_cons; [left; lia | left; lia | by right].
Qed.

Section NodeLemmas.
Context {P : Profile} {B : LibBit} {BL : LibBitLaws B}.
Context (chain : PoolId -> option Z -> ChainPool) (head_block : Z).
Context (slot0 : PoolId -> Address -> Address -> Address -> option Z -> M PoolDataV4).

#[local] Instance node_calls : ChainCalls := contract_calls chain head_block slot0.

Lemma next_start_last c zfo sp xs e :
  0 < sp -> last xs = Some e -> Forall (fun x => 0 <= sgn zfo * (e - x)) xs ->
  next_start zfo (map (chain_tick c sp) xs) = Some (e * sp).
Proof.
  intros Hs He Hf. unfold next_start. rewrite map_map. simpl.
  destruct xs as [| x xs]; [done |]. cbn [map]. f_equal.
  assert (e * sp ∈ x * sp :: map (fun z => z * sp) xs) as Hin.
  { apply last_Some_elem_of in He. change (x * sp :: map (fun z => z * sp) xs) with (map (fun z => z * sp) (x :: xs)).
    apply list_elem_of_fmap. by exists e. }
  assert (forall z, z ∈ x * sp :: map (fun z => z * sp) xs -> 0 <= sgn zfo * (e * sp - z)) as Hall.
  { intros z Hz. change (x * sp :: map (fun z => z * sp) xs) with ((fun z => z * sp) <$> (x :: xs)) in Hz.
    apply list_elem_of_fmap in Hz as (y & -> & Hy). rewrite Forall_forall in Hf. specialize (Hf y Hy).
    destruct zfo; unfold sgn in *; nia. }
  destruct zfo; [apply fold_min_eq | apply fold_max_eq]; try done; intros z Hz; specialize (Hall z Hz);
    unfold sgn in Hall; lia.
Qed.

(** One batch of the node is one scan of the chain's pool. *)
Lemma batch_scan p start zfo n b l x :
  0 < tick_spacing p <= MAX_I24 -> 0 <= n <= u_max 16 -> chain_ok (chain (dl_private_address (data_loader p)) b) ->
  start_ok zfo (first_tick zfo start (tick_spacing p)) (tick_spacing p) ->
  get_tick_data_batch_request p start zfo n b = Ok (l, x) ->
  exists xs, l = map (chain_tick (chain (dl_private_address (data_loader p)) b) (tick_spacing p)) xs /\
    scan_ok (chain (dl_private_address (data_loader p)) b) zfo (tick_spacing p)
      (first_tick zfo start (tick_spacing p)) (Z.to_nat n) xs.
Proof.
  intros Hs Hn Hc Hst H. unfold get_tick_data_batch_request, load_tick_data in H.
  rewrite i32_to_i24_spec in H by (unfold MIN_I24; lia). cbn [M_bind] in H.
  apply M_bind_Ok in H as (pm & _ & H). apply M_bind_Ok in H as (res & Hres & H).
  cbn [call_tick_data node_calls contract_calls] in Hres. unfold GetUniswapV4TickData in Hres.
  apply M_bind_Ok in Hres as (filled & Hf & [= <-]).
  apply M_bind_Ok in H as (v & [-> _]%uint_from_Ok & [= <- <-]). cbn [tb_valid_to tb_ticks].
  rewrite Nat2Z.id, take_app_length.
  destruct (contract_loop_spec _ _ _ _ _ _ _ Hc (proj1 Hs) Hst Hf) as (xs & -> & Hok). by exists xs.
Qed.

(** How many ticks [k] batches are sure to get past: downwards every batch but
    the first repeats the tick its predecessor ended at. *)
Definition span (zfo : bool) (k : nat) : Z :=
  match k with O => 0 | _ => if zfo then 24 * Z.of_nat k + 1 else 25 * Z.of_nat k end.

Lemma load_batches_scan k p b zfo t acc cur out :
  let sp := tick_spacing p in
  let c := chain (dl_private_address (data_loader p)) b in
  let q := first_tick zfo t sp in
  0 < sp <= MAX_I24 -> chain_ok c -> start_ok zfo q sp ->
  load_batches k p b zfo t acc = Ok (cur, out) ->
  exists xs, out = acc ++ map (chain_tick c sp) xs /\
    forall y, 0 <= sgn zfo * (y - q) < span zfo k -> chain_bit c y = true -> in_range y sp -> y ∈ xs.
Proof.
  cbn zeta. intros Hs Hc. revert t acc. induction k as [| k IH]; intros t acc Hst H; cbn [load_batches] in H.
  { injection H as <- <-. exists []. rewrite app_nil_r. split; [done |]. intros y Hy. simpl in Hy. lia. }
  apply M_bind_Ok in H as (start & [-> _]%i32_to_i24_Ok & H). apply M_bind_Ok in H as ([batch x] & Hb & H).
  assert (0 <= TICKS_PER_BATCH <= u_max 16) as Hn by (by vm_compute).
  destruct (batch_scan _ _ _ _ _ _ _ Hs Hn Hc Hst Hb) as (xs & -> & [Hl Ha He Hco]).
  change (Z.to_nat TICKS_PER_BATCH) with 25%nat in *. rewrite length_map in H.
  destruct (last xs) as [e |] eqn:El.
  2: { apply last_None in El as ->. injection H as <- <-. exists []. rewrite app_nil_r. split; [done |].
       intros y Hy Hbit Hr. apply (Hco y); [lia | done | done |]. left. simpl. lia. }
  destruct (He e eq_refl) as [Hg Hbe]. rewrite (next_start_last _ _ _ _ e) in H by (done || lia).
  destruct (Z.eqb_spec (Z.of_nat (length xs)) TICKS_PER_BATCH) as [Hlen | Hlen]; simpl in H.
  2: { injection H as <- <-. exists xs. split; [done |]. intros y Hy Hbit Hr.
       apply (Hco y); [lia | done | done |]. left. unfold TICKS_PER_BATCH in Hlen. lia. }
  unfold TICKS_PER_BATCH in Hlen. rewrite Hlen in Hg.
  assert (first_tick zfo (e * tick_spacing p) (tick_spacing p) = if zfo then e else e + 1) as Eq
    by (unfold first_tick; rewrite Z.div_mul by lia; by destruct zfo).
  destruct (IH (e * tick_spacing p) (acc ++ map (chain_tick (chain (dl_private_address (data_loader p)) b)
              (tick_spacing p)) xs)) as (xs' & -> & Hxs').
  { rewrite Eq. unfold start_ok, sgn in *. destruct zfo; nia. }
  { done. }
  exists (xs ++ xs'). rewrite map_app, app_assoc. split; [done |]. intros y Hy Hbit Hr. apply elem_of_app.
  destruct (decide (0 <= sgn zfo * (e - y))) as [Hey | Hey].
  - left. apply (Hco y); [lia | done | done |]. right. by exists e.
  - right. apply Hxs'; [| done | done]. rewrite Eq. unfold span in *.
    destruct k, zfo; unfold sgn in *; cbn iota in *; lia.
Qed.

(** *** The whole synchronization *)

Lemma contract_next_aligned c zfo t sp init nt :
  contract_next c zfo t sp = Ok (init, nt) -> exists x, nt = x * sp /\ in_i24 x.
Proof.
  intros H. assert (forall w b t, TickLib.toTick w b sp = Ok t -> exists x, t = x * sp /\ in_i24 x) as Ht.
  { intros w b t' Ht. pose proof (toTick_Ok _ _ _ _ Ht) as ->. exists (w * 256 + b). split; [done |].
    unfold TickLib.toTick in Ht. apply M_bind_Ok in Ht as (y & ->%int24_Ok & Ht). apply M_bind_Ok in Ht as (z & Hz & _).
    unfold int24 in Hz. destruct (fits_i 24 _) eqn:E; [| done]. by apply fits_i_true in E. }
  unfold contract_next in H. destruct zfo; unfold IUniV4.getNextTickLe, IUniV4.getNextTickGt in H;
    [| apply M_bind_Ok in H as (q & _ & H)]; destruct (TickLib.position _) as [w b0];
    [destruct (TickLib.nextBitPosLte _ _) | destruct (TickLib.nextBitPosGte _ _)];
    apply M_bind_Ok in H as (t' & H & [= <- <-]); by eapply Ht.
Qed.

Lemma contract_loop_aligned n c zfo t sp acc out :
  Forall (tick_aligned sp) acc -> contract_loop n c zfo t sp acc = Ok out -> Forall (tick_aligned sp) out.
Proof.
  revert t acc. induction n as [| n IH]; intros t acc Ha H; cbn [contract_loop] in H; [by injection H as <- |].
  apply M_bind_Ok in H as ([init nt] & Hn & H). destruct (IUniV4.getTickLiquidity c nt) as [gross net].
  destruct (_ || _); [by injection H as <- |]. apply M_bind_Ok in H as (t' & _ & H).
  eapply IH; [| done]. apply Forall_app_2; [done |]. constructor; [| constructor].
  intros _. by apply contract_next_aligned in Hn.
Qed.

Lemma contract_calls_aligned : TickCallLaws node_calls.
Proof.
  intros id pm zfo t n sp b res d H Hd. cbn [call_tick_data node_calls contract_calls] in H. unfold GetUniswapV4TickData in H.
  apply M_bind_Ok in H as (filled & Hf & [= <-]). cbn [tb_ticks] in Hd.
  apply elem_of_app in Hd as [Hd | [-> _]%elem_of_replicate]; [| done].
  apply contract_loop_aligned in Hf; [| constructor]. rewrite Forall_forall in Hf. by apply Hf.
Qed.

(** The compressed ticks each direction is sure to read: [w] below the current
    tick, and [w] above it less what the repeated ticks of the downward batches cost. *)
Definition sync_window (p : EnhancedUniswapPool) (zfo : bool) (x : Z) : Prop :=
  let c0 := tick p / tick_spacing p in
  let w := initial_ticks_per_side p in
  if zfo then c0 + w - 24 * div_ceil w TICKS_PER_BATCH <= x < c0 + w else c0 - w + 2 <= x <= c0.

(** The window lies inside the range of ticks. *)
Definition window_in_range (p : EnhancedUniswapPool) : Prop :=
  1 <= initial_ticks_per_side p <= u_max 16 /\ 0 < tick_spacing p <= MAX_I24 /\
  - MAX_TICK <= tick p - tick_spacing p * initial_ticks_per_side p /\
  tick p + tick_spacing p * initial_ticks_per_side p < MAX_TICK.

Lemma rem_zero_div t sp : 0 < sp -> (if Z.rem t sp =? 0 then 1 else 0) = if t mod sp =? 0 then 1 else 0.
Proof.
  intros Hs. pose proof (Z.rem_divide t sp ltac:(lia)) as Hr. pose proof (Z.mod_divide t sp ltac:(lia)) as Hm.
  destruct (Z.eqb_spec (Z.rem t sp) 0), (Z.eqb_spec (t mod sp) 0); tauto.
Qed.

Lemma first_tick_start zfo t sp w :
  0 < sp -> let extra := if t mod sp =? 0 then 1 else 0 in
  let q := first_tick zfo (t + (if zfo then sp * w - extra else - (sp * w - extra))) sp in
  if zfo then t / sp + w - 1 <= q <= t / sp + w else t / sp - w + 1 <= q <= t / sp - w + 2.
Proof.
  intros Hs. cbn zeta. pose proof (Z.div_mod t sp ltac:(lia)) as E. pose proof (Z.mod_pos_bound t sp Hs).
  unfold first_tick. destruct zfo; [split; [apply Z.div_le_lower_bound | apply Z.lt_succ_r, Z.div_lt_upper_bound]; try lia;
    destruct (Z.eqb_spec (t mod sp) 0); nia |].
  assert (t / sp - w <= (t + - (sp * w - (if t mod sp =? 0 then 1 else 0))) / sp <= t / sp - w + 1); [| lia].
  split; [apply Z.div_le_lower_bound | apply Z.lt_succ_r, Z.div_lt_upper_bound]; try lia;
    destruct (Z.eqb_spec (t mod sp) 0); nia.
Qed.

(** Where the reads of a direction start. *)
Definition sync_start (p : EnhancedUniswapPool) (zfo : bool) : Z :=
  let extra := if tick p mod tick_spacing p =? 0 then 1 else 0 in
  tick p + (if zfo then tick_spacing p * initial_ticks_per_side p - extra
            else - (tick_spacing p * initial_ticks_per_side p - extra)).

Lemma load_direction_eq p b zfo :
  window_in_range p ->
  load_ticks_in_direction p b zfo =
  (let* (cur, out) := load_batches (Z.to_nat (div_ceil (initial_ticks_per_side p) TICKS_PER_BATCH)) p b zfo
                        (sync_start p zfo) [] in Ok (sync_start p zfo, cur, out)).
Proof.
  intros (Hw & Hs & Hlo & Hhi). unfold load_ticks_in_direction, sync_start.
  rewrite (proj2 (Z.eqb_neq (tick_spacing p) 0)) by lia. rewrite rem_zero_div by lia.
  set (extra := if tick p mod tick_spacing p =? 0 then 1 else 0) in *.
  assert (0 <= extra <= 1) by (unfold extra; destruct (_ =? 0); lia).
  assert (i_min 32 = -2147483648) by done. assert (i_max 32 = 2147483647) by done. unfold MAX_TICK in *.
  rewrite (checked_i_Ok 32 (tick_spacing p * initial_ticks_per_side p)) by nia. cbn [M_bind].
  rewrite (checked_i_Ok 32 (_ - extra)) by nia. cbn [M_bind].
  destruct zfo; [| rewrite (checked_i_Ok 32 (- _)) by nia]; cbn [M_bind]; rewrite checked_i_Ok by nia; done.
Qed.

Lemma sync_start_ok p zfo :
  window_in_range p -> start_ok zfo (first_tick zfo (sync_start p zfo) (tick_spacing p)) (tick_spacing p).
Proof.
  intros (Hw & Hs & Hlo & Hhi). unfold start_ok, first_tick, sync_start.
  set (extra := if tick p mod tick_spacing p =? 0 then 1 else 0).
  assert (0 <= extra <= 1) by (unfold extra; destruct (_ =? 0); lia). destruct zfo.
  - pose proof (Z.mul_div_le (tick p + (tick_spacing p * initial_ticks_per_side p - extra)) (tick_spacing p) (proj1 Hs)).
    lia.
  - pose proof (Z.mul_succ_div_gt (tick p + - (tick_spacing p * initial_ticks_per_side p - extra)) (tick_spacing p) (proj1 Hs)).
    lia.
Qed.

Lemma load_direction_scan p b zfo s e l :
  window_in_range p -> chain_ok (chain (dl_private_address (data_loader p)) b) ->
  load_ticks_in_direction p b zfo = Ok (s, e, l) ->
  exists xs, l = map (chain_tick (chain (dl_private_address (data_loader p)) b) (tick_spacing p)) xs /\
    forall y, sync_window p zfo y -> chain_bit (chain (dl_private_address (data_loader p)) b) y = true ->
      in_range y (tick_spacing p) -> y ∈ xs.
Proof.
  intros Hwin Hc H. rewrite load_direction_eq in H by done. apply M_bind_Ok in H as ([cur out] & Hb & [= <- <- <-]).
  destruct (load_batches_scan _ _ _ _ _ _ _ _ (proj1 (proj2 Hwin)) Hc (sync_start_ok p zfo Hwin) Hb) as (xs & -> & Hxs).
  exists xs. split; [done |]. intros y Hy Hbit Hr. apply (Hxs y); [| done | done].
  destruct Hwin as (Hw & Hs & _).
  pose proof (first_tick_start zfo (tick p) (tick_spacing p) (initial_ticks_per_side p) (proj1 Hs)) as Hq.
  cbn zeta in Hq. change (tick p + _) with (sync_start p zfo) in Hq.
  pose proof (div_ceil_le (initial_ticks_per_side p) 25 (div_ceil (initial_ticks_per_side p) 25) ltac:(lia)) as Hk.
  unfold sync_window, TICKS_PER_BATCH in *. set (k := div_ceil (initial_ticks_per_side p) 25) in *.
  assert (1 <= k) by lia. unfold span. destruct (Z.to_nat k) as [| k'] eqn:Ek; [lia |].
  destruct zfo; unfold sgn; lia.
Qed.

(** *** The reads do not revert *)

(** Spacings for which no tick of the word of a valid tick leaves 24 bits. *)
Definition spacing_ok (sp : Z) : Prop := 0 < sp <= 29000.

Definition tick_ok (t : Z) : Prop := - MAX_TICK - 1 <= t <= MAX_TICK.

Lemma int24_total x : MIN_I24 <= x <= MAX_I24 -> int24 x = Ok x.
Proof. intros H. unfold int24. by rewrite (proj2 (fits_i_true 24 x)). Qed.

Lemma toTick_total q sp n :
  spacing_ok sp -> - MAX_TICK - 1 - sp <= q * sp <= MAX_TICK + sp -> 0 <= n < 256 ->
  TickLib.toTick (q / 256) n sp = Ok ((q / 256 * 256 + n) * sp).
Proof.
  intros [Hs0 Hs] Hq Hn. unfold TickLib.toTick, MAX_TICK in *.
  pose proof (Z.div_mod q 256 ltac:(lia)). pose proof (Z.mod_pos_bound q 256 ltac:(lia)).
  assert (-900000 <= q <= 900000) by nia.
  rewrite int24_total by (unfold MIN_I24, MAX_I24; lia). cbn [M_bind].
  rewrite int24_total by (unfold MIN_I24, MAX_I24; lia). cbn [M_bind].
  apply int24_total. unfold MIN_I24, MAX_I24. nia.
Qed.

Lemma contract_next_total c zfo t sp :
  chain_ok c -> spacing_ok sp -> tick_ok t -> exists r, contract_next c zfo t sp = Ok r.
Proof.
  intros Hc Hs Ht. pose proof Hs as [Hs0 Hs1].
  pose proof (Z.mul_div_le t sp Hs0). pose proof (Z.mul_succ_div_gt t sp Hs0).
  assert (-900000 <= t / sp <= 900000) by (unfold tick_ok, MAX_TICK in *; nia).
  unfold contract_next. destruct zfo; unfold IUniV4.getNextTickLe, IUniV4.getNextTickGt; rewrite compress_div by done;
    [| rewrite int24_total by (unfold MIN_I24, MAX_I24; lia); cbn [M_bind]]; rewrite position_spec;
    [destruct (TickLib.nextBitPosLte _ _) as [i n] eqn:En | destruct (TickLib.nextBitPosGte _ _) as [i n] eqn:En];
    [apply nextBitPosLte_spec in En as [Hn _] | apply nextBitPosGte_spec in En as [Hn _]];
    try (by apply chain_word); try (apply Z.mod_pos_bound; lia);
    [pose proof (Z.mod_pos_bound (t / sp) 256 ltac:(lia)) | pose proof (Z.mod_pos_bound (t / sp + 1) 256 ltac:(lia))];
    rewrite toTick_total by (done || unfold tick_ok, MAX_TICK in *; nia); by eexists.
Qed.

Lemma contract_loop_total n c zfo t sp acc :
  chain_ok c -> spacing_ok sp -> tick_ok t -> exists out, contract_loop n c zfo t sp acc = Ok out.
Proof.
  intros Hc Hs. revert t acc. induction n as [| n IH]; intros t acc Ht; cbn [contract_loop]; [by eexists |].
  destruct (contract_next_total c zfo t sp Hc Hs Ht) as [[init nt] ->]. cbn [M_bind].
  destruct (IUniV4.getTickLiquidity c nt) as [gross net].
  destruct (_ || _) eqn:Er; [by eexists |]. apply orb_false_iff in Er as [Er1%Z.ltb_ge Er2%Z.leb_gt].
  unfold tick_ok, MAX_TICK in *.
  destruct zfo; [rewrite int24_total by (unfold MIN_I24, MAX_I24; lia) |]; cbn [M_bind]; apply IH; lia.
Qed.

Lemma contract_loop_length n c zfo t sp acc out :
  contract_loop n c zfo t sp acc = Ok out -> (length out <= length acc + n)%nat.
Proof.
  revert t acc. induction n as [| n IH]; intros t acc H; cbn [contract_loop] in H; [injection H as <-; lia |].
  apply M_bind_Ok in H as ([init nt] & _ & H). destruct (IUniV4.getTickLiquidity c nt) as [gross net].
  destruct (_ || _); [injection H as <-; lia |]. apply M_bind_Ok in H as (t' & _ & H). apply IH in H.
  rewrite length_app in H. simpl in H. lia.
Qed.

(** Every tick a batch reports is in the tick range. *)
Lemma contract_loop_range n c zfo t sp acc out :
  Forall (fun d => - MAX_TICK <= td_tick d < MAX_TICK) acc ->
  contract_loop n c zfo t sp acc = Ok out -> Forall (fun d => - MAX_TICK <= td_tick d < MAX_TICK) out.
Proof.
  revert t acc. induction n as [| n IH]; intros t acc Ha H; cbn [contract_loop] in H; [by injection H as <- |].
  apply M_bind_Ok in H as ([init nt] & Hn & H). destruct (IUniV4.getTickLiquidity c nt) as [gross net].
  destruct (_ || _) eqn:Er; [by injection H as <- |]. apply orb_false_iff in Er as [Er1%Z.ltb_ge Er2%Z.leb_gt].
  apply M_bind_Ok in H as (t' & _ & H). eapply IH; [| done].
  apply Forall_app_2; [done |]. constructor; [done | constructor].
Qed.

Lemma next_start_elem zfo l e : next_start zfo l = Some e -> exists d, d ∈ l /\ td_tick d = e.
Proof.
  assert (forall f, (forall a b : Z, f a b = a \/ f a b = b) -> forall (k : list Z) t, fold_left f k t ∈ t :: k) as Hf.
  { intros f Hf k. induction k as [| x k IH]; intros t; simpl; [set_solver |].
    specialize (IH (f t x)). apply elem_of_cons in IH as [-> | IH]; [destruct (Hf t x) as [-> | ->]; set_solver | set_solver]. }
  unfold next_start. destruct (map td_tick l) as [| t k] eqn:El; [done |]. intros [= <-].
  assert (fold_left (if zfo then Z.min else Z.max) k t ∈ td_tick <$> l) as H.
  { change (td_tick <$> l) with (map td_tick l). rewrite El. apply Hf. intros a b. destruct zfo; lia. }
  apply list_elem_of_fmap in H as (d & E & Hd). by exists d.
Qed.

Lemma load_batches_total k p b zfo t acc :
  spacing_ok (tick_spacing p) -> chain_ok (chain (dl_private_address (data_loader p)) b) ->
  is_Some (dl_pool_manager (data_loader p)) -> tick_ok t ->
  exists r, load_batches k p b zfo t acc = Ok r.
Proof.
  intros Hs Hc [pm Hpm]. revert t acc. induction k as [| k IH]; intros t acc Ht; cbn [load_batches]; [by eexists |].
  rewrite i32_to_i24_spec by (unfold tick_ok, MAX_TICK, MIN_I24, MAX_I24 in *; lia). cbn [M_bind].
  unfold get_tick_data_batch_request, load_tick_data.
  rewrite i32_to_i24_spec by (unfold spacing_ok, MIN_I24, MAX_I24 in *; lia). cbn [M_bind].
  rewrite Hpm. cbn [unwrap M_bind call_tick_data node_calls contract_calls]. unfold GetUniswapV4TickData.
  destruct (contract_loop_total (Z.to_nat TICKS_PER_BATCH) _ zfo t _ [] Hc Hs Ht) as [filled Ef].
  rewrite Ef. cbn [M_bind tb_valid_to tb_ticks].
  pose proof (contract_loop_length _ _ _ _ _ _ _ Ef) as Hlen.
  change (length [] + Z.to_nat TICKS_PER_BATCH)%nat with 25%nat in Hlen. assert (25 <= u_max 64) by (by vm_compute).
  rewrite (proj2 (uint_from_Ok 64 (Z.of_nat (length filled)) _)) by (split; [done | lia]). cbn [M_bind].
  rewrite Nat2Z.id, take_app_length. destruct (next_start zfo filled) as [e |] eqn:En; [| by eexists].
  destruct (negb _); [by eexists |]. apply IH. destruct (next_start_elem _ _ _ En) as (d & Hd & <-).
  apply contract_loop_range in Ef; [| constructor]. rewrite Forall_forall in Ef. specialize (Ef d Hd).
  unfold tick_ok. lia.
Qed.

Lemma load_direction_total p b zfo :
  window_in_range p -> spacing_ok (tick_spacing p) -> chain_ok (chain (dl_private_address (data_loader p)) b) ->
  is_Some (dl_pool_manager (data_loader p)) -> exists r, load_ticks_in_direction p b zfo = Ok r.
Proof.
  intros Hwin Hs Hc Hpm. rewrite load_direction_eq by done. destruct Hwin as (Hw & _ & Hlo & Hhi).
  destruct (load_batches_total (Z.to_nat (div_ceil (initial_ticks_per_side p) TICKS_PER_BATCH)) p b zfo
              (sync_start p zfo) [] Hs Hc Hpm) as [[cur out] ->]; [| by eexists].
  unfold tick_ok, sync_start. set (extra := if _ =? 0 then 1 else 0).
  assert (0 <= extra <= 1) by (unfold extra; destruct (_ =? 0); lia). unfold spacing_ok in Hs. destruct zfo; nia.
Qed.

Lemma sync_ticks_total {T : TickBitmap} {TL : TickBitmapLaws T} p b :
  data_is_populated p = true -> is_Some (dl_pool_manager (data_loader p)) -> window_in_range p ->
  spacing_ok (tick_spacing p) -> chain_ok (chain (dl_private_address (data_loader p)) b) ->
  exists p', sync_ticks p b = Ok p'.
Proof.
  intros Hd Hpm Hwin Hs Hc. pose proof contract_calls_aligned as NL. unfold sync_ticks. rewrite Hd. simpl negb. cbn iota.
  set (p0 := set_tick_state p ∅ ∅). assert (0 < tick_spacing p0 <= MAX_I24) as Hs0 by apply Hwin.
  destruct (load_direction_total p0 b true Hwin Hs Hc Hpm) as [[[s e] asks] Ea].
  destruct (load_direction_total p0 b false Hwin Hs Hc Hpm) as [[[s' e'] bids] Eb].
  rewrite Ea, Eb. cbn [M_bind].
  pose proof (load_direction_aligned p0 _ _ _ _ _ Hs0 Ea) as Ha.
  pose proof (load_direction_aligned p0 _ _ _ _ _ Hs0 Eb) as Hb.
  destruct (apply_ticks_spec p0 asks (ticks_ok_empty p (proj1 Hs0)) Ha) as (q & -> & Hq & Eq & _). cbn [M_bind].
  assert (tick_spacing q = tick_spacing p0) as Es by (by injection Eq).
  destruct (apply_ticks_spec q bids Hq) as (q' & -> & _); [by rewrite Es | by eexists].
Qed.

End NodeLemmas.

(** ** Theorems *)

(** C7: against the loader contract, a synchronization of a pool whose window of ticks lies in
    the tick range returns, and the ticks it stores are ticks the chain has
    initialized, with the chain's liquidity; none of the initialized ticks of the window
    is missing.  Downwards the window is shorter: every batch starts by reading again the tick
    at which the one before it ended. *)
Theorem sync_follows_chain (P : Profile) (T : TickBitmap) (TL : TickBitmapLaws T) (B : LibBit) (BL : LibBitLaws B)
    chain head_block slot0 p b :
  let c := chain (dl_private_address (data_loader p)) b in
  let sp := tick_spacing p in
  data_is_populated p = true -> is_Some (dl_pool_manager (data_loader p)) ->
  window_in_range p -> spacing_ok sp -> chain_ok c ->
  exists p', sync_ticks (N := contract_calls chain head_block slot0) p b = Ok p' /\
    (forall t info, ticks p' !! t = Some info -> exists x, t = x * sp /\ chain_bit c x = true /\
       info = mkTickInfo (IUniV4.getTickLiquidity c t).1 (IUniV4.getTickLiquidity c t).2 true) /\
    (forall x, sync_window p true x \/ sync_window p false x -> chain_bit c x = true -> in_range x sp ->
       is_Some (ticks p' !! (x * sp))).
Proof.
  cbn zeta. intros Hd Hpm Hwin Hsp Hc. set (N := contract_calls chain head_block slot0).
  pose proof (contract_calls_aligned chain head_block slot0) as NL.
  assert (exists p', sync_ticks (N := N) p b = Ok p') as [p' Ep'] by (by apply sync_ticks_total).
  exists p'. split; [done |].
  destruct (sync_ticks_spec p b p' (proj1 (proj2 Hwin)) Ep') as (_ & _ & s & e & s' & e' & asks & bids & Ea & Eb & Hi & Hv).
  destruct (load_direction_scan chain head_block slot0 (set_tick_state p ∅ ∅) _ _ _ _ _ Hwin Hc Ea) as (xs & -> & Hxs).
  destruct (load_direction_scan chain head_block slot0 (set_tick_state p ∅ ∅) _ _ _ _ _ Hwin Hc Eb) as (ys & -> & Hys).
  split.
  - intros t info (d & Hd' & Hdi & <- & ->)%Hv. rewrite !list_elem_of_In, !in_map_iff in Hd'.
    destruct Hd' as [(x & <- & _) | (x & <- & _)]; by exists x.
  - intros x Hx Hbit Hr. apply Hi. exists (chain_tick (chain (dl_private_address (data_loader p)) b) (tick_spacing p) x).
    split; [| done]. destruct Hx as [Hx | Hx]; [left | right]; apply list_elem_of_fmap; exists x; split; auto.
Qed.

(** ** Witnesses *)

Fixpoint first_bit (n : nat) (i x : Z) : Z :=
  match n with O => 256 | S n => if Z.testbit x i then i else first_bit n (i + 1) x end.

Definition log2_bits : LibBit := {|
  fls x := if x =? 0 then 256 else Z.log2 x;
  ffs x := first_bit 256 0 x;
|}.

Lemma first_bit_spec n i x j :
  i <= j < i + Z.of_nat n -> Z.testbit x j = true ->
  i <= first_bit n i x < i + Z.of_nat n /\ Z.testbit x (first_bit n i x) = true /\
  forall k, i <= k < first_bit n i x -> Z.testbit x k = false.
Proof.
  revert i. induction n as [| n IH]; intros i Hj Hb; [lia |]. cbn [first_bit].
  destruct (Z.testbit x i) eqn:Ei; [split; [lia |]; split; [done |]; intros k Hk; lia |].
  destruct (IH (i + 1)) as (H1 & H2 & H3); [split; [| lia]; destruct (decide (i = j)); [congruence | lia] | done |].
  split; [lia |]. split; [done |]. intros k Hk. destruct (decide (k = i)) as [-> |]; [done |]. apply H3. lia.
Qed.

Lemma log2_bits_laws : LibBitLaws log2_bits.
Proof.
  split; [done | vm_compute; reflexivity | |]; intros x Hx; pose proof (Z.log2_nonneg x);
    assert (Z.log2 x < 256) by (apply Z.log2_lt_pow2; lia);
    assert (Z.testbit x (Z.log2 x) = true) as Hb by (apply Z.bit_log2; lia).
  - cbn [fls log2_bits]. rewrite (proj2 (Z.eqb_neq x 0)) by lia. split; [done |]. split; [done |].
    intros i Hi. apply Z.bits_above_log2; lia.
  - destruct (first_bit_spec 256 0 x (Z.log2 x)) as (H1 & H2 & H3); [lia | done |]. by split.
Qed.

(** Spacing 60 at tick 30, with one position of liquidity 7 from -120 to 180. *)
Definition demo_chain : ChainPool :=
  mkChainPool {[ 0 := 8; -1 := 2 ^ 254 ]} {[ 180 := (7, -7); -120 := (7, 7) ]}.

Definition slot0_at (t : Z) : PoolId -> Address -> Address -> Address -> option Z -> M PoolDataV4 :=
  fun _ _ _ _ _ => Ok (mkPoolDataV4 18 6 7 (2 ^ 96) t 0).

(** A pool whose data, but not whose ticks, were read. *)
Definition populated_pool (t : Z) (loader : DataLoader) : EnhancedUniswapPool :=
  match populate_data (N := contract_calls (B := log2_bits) (fun _ _ => demo_chain) 100 (slot0_at t))
          (pool_new loader 400) (Some 100) with
  | Ok p => p
  | _ => pool_new loader 400
  end.

Lemma demo_chain_ok : chain_ok demo_chain.
Proof.
  intros w word. unfold demo_chain. simpl. rewrite lookup_insert_Some.
  intros [[<- <-] | [_ [<- <-]%lookup_singleton_Some]]; split; apply Z.leb_le || apply Z.ltb_lt; vm_compute; reflexivity.
Qed.

Lemma sync_follows_chain_witness :
  exists p', sync_ticks (P := dev) (T := demo_position)
      (N := contract_calls (B := log2_bits) (fun _ _ => demo_chain) 100 (slot0_at 30))
      (populated_pool 30 demo_loader) (Some 100) = Ok p' /\
    is_Some (ticks p' !! (-2 * 60)) /\ ticks p' !! 180 = Some (mkTickInfo 7 (-7) true).
Proof.
  destruct (sync_follows_chain dev demo_position demo_position_laws log2_bits log2_bits_laws
              (fun _ _ => demo_chain) 100 (slot0_at 30) (populated_pool 30 demo_loader) (Some 100))
    as (p' & E & _ & Hw).
  - vm_compute. reflexivity.
  - vm_compute. eexists. reflexivity.
  - vm_compute. repeat split; discriminate || reflexivity.
  - vm_compute. split; [reflexivity | discriminate].
  - exact demo_chain_ok.
  - exists p'. split; [exact E |]. split.
    + apply (Hw (-2)); [right; vm_compute; split; discriminate | vm_compute; reflexivity | vm_compute; split; [discriminate | reflexivity]].
    + vm_compute in E. injection E as <-. vm_compute. reflexivity.
Defined.

(** Every tick from -512 to 511 is initialized. *)
Definition dense_chain : ChainPool := mkChainPool (list_to_map (map (fun w => (w, 2 ^ 256 - 1)) [-2; -1; 0; 1])) ∅.

Definition dense_pool : M EnhancedUniswapPool :=
  initialize (P := dev) (T := demo_position)
    (N := contract_calls (B := log2_bits) (fun _ _ => dense_chain) 100 (slot0_at 30)) (pool_new demo_loader 400) (Some 100).

(** Spacing 4000, one position from -4000 to 8000. *)
Definition wide_loader : DataLoader :=
  new_with_registry 2 1 (mkUniswapPoolRegistry {[ 1 := mkPoolKey 10 20 3000 4000 99 ]} {[ 1 := 2 ]}) 5.
Definition wide_chain : ChainPool := mkChainPool {[ 0 := 4; -1 := 2 ^ 255 ]} {[ 8000 := (7, -7); -4000 := (7, 7) ]}.
Definition wide_pool : M EnhancedUniswapPool :=
  initialize (P := dev) (T := demo_position)
    (N := contract_calls (B := log2_bits) (fun _ _ => wide_chain) 100 (slot0_at 30)) (pool_new wide_loader 400) (Some 100).

(** a synchronization that returns without an error can still miss initialized ticks next
    to the price.  Where every tick is in use, the downward batches stop fifteen ticks
    short of the current one, so the fifteen ticks above the price
    are not stored although those further up are; and with a spacing of 4000 both directions
    start outside the tick range, the contract breaks off at once and no tick is stored at all. *)
Theorem sync_misses_ticks :
  (exists p, dense_pool = Ok p /\
     (forall x, 1 <= x <= 15 -> chain_bit dense_chain x = true /\ ticks p !! (x * 60) = None) /\
     is_Some (ticks p !! (16 * 60)) /\ is_Some (ticks p !! 0)) /\
  (exists p, wide_pool = Ok p /\ ticks p = ∅ /\ chain_bit wide_chain (-1) = true /\ chain_bit wide_chain 2 = true).
Proof.
  split.
  - assert (match dense_pool with
            | Ok p => forallb (fun x => chain_bit dense_chain x && bool_decide (ticks p !! (x * 60) = None))
                        (map Z.of_nat (seq 1 15)) &&
                      bool_decide (is_Some (ticks p !! (16 * 60))) && bool_decide (is_Some (ticks p !! 0))
            | _ => false end = true) as H by (vm_compute; reflexivity).
    destruct dense_pool as [p | |]; [| done | done]. exists p. split; [done |].
    apply andb_true_iff in H as [H H0%bool_decide_eq_true]. apply andb_true_iff in H as [H H16%bool_decide_eq_true].
    split; [| done]. intros x Hx. rewrite forallb_forall in H. specialize (H x).
    rewrite andb_true_iff, bool_decide_eq_true in H. apply H. apply in_map_iff.
    exists (Z.to_nat x). rewrite in_seq. lia.
  - assert (match wide_pool with
            | Ok p => bool_decide (ticks p = ∅) && chain_bit wide_chain (-1) && chain_bit wide_chain 2
            | _ => false end = true) as H by (vm_compute; reflexivity).
    destruct wide_pool as [p | |]; [| done | done]. exists p. split; [done |].
    rewrite !andb_true_iff, bool_decide_eq_true in H. tauto.
Qed.
