(* ===== verification/PoolManager.v ===== *)
(** * The pool manager

    crates/uniswap-v4/src/uniswap/{pool_manager,pool_factory}.rs, the pool registry of
    crates/types/src/primitive/contract/mod.rs, the stream of blocks of
    pool_providers/canonical_state_adapter.rs and the search for the configured
    pools of crates/uniswap-v4/src/lib.rs: the set of pools the node keeps, brought to every
    new block before the block is signed off. *)

From S2P Require Import Prelude Uniswap Orders PoolSwap Chain BlockSync ConsensusManager BundleOrders PoolStore EthManager Validation UniPool.

(** ** The registry (primitive/contract/mod.rs) *)

Section Registry.
Context {C : OrderCrypto}.

(** [PoolId::from(PoolKey)]. *)
Definition id_of (k : PoolKey) : PoolId :=
  pool_key_id (currency0 k) (currency1 k) (pk_fee k) (pk_tick_spacing k) (pk_hooks k).

(** The key of the pool in the pool manager, whose fee is dynamic. *)
Definition dynamic_fee (k : PoolKey) : PoolKey :=
  mkPoolKey (currency0 k) (currency1 k) 0x800000 (pk_tick_spacing k) (pk_hooks k).

Definition collect_map {V} (l : list (PoolId * V)) : gmap PoolId V :=
  fold_left (fun m p => <[p.1 := p.2]> m) l ∅.

Definition registry_from (pools : list PoolKey) : UniswapPoolRegistry :=
  mkUniswapPoolRegistry (collect_map (map (fun k => (id_of k, k)) pools))
    (collect_map (map (fun k => (id_of k, id_of (dynamic_fee k))) pools)).

Definition private_keys (r : UniswapPoolRegistry) : list PoolId := map snd (map_to_list (conversion_map r)).
Definition public_keys (r : UniswapPoolRegistry) : list PoolId := map fst (map_to_list (conversion_map r)).

End Registry.

(** ** The configured pools (uniswap-v4/src/lib.rs) *)

Section Fetch.
Context {D : ChainDecoders}.

#[export] Instance PoolKey_eq_dec : EqDecision PoolKey.
Proof. solve_decision. Defined.

(** One log of the controller; the set is a list without repetitions. *)
Definition fold_pool_log (angstrom_address : Address) (set : list PoolKey) (log : Log) : list PoolKey :=
  match decode_pool_configured log with
  | Some e =>
      let k := mkPoolKey (pc_asset0 e) (pc_asset1 e) (pc_bundle_fee e) (pc_tick_spacing e) angstrom_address in
      if decide (k ∈ set) then set else set ++ [k]
  | None =>
      match decode_pool_removed log with
      | Some e =>
          let k := mkPoolKey (pr_asset0 e) (pr_asset1 e) (pr_fee_in_e6 e) (pr_tick_spacing e) angstrom_address in
          List.filter (fun x => negb (bool_decide (x = k))) set
      | None => set
      end
  end.

(** [controller] is the controller's address at a block, read from the first slot of the
    contract, and [receipts] the logs of the block. *)
Definition fetch_angstrom_pools (deploy_block end_block : Z) (angstrom_address : Address)
    (controller : Z -> Address) (receipts : Z -> list Log) : list PoolKey :=
  let logs := flat_map (fun b => List.filter (fun l => log_address l =? controller b) (receipts b))
                (map (fun i => deploy_block + Z.of_nat i) (seq 0 (Z.to_nat (end_block + 1 - deploy_block)))) in
  fold_left (fold_pool_log angstrom_address) logs [].

End Fetch.

(** ** The factory (pool_factory.rs) *)

Definition FACTORY_TICKS : Z := 400.

Record V4PoolFactory := mkV4PoolFactory {
  pf_registry : UniswapPoolRegistry;
  pf_pool_manager : Address;
}.

Section Factory.
Context {P : Profile} {T : TickBitmap} {N : ChainCalls} {C : OrderCrypto}.

Definition new_pool_of (f : V4PoolFactory) (internal pool_id : PoolId) (block : Z) : M EnhancedUniswapPool :=
  expect_ok (initialize (pool_new (new_with_registry internal pool_id (pf_registry f) (pf_pool_manager f))
                           FACTORY_TICKS) (Some block)).

Definition factory_init (f : V4PoolFactory) (block : Z) : M (list EnhancedUniswapPool) :=
  M_map (fun pool_id =>
           let* internal := unwrap (conversion_map (pf_registry f) !! pool_id) in
           new_pool_of f internal pool_id block)
    (map fst (map_to_list (reg_pools (pf_registry f)))).

Definition remove_pool (f : V4PoolFactory) (pool_key : PoolKey) : M (PoolId * V4PoolFactory) :=
  let id := id_of pool_key in
  let pools := delete id (reg_pools (pf_registry f)) in
  let* _ := unwrap (conversion_map (pf_registry f) !! id) in
  Ok (id, mkV4PoolFactory (mkUniswapPoolRegistry pools (delete id (conversion_map (pf_registry f))))
            (pf_pool_manager f)).

Definition create_new_angstrom_pool (f : V4PoolFactory) (pool_key : PoolKey) (block : Z) :
    M (EnhancedUniswapPool * V4PoolFactory) :=
  let pub_key := id_of pool_key in
  let pools := <[pub_key := pool_key]> (reg_pools (pf_registry f)) in
  let priv_key := id_of (dynamic_fee pool_key) in
  let conv := <[pub_key := priv_key]> (conversion_map (pf_registry f)) in
  let f := mkV4PoolFactory (mkUniswapPoolRegistry pools conv) (pf_pool_manager f) in
  let* internal := unwrap (conv !! pub_key) in
  let* pool := new_pool_of f internal pub_key block in
  Ok (pool, f).

End Factory.

(** ** The blocks (canonical_state_adapter.rs) *)

Inductive PoolMangerBlocks :=
| PM_NewBlock (block : Z)
| PM_Reorg (tip first last : Z).

Record CanonicalStateAdapter := mkCanonicalStateAdapter {
  last_logs : list Log;
  last_block_number : Z;
}.

(** [execution_outcome().logs(number)]: the logs of a block of the segment. *)
Definition block_logs (c : Chain) (number : Z) : list Log :=
  match List.find (fun b => blk_number b =? number) c with
  | Some b => concat (blk_receipts b)
  | None => []
  end.

Section Adapter.
Context {P : Profile}.

(** The adapter looks 30 blocks back. *)
Definition adapter_range (old new : Chain) : M (Z * Z) :=
  let* tip := tip_number new in
  let* start := checked_u 64 (tip - 30) in
  Ok (match reorged_blocks start old new with
      | [] => (tip, tip)
      | first :: rest => (first, List.last rest first)
      end).

(** One notification of [subscribe_blocks]. *)
Definition adapter_step (a : CanonicalStateAdapter) (n : CanonStateNotification) :
    M (CanonicalStateAdapter * PoolMangerBlocks) :=
  match n with
  | Commit new =>
      let* tip := tip_number new in
      Ok (mkCanonicalStateAdapter (block_logs new tip) tip, PM_NewBlock tip)
  | Reorg old new =>
      let* tip := tip_number new in
      let* (first, last) := adapter_range old new in
      let logs := flat_map (block_logs new) (map (fun i => first + Z.of_nat i) (seq 0 (Z.to_nat (last + 1 - first)))) in
      Ok (mkCanonicalStateAdapter logs tip, PM_Reorg tip first last)
  end.

End Adapter.

(** A filter of logs: an empty set of values matches everything. *)
Inductive BlockNumberOrTag := BlockTag | Number (n : Z).
Inductive FilterBlockOption := FilterRange (from to : option BlockNumberOrTag) | AtBlockHash (h : B256).
Record Filter := mkFilter {
  f_block_option : FilterBlockOption;
  f_address : list Address;
  f_topics : list (list B256);
}.

Definition set_matches (s : list Z) (x : Z) : bool := bool_decide (s = []) || bool_decide (x ∈ s).

Definition is_last_block (last_block : Z) (b : option BlockNumberOrTag) : bool :=
  match b with Some (Number n) => last_block =? n | _ => false end.

Definition validate_filter (a : CanonicalStateAdapter) (f : Filter) : M unit :=
  match f_block_option f with
  | FilterRange from to =>
      if is_last_block (last_block_number a) from && is_last_block (last_block_number a) to then Ok ()
      else Err "Invalid block range"
  | AtBlockHash _ => Ok ()
  end.

Definition log_matches_filter (log : Log) (f : Filter) : bool :=
  set_matches (f_address f) (log_address log) &&
  existsb (fun p => set_matches p.2 (default 0 (log_topics log !! p.1)))
    (zip (seq 0 (length (f_topics f))) (f_topics f)).

Definition get_logs (a : CanonicalStateAdapter) (f : Filter) : M (list Log) :=
  let* _ := validate_filter a f in Ok (List.filter (fun l => log_matches_filter l f) (last_logs a)).

(** ** Events of the pool manager contract (pool_data_loader.rs) *)

(** The fields of a decoded Swap event. *)
Record SwapLog := mkSwapLog {
  sl_id : PoolId;
  sl_sender : Address;
  sl_amount0 : Z;
  sl_amount1 : Z;
  sl_sqrt_price : Z;
  sl_liquidity : Z;
  sl_tick : Z;
}.

(** The signatures and decoders generated from the interface of the contract. *)
Class PoolEvents := {
  SWAP_SIGNATURE : B256;
  MODIFY_SIGNATURE : B256;
  decode_modify_id : Log -> option PoolId;
  decode_swap_log : Log -> option SwapLog;
}.

Record SwapEvent := mkSwapEvent {
  se_sender : Address;
  se_amount0 : Z;
  se_amount1 : Z;
  se_sqrt_price_x96 : Z;
  se_liquidity : Z;
  se_tick : Z;
}.

Section Events.
Context {V : PoolEvents}.

Definition event_signatures : list B256 := [SWAP_SIGNATURE; MODIFY_SIGNATURE].
Definition is_swap_event (log : Log) : bool := existsb (fun t => t =? SWAP_SIGNATURE) (log_topics log).
Definition is_modify_position_event (log : Log) : bool := existsb (fun t => t =? MODIFY_SIGNATURE) (log_topics log).

(** The pool of a log; a log that does not decode is dropped. *)
Definition log_pool (log : Log) : option PoolId :=
  if is_modify_position_event log then decode_modify_id log
  else if is_swap_event log then sl_id <$> decode_swap_log log
  else None.

Definition group_logs (logs : list Log) : gmap PoolId (list Log) :=
  fold_left (fun m log => match log_pool log with
                          | Some id => <[id := default [] (m !! id) ++ [log]]> m
                          | None => m
                          end) logs ∅.

Definition decode_swap_event (log : Log) : M SwapEvent :=
  match decode_swap_log log with
  | Some e => Ok (mkSwapEvent (sl_sender e) (i128_to_i256 (sl_amount0 e)) (i128_to_i256 (sl_amount1 e))
                    (sl_sqrt_price e) (sl_liquidity e) (sl_tick e))
  | None => Err "failed to decode the log"
  end.

(** Grouping keeps every log of a pool, in order, and nothing else. *)
Lemma group_logs_spec logs id :
  default [] (group_logs logs !! id) = List.filter (fun l => bool_decide (log_pool l = Some id)) logs.
Proof.
  unfold group_logs. induction logs as [| l logs IH] using rev_ind; [done |].
  rewrite fold_left_app, List.filter_app. cbn [fold_left List.filter]. rewrite <- IH.
  destruct (log_pool l) as [i |]; [| by rewrite app_nil_r].
  destruct (decide (i = id)) as [-> | Hne].
  - rewrite lookup_insert_eq, bool_decide_true by done. done.
  - rewrite lookup_insert_ne by done. rewrite bool_decide_false by congruence. by rewrite app_nil_r.
Qed.

End Events.

(** ** The manager (pool_manager.rs) *)

Definition POOL_MODULE_NAME : string := "UniswapV4".
Definition OUT_OF_SCOPE_TICKS : Z := 20.

(** The cache of state changes is never used and left out. *)
Record UniswapPoolManager := mkUniswapPoolManager {
  um_factory : V4PoolFactory;
  um_pools : gmap PoolId EnhancedUniswapPool;
  um_latest_synced_block : Z;
  um_block_sync : GlobalBlockSync;
}.

Section Manager.
Context {P : Profile} {T : TickBitmap} {N : ChainCalls} {C : OrderCrypto}.

Definition public_address (p : EnhancedUniswapPool) : PoolId := dl_public_address (data_loader p).

Definition UniswapPoolManager_new (factory : V4PoolFactory) (latest_synced_block : Z) (sync : GlobalBlockSync) :
    M UniswapPoolManager :=
  let* sync := sync_register sync POOL_MODULE_NAME in
  let* pools := factory_init factory latest_synced_block in
  Ok (mkUniswapPoolManager factory (collect_map (map (fun p => (public_address p, p)) pools))
        latest_synced_block sync).

Definition pool_update_workaround (block_number : Z) (pools : gmap PoolId EnhancedUniswapPool) :
    M (gmap PoolId EnhancedUniswapPool) :=
  let* l := M_map (fun p => let* q := expect_ok (update_to_block p.2 (Some block_number)) in Ok (p.1, q))
              (map_to_list pools) in
  Ok (list_to_map l).

Definition handle_new_block_info (m : UniswapPoolManager) (info : PoolMangerBlocks) :
    M (list Z * UniswapPoolManager) :=
  let '(synced, head, range) :=
    match info with
    | PM_NewBlock block => (um_latest_synced_block m, block, None)
    | PM_Reorg tip first last => (saturating_sub tip last, tip, Some (first, last))
    end in
  let m := mkUniswapPoolManager (um_factory m) (um_pools m) synced (um_block_sync m) in
  let* pools := pool_update_workaround head (um_pools m) in
  let m := mkUniswapPoolManager (um_factory m) pools head (um_block_sync m) in
  let* (woken, sync) :=
    match range with
    | Some (first, last) => sign_off_reorg (um_block_sync m) POOL_MODULE_NAME first last None
    | None => sign_off_on_block (um_block_sync m) POOL_MODULE_NAME (um_latest_synced_block m) None
    end in
  Ok (woken, mkUniswapPoolManager (um_factory m) (um_pools m) (um_latest_synced_block m) sync).

(** The request's notifier fires when this returns. *)
Definition manager_load_more_ticks (m : UniswapPoolManager) (req : TickRangeToLoad) : M UniswapPoolManager :=
  let* pool := unwrap (um_pools m !! tr_pool_id req) in
  let* pool := expect_ok (load_more_ticks pool req None) in
  Ok (mkUniswapPoolManager (um_factory m) (<[tr_pool_id req := pool]> (um_pools m)) (um_latest_synced_block m)
        (um_block_sync m)).

Definition on_eth_event (m : UniswapPoolManager) (e : EthEvent) : M UniswapPoolManager :=
  match e with
  | NewPool pool =>
      let* (pool, factory) := create_new_angstrom_pool (um_factory m) pool (um_latest_synced_block m) in
      Ok (mkUniswapPoolManager factory (<[public_address pool := pool]> (um_pools m)) (um_latest_synced_block m)
            (um_block_sync m))
  | RemovedPool pool =>
      let* (id, factory) := remove_pool (um_factory m) pool in
      let* _ := unwrap (um_pools m !! id) in
      Ok (mkUniswapPoolManager factory (delete id (um_pools m)) (um_latest_synced_block m) (um_block_sync m))
  | _ => Ok m
  end.

(** The ready blocks; an empty item of the stream ends the loop. *)
Fixpoint poll_blocks (m : UniswapPoolManager) (blocks : list (option PoolMangerBlocks)) : M (list Z * UniswapPoolManager) :=
  match blocks with
  | Some info :: blocks =>
      let* (woken, m) := handle_new_block_info m info in
      let* (woken', m) := poll_blocks m blocks in Ok (woken ++ woken', m)
  | _ => Ok ([], m)
  end.

(** One poll: what is ready on the three streams, in this order. *)
Definition uniswap_poll (m : UniswapPoolManager) (blocks : list (option PoolMangerBlocks)) (events : list EthEvent)
    (requests : list TickRangeToLoad) : M (list Z * UniswapPoolManager) :=
  let* (woken, m) := poll_blocks m blocks in
  let* m := M_fold on_eth_event m events in
  let* m := M_fold manager_load_more_ticks m requests in
  Ok (woken, m).

End Manager.

(** ** The pools follow the registry *)

Definition key_ok (k : PoolKey) : Prop := 0 < pk_tick_spacing k <= MAX_I24.

Section ManagerLemmas.
Context {P : Profile} {T : TickBitmap} {TL : TickBitmapLaws T} {N : ChainCalls} {NL : TickCallLaws N} {C : OrderCrypto}.

(** The data of a pool are what the chain answers at block [n]. *)
Definition fresh_at (n : Z) (p : EnhancedUniswapPool) : Prop :=
  exists q, populate_data p (Some n) = Ok q /\ set_tick_state q ∅ ∅ = set_tick_state p ∅ ∅.

Lemma populate_frame p p' b q :
  set_tick_state p' ∅ ∅ = set_tick_state q ∅ ∅ -> populate_data p b = Ok q ->
  exists q', populate_data p' b = Ok q' /\ set_tick_state q' ∅ ∅ = set_tick_state p' ∅ ∅.
Proof.
  intros E H. unfold populate_data in *. apply M_bind_Ok in H as (d & Hd & H).
  apply M_bind_Ok in H as (fee & Hf & [= <-]). cbn in E.
  assert (data_loader p' = data_loader p) as El by (by injection E). rewrite El, Hd. cbn [M_bind]. rewrite Hf. cbn [M_bind].
  eexists. split; [done |]. unfold set_tick_state in *. injection E as -> -> -> -> -> -> -> -> -> -> -> -> ->. done.
Qed.

Lemma update_fresh p n p' :
  loader_ok (data_loader p) -> update_to_block p (Some n) = Ok p' -> fresh_at n p'.
Proof.
  intros Hl H. unfold update_to_block in H. apply M_bind_Ok in H as (q & Hq & H).
  destruct (populate_spec _ _ _ Hl Hq) as [_ Hs]. destruct (sync_ticks_spec _ _ _ Hs H) as (_ & E & _).
  by apply (populate_frame p p' _ q).
Qed.

Lemma update_loader p n p' :
  loader_ok (data_loader p) -> update_to_block p n = Ok p' -> data_loader p' = data_loader p.
Proof.
  intros Hl H. unfold update_to_block in H. apply M_bind_Ok in H as (q & Hq & H).
  destruct (populate_spec _ _ _ Hl Hq) as [<- Hs]. destruct (sync_ticks_spec _ _ _ Hs H) as (_ & E & _).
  by injection E.
Qed.

Lemma initialize_update p b p' : initialize p b = Ok p' -> update_to_block p b = Ok p'.
Proof.
  unfold initialize, update_to_block. intros H. apply M_bind_Ok in H as (q & -> & H). cbn [M_bind].
  by apply M_bind_Ok in H as (q' & -> & [= ->]).
Qed.

(** What the manager knows of the pool of a registered key. *)
Record pool_inv (n : Z) (k : PoolKey) (p : EnhancedUniswapPool) : Prop := {
  pi_key : loader_pool_key (data_loader p) = Ok k;
  pi_public : dl_public_address (data_loader p) = id_of k;
  pi_private : dl_private_address (data_loader p) = id_of (dynamic_fee k);
  pi_reach : pool_reach p;
  pi_fresh : fresh_at n p;
}.

Record registry_inv (r : UniswapPoolRegistry) : Prop := {
  ri_key : forall id k, reg_pools r !! id = Some k ->
    id = id_of k /\ conversion_map r !! id = Some (id_of (dynamic_fee k)) /\ key_ok k;
  ri_conv : forall id, is_Some (conversion_map r !! id) -> is_Some (reg_pools r !! id);
}.

Record manager_inv (m : UniswapPoolManager) : Prop := {
  mi_registry : registry_inv (pf_registry (um_factory m));
  mi_pools : forall id, match reg_pools (pf_registry (um_factory m)) !! id with
    | Some k => exists p, um_pools m !! id = Some p /\ pool_inv (um_latest_synced_block m) k p
    | None => um_pools m !! id = None
    end;
}.

Lemma pool_inv_loader n k p : pool_inv n k p -> key_ok k -> loader_ok (data_loader p).
Proof. intros [Hk _ _ _ _] Ho k' Hk'. by rewrite Hk in Hk'; injection Hk' as <-. Qed.

Lemma new_pool_inv f internal id n p k :
  reg_pools (pf_registry f) !! id = Some k -> id = id_of k -> internal = id_of (dynamic_fee k) -> key_ok k ->
  new_pool_of f internal id n = Ok p -> public_address p = id /\ pool_inv n k p.
Proof.
  intros Hk -> -> Ho H. unfold new_pool_of, expect_ok in H.
  set (loader := new_with_registry _ _ _ _) in H. destruct (initialize _ _) as [q | |] eqn:E; [| done | done].
  injection H as ->.
  assert (loader_pool_key loader = Ok k) as Hkey by (unfold loader_pool_key; simpl; by rewrite Hk).
  assert (loader_ok loader) as Hl by (intros k' Hk'; rewrite Hkey in Hk'; by injection Hk' as <-).
  pose proof (initialize_update _ _ _ E) as Eu.
  assert (data_loader p = loader) as El by (exact (update_loader (pool_new loader FACTORY_TICKS) _ _ Hl Eu)).
  unfold public_address. rewrite El. split; [done |].
  split; [by rewrite El | by rewrite El | by rewrite El | by apply (reach_initialize loader FACTORY_TICKS (Some n)) |].
  by apply (update_fresh (pool_new loader FACTORY_TICKS)).
Qed.

Lemma update_pool_inv n n' k p p' :
  key_ok k -> pool_inv n k p -> update_to_block p (Some n') = Ok p' -> pool_inv n' k p'.
Proof.
  intros Ho Hi H. pose proof (pool_inv_loader _ _ _ Hi Ho) as Hl. destruct Hi as [Hk Hp Hq Hr _].
  pose proof (update_loader _ _ _ Hl H) as E. split; rewrite ?E; try done.
  - by apply (reach_update p (Some n')).
  - by apply (update_fresh p).
Qed.

Lemma load_more_pool_inv n k p req b p' :
  pool_inv n k p -> load_more_ticks p req b = Ok p' -> pool_inv n k p'.
Proof.
  intros [Hk Hp Hq Hr (q & Ef & Es)] H. pose proof (reach_more _ _ _ _ Hr H) as Hr'.
  destruct (reach_ok p Hr) as (Hok & _ & Hsp).
  assert (set_tick_state p' ∅ ∅ = set_tick_state p ∅ ∅) as E.
  { unfold load_more_ticks in H. apply M_bind_Ok in H as (start & _ & H). apply M_bind_Ok in H as ([l x] & Hb & H).
    destruct (apply_ticks_spec p l Hok (batch_aligned _ _ _ _ _ _ _ Hsp Hb)) as (p2 & E2 & _ & Eq & _). congruence. }
  assert (data_loader p' = data_loader p) as El by (by injection E).
  split; rewrite ?El; try done. by apply (populate_frame p p' _ q); [rewrite E |].
Qed.

(** *** Maps built from lists *)

Lemma collect_map_snoc {V} (l : list (PoolId * V)) x : collect_map (l ++ [x]) = <[x.1 := x.2]> (collect_map l).
Proof. unfold collect_map. by rewrite fold_left_app. Qed.

Lemma registry_from_inv keys : Forall key_ok keys -> registry_inv (registry_from keys).
Proof.
  induction keys as [| k keys IH] using rev_ind; intros Ho.
  { split; [intros id k H | intros id [x H]]; unfold registry_from, collect_map in H; cbn [map fold_left reg_pools conversion_map] in H; by rewrite lookup_empty in H. }
  apply Forall_app in Ho as [Ho Hk]. rewrite Forall_singleton in Hk. specialize (IH Ho) as [I1 I2].
  split; unfold registry_from in *; cbn [reg_pools conversion_map] in *; rewrite !map_app; cbn [map].
  - intros id k'. rewrite !collect_map_snoc. cbn [fst snd]. rewrite lookup_insert_Some. intros [[<- <-] | [Hne H]]; [rewrite lookup_insert_eq; split; [done |]; split; [done | exact Hk] |].
    rewrite lookup_insert_ne by done. by apply I1.
  - intros id. rewrite !collect_map_snoc. cbn [fst snd]. destruct (decide (id_of k = id)) as [<- | Hne].
    + rewrite !lookup_insert_eq. by eexists.
    + rewrite !lookup_insert_ne by done. apply I2.
Qed.

Lemma collect_map_lookup {V} (f : V -> PoolId) (l : list V) id :
  match collect_map (map (fun x => (f x, x)) l) !! id with
  | Some x => x ∈ l /\ f x = id
  | None => forall x, x ∈ l -> f x <> id
  end.
Proof.
  induction l as [| y l IH] using rev_ind.
  { unfold collect_map. cbn [map fold_left]. rewrite lookup_empty. by intros x ?%not_elem_of_nil. }
  rewrite map_app. cbn [map]. rewrite collect_map_snoc. cbn [fst snd].
  destruct (decide (f y = id)) as [<- | Hne].
  - rewrite lookup_insert_eq. split; [apply elem_of_app; right; apply list_elem_of_here | done].
  - rewrite lookup_insert_ne by done. destruct (collect_map _ !! id) as [x |].
    + destruct IH. split; [apply elem_of_app; by left | done].
    + intros x [Hx | Hx%list_elem_of_singleton]%elem_of_app; [by apply IH | congruence].
Qed.

(** *** The operations *)

Lemma factory_init_inv f n l :
  registry_inv (pf_registry f) -> factory_init f n = Ok l ->
  (forall p, p ∈ l -> exists k, reg_pools (pf_registry f) !! public_address p = Some k /\ pool_inv n k p) /\
  (forall id k, reg_pools (pf_registry f) !! id = Some k -> exists p, p ∈ l /\ public_address p = id).
Proof.
  intros [I1 I2] H. unfold factory_init in H.
  assert (forall id p, (let* internal := unwrap (conversion_map (pf_registry f) !! id) in new_pool_of f internal id n) = Ok p ->
            is_Some (reg_pools (pf_registry f) !! id) ->
            public_address p = id /\ exists k, reg_pools (pf_registry f) !! id = Some k /\ pool_inv n k p) as Hone.
  { intros id p Hp [k Hk]. destruct (I1 id k Hk) as (Eid & Econv & Hok). rewrite Econv in Hp. cbn [unwrap M_bind] in Hp.
    destruct (new_pool_inv _ _ _ _ _ k Hk Eid eq_refl Hok Hp). split; [done |]. by exists k. }
  assert (forall id, id ∈ map fst (map_to_list (reg_pools (pf_registry f))) <-> is_Some (reg_pools (pf_registry f) !! id)) as Hdom.
  { intros id. change (map fst ?l) with (fst <$> l). rewrite list_elem_of_fmap. split.
    - intros ([i k] & -> & Hk%elem_of_map_to_list). by eexists.
    - intros [k Hk]. exists (id, k). split; [done |]. by apply elem_of_map_to_list. }
  split.
  - intros p Hp. destruct (M_map_elem _ _ _ _ H Hp) as (id & Hid & E). apply Hdom in Hid.
    destruct (Hone id p E Hid) as [<- Hk]. done.
  - intros id k Hk. assert (id ∈ map fst (map_to_list (reg_pools (pf_registry f)))) as Hid by (apply Hdom; by eexists).
    destruct (M_map_elem_l _ _ _ _ H Hid) as (p & Hp & E). exists p. split; [done |].
    apply (Hone id p E). by exists k.
Qed.

Lemma manager_new_inv f n sync m :
  registry_inv (pf_registry f) -> UniswapPoolManager_new f n sync = Ok m -> manager_inv m.
Proof.
  intros Hr H. unfold UniswapPoolManager_new in H. apply M_bind_Ok in H as (s & _ & H).
  apply M_bind_Ok in H as (l & Hl & [= <-]). destruct (factory_init_inv _ _ _ Hr Hl) as [Hp Hk].
  split; [done |]. cbn [um_factory um_pools um_latest_synced_block]. intros id.
  pose proof (collect_map_lookup public_address l id) as Hc. destruct (reg_pools (pf_registry f) !! id) as [k |] eqn:E.
  - destruct (collect_map _ !! id) as [p |].
    + destruct Hc as [Hin <-]. exists p. split; [done |]. destruct (Hp p Hin) as (k' & Ek' & Hi). congruence.
    + destruct (Hk id k E) as (p & Hin & Epid). by destruct (Hc p Hin).
  - destruct (collect_map _ !! id) as [p |]; [| done]. destruct Hc as [Hin <-]. destruct (Hp p Hin) as (k' & Ek' & _). congruence.
Qed.

Lemma update_pools_spec n pools pools' :
  pool_update_workaround n pools = Ok pools' ->
  forall id, match pools !! id with
    | Some p => exists q, update_to_block p (Some n) = Ok q /\ pools' !! id = Some q
    | None => pools' !! id = None
    end.
Proof.
  unfold pool_update_workaround. intros H. apply M_bind_Ok in H as (l & Hl & [= <-]).
  assert (map fst l = map fst (map_to_list pools)) as Ef.
  { revert l Hl. generalize (map_to_list pools). intros k. induction k as [| x k IH]; intros l Hl; simpl in Hl.
    - by injection Hl as <-.
    - apply M_bind_Ok in Hl as (y & Hy & Hl). apply M_bind_Ok in Hl as (ys & Hys & [= <-]).
      apply M_bind_Ok in Hy as (q & _ & [= <-]). simpl. f_equal. by apply IH. }
  assert (NoDup (l.*1)) as Hnd by (change (l.*1) with (map fst l); rewrite Ef; apply NoDup_fst_map_to_list).
  intros id. destruct (pools !! id) as [p |] eqn:E.
  - apply elem_of_map_to_list in E. destruct (M_map_elem_l _ _ _ _ Hl E) as (y & Hy & Ey). simpl in Ey.
    apply M_bind_Ok in Ey as (q & Hq & [= <-]). unfold expect_ok in Hq.
    destruct (update_to_block p (Some n)) as [q' | |]; [| done | done]. injection Hq as ->.
    exists q. split; [done |]. by apply elem_of_list_to_map.
  - apply not_elem_of_list_to_map. change (l.*1) with (map fst l). rewrite Ef.
    change (map fst ?l) with (l.*1). rewrite list_elem_of_fmap. intros ([i x] & -> & Hx%elem_of_map_to_list). simpl in E. congruence.
Qed.

Lemma handle_block_inv m info woken m' :
  manager_inv m -> handle_new_block_info m info = Ok (woken, m') -> manager_inv m'.
Proof.
  intros [Hr Hp] H. unfold handle_new_block_info in H.
  assert (exists n pools s, pool_update_workaround n (um_pools m) = Ok pools /\
            m' = mkUniswapPoolManager (um_factory m) pools n s) as (n & pools & s & Hu & ->).
  { destruct info; cbn in H; apply M_bind_Ok in H as (pools & Hu & H); apply M_bind_Ok in H as ([w s] & _ & [= _ <-]); by eexists _, pools, s. }
  split; [done |]. cbn [um_factory um_pools um_latest_synced_block]. intros id. specialize (Hp id).
  pose proof (update_pools_spec _ _ _ Hu id) as Hs. destruct (reg_pools _ !! id) as [k |] eqn:Ek; [| by rewrite Hp in Hs].
  destruct Hp as (p & Ep & Hi). rewrite Ep in Hs. destruct Hs as (q & Hq & Eq). exists q. split; [done |].
  eapply update_pool_inv; [| exact Hi | exact Hq]. by apply (ri_key _ Hr id k).
Qed.

Lemma load_more_inv m req m' : manager_inv m -> manager_load_more_ticks m req = Ok m' -> manager_inv m'.
Proof.
  intros [Hr Hp] H. unfold manager_load_more_ticks in H. apply M_bind_Ok in H as (p & Ep & H).
  apply M_bind_Ok in H as (q & Hq & [= <-]). split; [done |]. cbn [um_factory um_pools um_latest_synced_block].
  intros id. specialize (Hp id). destruct (um_pools m !! tr_pool_id req) as [p' |] eqn:E; [| done]. injection Ep as ->.
  unfold expect_ok in Hq. destruct (load_more_ticks p req None) as [q' | |] eqn:El; [| done | done]. injection Hq as ->.
  destruct (decide (tr_pool_id req = id)) as [<- | Hne].
  - destruct (reg_pools _ !! tr_pool_id req) as [k |]; [| congruence]. destruct Hp as (p2 & Ep2 & Hi).
    rewrite lookup_insert_eq. exists q. split; [done |]. assert (p2 = p) as -> by congruence.
    by apply (load_more_pool_inv _ _ p req None).
  - by rewrite lookup_insert_ne.
Qed.

(** Pools are announced with a positive spacing. *)
Definition event_ok (e : EthEvent) : Prop := match e with NewPool k => key_ok k | _ => True end.

Lemma create_inv r k : registry_inv r -> key_ok k ->
  registry_inv (mkUniswapPoolRegistry (<[id_of k := k]> (reg_pools r))
                  (<[id_of k := id_of (dynamic_fee k)]> (conversion_map r))).
Proof.
  intros [I1 I2] Ho. split; cbn [reg_pools conversion_map].
  - intros id k'. rewrite lookup_insert_Some. intros [[<- <-] | [Hne H]]; [by rewrite lookup_insert_eq |].
    rewrite lookup_insert_ne by done. by apply I1.
  - intros id. destruct (decide (id_of k = id)) as [<- | Hne]; [rewrite !lookup_insert_eq; by eexists |].
    rewrite !lookup_insert_ne by done. apply I2.
Qed.

Lemma delete_inv r id : registry_inv r ->
  registry_inv (mkUniswapPoolRegistry (delete id (reg_pools r)) (delete id (conversion_map r))).
Proof.
  intros [I1 I2]. split; cbn [reg_pools conversion_map].
  - intros i k. rewrite fin_maps.lookup_delete_Some. intros [Hne H]. rewrite lookup_delete_ne by done. by apply I1.
  - intros i. destruct (decide (id = i)) as [<- | Hne]; [rewrite !lookup_delete_eq; by intros [? ?] |].
    rewrite !lookup_delete_ne by done. apply I2.
Qed.

Lemma on_event_inv m e m' : manager_inv m -> event_ok e -> on_eth_event m e = Ok m' -> manager_inv m'.
Proof.
  intros [Hr Hp] He H. destruct e as [| | | | k | k | |]; cbn [on_eth_event] in H; try (injection H as <-; by split).
  - apply M_bind_Ok in H as ([p f] & Hc & [= <-]). unfold create_new_angstrom_pool in Hc.
    rewrite lookup_insert_eq in Hc. cbn [unwrap M_bind] in Hc. apply M_bind_Ok in Hc as (q & Hq & [= <- <-]).
    destruct (fun A => new_pool_inv _ _ _ _ _ k A eq_refl eq_refl He Hq) as [Epub Hi]; [apply lookup_insert_eq |].
    split; [by apply create_inv |]. cbn [um_factory um_pools um_latest_synced_block pf_registry reg_pools].
    intros id. rewrite Epub. destruct (decide (id_of k = id)) as [<- | Hne].
    + rewrite !lookup_insert_eq. by exists q.
    + rewrite !lookup_insert_ne by done. apply Hp.
  - apply M_bind_Ok in H as ([id f] & Hc & H). apply M_bind_Ok in H as (p & _ & [= <-]). unfold remove_pool in Hc.
    apply M_bind_Ok in Hc as (x & _ & [= <- <-]). split; [by apply delete_inv |].
    cbn [um_factory um_pools um_latest_synced_block pf_registry reg_pools]. intros id.
    destruct (decide (id_of k = id)) as [<- | Hne]; [by rewrite !lookup_delete_eq |].
    rewrite !lookup_delete_ne by done. apply Hp.
Qed.

(** Every state of the manager: started on a registry, then any order of blocks, events and
    requests, while other modules move the shared block synchronization. *)
Inductive manager_reach : UniswapPoolManager -> Prop :=
| mr_new keys pm block sync m :
    Forall key_ok keys -> UniswapPoolManager_new (mkV4PoolFactory (registry_from keys) pm) block sync = Ok m ->
    manager_reach m
| mr_block m info woken m' : manager_reach m -> handle_new_block_info m info = Ok (woken, m') -> manager_reach m'
| mr_event m e m' : manager_reach m -> event_ok e -> on_eth_event m e = Ok m' -> manager_reach m'
| mr_load m req m' : manager_reach m -> manager_load_more_ticks m req = Ok m' -> manager_reach m'
| mr_sync m s :
    manager_reach m -> manager_reach (mkUniswapPoolManager (um_factory m) (um_pools m) (um_latest_synced_block m) s).

Lemma manager_reach_inv m : manager_reach m -> manager_inv m.
Proof.
  induction 1 as [keys pm block sync m Hk H | m info w m' _ IH H | m e m' _ IH He H | m req m' _ IH H | m s _ [IH1 IH2]].
  - eapply manager_new_inv; [| exact H]. by apply registry_from_inv.
  - by eapply handle_block_inv.
  - by eapply on_event_inv.
  - by eapply load_more_inv.
  - by split.
Qed.

(** *** Signing off *)

Lemma update_pools_Ok n pools :
  (forall id p, pools !! id = Some p -> exists q, update_to_block p (Some n) = Ok q) ->
  exists pools', pool_update_workaround n pools = Ok pools'.
Proof.
  intros H. unfold pool_update_workaround.
  assert (Forall (fun x => exists q, update_to_block x.2 (Some n) = Ok q) (map_to_list pools)) as Hf.
  { apply Forall_forall. intros [id p] Hx%elem_of_map_to_list. by apply (H id). }
  assert (exists l, M_map (fun p => let* q := expect_ok (update_to_block p.2 (Some n)) in Ok (p.1, q))
                      (map_to_list pools) = Ok l) as [l ->]; [| by eexists].
  induction Hf as [| x l [q Hq] _ [k IH]]; [by eexists |]. cbn [M_map]. rewrite Hq, IH. by eexists.
Qed.

Lemma update_pools_cases n pools :
  (exists pools', pool_update_workaround n pools = Ok pools') \/ pool_update_workaround n pools = Panic.
Proof.
  unfold pool_update_workaround.
  assert (forall l, (exists r, M_map (fun p => let* q := expect_ok (update_to_block p.2 (Some n)) in Ok (p.1, q)) l = Ok r) \/
            M_map (fun p : PoolId * EnhancedUniswapPool =>
                     let* q := expect_ok (update_to_block p.2 (Some n)) in Ok (p.1, q)) l = Panic) as Hl.
  { induction l as [| x l IH]; [left; by eexists |]. cbn [M_map].
    destruct (update_to_block x.2 (Some n)) as [q | |]; cbn [expect_ok M_bind]; [| by right | by right].
    destruct IH as [[r ->] | ->]; [left; by eexists | by right]. }
  destruct (Hl (map_to_list pools)) as [[r ->] | ->]; [left; by eexists | by right].
Qed.

(** No block of the two segments lies more than 30 blocks behind the new tip. *)
Definition shallow (n : CanonStateNotification) : Prop :=
  match n with
  | Commit new => exists tip, tip_number new = Ok tip
  | Reorg old new => exists tip, tip_number new = Ok tip /\ MAX_REORG_DEPTH <= tip <= u_max 64 /\
      Forall (fun b => tip - 30 <= blk_number b) old /\ Forall (fun b => tip - 30 <= blk_number b) new
  end.

Lemma reorged_blocks_start s s' old new :
  s' <= s -> Forall (fun b => s <= blk_number b) old -> Forall (fun b => s <= blk_number b) new ->
  reorged_blocks s' old new = reorged_blocks s old new.
Proof.
  intros Hs Ho Hn. unfold reorged_blocks.
  assert (forall c z, z <= s -> Forall (fun b => s <= blk_number b) c -> List.filter (fun b => z <=? blk_number b) c = c) as Hf.
  { intros c z Hz Hc. apply filter_all. eapply Forall_impl; [exact Hc |]. intros b Hb. cbn beta in Hb. apply Z.leb_le. lia. }
  by rewrite !Hf by (done || lia).
Qed.

(** On shallow reorganizations the adapter and the block synchronization compute the same range. *)
Lemma adapter_range_agrees old new :
  shallow (Reorg old new) -> exists tip first last, tip_number new = Ok tip /\
    adapter_range old new = Ok (first, last) /\ reorg_of old new = Ok (first, last).
Proof.
  intros (tip & Ht & Hd & Ho & Hn). unfold adapter_range, reorg_of, reorged_range. rewrite Ht. cbn [M_bind].
  rewrite !checked_u_Ok by (unfold MAX_REORG_DEPTH in *; lia). cbn [M_bind].
  rewrite (reorged_blocks_start (tip - 30) (tip - MAX_REORG_DEPTH) old new); [| unfold MAX_REORG_DEPTH; lia | done | done].
  rewrite split_range. cbn [M_bind]. exists tip.
  destruct (reorged_blocks _ _ _) as [| f r]; simpl; by eexists _, _.
Qed.

Lemma adapter_range_first old new tip first last :
  tip_number new = Ok tip -> 30 <= tip <= u_max 64 -> adapter_range old new = Ok (first, last) -> tip - 30 <= first.
Proof.
  intros Ht Hr H. unfold adapter_range in H. rewrite Ht in H. cbn [M_bind] in H.
  rewrite checked_u_Ok in H by lia. cbn [M_bind] in H. injection H as H.
  destruct (reorged_blocks (tip - 30) old new) as [| f r] eqn:E; [injection H as <- <-; lia |].
  injection H as <- <-. assert (f ∈ reorged_blocks (tip - 30) old new) as Hf by (rewrite E; apply list_elem_of_here).
  unfold reorged_blocks in Hf. rewrite list_elem_of_In, in_map_iff in Hf. destruct Hf as ([x y] & <- & Hin).
  apply filter_In in Hin as [Hin _]. apply list_elem_of_In, elem_of_zip_r in Hin.
  apply list_elem_of_In, filter_In in Hin as [_ Hle]. apply Z.leb_le in Hle. done.
Qed.

End ManagerLemmas.

(** ** Theorems *)

(** C30: the manager holds exactly one pool per registered key, whatever blocks, pool
    events and tick requests it has handled: under the key's public id, reading the chain's
    pool of the same key with the dynamic fee, its tick tables well formed, and its price,
    tick and liquidity those of the latest block the manager synced. *)
Theorem pools_follow_registry (P : Profile) (T : TickBitmap) (TL : TickBitmapLaws T) (N : ChainCalls)
    (NL : TickCallLaws N) (C : OrderCrypto) m :
  manager_reach m ->
  (forall id k, reg_pools (pf_registry (um_factory m)) !! id = Some k ->
     id = id_of k /\ exists p, um_pools m !! id = Some p /\ public_address p = id /\
       dl_private_address (data_loader p) = id_of (dynamic_fee k) /\ ticks_ok p /\
       fresh_at (um_latest_synced_block m) p) /\
  (forall id p, um_pools m !! id = Some p -> is_Some (reg_pools (pf_registry (um_factory m)) !! id)).
Proof.
  intros H. destruct (manager_reach_inv m H) as [Hr Hp]. split.
  - intros id k Hk. destruct (ri_key _ Hr id k Hk) as (-> & _ & _). split; [done |].
    specialize (Hp (id_of k)). rewrite Hk in Hp. destruct Hp as (p & Ep & [H1 H2 H3 H4 H5]).
    exists p. split; [done |]. split; [done |]. split; [done |]. split; [apply (reach_ok p H4) | done].
  - intros id p Ep. specialize (Hp id). destruct (reg_pools _ !! id); [by eexists | congruence].
Qed.


(** a reorganization that reaches back more than 30 blocks, but not more than the 150 that the
    producer looks at, stops the pool manager: it signs off a shorter range than the
    one proposed, which the block synchronization answers with a panic. *)
Theorem deep_reorg_panics (P : Profile) (T : TickBitmap) (N : ChainCalls) m a old new tip first last a' info :
  tip_number new = Ok tip -> 30 <= tip <= u_max 64 ->
  reorg_of old new = Ok (first, last) -> first < tip - 30 ->
  pending_state (um_block_sync m) = [PendingReorg first last] ->
  adapter_step a (Reorg old new) = Ok (a', info) ->
  handle_new_block_info m info = Panic.
Proof.
  intros Ht Hr Ho Hf Hp Ha. cbn [adapter_step] in Ha. rewrite Ht in Ha. cbn [M_bind] in Ha.
  apply M_bind_Ok in Ha as ([f l] & Er & [= <- <-]).
  pose proof (adapter_range_first _ _ _ _ _ Ht Hr Er). cbn.
  destruct (update_pools_cases tip (um_pools m)) as [[pools ->] | ->]; [| done]. cbn [M_bind].
  unfold sign_off_reorg, sign_off_guard, proper_proposal. cbn [um_block_sync]. rewrite Hp.
  rewrite (bool_decide_false (PendingReorg f l ∈ _)); [by rewrite andb_false_r |].
  intros [= -> ->]%list_elem_of_singleton. lia.
Qed.

(** A filter that names one topic and leaves the others open lets every log of the address
    pass: one matching position is enough. *)
Lemma topic_filter_ignored a topic (log : Log) block :
  log_matches_filter log (mkFilter block [a] [[topic]; []; []; []]) = (a =? log_address log).
Proof.
  unfold log_matches_filter, set_matches. cbn. rewrite orb_true_r, andb_true_r.
  destruct (Z.eqb_spec a (log_address log)) as [-> | Hne]; [apply bool_decide_eq_true, list_elem_of_here |].
  apply bool_decide_eq_false. intros E%list_elem_of_singleton. congruence.
Qed.

(** A pool whose fee is configured again is found twice. *)
Lemma reconfigured_pool_found_twice {D : ChainDecoders} addr set l1 l2 a0 a1 f1 f2 sp :
  decode_pool_configured l1 = Some (mkPoolConfiguredEvent a0 a1 f1 sp) ->
  decode_pool_configured l2 = Some (mkPoolConfiguredEvent a0 a1 f2 sp) ->
  mkPoolKey a0 a1 f1 sp addr ∈ fold_left (fold_pool_log addr) [l1; l2] set /\
  mkPoolKey a0 a1 f2 sp addr ∈ fold_left (fold_pool_log addr) [l1; l2] set.
Proof.
  intros H1 H2. cbn [fold_left]. unfold fold_pool_log. rewrite H1, H2. cbn.
  repeat case_decide; set_solver.
Qed.

(** ** Witnesses *)

#[local] Existing Instance dev.
#[local] Existing Instance toy_env.
#[local] Existing Instance toy_alloy.
#[local] Existing Instance toy_decoders.
#[local] Existing Instance demo_position.
#[local] Existing Instance demo_calls.

Definition demo_key : PoolKey := mkPoolKey 10 20 3000 60 99.

Definition manager_of (m : M UniswapPoolManager) : UniswapPoolManager :=
  match m with
  | Ok m => m
  | _ => mkUniswapPoolManager (mkV4PoolFactory (mkUniswapPoolRegistry ∅ ∅) 0) ∅ 0 (GlobalBlockSync_new 0)
  end.

(** A manager started at block 12 with one pool. *)
Definition demo_manager : UniswapPoolManager :=
  manager_of (UniswapPoolManager_new (mkV4PoolFactory (registry_from [demo_key]) 5) 12 (GlobalBlockSync_new 12)).

Lemma demo_manager_reach : manager_reach demo_manager.
Proof.
  apply (mr_new [demo_key] 5 12 (GlobalBlockSync_new 12)).
  - repeat constructor; vm_compute; discriminate || reflexivity.
  - vm_compute. reflexivity.
Defined.

Definition manager_pool : EnhancedUniswapPool :=
  default (pool_new default_loader 0) (um_pools demo_manager !! id_of demo_key).

Lemma only_pool id p : um_pools demo_manager !! id = Some p -> p = manager_pool.
Proof.
  intros H. apply elem_of_map_to_list in H. assert (map_to_list (um_pools demo_manager) = [(id_of demo_key, manager_pool)]) as E
    by (vm_compute; reflexivity).
  rewrite E in H. apply list_elem_of_singleton in H. congruence.
Defined.

Lemma pools_follow_registry_witness :
  exists p, um_pools demo_manager !! id_of demo_key = Some p /\ ticks_ok p /\ fresh_at 12 p /\ sqrt_price p = 2 ^ 96.
Proof.
  destruct (pools_follow_registry dev demo_position demo_position_laws demo_calls demo_calls_laws env_crypto demo_manager
              demo_manager_reach) as [H _].
  destruct (H (id_of demo_key) demo_key) as (_ & p & Ep & _ & _ & Hok & Hf).
  - vm_compute. reflexivity.
  - exists p. split; [exact Ep |]. split; [exact Hok |]. split; [exact Hf |].
    rewrite (only_pool _ _ Ep). vm_compute. reflexivity.
Defined.

(** The producer has passed on block 15; the pools are the only module. *)
Definition pool_sync : GlobalBlockSync :=
  match sync_register (GlobalBlockSync_new 12) POOL_MODULE_NAME with Ok s => finalize_modules s | _ => GlobalBlockSync_new 12 end.
Definition pool_eth : EthDataCleanser := with_sync demo_eth pool_sync.
Definition pool_eth_15 : EthDataCleanser :=
  match on_canon_update pool_eth (demo_head 15) with Ok m => m | _ => pool_eth end.

Lemma pool_eth_run :
  node_run 12 pool_eth_15 [PendingProgression 15] (gset_to_gmap 0%nat (list_to_set [POOL_MODULE_NAME])).
Proof.
  apply (nr_update 12 pool_eth [] _ (demo_head 15)); [| vm_compute; reflexivity | reflexivity | done].
  eapply (nr_start 12 pool_eth [POOL_MODULE_NAME]); [done | | | reflexivity]; vm_compute; reflexivity.
Defined.

Definition manager_15 : UniswapPoolManager :=
  mkUniswapPoolManager (um_factory demo_manager) (um_pools demo_manager) (um_latest_synced_block demo_manager)
    (eth_block_sync pool_eth_15).

Lemma um_pools_mk f pools n s : um_pools (mkUniswapPoolManager f pools n s) = pools.
Proof. reflexivity. Defined.

Lemma manager_pool_updates : exists q, update_to_block manager_pool (Some 15) = Ok q.
Proof.
  assert (match update_to_block manager_pool (Some 15) with Ok _ => true | _ => false end = true) as H
    by (vm_compute; reflexivity).
  destruct (update_to_block manager_pool (Some 15)) as [q | |]; [by exists q | done | done].
Qed.

Lemma manager_15_reach : manager_reach manager_15.
Proof. exact (mr_sync demo_manager (eth_block_sync pool_eth_15) demo_manager_reach). Qed.


(** Two segments from block 200 to 239 that share no block. *)
Definition fork (salt : Z) : Chain := map (fun i => mkBlock (200 + Z.of_nat i) (salt + Z.of_nat i) [] []) (seq 0 40).
Definition forked_manager : UniswapPoolManager :=
  mkUniswapPoolManager (um_factory demo_manager) (um_pools demo_manager) 239
    (sync_reorg pool_sync 200 239).

Lemma deep_reorg_panics_witness :
  handle_new_block_info forked_manager (PM_Reorg 239 209 239) = Panic.
Proof.
  eapply (deep_reorg_panics dev demo_position demo_calls forked_manager (mkCanonicalStateAdapter [] 12) (fork 1000) (fork 5000)
            239 200 239).
  - vm_compute. reflexivity.
  - vm_compute. split; discriminate.
  - vm_compute. reflexivity.
  - vm_compute. reflexivity.
  - vm_compute. reflexivity.
  - vm_compute. reflexivity.
Defined.
