(* ===== verification/Session.v ===== *)
(** * Sessions

    crates/angstrom-net/src/session: the task that talks to one peer (strom/mod.rs,
    startup.rs, regular.rs, shutdown.rs), the handle the manager keeps of it
    (handle.rs) and the handlers that create it when a connection is made
    (protocol_handler.rs, connection_handler.rs).

    A session starts by registering with the manager and exchanging status messages,
    then relays messages, then shuts down.  [session_poll] is one poll of the task.
    What the runtime decides is an input: the wall clock, how many times the connection
    may be polled before it is answered as pending (tokio's budget), and the answers to
    the reservations of a slot in the manager's channel.  A pending poll is [None]; the
    messages handed to the manager are part of the result.  A command channel is shared
    with the manager: it holds the commands not yet taken and tells whether each side
    still exists. *)

From S2P Require Import Prelude Uniswap Ray Orders ConsensusMessages Rounds NetMessages.

Definition STATUS_TIMESTAMP_TIMEOUT_MS : Z := 1500.
Definition SESSION_COMMAND_BUFFER : nat := 100.

Section Session.
Context {P : Profile} {C : OrderCrypto} {K : SigningKey} {W : WireCodec}.

(** ** Channels *)

(** The code of a disconnect reason of the peer-to-peer protocol. *)
Definition DisconnectReason : Type := Z.

Inductive SessionCommand :=
| DisconnectCommand (reason : option DisconnectReason)
| MessageCommand (m : StromMessage).

Record CommandChannel := mkCommandChannel {
  cc_queue : list SessionCommand;
  cc_sender : bool;
  cc_receiver : bool;
}.

Definition channel_new : CommandChannel := mkCommandChannel [] true true.
Definition is_closed (c : CommandChannel) : bool := negb (cc_receiver c).
(** A full or closed channel refuses the command; the callers ignore that. *)
Definition command_try_send (c : CommandChannel) (cmd : SessionCommand) : CommandChannel :=
  if cc_receiver c && (length (cc_queue c) <? SESSION_COMMAND_BUFFER)%nat
  then mkCommandChannel (cc_queue c ++ [cmd]) (cc_sender c) (cc_receiver c)
  else c.
Definition drop_sender (c : CommandChannel) : CommandChannel :=
  mkCommandChannel (cc_queue c) false (cc_receiver c).
Definition drop_receiver (c : CommandChannel) : CommandChannel :=
  mkCommandChannel (cc_queue c) (cc_sender c) false.

(** [commands_rx.poll_next]: pending, the end of the stream or a command. *)
Definition commands_next (c : CommandChannel) : option (option SessionCommand) * CommandChannel :=
  match cc_queue c with
  | cmd :: rest => (Some (Some cmd), mkCommandChannel rest (cc_sender c) (cc_receiver c))
  | [] => (if cc_sender c then None else Some None, c)
  end.

(** The established session as the manager sees it; the time of its creation is not
    used. *)
Record StromSessionHandle := mkStromSessionHandle {
  sh_outgoing : bool;
  sh_remote_id : PeerId;
  sh_channel : Z;
  sh_socket_addr : Z;
}.

Inductive StromSessionMessage :=
| Established (handle : StromSessionHandle)
| SessionDisconnected (peer : PeerId)
| ClosedOnConnectionError (peer : PeerId) (error : string)
| ValidMessage (peer : PeerId) (message : StromProtocolMessage)
| BadMessage (peer : PeerId)
| ProtocolBreach (peer : PeerId).

Inductive Reserve := ReserveOk | ReserveClosed.

(** ** The connection *)

(** What the peer sent and was not read, and whether the stream is still open. *)
Record ProtocolConnection := mkProtocolConnection {
  pc_queue : list Bytes;
  pc_open : bool;
}.

Definition conn_next (c : ProtocolConnection) : option (option Bytes) * ProtocolConnection :=
  match pc_queue c with
  | b :: rest => (Some (Some b), mkProtocolConnection rest (pc_open c))
  | [] => (if pc_open c then None else Some None, c)
  end.

(** ** States *)

Record VerificationSidecar := mkVerificationSidecar {
  vs_secret_key : AngstromSigner;
  vs_status : StatusState;
  vs_has_sent : bool;
  vs_has_received : bool;
}.

Definition make_status_message (v : VerificationSidecar) (now : Z) (peer : PeerId) : M Status :=
  if vs_has_sent v then Panic
  else Ok (status_build now (with_peer (vs_status v) peer) (vs_secret_key v)).

Record StromStartup := mkStromStartup {
  su_sidecar : VerificationSidecar;
  su_handle : option StromSessionHandle;
  su_conn : ProtocolConnection;
  su_remote_peer_id : PeerId;
  su_shutdown : bool;
}.

Record RegularProcessing := mkRegularProcessing {
  rp_conn : ProtocolConnection;
  rp_remote_peer_id : PeerId;
  rp_manager_buffer : list StromSessionMessage;
}.

(** [sd_to_session_manager]: the sender was not taken yet. *)
Record Shutdown := mkShutdown {
  sd_conn : ProtocolConnection;
  sd_remote_peer_id : PeerId;
  sd_to_session_manager : bool;
}.

Inductive StromSessionStates :=
| InStartup (s : StromStartup)
| InRegular (s : RegularProcessing)
| InShutdown (s : Shutdown)
| InDummy.

Definition StromStartup_new (v : VerificationSidecar) (handle : option StromSessionHandle)
    (conn : ProtocolConnection) (peer : PeerId) : StromStartup := mkStromStartup v handle conn peer false.
Definition RegularProcessing_new (conn : ProtocolConnection) (peer : PeerId) : RegularProcessing :=
  mkRegularProcessing conn peer [].
Definition Shutdown_new (conn : ProtocolConnection) (peer : PeerId) : Shutdown := mkShutdown conn peer true.

Definition StromSessionHandler_new (conn : ProtocolConnection) (peer : PeerId) (v : VerificationSidecar)
    (handle : StromSessionHandle) : StromSessionStates :=
  InStartup (StromStartup_new v (Some handle) conn peer).

(** ** Startup *)

(** Registers with the manager when the reservation is granted. *)
Definition manager_has_handle (s : StromStartup) (reserves : list Reserve) :
    bool * list StromSessionMessage * StromStartup :=
  match su_handle s with
  | None => (true, [], s)
  | Some handle =>
      match reserves with
      | ReserveOk :: _ =>
          (true, [Established handle],
           mkStromStartup (su_sidecar s) None (su_conn s) (su_remote_peer_id s) (su_shutdown s))
      | _ => (false, [], s)
      end
  end.

Definition verify_incoming_status (now : Z) (peer : PeerId) (status : Status) : M bool :=
  let* status_time := checked_u 128 (ss_timestamp (st_state status) + STATUS_TIMESTAMP_TIMEOUT_MS) in
  let* verification := status_verify status in
  Ok ((now <=? status_time) && (verification =? peer)).

(** The first message has to be a status; an undecodable one counts as invalid. *)
Definition valid_verification (now : Z) (peer : PeerId) (data : Bytes) : M bool :=
  match decode_message data with
  | Ok m => match spm_message m with
            | StatusMessage status => verify_incoming_status now peer status
            | _ => Ok false
            end
  | Err _ => Ok false
  | Panic => Panic
  end.

Definition sidecar_sent (v : VerificationSidecar) : VerificationSidecar :=
  mkVerificationSidecar (vs_secret_key v) (vs_status v) true (vs_has_received v).

Definition handle_verification (now : Z) (s : StromStartup) : M (option (option Bytes) * StromStartup) :=
  if negb (vs_has_sent (su_sidecar s)) then
    let* status := make_status_message (su_sidecar s) now (su_remote_peer_id s) in
    Ok (Some (Some (encode_with_id (StatusMessage status))),
        mkStromStartup (sidecar_sent (su_sidecar s)) (su_handle s) (su_conn s) (su_remote_peer_id s) (su_shutdown s))
  else
    let (msg, conn) := conn_next (su_conn s) in
    match msg with
    | Some (Some data) =>
        let* valid := valid_verification now (su_remote_peer_id s) data in
        Ok (Some None, mkStromStartup (su_sidecar s) (su_handle s) conn (su_remote_peer_id s) (negb valid))
    | Some None =>
        Ok (Some None, mkStromStartup (su_sidecar s) (su_handle s) conn (su_remote_peer_id s) true)
    | None => Ok (None, s)
    end.

Definition startup_poll_outbound (now : Z) (reserves : list Reserve) (s : StromStartup) :
    M (option (option Bytes) * list StromSessionMessage * StromStartup) :=
  let '(registered, sent, s) := manager_has_handle s reserves in
  if negb registered then Ok (None, sent, s)
  else let* (out, s) := handle_verification now s in Ok (out, sent, s).

Definition startup_next_state (s : StromStartup) : StromSessionStates :=
  if su_shutdown s then InShutdown (Shutdown_new (su_conn s) (su_remote_peer_id s))
  else InRegular (RegularProcessing_new (su_conn s) (su_remote_peer_id s)).

(** ** Regular processing *)

(** The message for the manager a received buffer becomes. *)
Definition received (peer : PeerId) (bytes : Bytes) : M StromSessionMessage :=
  match decode_message bytes with
  | Ok m => Ok (ValidMessage peer m)
  | Err _ => Ok (BadMessage peer)
  | Panic => Panic
  end.

(** The loop over the connection: [true] when it returns from the poll, together
    with the number of polls of the budget left. *)
Fixpoint receive_loop (budget : nat) (peer : PeerId) (conn : ProtocolConnection)
    (buffer : list StromSessionMessage) :
    M (bool * nat * ProtocolConnection * list StromSessionMessage) :=
  match budget with
  | O => Ok (false, O, conn, buffer)
  | S budget =>
      let (bytes, conn) := conn_next conn in
      match bytes with
      | None => Ok (false, S budget, conn, buffer)
      | Some (Some bytes) =>
          let* msg := received peer bytes in
          receive_loop budget peer conn (buffer ++ [msg])
      | Some None =>
          match buffer with
          | [] => Ok (true, budget, conn, buffer)
          | _ => receive_loop budget peer conn buffer
          end
      end
  end.

(** [send_to_manager]: what is handed over and what stays in the buffer. *)
Fixpoint send_to_manager (buffer : list StromSessionMessage) (reserves : list Reserve) :
    list StromSessionMessage * list StromSessionMessage :=
  match reserves, buffer with
  | ReserveOk :: reserves, next :: buffer =>
      let (sent, rest) := send_to_manager buffer reserves in (next :: sent, rest)
  | _, _ => ([], buffer)
  end.

Definition regular_poll_outbound (budget : nat) (reserves : list Reserve) (ch : CommandChannel)
    (s : RegularProcessing) :
    M (option (option Bytes) * list StromSessionMessage * CommandChannel * RegularProcessing) :=
  let (command, ch) := commands_next ch in
  match command with
  | Some (Some (DisconnectCommand _)) => Ok (Some None, [], ch, s)
  | Some (Some (MessageCommand m)) => Ok (Some (Some (encode_with_id m)), [], ch, s)
  | Some None => Ok (Some None, [], ch, s)
  | None =>
      let* (ended, _, conn, buffer) := receive_loop budget (rp_remote_peer_id s) (rp_conn s) (rp_manager_buffer s) in
      if (ended : bool) then Ok (Some None, [], ch, mkRegularProcessing conn (rp_remote_peer_id s) buffer)
      else let (sent, rest) := send_to_manager buffer reserves in
           Ok (None, sent, ch, mkRegularProcessing conn (rp_remote_peer_id s) rest)
  end.

Definition regular_next_state (s : RegularProcessing) : StromSessionStates :=
  InShutdown (Shutdown_new (rp_conn s) (rp_remote_peer_id s)).

(** ** Shutdown *)

(** A closed channel of the manager is ready too, and sending into it panics.  Once
    the manager knows, the commands are dropped until its handle is gone. *)
Definition shutdown_poll_outbound (reserves : list Reserve) (ch : CommandChannel) (s : Shutdown) :
    M (option (option Bytes) * list StromSessionMessage * CommandChannel * Shutdown) :=
  if sd_to_session_manager s then
    match reserves with
    | ReserveOk :: _ =>
        Ok (None, [SessionDisconnected (sd_remote_peer_id s)], ch, mkShutdown (sd_conn s) (sd_remote_peer_id s) false)
    | ReserveClosed :: _ => Panic
    | [] => Ok (None, [], ch, s)
    end
  else Ok (if cc_sender ch then None else Some None, [],
           mkCommandChannel [] (cc_sender ch) (cc_receiver ch), s).

(** ** The task *)

Record SessionInput := mkSessionInput {
  si_now : Z;
  si_budget : nat;
  si_reserves : list Reserve;
}.

(** [poll_outbound_msg] of each state; the dummy state is a [todo!]. *)
Definition poll_outbound_msg (i : SessionInput) (ch : CommandChannel) (s : StromSessionStates) :
    M (option (option Bytes) * list StromSessionMessage * CommandChannel * StromSessionStates) :=
  match s with
  | InStartup s =>
      let* (out, sent, s) := startup_poll_outbound (si_now i) (si_reserves i) s in Ok (out, sent, ch, InStartup s)
  | InRegular s =>
      let* (out, sent, ch, s) := regular_poll_outbound (si_budget i) (si_reserves i) ch s in
      Ok (out, sent, ch, InRegular s)
  | InShutdown s =>
      let* (out, sent, ch, s) := shutdown_poll_outbound (si_reserves i) ch s in Ok (out, sent, ch, InShutdown s)
  | InDummy => Panic
  end.

Definition poll_next_state (s : StromSessionStates) : M (option StromSessionStates) :=
  match s with
  | InStartup s => Ok (Some (startup_next_state s))
  | InRegular s => Ok (Some (regular_next_state s))
  | InShutdown _ => Ok None
  | InDummy => Panic
  end.

(** A state that ended leaves the dummy state behind. *)
Definition session_poll (i : SessionInput) (ch : CommandChannel) (s : StromSessionStates) :
    M (option (option Bytes) * list StromSessionMessage * CommandChannel * StromSessionStates) :=
  let* (out, sent, ch, s) := poll_outbound_msg i ch s in
  match out with
  | None => Ok (None, sent, ch, s)
  | Some (Some data) => Ok (Some (Some data), sent, ch, s)
  | Some None =>
      let* next := poll_next_state s in
      match next with
      | None => Ok (Some None, sent, ch, InDummy)
      | Some next => Ok (None, sent, ch, next)
      end
  end.

(** ** Connecting *)

(** The last twenty bytes of the hash of the peer's key. *)
Definition peer_address (peer : PeerId) : Address := keccak256 (be_bytes 64 peer) mod 2 ^ 160.

Record StromConnectionHandler := mkStromConnectionHandler {
  ch_socket_addr : Z;
  ch_side_car : VerificationSidecar;
  ch_validator_set : gset Address;
}.

(** [on_incoming] and [on_outgoing] of the protocol handler: both copy the set of
    validators of that moment. *)
Definition on_connection (sidecar : VerificationSidecar) (validators : gset Address) (socket_addr : Z) :
    StromConnectionHandler := mkStromConnectionHandler socket_addr sidecar validators.

(** [None] is the session that ends at once.  [channel] names the new command channel. *)
Definition into_connection (h : StromConnectionHandler) (outgoing : bool) (peer : PeerId)
    (conn : ProtocolConnection) (channel : Z) : option (CommandChannel * StromSessionStates) :=
  if decide (peer_address peer ∈ ch_validator_set h) then
    Some (channel_new,
          StromSessionHandler_new conn peer (ch_side_car h)
            (mkStromSessionHandle outgoing peer channel (ch_socket_addr h)))
  else None.

End Session.

(** ** What a session tells the manager *)

Section Facts.
Context {P : Profile} {C : OrderCrypto} {K : SigningKey} {W : WireCodec}.

(** The status the peer sent was signed by the key of its id and had not expired. *)
Definition status_accepted (now : Z) (peer : PeerId) (status : Status) : Prop :=
  recover_peer_id (st_signature status) (to_message (st_state status)) = Some peer /\
  exists t, checked_u 128 (ss_timestamp (st_state status) + STATUS_TIMESTAMP_TIMEOUT_MS) = Ok t /\ now <= t.

Definition session_peer (s : StromSessionStates) : option PeerId :=
  match s with
  | InStartup s => Some (su_remote_peer_id s)
  | InRegular s => Some (rp_remote_peer_id s)
  | InShutdown s => Some (sd_remote_peer_id s)
  | InDummy => None
  end.

Definition session_conn (s : StromSessionStates) : ProtocolConnection :=
  match s with
  | InStartup s => su_conn s
  | InRegular s => rp_conn s
  | InShutdown s => sd_conn s
  | InDummy => mkProtocolConnection [] false
  end.

(** [auth] the peers that proved who they are, [said] what each has sent. *)
Definition message_ok (auth : PeerId -> Prop) (said : PeerId -> Bytes -> Prop) (m : StromSessionMessage) : Prop :=
  match m with
  | ValidMessage p m => auth p /\ exists bytes, said p bytes /\ decode_message bytes = Ok m
  | BadMessage p => auth p
  | Established _ | SessionDisconnected _ => True
  | ClosedOnConnectionError _ _ | ProtocolBreach _ => False
  end.

Definition session_ok (auth : PeerId -> Prop) (said : PeerId -> Bytes -> Prop) (s : StromSessionStates) : Prop :=
  (forall p b, session_peer s = Some p -> b ∈ pc_queue (session_conn s) -> said p b) /\
  match s with
  | InRegular s => auth (rp_remote_peer_id s) /\ Forall (message_ok auth said) (rp_manager_buffer s)
  | _ => True
  end.

Lemma valid_verification_spec now peer data :
  valid_verification now peer data = Ok true ->
  exists id status, decode_message data = Ok (mkStromProtocolMessage id (StatusMessage status)) /\
    status_accepted now peer status.
Proof.
  unfold valid_verification, verify_incoming_status, status_verify. intros H.
  destruct (decode_message data) as [[id m]|?|] eqn:D; try discriminate H. cbn in H.
  destruct m; try discriminate H.
  m_inv. apply andb_true_iff in H1 as [Hn Hp].
  exists id, s. split; [done|]. split.
  - destruct (recover_peer_id _ _) eqn:R; [|discriminate H0]. cbn in H0. injection H0 as ->.
    apply Z.eqb_eq in Hp. by subst.
  - eexists. split; [exact H|]. by apply Z.leb_le.
Qed.

Lemma conn_next_queue c b c' : conn_next c = (b, c') ->
  match b with
  | Some (Some x) => pc_queue c = x :: pc_queue c' /\ pc_open c' = pc_open c
  | Some None => pc_queue c = [] /\ pc_open c = false /\ c' = c
  | None => pc_queue c = [] /\ pc_open c = true /\ c' = c
  end.
Proof. unfold conn_next. destruct c as [[|x q] o]; [destruct o|]; intros [= <- <-]; done. Qed.

Lemma receive_loop_spec auth said budget peer conn buffer r :
  receive_loop budget peer conn buffer = Ok r ->
  auth peer -> (forall b, b ∈ pc_queue conn -> said peer b) -> Forall (message_ok auth said) buffer ->
  Forall (message_ok auth said) r.2 /\ (forall b, b ∈ pc_queue r.1.2 -> said peer b).
Proof.
  revert conn buffer. induction budget as [|n IH]; intros conn buffer H Ha Hs Hb; cbn in H; [by simplify_eq|].
  destruct (conn_next conn) as [b conn'] eqn:E. apply conn_next_queue in E.
  destruct b as [[bytes|]|].
  - destruct E as [Eq _]. m_inv. apply IH in H0; [done | done | |].
    + intros b Hin. apply Hs. rewrite Eq. by right.
    + apply Forall_app. split; [done|]. apply Forall_singleton.
      unfold received in H. destruct (decode_message bytes) eqn:D; m_inv; cbn.
      * split; [done|]. exists bytes. split; [|done]. apply Hs. rewrite Eq. by left.
      * done.
  - destruct E as (Eq & _ & ->). destruct buffer; [m_inv; done|]. by apply IH in H.
  - destruct E as (Eq & _ & ->). by m_inv.
Qed.

Lemma send_to_manager_app buffer reserves :
  (send_to_manager buffer reserves).1 ++ (send_to_manager buffer reserves).2 = buffer.
Proof.
  revert buffer. induction reserves as [|[] rs IH]; intros [|m buffer]; cbn; try done.
  specialize (IH buffer). destruct (send_to_manager buffer rs). cbn in *. by f_equal.
Qed.

(** While the connection is closed and something is buffered, the receive loop goes on
    until the runtime stops it. *)
Lemma receive_loop_spins budget peer conn buffer r :
  pc_open conn = false -> buffer <> [] \/ pc_queue conn <> [] ->
  receive_loop budget peer conn buffer = Ok r -> r.1.1 = (false, O).
Proof.
  revert conn buffer. induction budget as [|n IH]; intros conn buffer Ho Hne H; cbn in H; [by simplify_eq|].
  destruct (conn_next conn) as [b conn'] eqn:E. apply conn_next_queue in E.
  destruct b as [[bytes|]|].
  - destruct E as [Eq Eo]. m_inv. apply IH in H0; [done | congruence | left; by destruct buffer].
  - destruct E as (Eq & _ & ->). destruct buffer; [by destruct Hne|]. by apply IH in H.
  - destruct E as (_ & ? & _). congruence.
Qed.

Lemma startup_ok auth said now reserves s out sent s' :
  startup_poll_outbound now reserves s = Ok (out, sent, s') ->
  (forall b, b ∈ pc_queue (su_conn s) -> said (su_remote_peer_id s) b) ->
  (forall bytes id status, said (su_remote_peer_id s) bytes ->
     decode_message bytes = Ok (mkStromProtocolMessage id (StatusMessage status)) ->
     status_accepted now (su_remote_peer_id s) status -> auth (su_remote_peer_id s)) ->
  Forall (message_ok auth said) sent /\ su_remote_peer_id s' = su_remote_peer_id s /\
  (forall b, b ∈ pc_queue (su_conn s') -> said (su_remote_peer_id s) b) /\
  (out = Some None -> su_shutdown s' = false -> auth (su_remote_peer_id s)).
Proof.
  unfold startup_poll_outbound. intros H Hs Ha.
  destruct (manager_has_handle s reserves) as [[reg msgs] s1] eqn:E.
  assert (Forall (message_ok auth said) msgs /\ su_remote_peer_id s1 = su_remote_peer_id s /\
          su_conn s1 = su_conn s) as (Hm & Hp & Hc).
  { unfold manager_has_handle in E. destruct (su_handle s); [|by simplify_eq].
    destruct reserves as [|[] ?]; simplify_eq; repeat split; done || by repeat constructor. }
  destruct reg; cbn in H; [|injection H as <- <- <-; rewrite Hp, Hc; done].
  m_inv. destruct x as [o s2]. m_inv. split; [done|].
  unfold handle_verification in H. rewrite Hp, Hc in H.
  destruct (vs_has_sent _); cbn in H; [|m_inv; cbn; rewrite ?Hp, ?Hc; done].
  destruct (conn_next (su_conn s)) as [b conn'] eqn:En. apply conn_next_queue in En.
  destruct b as [[bytes|]|].
  - destruct En as [Eq _]. m_inv. cbn. split; [done|]. split.
    + intros b Hin. apply Hs. rewrite Eq. by right.
    + intros _ Hv. apply negb_false_iff in Hv. subst.
      apply valid_verification_spec in H as (id & status & D & Acc).
      eapply Ha; [|exact D|exact Acc]. apply Hs. rewrite Eq. by left.
  - destruct En as (_ & _ & ->). m_inv. cbn. done.
  - injection H as <- <-. by rewrite Hp, Hc.
Qed.

Lemma regular_ok auth said budget reserves ch s out sent ch' s' :
  regular_poll_outbound budget reserves ch s = Ok (out, sent, ch', s') ->
  session_ok auth said (InRegular s) ->
  Forall (message_ok auth said) sent /\ rp_remote_peer_id s' = rp_remote_peer_id s /\
  session_ok auth said (InRegular s').
Proof.
  unfold regular_poll_outbound. intros H [Hq [Ha Hb]]. cbn in Hq.
  destruct (commands_next ch) as [c ch1].
  destruct c as [[[]|]|]; try (m_inv; split; [constructor | split; [done | by split]]; fail).
  m_inv. destruct x as [[[ended left] conn] buffer].
  destruct (receive_loop_spec auth said _ _ _ _ _ H Ha (fun b => Hq _ b eq_refl) Hb) as [Hf Hs]. cbn in Hf, Hs.
  destruct ended; [m_inv; repeat split; cbn; [constructor | intros ? ? [= <-]; apply Hs | done..]|].
  pose proof (send_to_manager_app buffer reserves) as Happ.
  destruct (send_to_manager buffer reserves) as [msgs rest]. cbn in Happ. m_inv.
  apply Forall_app in Hf as [? ?].
  repeat split; cbn; [done | intros ? ? [= <-]; apply Hs | done..].
Qed.

(** Everything a session sends, and its state, stays within what its peer proved and
    said. *)
Lemma session_poll_ok auth said i ch s out sent ch' s' :
  session_poll i ch s = Ok (out, sent, ch', s') -> session_ok auth said s ->
  (forall p bytes id status, session_peer s = Some p -> said p bytes ->
     decode_message bytes = Ok (mkStromProtocolMessage id (StatusMessage status)) ->
     status_accepted (si_now i) p status -> auth p) ->
  Forall (message_ok auth said) sent /\ session_ok auth said s' /\
  (session_peer s' = session_peer s \/ s' = InDummy).
Proof.
  unfold session_poll. intros H Hok Ha. m_inv. destruct x as [[[o msgs] ch1] s1].
  destruct s as [s|s|s|]; cbn in H.
  - m_inv. destruct x as [[o1 m1] s2]. m_inv. destruct Hok as [Hq _]. cbn in Hq.
    destruct (startup_ok auth said _ _ _ _ _ _ H (fun b => Hq _ b eq_refl)
      (fun bytes id status => Ha _ bytes id status eq_refl)) as (Hm & Hp & Hs & Hv).
    rewrite <- Hp in Hs, Hv.
    assert (session_ok auth said (InStartup s2)) by (split; [intros ? ? [= <-]; apply Hs | done]).
    destruct o as [[d|]|]; cbn in H0; m_inv; [by cbn; rewrite Hp; auto | | by cbn; rewrite Hp; auto].
    split; [done|]. cbn [session_peer]. rewrite <- Hp. unfold startup_next_state.
    destruct (su_shutdown s2); (split; [split; [intros ? ? [= <-]; apply Hs | cbn; auto] | by left]).
  - m_inv. destruct x as [[[o1 m1] ch2] s2]. m_inv.
    destruct (regular_ok auth said _ _ _ _ _ _ _ _ H Hok) as (Hm & Hp & [Hs1 Hs2]). cbn in Hs1.
    assert (session_ok auth said (InRegular s2)) by (split; [exact Hs1 | exact Hs2]).
    destruct o as [[d|]|]; cbn in H0; m_inv; [by cbn; rewrite Hp; auto | | by cbn; rewrite Hp; auto].
    split; [done|]. cbn [session_peer]. rewrite <- Hp. by repeat split; [exact Hs1 | left].
  - destruct Hok as [Hq _]. m_inv. destruct x as [[[o1 m1] ch2] s2]. m_inv.
    unfold shutdown_poll_outbound in H. cbn in Hq.
    destruct (sd_to_session_manager s); [destruct (si_reserves i) as [|[] ?]|]; m_inv; cbn.
    + repeat split; auto.
    + repeat split; auto. by repeat constructor.
    + destruct (cc_sender ch); cbn in H0; m_inv; cbn; repeat split; auto; done.
  - discriminate H.
Qed.

End Facts.

Lemma built_status_valid {P : Profile} {C : OrderCrypto} {K : SigningKey} {L : SigningLaws K} {W : WireCodec}
    {WL : WireLaws W} now key state t :
  let status := status_build t state key in
  0 <= t -> t + STATUS_TIMESTAMP_TIMEOUT_MS <= u_max 128 -> bincode_exact (StatusMessage status) ->
  valid_verification now (signer_id key) (encode_with_id (StatusMessage status)) =
  Ok (now <=? t + STATUS_TIMESTAMP_TIMEOUT_MS).
Proof.
  intros status H0 Hm Hb. unfold valid_verification. rewrite (proj1 (wire_roundtrip _ Hb)). cbn [spm_message].
  unfold verify_incoming_status, checked_u. unfold status. rewrite built_status_verifies.
  cbn [ss_timestamp st_state status_build timestamp_now].
  assert (fits_u 128 (t + STATUS_TIMESTAMP_TIMEOUT_MS) = true) as ->
    by (unfold fits_u; apply andb_true_iff; split; apply Z.leb_le; unfold STATUS_TIMESTAMP_TIMEOUT_MS in *; lia).
  cbn. by rewrite Z.eqb_refl, andb_true_r.
Qed.

(** A session that has registered and sent its status decides on the peer's first
    message: a status the peer signed is accepted until 1500 ms after its timestamp and
    refused later, whatever node, chain and version it was signed for; the session goes
    on to relay messages or to shut down, and nothing is sent to the manager. *)
Theorem status_decides {P : Profile} {C : OrderCrypto} {K : SigningKey} {L : SigningLaws K} {W : WireCodec}
    {WL : WireLaws W} sidecar rest ch i key state t :
  let status := status_build t state key in
  let conn := mkProtocolConnection rest true in
  vs_has_sent sidecar = true -> 0 <= t -> t + STATUS_TIMESTAMP_TIMEOUT_MS <= u_max 128 ->
  bincode_exact (StatusMessage status) ->
  session_poll i ch
    (InStartup (mkStromStartup sidecar None
       (mkProtocolConnection (encode_with_id (StatusMessage status) :: rest) true) (signer_id key) false)) =
  Ok (None, [], ch,
      if si_now i <=? t + STATUS_TIMESTAMP_TIMEOUT_MS
      then InRegular (RegularProcessing_new conn (signer_id key))
      else InShutdown (Shutdown_new conn (signer_id key))).
Proof.
  intros status conn Hs H0 Hm Hb.
  pose proof (built_status_valid (si_now i) key state t H0 Hm Hb) as Hv. fold status in Hv. revert Hv.
  generalize (encode_with_id (StatusMessage status)). intros data Hv.
  unfold session_poll, poll_outbound_msg, startup_poll_outbound. cbn.
  unfold handle_verification. cbn. rewrite Hs. cbn. rewrite Hv. cbn. by destruct (_ <=? _).
Qed.

(** ** A codec for statuses *)

#[local] Existing Instance toy_key.
#[local] Existing Instance toy_crypto.

(** Statuses and attestations, each behind a tag. *)
Definition session_bincode (m : StromMessage) : Bytes :=
  match m with
  | StatusMessage (mkStatus (mkStatusState v c p t) (a, b)) => [0; v; c; p; t; a; b]
  | BundleUnlockAttestation block bytes => 1 :: block :: bytes
  | _ => []
  end.

Definition session_unbincode (b : Bytes) : option StromMessage :=
  match b with
  | [0; v; c; p; t; a; b] => Some (StatusMessage (mkStatus (mkStatusState v c p t) (a, b)))
  | 1 :: block :: bytes => Some (BundleUnlockAttestation block bytes)
  | _ => None
  end.

Definition session_wire : WireCodec := {|
  rlp_encode_vec := @rlp_encode_vec _ toy_wire;
  rlp_decode_vec := @rlp_decode_vec _ toy_wire;
  bincode_serialize := session_bincode;
  bincode_deserialize := session_unbincode;
|}.
#[local] Existing Instance session_wire.

Lemma session_wire_laws : WireLaws session_wire.
Proof. exact toy_wire_laws. Qed.

Definition demo_sidecar (sent : bool) : VerificationSidecar := mkVerificationSidecar 5 (mkStatusState 0 1 0 0) sent false.

(** The status was meant for peer 77, on chain 3. *)
Definition foreign_status : Status := status_build 1000 (mkStatusState 9 3 77 0) 6.

Lemma status_decides_witness :
  session_poll (P := dev) (mkSessionInput 2500 128 [])
    channel_new
    (InStartup (mkStromStartup (demo_sidecar true) None
       (mkProtocolConnection [encode_with_id (StatusMessage foreign_status)] true) 6 false)) =
  Ok (None, [], channel_new, InRegular (RegularProcessing_new (mkProtocolConnection [] true) 6)).
Proof.
  apply (@status_decides dev toy_crypto toy_key toy_key_laws session_wire session_wire_laws
           (demo_sidecar true) [] channel_new (mkSessionInput 2500 128 []) 6 (mkStatusState 9 3 77 0) 1000);
    [reflexivity | lia | vm_compute; discriminate | reflexivity].
Defined.
