(* ===== verification/Network.v ===== *)
(** * Network manager

    crates/angstrom-net/src: the peers and their reputation (peers/manager.rs,
    peers/reputation.rs), the set of validators (state.rs), the sessions
    (session/mod.rs), the swarm (swarm.rs) and the task that routes messages between
    the sessions, the order pool and the consensus (manager.rs, network.rs).

    The command channels of the sessions are a store shared between the manager and the
    session tasks of [Session]; dropping a handle closes the sending side of its
    channel.  What the manager sends to the order pool and to the consensus is recorded
    in their queues, the bans it asks for in [pm_ban_list] and the peers it writes to
    its file in [nm_known_peers].  [net_step] is the node's network as a whole: reth
    opening, feeding, closing and dropping connections, session tasks and the manager
    being polled in any order. *)

From S2P Require Import Prelude Uniswap Ray Orders ConsensusMessages Rounds EthManager NetMessages Session.

(** ** Reputation *)

Definition DEFAULT_REPUTATION : Z := 0.
Definition REPUTATION_UNIT : Z := -1024.
Definition BANNED_REPUTATION : Z := 50 * REPUTATION_UNIT.
Definition BAD_MESSAGE_REPUTATION_CHANGE : Z := 5 * REPUTATION_UNIT.
Definition BAD_ORDER_REPUTATION_CHANGE : Z := 10 * REPUTATION_UNIT.
Definition BAD_COMPOSABLE_ORDER_REPUTATION_CHANGE : Z := 15 * REPUTATION_UNIT.
Definition BAD_BUNDLE_REPUTATION_CHANGE : Z := 20 * REPUTATION_UNIT.
Definition INVALID_ORDER_REPUTATION_CHANGE : Z := 17 * REPUTATION_UNIT.

Inductive ReputationChangeKind :=
| KindBadMessage
| KindBadOrder
| KindBadComposableOrder
| KindBadBundle
| KindInvalidOrder
| KindReset.

Definition is_banned_reputation (reputation : Z) : bool := reputation <? BANNED_REPUTATION.

Record ReputationChangeWeights := mkReputationChangeWeights {
  w_bad_message : Z;
  w_bad_order : Z;
  w_bad_composable_order : Z;
  w_bad_bundle : Z;
  w_invalid_order : Z;
}.

Definition default_weights : ReputationChangeWeights :=
  mkReputationChangeWeights BAD_MESSAGE_REPUTATION_CHANGE BAD_ORDER_REPUTATION_CHANGE
    BAD_COMPOSABLE_ORDER_REPUTATION_CHANGE BAD_BUNDLE_REPUTATION_CHANGE INVALID_ORDER_REPUTATION_CHANGE.

Definition reputation_change (w : ReputationChangeWeights) (kind : ReputationChangeKind) : Z :=
  match kind with
  | KindBadMessage => w_bad_message w
  | KindBadOrder => w_bad_order w
  | KindBadComposableOrder => w_bad_composable_order w
  | KindBadBundle => w_bad_bundle w
  | KindInvalidOrder => w_invalid_order w
  | KindReset => DEFAULT_REPUTATION
  end.

(** ** Peers *)

Inductive PeerKind := PeerBasic | PeerMevGuard | PeerTrusted | PeerTrustedMevGuard.

Record Peer := mkPeer {
  peer_reputation : Z;
  peer_kind : PeerKind;
  peer_connected : bool;
}.

Inductive ReputationChangeOutcome := OutcomeNone | OutcomeBan | OutcomeDisconnectAndBan | OutcomeUnban.

Definition i32_saturating_add (x y : Z) : Z := Z.max (i_min 32) (Z.min (i_max 32) (x + y)).

Definition peer_is_banned (p : Peer) : bool := is_banned_reputation (peer_reputation p).
Definition is_trusted (p : Peer) : bool := match peer_kind p with PeerTrusted => true | _ => false end.

Definition apply_reputation (p : Peer) (reputation : Z) : ReputationChangeOutcome * Peer :=
  let previous := peer_reputation p in
  let p := mkPeer (i32_saturating_add previous reputation) (peer_kind p) (peer_connected p) in
  if peer_connected p && peer_is_banned p then
    (OutcomeDisconnectAndBan, mkPeer (peer_reputation p) (peer_kind p) false)
  else if peer_is_banned p && negb (is_banned_reputation previous) then (OutcomeBan, p)
  else if negb (peer_is_banned p) && is_banned_reputation previous then (OutcomeUnban, p)
  else (OutcomeNone, p).

Inductive PeerAction :=
| ActDisconnect (peer : PeerId) (reason : option DisconnectReason)
| ActDisconnectBannedIncoming (peer : PeerId)
| ActBanPeer (peer : PeerId)
| ActUnBanPeer (peer : PeerId)
| ActPeerAdded (peer : PeerId)
| ActPeerRemoved (peer : PeerId).

Record PeersManager := mkPeersManager {
  pm_peers : gmap PeerId Peer;
  pm_queued_actions : list PeerAction;
  pm_reputation_weights : ReputationChangeWeights;
  pm_ban_list : list PeerId;
}.

Definition PeersManager_new : PeersManager := mkPeersManager ∅ [] default_weights [].

Definition queue_action (m : PeersManager) (a : PeerAction) : PeersManager :=
  mkPeersManager (pm_peers m) (pm_queued_actions m ++ [a]) (pm_reputation_weights m) (pm_ban_list m).
Definition ban_peer (m : PeersManager) (peer : PeerId) : PeersManager :=
  mkPeersManager (pm_peers m) (pm_queued_actions m) (pm_reputation_weights m) (pm_ban_list m ++ [peer]).
Definition set_peer (m : PeersManager) (id : PeerId) (p : Peer) : PeersManager :=
  mkPeersManager (<[id := p]> (pm_peers m)) (pm_queued_actions m) (pm_reputation_weights m) (pm_ban_list m).

Definition remove_peer (m : PeersManager) (peer : PeerId) : PeersManager :=
  match pm_peers m !! peer with
  | None => m
  | Some p => if is_trusted p then m else queue_action m (ActPeerRemoved peer)
  end.

Definition change_weight (m : PeersManager) (peer : PeerId) (weight : ReputationChangeKind) : PeersManager :=
  match pm_peers m !! peer with
  | None => m
  | Some p =>
      let (outcome, p) := apply_reputation p (reputation_change (pm_reputation_weights m) weight) in
      let m := set_peer m peer p in
      match outcome with
      | OutcomeBan => ban_peer m peer
      | OutcomeDisconnectAndBan => queue_action (ban_peer m peer) (ActDisconnectBannedIncoming peer)
      | OutcomeUnban => queue_action m (ActUnBanPeer peer)
      | OutcomeNone => m
      end
  end.

Definition remove_peer_from_trusted_set (m : PeersManager) (peer : PeerId) : PeersManager :=
  match pm_peers m !! peer with
  | None => m
  | Some p => if is_trusted p then set_peer m peer (mkPeer (peer_reputation p) PeerBasic (peer_connected p)) else m
  end.

Definition peers_poll (m : PeersManager) : option PeerAction * PeersManager :=
  match pm_queued_actions m with
  | a :: rest => (Some a, mkPeersManager (pm_peers m) rest (pm_reputation_weights m) (pm_ban_list m))
  | [] => (None, m)
  end.

(** ** Validators *)

Record StromState := mkStromState {
  ns_peers_manager : PeersManager;
  ns_active_peers : gset PeerId;
  ns_validators : gset Address;
}.

Definition StromState_new (validators : gset Address) : StromState := mkStromState PeersManager_new ∅ validators.
Definition with_peers_manager (s : StromState) (m : PeersManager) : StromState :=
  mkStromState m (ns_active_peers s) (ns_validators s).
Definition with_validators (s : StromState) (v : gset Address) : StromState :=
  mkStromState (ns_peers_manager s) (ns_active_peers s) v.

Definition net_add_validator (s : StromState) (addr : Address) : StromState :=
  with_validators s ({[addr]} ∪ ns_validators s).

Inductive StateEvent :=
| StDisconnect (peer : PeerId) (reason : option DisconnectReason)
| StDisconnectBannedIncoming (peer : PeerId)
| StBanPeer (peer : PeerId)
| StUnBanPeer (peer : PeerId).

(** The remaining actions are [unreachable!]. *)
Definition state_poll (s : StromState) : M (option StateEvent * StromState) :=
  let (a, m) := peers_poll (ns_peers_manager s) in
  let s := with_peers_manager s m in
  match a with
  | None => Ok (None, s)
  | Some (ActDisconnect p r) => Ok (Some (StDisconnect p r), s)
  | Some (ActBanPeer p) => Ok (Some (StBanPeer p), s)
  | Some (ActDisconnectBannedIncoming p) => Ok (Some (StDisconnectBannedIncoming p), s)
  | Some (ActUnBanPeer p) => Ok (Some (StUnBanPeer p), s)
  | Some (ActPeerAdded _) | Some (ActPeerRemoved _) => Panic
  end.

Section Network.
Context {P : Profile} {C : OrderCrypto} {K : SigningKey} {W : WireCodec}.

(** The first active peer with the address of the removed validator is removed too. *)
Definition net_remove_validator (s : StromState) (addr : Address) : StromState :=
  let s := with_validators s (ns_validators s ∖ {[addr]}) in
  match list_find (fun peer => peer_address peer = addr) (elements (ns_active_peers s)) with
  | Some (_, id) => with_peers_manager s (remove_peer (ns_peers_manager s) id)
  | None => s
  end.

(** ** Sessions *)

Abbreviation Channels := (gmap Z CommandChannel) (only parsing).

(** Of the fields, only the timeout is left out. *)
Inductive SessionEvent :=
| EvSessionEstablished (peer : PeerId) (outgoing : bool)
| EvAlreadyConnected (peer : PeerId) (remote_addr : Z) (outgoing : bool)
| EvValidMessage (peer : PeerId) (message : StromProtocolMessage)
| EvBadMessage (peer : PeerId)
| EvProtocolBreach (peer : PeerId)
| EvOutgoingConnectionError (peer : PeerId) (error : string)
| EvSessionClosedOnConnectionError (peer : PeerId) (remote_addr : Z) (error : string)
| EvDisconnected (peer : PeerId).

Record StromSessionManager := mkStromSessionManager {
  sm_active_sessions : gmap PeerId StromSessionHandle;
  sm_from_sessions : list StromSessionMessage;
  sm_msg_buf : list SessionEvent;
}.

Definition StromSessionManager_new : StromSessionManager := mkStromSessionManager ∅ [] [].
Definition set_active (s : StromSessionManager) (m : gmap PeerId StromSessionHandle) : StromSessionManager :=
  mkStromSessionManager m (sm_from_sessions s) (sm_msg_buf s).
Definition set_from_sessions (s : StromSessionManager) (l : list StromSessionMessage) : StromSessionManager :=
  mkStromSessionManager (sm_active_sessions s) l (sm_msg_buf s).
Definition set_msg_buf (s : StromSessionManager) (l : list SessionEvent) : StromSessionManager :=
  mkStromSessionManager (sm_active_sessions s) (sm_from_sessions s) l.

Definition send_command (chs : Channels) (h : StromSessionHandle) (cmd : SessionCommand) : Channels :=
  alter (fun c => command_try_send c cmd) (sh_channel h) chs.
Definition drop_handle (chs : Channels) (h : StromSessionHandle) : Channels :=
  alter drop_sender (sh_channel h) chs.

(** [StromSessionHandle::disconnect] *)
Definition handle_disconnect (chs : Channels) (h : StromSessionHandle) (reason : option DisconnectReason) : Channels :=
  send_command chs h (DisconnectCommand reason).

Definition sessions_send (s : StromSessionManager) (chs : Channels) (peer : PeerId) (m : StromMessage) : Channels :=
  match sm_active_sessions s !! peer with
  | Some h => send_command chs h (MessageCommand m)
  | None => chs
  end.

Definition sessions_broadcast (s : StromSessionManager) (chs : Channels) (m : StromMessage) : Channels :=
  fold_left (fun chs ph => send_command chs ph.2 (MessageCommand m)) (map_to_list (sm_active_sessions s)) chs.

(** The removed handle is dropped. *)
Definition remove_session (s : StromSessionManager) (chs : Channels) (peer : PeerId) : Channels * StromSessionManager :=
  match sm_active_sessions s !! peer with
  | Some h => (drop_handle chs h, set_active s (delete peer (sm_active_sessions s)))
  | None => (chs, s)
  end.

Definition disconnect_all (s : StromSessionManager) (chs : Channels) (reason : option DisconnectReason) : Channels :=
  fold_left (fun chs ph => handle_disconnect chs ph.2 reason) (map_to_list (sm_active_sessions s)) chs.

Definition sessions_disconnect (s : StromSessionManager) (chs : Channels) (peer : PeerId)
    (reason : option DisconnectReason) : Channels * StromSessionManager :=
  match sm_active_sessions s !! peer with
  | Some h => (drop_handle (handle_disconnect chs h reason) h, set_active s (delete peer (sm_active_sessions s)))
  | None => (chs, s)
  end.

Definition handle_closed (chs : Channels) (h : StromSessionHandle) : bool :=
  match chs !! sh_channel h with Some c => is_closed c | None => true end.

(** The sessions whose task is gone, each reported as disconnected. *)
Definition sweep_dead (s : StromSessionManager) (chs : Channels) : Channels * StromSessionManager :=
  let dead := filter (fun ph => handle_closed chs ph.2 = true) (map_to_list (sm_active_sessions s)) in
  fold_left (fun r ph =>
      let (chs, s) := remove_session r.2 r.1 ph.1 in
      (chs, set_msg_buf s (sm_msg_buf s ++ [EvDisconnected ph.1])))
    dead (chs, s).

(** One message of a session; the result is what the poll is ready with. *)
Definition on_session_message (s : StromSessionManager) (chs : Channels) (m : StromSessionMessage) :
    option SessionEvent * Channels * StromSessionManager :=
  match m with
  | SessionDisconnected peer =>
      let (chs, s) := remove_session s chs peer in (Some (EvDisconnected peer), chs, s)
  | Established h =>
      match sm_active_sessions s !! sh_remote_id h with
      | Some _ => (None, drop_handle (handle_disconnect chs h None) h, s)
      | None =>
          (Some (EvSessionEstablished (sh_remote_id h) (sh_outgoing h)), chs,
           set_active s (<[sh_remote_id h := h]> (sm_active_sessions s)))
      end
  | ClosedOnConnectionError peer error =>
      let (chs, s) := remove_session s chs peer in (Some (EvOutgoingConnectionError peer error), chs, s)
  | ValidMessage peer m => (Some (EvValidMessage peer m), chs, s)
  | BadMessage peer => (Some (EvBadMessage peer), chs, s)
  | ProtocolBreach peer => (Some (EvProtocolBreach peer), chs, s)
  end.

Definition poll_session_msg (s : StromSessionManager) (chs : Channels) :
    option (option SessionEvent) * Channels * StromSessionManager :=
  let (chs, s) := sweep_dead s chs in
  match sm_msg_buf s with
  | next :: rest => (Some (Some next), chs, set_msg_buf s rest)
  | [] =>
      match sm_from_sessions s with
      | m :: rest =>
          let '(e, chs, s) := on_session_message (set_from_sessions s rest) chs m in (Some e, chs, s)
      | [] => (None, chs, s)
      end
  end.

(** ** Swarm *)

Inductive SwarmEvent :=
| SwSessionEstablished (peer : PeerId)
| SwValidMessage (peer : PeerId) (m : StromMessage)
| SwDisconnected (peer : PeerId).

Record Swarm := mkSwarm {
  sw_sessions : StromSessionManager;
  sw_state : StromState;
}.

Definition on_session_event (s : StromState) (e : SessionEvent) : option SwarmEvent * StromState :=
  match e with
  | EvBadMessage peer => (None, with_peers_manager s (change_weight (ns_peers_manager s) peer KindBadMessage))
  | EvValidMessage peer m => (Some (SwValidMessage peer (spm_message m)), s)
  | EvDisconnected peer => (Some (SwDisconnected peer), s)
  | EvSessionEstablished peer _ => (Some (SwSessionEstablished peer), s)
  | EvAlreadyConnected _ _ _ | EvProtocolBreach _ | EvOutgoingConnectionError _ _
  | EvSessionClosedOnConnectionError _ _ _ => (None, s)
  end.

(** Drains the sessions until an event is to be reported or nothing is ready; a
    duplicate connection ends the loop like the end of the stream.  The flag tells
    whether the loop ended within the fuel. *)
Fixpoint drain_sessions (fuel : nat) (w : Swarm) (chs : Channels) : bool * option SwarmEvent * Channels * Swarm :=
  match fuel with
  | O => (false, None, chs, w)
  | S fuel =>
      let '(e, chs, s) := poll_session_msg (sw_sessions w) chs in
      match e with
      | Some (Some e) =>
          let (r, st) := on_session_event (sw_state w) e in
          let w := mkSwarm s st in
          match r with
          | Some r => (true, Some r, chs, w)
          | None => drain_sessions fuel w chs
          end
      | _ => (true, None, chs, mkSwarm s (sw_state w))
      end
  end.

(** What the peers manager asks for is only logged. *)
Fixpoint drain_state (fuel : nat) (s : StromState) : M (bool * StromState) :=
  match fuel with
  | O => Ok (false, s)
  | S fuel =>
      let* (a, s) := state_poll s in
      match a with None => Ok (true, s) | Some _ => drain_state fuel s end
  end.

(** Enough for every message, every buffered event and every active session. *)
Definition swarm_fuel (s : StromSessionManager) : nat :=
  S (size (sm_active_sessions s) + length (sm_msg_buf s) + length (sm_from_sessions s)).

Definition swarm_poll (w : Swarm) (chs : Channels) : M (bool * option SwarmEvent * Channels * Swarm) :=
  let '(ended, e, chs, w) := drain_sessions (swarm_fuel (sw_sessions w)) w chs in
  match e with
  | Some e => Ok (ended, Some e, chs, w)
  | None =>
      let* (ended', st) := drain_state (S (length (pm_queued_actions (ns_peers_manager (sw_state w))))) (sw_state w) in
      Ok (ended && ended', None, chs, mkSwarm (sw_sessions w) st)
  end.

(** ** The manager *)

Inductive NetworkOrderEvent :=
| IncomingOrders (peer : PeerId) (orders : list AllOrders)
| CancelOrderEvent (peer : PeerId) (request : CancelOrderRequest).

Inductive StromNetworkEvent :=
| NetSessionClosed (peer : PeerId) (reason : option DisconnectReason)
| NetSessionEstablished (peer : PeerId)
| NetPeerAdded (peer : PeerId)
| NetPeerRemoved (peer : PeerId).

Record NetListener := mkNetListener {
  nl_alive : bool;
  nl_queue : list StromNetworkEvent;
}.

Inductive StromNetworkHandleMsg :=
| SubscribeEvents (tx : NetListener)
| RemovePeer (peer : PeerId)
| DisconnectPeer (peer : PeerId) (reason : option DisconnectReason)
| SendStromMessage (peer : PeerId) (m : StromMessage)
| BroadcastStromMessage (m : StromMessage)
| ReputationChange (peer : PeerId) (kind : ReputationChangeKind)
| ShutdownNetwork.

Definition CachedPeer : Type := PeerId * Z.

Record StromNetworkManager := mkStromNetworkManager {
  nm_swarm : Swarm;
  nm_to_pool_manager : option (list NetworkOrderEvent);
  nm_to_consensus_manager : option (list StromConsensusEvent);
  nm_event_listeners : list NetListener;
  nm_num_active_peers : Z;
  nm_known_peers : list CachedPeer;
}.

Definition StromNetworkManager_new (w : Swarm) (pool : option (list NetworkOrderEvent))
    (consensus : option (list StromConsensusEvent)) (known : list CachedPeer) : StromNetworkManager :=
  mkStromNetworkManager w pool consensus [] 0 known.

Definition with_swarm (m : StromNetworkManager) (w : Swarm) : StromNetworkManager :=
  mkStromNetworkManager w (nm_to_pool_manager m) (nm_to_consensus_manager m) (nm_event_listeners m)
    (nm_num_active_peers m) (nm_known_peers m).
Definition with_net_listeners (m : StromNetworkManager) (l : list NetListener) : StromNetworkManager :=
  mkStromNetworkManager (nm_swarm m) (nm_to_pool_manager m) (nm_to_consensus_manager m) l
    (nm_num_active_peers m) (nm_known_peers m).
Definition with_active_peers (m : StromNetworkManager) (n : Z) : StromNetworkManager :=
  mkStromNetworkManager (nm_swarm m) (nm_to_pool_manager m) (nm_to_consensus_manager m) (nm_event_listeners m)
    n (nm_known_peers m).
Definition map_peers (m : StromNetworkManager) (f : PeersManager -> PeersManager) : StromNetworkManager :=
  let w := nm_swarm m in
  with_swarm m (mkSwarm (sw_sessions w) (with_peers_manager (sw_state w) (f (ns_peers_manager (sw_state w))))).

(** [install_*] and [remove_*] of the two receivers. *)
Definition set_consensus_manager (m : StromNetworkManager) (tx : option (list StromConsensusEvent)) :
    StromNetworkManager :=
  mkStromNetworkManager (nm_swarm m) (nm_to_pool_manager m) tx (nm_event_listeners m)
    (nm_num_active_peers m) (nm_known_peers m).
Definition set_pool_manager (m : StromNetworkManager) (tx : option (list NetworkOrderEvent)) : StromNetworkManager :=
  mkStromNetworkManager (nm_swarm m) tx (nm_to_consensus_manager m) (nm_event_listeners m)
    (nm_num_active_peers m) (nm_known_peers m).

Definition send_consensus (m : StromNetworkManager) (e : StromConsensusEvent) : StromNetworkManager :=
  set_consensus_manager m (option_map (fun q => q ++ [e]) (nm_to_consensus_manager m)).
Definition send_pool (m : StromNetworkManager) (e : NetworkOrderEvent) : StromNetworkManager :=
  set_pool_manager m (option_map (fun q => q ++ [e]) (nm_to_pool_manager m)).

(** The active sessions first, then what the file held, each once. *)
Definition save_known_peers (m : StromNetworkManager) : StromNetworkManager :=
  let active := map (fun ph => (sh_remote_id ph.2, sh_socket_addr ph.2))
                  (map_to_list (sm_active_sessions (sw_sessions (nm_swarm m)))) in
  mkStromNetworkManager (nm_swarm m) (nm_to_pool_manager m) (nm_to_consensus_manager m) (nm_event_listeners m)
    (nm_num_active_peers m)
    (fold_left (fun l p => set_insert p l) (active ++ nm_known_peers m) []).

Definition on_handle_message (m : StromNetworkManager) (chs : Channels) (msg : StromNetworkHandleMsg) :
    Channels * StromNetworkManager :=
  let sessions := sw_sessions (nm_swarm m) in
  match msg with
  | SubscribeEvents tx => (chs, with_net_listeners m (nm_event_listeners m ++ [tx]))
  | SendStromMessage peer msg => (sessions_send sessions chs peer msg, m)
  | ShutdownNetwork =>
      let m := save_known_peers m in (disconnect_all sessions chs (Some 8), m)
  | RemovePeer peer => (chs, map_peers m (fun pm => remove_peer pm peer))
  | ReputationChange peer kind => (chs, map_peers m (fun pm => change_weight pm peer kind))
  | BroadcastStromMessage msg => (sessions_broadcast sessions chs msg, m)
  | DisconnectPeer peer reason =>
      let (chs, sessions) := sessions_disconnect sessions chs peer reason in
      (chs, with_swarm m (mkSwarm sessions (sw_state (nm_swarm m))))
  end.

Definition notify_listeners (m : StromNetworkManager) (e : StromNetworkEvent) : StromNetworkManager :=
  with_net_listeners m
    (map (fun l => mkNetListener (nl_alive l) (nl_queue l ++ [e]))
       (filter (fun l => nl_alive l = true) (nm_event_listeners m))).

Definition net_on_eth_event (m : StromNetworkManager) (e : EthEvent) : StromNetworkManager :=
  let w := nm_swarm m in
  match e with
  | AddedNode addr => with_swarm m (mkSwarm (sw_sessions w) (net_add_validator (sw_state w) addr))
  | RemovedNode addr => with_swarm m (mkSwarm (sw_sessions w) (net_remove_validator (sw_state w) addr))
  | _ => m
  end.

Definition route (m : StromNetworkManager) (peer : PeerId) (msg : StromMessage) : StromNetworkManager :=
  let address := peer_address peer in
  match msg with
  | PrePropose p => send_consensus m (EventPreProposal address p)
  | BundleUnlockAttestation block p => send_consensus m (EventBundleUnlockAttestation address block p)
  | PreProposeAgg p => send_consensus m (EventPreProposalAgg address p)
  | Propose a => send_consensus m (EventProposal address a)
  | PropagatePooledOrders a => send_pool m (IncomingOrders peer a)
  | OrderCancellation a => send_pool m (CancelOrderEvent peer a)
  | StatusMessage _ => m
  end.

(** [fetch_sub] and [fetch_add] wrap. *)
Definition on_swarm_event (m : StromNetworkManager) (e : SwarmEvent) : StromNetworkManager :=
  match e with
  | SwValidMessage peer msg => route m peer msg
  | SwDisconnected peer =>
      notify_listeners (with_active_peers m (wrap_u 64 (nm_num_active_peers m - 1))) (NetSessionClosed peer None)
  | SwSessionEstablished peer =>
      notify_listeners (with_active_peers m (wrap_u 64 (nm_num_active_peers m + 1))) (NetSessionEstablished peer)
  end.

(** What the runtime reports in one turn of the loop: the channel of the handles
    (pending, closed or a message) and a chain event. *)
Record TurnInput := mkTurnInput {
  ti_handle : option (option StromNetworkHandleMsg);
  ti_eth : option EthEvent;
}.

(** The flag tells whether the task ended. *)
Definition network_turn (m : StromNetworkManager) (chs : Channels) (i : TurnInput) :
    M (bool * Channels * StromNetworkManager) :=
  match ti_handle i with
  | Some None => Ok (true, chs, m)
  | msg =>
      let (chs, m) := match msg with Some (Some msg) => on_handle_message m chs msg | _ => (chs, m) end in
      let m := match ti_eth i with Some e => net_on_eth_event m e | None => m end in
      let* (_, e, chs, w) := swarm_poll (nm_swarm m) chs in
      let m := with_swarm m w in
      Ok (false, chs, match e with Some e => on_swarm_event m e | None => m end)
  end.

Fixpoint network_turns (m : StromNetworkManager) (chs : Channels) (inputs : list TurnInput) :
    M (bool * Channels * StromNetworkManager) :=
  match inputs with
  | [] => Ok (false, chs, m)
  | i :: inputs =>
      let* (ended, chs, m) := network_turn m chs i in
      if (ended : bool) then Ok (true, chs, m) else network_turns m chs inputs
  end.

(** [work] starts at thirty and is decremented before it is tested. *)
Definition network_poll (m : StromNetworkManager) (chs : Channels) (inputs : list TurnInput) :
    M (bool * Channels * StromNetworkManager) := network_turns m chs (take 29 inputs).

End Network.

(** ** Sessions and their messages *)

Section SessionFacts.
Context {P : Profile} {C : OrderCrypto} {K : SigningKey} {W : WireCodec}.

(** Messages, buffered events and sessions not yet accounted for. *)
Definition backlog (s : StromSessionManager) : nat :=
  size (sm_active_sessions s) + length (sm_msg_buf s) + length (sm_from_sessions s).

Lemma remove_session_spec s chs peer chs' s' :
  remove_session s chs peer = (chs', s') ->
  sm_active_sessions s' = delete peer (sm_active_sessions s) /\
  sm_from_sessions s' = sm_from_sessions s /\ sm_msg_buf s' = sm_msg_buf s.
Proof.
  unfold remove_session. destruct (sm_active_sessions s !! peer) eqn:E; intros [= <- <-]; cbn; [done|].
  by rewrite delete_id.
Qed.

Lemma sweep_fold (l : list (PeerId * StromSessionHandle)) chs s r :
  NoDup (map fst l) -> (forall ph, ph ∈ l -> is_Some (sm_active_sessions s !! ph.1)) ->
  fold_left (fun r ph =>
      let (chs, s) := remove_session r.2 r.1 ph.1 in
      (chs, set_msg_buf s (sm_msg_buf s ++ [EvDisconnected ph.1]))) l (chs, s) = r ->
  (size (sm_active_sessions r.2) + length l = size (sm_active_sessions s))%nat /\
  sm_msg_buf r.2 = sm_msg_buf s ++ map (fun ph => EvDisconnected ph.1) l /\
  sm_from_sessions r.2 = sm_from_sessions s /\
  (forall p, sm_active_sessions r.2 !! p = if decide (p ∈ map fst l) then None else sm_active_sessions s !! p).
Proof.
  revert chs s. induction l as [|ph l IH]; intros chs s Hnd Hin Hr.
  { cbn in Hr. subst r. cbn. rewrite app_nil_r. split; [lia | split; [done | split; [done | done]]]. }
  cbn [fold_left snd fst] in Hr. destruct (remove_session s chs ph.1) as [chs1 s1] eqn:E.
  apply remove_session_spec in E as (Ea & Ef & Eb).
  cbn in Hnd. apply NoDup_cons in Hnd as [Hni Hnd].
  apply IH in Hr as (H1 & H2 & H3 & H4); cbn in *.
  - rewrite Ea in H1. destruct (Hin ph ltac:(by left)) as [h Hh].
    rewrite map_size_delete_Some in H1 by done.
    assert (size (sm_active_sessions s) <> 0)%nat.
    { intros Z. apply map_size_empty_inv in Z. rewrite Z in Hh. by rewrite lookup_empty in Hh. }
    split; [lia|]. split; [rewrite H2, Eb, <- app_assoc; done|]. split; [congruence|].
    intros p. rewrite H4, Ea. destruct (decide (p = ph.1)) as [->|Hne].
    + rewrite (decide_True (P := _ ∈ ph.1 :: _)) by by left.
      by rewrite decide_False, lookup_delete_eq.
    + rewrite lookup_delete_ne by done. apply decide_ext. rewrite elem_of_cons. tauto.
  - done.
  - intros q Hq. rewrite Ea, lookup_delete_ne; [apply Hin; by right|].
    intros Heq. apply Hni. rewrite Heq. apply list_elem_of_fmap. by exists q.
Qed.

Lemma sweep_dead_spec s chs r : sweep_dead s chs = r ->
  exists dead,
    sm_msg_buf r.2 = sm_msg_buf s ++ map EvDisconnected dead /\
    sm_from_sessions r.2 = sm_from_sessions s /\
    (size (sm_active_sessions r.2) + length dead = size (sm_active_sessions s))%nat /\
    (forall p, sm_active_sessions r.2 !! p = if decide (p ∈ dead) then None else sm_active_sessions s !! p) /\
    (forall p, p ∈ dead <-> exists h, sm_active_sessions s !! p = Some h /\ handle_closed chs h = true).
Proof.
  intros Hr. unfold sweep_dead in Hr.
  set (dead := filter _ _) in Hr.
  assert (forall ph, ph ∈ dead <-> sm_active_sessions s !! ph.1 = Some ph.2 /\ handle_closed chs ph.2 = true) as Hd.
  { intros [p h]. unfold dead. rewrite list_elem_of_filter, elem_of_map_to_list. cbn. tauto. }
  apply sweep_fold in Hr as (H1 & H2 & H3 & H4).
  - exists (map fst dead). rewrite map_map, length_map. split; [done|]. split; [done|]. split; [done|].
    split; [done|]. intros p. rewrite list_elem_of_fmap. split.
    + intros (ph & -> & Hin). apply Hd in Hin as [? ?]. eauto.
    + intros (h & ? & ?). exists (p, h). split; [done|]. by apply Hd.
  - eapply sublist_NoDup; [apply (NoDup_fst_map_to_list (sm_active_sessions s)) | apply fmap_sublist, sublist_filter].
  - intros ph Hin. apply Hd in Hin as [-> _]. eauto.
Qed.

(** What a poll of the sessions can report, as for the messages. *)
Definition event_ok (auth : PeerId -> Prop) (said : PeerId -> Bytes -> Prop) (e : SessionEvent) : Prop :=
  match e with
  | EvValidMessage p m => message_ok auth said (ValidMessage p m)
  | EvBadMessage p => auth p
  | EvSessionEstablished _ _ | EvDisconnected _ => True
  | EvAlreadyConnected _ _ _ | EvProtocolBreach _ | EvOutgoingConnectionError _ _
  | EvSessionClosedOnConnectionError _ _ _ => False
  end.

Definition sessions_ok (auth : PeerId -> Prop) (said : PeerId -> Bytes -> Prop) (s : StromSessionManager) : Prop :=
  Forall (message_ok auth said) (sm_from_sessions s) /\ Forall (event_ok auth said) (sm_msg_buf s).

Lemma poll_session_msg_ok auth said s chs e chs' s' :
  poll_session_msg s chs = (e, chs', s') -> sessions_ok auth said s ->
  sessions_ok auth said s' /\ (forall x, e = Some (Some x) -> event_ok auth said x) /\
  (forall x, e = Some (Some x) ->
     (exists p o, x = EvSessionEstablished p o /\ backlog s' = backlog s) \/ (backlog s' < backlog s)%nat).
Proof.
  unfold poll_session_msg. intros H [Hf Hb].
  destruct (sweep_dead s chs) as [chs1 s1] eqn:E.
  apply sweep_dead_spec in E as (dead & Eb & Ef & Es & Ea & Ed). cbn in Eb, Ef, Es, Ea.
  assert (backlog s1 = backlog s) as Hl by (unfold backlog; rewrite Eb, Ef, length_app, length_map; lia).
  assert (sessions_ok auth said s1) as [Hf1 Hb1].
  { split; [by rewrite Ef|]. rewrite Eb. apply Forall_app. split; [done|].
    apply Forall_forall. intros x Hx. apply list_elem_of_fmap in Hx as (? & -> & _). done. }
  destruct (sm_msg_buf s1) as [|x rest] eqn:Eb1.
  2: { simplify_eq. split; [split; [done|]; cbn; by inversion Hb1 |].
       split; [intros y [= <-]; by inversion Hb1|]. intros y _. right. unfold backlog in *. cbn. rewrite Eb1 in Hl. cbn in Hl. lia. }
  destruct (sm_from_sessions s1) as [|m rest] eqn:Ef1; [simplify_eq; split; [split; [by rewrite Ef1|by rewrite Eb1]|split; intros ? [=]]|].
  inversion_clear Hf1 as [|? ? Hm Hrest].
  unfold on_session_message in H.
  assert (Forall (event_ok auth said) (sm_msg_buf s1)) as Hb2 by by rewrite Eb1.
  assert (backlog (set_from_sessions s1 rest) < backlog s)%nat as Hlt
    by (rewrite <- Hl; unfold backlog; cbn; rewrite Ef1; cbn; lia).
  destruct m as [h|p|p err|p m|p|p]; try (by exfalso); cbn [sm_active_sessions set_from_sessions] in H.
  - destruct (sm_active_sessions s1 !! sh_remote_id h) eqn:Eh; simplify_eq.
    + split; [split; done|]. split; intros ? [=].
    + split; [split; done|]. split; [by intros ? [= <-]|]. intros ? [= <-]. left. eexists _, _. split; [done|].
      rewrite <- Hl. unfold backlog. cbn. rewrite map_size_insert_None by done. rewrite Ef1. cbn. lia.
  - destruct (remove_session (set_from_sessions s1 rest) chs1 p) as [chs2 s2] eqn:Er.
    apply remove_session_spec in Er as (E1 & E2 & E3). simplify_eq.
    split; [split; [by rewrite E2 | by rewrite E3]|]. split; [by intros ? [= <-]|]. intros ? _. right.
    unfold backlog in *. rewrite E1, E2, E3. cbn in *.
    pose proof (map_subseteq_size _ _ (delete_subseteq (sm_active_sessions s1) p)). lia.
  - simplify_eq. split; [split; done|]. split; [by intros ? [= <-]|]. intros ? _. by right.
  - simplify_eq. split; [split; done|]. split; [by intros ? [= <-]|]. intros ? _. by right.
Qed.

(** The fuel of the swarm is enough, and it only reports what the sessions sent. *)
Lemma drain_sessions_ok auth said fuel w chs ended e chs' w' :
  drain_sessions fuel w chs = (ended, e, chs', w') -> (backlog (sw_sessions w) < fuel)%nat ->
  sessions_ok auth said (sw_sessions w) ->
  ended = true /\ sessions_ok auth said (sw_sessions w') /\
  (forall p m, e = Some (SwValidMessage p m) ->
     auth p /\ exists bytes id, said p bytes /\ decode_message bytes = Ok (mkStromProtocolMessage id m)).
Proof.
  revert w chs. induction fuel as [|n IH]; intros w chs H Hl Hok; [lia|]. cbn in H.
  destruct (poll_session_msg (sw_sessions w) chs) as [[r chs1] s1] eqn:E.
  apply (poll_session_msg_ok auth said) in E as (Hok1 & He & Hlt); [|done].
  destruct r as [[x|]|]; [|simplify_eq; split; [done|split; [done|intros ? ? [=]]]..].
  specialize (He x eq_refl). specialize (Hlt x eq_refl).
  destruct (on_session_event (sw_state w) x) as [r st] eqn:Eo.
  destruct r as [r|].
  - simplify_eq. split; [done|]. split; [done|]. intros p m [= ->].
    destruct x; cbn in Eo; simplify_eq. destruct He as [? (b & ? & D)]. split; [done|].
    exists b, (spm_message_id message). split; [done|]. rewrite D. by destruct message.
  - apply IH in H; [done | | done]. destruct Hlt as [(p & o & -> & _)|Hlt]; [discriminate Eo|]. cbn. lia.
Qed.

End SessionFacts.

(** ** The network as a whole *)

Section System.
Context {P : Profile} {C : OrderCrypto} {K : SigningKey} {W : WireCodec}.

Record Net := mkNet {
  net_sidecar : VerificationSidecar;
  net_pending : list StromConnectionHandler;
  net_sessions : gmap Z StromSessionStates;
  net_channels : gmap Z CommandChannel;
  net_manager : StromNetworkManager;
}.

Definition net_validators (n : Net) : gset Address := ns_validators (sw_state (nm_swarm (net_manager n))).

(** What happened so far: the sets of validators connections were checked against,
    what was received from a peer and when its session was polled. *)
Inductive NetHistory :=
| HSnapshot (validators : gset Address)
| HBytes (peer : PeerId) (bytes : Bytes)
| HPoll (peer : PeerId) (now : Z).

Definition set_conn (s : StromSessionStates) (c : ProtocolConnection) : StromSessionStates :=
  match s with
  | InStartup s => InStartup (mkStromStartup (su_sidecar s) (su_handle s) c (su_remote_peer_id s) (su_shutdown s))
  | InRegular s => InRegular (mkRegularProcessing c (rp_remote_peer_id s) (rp_manager_buffer s))
  | InShutdown s => InShutdown (mkShutdown c (sd_remote_peer_id s) (sd_to_session_manager s))
  | InDummy => InDummy
  end.

Definition push_from_sessions (m : StromNetworkManager) (l : list StromSessionMessage) : StromNetworkManager :=
  let w := nm_swarm m in
  let s := sw_sessions w in
  with_swarm m (mkSwarm (set_from_sessions s (sm_from_sessions s ++ l)) (sw_state w)).

(** A task that goes away takes its receiver with it, and its handle if it still has it. *)
Definition drop_session (s : StromSessionStates) (c : CommandChannel) : CommandChannel :=
  match s with
  | InStartup s => match su_handle s with Some _ => drop_sender (drop_receiver c) | None => drop_receiver c end
  | _ => drop_receiver c
  end.

Inductive net_step : list NetHistory * Net -> list NetHistory * Net -> Prop :=
| step_announce H n socket_addr :
    net_step (H, n)
      (HSnapshot (net_validators n) :: H,
       mkNet (net_sidecar n) (on_connection (net_sidecar n) (net_validators n) socket_addr :: net_pending n)
         (net_sessions n) (net_channels n) (net_manager n))
| step_accept H n l1 h l2 outgoing peer channel c s :
    net_pending n = l1 ++ h :: l2 -> net_channels n !! channel = None ->
    into_connection h outgoing peer (mkProtocolConnection [] true) channel = Some (c, s) ->
    net_step (H, n)
      (H, mkNet (net_sidecar n) (l1 ++ l2) (<[channel := s]> (net_sessions n)) (<[channel := c]> (net_channels n))
            (net_manager n))
| step_receive H n channel s peer bytes :
    net_sessions n !! channel = Some s -> session_peer s = Some peer -> pc_open (session_conn s) = true ->
    net_step (H, n)
      (HBytes peer bytes :: H,
       mkNet (net_sidecar n) (net_pending n)
         (<[channel := set_conn s (mkProtocolConnection (pc_queue (session_conn s) ++ [bytes]) true)]> (net_sessions n))
         (net_channels n) (net_manager n))
| step_close H n channel s :
    net_sessions n !! channel = Some s ->
    net_step (H, n)
      (H, mkNet (net_sidecar n) (net_pending n)
            (<[channel := set_conn s (mkProtocolConnection (pc_queue (session_conn s)) false)]> (net_sessions n))
            (net_channels n) (net_manager n))
| step_drop H n channel s :
    net_sessions n !! channel = Some s ->
    net_step (H, n)
      (H, mkNet (net_sidecar n) (net_pending n) (delete channel (net_sessions n))
            (alter (drop_session s) channel (net_channels n)) (net_manager n))
| step_session H n channel s c peer i out sent c' s' :
    net_sessions n !! channel = Some s -> net_channels n !! channel = Some c -> session_peer s = Some peer ->
    session_poll i c s = Ok (out, sent, c', s') ->
    net_step (H, n)
      (HPoll peer (si_now i) :: H,
       match out with
       | Some None =>
           mkNet (net_sidecar n) (net_pending n) (delete channel (net_sessions n))
             (<[channel := drop_receiver c']> (net_channels n)) (push_from_sessions (net_manager n) sent)
       | _ =>
           mkNet (net_sidecar n) (net_pending n) (<[channel := s']> (net_sessions n))
             (<[channel := c']> (net_channels n)) (push_from_sessions (net_manager n) sent)
       end)
| step_manager H n i ended chs m :
    network_turn (net_manager n) (net_channels n) i = Ok (ended, chs, m) ->
    net_step (H, n) (H, mkNet (net_sidecar n) (net_pending n) (net_sessions n) chs m).

(** The node starts without sessions. *)
Definition net_start (sidecar : VerificationSidecar) (validators : gset Address) (known : list CachedPeer) : Net :=
  mkNet sidecar [] ∅ ∅
    (StromNetworkManager_new (mkSwarm StromSessionManager_new (StromState_new validators)) (Some []) (Some []) known).

(** ** Who can be heard *)

Definition said (H : list NetHistory) (p : PeerId) (b : Bytes) : Prop := HBytes p b ∈ H.

(** A validator's address, at some moment a connection was announced. *)
Definition admitted (H : list NetHistory) (p : PeerId) : Prop :=
  exists validators, HSnapshot validators ∈ H /\ peer_address p ∈ validators.

(** It was admitted and sent a status that it signed and that had not expired when
    its session read it. *)
Definition authenticated (H : list NetHistory) (p : PeerId) : Prop :=
  admitted H p /\
  exists now bytes id status,
    HPoll p now ∈ H /\ said H p bytes /\
    decode_message bytes = Ok (mkStromProtocolMessage id (StatusMessage status)) /\ status_accepted now p status.

Definition heard (H : list NetHistory) (p : PeerId) (m : StromMessage) : Prop :=
  authenticated H p /\ exists bytes id, said H p bytes /\ decode_message bytes = Ok (mkStromProtocolMessage id m).

Definition consensus_ok (H : list NetHistory) (e : StromConsensusEvent) : Prop :=
  exists p, event_sender e = peer_address p /\ heard H p (event_message e).

Definition order_event_ok (H : list NetHistory) (e : NetworkOrderEvent) : Prop :=
  match e with
  | IncomingOrders p orders => heard H p (PropagatePooledOrders orders)
  | CancelOrderEvent p request => heard H p (OrderCancellation request)
  end.

Record manager_ok (H : list NetHistory) (m : StromNetworkManager) : Prop := {
  mo_sessions : sessions_ok (authenticated H) (said H) (sw_sessions (nm_swarm m));
  mo_consensus : Forall (consensus_ok H) (default [] (nm_to_consensus_manager m));
  mo_pool : Forall (order_event_ok H) (default [] (nm_to_pool_manager m));
}.

Record net_ok (H : list NetHistory) (n : Net) : Prop := {
  no_sessions : forall c s, net_sessions n !! c = Some s ->
    session_ok (authenticated H) (said H) s /\ (forall p, session_peer s = Some p -> admitted H p);
  no_pending : Forall (fun h => HSnapshot (ch_validator_set h) ∈ H) (net_pending n);
  no_manager : manager_ok H (net_manager n);
}.

Lemma admitted_mono H H' p : H ⊆ H' -> admitted H p -> admitted H' p.
Proof. intros Hs (v & ? & ?). exists v. split; [by apply Hs | done]. Qed.

Lemma authenticated_mono H H' p : H ⊆ H' -> authenticated H p -> authenticated H' p.
Proof.
  intros Hs (Ha & now & b & id & st & ? & ? & ? & ?). split; [by eapply admitted_mono|].
  exists now, b, id, st. split; [by apply Hs|]. split; [by apply Hs | done].
Qed.

Lemma message_ok_mono H H' m : H ⊆ H' ->
  message_ok (authenticated H) (said H) m -> message_ok (authenticated H') (said H') m.
Proof.
  intros Hs. destruct m; cbn; try done; [|by apply authenticated_mono].
  intros (? & b & ? & ?). split; [by eapply authenticated_mono|]. exists b. split; [by apply Hs | done].
Qed.

Lemma session_ok_mono H H' s : H ⊆ H' ->
  session_ok (authenticated H) (said H) s -> session_ok (authenticated H') (said H') s.
Proof.
  intros Hs [Hq Hr]. split; [intros p b ? ?; apply Hs; by apply Hq|].
  destruct s; try done. destruct Hr as [? Hf]. split; [by eapply authenticated_mono|].
  eapply Forall_impl; [exact Hf|]. intros; by eapply message_ok_mono.
Qed.

Lemma heard_mono H H' p m : H ⊆ H' -> heard H p m -> heard H' p m.
Proof.
  intros Hs (? & b & id & ? & ?). split; [by eapply authenticated_mono|].
  exists b, id. split; [by apply Hs | done].
Qed.

Lemma manager_ok_mono H H' m : H ⊆ H' -> manager_ok H m -> manager_ok H' m.
Proof.
  intros Hs [[H1 H2] H3 H4]. split.
  - split; [eapply Forall_impl; [exact H1|]; intros; by eapply message_ok_mono|].
    eapply Forall_impl; [exact H2|]. intros []; cbn; try done.
    + by apply (message_ok_mono _ _ (ValidMessage _ _)).
    + by apply authenticated_mono.
  - eapply Forall_impl; [exact H3|]. intros e (p & ? & ?). exists p. split; [done|]. by eapply heard_mono.
  - eapply Forall_impl; [exact H4|]. intros [] ?; by eapply heard_mono.
Qed.

Lemma handle_message_ok H m chs msg chs' m' :
  on_handle_message m chs msg = (chs', m') -> manager_ok H m -> manager_ok H m'.
Proof.
  intros E [[H1 H2] H3 H4]. destruct msg; cbn in E; try (simplify_eq; by split).
  unfold sessions_disconnect in E. destruct (sm_active_sessions _ !! peer); simplify_eq; by split.
Qed.

Lemma eth_event_ok H m e : manager_ok H m -> manager_ok H (net_on_eth_event m e).
Proof. intros [[H1 H2] H3 H4]. destruct e; by split. Qed.

Lemma notify_ok H m e n : manager_ok H m -> manager_ok H (notify_listeners (with_active_peers m n) e).
Proof. intros [[H1 H2] H3 H4]. by split. Qed.

Lemma Forall_sent {A} (Q : A -> Prop) o e :
  Forall Q (default [] o) -> Q e -> Forall Q (default [] (option_map (fun q => q ++ [e]) o)).
Proof. destruct o; cbn; [|done]. intros ? ?. apply Forall_app. split; [done|]. by apply Forall_singleton. Qed.

Lemma send_consensus_ok H m e : manager_ok H m -> consensus_ok H e -> manager_ok H (send_consensus m e).
Proof. intros [? ? ?] ?. split; [done| |done]. by apply Forall_sent. Qed.

Lemma send_pool_ok H m e : manager_ok H m -> order_event_ok H e -> manager_ok H (send_pool m e).
Proof. intros [? ? ?] ?. split; [done|done|]. by apply Forall_sent. Qed.

Lemma route_ok H m p msg : manager_ok H m -> heard H p msg -> manager_ok H (route m p msg).
Proof.
  intros Hm Hh. destruct msg; cbn; try done.
  1-4: by apply send_consensus_ok; [|exists p].
  all: by apply send_pool_ok.
Qed.

Lemma swarm_poll_ok H w chs ended e chs' w' :
  swarm_poll w chs = Ok (ended, e, chs', w') -> sessions_ok (authenticated H) (said H) (sw_sessions w) ->
  sessions_ok (authenticated H) (said H) (sw_sessions w') /\
  (forall p m, e = Some (SwValidMessage p m) -> heard H p m).
Proof.
  unfold swarm_poll. intros E Hok.
  destruct (drain_sessions _ w chs) as [[[ended1 e1] chs1] w1] eqn:Ed.
  apply (drain_sessions_ok (authenticated H) (said H)) in Ed as (_ & Hs & He);
    [|unfold swarm_fuel, backlog; lia|done].
  destruct e1; [by simplify_eq|]. m_inv. destruct x. m_inv. by split; [|intros ? ? [=]].
Qed.

Lemma network_turn_ok H m chs i ended chs' m' :
  network_turn m chs i = Ok (ended, chs', m') -> manager_ok H m -> manager_ok H m'.
Proof.
  unfold network_turn. intros E Hm.
  assert (forall chs0 m0, manager_ok H m0 ->
    (let m := match ti_eth i with Some e => net_on_eth_event m0 e | None => m0 end in
     let* (_, e, chs, w) := swarm_poll (nm_swarm m) chs0 in
     let m := with_swarm m w in
     Ok (false, chs, match e with Some e => on_swarm_event m e | None => m end)) = Ok (ended, chs', m') ->
    manager_ok H m') as Hrest.
  { clear. intros chs0 m0 Hm E. cbn zeta in E.
    assert (manager_ok H match ti_eth i with Some e => net_on_eth_event m0 e | None => m0 end) as Hm1
      by (destruct (ti_eth i); [by apply eth_event_ok | done]).
    revert Hm1 E. generalize (match ti_eth i with Some e => net_on_eth_event m0 e | None => m0 end). clear. intros m Hm E.
    m_inv. destruct x as [[[b e] chs1] w]. m_inv. destruct Hm as [Hs Hc Ho].
    apply (swarm_poll_ok H) in H0 as [Hs' He]; [|done].
    assert (manager_ok H (with_swarm m w)) by by split.
    destruct e as [[]|]; cbn; [by apply notify_ok | apply route_ok; [done | by apply He] | by apply notify_ok | done]. }
  destruct (ti_handle i) as [[msg|]|]; [|by m_inv|by apply (Hrest chs m)].
  destruct (on_handle_message m chs msg) as [chs1 m1] eqn:Eh.
  apply (Hrest chs1 m1); [by eapply handle_message_ok | done].
Qed.

Lemma set_conn_ok auth said' s c : session_peer (set_conn s c) = session_peer s /\
  (session_ok auth said' s -> (forall p b, session_peer s = Some p -> b ∈ pc_queue c -> said' p b) ->
   session_ok auth said' (set_conn s c)).
Proof.
  split; [by destruct s|]. intros [Hq Hr] Hc. split; [|by destruct s].
  intros p b. destruct s; cbn; intros [= <-] Hb; by apply Hc.
Qed.

Lemma into_connection_ok H h outgoing peer channel c s :
  into_connection h outgoing peer (mkProtocolConnection [] true) channel = Some (c, s) ->
  HSnapshot (ch_validator_set h) ∈ H ->
  session_ok (authenticated H) (said H) s /\ (forall p, session_peer s = Some p -> admitted H p).
Proof.
  unfold into_connection. case_decide; intros [= <- <-] Hh. split.
  - split; [|done]. intros p b _ Hb. cbn in Hb. by apply not_elem_of_nil in Hb.
  - intros p [= <-]. by eexists.
Qed.

Lemma push_sessions_ok H m l : manager_ok H m -> Forall (message_ok (authenticated H) (said H)) l ->
  manager_ok H (push_from_sessions m l).
Proof. intros [[? ?] ? ?] ?. split; [|done|done]. split; [|done]. cbn. by apply Forall_app. Qed.

Lemma net_ok_mono H H' n : H ⊆ H' -> net_ok H n -> net_ok H' n.
Proof.
  intros Hs [H1 H2 H3]. split.
  - intros c s Hc. destruct (H1 c s Hc) as [? Ha].
    split; [by eapply session_ok_mono | intros; eapply admitted_mono; [done | by apply Ha]].
  - eapply Forall_impl; [exact H2|]. intros; by apply Hs.
  - by eapply manager_ok_mono.
Qed.

(** Sessions of a map updated at one key. *)
Lemma sessions_insert (Q : StromSessionStates -> Prop) (m : gmap Z StromSessionStates) c s :
  (forall k x, m !! k = Some x -> Q x) -> Q s -> forall k x, <[c := s]> m !! k = Some x -> Q x.
Proof. intros Hm Hs k x. rewrite lookup_insert_Some. intros [[_ <-]|[_ ?]]; [done | by eapply Hm]. Qed.

Lemma sessions_delete (Q : StromSessionStates -> Prop) (m : gmap Z StromSessionStates) c :
  (forall k x, m !! k = Some x -> Q x) -> forall k x, delete c m !! k = Some x -> Q x.
Proof. intros Hm k x. rewrite lookup_delete_Some. intros [_ ?]. by eapply Hm. Qed.

Lemma session_step_ok H n channel s c peer i out sent c' s' :
  net_ok H n -> net_sessions n !! channel = Some s -> session_peer s = Some peer ->
  session_poll i c s = Ok (out, sent, c', s') ->
  let H' := HPoll peer (si_now i) :: H in
  Forall (message_ok (authenticated H') (said H')) sent /\
  (session_ok (authenticated H') (said H') s' /\ (forall p, session_peer s' = Some p -> admitted H' p)).
Proof.
  intros Hn Hc Hp E H'.
  destruct (no_sessions _ _ (net_ok_mono H H' n (fun x Hx => list_elem_of_further _ _ _ Hx) Hn) _ _ Hc) as [Hs Ha].
  destruct (session_poll_ok (authenticated H') (said H') _ _ _ _ _ _ _ E Hs) as (Hm & Hs' & Hp').
  { intros p bytes id status Hp2 Hb D Acc. simplify_eq. split; [by apply Ha|].
    exists (si_now i), bytes, id, status. split; [by left | done]. }
  split; [done|]. split; [done|]. intros p Hp3. destruct Hp' as [Hp'| ->]; [|done].
  apply Ha. congruence.
Qed.

Lemma net_step_ok st st' : net_step st st' -> net_ok st.1 st.2 -> net_ok st'.1 st'.2.
Proof.
  destruct 1; cbn [fst snd]; intros Hn.
  - pose proof (net_ok_mono H (HSnapshot (net_validators n) :: H) n ltac:(set_solver) Hn) as [H1 H2 H3].
    split; [done | | done]. constructor; [by left | done].
  - destruct Hn as [H1' H2' H3']. rewrite H0 in H2'. apply Forall_app in H2' as [? Hl]. inversion_clear Hl.
    split; cbn; [|by apply Forall_app|done].
    apply (sessions_insert (fun s => session_ok _ _ s /\ forall p, session_peer s = Some p -> admitted H p)); [done|].
    by eapply into_connection_ok.
  - pose proof (net_ok_mono H (HBytes peer bytes :: H) n ltac:(set_solver) Hn) as [H1' H2' H3'].
    split; cbn; [|done|done].
    apply (sessions_insert (fun s => session_ok _ _ s /\ forall p, session_peer s = Some p -> admitted _ p)); [done|].
    destruct (H1' _ _ H0) as [Hs Ha].
    destruct (set_conn_ok (authenticated (HBytes peer bytes :: H)) (said (HBytes peer bytes :: H)) s
                (mkProtocolConnection (pc_queue (session_conn s) ++ [bytes]) true)) as [Ep Eo].
    rewrite Ep. split; [|done]. apply Eo; [done|]. intros p b Hp Hb. cbn in Hb.
    apply elem_of_app in Hb as [Hb|Hb]; [by apply Hs|].
    apply list_elem_of_singleton in Hb. simplify_eq. by left.
  - destruct Hn as [H1' H2' H3']. split; cbn; [|done|done].
    apply (sessions_insert (fun s => session_ok _ _ s /\ forall p, session_peer s = Some p -> admitted _ p)); [done|].
    destruct (H1' _ _ H0) as [Hs Ha].
    destruct (set_conn_ok (authenticated H) (said H) s (mkProtocolConnection (pc_queue (session_conn s)) false))
      as [Ep Eo].
    rewrite Ep. split; [|done]. apply Eo; [done|]. intros p b Hp Hb. by apply Hs.
  - destruct Hn as [H1' H2' H3']. split; cbn; [|done|done].
    apply (sessions_delete (fun s => session_ok _ _ s /\ forall p, session_peer s = Some p -> admitted _ p)); done.
  - destruct (session_step_ok _ _ _ _ _ _ _ _ _ _ _ Hn H0 H2 H3) as [Hm Hs'].
    pose proof (net_ok_mono H (HPoll peer (si_now i) :: H) n ltac:(set_solver) Hn) as [H1' H2' H3'].
    destruct out as [[o|]|]; (split; cbn; [|done|by apply push_sessions_ok]).
    1, 3: apply (sessions_insert (fun s => session_ok _ _ s /\ forall p, session_peer s = Some p -> admitted _ p)); done.
    by apply (sessions_delete (fun s => session_ok _ _ s /\ forall p, session_peer s = Some p -> admitted _ p)).
  - destruct Hn as [H1' H2' H3']. split; [done|done|]. by eapply network_turn_ok.
Qed.

Lemma net_run_ok st st' : rtc net_step st st' -> net_ok st.1 st.2 -> net_ok st'.1 st'.2.
Proof. induction 1; eauto using net_step_ok. Qed.

Lemma net_start_ok sidecar validators known : net_ok [] (net_start sidecar validators known).
Proof. split; cbn; [by intros c s ?%lookup_empty_Some | done | by repeat split; constructor]. Qed.

(** ** Reputation *)

(** The state of the peers as the node starts with it. *)
Definition quiet (s : StromState) : Prop := ns_peers_manager s = PeersManager_new /\ ns_active_peers s = ∅.

Lemma change_weight_new p k : change_weight PeersManager_new p k = PeersManager_new.
Proof. unfold change_weight. cbn. by rewrite lookup_empty. Qed.

Lemma remove_peer_new p : remove_peer PeersManager_new p = PeersManager_new.
Proof. unfold remove_peer. cbn. by rewrite lookup_empty. Qed.

Lemma quiet_handle m chs msg :
  quiet (sw_state (nm_swarm m)) -> quiet (sw_state (nm_swarm (on_handle_message m chs msg).2)).
Proof.
  intros [Hp Ha]. destruct msg; cbn; try done.
  - split; [cbn; by rewrite Hp, remove_peer_new | done].
  - by destruct (sessions_disconnect _ _ _ _).
  - split; [cbn; by rewrite Hp, change_weight_new | done].
Qed.

Lemma quiet_eth m e : quiet (sw_state (nm_swarm m)) -> quiet (sw_state (nm_swarm (net_on_eth_event m e))).
Proof.
  intros [Hp Ha]. destruct e; try done. cbn. unfold net_remove_validator. cbn. by rewrite Ha, elements_empty.
Qed.

Lemma quiet_drain fuel w chs : quiet (sw_state w) -> quiet (sw_state (drain_sessions fuel w chs).2).
Proof.
  revert w chs. induction fuel as [|n IH]; intros w chs Hq; [done|]. cbn.
  destruct (poll_session_msg (sw_sessions w) chs) as [[e chs1] s1]. destruct e as [[e|]|]; try done.
  destruct (on_session_event (sw_state w) e) as [r st] eqn:E.
  assert (quiet st) as Hst.
  { destruct e; cbn in E; simplify_eq; try done. destruct Hq as [Hp Ha]. split; [cbn; by rewrite Hp, change_weight_new | done]. }
  destruct r; [done|]. by apply IH.
Qed.

Lemma drain_state_quiet n s : quiet s -> drain_state (S n) s = Ok (true, s).
Proof. intros [Hp Ha]. cbn. unfold state_poll. rewrite Hp. cbn. destruct s. cbn in *. by subst. Qed.

Lemma swarm_poll_quiet w chs : quiet (sw_state w) ->
  let r := drain_sessions (swarm_fuel (sw_sessions w)) w chs in
  exists b, swarm_poll w chs = Ok (b, r.1.1.2, r.1.2, r.2) /\ quiet (sw_state r.2).
Proof.
  intros Hq r. pose proof (quiet_drain (swarm_fuel (sw_sessions w)) w chs Hq) as Hq'. fold r in Hq'.
  unfold swarm_poll. fold r. destruct r as [[[b e] chs'] w']. cbn [fst snd] in *.
  destruct e; [by eexists|]. rewrite drain_state_quiet by done. cbn. eexists. split; [|done]. by destruct w'.
Qed.

Lemma quiet_swarm_event m e : quiet (sw_state (nm_swarm m)) -> quiet (sw_state (nm_swarm (on_swarm_event m e))).
Proof. intros Hq. destruct e as [|p msg|]; try done. by destruct msg. Qed.

Lemma network_turn_quiet m chs i : quiet (sw_state (nm_swarm m)) ->
  exists ended chs' m', network_turn m chs i = Ok (ended, chs', m') /\ quiet (sw_state (nm_swarm m')).
Proof.
  intros Hq. unfold network_turn.
  assert (forall chs0 m0, quiet (sw_state (nm_swarm m0)) ->
    exists ended chs' m',
    (let m := match ti_eth i with Some e => net_on_eth_event m0 e | None => m0 end in
     let* (_, e, chs, w) := swarm_poll (nm_swarm m) chs0 in
     let m := with_swarm m w in
     Ok (false, chs, match e with Some e => on_swarm_event m e | None => m end)) = Ok (ended, chs', m') /\
    quiet (sw_state (nm_swarm m'))) as Hrest.
  { clear. intros chs m Hq. cbn zeta.
    assert (quiet (sw_state (nm_swarm match ti_eth i with Some e => net_on_eth_event m e | None => m end))) as Hq1
      by (destruct (ti_eth i); [by apply quiet_eth | done]).
    revert Hq1. generalize (match ti_eth i with Some e => net_on_eth_event m e | None => m end). clear. intros m Hq.
    destruct (swarm_poll_quiet (nm_swarm m) chs Hq) as (b & -> & Hq').
    destruct (drain_sessions _ _ _) as [[[b' e] chs'] w']. cbn in *.
    eexists _, _, _. split; [done|]. destruct e; [by apply quiet_swarm_event | done]. }
  destruct (ti_handle i) as [[msg|]|]; [|by eexists _, _, _|by apply Hrest].
  pose proof (quiet_handle m chs msg Hq) as Hq1. destruct (on_handle_message m chs msg) as [chs1 m1].
  by apply Hrest.
Qed.

Lemma net_step_quiet st st' : net_step st st' ->
  quiet (sw_state (nm_swarm (net_manager st.2))) -> quiet (sw_state (nm_swarm (net_manager st'.2))).
Proof.
  destruct 1; cbn [fst snd]; intros Hq; try done; [by destruct out as [[]|]|].
  destruct (network_turn_quiet (net_manager n) (net_channels n) i Hq) as (? & ? & ? & E & Hq').
  rewrite E in H0. by injection H0 as <- <- <-.
Qed.

Lemma net_run_quiet st st' : rtc net_step st st' ->
  quiet (sw_state (nm_swarm (net_manager st.2))) -> quiet (sw_state (nm_swarm (net_manager st'.2))).
Proof. induction 1; eauto using net_step_quiet. Qed.

(** ** Duplicate connections *)

Definition all_alive (s : StromSessionManager) (chs : gmap Z CommandChannel) : Prop :=
  forall p h, sm_active_sessions s !! p = Some h -> handle_closed chs h = false.

Lemma sweep_alive s chs : all_alive s chs -> sweep_dead s chs = (chs, s).
Proof.
  intros Ha. unfold sweep_dead.
  destruct (filter _ _) as [|[p h] l] eqn:E; [done|]. exfalso.
  assert ((p, h) ∈ filter (fun ph => handle_closed chs ph.2 = true) (map_to_list (sm_active_sessions s))) as Hin
    by (rewrite E; by left).
  apply list_elem_of_filter in Hin as [Hc Hin]. apply elem_of_map_to_list in Hin. cbn in Hc.
  by rewrite (Ha p h Hin) in Hc.
Qed.

Lemma handle_closed_alter f chs k h : (forall c, cc_receiver (f c) = cc_receiver c) ->
  handle_closed (alter f k chs) h = handle_closed chs h.
Proof.
  intros Hf. unfold handle_closed. destruct (decide (sh_channel h = k)) as [->|].
  - rewrite lookup_alter_eq. destruct (chs !! k); cbn; [|done]. unfold is_closed. by rewrite Hf.
  - by rewrite lookup_alter_ne.
Qed.

Lemma try_send_receiver c cmd : cc_receiver (command_try_send c cmd) = cc_receiver c.
Proof. unfold command_try_send. by destruct (_ && _). Qed.

Definition idle_turn : TurnInput := mkTurnInput None None.

(** A turn that takes one message which is to be reported. *)
Lemma turn_takes m chs x rest e chs' s' :
  let w := nm_swarm m in
  quiet (sw_state w) -> all_alive (sw_sessions w) chs -> sm_msg_buf (sw_sessions w) = [] ->
  sm_from_sessions (sw_sessions w) = x :: rest ->
  on_session_message (set_from_sessions (sw_sessions w) rest) chs x = (e, chs', s') ->
  (forall e', e = Some e' -> exists r, on_session_event (sw_state w) e' = (Some r, sw_state w)) ->
  network_turn m chs idle_turn =
  Ok (false, chs',
      match e with
      | Some e' => match (on_session_event (sw_state w) e').1 with
                   | Some r => on_swarm_event (with_swarm m (mkSwarm s' (sw_state w))) r
                   | None => with_swarm m (mkSwarm s' (sw_state w))
                   end
      | None => with_swarm m (mkSwarm s' (sw_state w))
      end).
Proof.
  intros w Hq Ha Hb Hf Ho He. unfold network_turn. cbn [ti_handle ti_eth idle_turn]. fold w.
  destruct (swarm_poll_quiet w chs Hq) as (b & -> & _). unfold swarm_fuel. cbn [drain_sessions].
  unfold poll_session_msg. rewrite (sweep_alive _ _ Ha), Hb, Hf, Ho.
  destruct e as [e'|]; [|done]. destruct (He e' eq_refl) as [r ->]. done.
Qed.

End System.

(** C24: Whatever the node hands to the consensus or to the order pool came over a
    session of a peer whose address was that of a validator when the connection was
    announced, which had sent a status signed by its own key that had not expired when
    it was read, and which sent that very message; consensus events carry that peer's
    address. *)
Theorem delivered_messages_authenticated {P : Profile} {C : OrderCrypto} {K : SigningKey} {W : WireCodec}
    sidecar validators known H n :
  rtc net_step ([], net_start sidecar validators known) (H, n) ->
  Forall (consensus_ok H) (default [] (nm_to_consensus_manager (net_manager n))) /\
  Forall (order_event_ok H) (default [] (nm_to_pool_manager (net_manager n))).
Proof. intros Hr. by destruct (no_manager _ _ (net_run_ok _ _ Hr (net_start_ok _ _ _))). Qed.

(** Reputation has no effect: however the node ran, whatever was reported about
    its peers and whichever validators were removed, no peer was banned, none was asked
    to be disconnected, and the next turn of the manager does not panic. *)
Theorem no_peer_is_ever_banned {P : Profile} {C : OrderCrypto} {K : SigningKey} {W : WireCodec}
    sidecar validators known H n i :
  rtc net_step ([], net_start sidecar validators known) (H, n) ->
  let peers := ns_peers_manager (sw_state (nm_swarm (net_manager n))) in
  pm_ban_list peers = [] /\ pm_queued_actions peers = [] /\
  exists r, network_turn (net_manager n) (net_channels n) i = Ok r.
Proof.
  intros Hr peers. pose proof (net_run_quiet _ _ Hr ltac:(by split)) as Hq. cbn [snd] in Hq.
  destruct (network_turn_quiet _ (net_channels n) i Hq) as (? & ? & ? & -> & _).
  destruct Hq as [Hp _]. subst peers. rewrite Hp. eauto.
Qed.

(** When a peer that has a session connects again, the manager tells the new
    session to disconnect; the notice of that disconnection makes it drop the first
    session, and the notice of the first one's end is counted once more: the peer is
    left without a session and the count of active peers is two lower, below zero when
    it was the only one. *)
Theorem duplicate_connection_costs_session {P : Profile} {C : OrderCrypto} {K : SigningKey} {W : WireCodec}
    m chs p first second rest :
  let s := sw_sessions (nm_swarm m) in
  quiet (sw_state (nm_swarm m)) -> all_alive s chs -> sm_msg_buf s = [] ->
  sm_active_sessions s !! p = Some first -> sh_remote_id second = p ->
  sm_from_sessions s = Established second :: SessionDisconnected p :: SessionDisconnected p :: rest ->
  exists chs' m',
    network_turns m chs [idle_turn; idle_turn; idle_turn] = Ok (false, chs', m') /\
    sm_active_sessions (sw_sessions (nm_swarm m')) = delete p (sm_active_sessions s) /\
    nm_num_active_peers m' = wrap_u 64 (wrap_u 64 (nm_num_active_peers m - 1) - 1) /\
    chs' = drop_handle (drop_handle (handle_disconnect chs second None) second) first.
Proof.
  intros s. subst s. intros Hq Ha Hb Hp Hr Hf. cbn [network_turns].
  erewrite turn_takes;
    [|done|done|done|exact Hf|cbn; rewrite Hr, Hp; reflexivity|intros ? [=]].
  cbn [M_bind]. set (chs1 := drop_handle (handle_disconnect chs second None) second).
  assert (all_alive (sw_sessions (nm_swarm m)) chs1) as Ha1.
  { intros q h Hqh. unfold chs1, drop_handle, handle_disconnect, send_command.
    rewrite !handle_closed_alter by (intros; done || apply try_send_receiver). by apply (Ha q). }
  erewrite turn_takes;
    [|done|exact Ha1|done|reflexivity|cbn; unfold remove_session; cbn; rewrite Hp; reflexivity
     |intros ? [= <-]; by eexists].
  cbn [M_bind on_session_event fst].
  erewrite turn_takes;
    [|done| |done|reflexivity|cbn; unfold remove_session; cbn; rewrite lookup_delete_eq; reflexivity
     |intros ? [= <-]; by eexists].
  2: { intros q h Hqh. cbn in Hqh. apply lookup_delete_Some in Hqh as [_ Hqh].
       unfold drop_handle. rewrite handle_closed_alter by done. by apply (Ha1 q). }
  cbn. by eexists _, _.
Qed.

(** ** A run *)

#[local] Existing Instance toy_key.
#[local] Existing Instance toy_crypto.
#[local] Existing Instance session_wire.
#[local] Existing Instance dev.

Definition demo_net : Net := net_start (demo_sidecar false) {[peer_address 6]} [].
Definition demo_status : StromMessage := StatusMessage (status_build (K := toy_key) 1000 (mkStatusState 0 1 5 0) 6).
Definition demo_attestation : StromMessage := BundleUnlockAttestation 7 [1; 2].

(** Evaluates the premises of a step and the state it leads to. *)
Ltac net_go tac :=
  eapply rtc_l; [tac; try (vm_compute; reflexivity)|];
  match goal with
  | |- rtc net_step ?s ?t => let s' := eval vm_compute in s in change (rtc net_step s' t)
  end.

Lemma demo_net_run : exists H n,
  rtc net_step ([], demo_net) (H, n) /\
  nm_to_consensus_manager (net_manager n) = Some [EventBundleUnlockAttestation (peer_address 6) 7 [1; 2]] /\
  nm_num_active_peers (net_manager n) = 1.
Proof.
  eexists _, _. split.
  - net_go ltac:(apply (step_announce _ _ 1)).
    net_go ltac:(eapply (step_accept _ _ [] _ [] false 6 100)).
    net_go ltac:(eapply (step_receive _ _ 100 _ 6 (encode_with_id demo_status))).
    net_go ltac:(eapply (step_session _ _ 100 _ _ 6 (mkSessionInput 1000 128 [ReserveOk]))).
    net_go ltac:(eapply (step_session _ _ 100 _ _ 6 (mkSessionInput 1200 128 []))).
    net_go ltac:(eapply (step_receive _ _ 100 _ 6 (encode_with_id demo_attestation))).
    net_go ltac:(eapply (step_session _ _ 100 _ _ 6 (mkSessionInput 1300 128 [ReserveOk; ReserveOk]))).
    net_go ltac:(eapply (step_manager _ _ idle_turn)).
    net_go ltac:(eapply (step_manager _ _ idle_turn)).
    apply rtc_refl.
  - split; vm_compute; reflexivity.
Qed.

Lemma delivered_messages_authenticated_witness :
  exists H n, nm_to_consensus_manager (net_manager n) = Some [EventBundleUnlockAttestation (peer_address 6) 7 [1; 2]] /\
    Forall (consensus_ok H) (default [] (nm_to_consensus_manager (net_manager n))).
Proof.
  destruct demo_net_run as (H & n & Hr & Hc & _). exists H, n. split; [exact Hc|].
  apply (delivered_messages_authenticated (demo_sidecar false) {[peer_address 6]} [] H n Hr).
Defined.

Lemma no_peer_is_ever_banned_witness :
  exists n, nm_num_active_peers (net_manager n) = 1 /\
    pm_ban_list (ns_peers_manager (sw_state (nm_swarm (net_manager n)))) = [].
Proof.
  destruct demo_net_run as (H & n & Hr & _ & Hc). exists n. split; [exact Hc|].
  apply (no_peer_is_ever_banned (demo_sidecar false) {[peer_address 6]} [] H n
           (mkTurnInput (Some (Some (ReputationChange 6 KindBadBundle))) None) Hr).
Defined.

Definition first_handle : StromSessionHandle := mkStromSessionHandle false 6 100 1.
Definition second_handle : StromSessionHandle := mkStromSessionHandle true 6 101 1.
Definition reconnecting : StromNetworkManager :=
  mkStromNetworkManager
    (mkSwarm (mkStromSessionManager {[6 := first_handle]}
                [Established second_handle; SessionDisconnected 6; SessionDisconnected 6] [])
       (StromState_new ∅))
    None None [] 1 [].

Lemma duplicate_connection_costs_session_witness :
  exists chs m, network_turns reconnecting {[100 := channel_new; 101 := channel_new]} [idle_turn; idle_turn; idle_turn]
                = Ok (false, chs, m) /\ nm_num_active_peers m = 2 ^ 64 - 1.
Proof.
  destruct (duplicate_connection_costs_session reconnecting {[100 := channel_new; 101 := channel_new]} 6
              first_handle second_handle []) as (chs & m & E & _ & Hn & _); [by split| |reflexivity..|].
  - intros p h Hp. cbn in Hp. apply lookup_singleton_Some in Hp as [<- <-]. reflexivity.
  - exists chs, m. split; [exact E|]. rewrite Hn. reflexivity.
Defined.
