(* ===== verification/OrderPoolManager.v ===== *)
(** * Order pool manager

    crates/angstrom-net/src/pool_manager.rs and cache.rs: the task that owns the order
    indexer.  It takes orders and cancellations from RPC clients and from peers, passes
    them on to the other peers, follows the chain and signs off blocks.

    What the task sends to the network is recorded in [om_network].  A poll is a
    sequence of turns; what is ready in each is an input.  [LinkedHashSet] is the
    library set that remembers the order of insertion. *)

From S2P Require Import Prelude Uniswap Ray Orders Accounts OrderPool Donation BlockSync OrderTracker OrderIndexer ConsensusMessages Rounds PoolStore EthManager NetMessages Session Network PoolManager.

(** ** Caches (cache.rs) *)

(** The crate linked_hash_set: [lhs_elems] are the elements, oldest first. *)
Class LinkedHashSet := {
  lhs : Type;
  lhs_new : lhs;
  lhs_insert : lhs -> B256 -> bool * lhs;
  lhs_pop_front : lhs -> lhs;
  lhs_contains : lhs -> B256 -> bool;
  lhs_elems : lhs -> list B256;
}.

(** Inserting reports whether the element is new and always moves it to the end. *)
Class LinkedHashSetLaws (L : LinkedHashSet) := {
  lhs_new_elems : lhs_elems lhs_new = [];
  lhs_insert_elems s x :
    (lhs_insert s x).1 = negb (bool_decide (x ∈ lhs_elems s)) /\
    lhs_elems (lhs_insert s x).2 = filter (fun y => y <> x) (lhs_elems s) ++ [x];
  lhs_pop_front_elems s : lhs_elems (lhs_pop_front s) = tail (lhs_elems s);
  lhs_contains_elems s x : lhs_contains s x = bool_decide (x ∈ lhs_elems s);
}.

Section Cache.
Context {L : LinkedHashSet}.

Record LruCache := mkLruCache {
  lru_limit : nat;
  lru_inner : lhs;
}.

Definition LruCache_new (limit : nat) : LruCache := mkLruCache limit lhs_new.

Definition remove_lru (c : LruCache) : LruCache := mkLruCache (lru_limit c) (lhs_pop_front (lru_inner c)).

Definition lru_insert (c : LruCache) (entry : B256) : bool * LruCache :=
  let (inserted, inner) := lhs_insert (lru_inner c) entry in
  let c := mkLruCache (lru_limit c) inner in
  if (inserted : bool) then
    (true, if (lru_limit c =? length (lhs_elems inner))%nat then remove_lru c else c)
  else (false, c).

Definition lru_contains (c : LruCache) (value : B256) : bool := lhs_contains (lru_inner c) value.
Definition lru_iter (c : LruCache) : list B256 := lhs_elems (lru_inner c).
Definition lru_extend (c : LruCache) (items : list B256) : LruCache :=
  fold_left (fun c x => (lru_insert c x).2) items c.

End Cache.

(** ** The manager *)

Definition ORDER_POOL_MODULE : string := "Order Pool".
Definition PEER_ORDER_CACHE_LIMIT : nat := 1024 * 10.

(** A reply channel of a new order is the number of its subscriber. *)
Inductive OrderCommand :=
| CmdNewOrder (origin : OrderOrigin) (o : AllOrders) (tx : Z)
| CmdCancelOrder (request : CancelOrderRequest)
| CmdPendingOrders (from : Address)
| CmdOrdersByPool (pool : PoolId) (location : OrderLocation)
| CmdOrderStatus (hash : B256).

Inductive CommandAnswer :=
| AnsCancelled (b : bool)
| AnsOrders (l : list AllOrders)
| AnsStatus (s : option OrderStatus).

(** What a client of [new_order] sees; [None] is a channel that was closed. *)
Definition new_order_result (hash : B256) (res : option OrderValidationResults) :
    B256 + OrderValidationError :=
  match res with
  | None => inr (UnknownOrderError "a channel failed on the backend")
  | Some TransitionedToBlock | Some (Valid _) => inl hash
  | Some (Invalid _ error) => inr error
  end.

Section Manager.
Context {P : Profile} {E : OrderEnv} {K : SigningKey} {L : LinkedHashSet} (size_all size_tob : Z).

Record StromPeer := mkStromPeer {
  sp_orders : LruCache;
  sp_cancellations : LruCache;
}.

Record OrderPoolManager := mkOrderPoolManager {
  om_indexer : OrderIndexer;
  om_sync : GlobalBlockSync;
  om_network : list StromNetworkHandleMsg;
  om_peers : gmap PeerId StromPeer;
}.

(** The manager of [build_with_channels]; it registers with the synchronization. *)
Definition OrderPoolManager_new (storage : OrderStorage) (block : Z) (sync : GlobalBlockSync) : M OrderPoolManager :=
  let* sync := sync_register sync ORDER_POOL_MODULE in
  Ok (mkOrderPoolManager (OrderIndexer_new storage block) sync [] ∅).

Definition with_indexer (m : OrderPoolManager) (x : OrderIndexer) : OrderPoolManager :=
  mkOrderPoolManager x (om_sync m) (om_network m) (om_peers m).
Definition with_om_sync (m : OrderPoolManager) (s : GlobalBlockSync) : OrderPoolManager :=
  mkOrderPoolManager (om_indexer m) s (om_network m) (om_peers m).
Definition with_om_peers (m : OrderPoolManager) (p : gmap PeerId StromPeer) : OrderPoolManager :=
  mkOrderPoolManager (om_indexer m) (om_sync m) (om_network m) p.
Definition network_send (m : OrderPoolManager) (msg : StromNetworkHandleMsg) : OrderPoolManager :=
  mkOrderPoolManager (om_indexer m) (om_sync m) (om_network m ++ [msg]) (om_peers m).

(** ** Gossip *)

Definition send_cancel (cancel : CancelOrderRequest) (m : OrderPoolManager) (pi : PeerId * StromPeer) :
    OrderPoolManager :=
  let order_hash := cr_order_id cancel in
  if lru_contains (sp_cancellations pi.2) order_hash then m
  else
    let m := network_send m (SendStromMessage pi.1 (OrderCancellation cancel)) in
    with_om_peers m
      (<[pi.1 := mkStromPeer (sp_orders pi.2) (lru_insert (sp_cancellations pi.2) order_hash).2]> (om_peers m)).

Definition broadcast_cancel_to_peers (m : OrderPoolManager) (cancel : CancelOrderRequest) : OrderPoolManager :=
  fold_left (send_cancel cancel) (map_to_list (om_peers m)) m.

Definition send_order (o : AllOrders) (m : OrderPoolManager) (pi : PeerId * StromPeer) : OrderPoolManager :=
  let hash := order_hash o in
  if lru_contains (sp_orders pi.2) hash then m
  else
    let m := network_send m (SendStromMessage pi.1 (PropagatePooledOrders [o])) in
    with_om_peers m
      (<[pi.1 := mkStromPeer (lru_insert (sp_orders pi.2) hash).2 (sp_cancellations pi.2)]> (om_peers m)).

Definition broadcast_order (m : OrderPoolManager) (o : AllOrders) : OrderPoolManager :=
  fold_left (send_order o) (map_to_list (om_peers m)) m.

Definition broadcast_orders_to_peers (m : OrderPoolManager) (valid_orders : list AllOrders) : OrderPoolManager :=
  fold_left broadcast_order valid_orders m.

(** ** Commands *)

(** [now] is the clock the expiry of a cancellation is computed from.  The origin of a
    new order is replaced. *)
Definition on_order_command (m : OrderPoolManager) (now : Z) (cmd : OrderCommand) :
    M (option CommandAnswer * OrderPoolManager) :=
  let x := om_indexer m in
  match cmd with
  | CmdNewOrder _ o tx => Ok (None, with_indexer m (new_rpc_order x External o tx))
  | CmdCancelOrder req =>
      let* (res, x) := indexer_cancel_order x now req in
      let m := with_indexer m x in
      Ok (Some (AnsCancelled res), if (res : bool) then broadcast_cancel_to_peers m req else m)
  | CmdPendingOrders from => Ok (Some (AnsOrders (map order (pending_orders_for_address x from))), m)
  | CmdOrderStatus hash => let* res := order_status x hash in Ok (Some (AnsStatus res), m)
  | CmdOrdersByPool pool location => Ok (Some (AnsOrders (orders_by_pool x pool location)), m)
  end.

(** ** The chain *)

Definition on_chain_event (m : OrderPoolManager) (e : EthEvent) (waker : Z) : M OrderPoolManager :=
  let x := om_indexer m in
  match e with
  | NewBlockTransitions block filled changes =>
      let* x := start_new_block_processing x block filled changes in Ok (with_indexer m x)
  | ReorgedOrders orders first last =>
      let m := with_indexer m (indexer_reorg x orders) in
      let* (_, sync) := sign_off_reorg (om_sync m) ORDER_POOL_MODULE first last (Some waker) in
      Ok (with_om_sync m sync)
  | FinalizedBlock block => Ok (with_indexer m (indexer_finalized_block x block))
  | NewPool pool => let* x := indexer_new_pool x (id_of pool) in Ok (with_indexer m x)
  | RemovedPool pool => Ok (with_indexer m (indexer_remove_pool x (id_of pool)))
  | AddedNode _ | RemovedNode _ | NewBlock _ => Ok m
  end.

(** ** Peers *)

Definition on_incoming_order (peer : PeerId) (m : OrderPoolManager) (o : AllOrders) : OrderPoolManager :=
  let m := match om_peers m !! peer with
           | Some info =>
               with_om_peers m
                 (<[peer := mkStromPeer (lru_insert (sp_orders info) (order_hash o)).2 (sp_cancellations info)]>
                    (om_peers m))
           | None => m
           end in
  with_indexer m (new_network_order (om_indexer m) peer External o).

Definition on_network_order_event (m : OrderPoolManager) (now : Z) (e : NetworkOrderEvent) : M OrderPoolManager :=
  match e with
  | IncomingOrders peer orders => Ok (fold_left (on_incoming_order peer) orders m)
  | CancelOrderEvent _ request =>
      let* (res, x) := indexer_cancel_order (om_indexer m) now request in
      let m := with_indexer m x in
      Ok (if (res : bool) then broadcast_cancel_to_peers m request else m)
  end.

Definition StromPeer_new : StromPeer :=
  mkStromPeer (LruCache_new PEER_ORDER_CACHE_LIMIT) (LruCache_new PEER_ORDER_CACHE_LIMIT).

Definition on_peer_event (m : OrderPoolManager) (e : StromNetworkEvent) : M OrderPoolManager :=
  match e with
  | NetSessionEstablished peer =>
      let m := with_om_peers m (<[peer := StromPeer_new]> (om_peers m)) in
      let* all := indexer_all_orders (om_indexer m) in
      Ok (broadcast_orders_to_peers m (into_all_orders id TOB all))
  | NetSessionClosed peer _ | NetPeerRemoved peer => Ok (with_om_peers m (delete peer (om_peers m)))
  | NetPeerAdded _ => Ok m
  end.

(** ** Results of the indexer *)

(** The effects of collecting the valid orders, in the order of the events. *)
Definition on_pool_event (waker : Z) (r : list AllOrders * OrderPoolManager) (e : PoolInnerEvent) :
    M (list AllOrders * OrderPoolManager) :=
  let (valid, m) := r in
  match e with
  | Propagation o => Ok (valid ++ [o], m)
  | BadOrderMessages peers =>
      Ok (valid, fold_left (fun m peer => network_send m (ReputationChange peer KindInvalidOrder)) peers m)
  | HasTransitionedToNewBlock block =>
      let* (_, sync) := sign_off_on_block (om_sync m) ORDER_POOL_MODULE block (Some waker) in
      Ok (valid, with_om_sync m sync)
  | NoEvent => Ok (valid, m)
  end.

Definition on_pool_events (m : OrderPoolManager) (events : list PoolInnerEvent) (waker : Z) : M OrderPoolManager :=
  let* (valid, m) := M_fold (on_pool_event waker) ([], m) events in
  Ok (broadcast_orders_to_peers m valid).

(** ** The task *)

(** What is ready in one turn of the loop; each element of [pt_pool] is what the
    indexer is given in one poll. *)
Record PoolTurn := mkPoolTurn {
  pt_now : Z;
  pt_eth : list EthEvent;
  pt_net : list StromNetworkEvent;
  pt_pool : list (list Ready);
  pt_command : option OrderCommand;
  pt_order : option NetworkOrderEvent;
}.

Fixpoint poll_indexer (m : OrderPoolManager) (now waker : Z) (batches : list (list Ready)) : M OrderPoolManager :=
  match batches with
  | [] => Ok m
  | rs :: batches =>
      let* (events, x) := indexer_poll_next size_all size_tob (om_indexer m) now rs in
      let m := with_indexer m x in
      match events with
      | [] => Ok m
      | _ => let* m := on_pool_events m events waker in poll_indexer m now waker batches
      end
  end.

(** Commands and orders of peers wait until every module has signed off.  The answer
    of a command is part of the result. *)
Definition order_pool_turn (m : OrderPoolManager) (waker : Z) (i : PoolTurn) :
    M (option CommandAnswer * OrderPoolManager) :=
  let* m := M_fold (fun m e => on_chain_event m e waker) m (pt_eth i) in
  let* m := M_fold on_peer_event m (pt_net i) in
  let* m := poll_indexer m (pt_now i) waker (pt_pool i) in
  if can_operate (om_sync m) then
    let* (a, m) :=
      match pt_command i with Some cmd => on_order_command m (pt_now i) cmd | None => Ok (None, m) end in
    let* m := match pt_order i with Some e => on_network_order_event m (pt_now i) e | None => Ok m end in
    Ok (a, m)
  else Ok (None, m).

(** [work] starts at thirty and is decremented before it is tested. *)
Definition order_pool_poll (m : OrderPoolManager) (waker : Z) (inputs : list PoolTurn) :
    M (list (option CommandAnswer) * OrderPoolManager) :=
  M_fold (fun r i => let* (a, m) := order_pool_turn r.2 waker i in Ok (r.1 ++ [a], m)) ([], m) (take 29 inputs).

End Manager.

#[global] Arguments PEER_ORDER_CACHE_LIMIT : simpl never.
#[local] Arguments order_hash : simpl never.

(** ** What a cache remembers *)

(** The most recent first, each once. *)
Definition remember (x : B256) (r : list B256) : list B256 := x :: filter (fun y => y <> x) r.
Definition recents (xs : list B256) : list B256 := fold_left (fun r x => remember x r) xs [].

Lemma remember_NoDup x r : NoDup r -> NoDup (remember x r).
Proof.
  intros Hr. constructor; [|by apply NoDup_filter]. intros [? _]%list_elem_of_filter. done.
Qed.

Lemma recents_NoDup xs r : NoDup r -> NoDup (fold_left (fun r x => remember x r) xs r).
Proof. revert r. induction xs as [|y xs IH]; intros r Hr; [done|]. cbn. apply IH. by apply remember_NoDup. Qed.

Lemma remember_elem x y r : y ∈ remember x r <-> y = x \/ y ∈ r.
Proof.
  unfold remember. rewrite elem_of_cons, list_elem_of_filter. destruct (decide (y = x)); tauto.
Qed.

Lemma filter_ne_id (x : B256) (r : list B256) : x ∉ r -> filter (fun y => y <> x) r = r.
Proof.
  induction r as [|y r IH]; [done|]. intros [Hne Hx]%not_elem_of_cons.
  rewrite filter_cons, decide_True by congruence. by rewrite IH.
Qed.

Lemma filter_take_in (x : B256) n (r : list B256) : NoDup r -> x ∈ take (S n) r ->
  filter (fun y => y <> x) (take (S n) r) = take n (filter (fun y => y <> x) r).
Proof.
  revert n. induction r as [|y r IH]; intros n Hnd Hin; [by apply elem_of_nil in Hin|].
  apply NoDup_cons in Hnd as [Hy Hnd]. cbn [take] in *. rewrite !filter_cons.
  destruct (decide (y <> x)) as [Hne|Heq].
  - apply elem_of_cons in Hin as [->|Hin]; [done|].
    destruct n as [|n]; [by apply elem_of_nil in Hin|]. rewrite IH by done. done.
  - assert (y = x) as -> by (destruct (decide (y = x)); tauto).
    rewrite (filter_ne_id x r), filter_ne_id; [done | | done].
    intros Hx. apply Hy. by apply elem_of_take in Hx as (i & ?%list_elem_of_lookup_2 & _).
Qed.

Lemma filter_take_out (x : B256) n (r : list B256) : x ∉ take n r -> take n (filter (fun y => y <> x) r) = take n r.
Proof.
  revert n. induction r as [|y r IH]; intros [|n] Hx; try done. cbn in Hx. apply not_elem_of_cons in Hx as [Hne Hx].
  rewrite filter_cons, decide_True by congruence. cbn. by rewrite IH.
Qed.

Section CacheFacts.
Context {L : LinkedHashSet} {LL : LinkedHashSetLaws L}.

(** The cache holds the [n] most recent entries, its limit being one more. *)
Definition remembers (n : nat) (c : LruCache) (r : list B256) : Prop :=
  lru_limit c = S n /\ lru_iter c = reverse (take n r).

Lemma lru_insert_remembers n c r x : NoDup r -> remembers n c r ->
  remembers n (lru_insert c x).2 (remember x r) /\ (lru_insert c x).1 = negb (bool_decide (x ∈ take n r)).
Proof.
  intros Hnd [Hl Hi]. unfold lru_insert, lru_iter in *.
  destruct (lhs_insert_elems (lru_inner c) x) as [E1 E2].
  destruct (lhs_insert (lru_inner c) x) as [b s]. cbn in E1, E2. subst b. rewrite Hi in *. cbn [lru_limit].
  rewrite (bool_decide_ext (x ∈ reverse (take n r)) (x ∈ take n r)) by by rewrite elem_of_reverse.
  rewrite filter_reverse in E2.
  case_bool_decide as Hx; cbn [negb fst snd]; (split; [|done]); unfold remembers, lru_iter; cbn [lru_inner lru_limit].
  - split; [done|]. destruct n as [|n]; [by apply elem_of_nil in Hx|].
    rewrite E2, filter_take_in by done. unfold remember. cbn [take]. by rewrite reverse_cons.
  - rewrite filter_ne_id in E2 by done.
    assert (lhs_elems s = reverse (x :: take n r)) as Es by by rewrite E2, reverse_cons.
    assert (take n (remember x r) = take n (x :: take n r)) as ->.
    { destruct n as [|n]; [done|]. cbn. f_equal. rewrite filter_take_out, take_take; [f_equal; lia|].
      intros Hin. apply Hx. apply elem_of_take in Hin as (i & ? & ?). apply elem_of_take. exists i. split; [done|lia]. }
    rewrite Hl, Es, length_reverse. cbn [length].
    destruct (Nat.eqb_spec (S n) (S (length (take n r)))) as [He|He];
      cbn [remove_lru lru_inner lru_limit]; (split; [done|]).
    + rewrite lhs_pop_front_elems, Es.
      transitivity (drop 1 (reverse (x :: take n r))); [by destruct (reverse _)|].
      rewrite drop_reverse. f_equal. f_equal. cbn [length]. lia.
    + rewrite Es. f_equal. symmetry. apply take_ge. cbn [length]. rewrite length_take in *. lia.
Qed.

Lemma lru_contains_remembers n c r x : remembers n c r -> lru_contains c x = bool_decide (x ∈ take n r).
Proof.
  intros [_ Hi]. unfold lru_contains. rewrite lhs_contains_elems. apply bool_decide_ext.
  unfold lru_iter in Hi. by rewrite Hi, elem_of_reverse.
Qed.

Lemma lru_extend_remembers n xs c r : NoDup r -> remembers n c r ->
  remembers n (lru_extend c xs) (fold_left (fun r x => remember x r) xs r).
Proof.
  revert c r. induction xs as [|x xs IH]; intros c r Hnd Hr; [done|]. cbn [fold_left lru_extend].
  apply IH; [by apply remember_NoDup | by apply lru_insert_remembers].
Qed.

Lemma new_remembers limit : (0 < limit)%nat -> remembers (limit - 1) (LruCache_new limit) [].
Proof. intros Hl. split; [cbn; lia|]. unfold lru_iter. cbn. by rewrite lhs_new_elems, take_nil. Qed.

End CacheFacts.

(** ** Gossip *)

(** What happens to the caches of the peers: orders passed on, orders received and
    sessions opened and closed. *)
Inductive GossipEvent :=
| GBroadcast (o : AllOrders)
| GIncoming (peer : PeerId) (o : AllOrders)
| GOpen (peer : PeerId)
| GClose (peer : PeerId).

Section Gossip.
Context {P : Profile} {E : OrderEnv} {K : SigningKey} {L : LinkedHashSet} {LL : LinkedHashSetLaws L}.

Definition gossip (m : OrderPoolManager) (e : GossipEvent) : OrderPoolManager :=
  match e with
  | GBroadcast o => broadcast_order m o
  | GIncoming p o => on_incoming_order p m o
  | GOpen p => with_om_peers m (<[p := StromPeer_new]> (om_peers m))
  | GClose p => with_om_peers m (delete p (om_peers m))
  end.

Definition event_hash (e : GossipEvent) : option B256 :=
  match e with GBroadcast o | GIncoming _ o => Some (order_hash o) | _ => None end.

(** The session of the peer is neither opened again nor closed. *)
Definition keeps_session (p : PeerId) (e : GossipEvent) : Prop :=
  match e with GOpen q | GClose q => q <> p | _ => True end.

(** An order with this hash was sent to the peer. *)
Definition sent_to (p : PeerId) (h : B256) (msg : StromNetworkHandleMsg) : bool :=
  match msg with
  | SendStromMessage q (PropagatePooledOrders [o]) => (q =? p) && (order_hash o =? h)
  | _ => false
  end.

(** Of the events that tell the peer of an order, or that the peer tells of it, the
    first is a broadcast. *)
Fixpoint told (p : PeerId) (h : B256) (evs : list GossipEvent) : bool :=
  match evs with
  | [] => false
  | GBroadcast o :: evs => (order_hash o =? h) || told p h evs
  | GIncoming q o :: evs => negb ((q =? p) && (order_hash o =? h)) && told p h evs
  | _ :: evs => told p h evs
  end.

(** The operations of the manager are such events. *)
Lemma broadcast_gossip l m : broadcast_orders_to_peers m l = fold_left gossip (map GBroadcast l) m.
Proof. revert m. induction l as [|o l IH]; intros m; [done|]. apply (IH (broadcast_order m o)). Qed.

Lemma incoming_gossip p l m now :
  on_network_order_event m now (IncomingOrders p l) = Ok (fold_left gossip (map (GIncoming p) l) m).
Proof. cbn. f_equal. revert m. induction l as [|o l IH]; intros m; [done|]. apply (IH (on_incoming_order p m o)). Qed.

Lemma established_gossip p m m' : on_peer_event m (NetSessionEstablished p) = Ok m' ->
  exists l, m' = fold_left gossip (GOpen p :: map GBroadcast l) m.
Proof. cbn. intros H. m_inv. eexists. apply broadcast_gossip. Qed.

(** A broadcast as seen by one peer. *)
Lemma send_order_fold o l p m :
  NoDup (map fst l) -> (forall i, (p, i) ∈ l -> om_peers m !! p = Some i) ->
  let m' := fold_left (send_order o) l m in
  exists sent, om_network m' = om_network m ++ sent /\
    match list_find (fun pi => pi.1 = p) l with
    | Some (_, (_, i)) =>
        if lru_contains (sp_orders i) (order_hash o)
        then om_peers m' !! p = om_peers m !! p /\ (forall h, List.filter (sent_to p h) sent = [])
        else om_peers m' !! p = Some (mkStromPeer (lru_insert (sp_orders i) (order_hash o)).2 (sp_cancellations i)) /\
             (forall h, List.filter (sent_to p h) sent =
                if order_hash o =? h then [SendStromMessage p (PropagatePooledOrders [o])] else [])
    | None => om_peers m' !! p = om_peers m !! p /\ (forall h, List.filter (sent_to p h) sent = [])
    end.
Proof.
  revert m. induction l as [|[q i] l IH]; intros m Hnd Hin m'; [exists []; by rewrite app_nil_r|].
  cbn in Hnd. apply NoDup_cons in Hnd as [Hq Hnd]. cbn [fold_left] in m'.
  set (m1 := send_order o m (q, i)) in m'.
  assert (exists sent1, om_network m1 = om_network m ++ sent1 /\
    (q <> p -> om_peers m1 !! p = om_peers m !! p /\ forall h, List.filter (sent_to p h) sent1 = []) /\
    (q = p -> if lru_contains (sp_orders i) (order_hash o)
      then om_peers m1 !! p = om_peers m !! p /\ (forall h, List.filter (sent_to p h) sent1 = [])
      else om_peers m1 !! p = Some (mkStromPeer (lru_insert (sp_orders i) (order_hash o)).2 (sp_cancellations i)) /\
             (forall h, List.filter (sent_to p h) sent1 =
                if order_hash o =? h then [SendStromMessage p (PropagatePooledOrders [o])] else [])))
    as (sent1 & En & Hne & Heq).
  { unfold m1, send_order. cbn [fst snd]. destruct (lru_contains _ _).
    - exists []. rewrite app_nil_r. done.
    - eexists. split; [reflexivity|]. split.
      + intros Hqp. split; [by cbn; rewrite lookup_insert_ne|]. intros h. cbn.
        by rewrite (proj2 (Z.eqb_neq q p)).
      + intros ->. split; [by cbn; rewrite lookup_insert_eq|]. intros h. cbn. rewrite Z.eqb_refl. cbn. done. }
  destruct (IH m1) as (sent2 & En2 & H2); [done | |].
  { intros j Hj. destruct (decide (q = p)) as [->|Hqp].
    - exfalso. apply Hq. apply list_elem_of_fmap. by exists (p, j).
    - destruct (Hne Hqp) as [-> _]. apply Hin. by right. }
  fold m' in En2, H2. exists (sent1 ++ sent2). rewrite En2, En, app_assoc. split; [done|].
  cbn [list_find]. destruct (decide (q = p)) as [->|Hqp].
  - rewrite decide_True by done.
    assert (list_find (fun pi => pi.1 = p) l = None) as Hn.
    { apply list_find_None, Forall_forall. intros [q' j] Hj. cbn. intros ->. apply Hq, list_elem_of_fmap. by exists (p, j). }
    rewrite Hn in H2. destruct H2 as [H2 H3]. specialize (Heq eq_refl).
    destruct (lru_contains _ _); destruct Heq as [H4 H5]; (split; [congruence|]); intros h;
      by rewrite List.filter_app, H5, H3, app_nil_r.
  - rewrite decide_False by done. destruct (Hne Hqp) as [H4 H5].
    destruct (list_find (fun pi => pi.1 = p) l) as [[k [q' j]]|]; cbn; [destruct (lru_contains _ _)|];
      destruct H2 as [H2 H3]; (split; [congruence|]); intros h; by rewrite List.filter_app, H5, H3.
Qed.

Lemma broadcast_order_at m o p i :
  om_peers m !! p = Some i ->
  let m' := broadcast_order m o in
  exists sent, om_network m' = om_network m ++ sent /\
    if lru_contains (sp_orders i) (order_hash o)
    then om_peers m' !! p = Some i /\ (forall h, List.filter (sent_to p h) sent = [])
    else om_peers m' !! p = Some (mkStromPeer (lru_insert (sp_orders i) (order_hash o)).2 (sp_cancellations i)) /\
         (forall h, List.filter (sent_to p h) sent =
            if order_hash o =? h then [SendStromMessage p (PropagatePooledOrders [o])] else []).
Proof.
  intros Hp. unfold broadcast_order.
  destruct (send_order_fold o (map_to_list (om_peers m)) p m) as (sent & En & H).
  - apply (NoDup_fst_map_to_list (om_peers m)).
  - intros j Hj. by apply elem_of_map_to_list in Hj.
  - exists sent. split; [done|]. destruct (list_find _ _) as [[k [q j]]|] eqn:F.
    + apply list_find_Some in F as (Hk & Hq & _). cbn in Hq. subst q.
      apply list_elem_of_lookup_2, elem_of_map_to_list in Hk. rewrite Hp in Hk. injection Hk as <-. by rewrite Hp in H.
    + exfalso. apply list_find_None in F. rewrite Forall_forall in F.
      apply (F (p, i)); [by apply elem_of_map_to_list | done].
Qed.

(** One event as seen by a peer that keeps its session, the cache remembering [r]. *)
Lemma gossip_at n m e p i r :
  om_peers m !! p = Some i -> keeps_session p e -> NoDup r -> remembers n (sp_orders i) r ->
  exists sent i' r', om_network (gossip m e) = om_network m ++ sent /\
    om_peers (gossip m e) !! p = Some i' /\ NoDup r' /\ remembers n (sp_orders i') r' /\
    match e with
    | GBroadcast o =>
        (forall h, length (List.filter (sent_to p h) sent) =
           if (order_hash o =? h) && negb (bool_decide (h ∈ take n r)) then 1%nat else 0%nat) /\
        (forall h, h ∈ r' <-> h = order_hash o \/ h ∈ r)
    | GIncoming q o =>
        sent = [] /\ (forall h, h ∈ r' <-> (q = p /\ h = order_hash o) \/ h ∈ r)
    | _ => sent = [] /\ r' = r
    end.
Proof.
  intros Hp Hk Hnd Hr. destruct e as [o|q o|q|q]; cbn [gossip keeps_session] in *.
  - destruct (broadcast_order_at m o p i Hp) as (sent & En & H).
    rewrite (lru_contains_remembers n _ r) in H by done.
    case_bool_decide as Hin; destruct H as [H1 H2].
    + exists sent, i, r. split; [done|]. split; [done|]. split; [done|]. split; [done|]. split.
      * intros h. rewrite H2. destruct (Z.eqb_spec (order_hash o) h) as [<-|]; [|done].
        by rewrite bool_decide_true.
      * intros h. split; [by right|]. intros [->|]; [|done].
        by apply elem_of_take in Hin as (k & ?%list_elem_of_lookup_2 & _).
    + eexists sent, _, (remember (order_hash o) r). split; [done|]. split; [done|].
      split; [by apply remember_NoDup|]. split; [by apply lru_insert_remembers|]. split.
      * intros h. rewrite H2. destruct (Z.eqb_spec (order_hash o) h) as [<-|]; [|done].
        by rewrite bool_decide_false.
      * intros h. apply remember_elem.
  - exists []. rewrite app_nil_r. unfold on_incoming_order.
    destruct (decide (q = p)) as [->|Hqp].
    + rewrite Hp. eexists _, (remember (order_hash o) r). split; [done|].
      split; [cbn; by rewrite lookup_insert_eq|]. split; [by apply remember_NoDup|].
      split; [by apply lru_insert_remembers|]. split; [done|]. intros h. rewrite remember_elem. tauto.
    + exists i, r. split; [by destruct (om_peers m !! q)|].
      split; [destruct (om_peers m !! q); cbn; by rewrite ?lookup_insert_ne|].
      split; [done|]. split; [done|]. split; [done|]. intros h. tauto.
  - exists [], i, r. rewrite app_nil_r. split; [done|]. cbn. rewrite lookup_insert_ne by done. done.
  - exists [], i, r. rewrite app_nil_r. split; [done|]. cbn. rewrite lookup_delete_ne by done. done.
Qed.

(** A run as seen by the peer, while all hashes fit into the cache. *)
Lemma gossip_run n U evs m p i r h :
  NoDup U -> (length U <= n)%nat -> (forall e x, e ∈ evs -> event_hash e = Some x -> x ∈ U) ->
  Forall (keeps_session p) evs ->
  om_peers m !! p = Some i -> NoDup r -> r ⊆ U -> remembers n (sp_orders i) r ->
  exists sent, om_network (fold_left gossip evs m) = om_network m ++ sent /\
    length (List.filter (sent_to p h) sent) = if negb (bool_decide (h ∈ r)) && told p h evs then 1%nat else 0%nat.
Proof.
  intros HU Hn. revert m i r. induction evs as [|e evs IH]; intros m i r Hev Hk Hp Hnd HrU Hr.
  { exists []. rewrite app_nil_r. split; [done|]. cbn. by rewrite andb_false_r. }
  apply Forall_cons in Hk as [Hke Hk].
  assert (take n r = r) as Ht.
  { apply take_ge. transitivity (length U); [|done]. by apply submseteq_length, NoDup_submseteq. }
  destruct (gossip_at n m e p i r Hp Hke Hnd Hr) as (sent & i' & r' & En & Hp' & Hnd' & Hr' & He).
  assert (r' ⊆ U) as HrU'.
  { intros x Hx. destruct e as [o|q o|q|q]; cbn in He.
    - destruct He as [_ He]. apply He in Hx as [->|Hx]; [|by apply HrU].
      apply (Hev (GBroadcast o)); [by left | done].
    - destruct He as [_ He]. apply He in Hx as [[_ ->]|Hx]; [|by apply HrU].
      apply (Hev (GIncoming q o)); [by left | done].
    - destruct He as [_ ->]. by apply HrU.
    - destruct He as [_ ->]. by apply HrU. }
  destruct (IH (gossip m e) i' r') as (sent2 & En2 & Hc); [|done..|].
  { intros e' x He' Hx. apply (Hev e'); [by right | done]. }
  cbn [fold_left]. exists (sent ++ sent2). rewrite En2, En, app_assoc. split; [done|].
  rewrite List.filter_app, length_app, Hc. rewrite Ht in He. clear - He.
  destruct e as [o|q o|q|q]; cbn [told].
  - destruct He as [H1 H2]. rewrite H1. rewrite (bool_decide_ext _ _ (H2 h)).
    destruct (Z.eqb_spec (order_hash o) h) as [<-|Hne]; cbn.
    + rewrite (bool_decide_true (_ = _ \/ _)) by by left. by case_bool_decide.
    + rewrite (bool_decide_ext (h = order_hash o \/ h ∈ r) (h ∈ r)); [done|]. naive_solver.
  - destruct He as [-> H2]. cbn. rewrite (bool_decide_ext _ _ (H2 h)).
    destruct (Z.eqb_spec q p) as [->|Hne]; cbn; [destruct (Z.eqb_spec (order_hash o) h) as [<-|Hne]; cbn|].
    + rewrite (bool_decide_true (_ \/ _)) by by left. by rewrite andb_false_r.
    + rewrite (bool_decide_ext (p = p /\ h = order_hash o \/ h ∈ r) (h ∈ r)); [done|]. naive_solver.
    + rewrite (bool_decide_ext (q = p /\ h = order_hash o \/ h ∈ r) (h ∈ r)); [done|]. naive_solver.
  - by destruct He as [-> ->].
  - by destruct He as [-> ->].
Qed.

End Gossip.

(** ** Sign-offs out of order *)

(** The calls the tasks of a node make. *)
Inductive sync_step : GlobalBlockSync -> GlobalBlockSync -> Prop :=
| ss_new_block s b : sync_step s (sync_new_block s b)
| ss_reorg s first last : sync_step s (sync_reorg s first last)
| ss_sign_block s module b w woken s' : sign_off_on_block s module b w = Ok (woken, s') -> sync_step s s'
| ss_sign_reorg s module first last w woken s' :
    sign_off_reorg s module first last w = Ok (woken, s') -> sync_step s s'.

(** Two modules whose next sign-offs are of different kinds. *)
Definition fronts_differ (s : GlobalBlockSync) : Prop :=
  exists m1 m2 c1 c2 q1 q2,
    registered_modules s !! m1 = Some (c1 :: q1) /\ registered_modules s !! m2 = Some (c2 :: q2) /\
    sign_off_eq c1 c2 = false.

Lemma fronts_differ_push s module check : fronts_differ s -> fronts_differ (push_sign_off s module check).
Proof.
  intros (m1 & m2 & c1 & c2 & q1 & q2 & H1 & H2 & Hd). unfold push_sign_off, push_check.
  destruct (registered_modules s !! module) as [q|] eqn:Em; [|by exists m1, m2, c1, c2, q1, q2].
  assert (forall k c q', registered_modules s !! k = Some (c :: q') ->
    exists q'', <[module := q ++ [check]]> (registered_modules s) !! k = Some (c :: q'')) as Hpush.
  { intros k c q' Hk. destruct (decide (k = module)) as [->|].
    - rewrite Hk in Em. injection Em as <-. exists (q' ++ [check]). by rewrite lookup_insert_eq.
    - exists q'. by rewrite lookup_insert_ne. }
  destruct (Hpush _ _ _ H1) as [q1' ?], (Hpush _ _ _ H2) as [q2' ?].
  by exists m1, m2, c1, c2, q1', q2'.
Qed.

Lemma fronts_differ_decide s check : fronts_differ s -> decide_sign_off s check = false.
Proof.
  intros (m1 & m2 & c1 & c2 & q1 & q2 & H1 & H2 & Hd). unfold decide_sign_off.
  destruct (transition _ check) eqn:Et; [|done]. exfalso. apply transition_true in Et.
  pose proof (Et _ _ H1) as F1. pose proof (Et _ _ H2) as F2. cbn in F1, F2.
  destruct c1, c2, check; done.
Qed.

Lemma sign_off_blocked s module check :
  fronts_differ s -> decide_sign_off (push_sign_off s module check) check = false.
Proof. intros Hd. by apply fronts_differ_decide, fronts_differ_push. Qed.

(** Nothing that happens later completes the first proposal. *)
Lemma fronts_differ_stuck s s' :
  rtc sync_step s s' -> fronts_differ s -> pending_state s <> [] ->
  can_operate s' = false /\ current_block_number s' = current_block_number s.
Proof.
  intros Hr Hd Hp.
  assert (fronts_differ s' /\ pending_state s' <> [] /\ block_number s' = block_number s) as (_ & Hp' & Hb).
  { revert Hd Hp. induction Hr as [|s s1 s2 Hst _ IH]; intros Hd Hp; [done|].
    assert (fronts_differ s1 /\ pending_state s1 <> [] /\ block_number s1 = block_number s) as (Hd1 & Hp1 & <-).
    { destruct Hst as [s b|s f l|s md b w woken s' E|s md f l w woken s' E].
      - unfold sync_new_block. case_bool_decide; [done|]. split; [done|]. split; [|done]. cbn. by destruct (pending_state s).
      - split; [done|]. split; [|done]. cbn. by destruct (pending_state s).
      - unfold sign_off_on_block in E. destruct (negb _); [done|]. rewrite sign_off_blocked in E by done.
        injection E as _ <-. by split; [apply fronts_differ_push|].
      - unfold sign_off_reorg in E. destruct (negb _); [done|]. rewrite sign_off_blocked in E by done.
        injection E as _ <-. by split; [apply fronts_differ_push|]. }
    by apply IH. }
  split; [|done]. unfold can_operate, has_proposal. by rewrite bool_decide_false.
Qed.

(** ** Following a block *)

Section Block.
Context {P : Profile} {E : OrderEnv} (size_all size_tob : Z).

Definition waits (v : OrderValidator) : Prop := exists w, v = WaitingForStorageCleanup w.

Lemma eoa_waits x eoas : waits (ix_validator x) -> waits (ix_validator (eoa_state_change x eoas)).
Proof.
  intros Hv. unfold eoa_state_change, eoa_state_changes. destruct (take_addresses _ _) as [ids m].
  set (f := fun _ _ => _).
  assert (Hf : forall sv, waits sv.2 -> waits (fold_left f ids sv).2).
  { induction ids as [|id ids IH]; intros sv Hw; [done|]. cbn [fold_left]. apply IH.
    unfold f. destruct (remove_order_from_id sv.1 id) as [[o|] s]; [|done].
    cbn. destruct Hw as [w ->]. by eexists. }
  specialize (Hf (order_storage x, ix_validator x) Hv).
  by destruct (fold_left f ids _) as [s v].
Qed.

Lemma eoa_block x eoas : ix_block_number (eoa_state_change x eoas) = ix_block_number x.
Proof. unfold eoa_state_change. by destruct (eoa_state_changes _ _ _ _ _) as [[t s] v]. Qed.

Lemma notify_fold {A} (f : A -> PoolManagerUpdate) l x :
  let x' := fold_left (fun x o => notify_update x (f o)) l x in
  ix_validator x' = ix_validator x /\ ix_block_number x' = ix_block_number x.
Proof. revert x. induction l as [|o l IH]; intros x; [done|]. cbn. destruct (IH (notify_update x (f o))) as [-> ->]. done. Qed.

Lemma filled_keeps x block orders x' : indexer_filled_orders x block orders = Ok x' ->
  ix_validator x' = ix_validator x /\ ix_block_number x' = ix_block_number x.
Proof.
  unfold indexer_filled_orders. case_bool_decide; [by intros [= <-]|].
  destruct (tracker_filled_orders _ _ _) as [[filled t] s]. intros H0. m_inv.
  destruct (notify_fold (FilledOrder block) filled (with_storage (with_tracker x t) s)) as [E1 E2]. done.
Qed.

(** The clean-up leaves the indexer at the new block, waiting for the validator. *)
Lemma finish_informs x now block completed changes x' :
  waits (ix_validator x) -> finish_new_block_processing x now block completed changes = Ok x' ->
  (exists w f, ix_validator x' = InformState w f) /\ ix_block_number x' = block.
Proof.
  intros Hw Hf. unfold finish_new_block_processing in Hf.
  apply M_bind_Ok in Hf as (x1 & H1 & Hf). apply M_bind_Ok in Hf as ([[hs t] s] & _ & Hf). injection Hf as <-.
  apply filled_keeps in H1 as [Hv Hb]. cbn. rewrite Hv, Hb, eoa_block. split; [|done].
  destruct (eoa_waits (with_tracker (with_block x block) (clear_invalid (order_tracker (with_block x block)))) changes Hw)
    as [w Ew]. cbn in Ew |- *. rewrite Ew. cbn. eauto.
Qed.

(** With no validation under way, a new block takes two polls of the indexer. *)
Lemma block_polled x now block completed changes x' :
  ix_validator x = ClearingForNewBlock block [] completed changes [] ->
  finish_new_block_processing (with_validator x (WaitingForStorageCleanup [])) now block completed changes = Ok x' ->
  exists x'', indexer_poll_next size_all size_tob x now [NothingReady; InformReady] =
    Ok ([HasTransitionedToNewBlock block], x'').
Proof.
  intros Hv Hf. cbn [indexer_poll_next]. unfold indexer_poll. rewrite Hv.
  cbn [validator_poll poll_futures]. rewrite bool_decide_true by done. rewrite Hf. cbn [M_bind].
  apply finish_informs in Hf as [(w & f & Ei) Hb]; [|by eexists].
  rewrite Ei. cbn. rewrite Hb. by eexists.
Qed.

End Block.

(** ** Properties *)

(** A cache with limit [n] always holds exactly the [n - 1] entries inserted most
    recently, the oldest first, and reports an insertion as new exactly when the entry
    was not among them. *)
Theorem lru_keeps_recent {L : LinkedHashSet} {LL : LinkedHashSetLaws L} limit xs x :
  (0 < limit)%nat ->
  let c := lru_extend (LruCache_new limit) xs in
  let kept := take (limit - 1) (recents xs) in
  lru_iter c = reverse kept /\ lru_contains c x = bool_decide (x ∈ kept) /\
  (lru_insert c x).1 = negb (bool_decide (x ∈ kept)).
Proof.
  intros Hl c kept.
  pose proof (lru_extend_remembers (limit - 1) xs _ [] ltac:(constructor) (new_remembers limit Hl)) as Hr.
  pose proof (recents_NoDup xs [] ltac:(constructor)) as Hnd.
  split; [apply Hr|]. split; [by apply lru_contains_remembers | by apply lru_insert_remembers].
Qed.

(** C25: While a peer keeps its session and no more than 10239 different orders are
    seen, an order is sent to the peer once if the node passes it on before the peer
    sends it, and never if the peer sent it first. *)
Theorem order_gossiped_once {P : Profile} {E : OrderEnv} {K : SigningKey} {L : LinkedHashSet}
    {LL : LinkedHashSetLaws L} m evs p h :
  om_peers m !! p = Some StromPeer_new -> Forall (keeps_session p) evs ->
  (length (remove_dups (omap event_hash evs)) <= PEER_ORDER_CACHE_LIMIT - 1)%nat ->
  exists sent, om_network (fold_left gossip evs m) = om_network m ++ sent /\
    length (List.filter (sent_to p h) sent) = if told p h evs then 1%nat else 0%nat.
Proof.
  intros Hp Hk Hn.
  destruct (gossip_run (PEER_ORDER_CACHE_LIMIT - 1) (remove_dups (omap event_hash evs)) evs m p StromPeer_new [] h)
    as (sent & En & Hc); try done.
  - apply NoDup_remove_dups.
  - intros e x He Hx. apply elem_of_remove_dups, list_elem_of_omap. eauto.
  - constructor.
  - apply list_subseteq_nil.
  - apply new_remembers. unfold PEER_ORDER_CACHE_LIMIT. lia.
  - exists sent. split; [done|]. by rewrite Hc, bool_decide_false by apply not_elem_of_nil.
Qed.

(** C26: A block the order pool has no validations left for is signed off: when the
    indexer's block processing returns, the turn that receives the block and in which the
    validator answers ends with the sign-off accepted, the order pool having signed one
    proposal more. *)
Theorem order_pool_signs_block {P : Profile} {E : OrderEnv} {K : SigningKey} {L : LinkedHashSet}
    size_all size_tob start ps cnt m c block filled changes now waker x' :
  sync_reach start ps cnt (om_sync m) -> cnt !! ORDER_POOL_MODULE = Some c ->
  ps !! c = Some (PendingProgression block) -> ix_validator (om_indexer m) = OrderTracker.RegularProcessing [] ->
  finish_new_block_processing (with_validator (om_indexer m) (WaitingForStorageCleanup [])) now block filled changes
    = Ok x' ->
  exists m', order_pool_turn size_all size_tob m waker
      (mkPoolTurn now [NewBlockTransitions block filled changes] [] [[NothingReady; InformReady]] None None)
      = Ok (None, m') /\
    sync_reach start ps (<[ORDER_POOL_MODULE := S c]> cnt) (om_sync m').
Proof.
  intros Hs Hc Hps Hv Hf. unfold order_pool_turn.
  cbn [pt_eth pt_net pt_pool pt_now pt_command pt_order M_fold on_chain_event].
  unfold start_new_block_processing, on_new_block. rewrite Hv. cbn [is_transitioning M_bind poll_indexer].
  set (m1 := with_indexer m _).
  destruct (block_polled size_all size_tob (om_indexer m1) now block filled changes x' eq_refl Hf) as [x'' ->].
  cbn [M_bind]. unfold on_pool_events. cbn [M_fold on_pool_event].
  destruct (sync_reach_rel _ _ _ _ Hs) as [_ [k Hrel]].
  destruct (sign_off_rel _ _ _ _ _ _ _ _ (Some waker) Hrel Hc Hps) as (woken & s' & _ & Es & _).
  pose proof (reach_sign_off _ _ _ _ _ _ _ _ _ _ Hs Hc Hps Es) as Hs'.
  change (sign_off_on_block (om_sync m) ORDER_POOL_MODULE block (Some waker) = Ok (woken, s')) in Es.
  cbn [om_sync with_indexer m1]. rewrite Es. cbn. destruct (can_operate s'); by eexists.
Qed.

(** The order pool signs off a reorganization at once but a block only when its
    validations are done.  When both arrive together, and another module has signed
    the block, the node never operates again: whatever is proposed or signed off
    later, the block stays unfinished and commands and orders keep waiting. *)
Theorem reorg_overtakes_block {P : Profile} {E : OrderEnv} {K : SigningKey} {L : LinkedHashSet}
    m block filled changes orders first last waker other w q remaining :
  PendingReorg first last ∈ pending_state (om_sync m) ->
  registered_modules (om_sync m) !! ORDER_POOL_MODULE = Some [] -> other <> ORDER_POOL_MODULE ->
  registered_modules (om_sync m) !! other = Some (ReadyForNextBlock w :: q) ->
  ix_validator (om_indexer m) = OrderTracker.RegularProcessing remaining ->
  exists m', M_fold (fun m e => on_chain_event m e waker) m
      [NewBlockTransitions block filled changes; ReorgedOrders orders first last] = Ok m' /\
    forall s', rtc sync_step (om_sync m') s' ->
      can_operate s' = false /\ current_block_number s' = current_block_number (om_sync m).
Proof.
  intros Hin Hop Hne Hother Hv. cbn [M_fold on_chain_event].
  unfold start_new_block_processing, on_new_block. rewrite Hv. cbn [is_transitioning M_bind].
  cbn [om_indexer with_indexer om_sync].
  unfold sign_off_reorg, sign_off_guard, proper_proposal.
  rewrite (bool_decide_true (_ ∈ _)) by done.
  rewrite bool_decide_false by (intros Hn; rewrite Hn in Hin; by apply elem_of_nil in Hin). cbn [negb andb].
  set (s1 := push_sign_off _ _ _).
  assert (fronts_differ s1) as Hd.
  { exists ORDER_POOL_MODULE, other, (HandledReorg (Some waker)), (ReadyForNextBlock w), [], q.
    unfold s1, push_sign_off, push_check. rewrite Hop. cbn.
    rewrite lookup_insert_eq, lookup_insert_ne by done. done. }
  rewrite fronts_differ_decide by done. cbn [M_bind]. eexists. split; [done|]. cbn [om_sync with_om_sync].
  intros s' Hr. eapply fronts_differ_stuck in Hr; [exact Hr | done |].
  cbn. intros Hn. rewrite Hn in Hin. by apply elem_of_nil in Hin.
Qed.

(** ** Witnesses *)

Definition list_set : LinkedHashSet := {|
  lhs := list B256;
  lhs_new := [];
  lhs_insert s x := (negb (bool_decide (x ∈ s)), filter (fun y => y <> x) s ++ [x]);
  lhs_pop_front s := tail s;
  lhs_contains s x := bool_decide (x ∈ s);
  lhs_elems s := s;
|}.

Lemma list_set_laws : LinkedHashSetLaws list_set.
Proof. by split. Qed.

Lemma lru_keeps_recent_witness :
  @lru_iter list_set (@lru_extend list_set (@LruCache_new list_set 3) [1; 2; 1; 4]) = [1; 4].
Proof.
  apply (@lru_keeps_recent list_set list_set_laws 3 [1; 2; 1; 4] 1). lia.
Defined.

#[local] Existing Instance toy_key.
#[local] Existing Instance toy_env.
#[local] Existing Instance list_set.
#[local] Existing Instance dev.

Definition pool_sync : GlobalBlockSync :=
  mkGlobalBlockSync [PendingProgression 8] 7 {[ORDER_POOL_MODULE := []]} true.
Definition demo_pool (sync : GlobalBlockSync) : OrderPoolManager :=
  mkOrderPoolManager (OrderIndexer_new one_order 7) sync [] {[5 := StromPeer_new]}.

Definition order_a : AllOrders := bid_for 100 2 false.
Definition order_b : AllOrders := bid_for 101 2 false.
Definition demo_events : list GossipEvent :=
  [GIncoming 5 order_a; GBroadcast order_a; GBroadcast order_b; GOpen 6; GBroadcast order_b].

Lemma order_gossiped_once_witness :
  exists sent, om_network (fold_left gossip demo_events (demo_pool pool_sync)) = sent /\
    length (List.filter (sent_to 5 (order_hash order_b)) sent) = 1%nat.
Proof.
  destruct (order_gossiped_once (LL := list_set_laws) (demo_pool pool_sync) demo_events 5 (order_hash order_b))
    as (sent & En & Hc).
  - reflexivity.
  - repeat constructor; cbn; lia.
  - vm_compute. lia.
  - exists sent. split; [exact En|]. rewrite Hc. vm_compute. reflexivity.
Defined.

Lemma pool_sync_reach : sync_reach 7 [PendingProgression 8] {[ORDER_POOL_MODULE := 0%nat]} pool_sync.
Proof.
  pose proof (reach_init 7 [ORDER_POOL_MODULE] (mkGlobalBlockSync [] 7 {[ORDER_POOL_MODULE := []]} false)
                ltac:(done) eq_refl) as H0.
  exact (reach_new_block _ _ _ _ 8 H0).
Qed.

Lemma order_pool_signs_block_witness :
  exists m', order_pool_turn 300 200 (demo_pool pool_sync) 3
      (mkPoolTurn 0 [NewBlockTransitions 8 [] []] [] [[NothingReady; InformReady]] None None) = Ok (None, m') /\
    sync_reach 7 [PendingProgression 8] (<[ORDER_POOL_MODULE := 1%nat]> {[ORDER_POOL_MODULE := 0%nat]}) (om_sync m').
Proof.
  eapply (order_pool_signs_block 300 200 7 [PendingProgression 8] {[ORDER_POOL_MODULE := 0%nat]}
           (demo_pool pool_sync) 0 8 [] [] 0 3); [exact pool_sync_reach | reflexivity | reflexivity | reflexivity |].
  vm_compute. reflexivity.
Defined.

Definition racing_sync : GlobalBlockSync :=
  mkGlobalBlockSync [PendingProgression 8; PendingReorg 8 8] 7
    {[ORDER_POOL_MODULE := []; "Consensus"%string := [ReadyForNextBlock None]]} true.

Lemma reorg_overtakes_block_witness :
  exists m', M_fold (fun m e => on_chain_event m e 3) (demo_pool racing_sync)
      [NewBlockTransitions 8 [] []; ReorgedOrders [] 8 8] = Ok m' /\
    forall s', rtc sync_step (om_sync m') s' -> can_operate s' = false /\ current_block_number s' = 7.
Proof.
  apply (reorg_overtakes_block (demo_pool racing_sync) 8 [] [] [] 8 8 3 "Consensus" None [] []);
    [right; left | reflexivity | discriminate | reflexivity | reflexivity].
Defined.
