(* ===== verification/Debt.v ===== *)
(** * Debts

    crates/types/src/matching/debt.rs: the debt an order leaves behind that is
    exact in T1.  A debt owes or is owed a fixed amount of T1; how much T0 that
    is depends on the price, with the rounding of its side of the book, so a
    whole interval of prices moves the same amount of T0. *)

From S2P Require Import Prelude Uniswap Ray MatchMath.

Inductive DebtType := ExactIn (q : Z) | ExactOut (q : Z).

#[export] Instance DebtType_eq_dec : EqDecision DebtType.
Proof. solve_decision. Defined.

Definition DebtType_new (q : Z) (is_bid : bool) : DebtType :=
  if is_bid then ExactIn q else ExactOut q.

(** Whether price calculations for this debt type round up. *)
Definition dt_round_up (d : DebtType) : bool :=
  match d with ExactIn _ => false | ExactOut _ => true end.

Definition same_type (d : DebtType) (q : Z) : DebtType :=
  match d with ExactIn _ => ExactIn q | ExactOut _ => ExactOut q end.

Definition dt_magnitude (d : DebtType) : Z :=
  match d with ExactIn q | ExactOut q => q end.

Definition dt_is_empty (d : DebtType) : bool := dt_magnitude d =? 0.

Definition t0_at_price (d : DebtType) (price : Z) : M Z :=
  let round_up := match d with ExactIn _ => false | ExactOut _ => true end in
  Ray.inverse_quantity price (dt_magnitude d) round_up.

Definition slack_at_price (d : DebtType) (price : Z) : M Z :=
  let ask_side := match d with ExactIn _ => 0 | ExactOut _ => 1 end in
  let* r := Ray.inverse_remainder price (dt_magnitude d) in
  Ok (saturating_sub r ask_side).

Definition same_side (d other : DebtType) : bool :=
  match d, other with
  | ExactIn _, ExactIn _ | ExactOut _, ExactOut _ => true
  | _, _ => false
  end.

Record Debt := mkDebt {
  cur_price : Z;
  d_magnitude : DebtType;
}.

Section Debts.
Context {P : Profile} {U : UniswapMath}.

(** [Add for DebtType]: like types accumulate, different types annihilate or
    flip. *)
Definition dt_add (a b : DebtType) : M DebtType :=
  match a, b with
  | ExactIn q1, ExactIn q2 => let* q := u128_add q1 q2 in Ok (ExactIn q)
  | ExactOut q1, ExactOut q2 => let* q := u128_add q1 q2 in Ok (ExactOut q)
  | ExactIn q1, ExactOut q2 =>
      if q1 <? q2 then let* q := u128_sub q2 q1 in Ok (ExactOut q)
      else let* q := u128_sub q1 q2 in Ok (ExactIn q)
  | ExactOut q1, ExactIn q2 =>
      if q1 <? q2 then let* q := u128_sub q2 q1 in Ok (ExactIn q)
      else let* q := u128_sub q1 q2 in Ok (ExactOut q)
  end.

Definition dt_sub (d : DebtType) (rhs : Z) : DebtType :=
  match d with
  | ExactIn q => ExactIn (saturating_sub q rhs)
  | ExactOut q => ExactOut (saturating_sub q rhs)
  end.

Definition Debt_new (magnitude : DebtType) (price : Z) : Debt := mkDebt price magnitude.

Definition from_quantities (t0_q t1_q : Z) (exact_in : bool) : M Debt :=
  let magnitude := if exact_in then ExactIn t1_q else ExactOut t1_q in
  let* price := Ray.calc_price_generic t0_q t1_q (dt_round_up magnitude) in
  Ok (Debt_new magnitude price).

Definition set_price (d : Debt) (new_price : Z) : Debt := mkDebt new_price (d_magnitude d).

Definition debt_magnitude (d : Debt) : Z := dt_magnitude (d_magnitude d).

(** The amount of T0 the debt is obligated to fill. *)
Definition current_t0 (d : Debt) : M Z := t0_at_price (d_magnitude d) (cur_price d).

Definition additional_t0_needed (d : Debt) (added_t1 : Z) : M Z :=
  let* new_magnitude := dt_add (d_magnitude d) (same_type (d_magnitude d) added_t1) in
  let new_debt := mkDebt (cur_price d) new_magnitude in
  let* n := current_t0 new_debt in
  let* c := current_t0 d in
  u128_sub n c.

Definition bid_side (d : Debt) : bool :=
  match d_magnitude d with ExactIn _ => true | ExactOut _ => false end.

Definition slack (d : Debt) : M Z := slack_at_price (d_magnitude d) (cur_price d).

(** The prices between which the debt moves the same amount of T0. *)
Definition price_range (d : Debt) : M (Z * Z) :=
  let m := debt_magnitude d in
  let up := dt_round_up (d_magnitude d) in
  let* current_amount := current_t0 d in
  let* bound_amount :=
    match d_magnitude d with
    | ExactIn _ => u128_add current_amount 1
    | ExactOut _ => Ok (saturating_sub current_amount 1)
    end in
  let* prices :=
    match current_amount =? 0, bound_amount =? 0 return M (Z * Z) with
    | true, true =>
        let* lo := Ray.min_uniswap_price in let* hi := Ray.max_uniswap_price in Ok (lo, hi)
    | true, false =>
        let* hi := Ray.max_uniswap_price in
        let* p := Ray.calc_price_generic bound_amount m up in Ok (hi, p)
    | false, true =>
        let* hi := Ray.max_uniswap_price in
        let* p := Ray.calc_price_generic current_amount m up in Ok (hi, p)
    | false, false =>
        let* c := Ray.calc_price_generic current_amount m up in
        let* b := Ray.calc_price_generic bound_amount m up in Ok (c, b)
    end in
  Ok (low_to_high prices.1 prices.2).

Definition valid_for_price (d : Debt) (price : Z) : M bool :=
  let* (low, high) := price_range d in
  Ok (match d_magnitude d with
      | ExactIn _ => (low <? price) && (price <=? high)
      | ExactOut _ => (low <=? price) && (price <? high)
      end).

(** The debt is changed in place. *)
Definition validate_and_set_price (d : Debt) (price : Z) : M (bool * Debt) :=
  let* res := valid_for_price d price in
  Ok (res, if (res : bool) then mkDebt price (d_magnitude d) else d).

Definition freed_t0 (d : Debt) (t1_change : Z) : M Z :=
  let* i_t0 := current_t0 d in
  if debt_magnitude d <=? t1_change then Ok i_t0 else
  let* f_t0 := t0_at_price
    (same_type (d_magnitude d) (saturating_sub (dt_magnitude (d_magnitude d)) t1_change))
    (cur_price d) in
  Ok (saturating_sub i_t0 f_t0).

Definition freed_t1 (d : Debt) (t0_change : Z) : M Z :=
  let* c := current_t0 d in
  let target_t0 := saturating_sub c t0_change in
  if target_t0 =? 0 then Ok (debt_magnitude d) else
  let* target_t1 :=
    if bid_side d then Ray.quantity (cur_price d) target_t0 true
    else
      let* q := Ray.quantity (cur_price d) (saturating_sub target_t0 1) false in
      Ok (saturating_add 128 q 1) in
  Ok (saturating_sub (debt_magnitude d) target_t1).

(** Filling the debt with an amount of T0 moves its price. *)
Definition debt_partial_fill (d : Debt) (q : Z) : M Debt :=
  let* c := current_t0 d in
  let* new_t0 :=
    match d_magnitude d with
    | ExactIn _ => u128_add c q
    | ExactOut _ => Ok (saturating_sub c q)
    end in
  let* new_price :=
    Ray.calc_price_generic new_t0 (debt_magnitude d) (dt_round_up (d_magnitude d)) in
  Ok (mkDebt new_price (d_magnitude d)).

Definition debt_partial_fill_t1 (d : Debt) (q : Z) : M Debt :=
  let* c := current_t0 d in
  let new_t1 := dt_sub (d_magnitude d) q in
  let* new_price :=
    Ray.calc_price_generic c (dt_magnitude new_t1) (dt_round_up (d_magnitude d)) in
  Ok (mkDebt new_price new_t1).

Definition flat_fill_t1 (d : Debt) (q : Z) : Debt :=
  mkDebt (cur_price d) (dt_sub (d_magnitude d) q).

(** Difference in T0 between the current and a target price. *)
Definition dq_to_price (d : Debt) (target_price : Z) : M Z :=
  let* final_t0 := t0_at_price (d_magnitude d) target_price in
  let* c := current_t0 d in
  if c <? final_t0 then u128_sub final_t0 c else u128_sub c final_t0.

(** Subtraction of malachite's naturals panics below zero. *)
Definition nat_sub (x y : Z) : M Z := if y <=? x then Ok (x - y) else Panic.

Definition calc_proportion (d : Debt) (amm_delta amm_liquidity : Z) (amm_positive_delta : bool) :
    M Z :=
  let t1 := debt_magnitude d in
  let* t0_start := current_t0 d in
  let* sqrt_t1_x96 := floor_sqrt (Z.shiftl t1 192) in
  let* sqrt_t0_start_x96 := floor_sqrt (Z.shiftl t0_start 192) in
  let a_num_portion_1 := amm_delta * sqrt_t1_x96 in
  let a_num_portion_2 := amm_liquidity * sqrt_t0_start_x96 in
  let* a_numerator_sum :=
    if amm_positive_delta then Ok (a_num_portion_1 + a_num_portion_2)
    else nat_sub a_num_portion_2 a_num_portion_1 in
  let* a_fraction := int_div_nearest a_numerator_sum amm_liquidity in
  let* sq := div_round (a_fraction ^ 2) const_2_192 Ceiling in
  let* debt_delta_t0 := nat_sub t0_start sq in
  Ok (saturate_u 128 debt_delta_t0).

(** [Add<Debt> for Debt]: on the same side the price stays, when the debt flips
    the other price is taken. *)
Definition debt_add (self rhs : Debt) : M (option Debt) :=
  let* magnitude := dt_add (d_magnitude self) (d_magnitude rhs) in
  if dt_magnitude magnitude =? 0 then Ok None else
  let price :=
    if same_side magnitude (d_magnitude self) then cur_price self else cur_price rhs in
  Ok (Some (mkDebt price magnitude)).

Definition option_debt_add (self : option Debt) (rhs : Debt) : M (option Debt) :=
  match self with None => Ok (Some rhs) | Some d => debt_add d rhs end.

(** [Add<DebtType> for &Debt]. *)
Definition debt_add_type (self : Debt) (rhs : DebtType) : M Debt :=
  let* m := dt_add (d_magnitude self) rhs in Ok (mkDebt (cur_price self) m).

(** [PartialOrd<Ray> for Debt]. *)
Definition debt_partial_cmp (d : Debt) (price : Z) : M comparison :=
  let* e := valid_for_price d price in
  Ok (if (e : bool) then Eq else cur_price d ?= price).

End Debts.

#[global] Arguments t0_at_price : simpl never.
#[global] Arguments current_t0 : simpl never.
#[global] Arguments price_range : simpl never.
#[global] Arguments valid_for_price : simpl never.

(** ** Lemmas *)

(** The T0 side of a debt of [m] at price [p], without the 128-bit cut-off. *)
Definition t0_exact (d : DebtType) (p : Z) : Z :=
  round_div (dt_magnitude d * const_1e27) p (dt_round_up d).

Lemma t0_at_price_Ok d p :
  0 < p -> t0_at_price d p = Ok (saturate_u 128 (t0_exact d p)).
Proof.
  intros Hp. unfold t0_at_price, t0_exact. rewrite inverse_quantity_Ok by done. by destruct d.
Qed.

(** A rounded quotient, read backwards. *)
Lemma div_floor_eq a b c : 0 < b -> div_floor a b = c <-> c * b <= a < (c + 1) * b.
Proof.
  intros Hb. pose proof (div_floor_le a b c Hb). pose proof (div_floor_le a b (c + 1) Hb). lia.
Qed.

Lemma div_ceil_eq a b c : 0 < b -> div_ceil a b = c <-> (c - 1) * b < a <= c * b.
Proof.
  intros Hb. pose proof (div_ceil_le a b c Hb). pose proof (div_ceil_le a b (c - 1) Hb). lia.
Qed.

(** The price at which [m] of T1 is worth [t0], as the code rounds it. *)
Lemma calc_price_generic_Ok t0 m up :
  0 < t0 -> u128 m ->
  Ray.calc_price_generic t0 m up = Ok (round_div (m * const_1e27) t0 up).
Proof.
  intros Ht Hm. unfold Ray.calc_price_generic, Ray.calc_price_inner.
  rewrite div_round_rounding by done. simpl. apply uint_from_Ok. split; [done |].
  assert (0 <= m * const_1e27 <= u_max 256).
  { unfold u128 in Hm. change (u_max 128) with (2 ^ 128 - 1) in Hm.
    change (u_max 256) with (2 ^ 256 - 1). unfold const_1e27. lia. }
  split; [apply round_div_nonneg; lia |].
  transitivity (m * const_1e27); [| lia]. destruct up; simpl.
  - apply div_ceil_le; [done | nia].
  - pose proof (div_floor_le (m * const_1e27) t0 (div_floor (m * const_1e27) t0) Ht). nia.
Qed.

Lemma saturate_eq c x : 0 <= c < u_max 128 -> saturate_u 128 x = c <-> x = c.
Proof. unfold saturate_u. lia. Qed.

Lemma low_to_high_sorted a b : b <= a -> low_to_high a b = (b, a).
Proof.
  intros H. unfold low_to_high. destruct (Z.compare_spec a b); [subst | lia |]; done.
Qed.

Lemma low_to_high_id a b : a <= b -> low_to_high a b = (a, b).
Proof. intros H. unfold low_to_high. destruct (Z.compare_spec a b); [| | lia]; done. Qed.

#[global] Arguments t0_exact : simpl never.

Section DebtLemmas.
Context {P : Profile} {U : UniswapMath}.
Context (maxp : Z) (Hmax : Ray.max_uniswap_price = Ok maxp).

(** A debt whose price is a pool price and whose T0 fits. *)
Definition debt_ok (d : Debt) : Prop :=
  0 < debt_magnitude d <= u_max 128 /\ 0 < cur_price d < maxp /\
  t0_exact (d_magnitude d) (cur_price d) < u_max 128.

Lemma t0_exact_nonneg d p : 0 <= dt_magnitude d -> 0 < p -> 0 <= t0_exact d p.
Proof. intros. apply round_div_nonneg; [| done]. pose proof const_1e27_pos. nia. Qed.

Lemma debt_ok_t0 d :
  debt_ok d -> current_t0 d = Ok (t0_exact (d_magnitude d) (cur_price d)).
Proof.
  intros (Hm & Hp & Ht). unfold current_t0. rewrite t0_at_price_Ok by lia.
  f_equal. apply saturate_eq; [| done]. split; [| done]. apply t0_exact_nonneg; [| lia].
  unfold debt_magnitude in Hm. lia.
Qed.

Lemma bid_price_range q p c :
  debt_ok (mkDebt p (ExactIn q)) -> t0_exact (ExactIn q) p = c ->
  price_range (mkDebt p (ExactIn q)) =
    Ok (div_floor (q * const_1e27) (c + 1), if c =? 0 then maxp else div_floor (q * const_1e27) c).
Proof.
  intros Hok Ec. pose proof Hok as (Hm & Hp & Ht). unfold debt_magnitude in Hm. simpl in *.
  unfold price_range. rewrite debt_ok_t0 by done. cbn [d_magnitude cur_price]. rewrite Ec. cbn -[div_floor].
  assert (Hc : 0 <= c) by (subst c; apply t0_exact_nonneg; simpl; lia).
  unfold u128_add. rewrite checked_u_Ok by lia. cbn -[div_floor].
  rewrite (proj2 (Z.eqb_neq (c + 1) 0)) by lia.
  assert (Hq : u128 q) by (unfold u128; lia).
  destruct (Z.eqb_spec c 0) as [E | E].
  - rewrite Hmax. cbn -[div_floor]. rewrite calc_price_generic_Ok by (done || lia).
    cbn -[div_floor]. rewrite low_to_high_sorted; [done |].
    rewrite E in Ec |- *. apply div_floor_eq in Ec; [| lia]. simpl in Ec.
    unfold div_floor. rewrite Z.div_1_r. lia.
  - rewrite !calc_price_generic_Ok by (done || lia). cbn -[div_floor].
    rewrite low_to_high_sorted; [done |].
    apply div_floor_le; [lia |].
    pose proof (div_floor_le (q * const_1e27) (c + 1) (div_floor (q * const_1e27) (c + 1)) ltac:(lia)).
    pose proof (div_floor_nonneg (q * const_1e27) (c + 1)). pose proof const_1e27_pos. nia.
Qed.

Lemma ask_price_range q p c :
  debt_ok (mkDebt p (ExactOut q)) -> t0_exact (ExactOut q) p = c ->
  price_range (mkDebt p (ExactOut q)) =
    Ok (div_ceil (q * const_1e27) c,
        if c =? 1 then maxp else div_ceil (q * const_1e27) (c - 1)).
Proof.
  intros Hok Ec. pose proof Hok as (Hm & Hp & Ht). unfold debt_magnitude in Hm. simpl in *.
  unfold price_range. rewrite debt_ok_t0 by done. cbn [d_magnitude cur_price]. rewrite Ec. cbn -[div_ceil].
  assert (Hq : u128 q) by (unfold u128; lia).
  pose proof const_1e27_pos as HR.
  pose proof (proj1 (div_ceil_eq (q * const_1e27) p c ltac:(lia)) Ec) as Hc.
  assert (1 <= c) by nia.
  unfold saturating_sub. rewrite Z.max_r by lia.
  rewrite (proj2 (Z.eqb_neq c 0)) by lia.
  destruct (Z.eqb_spec (c - 1) 0) as [E | E].
  - rewrite Hmax, (proj2 (Z.eqb_eq c 1)) by lia. cbn -[div_ceil].
    rewrite calc_price_generic_Ok by (done || lia). cbn -[div_ceil].
    rewrite low_to_high_sorted; [done |]. apply div_ceil_le; nia.
  - rewrite (proj2 (Z.eqb_neq c 1)) by lia.
    rewrite !calc_price_generic_Ok by (done || lia). cbn -[div_ceil].
    rewrite low_to_high_id; [done |].
    apply div_ceil_le; [lia |].
    pose proof (div_ceil_le (q * const_1e27) (c - 1) (div_ceil (q * const_1e27) (c - 1)) ltac:(lia)).
    pose proof (div_ceil_nonneg (q * const_1e27) (c - 1)). nia.
Qed.

(** A debt accepts exactly the prices at which it moves the T0 it moves now. *)
Lemma valid_for_price_spec d p :
  debt_ok d -> 0 < p < maxp ->
  exists b, valid_for_price d p = Ok b /\
    (b = true <-> t0_exact (d_magnitude d) p = t0_exact (d_magnitude d) (cur_price d)).
Proof.
  intros Hok Hp. destruct d as [p0 [q | q]]; cbn [cur_price d_magnitude];
    pose proof Hok as ((Hm & _) & Hp0 & _); cbn in Hm, Hp0;
    pose proof const_1e27_pos as HR; unfold valid_for_price.
  - rewrite (bid_price_range _ _ _ Hok eq_refl). cbn [M_bind d_magnitude].
    pose proof (t0_exact_nonneg (ExactIn q) p0 ltac:(simpl; lia) ltac:(lia)) as Hc.
    eexists. split; [done |]. set (c := t0_exact (ExactIn q) p0) in *. clearbody c.
    unfold t0_exact. cbn [dt_magnitude dt_round_up round_div]. rewrite div_floor_eq by lia.
    rewrite andb_true_iff, Z.ltb_lt, Z.leb_le.
    pose proof (div_floor_le (q * const_1e27) (c + 1) p ltac:(lia)).
    destruct (Z.eqb_spec c 0); [nia |].
    pose proof (div_floor_le (q * const_1e27) c p ltac:(lia)). nia.
  - rewrite (ask_price_range _ _ _ Hok eq_refl). cbn [M_bind d_magnitude].
    assert (Hc : 1 <= t0_exact (ExactOut q) p0).
    { destruct (proj1 (div_ceil_eq (q * const_1e27) p0 _ ltac:(lia)) eq_refl). 
      unfold t0_exact. cbn [dt_magnitude dt_round_up round_div]. nia. }
    eexists. split; [done |]. set (c := t0_exact (ExactOut q) p0) in *. clearbody c.
    unfold t0_exact. cbn [dt_magnitude dt_round_up round_div]. rewrite div_ceil_eq by lia.
    rewrite andb_true_iff, Z.ltb_lt, Z.leb_le.
    pose proof (div_ceil_le (q * const_1e27) c p ltac:(lia)).
    destruct (Z.eqb_spec c 1); [nia |].
    pose proof (div_ceil_le (q * const_1e27) (c - 1) p ltac:(lia)). nia.
Qed.

End DebtLemmas.

(** Dividing twice with the same rounding gives the divisor back, when the
    dividend is large enough. *)
Lemma round_div_twice a n up :
  0 < n -> n * (n + 1) <= a -> 0 < round_div a n up /\ round_div a (round_div a n up) up = n.
Proof.
  intros Hn Ha. destruct up; cbn [round_div].
  - destruct (proj1 (div_ceil_eq a n _ Hn) eq_refl) as [H1 H2].
    assert (0 < div_ceil a n) by nia. split; [done |]. apply div_ceil_eq; [done |]. nia.
  - destruct (proj1 (div_floor_eq a n _ Hn) eq_refl) as [H1 H2].
    assert (n < div_floor a n + 1) by nia. split; [lia |]. apply div_floor_eq; [lia |]. nia.
Qed.

(** The T0 of a debt priced so that it is worth [n]. *)
Lemma repriced_t0 d n :
  0 < n < u_max 128 -> u128 (dt_magnitude d) -> n * (n + 1) <= dt_magnitude d * const_1e27 ->
  exists p, Ray.calc_price_generic n (dt_magnitude d) (dt_round_up d) = Ok p /\
    current_t0 (mkDebt p d) = Ok n.
Proof.
  intros Hn Hm Ha. rewrite calc_price_generic_Ok by (done || lia). eexists. split; [done |].
  destruct (round_div_twice (dt_magnitude d * const_1e27) n (dt_round_up d)) as [Hp E]; [lia | done |].
  unfold current_t0. cbn [d_magnitude cur_price]. rewrite t0_at_price_Ok by done.
  unfold t0_exact. rewrite E. unfold saturate_u. f_equal. lia.
Qed.

(** The least amount of T1 that is worth [t] of T0 at a price. *)
Definition least_t1 (d : DebtType) (p t : Z) : Z :=
  if dt_round_up d then div_floor (p * (t - 1)) const_1e27 + 1 else div_ceil (p * t) const_1e27.

Lemma least_t1_spec d p t m :
  0 < p -> t <= t0_exact (same_type d m) p <-> least_t1 d p t <= m.
Proof.
  intros Hp. pose proof const_1e27_pos as HR. unfold t0_exact, least_t1.
  destruct d as [q | q]; cbn [same_type dt_magnitude dt_round_up round_div].
  - rewrite div_floor_le, div_ceil_le by done. lia.
  - pose proof (div_ceil_le (m * const_1e27) p (t - 1) Hp).
    pose proof (div_floor_le (p * (t - 1)) const_1e27 m HR). lia.
Qed.

Lemma freed_t1_Ok maxp d t0_change :
  debt_ok maxp d -> 0 <= t0_change < t0_exact (d_magnitude d) (cur_price d) ->
  freed_t1 d t0_change =
  Ok (debt_magnitude d -
      least_t1 (d_magnitude d) (cur_price d)
        (t0_exact (d_magnitude d) (cur_price d) - t0_change)).
Proof.
  intros Hok Hch. pose proof Hok as (Hm & Hp & Ht). unfold freed_t1.
  rewrite (debt_ok_t0 maxp) by done. cbn [M_bind].
  set (c := t0_exact _ _) in *.
  replace (saturating_sub c t0_change) with (c - t0_change) by (unfold saturating_sub; lia).
  rewrite (proj2 (Z.eqb_neq (c - t0_change) 0)) by lia.
  assert (Hle : least_t1 (d_magnitude d) (cur_price d) (c - t0_change) <= debt_magnitude d).
  { apply least_t1_spec; [lia |]. subst c. unfold debt_magnitude.
    replace (same_type _ _) with (d_magnitude d) by (by destruct (d_magnitude d)). lia. }
  pose proof const_1e27_pos as HR. unfold bid_side, least_t1 in *.
  destruct (d_magnitude d); cbn [dt_round_up] in *; rewrite quantity_Ok; cbn [M_bind round_div];
    unfold saturate_u, saturating_sub, saturating_add.
  - rewrite Z.min_r by lia. rewrite Z.max_r by lia. done.
  - rewrite (Z.max_r 0 (c - t0_change - 1)) by lia.
    rewrite (Z.min_r (u_max 128)) by lia. rewrite Z.min_r by lia. rewrite Z.max_r by lia. done.
Qed.

(** The signed amount of T1 of a debt: positive when it is owed to the bids. *)
Definition signed_t1 (d : DebtType) : Z :=
  match d with ExactIn q => q | ExactOut q => - q end.

Lemma dt_add_signed {P : Profile} a b r :
  u128 (dt_magnitude a) -> u128 (dt_magnitude b) ->
  dt_magnitude a + dt_magnitude b <= u_max 128 ->
  dt_add a b = Ok r -> signed_t1 r = signed_t1 a + signed_t1 b.
Proof.
  unfold u128. intros Ha Hb Hs H. destruct a as [x | x], b as [y | y]; cbn in *;
    try (destruct (Z.ltb_spec x y)); unfold u128_add, u128_sub in H;
    rewrite checked_u_Ok in H by lia; cbn in H; injection H as <-; cbn; lia.
Qed.

(** ** Properties *)

(** C27: A debt accepts a price if and only if it moves exactly as much T0 there
    as at its current price, for magnitudes and amounts of 128 bits and prices in
    the Uniswap range: the interval [price_range] computes from the next
    amount of T0 is the set of all prices with the same rounded amount, on both
    sides of the book and with both roundings, down to an amount of zero. *)
Theorem debt_price_equivalence (P : Profile) (U : UniswapMath) maxp d p c :
  Ray.max_uniswap_price = Ok maxp ->
  0 < debt_magnitude d <= u_max 128 -> 0 < cur_price d < maxp -> 0 < p < maxp ->
  current_t0 d = Ok c -> c < u_max 128 ->
  exists b, valid_for_price d p = Ok b /\
    (b = true <-> t0_at_price (d_magnitude d) p = current_t0 d).
Proof.
  intros Hmax Hm Hp0 Hp Hc Hlt. unfold current_t0 in *. rewrite t0_at_price_Ok in Hc by lia.
  injection Hc as Hc. pose proof (t0_exact_nonneg (d_magnitude d) (cur_price d)) as Hn.
  unfold debt_magnitude in Hm.
  assert (Hc' : t0_exact (d_magnitude d) (cur_price d) = c) by (unfold saturate_u in Hc; lia).
  destruct (valid_for_price_spec maxp Hmax d p) as (b & Hb & Hiff); [unfold debt_ok, debt_magnitude; lia | done |].
  exists b. split; [done |]. rewrite Hiff, !t0_at_price_Ok by lia. rewrite Hc, Hc'.
  rewrite <- (saturate_eq c) by lia. split; [by intros -> | by intros [= ->]].
Qed.

Lemma debt_price_equivalence_witness :
  let U := bounds_only 4295128739 1461446703485210103287273052203988822378723970342 in
  exists b, @valid_for_price dev U (mkDebt (25015 * 10 ^ 27) (ExactIn 55383699)) (25016 * 10 ^ 27) = Ok b /\
    (b = true <-> @t0_at_price (ExactIn 55383699) (25016 * 10 ^ 27) =
                  current_t0 (mkDebt (25015 * 10 ^ 27) (ExactIn 55383699))).
Proof.
  eapply (debt_price_equivalence dev _ _ (mkDebt (25015 * 10 ^ 27) (ExactIn 55383699)));
    first [vm_compute; reflexivity | split; vm_compute; (reflexivity || discriminate)].
Defined.

(** Freeing T0 from a debt releases the most T1 the debt can do without:
    what remains is still worth the T0 that is kept, and any smaller amount of
    T1 is worth less, on both sides of the book. *)
Theorem freed_t1_maximal (P : Profile) maxp d t0_change c f :
  debt_ok maxp d -> current_t0 d = Ok c -> 0 <= t0_change < c ->
  freed_t1 d t0_change = Ok f ->
  f <= debt_magnitude d /\
  c - t0_change <= t0_exact (same_type (d_magnitude d) (debt_magnitude d - f)) (cur_price d) /\
  forall m, m < debt_magnitude d - f ->
    t0_exact (same_type (d_magnitude d) m) (cur_price d) < c - t0_change.
Proof.
  intros Hok Hc Hch Hf. rewrite (debt_ok_t0 maxp) in Hc by done. injection Hc as <-.
  rewrite (freed_t1_Ok maxp) in Hf by done. injection Hf as <-.
  pose proof Hok as (Hm & Hp & Ht).
  pose proof (fun m t => least_t1_spec (d_magnitude d) (cur_price d) t m ltac:(lia)) as Hspec.
  pose proof (Hspec 0 (t0_exact (d_magnitude d) (cur_price d) - t0_change)) as H0.
  assert (t0_exact (same_type (d_magnitude d) 0) (cur_price d) <= 0).
  { unfold t0_exact. destruct (d_magnitude d); cbn [same_type dt_magnitude dt_round_up round_div].
    - by rewrite Z.mul_0_l.
    - apply div_ceil_le; lia. }
  split; [lia |]. split; [apply Hspec; lia |].
  intros m Hlt. specialize (Hspec m (t0_exact (d_magnitude d) (cur_price d) - t0_change)). lia.
Qed.

Lemma freed_t1_maximal_witness :
  freed_t1 (mkDebt (25015 * 10 ^ 27) (ExactIn 55383699)) 14 = Ok 350699 /\
  350699 <= 55383699 /\ 2200 <= t0_exact (ExactIn (55383699 - 350699)) (25015 * 10 ^ 27).
Proof.
  split; [vm_compute; reflexivity |].
  destruct (freed_t1_maximal dev (10 ^ 40) (mkDebt (25015 * 10 ^ 27) (ExactIn 55383699)) 14 2214 350699)
    as (H1 & H2 & _).
  - repeat split; vm_compute; (reflexivity || discriminate).
  - vm_compute. reflexivity.
  - split; [discriminate | reflexivity].
  - vm_compute. reflexivity.
  - split; [exact H1 | exact H2].
Defined.

(** Filling a debt with T0 leaves a debt worth exactly the T0 it had plus or
    minus the fill, for the same T1. *)
Theorem partial_fill_exact (P : Profile) d q c n :
  current_t0 d = Ok c -> u128 (debt_magnitude d) ->
  n = (if bid_side d then c + q else c - q) ->
  0 < n < u_max 128 -> n * (n + 1) <= debt_magnitude d * const_1e27 ->
  exists d', debt_partial_fill d q = Ok d' /\ d_magnitude d' = d_magnitude d /\
    current_t0 d' = Ok n.
Proof.
  intros Hc Hm Hn Hr Ha. unfold debt_partial_fill. rewrite Hc. cbn [M_bind].
  destruct (repriced_t0 (d_magnitude d) n Hr Hm Ha) as (p & Hp & Ht).
  unfold bid_side in Hn. destruct (d_magnitude d) eqn:E; subst n.
  - unfold u128_add. rewrite checked_u_Ok by lia. unfold debt_magnitude. rewrite E. cbn [M_bind].
    rewrite Hp. by eexists.
  - unfold saturating_sub. rewrite Z.max_r by lia. unfold debt_magnitude. rewrite E. cbn [M_bind].
    rewrite Hp. by eexists.
Qed.

(** A debt made from two amounts owes these amounts. *)
Theorem from_quantities_exact t0_q t1_q exact_in :
  0 < t0_q < u_max 128 -> u128 t1_q -> t0_q * (t0_q + 1) <= t1_q * const_1e27 ->
  exists d, from_quantities t0_q t1_q exact_in = Ok d /\
    debt_magnitude d = t1_q /\ current_t0 d = Ok t0_q.
Proof.
  intros Hr Hm Ha. unfold from_quantities.
  destruct (repriced_t0 (if exact_in then ExactIn t1_q else ExactOut t1_q) t0_q)
    as (p & Hp & Ht); [done | by destruct exact_in | by destruct exact_in |].
  replace (dt_magnitude _) with t1_q in Hp by (by destruct exact_in).
  rewrite Hp. eexists. split; [done |]. split; [by destruct exact_in | done].
Qed.

Example debt_t0_magnitude_calculation :
  (let* d := from_quantities 2214 55383699 true in
   let* t0 := current_t0 d in Ok (debt_magnitude d, t0)) = Ok (55383699, 2214).
Proof. vm_compute. reflexivity. Qed.
