(* ===== verification/PoolSnapshot.v ===== *)
(** * Pool snapshots

    crates/types/src/matching/uniswap/{liqrange,poolsnapshot}.rs and the data of
    poolprice.rs: a Uniswap pool as a sorted list of liquidity ranges, each
    valid for one swap direction, with the current price and the index of the
    range it lies in.  Ranges and prices borrow from the snapshot; a reference
    is the snapshot together with its address, because the code compares
    references by address. *)

From S2P Require Import Prelude Uniswap Ray MatchMath Donation PoolSwap.

Definition MIN_TICK : Z := - MAX_TICK.

(** ** Liquidity ranges

    [lr_direction] is true for the ranges walked by asks (zero for one). *)
Record LiqRange := mkLiqRange {
  lr_lower_tick : Z;
  lr_upper_tick : Z;
  lr_liquidity : Z;
  lr_is_tick_edge : bool;
  lr_is_initialized : bool;
  lr_fee : Z;
  lr_direction : bool;
}.

#[export] Instance LiqRange_eq_dec : EqDecision LiqRange.
Proof. solve_decision. Defined.

Definition LiqRange_new_init (lower_tick upper_tick liquidity fee : Z) (direction : bool) :
    M LiqRange :=
  if upper_tick <=? lower_tick then Err "Upper tick bound less than or equal to lower tick bound"
  else if MAX_TICK <? upper_tick then Err "Proposed upper tick out of valid tick range"
  else if lower_tick <? MIN_TICK then Err "Proposed lower tick out of valid tick range"
  else Ok (mkLiqRange lower_tick upper_tick liquidity false true fee direction).

Definition LiqRange_new_uninit (lower_tick upper_tick liquidity : Z)
    (is_tick_edge is_initialized : bool) (fee : Z) (direction : bool) : M LiqRange :=
  if upper_tick <=? lower_tick then Err "Upper tick bound less than or equal to lower tick bound"
  else if MAX_TICK <? upper_tick then Err "Proposed upper tick out of valid tick range"
  else if lower_tick <? MIN_TICK then Err "Proposed lower tick out of valid tick range"
  else Ok (mkLiqRange lower_tick upper_tick liquidity is_tick_edge is_initialized fee direction).

(** A range covers the ticks from its lower tick up to, not including, its
    upper tick. *)
Definition covers (r : LiqRange) (tick : Z) : bool :=
  (lr_lower_tick r <=? tick) && (tick <? lr_upper_tick r).

(** ** Snapshots *)

Record PoolSnapshot := mkPoolSnapshot {
  sn_ranges : list LiqRange;
  sn_sqrt_price_x96 : Z;
  sn_current_tick : Z;
  sn_cur_tick_idx_bid : nat;
  sn_cur_tick_idx_ask : nat;
  sn_tick_spacing : Z;
  sn_fee : Z;
}.

(** [ranges.iter().enumerate().filter(direction).find(covers)]. *)
Definition find_range (direction : bool) (tick : Z) (ranges : list LiqRange) :
    option (nat * LiqRange) :=
  List.find (fun p => covers p.2 tick)
    (List.filter (fun p => Bool.eqb (lr_direction p.2) direction) (imap pair ranges)).

Definition lower_tick_cmp (a b : LiqRange) : comparison := lr_lower_tick a ?= lr_lower_tick b.

Definition PoolSnapshot_new `{UniswapMath} (tick_spacing : Z) (ranges : list LiqRange)
    (sqrt_price_x96 fee : Z) : M PoolSnapshot :=
  let ranges := sort_by lower_tick_cmp ranges in
  if tick_spacing <=? 0 then Err "Invalid tick spacing" else
  let* current_tick := get_tick_at_sqrt_ratio sqrt_price_x96 in
  match find_range true current_tick ranges with
  | None => Err "Unable to find initialized tick window for tick"
  | Some (cur_tick_idx_ask, _) =>
      match find_range false current_tick ranges with
      | None => Err "Unable to find initialized tick window for tick"
      | Some (cur_tick_idx_bid, _) =>
          Ok (mkPoolSnapshot ranges sqrt_price_x96 current_tick cur_tick_idx_bid cur_tick_idx_ask
                tick_spacing fee)
      end
  end.

Definition sn_set_fee (s : PoolSnapshot) (fee : Z) : PoolSnapshot :=
  mkPoolSnapshot (sn_ranges s) (sn_sqrt_price_x96 s) (sn_current_tick s) (sn_cur_tick_idx_bid s)
    (sn_cur_tick_idx_ask s) (sn_tick_spacing s) fee.

(** A borrowed snapshot: its address and its value. *)
Record SnapRef := mkSnapRef { sn_addr : Z; sn : PoolSnapshot }.

(** ** References to ranges

    [range_ptr] is the address of the range: the vector that owns it and its
    position there. *)
Record LiqRangeRef := mkLiqRangeRef {
  pool_snap : SnapRef;
  range : LiqRange;
  range_idx : nat;
  range_ptr : Z * nat;
}.

Definition range_ref (s : SnapRef) (p : nat * LiqRange) : LiqRangeRef :=
  mkLiqRangeRef s p.2 p.1 (sn_addr s, p.1).

Definition range_ref_eqb (a b : LiqRangeRef) : bool :=
  (sn_addr (pool_snap a) =? sn_addr (pool_snap b)) &&
  bool_decide (range_ptr a = range_ptr b) && (range_idx a =? range_idx b)%nat.

(** A reference made by hand: the range may live anywhere. *)
Definition LiqRangeRef_new (market : SnapRef) (r : LiqRange) (ptr : Z * nat) (idx : nat) : LiqRangeRef :=
  mkLiqRangeRef market r idx ptr.

Definition get_range_for_tick (s : SnapRef) (tick : Z) (direction : bool) : option LiqRangeRef :=
  range_ref s <$> find_range direction tick (sn_ranges (sn s)).

(** The ranges of one direction that meet the ticks between two ticks, in the
    order of the walk; the call always returns. *)
Definition ranges_for_ticks (s : SnapRef) (start_tick end_tick : Z) : list LiqRangeRef :=
  let is_ask := end_tick <=? start_tick in
  let (low, high) := low_to_high start_tick end_tick in
  let output :=
    map (range_ref s)
      (List.filter (fun p => (low <? lr_upper_tick p.2) && (lr_lower_tick p.2 <=? high))
        (List.filter (fun p => Bool.eqb (lr_direction p.2) is_ask) (imap pair (sn_ranges (sn s))))) in
  if end_tick <? start_tick then reverse output else output.

Definition ranges_from_tick (s : SnapRef) (start_tick : Z) : list LiqRangeRef :=
  ranges_for_ticks s start_tick (sn_current_tick (sn s)).

(** Would reaching the price mean buying from the pool? *)
Definition sn_is_bid (s : PoolSnapshot) (price : Z) : M bool :=
  let* end_price := SqrtPriceX96.from_ray price in
  Ok (sn_sqrt_price_x96 s <? end_price).

Section Checksum.
Context {P : Profile} {K : Keccak}.

(** [ticks.len() - 1] is native [usize] arithmetic; [take] stops at the end of
    the list. *)
Definition checksum_from_ticks (s : SnapRef) (start_tick end_tick : Z) : M Z :=
  let from_above := end_tick <? start_tick in
  let initialized :=
    List.filter (fun r => lr_is_initialized (range r)) (ranges_for_ticks s start_tick end_tick) in
  let ticks :=
    map (fun r => if from_above then lr_lower_tick (range r) else lr_upper_tick (range r)) initialized in
  let liquidity := map (fun r => lr_liquidity (range r)) initialized in
  let* n := checked_u 64 (Z.of_nat (length ticks) - 1) in
  let hash :=
    fold_left (fun acc p =>
        keccak (bytes_be 32 acc ++ bytes_be 16 p.2 ++ bytes_be 3 (wrap_u 24 p.1)))
      (zip (take (Z.to_nat (Z.min n (Z.of_nat (length ticks)))) ticks) (drop 1 liquidity)) 0 in
  Ok (Z.shiftr hash 96).

Definition checksum_from (s : SnapRef) (bound_tick : Z) : M Z :=
  checksum_from_ticks s bound_tick (sn_current_tick (sn s)).

End Checksum.

(** ** Prices in a pool *)

Record PoolPrice := mkPoolPrice {
  liq_range : LiqRangeRef;
  pp_tick : Z;
  pp_price : Z;
  pp_fee : Z;
  pp_direction : bool;
}.

(** [PartialEq for PoolPrice]. *)
Definition pool_price_eqb (a b : PoolPrice) : bool :=
  (pp_price a =? pp_price b) && range_ref_eqb (liq_range a) (liq_range b).

Definition pool_price_cmp (a b : PoolPrice) : comparison := pp_price a ?= pp_price b.

Definition pp_liquidity (p : PoolPrice) : Z := lr_liquidity (range (liq_range p)).
Definition pp_snapshot (p : PoolPrice) : SnapRef := pool_snap (liq_range p).
Definition no_fees (p : PoolPrice) : PoolPrice :=
  mkPoolPrice (liq_range p) (pp_tick p) (pp_price p) 0 (pp_direction p).
Definition pp_as_ray (p : PoolPrice) : M Z := Ray.from_sqrt (pp_price p).

Definition sn_current_price (s : SnapRef) (direction : bool) : M PoolPrice :=
  let index := if direction then sn_cur_tick_idx_ask (sn s) else sn_cur_tick_idx_bid (sn s) in
  let* r := unwrap (sn_ranges (sn s) !! index) in
  Ok (mkPoolPrice (range_ref s (index, r)) (sn_current_tick (sn s)) (sn_sqrt_price_x96 (sn s))
        (sn_fee (sn s)) direction).

Section Prices.
Context {P : Profile} {U : UniswapMath}.

Definition at_price (s : SnapRef) (price : Z) (direction : bool) : M PoolPrice :=
  let* tick := SqrtPriceX96.to_tick price in
  let* r := ok_or (get_range_for_tick s tick direction) "Unable to find tick range for price" in
  Ok (mkPoolPrice r tick price (sn_fee (sn s)) direction).

(** Any error of the tick conversion counts as out of range. *)
Definition price_in_range (r : LiqRangeRef) (price : Z) : M bool :=
  match SqrtPriceX96.to_tick price with
  | Ok price_tick => Ok (covers (range r) price_tick)
  | Err _ => Ok false
  | Panic => Panic
  end.

Definition lr_start_tick (r : LiqRangeRef) (d : Direction) : Z :=
  match d with
  | BuyingT0 => lr_lower_tick (range r)
  | SellingT0 => lr_upper_tick (range r)
  end.

Definition lr_end_tick (r : LiqRangeRef) (d : Direction) : Z :=
  match d with
  | BuyingT0 => lr_upper_tick (range r)
  | SellingT0 => lr_lower_tick (range r)
  end.

Definition start_price (r : LiqRangeRef) (d : Direction) : M PoolPrice :=
  let tick := lr_start_tick r d in
  let* price := expect_ok (SqrtPriceX96.at_tick tick) in
  Ok (mkPoolPrice r tick price (lr_fee (range r)) (negb (dir_is_bid d))).

Definition end_price (r : LiqRangeRef) (d : Direction) : M PoolPrice :=
  let tick := lr_end_tick r d in
  let* price := expect_ok (SqrtPriceX96.at_tick tick) in
  Ok (mkPoolPrice r tick price (lr_fee (range r)) (negb (dir_is_bid d))).

Definition donate_tick (r : LiqRangeRef) : Z := lr_lower_tick (range r).

(** [lower_tick - 1] is native [i32] arithmetic. *)
Definition lr_next (r : LiqRangeRef) (d : Direction) : M (option LiqRangeRef) :=
  match d with
  | BuyingT0 => Ok (get_range_for_tick (pool_snap r) (lr_upper_tick (range r)) false)
  | SellingT0 =>
      let* t := checked_i 32 (lr_lower_tick (range r) - 1) in
      Ok (get_range_for_tick (pool_snap r) t true)
  end.

Definition PoolPrice_checked_new (r : LiqRangeRef) (price tick fee : Z) (direction : bool) :
    M PoolPrice :=
  if (tick <? lr_lower_tick (range r)) || (lr_upper_tick (range r) <? tick) then Panic else
  let* t := expect_ok (get_tick_at_sqrt_ratio price) in
  if negb (t =? tick) then Panic else Ok (mkPoolPrice r tick price fee direction).

End Prices.

(** ** Lemmas *)

Lemma find_range_spec direction tick ranges i r :
  find_range direction tick ranges = Some (i, r) ->
  ranges !! i = Some r /\ lr_direction r = direction /\ covers r tick = true.
Proof.
  intros H. apply List.find_some in H as [Hin Hc]. rewrite <- list_elem_of_In in Hin.
  apply list_filter_in in Hin as [Hin Hd]. simpl in *.
  apply eqb_prop in Hd. split; [| done].
  apply list_elem_of_lookup_1 in Hin as [j Hj]. apply list_lookup_imap_Some in Hj as (x & Hx & E).
  by injection E as -> ->.
Qed.

Lemma covers_spec r t : covers r t = true <-> lr_lower_tick r <= t < lr_upper_tick r.
Proof. unfold covers. rewrite andb_true_iff, Z.leb_le, Z.ltb_lt. done. Qed.

(** What [PoolSnapshot_new] establishes: the ranges are sorted by lower tick,
    and both indices point to a range of their direction that covers the
    current tick. *)
Record snapshot_wf (s : PoolSnapshot) : Prop := {
  wf_sorted : StronglySorted (fun a b => lower_tick_cmp a b <> Gt) (sn_ranges s);
  wf_ask : exists r, sn_ranges s !! sn_cur_tick_idx_ask s = Some r /\
             lr_direction r = true /\ covers r (sn_current_tick s) = true;
  wf_bid : exists r, sn_ranges s !! sn_cur_tick_idx_bid s = Some r /\
             lr_direction r = false /\ covers r (sn_current_tick s) = true;
  wf_spacing : 0 < sn_tick_spacing s;
}.

Lemma snapshot_new_wf `{UniswapMath} spacing ranges price fee s :
  PoolSnapshot_new spacing ranges price fee = Ok s ->
  snapshot_wf s /\ sn_ranges s ≡ₚ ranges /\ get_tick_at_sqrt_ratio price = Ok (sn_current_tick s) /\
  sn_sqrt_price_x96 s = price.
Proof.
  unfold PoolSnapshot_new. destruct (Z.leb_spec spacing 0); [done |]. intros Hs.
  apply M_bind_Ok in Hs as (t & Ht & Hs).
  destruct (find_range true t _) as [[ia ra] |] eqn:Ea; [| done].
  destruct (find_range false t _) as [[ib rb] |] eqn:Eb; [| done].
  injection Hs as <-. split; [| split; [apply sort_by_perm | done]].
  split; cbn [sn_ranges sn_cur_tick_idx_ask sn_cur_tick_idx_bid sn_current_tick sn_tick_spacing].
  - apply sort_by_sorted; unfold lower_tick_cmp.
    + intros a b c. rewrite !Z.compare_le_iff. lia.
    + intros a b. rewrite Z.compare_le_iff, Z.compare_gt_iff. lia.
  - exists ra. by apply find_range_spec.
  - exists rb. by apply find_range_spec.
  - done.
Qed.

Lemma current_price_Ok s direction :
  snapshot_wf (sn s) ->
  exists p, sn_current_price s direction = Ok p /\
    pp_tick p = sn_current_tick (sn s) /\ pp_price p = sn_sqrt_price_x96 (sn s) /\
    lr_direction (range (liq_range p)) = direction /\
    covers (range (liq_range p)) (pp_tick p) = true.
Proof.
  intros [_ (ra & Ha & Hda & Hca) (rb & Hb & Hdb & Hcb) _]. unfold sn_current_price.
  destruct direction; [rewrite Ha | rewrite Hb]; simpl; by eexists.
Qed.

Lemma get_range_for_tick_spec s t direction r :
  get_range_for_tick s t direction = Some r ->
  pool_snap r = s /\ sn_ranges (sn s) !! range_idx r = Some (range r) /\
  range_ptr r = (sn_addr s, range_idx r) /\
  lr_direction (range r) = direction /\ covers (range r) t = true.
Proof.
  unfold get_range_for_tick. intros ([i x] & H & ->)%fmap_Some. apply find_range_spec in H. naive_solver.
Qed.

(** A lookup finds a range whenever one of its direction covers the tick. *)
Lemma get_range_for_tick_complete s t direction x :
  x ∈ sn_ranges (sn s) -> lr_direction x = direction -> covers x t = true ->
  is_Some (get_range_for_tick s t direction).
Proof.
  intros Hx Hd Hc. unfold get_range_for_tick. apply fmap_is_Some. unfold find_range.
  destruct (List.find _ _) eqn:E; [done |].
  apply list_elem_of_lookup_1 in Hx as [i Hi].
  pose proof (List.find_none _ _ E (i, x)) as Hn. simpl in Hn. rewrite Hc in Hn. exfalso.
  assert (In (i, x) (List.filter (fun p => Bool.eqb (lr_direction p.2) direction)
                       (imap pair (sn_ranges (sn s))))) as Hin; [| by specialize (Hn Hin)].
  rewrite <- list_elem_of_In. apply list_filter_in. split.
  - apply (list_elem_of_lookup_2 _ i). by rewrite list_lookup_imap, Hi.
  - by apply eqb_true_iff.
Qed.

(** Moving to the next range moves past the end of the current one. *)
Lemma lr_next_progress {P : Profile} r d r' :
  lr_next r d = Ok (Some r') -> i_min 32 < lr_lower_tick (range r) <= i_max 32 ->
  pool_snap r' = pool_snap r /\ sn_ranges (sn (pool_snap r)) !! range_idx r' = Some (range r') /\
  lr_direction (range r') = negb (dir_is_bid d) /\
  match d with
  | BuyingT0 => lr_upper_tick (range r) < lr_upper_tick (range r')
  | SellingT0 => lr_lower_tick (range r') < lr_lower_tick (range r)
  end.
Proof.
  intros H Hl. destruct d; simpl in H.
  - injection H as H. apply get_range_for_tick_spec in H as (E & Hi & _ & Hd & Hc).
    apply covers_spec in Hc. split_and!; naive_solver lia.
  - rewrite checked_i_Ok in H by lia. simpl in H. injection H as H.
    apply get_range_for_tick_spec in H as (E & Hi & _ & Hd & Hc).
    apply covers_spec in Hc. split_and!; naive_solver lia.
Qed.

(** The walk between two ticks visits exactly the ranges of its direction that
    meet the interval, each under its own index. *)
Lemma ranges_for_ticks_spec s a b r :
  r ∈ ranges_for_ticks s a b <->
  sn_ranges (sn s) !! range_idx r = Some (range r) /\ r = range_ref s (range_idx r, range r) /\
  lr_direction (range r) = (b <=? a) /\
  Z.min a b < lr_upper_tick (range r) /\ lr_lower_tick (range r) <= Z.max a b.
Proof.
  unfold ranges_for_ticks.
  assert (E : low_to_high a b = (Z.min a b, Z.max a b)).
  { unfold low_to_high. destruct (Z.compare_spec a b); f_equal; lia. }
  rewrite E. transitivity (r ∈ map (range_ref s)
    (List.filter (fun p => (Z.min a b <? lr_upper_tick p.2) && (lr_lower_tick p.2 <=? Z.max a b))
      (List.filter (fun p => Bool.eqb (lr_direction p.2) (b <=? a)) (imap pair (sn_ranges (sn s)))))).
  { destruct (b <? a); [by rewrite elem_of_reverse | done]. }
  rewrite (list_elem_of_fmap (range_ref s)). split.
  - intros ([i x] & -> & Hin). apply list_filter_in in Hin as [Hin Hb].
    apply list_filter_in in Hin as [Hin Hd]. apply eqb_prop in Hd.
    apply andb_true_iff in Hb as [Hb1%Z.ltb_lt Hb2%Z.leb_le].
    apply list_elem_of_lookup_1 in Hin as [j Hj]. apply list_lookup_imap_Some in Hj as (y & Hy & Ey).
    injection Ey as -> ->. done.
  - intros (Hi & -> & Hd & Hb1 & Hb2). exists (range_idx r, range r). split; [done |].
    apply list_filter_in. split; [apply list_filter_in; split |].
    + apply (list_elem_of_lookup_2 _ (range_idx r)). by rewrite list_lookup_imap, Hi.
    + by apply eqb_true_iff.
    + apply andb_true_iff. by rewrite Z.ltb_lt, Z.leb_le.
Qed.

(** ** A pool with a single position (matching-engine/src/simulation/amm.rs) *)

(** [middle_tick - width] and [middle_tick + width] are native [i32]. *)
Definition single_position_amm {P : Profile} `{UniswapMath} (middle_tick width liquidity : Z) :
    M (option PoolSnapshot) :=
  let* r := expect_ok (get_sqrt_ratio_at_tick middle_tick) in
  let* amm_price := SqrtPriceX96.from_u256 r in
  let* lower_tick := checked_i 32 (middle_tick - width) in
  let* upper_tick := checked_i 32 (middle_tick + width) in
  let* bid := expect_ok (LiqRange_new_init lower_tick upper_tick liquidity 0 false) in
  let* ask := expect_ok (LiqRange_new_init lower_tick upper_tick liquidity 0 true) in
  match PoolSnapshot_new width [bid; ask] amm_price 0 with
  | Ok s => Ok (Some s)
  | Err _ => Ok None
  | Panic => Panic
  end.

(** ** Properties *)

(** A pool snapshot that could be built is well-formed: it holds exactly the
    given ranges, sorted by lower tick; asking for the current price cannot
    panic and yields, for either direction, the pool's price and tick in a
    range of that direction that covers the tick; and looking the same price up
    again finds such a range as well. *)
Theorem snapshot_well_formed (U : UniswapMath) spacing ranges price fee s addr direction :
  PoolSnapshot_new spacing ranges price fee = Ok s ->
  snapshot_wf s /\ sn_ranges s ≡ₚ ranges /\
  (exists p, sn_current_price (mkSnapRef addr s) direction = Ok p /\
     get_tick_at_sqrt_ratio price = Ok (pp_tick p) /\ pp_price p = price /\
     lr_direction (range (liq_range p)) = direction /\
     covers (range (liq_range p)) (pp_tick p) = true) /\
  (exists p, at_price (mkSnapRef addr s) price direction = Ok p /\
     get_tick_at_sqrt_ratio price = Ok (pp_tick p) /\ pp_price p = price /\
     lr_direction (range (liq_range p)) = direction /\
     covers (range (liq_range p)) (pp_tick p) = true).
Proof.
  intros H. apply snapshot_new_wf in H as (Hwf & Hp & Ht & Hs).
  split; [done |]. split; [done |].
  destruct (current_price_Ok (mkSnapRef addr s) direction Hwf) as (p & Hc & Et & Ep & Hd & Hcov).
  split.
  - exists p. rewrite Hc, Et, Ep. simpl. rewrite Et in Hcov. done.
  - unfold at_price, SqrtPriceX96.to_tick. rewrite Ht. simpl.
    assert (exists r, r ∈ sn_ranges s /\ lr_direction r = direction /\
              covers r (sn_current_tick s) = true) as (r & Hr & Hrd & Hrc).
    { destruct Hwf as [_ (ra & Ha & Hda & Hca) (rb & Hb & Hdb & Hcb) _].
      destruct direction; [exists ra | exists rb]; (split; [by eapply list_elem_of_lookup_2 | done]). }
    destruct (get_range_for_tick_complete (mkSnapRef addr s) (sn_current_tick s) direction r)
      as [x Hx]; [done .. |].
    rewrite Hx. apply get_range_for_tick_spec in Hx as (_ & _ & _ & Hxd & Hxc).
    eexists. split; [done |]. done.
Qed.

Definition demo_snapshot : PoolSnapshot :=
  match @single_position_amm dev linear_math 5 100 1000 with
  | Ok (Some s) => s
  | _ => mkPoolSnapshot [] 0 0 0 0 0 0
  end.

Lemma snapshot_well_formed_witness :
  exists p, sn_current_price (mkSnapRef 77 demo_snapshot) true = Ok p /\ pp_tick p = 5 /\
    snapshot_wf demo_snapshot.
Proof.
  destruct (snapshot_well_formed linear_math 100
              [mkLiqRange (-95) 105 1000 false true 0 false; mkLiqRange (-95) 105 1000 false true 0 true]
              (10 ^ 7 + 5) 0 demo_snapshot 77 true) as (Hwf & _ & (p & Hp & Ht & _) & _).
  - vm_compute. reflexivity.
  - exists p. split; [exact Hp |]. split; [| exact Hwf]. vm_compute in Ht. by injection Ht.
Defined.
