(* ===== verification/PoolPriceVec.v ===== *)
(** * Price vectors over a pool snapshot

    crates/types/src/matching/uniswap/{poolprice,poolpricevec,donationresult}.rs
    and [RewardsUpdate::from_data] of contract_payloads/rewards.rs: moving a
    price through the ranges of a snapshot, the swap steps of such a move, and
    the donation of a reward to the ranges it crossed. *)

From S2P Require Import Prelude Uniswap Ray MatchMath Donation PoolSwap Debt PoolSnapshot.

(** [sqrt_price_math] of the crate uniswap_v3_math: prices, liquidity, whether
    to round up; the amount of the token. *)
Class SqrtPriceMath := {
  get_amount_0_delta : Z -> Z -> Z -> bool -> M Z;
  get_amount_1_delta : Z -> Z -> Z -> bool -> M Z;
}.

(** ** Swap steps *)

Record SwapStep := mkSwapStep {
  sw_start_price : Z;
  sw_end_price : Z;
  sw_d_t0 : Z;
  sw_d_t1 : Z;
  sw_liq_range : LiqRangeRef;
}.

Record PoolPriceVec := mkPoolPriceVec {
  pv_start_bound : PoolPrice;
  pv_end_bound : PoolPrice;
  pv_d_t0 : Z;
  pv_d_t1 : Z;
  pv_steps : option (list SwapStep);
  pv_fee : Z;
}.

(** [Result::unwrap_or]. *)
Definition unwrap_or {A} (m : M A) (a : A) : M A :=
  match m with Ok x => Ok x | Err _ => Ok a | Panic => Panic end.

Section Steps.
Context {P : Profile} {U : UniswapMath} {S : SqrtPriceMath}.

Definition compute_info (start_price end_price : Z) (r : LiqRangeRef) : M SwapStep :=
  let (low_price, high_price) := low_to_high start_price end_price in
  let* low_price_valid := price_in_range r low_price in
  let* high_in_range := price_in_range r high_price in
  let* high_price_valid :=
    if (high_in_range : bool) then Ok true
    else
      let* top := expect_ok (SqrtPriceX96.at_tick (lr_upper_tick (range r))) in
      Ok (high_price =? top) in
  if negb (low_price_valid && high_price_valid) then Err "Price outside liquidity range" else
  let liquidity := lr_liquidity (range r) in
  let (round_0, round_1) :=
    match from_prices start_price end_price with
    | BuyingT0 => (false, true)
    | SellingT0 => (true, false)
    end in
  let* a0 := unwrap_or (get_amount_0_delta start_price end_price liquidity round_0) 0 in
  let* d_t0 := uint_from 128 a0 in
  let* a1 := unwrap_or (get_amount_1_delta start_price end_price liquidity round_1) 0 in
  let* d_t1 := uint_from 128 a1 in
  Ok (mkSwapStep start_price end_price d_t0 d_t1 r).

Definition for_price_range (start end_ : Z) (r : LiqRangeRef) : M SwapStep :=
  let (low, high) := low_to_high start end_ in
  let* low_tick := SqrtPriceX96.to_tick low in
  let* high_tick := SqrtPriceX96.to_tick high in
  if (lr_upper_tick (range r) <=? low_tick) || (high_tick <? lr_lower_tick (range r))
  then Err "Ticks out of bounds, unable to construct step" else
  let* bounded_low :=
    if lr_lower_tick (range r) <=? low_tick then Ok low
    else SqrtPriceX96.at_tick (lr_lower_tick (range r)) in
  let* bounded_high :=
    if high_tick <? lr_upper_tick (range r) then Ok high
    else SqrtPriceX96.at_tick (lr_upper_tick (range r)) in
  if end_ <? start then compute_info bounded_high bounded_low r
  else compute_info bounded_low bounded_high r.

Definition for_range (start end_ : PoolPrice) (r : LiqRangeRef) : M SwapStep :=
  for_price_range (pp_price start) (pp_price end_) r.

Definition step_from_prices (start end_ : PoolPrice) : M SwapStep :=
  if negb (range_ref_eqb (liq_range start) (liq_range end_)) then
    Err "A SwapStep can only cover one liquidity range"
  else compute_info (pp_price start) (pp_price end_) (liq_range start).

Definition step_to_bound (start : PoolPrice) (d : Direction) : M SwapStep :=
  let* e := end_price (liq_range start) d in step_from_prices start e.

Definition step_whole_range (r : LiqRangeRef) (d : Direction) : M SwapStep :=
  let* s := start_price r d in
  let* e := end_price r d in
  step_from_prices s e.

Definition sw_empty (s : SwapStep) : bool := (sw_d_t0 s =? 0) || (sw_d_t1 s =? 0).

Definition sw_avg_price (s : SwapStep) : M (option Z) :=
  if sw_empty s then Ok None
  else let* p := Ray.calc_price (sw_d_t0 s) (sw_d_t1 s) in Ok (Some p).

Definition step_input (s : SwapStep) : Z :=
  if sw_start_price s <? sw_end_price s then sw_d_t1 s else sw_d_t0 s.

Definition step_output (s : SwapStep) : Z :=
  if sw_start_price s <? sw_end_price s then sw_d_t0 s else sw_d_t1 s.

(** ** Vectors *)

Definition from_steps (start end_ : PoolPrice) (steps : list SwapStep) : PoolPriceVec :=
  let (d_t0, d_t1) :=
    fold_left (fun acc step =>
        (saturating_add 128 acc.1 (sw_d_t0 step), saturating_add 128 acc.2 (sw_d_t1 step)))
      steps (0, 0) in
  mkPoolPriceVec start end_ d_t0 d_t1 (Some steps) (pp_fee start).

Definition from_price_range (start end_ : PoolPrice) : M PoolPriceVec :=
  if negb (sn_addr (pp_snapshot start) =? sn_addr (pp_snapshot end_)) then
    Err "Cannot create a price range from prices not in the same pool" else
  let* steps := M_map (for_range start end_)
                  (ranges_for_ticks (pp_snapshot start) (pp_tick start) (pp_tick end_)) in
  Ok (from_steps start end_ steps).

Definition PoolPriceVec_new (start end_ : PoolPrice) : M PoolPriceVec :=
  unwrap_or (from_price_range start end_) (mkPoolPriceVec start end_ 0 0 None (pp_fee start)).

Definition to_price_bound (start : PoolPrice) (end_x96 : Z) : M PoolPriceVec :=
  let is_ask := end_x96 <=? pp_price start in
  let* end_ := at_price (pp_snapshot start) end_x96 is_ask in
  from_price_range start end_.

Definition vec_zero_for_one (v : PoolPriceVec) : bool :=
  pp_price (pv_end_bound v) <? pp_price (pv_start_bound v).

Definition vec_input (v : PoolPriceVec) : Z := if vec_zero_for_one v then pv_d_t0 v else pv_d_t1 v.
Definition vec_output (v : PoolPriceVec) : Z := if vec_zero_for_one v then pv_d_t1 v else pv_d_t0 v.

(** Negative when the swap consumes the token. *)
Definition vec_t0_signed (v : PoolPriceVec) : Z := if vec_zero_for_one v then - pv_d_t0 v else pv_d_t0 v.
Definition vec_t1_signed (v : PoolPriceVec) : Z := if vec_zero_for_one v then pv_d_t1 v else - pv_d_t1 v.

Definition pv_snapshot (v : PoolPriceVec) : SnapRef := pp_snapshot (pv_start_bound v).

(** *** A swap of an exact amount *)

Record VecSwapState := mkVecSwapState {
  ws_total_in : Z;
  ws_total_out : Z;
  ws_price : Z;
  ws_range : option LiqRangeRef;
  ws_left : Z;
  ws_steps : list SwapStep;
}.

(** One iteration of the loop of [from_swap]; [saturating_to] cuts an amount to
    128 bits, [to] panics beyond them, sums of [U256] wrap. *)
Definition swap_iter (direction : Direction) (is_swap_input : bool) (fee_pips : Z) (s : VecSwapState) :
    M VecSwapState :=
  let* r := ok_or (ws_range s) "Unable to find next liquidity range" in
  let* target_price := SqrtPriceX96.at_tick (lr_end_tick r direction) in
  if target_price =? ws_price s then
    let* n := lr_next r direction in
    Ok (mkVecSwapState (ws_total_in s) (ws_total_out s) (ws_price s) n (ws_left s)
          (ws_steps s ++ [mkSwapStep (ws_price s) target_price 0 0 r]))
  else
  let amount_remaining := if is_swap_input then ws_left s else - ws_left s in
  let* (fin_price, amount_in, amount_out, amount_fee) :=
    compute_swap_step (ws_price s) target_price (lr_liquidity (range r)) amount_remaining fee_pips in
  let left_to_swap :=
    if is_swap_input then
      saturating_sub (saturating_sub (ws_left s) (saturate_u 128 amount_in)) (saturate_u 128 amount_fee)
    else saturating_sub (ws_left s) (saturate_u 128 amount_out) in
  let total_in := uint_add 256 (uint_add 256 (ws_total_in s) amount_in) amount_fee in
  let total_out := uint_add 256 (ws_total_out s) amount_out in
  let* a_in := uint_from 128 amount_in in
  let* a_out := uint_from 128 amount_out in
  let (d_t0, d_t1) := sort_tokens direction a_in a_out in
  let* fin := SqrtPriceX96.from_u256 fin_price in
  let* n := lr_next r direction in
  Ok (mkVecSwapState total_in total_out fin n left_to_swap
        (ws_steps s ++ [mkSwapStep (ws_price s) fin d_t0 d_t1 r])).

Fixpoint from_swap_loop (fuel : nat) (direction : Direction) (is_swap_input : bool) (fee_pips : Z)
    (s : VecSwapState) : option (M VecSwapState) :=
  if ws_left s <=? 0 then Some (Ok s) else
  match fuel with
  | O => None
  | Datatypes.S fuel =>
      match swap_iter direction is_swap_input fee_pips s with
      | Ok s' => from_swap_loop fuel direction is_swap_input fee_pips s'
      | Err e => Some (Err e)
      | Panic => Some Panic
      end
  end.

(** The ranges are left one after the other, so one iteration per range and one
    for the range of the start are enough. *)
Definition walk_fuel (s : SnapRef) : nat := Datatypes.S (Datatypes.S (length (sn_ranges (sn s)))).

Definition swap_start (start : PoolPrice) (quantity : Quantity) : VecSwapState :=
  mkVecSwapState 0 0 (pp_price start) (Some (liq_range start)) (magnitude quantity) [].

(** The [assert_eq!] panics. *)
Definition from_swap (start : PoolPrice) (direction : Direction) (quantity : Quantity) :
    M PoolPriceVec :=
  let is_swap_input := is_input direction quantity in
  if negb (Bool.eqb (negb (dir_is_bid direction)) (pp_direction start)) then Panic else
  match from_swap_loop (walk_fuel (pp_snapshot start)) direction is_swap_input (pp_fee start)
          (swap_start start quantity) with
  | None => Panic
  | Some m =>
      let* s := m in
      let* t_in := uint_from 128 (ws_total_in s) in
      let* t_out := uint_from 128 (ws_total_out s) in
      let (d_t0, d_t1) := sort_tokens direction t_in t_out in
      let* end_bound := at_price (pp_snapshot start) (ws_price s) (pp_direction start) in
      Ok (mkPoolPriceVec start end_bound d_t0 d_t1 (Some (ws_steps s)) (pp_fee start))
  end.

(** [Add<Quantity>] and [Sub<Quantity>] of [PoolPrice]. *)
Definition price_add (p : PoolPrice) (q : Quantity) : M PoolPriceVec := from_swap p (as_input q) q.
Definition price_sub (p : PoolPrice) (q : Quantity) : M PoolPriceVec := from_swap p (as_output q) q.

(** ** Moving a price by an amount of T0 *)

Record MoveState := mkMoveState {
  mv_price : Z;
  mv_active : option LiqRangeRef;
  mv_quantity : Z;
}.

Definition d_t0_iter (self : PoolPrice) (direction : Direction) (s : MoveState) : M MoveState :=
  let* r :=
    match mv_active s with
    | Some lqr =>
        let* n := lr_next lqr direction in
        ok_or n "Unable to find liquidity ranges that span the whole transaction"
    | None => Ok (liq_range self)
    end in
  let* amount_remaining :=
    match direction with
    | BuyingT0 => i256_mul (wrap_i 256 (mv_quantity s)) (-1)
    | SellingT0 => Ok (wrap_i 256 (mv_quantity s))
    end in
  let* target := end_price r direction in
  let* (new_price, amount_in, amount_out, _) :=
    compute_swap_step (mv_price s) (pp_price target) (lr_liquidity (range r)) amount_remaining 0 in
  let used := match direction with BuyingT0 => amount_out | SellingT0 => amount_in end in
  if negb (new_price =? pp_price target) && (used <? mv_quantity s) then Err "Bad stuff" else
  Ok (mkMoveState new_price (Some r) (uint_sub 256 (mv_quantity s) used)).

Fixpoint d_t0_loop (fuel : nat) (self : PoolPrice) (direction : Direction) (s : MoveState) :
    option (M MoveState) :=
  if mv_quantity s <=? 0 then Some (Ok s) else
  match fuel with
  | O => None
  | Datatypes.S fuel =>
      match d_t0_iter self direction s with
      | Ok s' => d_t0_loop fuel self direction s'
      | Err e => Some (Err e)
      | Panic => Some Panic
      end
  end.

Definition d_t0 (self : PoolPrice) (quantity : Z) (direction : Direction) : M PoolPrice :=
  if quantity =? 0 then Ok self else
  match d_t0_loop (walk_fuel (pp_snapshot self)) self direction
          (mkMoveState (pp_price self) None quantity) with
  | None => Panic
  | Some m =>
      let* s := m in
      let* price := SqrtPriceX96.from_u256 (mv_price s) in
      let* tick := SqrtPriceX96.to_tick price in
      let* r := ok_or (mv_active s) "Somehow have no active liquidity range" in
      PoolPrice_checked_new r price tick (pp_fee self) (pp_direction self)
  end.

Definition vec_to (self : PoolPrice) (end_price : Z) : M PoolPriceVec := to_price_bound self end_price.

Definition to_liq_range_upper (self : PoolPrice) : M PoolPriceVec :=
  let* e :=
    match get_range_for_tick (pp_snapshot self) (lr_upper_tick (range (liq_range self)))
            (pp_direction self) with
    | Some r => start_price r BuyingT0
    | None => end_price (liq_range self) BuyingT0
    end in
  from_price_range self e.

(** The recursion goes from a range to the one above it. *)
Fixpoint intersect_with_debt (fuel : nat) (self : PoolPrice) (debt : Debt) : option (M Z) :=
  match fuel with
  | O => None
  | Datatypes.S fuel =>
      match (let* ray := pp_as_ray self in
             let* valid := valid_for_price debt ray in
             if (valid : bool) then Ok (inl 0) else
             let* vec_to_upper := to_liq_range_upper self in
             let next_range_start := pv_end_bound vec_to_upper in
             let* solve := price_intersect_solve (pp_liquidity self) (pp_price self)
                             (debt_magnitude debt) (cur_price debt) BuyingT0 in
             let step := resolve_precision 192 solve RFloor in
             if step <? pv_d_t0 vec_to_upper then Ok (inl step) else
             let* new_debt := debt_partial_fill debt step in
             Ok (inr (step, next_range_start, new_debt))) with
      | Ok (inl q) => Some (Ok q)
      | Ok (inr (step, next_range_start, new_debt)) =>
          if negb (lr_lower_tick (range (liq_range next_range_start)) =?
                   lr_lower_tick (range (liq_range self))) then
            match intersect_with_debt fuel next_range_start new_debt with
            | None => None
            | Some m => Some (let* recurse := m in u128_add step recurse)
            end
          else Some (u128_add step 0)
      | Err e => Some (Err e)
      | Panic => Some Panic
      end
  end.

(** A range to the closer of the target price and the bound of the range. *)
Definition order_to_target (self : PoolPrice) (target_price : option Z) (buy : bool) :
    M (option PoolPriceVec) :=
  let wrong_side :=
    match target_price with
    | Some p => if buy then p <=? pp_price self else pp_price self <=? p
    | None => false
    end in
  let ratio (tick : Z) : M (option Z) :=
    match get_sqrt_ratio_at_tick tick with
    | Ok r => let* x := SqrtPriceX96.from_u256 r in Ok (Some x)
    | Err _ => Ok None
    | Panic => Panic
    end in
  let bound (r : LiqRange) : M (option Z) :=
    if buy then ratio (lr_upper_tick r) else ratio (lr_lower_tick r) in
  if wrong_side then Ok None else
  let r := liq_range self in
  let* first := bound (range r) in
  match first with
  | None => Ok None
  | Some tick_bound_price =>
      let next_tick :=
        if buy then match range_idx r with O => None | Datatypes.S n => Some n end
        else Some (Datatypes.S (range_idx r)) in
      let* found :=
        if pp_price self =? tick_bound_price then
          match next_tick with
          | None => Ok None
          | Some n =>
              match sn_ranges (sn (pool_snap r)) !! n with
              | None => Ok None
              | Some pool =>
                  let* b := bound pool in
                  Ok ((fun x => (range_ref (pool_snap r) (n, pool), x)) <$> b)
              end
          end
        else Ok (Some (r, tick_bound_price)) in
      match found with
      | None => Ok None
      | Some (pool, tick_bound_price) =>
          let closest_price :=
            match target_price with
            | Some p => if buy then Z.min p tick_bound_price else Z.max p tick_bound_price
            | None => tick_bound_price
            end in
          match get_tick_at_sqrt_ratio closest_price with
          | Ok t =>
              let end_bound := mkPoolPrice pool t closest_price (pp_fee self) false in
              let* v := PoolPriceVec_new self end_bound in Ok (Some v)
          | Err _ => Ok None
          | Panic => Panic
          end
      end
  end.

(** [PartialOrd<PoolPrice> for Debt]. *)
Definition debt_cmp_pool (d : Debt) (p : PoolPrice) : M comparison :=
  let* r := pp_as_ray p in debt_partial_cmp d r.

End Steps.

(** ** Donations (poolpricevec.rs, donationresult.rs)

    The hash map from range bounds to donations is a [gmap]. *)

Record DonationResult := mkDonationResult {
  dr_current_tick : Z;
  dr_tick_donations : gmap (Z * Z) (bool * Z);
  dr_final_price : Z;
  dr_total_donated : Z;
}.

Definition step_initialized (s : SwapStep) : bool := lr_is_initialized (range (sw_liq_range s)).

Section VecDonation.
Context {P : Profile}.

(** The first loop of [t0_donation]: merge steps into a blob with one average
    price while the donation lasts. *)
Fixpoint vec_blob_loop (price_dropping : bool) (remaining_donation : Z) (blob : option (Z * Z))
    (steps : list SwapStep) : M (Z * option (Z * Z)) :=
  match steps with
  | [] => Ok (remaining_donation, blob)
  | step :: steps =>
      match blob with
      | None =>
          vec_blob_loop price_dropping remaining_donation (Some (sw_d_t0 step, sw_d_t1 step)) steps
      | Some (c_t0, c_t1) =>
          let* avg := sw_avg_price step in
          let* target_price := unwrap avg in
          let* target_t0 := Ray.inverse_quantity target_price c_t1 price_dropping in
          let step_cost := Z.abs (c_t0 - target_t0) in
          let step_complete := step_cost <=? remaining_donation in
          let increment := Z.min remaining_donation step_cost in
          let* c_t0 := if price_dropping then u128_add c_t0 increment
                       else Ok (saturating_sub c_t0 increment) in
          let* remaining_donation := u128_sub remaining_donation increment in
          if step_complete then
            let* c_t0 := u128_add c_t0 (sw_d_t0 step) in
            let* c_t1 := u128_add c_t1 (sw_d_t1 step) in
            vec_blob_loop price_dropping remaining_donation (Some (c_t0, c_t1)) steps
          else Ok (remaining_donation, Some (c_t0, c_t1))
      end
  end.

(** What is left over goes to the blob. *)
Definition vec_finish_blob (price_dropping : bool) (remaining : Z) (blob : option (Z * Z)) :
    M (option (Z * Z)) :=
  match blob with
  | None => Ok None
  | Some (c_t0, c_t1) =>
      if price_dropping then let* c := u128_add c_t0 remaining in Ok (Some (c, c_t1))
      else
        let c := saturating_sub c_t0 remaining in
        let c := if c =? 0 then c + 1 else c in
        Ok (Some (c, c_t1))
  end.

Definition step_reward (price_dropping : bool) (filled_price : option Z) (remaining : Z)
    (step : SwapStep) : M Z :=
  match filled_price with
  | Some f =>
      let* target_t0 := Ray.inverse_quantity f (sw_d_t1 step) price_dropping in
      Ok (if price_dropping then Z.min remaining (saturating_sub target_t0 (sw_d_t0 step))
          else Z.min remaining (saturating_sub (sw_d_t0 step) target_t0))
  | None => Ok 0
  end.

(** The second pass: remaining donation, total donated, and the donations so
    far; a later step with the same bounds replaces an earlier one. *)
Definition donate_step (price_dropping : bool) (filled_price : option Z)
    (acc : Z * Z * gmap (Z * Z) (bool * Z)) (step : SwapStep) :
    M (Z * Z * gmap (Z * Z) (bool * Z)) :=
  let '(remaining, total, m) := acc in
  let* reward := step_reward price_dropping filled_price remaining step in
  let* remaining := u128_sub remaining reward in
  let* total := u128_add total reward in
  let r := range (sw_liq_range step) in
  Ok (remaining, total, <[(lr_lower_tick r, lr_upper_tick r) := (true, reward)]> m).

(** The average price of the blob once the whole donation is spent on it. *)
Definition vec_filled_price (price_dropping : bool) (total_donation : Z) (steps : list SwapStep) :
    M (option Z) :=
  let* (remaining, blob) := vec_blob_loop price_dropping total_donation None steps in
  let* blob := vec_finish_blob price_dropping remaining blob in
  match blob with
  | Some (t0, t1) => let* p := Ray.calc_price_generic t0 t1 (negb price_dropping) in Ok (Some p)
  | None => Ok None
  end.

Definition t0_donation (v : PoolPriceVec) (total_donation : Z) : M DonationResult :=
  match pv_steps v with
  | None => Ok (mkDonationResult total_donation ∅ (pp_price (pv_end_bound v)) total_donation)
  | Some steps =>
      let price_dropping := pp_price (pv_end_bound v) <? pp_price (pv_start_bound v) in
      let* filled_price :=
        vec_filled_price price_dropping total_donation
          (List.filter (fun s => negb (sw_empty s) && step_initialized s) steps) in
      let* (remaining, total, donations) :=
        M_fold (donate_step price_dropping filled_price) (total_donation, 0, ∅)
          (List.filter step_initialized steps) in
      let* final_price :=
        match filled_price with
        | Some p => SqrtPriceX96.from_ray p
        | None => Ok (pp_price (pv_end_bound v))
        end in
      Ok (mkDonationResult remaining donations final_price total)
  end.

(** *** Results of donations *)

(** Sorting the keys of the map by lower tick; the order of keys with the same
    lower tick follows the iteration of the map. *)
Definition sorted_ranges (m : gmap (Z * Z) (bool * Z)) : list (Z * Z) :=
  sort_by (fun a b => a.1 ?= b.1) (map fst (map_to_list m)).

Fixpoint contiguous (l : list (Z * Z)) : bool :=
  match l with
  | a :: (b :: _) as l' => (a.2 =? b.1) && contiguous l'
  | _ => true
  end.

Definition add_donation (m : gmap (Z * Z) (bool * Z)) (kv : (Z * Z) * (bool * Z)) :
    M (gmap (Z * Z) (bool * Z)) :=
  match m !! kv.1 with
  | Some (b, e) => let* e := u128_add e kv.2.2 in Ok (<[kv.1 := (b, e)]> m)
  | None => Ok (<[kv.1 := kv.2]> m)
  end.

Definition combine (self rhs : DonationResult) : M DonationResult :=
  let* tick_donations :=
    M_fold add_donation ∅
      (map_to_list (dr_tick_donations self) ++ map_to_list (dr_tick_donations rhs)) in
  if negb (contiguous (sorted_ranges tick_donations)) then
    Err "Does not still cover a contiguous range" else
  let* total_donated := u128_add (dr_total_donated self) (dr_total_donated rhs) in
  let* current_tick := u128_add (dr_current_tick self) (dr_current_tick rhs) in
  Ok (mkDonationResult current_tick tick_donations (dr_final_price self) total_donated).

Definition low_tick (d : DonationResult) : option Z :=
  match map (fun kv => kv.1.1) (map_to_list (dr_tick_donations d)) with
  | [] => None
  | x :: l => Some (fold_left Z.min l x)
  end.

Definition high_tick (d : DonationResult) : option Z :=
  match map (fun kv => kv.1.2) (map_to_list (dr_tick_donations d)) with
  | [] => None
  | x :: l => Some (fold_left Z.max l x)
  end.

Definition get_total_donated (d : DonationResult) : Z :=
  if bool_decide (dr_tick_donations d = ∅) then dr_current_tick d else dr_total_donated d.

(** Indexing the first range panics without ranges. *)
Definition far_tick (d : DonationResult) (start_tick : Z) : M (option Z) :=
  match sorted_ranges (dr_tick_donations d) with
  | [] => Panic
  | [r] => Ok (Some r.1)
  | first :: _ as all_ranges =>
      if (first.1 <=? start_tick) && (start_tick <? first.2) then Ok (fst <$> List.last (map Some all_ranges) None)
      else match List.last (map Some all_ranges) None with
           | Some last =>
               if (last.1 <=? start_tick) && (start_tick <? last.2) then Ok (Some first.1) else Ok None
           | None => Ok None
           end
  end.

(** Does the range [k] meet the ticks between [low] and [high]? *)
Definition within_vec (low high : Z) (k : Z * Z) : bool := (low <? k.2) && (k.1 <=? high).

Definition donate_and_remainder (d : DonationResult) (net_swap : PoolPriceVec) :
    DonationResult * option DonationResult :=
  let (low, high) := low_to_high (pp_tick (pv_start_bound net_swap)) (pp_tick (pv_end_bound net_swap)) in
  let live := filter (fun kv => kv.2.1 = true) (dr_tick_donations d) in
  let within := filter (fun kv => within_vec low high kv.1 = true) live in
  let outside := filter (fun kv => within_vec low high kv.1 = false) live in
  let second_swap :=
    if bool_decide (outside = ∅) then None else
    let r := range (liq_range (pv_end_bound net_swap)) in
    Some (mkDonationResult 0 (<[(lr_lower_tick r, lr_upper_tick r) := (true, 0)]> outside)
            (dr_final_price d) (dr_total_donated d)) in
  (mkDonationResult (dr_current_tick d) within (dr_final_price d) (dr_total_donated d), second_swap).

(** ** Reward updates from donations (rewards.rs) *)

Context {K : Keccak}.

Definition from_data (current_tick bound_tick : Z) (snapshot : SnapRef) (d : DonationResult) :
    M RewardsUpdate :=
  let from_above := current_tick <? bound_tick in
  let (low, high) := if from_above then (current_tick, bound_tick) else (bound_tick, current_tick) in
  let quantities :=
    map (fun kv => kv.2.2)
      (List.filter (fun kv => kv.2.1)
        (sort_by (fun a b => if from_above then b.1.1 ?= a.1.1 else a.1.1 ?= b.1.1)
          (List.filter (fun kv => within_vec low high kv.1) (map_to_list (dr_tick_donations d))))) in
  let (start_tick, start_liquidity) :=
    match get_range_for_tick snapshot bound_tick from_above with
    | Some r => (if from_above then lr_lower_tick (range r) else lr_upper_tick (range r),
                 lr_liquidity (range r))
    | None => (0, 0)
    end in
  match quantities with
  | [] => Ok (CurrentOnly (dr_current_tick d) start_liquidity)
  | [q] => Ok (CurrentOnly q start_liquidity)
  | _ =>
      let* reward_checksum := checksum_from_ticks snapshot bound_tick current_tick in
      Ok (MultiTick (if fits_i 24 start_tick then start_tick else 0) start_liquidity quantities
            reward_checksum)
  end.

Definition rewards_from_vec (pricevec : PoolPriceVec) (total_donation : Z) : M RewardsUpdate :=
  let* d := t0_donation pricevec total_donation in
  from_data (pp_tick (pv_start_bound pricevec)) (pp_tick (pv_end_bound pricevec))
    (pv_snapshot pricevec) d.

End VecDonation.

(** ** Lemmas: the walk through the ranges *)

#[global] Arguments walk_fuel : simpl never.

(** The tick the walk leaves a range at, growing in its direction. *)
Definition exit_key (d : Direction) (r : LiqRange) : Z :=
  match d with BuyingT0 => lr_upper_tick r | SellingT0 => - lr_lower_tick r end.

(** How many ranges of the snapshot end further on. *)
Definition ahead (d : Direction) (r : LiqRangeRef) : nat :=
  length (List.filter (fun x => exit_key d (range r) <? exit_key d x) (sn_ranges (sn (pool_snap r)))).

Lemma filter_length_mono {A} (f g : A -> bool) l :
  (forall x, f x = true -> g x = true) -> (length (List.filter f l) <= length (List.filter g l))%nat.
Proof.
  intros H. induction l as [| x l IH]; simpl; [done |].
  destruct (f x) eqn:E; [rewrite (H x E); simpl; lia | destruct (g x); simpl; lia].
Qed.

Lemma filter_length_strict {A} (f g : A -> bool) l y :
  (forall x, f x = true -> g x = true) -> y ∈ l -> f y = false -> g y = true ->
  (length (List.filter f l) < length (List.filter g l))%nat.
Proof.
  intros H Hy Hf Hg. induction l as [| x l IH]; [by apply not_elem_of_nil in Hy |].
  simpl. apply elem_of_cons in Hy as [<- | Hy].
  - rewrite Hf, Hg. simpl. pose proof (filter_length_mono f g l H). lia.
  - specialize (IH Hy). destruct (f x) eqn:E; [rewrite (H x E); simpl; lia |].
    destruct (g x); simpl; lia.
Qed.

Lemma ahead_lt d r r' :
  pool_snap r' = pool_snap r -> range r' ∈ sn_ranges (sn (pool_snap r)) ->
  exit_key d (range r) < exit_key d (range r') -> (ahead d r' < ahead d r)%nat.
Proof.
  intros E Hin Hlt. unfold ahead. rewrite E. apply (filter_length_strict _ _ _ (range r')).
  - intros x. rewrite !Z.ltb_lt. lia.
  - done.
  - apply Z.ltb_ge. lia.
  - by apply Z.ltb_lt.
Qed.

Lemma ahead_le d r : (ahead d r <= length (sn_ranges (sn (pool_snap r))))%nat.
Proof.
  unfold ahead. set (l := sn_ranges _). clearbody l. induction l as [| x l IH]; simpl; [done |].
  destruct (_ <? _); simpl; lia.
Qed.

(** Ticks fit the [i32] the code computes the next tick in. *)
Definition ticks_i32 (r : LiqRangeRef) : Prop :=
  i_min 32 < lr_lower_tick (range r) <= i_max 32 /\
  Forall (fun x => i_min 32 < lr_lower_tick x <= i_max 32) (sn_ranges (sn (pool_snap r))).

Section Walks.
Context {P : Profile} {U : UniswapMath} {S : SqrtPriceMath}.

Lemma lr_next_ahead r d r' :
  ticks_i32 r -> lr_next r d = Ok (Some r') ->
  (ahead d r' < ahead d r)%nat /\ ticks_i32 r' /\ pool_snap r' = pool_snap r.
Proof.
  intros [Hr Hall] H. apply lr_next_progress in H as (E & Hi & _ & Hk); [| done].
  apply list_elem_of_lookup_2 in Hi. split; [| split; [| done]].
  - apply ahead_lt; [done | done |]. destruct d; simpl; lia.
  - split; [| by rewrite E]. rewrite Forall_forall in Hall. by apply Hall.
Qed.

(** One iteration of a swap leaves its range for the next one. *)
Lemma swap_iter_next d inp fee s s' :
  swap_iter d inp fee s = Ok s' ->
  exists r, ws_range s = Some r /\ lr_next r d = Ok (ws_range s').
Proof.
  unfold swap_iter. intros H. apply M_bind_Ok in H as (r & Hr & H).
  destruct (ws_range s) as [r0 |]; [| done]. injection Hr as ->. exists r. split; [done |].
  apply M_bind_Ok in H as (t & _ & H). destruct (t =? ws_price s).
  - apply M_bind_Ok in H as (n & Hn & H). by injection H as <-.
  - apply M_bind_Ok in H as ([[[p i] o] f] & _ & H).
    apply M_bind_Ok in H as (a & _ & H). apply M_bind_Ok in H as (b & _ & H).
    destruct (sort_tokens d a b) as [t0 t1].
    apply M_bind_Ok in H as (fin & _ & H). apply M_bind_Ok in H as (n & Hn & H). by injection H as <-.
Qed.

Definition swap_measure (d : Direction) (s : VecSwapState) : nat :=
  match ws_range s with None => O | Some r => Datatypes.S (ahead d r) end.

Lemma from_swap_loop_total d inp fee fuel s :
  (forall r, ws_range s = Some r -> ticks_i32 r) -> (swap_measure d s < fuel)%nat ->
  from_swap_loop fuel d inp fee s <> None.
Proof.
  revert s. induction fuel as [| fuel IH]; intros s Ht Hm; [lia |]. simpl.
  destruct (ws_left s <=? 0); [done |].
  destruct (swap_iter d inp fee s) as [s' | |] eqn:E; [| done | done].
  apply swap_iter_next in E as (r & Hr & Hn). specialize (Ht r Hr).
  apply IH; unfold swap_measure in *; rewrite Hr in Hm.
  - intros r' Hr'. rewrite Hr' in Hn. by apply lr_next_ahead in Hn as (_ & ? & _).
  - destruct (ws_range s') as [r' |]; [| lia]. apply lr_next_ahead in Hn as (? & _); [lia | done].
Qed.

Lemma d_t0_iter_next self d s s' :
  d_t0_iter self d s = Ok s' ->
  exists r, mv_active s' = Some r /\
    match mv_active s with None => r = liq_range self | Some a => lr_next a d = Ok (Some r) end.
Proof.
  unfold d_t0_iter. intros H. apply M_bind_Ok in H as (r & Hr & H).
  apply M_bind_Ok in H as (a & _ & H). apply M_bind_Ok in H as (t & _ & H).
  apply M_bind_Ok in H as ([[[p i] o] f] & _ & H). cbv zeta in H.
  match type of H with (if ?c then _ else _) = _ => destruct c; [done |] end.
  injection H as <-. exists r. split; [done |]. destruct (mv_active s) as [x |].
  - apply M_bind_Ok in Hr as (n & -> & Hn). destruct n; [| done]. by injection Hn as ->.
  - by injection Hr.
Qed.

Definition move_measure (self : PoolPrice) (d : Direction) (s : MoveState) : nat :=
  match mv_active s with
  | None => Datatypes.S (ahead d (liq_range self))
  | Some r => ahead d r
  end.

Lemma d_t0_loop_total self d fuel s :
  ticks_i32 (liq_range self) -> (forall r, mv_active s = Some r -> ticks_i32 r) ->
  (move_measure self d s < fuel)%nat ->
  d_t0_loop fuel self d s <> None.
Proof.
  intros Hself. revert s. induction fuel as [| fuel IH]; intros s Ht Hm; [lia |]. simpl.
  destruct (mv_quantity s <=? 0); [done |].
  destruct (d_t0_iter self d s) as [s' | |] eqn:E; [| done | done].
  apply d_t0_iter_next in E as (r & Hr & Hn).
  apply IH; unfold move_measure in *; rewrite Hr.
  - intros r' [= <-]. destruct (mv_active s) as [a |]; [| by subst r].
    by apply lr_next_ahead in Hn as (_ & ? & _); [| by apply Ht].
  - destruct (mv_active s) as [a |]; [| subst r; lia].
    apply lr_next_ahead in Hn as (? & _); [lia | by apply Ht].
Qed.

Lemma from_price_range_end a b v : from_price_range a b = Ok v -> pv_end_bound v = b.
Proof.
  unfold from_price_range. destruct (negb _); [done |]. intros H.
  apply M_bind_Ok in H as (steps & _ & H). injection H as <-. unfold from_steps.
  by destruct (fold_left _ _ _).
Qed.

(** The vector to the top of the range ends in the next range, or in the same
    one when there is none. *)
Lemma to_liq_range_upper_end self v :
  to_liq_range_upper self = Ok v ->
  let e := liq_range (pv_end_bound v) in
  e = liq_range self \/ (ahead BuyingT0 e < ahead BuyingT0 (liq_range self))%nat.
Proof.
  unfold to_liq_range_upper. intros H. apply M_bind_Ok in H as (e & He & H).
  apply from_price_range_end in H. rewrite H.
  destruct (get_range_for_tick _ _ _) as [r |] eqn:Er.
  - right. apply M_bind_Ok in He as (p & _ & He). injection He as <-. simpl.
    apply get_range_for_tick_spec in Er as (E & Hi & _ & _ & Hc). apply covers_spec in Hc.
    apply ahead_lt; [done | by eapply list_elem_of_lookup_2 | simpl; lia].
  - left. apply M_bind_Ok in He as (p & _ & He). by injection He as <-.
Qed.

Lemma intersect_total fuel self debt :
  (ahead BuyingT0 (liq_range self) < fuel)%nat -> intersect_with_debt fuel self debt <> None.
Proof.
  revert self debt. induction fuel as [| fuel IH]; intros self debt Hm; [lia |].
  cbn [intersect_with_debt].
  match goal with |- (match ?m with _ => _ end) <> _ => destruct m as [[q | [[step nxt] nd]] | |] eqn:E end;
    [done | | done | done].
  destruct (negb _) eqn:Hne; [| done].
  enough (ahead BuyingT0 (liq_range nxt) < fuel)%nat as Hlt.
  { specialize (IH nxt nd Hlt). by destruct (intersect_with_debt fuel nxt nd). }
  apply M_bind_Ok in E as (ray & _ & E). apply M_bind_Ok in E as ([] & _ & E); [done |].
  apply M_bind_Ok in E as (v & Hv & E). apply M_bind_Ok in E as (solve & _ & E).
  cbv zeta in E. destruct (_ <? _); [done |]. apply M_bind_Ok in E as (nd' & _ & E).
  injection E as _ <- _. apply to_liq_range_upper_end in Hv as [Hv | Hv]; [| lia].
  rewrite Hv, Z.eqb_refl in Hne. done.
Qed.

End Walks.

(** ** Lemmas: the amounts of a swap *)

(** Steps that lead from one price to another, each starting where the last
    one ended. *)
Fixpoint chained (p : Z) (l : list SwapStep) (q : Z) : Prop :=
  match l with
  | [] => p = q
  | s :: l => sw_start_price s = p /\ chained (sw_end_price s) l q
  end.

Lemma chained_snoc p l q s :
  chained p l q -> sw_start_price s = q -> chained p (l ++ [s]) (sw_end_price s).
Proof.
  revert p. induction l as [| x l IH]; simpl; intros p H Hs; [by subst |].
  destruct H as [Hx H]. split; [done | by apply IH].
Qed.

Section SwapAmounts.
Context {P : Profile} {U : UniswapMath} {S : SqrtPriceMath} {L : SwapLaws U}.
Context (q : Z) (Hq : 0 <= q <= u_max 128) (inp : bool) (p0 : Z).

(** What has been swapped and what is left add up to the amount asked for. *)
Definition swap_accounted (s : VecSwapState) : Prop :=
  0 <= ws_left s <= q /\
  (if inp then ws_total_in s else ws_total_out s) = q - ws_left s /\
  chained p0 (ws_steps s) (ws_price s).

Lemma u256_small x : 0 <= x <= u_max 128 -> wrap_u 256 x = x.
Proof.
  intros H. apply Z.mod_small. change (u_max 128) with (2 ^ 128 - 1) in H.
  assert (2 ^ 128 < 2 ^ 256) by done. lia.
Qed.

Lemma swap_iter_accounted d fee s s' :
  swap_accounted s -> 0 < ws_left s -> swap_iter d inp fee s = Ok s' -> swap_accounted s'.
Proof.
  intros (Hl & Ht & Hc) Hpos H. unfold swap_iter in H. apply M_bind_Ok in H as (r & _ & H).
  apply M_bind_Ok in H as (t & _ & H). destruct (Z.eqb_spec t (ws_price s)) as [E | Hne].
  { rewrite E in H. apply M_bind_Ok in H as (n & _ & H). injection H as <-. unfold swap_accounted. simpl.
    split; [done |]. split; [done |]. by apply (chained_snoc _ _ _ (mkSwapStep (ws_price s) (ws_price s) 0 0 r) Hc). }
  apply M_bind_Ok in H as ([[[p i] o] f] & Hstep & H).
  apply M_bind_Ok in H as (a & _ & H). apply M_bind_Ok in H as (b & _ & H).
  destruct (sort_tokens d a b) as [t0 t1].
  apply M_bind_Ok in H as (fin & Hfin & H). apply M_bind_Ok in H as (n & _ & H). injection H as <-.
  unfold swap_accounted. cbn [ws_left ws_total_in ws_total_out ws_steps ws_price].
  pose proof (step_nonneg _ _ _ _ _ _ _ _ _ Hstep) as (Hi & Ho & Hf).
  split; [| split]; [| | by apply (chained_snoc _ _ _ (mkSwapStep (ws_price s) fin t0 t1 r) Hc)];
    destruct inp; unfold saturate_u, saturating_sub, uint_add.
  - destruct (step_exact_in _ _ _ _ _ _ _ _ _ Hstep ltac:(lia)) as [Hle _]. lia.
  - destruct (step_exact_out _ _ _ _ _ _ _ _ _ Hstep ltac:(lia)) as [Hle _]. lia.
  - destruct (step_exact_in _ _ _ _ _ _ _ _ _ Hstep ltac:(lia)) as [Hle _].
    rewrite (u256_small (ws_total_in s + i)) by lia. rewrite u256_small by lia. lia.
  - destruct (step_exact_out _ _ _ _ _ _ _ _ _ Hstep ltac:(lia)) as [Hle _].
    rewrite u256_small by lia. lia.
Qed.

Lemma from_swap_loop_accounted d fee fuel s r :
  swap_accounted s -> from_swap_loop fuel d inp fee s = Some (Ok r) ->
  swap_accounted r /\ ws_left r = 0.
Proof.
  revert s. induction fuel as [| fuel IH]; intros s Hs; simpl;
    (destruct (Z.leb_spec (ws_left s) 0); [intros [= <-]; split; [done |]; destruct Hs; lia |]); [done |].
  destruct (swap_iter d inp fee s) as [s' | |] eqn:E; [| done | done].
  apply IH. by eapply swap_iter_accounted.
Qed.

End SwapAmounts.

(** ** Lemmas: donations *)

(** A step seen as a range of the pool simulator. *)
Definition as_interval (s : SwapStep) : TickInterval :=
  mkTickInterval None None (lr_liquidity (range (sw_liq_range s))) (sw_d_t0 s) (sw_d_t1 s).

Definition sum_t0 (l : list SwapStep) : Z := sumZ (map sw_d_t0 l).
Definition sum_t1 (l : list SwapStep) : Z := sumZ (map sw_d_t1 l).

Definition live_step (s : SwapStep) : bool := negb (sw_empty s) && step_initialized s.

Lemma live_step_pos s :
  0 <= sw_d_t0 s -> 0 <= sw_d_t1 s -> live_step s = true -> 0 < sw_d_t0 s /\ 0 < sw_d_t1 s.
Proof.
  unfold live_step, sw_empty. intros H0 H1 H. apply andb_true_iff in H as [H _].
  apply negb_true_iff, orb_false_iff in H as [?%Z.eqb_neq ?%Z.eqb_neq]. lia.
Qed.

Section DonationLemmas.
Context {P : Profile}.

Lemma sw_avg_price_Ok s :
  0 < sw_d_t0 s -> 0 < sw_d_t1 s <= u_max 128 ->
  exists p, sw_avg_price s = Ok (Some p) /\ interval_avg_price (as_interval s) = Ok p /\ 0 < p.
Proof.
  intros H0 H1. unfold sw_avg_price, interval_avg_price, sw_empty.
  rewrite (proj2 (Z.eqb_neq _ 0)), (proj2 (Z.eqb_neq (sw_d_t1 s) 0)) by lia.
  cbn [orb as_interval ti_d_t0 ti_d_t1].
  pose proof (calc_price_generic_Ok (sw_d_t0 s) (sw_d_t1 s) true H0 ltac:(unfold u128; lia)) as E.
  unfold Ray.calc_price_generic in E. unfold Ray.calc_price. cbn [rounding] in E. rewrite E.
  eexists. split; [done |]. split; [done |]. cbn [round_div].
  pose proof (div_ceil_le (sw_d_t1 s * const_1e27) (sw_d_t0 s) 0 H0). pose proof const_1e27_pos. nia.
Qed.

(** The loop over steps is the loop of the pool simulator over ranges. *)
Lemma vec_blob_loop_eq dir rem blob steps :
  0 <= rem <= u_max 128 ->
  Forall (fun s => 0 < sw_d_t0 s /\ 0 < sw_d_t1 s <= u_max 128) steps ->
  vec_blob_loop dir rem blob steps = blob_loop dir rem blob (map as_interval steps).
Proof.
  intros Hr Hs. revert rem blob Hr. induction Hs as [| s l [H0 H1] Hl IH]; intros rem blob Hr; [done |].
  cbn [vec_blob_loop blob_loop map]. destruct blob as [[c0 c1] |]; [| by apply IH].
  destruct (sw_avg_price_Ok s H0 H1) as (p & -> & -> & Hp). cbn [M_bind unwrap].
  rewrite inverse_quantity_Ok by done. cbn [M_bind]. set (t := saturate_u 128 _).
  assert (0 <= Z.abs (c0 - t)) by lia. set (cost := Z.abs (c0 - t)) in *. clearbody cost.
  assert (E : u128_sub rem (Z.min rem cost) = Ok (rem - Z.min rem cost))
    by (apply checked_u_Ok; lia).
  rewrite E. cbn [as_interval ti_d_t0 ti_d_t1].
  destruct dir; [destruct (u128_add c0 (Z.min rem cost)) as [c | |]; [| done | done] |];
    cbn [M_bind]; (destruct (cost <=? rem); [| done]).
  - destruct (u128_add c _) as [c' | |]; [| done | done]. cbn [M_bind].
    destruct (u128_add c1 _) as [c1' | |]; [| done | done]. cbn [M_bind]. apply IH. lia.
  - destruct (u128_add (saturating_sub _ _) _) as [c' | |]; [| done | done]. cbn [M_bind].
    destruct (u128_add c1 _) as [c1' | |]; [| done | done]. cbn [M_bind]. apply IH. lia.
Qed.

(** The blob stays within the amounts of the steps and the donation. *)
Lemma vec_blob_loop_total dir steps : forall rem c0 c1,
  Forall (fun s => 0 < sw_d_t0 s /\ 0 < sw_d_t1 s <= u_max 128) steps ->
  0 <= rem -> 0 <= c0 -> 0 < c1 ->
  c0 + rem + sum_t0 steps <= u_max 128 -> c1 + sum_t1 steps <= u_max 128 ->
  exists rem' c0' c1', vec_blob_loop dir rem (Some (c0, c1)) steps = Ok (rem', Some (c0', c1')) /\
    0 <= rem' /\ 0 <= c0' /\ c0' + rem' <= c0 + rem + sum_t0 steps /\ c1 <= c1' <= u_max 128 /\
    (dir = true -> 0 < c0 -> 0 < c0').
Proof.
  induction steps as [| s l IH]; intros rem c0 c1 Hs Hr H0 H1 Hb0 Hb1.
  { exists rem, c0, c1. cbn. unfold sum_t0, sum_t1 in *. cbn in *. naive_solver lia. }
  apply Forall_cons in Hs as [[Hs0 Hs1] Hl].
  change (sum_t0 (s :: l)) with (sw_d_t0 s + sum_t0 l) in *.
  change (sum_t1 (s :: l)) with (sw_d_t1 s + sum_t1 l) in *.
  assert (0 <= sum_t0 l /\ 0 <= sum_t1 l) as [Hn0 Hn1].
  { split; apply sumZ_nonneg, Forall_map; eapply Forall_impl; [exact Hl | | exact Hl |];
      intros x [? ?]; simpl; lia. }
  cbn [vec_blob_loop]. destruct (sw_avg_price_Ok s Hs0 Hs1) as (p & -> & _ & Hp). cbn [M_bind unwrap].
  rewrite inverse_quantity_Ok by done. cbn [M_bind]. set (t := saturate_u 128 _).
  assert (0 <= Z.abs (c0 - t)) by lia. set (cost := Z.abs (c0 - t)) in *. clearbody cost.
  set (inc := Z.min rem cost). assert (0 <= inc <= rem) by lia.
  assert (Hc : exists c, (if dir then u128_add c0 inc else Ok (saturating_sub c0 inc)) = Ok c /\
             0 <= c <= c0 + inc /\ (dir = true -> c = c0 + inc)).
  { destruct dir; eexists; (split; [| split]).
    - apply checked_u_Ok. lia.
    - lia.
    - done.
    - done.
    - unfold saturating_sub. lia.
    - done. }
  destruct Hc as (c & -> & Hc & Hcd). cbn [M_bind]. unfold u128_sub. rewrite checked_u_Ok by lia. cbn [M_bind].
  destruct (cost <=? rem).
  - unfold u128_add. rewrite !checked_u_Ok by lia. cbn [M_bind].
    destruct (IH (rem - inc) (c + sw_d_t0 s) (c1 + sw_d_t1 s)) as (r' & c0' & c1' & E & ?); [done | lia ..|].
    exists r', c0', c1'. split; [exact E |]. naive_solver lia.
  - exists (rem - inc), c, c1. split; [done |]. split; [lia |]. split; [lia |]. split; [lia |].
    split; [lia |]. intros Hd Hp0. rewrite (Hcd Hd). lia.
Qed.

(** A price of at most [t1] whole units converts to a square-root price. *)
Lemma from_ray_total f t1 :
  0 <= f <= t1 * const_1e27 -> 0 <= t1 <= u_max 128 -> exists s, SqrtPriceX96.from_ray f = Ok s.
Proof.
  intros Hf Ht. unfold SqrtPriceX96.from_ray. rewrite div_round_Ok by done. cbn [M_bind].
  eexists. apply uint_from_Ok. split; [done |]. split; [apply ceil_sqrt_nonneg |].
  assert (Hd : 0 <= div_ceil (f * const_2_192) const_1e27 <= t1 * const_2_192).
  { split; [apply div_ceil_nonneg; [| done]; pose proof const_2_192_pos; nia |].
    apply div_ceil_le; [done |]. pose proof const_2_192_pos. nia. }
  apply ceil_sqrt_le; [lia | done |].
  transitivity (t1 * const_2_192); [lia |].
  transitivity (u_max 128 * const_2_192); [| by vm_compute].
  apply Z.mul_le_mono_nonneg_r; [by vm_compute | lia].
Qed.

Lemma filled_price_total dir D steps :
  Forall (fun s => 0 < sw_d_t0 s /\ 0 < sw_d_t1 s) steps -> 0 <= D ->
  sum_t0 steps + D <= u_max 128 -> sum_t1 steps <= u_max 128 ->
  (dir = true -> Forall (fun s => sum_t0 steps + D <= sw_d_t1 s * const_1e27) steps) ->
  exists fp, vec_filled_price dir D steps = Ok fp /\
    match fp with
    | None => True
    | Some f => 0 < f /\ exists p, SqrtPriceX96.from_ray f = Ok p
    end.
Proof.
  intros Hs HD H0 H1 Hfl. unfold vec_filled_price.
  destruct steps as [| s l]; [by exists None |].
  change (sum_t0 (s :: l)) with (sw_d_t0 s + sum_t0 l) in *.
  change (sum_t1 (s :: l)) with (sw_d_t1 s + sum_t1 l) in *.
  apply Forall_cons in Hs as [[Hs0 Hs1] Hl].
  assert (Hl' : Forall (fun s => 0 < sw_d_t0 s /\ 0 < sw_d_t1 s <= u_max 128) l).
  { rewrite Forall_forall in Hl |- *. intros x Hx. destruct (Hl x Hx) as [? ?]. split; [done |]. split; [done |].
    assert (sw_d_t1 x <= sum_t1 l); [| lia]. apply sumZ_elem.
    - apply Forall_map, Forall_forall. intros y Hy. destruct (Hl y Hy). simpl. lia.
    - by apply (list_elem_of_fmap_2 sw_d_t1). }
  cbn [vec_blob_loop].
  destruct (vec_blob_loop_total dir l D (sw_d_t0 s) (sw_d_t1 s) Hl')
    as (r & c0 & c1 & -> & Hr & Hc0 & Hle & Hc1 & Hpos); [lia .. |].
  cbn [M_bind].
  assert (Hfin : exists t0, vec_finish_blob dir r (Some (c0, c1)) = Ok (Some (t0, c1)) /\ 0 < t0 /\
                   (dir = true -> t0 <= sw_d_t0 s + sum_t0 l + D)).
  { unfold vec_finish_blob. destruct dir.
    - unfold u128_add. rewrite checked_u_Ok by lia. eexists. split; [done |]. specialize (Hpos eq_refl Hs0). lia.
    - eexists. split; [done |]. split; [| done].
      unfold saturating_sub. destruct (Z.eqb_spec (Z.max 0 (c0 - r)) 0); lia. }
  destruct Hfin as (t0 & -> & Ht0 & Htb). cbn [M_bind].
  rewrite calc_price_generic_Ok by (done || unfold u128; lia). cbn [M_bind].
  eexists. split; [done |]. pose proof const_1e27_pos as HR.
  assert (0 < round_div (c1 * const_1e27) t0 (negb dir)) as Hf.
  { destruct dir; cbn [negb round_div].
    - specialize (Hfl eq_refl). apply Forall_cons in Hfl as [Hfl _]. specialize (Htb eq_refl).
      pose proof (div_floor_le (c1 * const_1e27) t0 1 Ht0). nia.
    - pose proof (div_ceil_le (c1 * const_1e27) t0 0 Ht0). nia. }
  split; [done |]. apply (from_ray_total _ c1); [| lia]. split; [lia |].
  assert (0 < c1 * const_1e27) by nia. set (a := c1 * const_1e27) in *. clearbody a.
  destruct dir; cbn [negb round_div].
  - pose proof (div_floor_le a t0 (div_floor a t0) Ht0).
    cbn [negb round_div] in Hf. nia.
  - apply div_ceil_le; [done | nia].
Qed.

(** The donations of a result. *)
Definition donated_in (m : gmap (Z * Z) (bool * Z)) : Z :=
  sumZ (map (fun kv => kv.2.2) (map_to_list m)).

Lemma donated_in_insert m k v :
  m !! k = None -> donated_in (<[k := v]> m) = v.2 + donated_in m.
Proof. intros H. unfold donated_in. by rewrite map_to_list_insert. Qed.

Definition step_key (s : SwapStep) : Z * Z :=
  (lr_lower_tick (range (sw_liq_range s)), lr_upper_tick (range (sw_liq_range s))).

Lemma donate_steps_total dir fp steps : forall rem tot m,
  match fp with Some f => 0 < f | None => True end ->
  0 <= rem -> 0 <= tot -> rem + tot <= u_max 128 ->
  exists rem' tot' m', M_fold (donate_step dir fp) (rem, tot, m) steps = Ok (rem', tot', m') /\
    rem' + tot' = rem + tot /\ 0 <= rem' /\ tot <= tot' /\
    (NoDup (map step_key steps) -> Forall (fun s => m !! step_key s = None) steps ->
     donated_in m' = donated_in m + (tot' - tot)).
Proof.
  induction steps as [| s l IH]; intros rem tot m Hf Hr Ht Hb.
  { exists rem, tot, m. split_and!; [done | lia | done | lia | intros; lia]. }
  assert (Hrew : exists q, step_reward dir fp rem s = Ok q /\ 0 <= q <= rem).
  { unfold step_reward. destruct fp as [f |]; [| exists 0; split; [done | lia]].
    rewrite inverse_quantity_Ok by done. cbn [M_bind]. eexists. split; [done |].
    unfold saturating_sub. destruct dir; lia. }
  destruct Hrew as (q & Hq & Hqr). cbn [M_fold donate_step]. rewrite Hq. cbn [M_bind].
  unfold u128_sub, u128_add. rewrite !checked_u_Ok by lia. cbn [M_bind].
  destruct (IH (rem - q) (tot + q) (<[step_key s := (true, q)]> m))
    as (r' & t' & m' & E & He & Hr' & Ht' & Hd); [done | lia .. |].
  exists r', t', m'. split_and!; [exact E | lia | lia | lia |].
  intros Hnd Hfresh. apply NoDup_cons in Hnd as [Hni Hnd]. apply Forall_cons in Hfresh as [Hk Hfresh].
  rewrite Hd, donated_in_insert; [simpl; lia | done | done |].
  rewrite Forall_forall in Hfresh |- *. intros x Hx. rewrite lookup_insert_ne; [by apply Hfresh |].
  intros Ek. apply Hni. rewrite Ek. by apply (list_elem_of_fmap_2 step_key).
Qed.

End DonationLemmas.

(** ** Splitting a donation *)

Lemma donated_in_filter m (Q : (Z * Z) * (bool * Z) -> Prop) `{!forall x, Decision (Q x)} :
  donated_in m = donated_in (filter Q m) + donated_in (filter (fun x => ~ Q x) m).
Proof.
  induction m as [| k v m Hk IH] using map_ind; [done |].
  rewrite donated_in_insert, IH by done.
  assert (filter Q m !! k = None) by (apply map_lookup_filter_None; by left).
  assert (filter (fun x => ~ Q x) m !! k = None) by (apply map_lookup_filter_None; by left).
  destruct (decide (Q (k, v))) as [Hq | Hq].
  - rewrite (map_filter_insert_True Q) by done. rewrite (map_filter_insert_False (fun x => ~ Q x)) by tauto.
    rewrite delete_id, donated_in_insert by done. lia.
  - rewrite (map_filter_insert_False Q) by done. rewrite (map_filter_insert_True (fun x => ~ Q x)) by done.
    rewrite delete_id, donated_in_insert by done. lia.
Qed.

(** The parts of a donation inside and outside a swap hold all of it: the range
    added to the second part, the one the swap ends in, was not part of it. *)
Theorem donation_split_conserves d v first second :
  covers (range (liq_range (pv_end_bound v))) (pp_tick (pv_end_bound v)) = true ->
  map_Forall (fun _ q => q.1 = true) (dr_tick_donations d) ->
  donate_and_remainder d v = (first, second) ->
  donated_in (dr_tick_donations first) +
    match second with Some s => donated_in (dr_tick_donations s) | None => 0 end =
  donated_in (dr_tick_donations d) /\
  (forall s, second = Some s -> dr_current_tick s = 0) /\ dr_current_tick first = dr_current_tick d.
Proof.
  intros Hcov Hlive. unfold donate_and_remainder.
  assert (E : low_to_high (pp_tick (pv_start_bound v)) (pp_tick (pv_end_bound v)) =
    (Z.min (pp_tick (pv_start_bound v)) (pp_tick (pv_end_bound v)),
     Z.max (pp_tick (pv_start_bound v)) (pp_tick (pv_end_bound v)))).
  { unfold low_to_high. destruct (Z.compare_spec (pp_tick (pv_start_bound v)) (pp_tick (pv_end_bound v)));
      f_equal; lia. }
  rewrite E. clear E. set (low := Z.min _ _). set (high := Z.max _ _).
  assert (Hall : filter (fun kv => kv.2.1 = true) (dr_tick_donations d) = dr_tick_donations d).
  { apply map_filter_id. intros k x Hx. by apply (Hlive k x). }
  rewrite Hall. set (m := dr_tick_donations d) in *.
  intros [= <- <-]. cbn [dr_tick_donations dr_current_tick].
  assert (Hsum : donated_in m =
    donated_in (filter (fun kv => within_vec low high kv.1 = true) m) +
    donated_in (filter (fun kv => within_vec low high kv.1 = false) m)).
  { rewrite (donated_in_filter m (fun kv => within_vec low high kv.1 = true)). do 2 f_equal.
    apply map_filter_ext. intros k x _. simpl. by rewrite not_true_iff_false. }
  split; [| split; [| done]].
  - case_bool_decide as Ho; [rewrite Ho in Hsum; change (donated_in ∅) with 0 in Hsum; lia |].
    cbn [dr_tick_donations]. rewrite donated_in_insert; [simpl; lia |].
    apply map_lookup_filter_None. right. intros x _. simpl. unfold within_vec. simpl.
    apply covers_spec in Hcov. intros Hf. apply andb_false_iff in Hf as [Hf | Hf].
    + apply Z.ltb_ge in Hf. lia.
    + apply Z.leb_gt in Hf. lia.
  - intros s Hs. case_bool_decide; [done |]. by injection Hs as <-.
Qed.

(** ** Properties *)

(** Every walk through the ranges of a snapshot ends: a swap of an exact
    amount, a move by an amount of T0 and the intersection of the pool price
    with a debt each leave one range after the other and never return to one,
    so one iteration per range (and two more) always reaches a result or an
    error, for any amount and any implementation of the swap mathematics. *)
Theorem walks_terminate (P : Profile) (U : UniswapMath) (S : SqrtPriceMath)
    (start : PoolPrice) direction quantity debt :
  ticks_i32 (liq_range start) ->
  from_swap_loop (walk_fuel (pp_snapshot start)) direction (is_input direction quantity) (pp_fee start)
    (swap_start start quantity) <> None /\
  d_t0_loop (walk_fuel (pp_snapshot start)) start direction
    (mkMoveState (pp_price start) None (magnitude quantity)) <> None /\
  intersect_with_debt (walk_fuel (pp_snapshot start)) start debt <> None.
Proof.
  intros Ht. unfold walk_fuel, pp_snapshot.
  pose proof (ahead_le direction (liq_range start)). pose proof (ahead_le BuyingT0 (liq_range start)).
  split; [| split].
  - apply from_swap_loop_total; unfold swap_measure, swap_start; simpl; [by intros r [= <-] | lia].
  - apply d_t0_loop_total; unfold move_measure; simpl; [done | done | lia].
  - apply intersect_total. lia.
Qed.

(** A swap returns exactly what was asked for: the tokens of the specified
    side (with the fee, when it is the input) add up to the amount, the steps
    lead from the start price to the end price without a gap, and the end bound
    is at the price the last step reached. *)
Theorem from_swap_exact (P : Profile) (U : UniswapMath) (S : SqrtPriceMath) (L : SwapLaws U)
    start direction quantity v :
  0 <= magnitude quantity <= u_max 128 -> from_swap start direction quantity = Ok v ->
  exists t_in t_out steps,
    sort_tokens direction t_in t_out = (pv_d_t0 v, pv_d_t1 v) /\
    (if is_input direction quantity then t_in else t_out) = magnitude quantity /\
    pv_steps v = Some steps /\ chained (pp_price start) steps (pp_price (pv_end_bound v)) /\
    pv_start_bound v = start.
Proof.
  intros Hq H. unfold from_swap in H. destruct (negb _); [done |].
  destruct (from_swap_loop _ _ _ _ _) as [m |] eqn:El; [| done].
  apply M_bind_Ok in H as (s & -> & H).
  apply (from_swap_loop_accounted (magnitude quantity) Hq _ (pp_price start)) in El as ((_ & Ht & Hc) & Hz).
  2:{ unfold swap_accounted, swap_start. cbn. split; [lia |]. split; [destruct (is_input _ _); lia | done]. }
  apply M_bind_Ok in H as (ti & Hti & H). apply M_bind_Ok in H as (to & Hto & H).
  apply uint_from_Ok in Hti as [-> _]. apply uint_from_Ok in Hto as [-> _].
  destruct (sort_tokens direction (ws_total_in s) (ws_total_out s)) as [d0 d1] eqn:Es.
  apply M_bind_Ok in H as (e & He & H). injection H as <-.
  exists (ws_total_in s), (ws_total_out s), (ws_steps s). cbn.
  split; [done |]. split; [destruct (is_input _ _); lia |]. split; [done |]. split; [| done].
  unfold at_price in He. apply M_bind_Ok in He as (t & _ & He). apply M_bind_Ok in He as (r & _ & He).
  injection He as <-. exact Hc.
Qed.

(** C13: Donating a reward to the ranges of a swap neither creates nor loses any
    of it: when the amounts fit, the donation is computed without a panic, what
    the ranges receive and what stays with the current tick add up to the
    reward, and the result lists exactly what the ranges receive. *)
Theorem t0_donation_conserves (P : Profile) v steps D :
  pv_steps v = Some steps -> 0 <= D ->
  Forall (fun s => 0 <= sw_d_t0 s /\ 0 <= sw_d_t1 s) steps ->
  sum_t0 (List.filter live_step steps) + D <= u_max 128 ->
  sum_t1 (List.filter live_step steps) <= u_max 128 ->
  Forall (fun s => sum_t0 (List.filter live_step steps) + D <= sw_d_t1 s * const_1e27)
    (List.filter live_step steps) ->
  NoDup (map step_key (List.filter step_initialized steps)) ->
  exists r, t0_donation v D = Ok r /\
    dr_current_tick r + dr_total_donated r = D /\ 0 <= dr_current_tick r /\
    0 <= dr_total_donated r /\ donated_in (dr_tick_donations r) = dr_total_donated r.
Proof.
  intros Hv HD Hs H0 H1 Hfl Hnd. unfold t0_donation. rewrite Hv. fold live_step.
  set (dir := pp_price _ <? _).
  assert (Hlive : Forall (fun s => 0 < sw_d_t0 s /\ 0 < sw_d_t1 s) (List.filter live_step steps)).
  { rewrite Forall_forall in Hs |- *. intros s [Hin Hl]%list_filter_in.
    destruct (Hs s Hin). by apply live_step_pos. }
  change (fun s => negb (sw_empty s) && step_initialized s) with live_step.
  destruct (filled_price_total dir D _ Hlive HD H0 H1 (fun _ => Hfl)) as (fp & -> & Hfp).
  cbn [M_bind].
  assert (0 <= sum_t0 (List.filter live_step steps)).
  { apply sumZ_nonneg, Forall_map. eapply Forall_impl; [exact Hlive |]. intros x [? ?]. simpl. lia. }
  destruct (donate_steps_total dir fp (List.filter step_initialized steps) D 0 ∅)
    as (rem & tot & m & -> & He & Hr & Ht & Hd); [destruct fp; [apply Hfp | done] | done | done | lia |].
  cbn [M_bind].
  assert (Hp : exists p, match fp with Some p => SqrtPriceX96.from_ray p
                         | None => Ok (pp_price (pv_end_bound v)) end = Ok p)
    by (destruct fp; [apply Hfp | by eexists]).
  destruct Hp as (p & ->). cbn [M_bind]. eexists. split; [done |]. cbn.
  split; [lia |]. split; [done |]. split; [done |].
  rewrite Hd; [change (donated_in ∅) with 0; lia | done |]. apply Forall_forall. intros x _. apply lookup_empty.
Qed.

(** The price the reward buys is the one the pool simulator computes from the
    same amounts. *)
Theorem filled_price_as_simulator (P : Profile) dir D steps :
  0 <= D <= u_max 128 ->
  Forall (fun s => 0 < sw_d_t0 s /\ 0 < sw_d_t1 s <= u_max 128) steps ->
  vec_filled_price dir D steps =
    (let* (remaining, blob) := blob_loop dir D None (map as_interval steps) in
     let* blob := finish_blob dir remaining blob in
     match blob with
     | Some (t0, t1) => let* p := Ray.calc_price_generic t0 t1 (negb dir) in Ok (Some p)
     | None => Ok None
     end) /\
  forall f rem s, step_reward dir f rem s = range_donation dir f rem (as_interval s).
Proof.
  intros HD Hs. split; [| done]. unfold vec_filled_price. by rewrite vec_blob_loop_eq.
Qed.

(** ** Evaluation: two positions, one above the other *)

Definition two_ranges : PoolSnapshot :=
  match @PoolSnapshot_new linear_math 10
          [mkLiqRange 0 10 1000 false true 0 false; mkLiqRange 10 20 500 false true 0 false;
           mkLiqRange 0 10 1000 false true 0 true; mkLiqRange 10 20 500 false true 0 true]
          (10 ^ 7 + 5) 0 with
  | Ok s => s
  | _ => mkPoolSnapshot [] 0 0 0 0 0 0
  end.

Definition two_start : PoolPrice :=
  match sn_current_price (mkSnapRef 1 two_ranges) false with
  | Ok p => p
  | _ => mkPoolPrice (mkLiqRangeRef (mkSnapRef 1 two_ranges) (mkLiqRange 0 0 0 false false 0 false) 0 (1, 0%nat)) 0 0 0 false
  end.

Lemma two_start_ticks : ticks_i32 (liq_range two_start).
Proof.
  split; [split; vm_compute; (reflexivity || discriminate) |].
  repeat constructor; vm_compute; (reflexivity || discriminate).
Defined.

Definition linear_amounts : SqrtPriceMath := {|
  get_amount_0_delta a b l _ := Ok (Z.abs (a - b) * l);
  get_amount_1_delta a b l _ := Ok (Z.abs (a - b) * l);
|}.

Lemma walks_terminate_witness :
  @from_swap_loop dev linear_math 6 BuyingT0 true 0 (swap_start two_start (Token1 7000)) <> None.
Proof.
  exact (proj1 (walks_terminate dev linear_math linear_amounts two_start BuyingT0 (Token1 7000)
                  (mkDebt 1 (ExactIn 1)) two_start_ticks)).
Defined.

(** Buying with 7000 of T1 crosses from the first position into the second. *)
Definition two_vec : PoolPriceVec :=
  match @from_swap dev linear_math two_start BuyingT0 (Token1 7000) with
  | Ok v => v
  | _ => mkPoolPriceVec two_start two_start 0 0 None 0
  end.

Lemma from_swap_exact_witness :
  exists t_in t_out steps, sort_tokens BuyingT0 t_in t_out = (pv_d_t0 two_vec, pv_d_t1 two_vec) /\
    t_in = 7000 /\ pv_steps two_vec = Some steps /\ length steps = 2%nat /\
    chained (10 ^ 7 + 5) steps (10 ^ 7 + 14).
Proof.
  destruct (from_swap_exact dev linear_math linear_amounts linear_laws two_start BuyingT0 (Token1 7000) two_vec)
    as (ti & to & steps & H1 & H2 & H3 & H4 & _).
  - split; vm_compute; discriminate.
  - vm_compute. reflexivity.
  - exists ti, to, steps. split; [exact H1 |]. split; [exact H2 |]. split; [exact H3 |].
    split; [| exact H4]. vm_compute in H3. by injection H3 as <-.
Defined.

Definition two_steps : list SwapStep := default [] (pv_steps two_vec).

Lemma t0_donation_conserves_witness :
  exists r, @t0_donation dev two_vec 100 = Ok r /\ dr_current_tick r + dr_total_donated r = 100.
Proof.
  destruct (t0_donation_conserves dev two_vec two_steps 100) as (r & Hr & Hsum & _).
  - vm_compute. reflexivity.
  - discriminate.
  - by apply (bool_decide_unpack _); vm_compute.
  - vm_compute. discriminate.
  - vm_compute. discriminate.
  - by apply (bool_decide_unpack _); vm_compute.
  - by apply (bool_decide_unpack _); vm_compute.
  - exists r. split; [exact Hr | exact Hsum].
Defined.
