(* ===== verification/VolumeMatcher.v ===== *)
(** * The volume matcher

    crates/types/src/matching/composite.rs, matching-engine/src/book/order.rs,
    matching-engine/src/matcher/{mod,volume}.rs and
    strategy/simplecheckpoint.rs: the matcher that came before the delta
    matcher.  It fills the best bid with the best ask until they no longer
    cross, where an order may also be the AMM, a debt, or both. *)

From S2P Require Import Prelude Uniswap Ray MatchMath Donation Orders PoolSwap Book Debt PoolSnapshot PoolPriceVec.

(** ** Composite orders (composite.rs) *)

Record CompositeOrder := mkCompositeOrder {
  co_debt : option Debt;
  co_amm : option PoolPrice;
  co_bound_price : option Z;
}.

Section Composite.
Context {P : Profile} {U : UniswapMath} {S : SqrtPriceMath}.

Definition CompositeOrder_new (debt : option Debt) (amm : option PoolPrice) (bound_price : option Z) :
    M CompositeOrder :=
  match debt, amm with
  | None, None => Panic
  | _, _ => Ok (mkCompositeOrder debt amm bound_price)
  end.

Definition has_amm (c : CompositeOrder) : bool := bool_decide (is_Some (co_amm c)).
Definition has_debt (c : CompositeOrder) : bool := bool_decide (is_Some (co_debt c)).

(** T0 the AMM and the debt move to reach a price. *)
Definition calc_quantities (c : CompositeOrder) (target_price : Z) : M (Z * Z) :=
  let* amm_q :=
    match co_amm c with
    | Some a =>
        let* target := SqrtPriceX96.from_ray target_price in
        let* v := expect_ok (vec_to a target) in Ok (pv_d_t0 v)
    | None => Ok 0
    end in
  let* debt_q := match co_debt c with Some d => dq_to_price d target_price | None => Ok 0 end in
  Ok (amm_q, debt_q).

(** The AMM price, or the debt price without an AMM. *)
Definition composite_start_price (c : CompositeOrder) : M Z :=
  match co_amm c with
  | Some a => pp_as_ray a
  | None => let* d := unwrap (co_debt c) in Ok (cur_price d)
  end.

Definition find_closest_bound (c : CompositeOrder) (external_bound : Z) : M Z :=
  match co_bound_price c with
  | Some ib =>
      let* cur := composite_start_price c in
      let external_dp := Z.abs (external_bound - cur) in
      let internal_dp := Z.abs (ib - cur) in
      Ok (if internal_dp <? external_dp then ib else external_bound)
  | None => Ok external_bound
  end.

Definition debt_direction (c : CompositeOrder) (target_price : Z) : option Direction :=
  (fun d => from_prices (cur_price d) target_price) <$> co_debt c.

Definition composite_quantity (c : CompositeOrder) (external_bound : Z) : M Z :=
  let* target_price := find_closest_bound c external_bound in
  let* (amm_q, debt_q) := calc_quantities c target_price in
  match debt_direction c target_price with
  | Some BuyingT0 => Ok (saturating_sub amm_q debt_q)
  | _ => u128_add amm_q debt_q
  end.

Definition composite_negative_quantity (c : CompositeOrder) (external_bound : Z) : M Z :=
  let* target_price := find_closest_bound c external_bound in
  let* (amm_q, debt_q) := calc_quantities c target_price in
  match debt_direction c target_price with
  | Some BuyingT0 => Ok (saturating_sub debt_q amm_q)
  | _ => Ok 0
  end.

Definition composite_negative_quantity_t1 (c : CompositeOrder) (external_bound : Z) : M Z :=
  match co_debt c with
  | Some d =>
      let* target_price := find_closest_bound c external_bound in
      let* (amm_q, _) := calc_quantities c target_price in
      match debt_direction c target_price with
      | Some BuyingT0 =>
          let* c0 := current_t0 d in
          let t0_f := saturating_sub c0 amm_q in
          let* t1_f := Ray.quantity target_price t0_f false in
          Ok (saturating_sub t1_f (debt_magnitude d))
      | _ => Ok 0
      end
  | None => Ok 0
  end.

(** The shares of an amount of T0 for the AMM and for the debt. *)
Definition t0_quantities (c : CompositeOrder) (t0_input : Z) (direction : Direction) :
    M (option Z * option Z) :=
  match co_amm c, co_debt c with
  | None, None => Ok (None, None)
  | Some _, None => Ok (Some t0_input, None)
  | None, Some _ => Ok (None, Some t0_input)
  | Some a, Some d =>
      let* c0 := current_t0 d in
      let* amm_portion :=
        amm_debt_same_move_solve (pp_liquidity a) c0 (debt_magnitude d) t0_input direction in
      Ok (Some amm_portion, Some (saturating_sub t0_input amm_portion))
  end.

(** A swap that fails leaves the AMM where it was. *)
Definition composite_partial_fill (c : CompositeOrder) (partial_q : Z) (direction : Direction) :
    M CompositeOrder :=
  let* (amm_quantity, debt_quantity) := t0_quantities c partial_q direction in
  let* new_amm :=
    match amm_quantity, co_amm c with
    | Some amm_q, Some a =>
        match from_swap a direction (Token0 amm_q) with
        | Ok v => Ok (Some (pv_end_bound v))
        | Err _ => Ok (Some a)
        | Panic => Panic
        end
    | _, amm => Ok amm
    end in
  let* new_debt :=
    match debt_quantity, co_debt c with
    | Some debt_q, Some d => let* d' := debt_partial_fill d debt_q in Ok (Some d')
    | _, d => Ok d
    end in
  Ok (mkCompositeOrder new_debt new_amm (co_bound_price c)).

End Composite.

(** ** Order containers (book/order.rs) *)

Inductive OrderContainer :=
| OcBook (order : BookOrder) (state : OrderFillState)
| OcComposite (c : CompositeOrder).

Section Containers.
Context {P : Profile} {U : UniswapMath} {S : SqrtPriceMath} {E : OrderEnv}.

Definition oc_from_book (o : BookOrder) : OrderContainer := OcBook o Unfilled.

Definition oc_id (o : OrderContainer) : option OrderId :=
  match o with OcBook order _ => Some (order_id order) | _ => None end.

Definition is_book (o : OrderContainer) : bool :=
  match o with OcBook _ _ => true | _ => false end.

Definition is_composite (o : OrderContainer) : bool :=
  match o with OcComposite _ => true | _ => false end.

Definition composite_t0_quantities (o : OrderContainer) (t0_input : Z) (direction : Direction) :
    M (option Z * option Z) :=
  match o with
  | OcComposite c => t0_quantities c t0_input direction
  | _ => Ok (None, None)
  end.

Definition is_amm (o : OrderContainer) : bool :=
  match o with OcComposite c => has_amm c | _ => false end.

Definition is_debt (o : OrderContainer) : bool :=
  match o with OcComposite c => has_debt c | _ => false end.

Definition partial_debt (_ : OrderContainer) (_ : Z) : option Debt := None.

Definition as_debt (_ : OrderContainer) (_ : option Z) (_ : bool) : option Debt := None.

Definition amm_intersect (o : OrderContainer) (debt : Debt) : M Z :=
  match o with
  | OcComposite c =>
      match co_amm c with
      | Some a => default Panic (intersect_with_debt (walk_fuel (pp_snapshot a)) a debt)
      | None => Err "No intersection"
      end
  | _ => Ok 0
  end.

(** Is the order of a type that may be filled partially? *)
Definition oc_is_partial (o : OrderContainer) : bool :=
  match o with
  | OcBook b _ =>
      match order b with PartialFlash _ | PartialStanding _ => true | _ => false end
  | OcComposite _ => false
  end.

(** An inverse order is exact in T1. *)
Definition inverse_order (o : OrderContainer) : bool :=
  match o with
  | OcBook b _ => Bool.eqb (is_bid (order b)) (exact_in (order b))
  | _ => false
  end.

Definition raw_book_quantity (o : OrderContainer) : Z :=
  match o with OcBook b _ => amount (order b) | _ => 0 end.

Definition composite_quantities_to_price (o : OrderContainer) (target_price : Z) : M (Z * Z) :=
  match o with OcComposite c => calc_quantities c target_price | _ => Ok (0, 0) end.

Definition oc_quantity (_ _ : OrderContainer) (_ : option Debt) : Z := 0.

Definition oc_quantity_t1 (_ : OrderContainer) (_ : option Debt) : option Z := None.

Definition oc_max_t1_for_t0 (_ : OrderContainer) (_ : Z) (_ : option Debt) : option Z := None.

Definition oc_negative_quantity (o : OrderContainer) (target_price : Z) : M Z :=
  match o with OcComposite c => composite_negative_quantity c target_price | _ => Ok 0 end.

Definition oc_negative_quantity_t1 (o : OrderContainer) (target_price : Z) : M Z :=
  match o with OcComposite c => composite_negative_quantity_t1 c target_price | _ => Ok 0 end.

(** Book orders report the default price. *)
Definition oc_price (o : OrderContainer) : M Z :=
  match o with OcBook _ _ => Ok 0 | OcComposite c => composite_start_price c end.

End Containers.

(** ** The matcher (matcher/mod.rs, matcher/volume.rs) *)

Record Solution := mkSolution {
  so_price : option Z;
  so_total_volume : Z;
  so_partial_volume : Z * Z;
  so_amm_is_bid : option bool;
  so_amm_volume : Z;
  so_amm_final_price : option Z;
  so_amm_average_price : option Z;
}.

Definition Solution_default : Solution := mkSolution None 0 (0, 0) None 0 None None.

Inductive VolumeFillMatchEndReason :=
| NoMoreBids
| NoMoreAsks
| BothSidesAMM
| NoLongerCross
| ZeroQuantity
| ErrorEncountered.

(** A solve state, as a checkpoint holds it: a checkpoint has no checkpoint of
    its own. *)
Record SolveState := mkSolveState {
  vs_book : OrderBook;
  vs_bid_idx : nat;
  vs_bid_outcomes : list OrderFillState;
  vs_ask_idx : nat;
  vs_ask_outcomes : list OrderFillState;
  vs_debt : option Debt;
  vs_amm_price : option PoolPrice;
  vs_amm_outcome : option NetAmmOrder;
  vs_results : Solution;
}.

Record VolumeFillMatcher := mkVolumeFillMatcher {
  vm_state : SolveState;
  vm_checkpoint : option SolveState;
}.

Definition save_checkpoint (m : VolumeFillMatcher) : VolumeFillMatcher :=
  mkVolumeFillMatcher (vm_state m) (Some (vm_state m)).

Definition from_checkpoint (m : VolumeFillMatcher) : option VolumeFillMatcher :=
  (fun cp => mkVolumeFillMatcher cp None) <$> vm_checkpoint m.

Definition VolumeFillMatcher_new (book : OrderBook) : VolumeFillMatcher :=
  let bid_outcomes := replicate (length (ob_bids book)) Unfilled in
  let ask_outcomes := replicate (length (ob_asks book)) Unfilled in
  save_checkpoint (mkVolumeFillMatcher
    (mkSolveState book 0 bid_outcomes 0 ask_outcomes None None None Solution_default) None).

(** Restores the indices, outcomes and AMM price, and drops the checkpoint. *)
Definition restore_checkpoint (m : VolumeFillMatcher) : bool * VolumeFillMatcher :=
  match vm_checkpoint m with
  | None => (false, m)
  | Some cp =>
      let s := vm_state m in
      (true, mkVolumeFillMatcher
        (mkSolveState (vs_book s) (vs_bid_idx cp) (vs_bid_outcomes cp) (vs_ask_idx cp)
           (vs_ask_outcomes cp) (vs_debt s) (vs_amm_price cp) (vs_amm_outcome s) (vs_results s)) None)
  end.

(** [SimpleCheckpointStrategy::finalize]. *)
Definition simple_checkpoint_finalize (solver : VolumeFillMatcher) : option VolumeFillMatcher :=
  from_checkpoint solver.

(** Field updates. *)
Definition with_results (s : SolveState) (r : Solution) : SolveState :=
  mkSolveState (vs_book s) (vs_bid_idx s) (vs_bid_outcomes s) (vs_ask_idx s) (vs_ask_outcomes s)
    (vs_debt s) (vs_amm_price s) (vs_amm_outcome s) r.
Definition with_price (s : SolveState) (p : Z) : SolveState :=
  let r := vs_results s in
  with_results s (mkSolution (Some p) (so_total_volume r) (so_partial_volume r) (so_amm_is_bid r)
                    (so_amm_volume r) (so_amm_final_price r) (so_amm_average_price r)).
Definition with_debt (s : SolveState) (d : option Debt) : SolveState :=
  mkSolveState (vs_book s) (vs_bid_idx s) (vs_bid_outcomes s) (vs_ask_idx s) (vs_ask_outcomes s)
    d (vs_amm_price s) (vs_amm_outcome s) (vs_results s).
Definition with_bid_idx (s : SolveState) (i : nat) : SolveState :=
  mkSolveState (vs_book s) i (vs_bid_outcomes s) (vs_ask_idx s) (vs_ask_outcomes s)
    (vs_debt s) (vs_amm_price s) (vs_amm_outcome s) (vs_results s).
Definition with_ask_idx (s : SolveState) (i : nat) : SolveState :=
  mkSolveState (vs_book s) (vs_bid_idx s) (vs_bid_outcomes s) i (vs_ask_outcomes s)
    (vs_debt s) (vs_amm_price s) (vs_amm_outcome s) (vs_results s).
Definition with_amm (s : SolveState) (a : PoolPrice) (o : option NetAmmOrder) (r : Solution) : SolveState :=
  mkSolveState (vs_book s) (vs_bid_idx s) (vs_bid_outcomes s) (vs_ask_idx s) (vs_ask_outcomes s)
    (vs_debt s) (Some a) o r.

(** [outcomes[idx] = f(outcomes[idx])]; indexing panics out of range. *)
Definition set_outcome (l : list OrderFillState) (i : nat) (f : OrderFillState -> M OrderFillState) :
    M (list OrderFillState) :=
  let* o := unwrap (l !! i) in let* o' := f o in Ok (<[i := o']> l).
Definition set_bid_outcome (s : SolveState) (f : OrderFillState -> M OrderFillState) : M SolveState :=
  let* l := set_outcome (vs_bid_outcomes s) (vs_bid_idx s) f in
  Ok (mkSolveState (vs_book s) (vs_bid_idx s) l (vs_ask_idx s) (vs_ask_outcomes s)
        (vs_debt s) (vs_amm_price s) (vs_amm_outcome s) (vs_results s)).
Definition set_ask_outcome (s : SolveState) (f : OrderFillState -> M OrderFillState) : M SolveState :=
  let* l := set_outcome (vs_ask_outcomes s) (vs_ask_idx s) f in
  Ok (mkSolveState (vs_book s) (vs_bid_idx s) (vs_bid_outcomes s) (vs_ask_idx s) l
        (vs_debt s) (vs_amm_price s) (vs_amm_outcome s) (vs_results s)).
Definition complete_fill (_ : OrderFillState) : M OrderFillState := Ok CompleteFill.

Section Matcher.
Context {P : Profile} {U : UniswapMath} {S : SqrtPriceMath} {E : OrderEnv}.

(** Moves the AMM; nothing is changed when the move fails. *)
Definition fill_amm (s : SolveState) (amm : PoolPrice) (quantity : Z) (direction : Direction) :
    M SolveState :=
  let* new_amm := d_t0 amm quantity direction in
  let* final_amm_order := from_price_range amm new_amm in
  if negb (pv_d_t0 final_amm_order =? quantity) then Err "Unable to process a pool with liquidity" else
  let r := vs_results s in
  let* amm_volume := u128_add (so_amm_volume r) quantity in
  let results := mkSolution (so_price r) (so_total_volume r) (so_partial_volume r) (so_amm_is_bid r)
                   amm_volume (Some (pp_price new_amm)) (so_amm_average_price r) in
  let* amm_out := NetAmm.add_quantity (default (NetAmm.new direction) (vs_amm_outcome s))
                    (pv_d_t0 final_amm_order) (pv_d_t1 final_amm_order) in
  Ok (with_amm s new_amm (Some amm_out) results).

(** Index of the first unfilled order from [i] on, or the length. *)
Fixpoint first_unfilled (i : nat) (fill_state : list OrderFillState) : nat :=
  match fill_state with
  | [] => i
  | Unfilled :: _ => i
  | _ :: l => first_unfilled (Datatypes.S i) l
  end.

(** Composite order for a debt on this side, [None] when the book comes first. *)
Definition debt_order (bid : bool) (debt : option Debt) (d : Debt) (amm : option PoolPrice)
    (book_order : option BookOrder) : M (option OrderContainer) :=
  let (less_advantageous, more_advantageous) := if bid then (Lt, Gt) else (Gt, Lt) in
  let* (debt_book_cmp, d) :=
    match book_order return M (comparison * Debt) with
    | Some b =>
        let* book_price := price_for_book_side (order b) bid in
        let* (valid, d) := validate_and_set_price d book_price in
        Ok (if (valid : bool) then Eq else cur_price d ?= book_price, d)
    | None => Ok (more_advantageous, d)
    end in
  let* debt_amm_cmp :=
    match amm with Some a => debt_cmp_pool d a | None => Ok more_advantageous end in
  if bool_decide (debt_book_cmp = less_advantageous) then Ok None
  else if bool_decide (debt_book_cmp = Eq) then Ok None
  else if bool_decide (debt_amm_cmp = Eq) then
    let* bound_price :=
      match book_order with
      | Some b => let* p := price_for_book_side (order b) bid in Ok (Some p)
      | None => Ok None
      end in
    let* c := CompositeOrder_new debt amm bound_price in Ok (Some (OcComposite c))
  else if bool_decide (debt_amm_cmp = more_advantageous) then
    let* bound_price :=
      match book_order, amm with
      | Some b, Some a =>
          let* p := price_for_book_side (order b) bid in
          let* ray := pp_as_ray a in Ok (Some (Z.max p ray))
      | Some b, None => let* p := price_for_book_side (order b) bid in Ok (Some p)
      | None, Some a => let* ray := pp_as_ray a in Ok (Some ray)
      | None, None => Ok None
      end in
    let* c := CompositeOrder_new debt None bound_price in Ok (Some (OcComposite c))
  else Panic.

(** The best order of one side and the new book index: a fragment first, then a
    debt at a better price, then the AMM when it beats the book, then the book. *)
Definition next_order (bid : bool) (book_idx : nat) (debt : option Debt) (amm : option PoolPrice)
    (book : list BookOrder) (fill_state : list OrderFillState) : M (nat * option OrderContainer) :=
  match fill_state !! book_idx with
  | Some (PartialFill v) => Ok (book_idx, (fun o => OcBook o (PartialFill v)) <$> book !! book_idx)
  | _ =>
      let less_advantageous := if bid then Lt else Gt in
      let cur_idx := first_unfilled book_idx (drop book_idx fill_state) in
      let book_order := book !! cur_idx in
      let* from_debt :=
        match debt with
        | Some d => if Bool.eqb (bid_side d) bid then debt_order bid debt d amm book_order else Ok None
        | None => Ok None
        end in
      match from_debt with
      | Some c => Ok (book_idx, Some c)
      | None =>
          let* from_amm :=
            match amm with
            | None => Ok None
            | Some a =>
                match book_order with
                | Some o =>
                    let* p := price_for_book_side (order o) bid in
                    let* ray := pp_as_ray a in
                    if negb (bool_decide ((p ?= ray) = less_advantageous)) then Ok None
                    else let* c := CompositeOrder_new None (Some a) (Some p) in Ok (Some c)
                | None => let* c := CompositeOrder_new None (Some a) None in Ok (Some c)
                end
            end in
          match from_amm with
          | Some c => Ok (book_idx, Some (OcComposite c))
          | None =>
              match book_order with
              | Some o => let* state := unwrap (fill_state !! cur_idx) in
                          Ok (cur_idx, Some (OcBook o state))
              | None => Ok (cur_idx, None)
              end
          end
      end
  end.

Definition get_match_quantities (bid ask : OrderContainer) (debt : option Debt) : M (Z * Z) :=
  if is_book bid && is_book ask then
    match inverse_order bid, inverse_order ask with
    | true, true =>
        let* b := unwrap (oc_quantity_t1 bid debt) in
        let* a := unwrap (oc_quantity_t1 ask debt) in Ok (b, a)
    | _, _ => Ok (oc_quantity bid ask debt, oc_quantity ask bid debt)
    end
  else Ok (oc_quantity bid ask debt, oc_quantity ask bid debt).

Definition Outcome : Type := option VolumeFillMatchEndReason * VolumeFillMatcher.

Definition stop (m : VolumeFillMatcher) (s : SolveState) (r : VolumeFillMatchEndReason) : M Outcome :=
  Ok (Some r, mkVolumeFillMatcher s (vm_checkpoint m)).

(** [if Self::fill_amm(..).is_err() { return Some(ErrorEncountered) }], when
    there is an AMM. *)
Definition try_fill_amm (m : VolumeFillMatcher) (s : SolveState) (quantity : Z) (direction : Direction)
    (k : SolveState -> M Outcome) : M Outcome :=
  match vs_amm_price s with
  | None => k s
  | Some amm =>
      match fill_amm s amm quantity direction with
      | Ok s' => k s'
      | Err _ => stop m s ErrorEncountered
      | Panic => Panic
      end
  end.

(** The ask is a debt without quantity of its own: fill it from the next ask. *)
Definition ask_backmatch (m : VolumeFillMatcher) (s : SolveState) (bid ask : OrderContainer) : M Outcome :=
  let go (s : SolveState) : M Outcome := Ok (None, mkVolumeFillMatcher s (vm_checkpoint m)) in
  let* (ai, next) := next_order false (vs_ask_idx s) None (vs_amm_price s) (ob_asks (vs_book s))
                       (vs_ask_outcomes s) in
  let s := with_ask_idx s ai in
  match next with
  | None => stop m s NoMoreAsks
  | Some next_ask =>
      let* next_price := oc_price next_ask in
      let* bid_price := oc_price bid in
      if is_amm ask then
        let* (amm_q, _) := composite_quantities_to_price ask next_price in
        try_fill_amm m s amm_q BuyingT0 (fun s =>
          match vs_debt s with
          | Some d => let* d' := debt_partial_fill d amm_q in go (with_debt s (Some d'))
          | None => go s
          end)
      else if bid_price <? next_price then stop m s NoLongerCross
      else if is_amm next_ask && is_amm bid then stop m s NoMoreAsks
      else
        let t1_context := negb (is_amm ask) && inverse_order next_ask in
        let normal_next_q := oc_quantity next_ask bid (vs_debt s) in
        let* next_ask_q :=
          if is_amm next_ask then
            match vs_debt s with
            | Some d =>
                match amm_intersect next_ask d with
                | Ok i => Ok (Z.min i normal_next_q)
                | Err _ => Ok normal_next_q
                | Panic => Panic
                end
            | None => Ok normal_next_q
            end
          else Ok normal_next_q in
        let* cur_ask_q :=
          if t1_context then oc_negative_quantity_t1 ask bid_price
          else oc_negative_quantity ask bid_price in
        if cur_ask_q =? 0 then stop m s ErrorEncountered else
        let matched := Z.min next_ask_q cur_ask_q in
        if matched =? 0 then stop m s ZeroQuantity else
        let is_order := negb (is_amm next_ask) && negb (is_composite next_ask) in
        let settle (s : SolveState) : M Outcome :=
          match next_ask_q ?= cur_ask_q with
          | Eq =>
              let s := with_price s next_price in
              let* s := if is_order then set_ask_outcome s complete_fill else Ok s in
              let s := with_debt s ((fun d => set_price d next_price) <$> vs_debt s) in
              Ok (None, save_checkpoint (mkVolumeFillMatcher s (vm_checkpoint m)))
          | Gt =>
              let s := with_price s next_price in
              let s := with_debt s ((fun d => set_price d next_price) <$> vs_debt s) in
              let* s := if is_order then set_ask_outcome s (fun o => partial_fill o matched) else Ok s in
              go s
          | Lt =>
              let* s :=
                match vs_debt s with
                | Some d =>
                    let* new_debt := debt_partial_fill d matched in
                    Ok (with_debt (with_price s (cur_price new_debt)) (Some new_debt))
                | None => Ok s
                end in
              let* s := if is_order then set_ask_outcome s complete_fill else Ok s in
              go s
          end in
        if is_amm ask || is_amm next_ask then try_fill_amm m s matched BuyingT0 settle else settle s
  end.

(** Instrumentation: the volume matched, and the share of partial orders. *)
Definition record_volume (s : SolveState) (bid ask : OrderContainer) (matched : Z) : M SolveState :=
  let r := vs_results s in
  let* total := u128_add (so_total_volume r) matched in
  let* pb := if oc_is_partial bid then u128_add (so_partial_volume r).1 matched
             else Ok (so_partial_volume r).1 in
  let* pa := if oc_is_partial ask then u128_add (so_partial_volume r).2 matched
             else Ok (so_partial_volume r).2 in
  Ok (with_results s (mkSolution (so_price r) total (pb, pa) (so_amm_is_bid r) (so_amm_volume r)
                        (so_amm_final_price r) (so_amm_average_price r))).

(** T0 the AMM moves by. *)
Definition amm_share (s : SolveState) (a_o : OrderContainer) (t1_context : bool) (matched : Z)
    (direction : Direction) : M Z :=
  if t1_context && is_debt a_o then
    let* d := unwrap (vs_debt s) in freed_t0 d matched
  else
    let* (q, _) := composite_t0_quantities a_o matched direction in unwrap q.

(** T1 matched, before the debt changes. *)
Definition matched_t1 (s : SolveState) (bid ask : OrderContainer) (t1_context : bool) (matched : Z) : M Z :=
  if t1_context then Ok matched
  else match inverse_order bid, inverse_order ask with
       | true, false => unwrap (oc_max_t1_for_t0 bid matched (vs_debt s))
       | false, true => unwrap (oc_max_t1_for_t0 ask matched (vs_debt s))
       | _, _ => Ok 0
       end.

Definition adjust_debt (s : SolveState) (bid ask : OrderContainer) (t1_context : bool)
    (matched t1_matched : Z) : M SolveState :=
  let debt_order :=
    if is_debt bid then Some (bid, SellingT0)
    else if is_debt ask then Some (ask, BuyingT0) else None in
  match debt_order with
  | Some (d_o, direction) =>
      if t1_context then
        match vs_debt s with
        | Some d =>
            if is_amm d_o then Ok (with_debt s (Some (flat_fill_t1 d matched)))
            else let* d' := debt_partial_fill_t1 d matched in Ok (with_debt s (Some d'))
        | None => Ok s
        end
      else
        let* (_, q) := composite_t0_quantities d_o matched direction in
        let* quantity := unwrap q in
        match vs_debt s with
        | Some d => let* d' := debt_partial_fill d quantity in Ok (with_debt s (Some d'))
        | None => Ok s
        end
  | None =>
      match as_debt ask (Some t1_matched) false, as_debt bid (Some t1_matched) true with
      | Some net_debt, None | None, Some net_debt =>
          let* d := option_debt_add (vs_debt s) net_debt in Ok (with_debt s d)
      | _, _ => Ok s
      end
  end.

(** Outcomes, price and checkpoint after a match. *)
Definition settle_match (m : VolumeFillMatcher) (s : SolveState) (bid ask : OrderContainer)
    (bid_q ask_q matched t1_matched : Z) : M Outcome :=
  let* ask_price := oc_price ask in
  let* bid_price := oc_price bid in
  let save (s : SolveState) : M Outcome :=
    Ok (None, save_checkpoint (mkVolumeFillMatcher s (vm_checkpoint m))) in
  let go (s : SolveState) : M Outcome := Ok (None, mkVolumeFillMatcher s (vm_checkpoint m)) in
  match bid_q ?= ask_q with
  | Eq =>
      let* new_price :=
        match vs_debt s with
        | Some d => Ok (cur_price d)
        | None => Ray.div_u256 (uint_add 256 ask_price bid_price) 2
        end in
      let s := with_price s new_price in
      let* s := if is_book ask then set_ask_outcome s complete_fill else Ok s in
      let* s := if is_book bid then set_bid_outcome s complete_fill else Ok s in
      save s
  | Gt =>
      let s := with_price s bid_price in
      let* s := if is_book ask then set_ask_outcome s complete_fill else Ok s in
      if is_book bid then
        let partial_q := if inverse_order bid then t1_matched else matched in
        let* s := set_bid_outcome s (fun o => partial_fill o partial_q) in
        if oc_is_partial bid then save s else go s
      else save s
  | Lt =>
      let s := with_price s ask_price in
      let* s := if is_book bid then set_bid_outcome s complete_fill else Ok s in
      if is_book ask then
        let partial_q := if inverse_order ask then t1_matched else matched in
        let* s := set_ask_outcome s (fun o => partial_fill o partial_q) in
        if oc_is_partial ask then save s else go s
      else save s
  end.

Definition normal_match (m : VolumeFillMatcher) (s : SolveState) (bid ask : OrderContainer)
    (bid_q ask_q : Z) : M Outcome :=
  if (ask_q =? 0) || (bid_q =? 0) then stop m s ZeroQuantity else
  let matched := Z.min ask_q bid_q in
  let* s := record_volume s bid ask matched in
  let t1_context := (inverse_order bid || is_debt bid) && (inverse_order ask || is_debt ask) in
  let rest (s : SolveState) : M Outcome :=
    let* t1_matched := matched_t1 s bid ask t1_context matched in
    let* s := adjust_debt s bid ask t1_context matched t1_matched in
    settle_match m s bid ask bid_q ask_q matched t1_matched in
  let amm_order :=
    if is_amm bid then Some (bid, SellingT0)
    else if is_amm ask then Some (ask, BuyingT0) else None in
  match amm_order, vs_amm_price s with
  | Some (a_o, direction), Some _ =>
      let* quantity := amm_share s a_o t1_context matched direction in
      try_fill_amm m s quantity direction rest
  | _, _ => rest s
  end.

Definition single_match (m : VolumeFillMatcher) : M Outcome :=
  let s := vm_state m in
  let* (bi, bid) := next_order true (vs_bid_idx s) (vs_debt s) (vs_amm_price s) (ob_bids (vs_book s))
                      (vs_bid_outcomes s) in
  let s := with_bid_idx s bi in
  match bid with
  | None => stop m s NoMoreBids
  | Some bid =>
      let* (ai, ask) := next_order false (vs_ask_idx s) (vs_debt s) (vs_amm_price s)
                          (ob_asks (vs_book s)) (vs_ask_outcomes s) in
      let s := with_ask_idx s ai in
      match ask with
      | None => stop m s NoMoreAsks
      | Some ask =>
          if is_amm bid && is_amm ask then stop m s BothSidesAMM else
          let* ask_price := oc_price ask in
          let* bid_price := oc_price bid in
          if bid_price <? ask_price then stop m s NoLongerCross else
          let* (bid_q, ask_q) := get_match_quantities bid ask (vs_debt s) in
          if (ask_q =? 0) && is_debt ask then ask_backmatch m s bid ask
          else normal_match m s bid ask bid_q ask_q
      end
  end.

(** The loop panics after a thousand rounds without an end. *)
Fixpoint run_match_loop (rounds : nat) (m : VolumeFillMatcher) :
    M (VolumeFillMatchEndReason * VolumeFillMatcher) :=
  match rounds with
  | O => Panic
  | Datatypes.S rounds =>
      let* (r, m') := single_match m in
      match r with Some r => Ok (r, m') | None => run_match_loop rounds m' end
  end.

Definition run_match (m : VolumeFillMatcher) : M (VolumeFillMatchEndReason * VolumeFillMatcher) :=
  run_match_loop 1001 m.

(** Outcomes are paired with the orders by position; indexing the book panics
    out of range. *)
Definition vm_solution (m : VolumeFillMatcher) (searcher : option (OrderWithStorageData TopOfBlockOrder)) :
    M PoolSolution :=
  let s := vm_state m in
  let outcomes (orders : list BookOrder) (l : list OrderFillState) : M (list OrderOutcome) :=
    M_map (fun p => let* o := unwrap (orders !! p.1) in Ok (mkOrderOutcome (order_id o) p.2))
      (imap pair l) in
  let* bids := outcomes (ob_bids (vs_book s)) (vs_bid_outcomes s) in
  let* asks := outcomes (ob_asks (vs_book s)) (vs_ask_outcomes s) in
  let ucp := default 0 (so_price (vs_results s)) in
  Ok (mkPoolSolution (ob_id (vs_book s)) ucp searcher (vs_amm_outcome s) (bids ++ asks) 0 0).

End Matcher.

#[global] Arguments run_match_loop : simpl never.

(** ** Lemmas *)

Section MatcherLemmas.
Context {P : Profile} {U : UniswapMath} {S : SqrtPriceMath} {E : OrderEnv}.

(** Without a debt and an AMM the next order of a fresh side is its first. *)
Lemma next_order_fresh bid (book : list BookOrder) :
  next_order bid 0 None None book (replicate (length book) Unfilled) =
  Ok (0%nat, (fun o => OcBook o Unfilled) <$> head book).
Proof. by destruct book. Qed.

Definition both_inverse (book : OrderBook) : bool :=
  match ob_bids book, ob_asks book with
  | b :: _, a :: _ =>
      Bool.eqb (is_bid (order b)) (exact_in (order b)) &&
      Bool.eqb (is_bid (order a)) (exact_in (order a))
  | _, _ => false
  end.

Definition first_end (book : OrderBook) : VolumeFillMatchEndReason :=
  match ob_bids book, ob_asks book with
  | [], _ => NoMoreBids
  | _, [] => NoMoreAsks
  | _, _ => ZeroQuantity
  end.

Lemma single_match_new book :
  single_match (VolumeFillMatcher_new book) =
  if both_inverse book then Panic else Ok (Some (first_end book), VolumeFillMatcher_new book).
Proof.
  unfold single_match, VolumeFillMatcher_new.
  cbn [vm_state save_checkpoint vs_bid_idx vs_debt vs_amm_price vs_book vs_bid_outcomes].
  rewrite next_order_fresh. unfold both_inverse, first_end.
  destruct (ob_bids book) as [| b bids] eqn:Eb; [done |].
  cbn [head fmap option_fmap option_map M_bind with_bid_idx vs_ask_idx vs_debt vs_amm_price vs_book vs_ask_outcomes].
  rewrite next_order_fresh. destruct (ob_asks book) as [| a asks] eqn:Ea.
  { cbn. rewrite ?Eb, ?Ea. done. }
  cbn [head fmap option_fmap option_map M_bind].
  unfold get_match_quantities. cbn [is_amm andb oc_price M_bind is_book Z.ltb Z.compare].
  unfold inverse_order at 1 2.
  destruct (Bool.eqb (is_bid (order b)) _), (Bool.eqb (is_bid (order a)) _); cbn; rewrite ?Eb, ?Ea; done.
Qed.

Lemma M_map_imap_orders (orders : list BookOrder) (o : OrderFillState) (pre : list BookOrder) :
  M_map (fun p => let* x := unwrap ((pre ++ orders) !! p.1) in Ok (mkOrderOutcome (order_id x) p.2))
    (imap (fun i y => ((length pre + i)%nat, y)) (replicate (length orders) o)) =
  Ok (map (fun x => mkOrderOutcome (order_id x) o) orders).
Proof.
  revert pre. induction orders as [| x orders IH]; intros pre; [done |].
  cbn [replicate length imap M_map]. rewrite lookup_app_r by (simpl; lia).
  cbn [fst snd]. replace (length pre + 0 - length pre)%nat with 0%nat by lia. cbn [lookup list_lookup unwrap M_bind].
  specialize (IH (pre ++ [x])). rewrite <- app_assoc in IH. cbn [app] in IH.
  rewrite length_app in IH. cbn [length] in IH.
  rewrite (imap_ext _ (fun i y => ((length pre + 1 + i)%nat, y))).
  2:{ intros i y _. simpl. f_equal. lia. }
  rewrite IH. done.
Qed.

Lemma outcomes_unfilled (orders : list BookOrder) :
  M_map (fun p => let* x := unwrap (orders !! p.1) in Ok (mkOrderOutcome (order_id x) p.2))
    (imap pair (replicate (length orders) Unfilled)) =
  Ok (map (fun x => mkOrderOutcome (order_id x) Unfilled) orders).
Proof. exact (M_map_imap_orders orders Unfilled []). Qed.

End MatcherLemmas.

(** ** Properties *)

(** The two shares of an amount of T0 given to an AMM and a debt that move
    together use it up exactly. *)
Theorem composite_shares_exact (P : Profile) c q direction a d x y :
  0 <= q -> co_amm c = Some a -> co_debt c = Some d ->
  t0_quantities c q direction = Ok (Some x, Some y) -> 0 <= x /\ 0 <= y /\ x + y = q.
Proof.
  intros Hq Ha Hd. unfold t0_quantities. rewrite Ha, Hd. intros H.
  apply M_bind_Ok in H as (c0 & _ & H). apply M_bind_Ok in H as (r & Hr & H). injection H as <- <-.
  apply same_move_bounded in Hr; [| done]. unfold saturating_sub. lia.
Qed.

(** The volume matcher does not match: on every book the first round ends the
    run, either with a panic, exactly when the first bid and the first ask are
    both exact in T1, or without any fill, because the quantity and price
    queries of book orders are stubs.  The solution of such a run leaves every
    order unfilled, at a price of zero and without the AMM. *)
Theorem volume_matcher_idle (P : Profile) (U : UniswapMath) (S : SqrtPriceMath) (E : OrderEnv)
    book searcher :
  run_match (VolumeFillMatcher_new book) =
    (if both_inverse book then Panic else Ok (first_end book, VolumeFillMatcher_new book)) /\
  vm_solution (VolumeFillMatcher_new book) searcher =
    Ok (mkPoolSolution (ob_id book) 0 searcher None
          (map (fun o => mkOrderOutcome (order_id o) Unfilled) (all_orders book)) 0 0).
Proof.
  split.
  - unfold run_match. change 1001%nat with (Datatypes.S 1000). unfold run_match_loop; fold run_match_loop.
    rewrite single_match_new. by destruct (both_inverse book).
  - unfold vm_solution, VolumeFillMatcher_new, save_checkpoint.
    cbn [vm_state vs_book vs_bid_outcomes vs_ask_outcomes vs_results vs_amm_outcome].
    rewrite !outcomes_unfilled. cbn [M_bind]. unfold all_orders. by rewrite map_app.
Qed.
