(* ===== verification/MatchingManager.v ===== *)
(** * The matching manager and the simulation of a bundle

    crates/matching-engine/src/manager.rs: the task that turns the orders of a round into
    one solution per pool.  It groups the limit orders by pool, builds a book per pool, keeps
    the first top-of-block order of each pool, solves the books in parallel, builds a bundle
    from the solutions and asks the validator for the gas of that bundle.  Also the validator's
    side of that question, crates/validation/src/bundle/{mod,validator}.rs.

    Hash maps and sets have no order and the parallel tasks finish in any order: the class
    [Schedule] is one choice of these orders, and the theorems hold for every choice.
    A task that panics leaves no solution.  The EVM is the class [EvmReplay]. *)

From S2P Require Import Prelude Uniswap Ray Donation Orders PoolSwap Book DeltaMatcher OrderPool ConsensusMessages Rounds.
From S2P Require Import Assets Accounts BundleOrders Bundle Chain PoolStore EthManager TokenPricing Validation.

(** The iteration orders of the hash tables and the completion order of the tasks. *)
Class Schedule := {
  hash_order {A : Type} : list A -> list A;
  join_order {A : Type} : list A -> list A;
  hash_order_perm {A : Type} (l : list A) : hash_order l ≡ₚ l;
  join_order_perm {A : Type} (l : list A) : join_order l ≡ₚ l;
}.

Record BundleGasDetails := mkBundleGasDetails {
  token_price_per_wei : gmap (Address * Address) Z;
  total_gas_cost_wei : Z;
}.

(** ** The simulation of a bundle *)

(** The transaction handed to the EVM, and the block it runs in. *)
Record BundleCall := mkBundleCall {
  bc_caller : Address;
  bc_to : Address;
  bc_chain_id : Z;
  bc_data : Bytes;
  bc_block_number : Z;
}.

(** The encoding of a bundle in a call of [Angstrom::execute]. *)
Class BundleAbi := execute_call : AngstromBundle -> Bytes.

(** [inspect_replay] runs a transaction: an error of the EVM, or whether it succeeded and
    the gas it used. *)
Class EvmReplay := {
  CHAIN_ID : Z;
  inspect_replay : BundleCall -> option (bool * Z);
}.

Record BundleValidator := mkBundleValidator {
  bv_angstrom_address : Address;
  bv_node_address : Address;
}.

Section Simulation.
Context {P : Profile} {Abi : BundleAbi} {V : EvmReplay}.

(** [simulate_bundle] from the encoding on; the prices are looked up by the caller. *)
Definition simulate_bundle (v : BundleValidator) (bundle : AngstromBundle) (number : Z) : M Z :=
  let* block := checked_u 64 (number + 1) in
  match inspect_replay (mkBundleCall (bv_node_address v) (bv_angstrom_address v) CHAIN_ID
                          (execute_call bundle) block) with
  | None => Err "transaction simulation failed - failed to transaction with revm"
  | Some (success, gas_used) =>
      if negb success then Err "transaction simulation failed" else Ok gas_used
  end.
End Simulation.

(** [ValidationClient::fetch_gas_for_bundle]: a request to the validator, on channel [ch];
    a dropped channel is an error. *)
Section FetchGas.
Context {P : Profile} {U : UniswapMath} {C : OrderCrypto} {F : Accounts.StateFetchUtils} {Abi : BundleAbi} {V : EvmReplay}.

Definition fetch_gas_for_bundle (bv : BundleValidator) (v : Validator) (ch : nat) (bundle : AngstromBundle) :
    M (BundleGasDetails * Validator) :=
  let* v' := on_new_validation_request [] (simulate_bundle bv) v (BundleRequest ch bundle) in
  match last (v_sent v') with
  | Some (_, BundleResult r) => let* (lookup, gas) := r in Ok (mkBundleGasDetails lookup gas, v')
  | _ => Err "channel closed"
  end.
End FetchGas.

(** ** The manager *)

Abbreviation LimitOrders := (list (OrderWithStorageData AllOrders)) (only parsing).
Abbreviation SearcherOrders := (list (OrderWithStorageData TopOfBlockOrder)) (only parsing).
Abbreviation Solved := (list PoolSolution * BundleGasDetails)%type (only parsing).

Inductive MatcherCommand :=
| BuildProposal (limit : LimitOrders) (searcher : SearcherOrders) (pools : Pools)
| EstimateGasPerPool (limit : LimitOrders) (searcher : SearcherOrders) (pools : Pools).

(** [OrderBook::default] with its id set. *)
Definition empty_book (id : PoolId) : OrderBook := mkOrderBook id None [] [].

(** The first top-of-block order of each pool. *)
Definition first_searchers (searcher : SearcherOrders) : gmap PoolId (OrderWithStorageData TopOfBlockOrder) :=
  fold_left (fun acc o => match acc !! pool_id o with None => <[pool_id o := o]> acc | Some _ => acc end) searcher ∅.

Section Manager.
Context {P : Profile} {U : UniswapMath} {E : OrderEnv} {A : AlloySignature} {K : Keccak} {Sch : Schedule}.

Definition orders_sorted_by_pool_id (limit : LimitOrders) : OrdersByPool :=
  fold_left (fun acc o => <[pool_id o := set_insert o (default [] (acc !! pool_id o))]> acc) limit ∅.

(** The book of one entry of the map. *)
Definition book_of (pools : Pools) (e : PoolId * LimitOrders) : M OrderBook :=
  build_book e.1 ((fun v => v.1.2) <$> pools !! e.1) (hash_order e.2).

Definition build_non_proposal_books (limit : LimitOrders) (pools : Pools) : M (list OrderBook) :=
  M_map (book_of pools) (hash_order (map_to_list (orders_sorted_by_pool_id limit))).

Definition build_books {SK : SigningKey} (preproposals : list PreProposal) (pools : Pools) : M (list OrderBook) :=
  M_map (book_of pools) (hash_order (map_to_list (orders_by_pool_id preproposals))).

(** The books to solve, each with its top-of-block order.  With no limit order every
    top-of-block order is solved on an empty book; otherwise only the pools of limit
    orders are solved. *)
Definition pool_tasks (books : list OrderBook) (searcher_orders : gmap PoolId (OrderWithStorageData TopOfBlockOrder)) :
    list (OrderBook * option (OrderWithStorageData TopOfBlockOrder)) :=
  match books with
  | [] => map (fun s => (empty_book (pool_id s), Some s)) (hash_order (map_to_list searcher_orders).*2)
  | _ => map (fun b => (b, searcher_orders !! ob_id b)) books
  end.

(** [join_next]: a task that panicked is skipped. *)
Definition join_solutions (tasks : list (OrderBook * option (OrderWithStorageData TopOfBlockOrder))) : list PoolSolution :=
  omap (fun r => match r with Ok s => Some s | _ => None end)
    (join_order (map (fun t => run_strategy t.1 t.2) tasks)).

Definition solve_books (limit : LimitOrders) (searcher : SearcherOrders) (pools : Pools) : M (list PoolSolution) :=
  let* books := build_non_proposal_books limit pools in
  Ok (join_solutions (pool_tasks books (first_searchers searcher))).

(** [fetch_gas] is the handle of the validator. *)
Definition build_proposal (fetch_gas : AngstromBundle -> M BundleGasDetails) (limit : LimitOrders)
    (searcher : SearcherOrders) (pools : Pools) : M Solved :=
  let* solutions := solve_books limit searcher pools in
  let* bundle := for_gas_finalization limit solutions pools in
  let* gas_response := fetch_gas bundle in
  Ok (solutions, gas_response).

(** Ends in [todo!()]: only the errors before it are values. *)
Definition _estimate_current_fills (fetch_gas : AngstromBundle -> M BundleGasDetails) (limit : LimitOrders)
    (searcher : SearcherOrders) (pools : Pools) : M unit :=
  let* books := build_non_proposal_books limit pools in
  let searcher_orders := first_searchers searcher in
  let solutions := join_solutions (map (fun b => (b, searcher_orders !! ob_id b)) books) in
  let* bundle := for_gas_finalization limit solutions pools in
  let* _ := fetch_gas bundle in
  Panic.

(** The answers to the commands, in their order; no answer once the task has panicked. *)
Fixpoint manager_thread (fetch_gas : AngstromBundle -> M BundleGasDetails) (input : list MatcherCommand) :
    list (option (M Solved)) :=
  match input with
  | [] => []
  | EstimateGasPerPool _ _ _ :: rest => None :: map (fun _ => None) rest
  | BuildProposal limit searcher pools :: rest =>
      match build_proposal fetch_gas limit searcher pools with
      | Panic => None :: map (fun _ => None) rest
      | r => Some r :: manager_thread fetch_gas rest
      end
  end.

(** [send_request]: the caller unwraps the answer. *)
Definition send_request (answer : option (M Solved)) : M Solved :=
  match answer with Some r => r | None => Panic end.

Definition matcher_solve_pools (fetch_gas : AngstromBundle -> M BundleGasDetails) (before : list MatcherCommand)
    (limit : LimitOrders) (searcher : SearcherOrders) (pools : Pools) : M Solved :=
  send_request (mjoin (manager_thread fetch_gas (before ++ [BuildProposal limit searcher pools]) !! length before)).

(** The consensus rounds' view of the manager and of the bundle builder. *)
Definition matching_engine {SK : SigningKey} (fetch_gas : AngstromBundle -> M BundleGasDetails) : RoundEnv := {|
  Snapshots := Pools;
  solve_pools limit searcher pools := let* r := matcher_solve_pools fetch_gas [] limit searcher pools in Ok r.1;
  encode_bundle p pools := let* _ := from_proposal p pools in Ok tt;
|}.

End Manager.

(** ** Lemmas *)

Lemma M_map_perm {X Y} (f : X -> M Y) l l' r :
  l ≡ₚ l' -> M_map f l = Ok r -> exists r', M_map f l' = Ok r' /\ r ≡ₚ r'.
Proof.
  intros Hp. revert r. induction Hp as [| x l l' _ IH | x y l | l l' l'' _ IH1 _ IH2]; intros r H; simpl in *.
  - injection H as <-. by exists [].
  - apply M_bind_Ok in H as (y & Hy & H). apply M_bind_Ok in H as (ys & Hys & H). injection H as <-.
    destruct (IH ys Hys) as (r' & Hr & Hpr). rewrite Hy. cbn. rewrite Hr. cbn. eexists. split; [done |]. by f_equiv.
  - apply M_bind_Ok in H as (b & Hb & H). apply M_bind_Ok in H as (bs & Hbs & H). injection H as <-.
    apply M_bind_Ok in Hbs as (c & Hc & Hcs). apply M_bind_Ok in Hcs as (cs & Hcs & H). injection H as <-.
    rewrite Hc. cbn. rewrite Hb. cbn. rewrite Hcs. cbn. eexists. split; [done |]. apply Permutation_swap.
  - destruct (IH1 r H) as (r' & Hr & Hp). destruct (IH2 r' Hr) as (r'' & Hr' & Hp').
    exists r''. split; [done | by etrans].
Qed.

Lemma M_map_Forall2_Ok {X Y} (f : X -> M Y) l r : M_map f l = Ok r <-> Forall2 (fun x y => f x = Ok y) l r.
Proof.
  revert r. induction l as [| x l IH]; intros r; simpl.
  - split; [by intros [= <-] | by intros ->%Forall2_nil_inv_l].
  - split.
    + intros H. apply M_bind_Ok in H as (y & Hy & H). apply M_bind_Ok in H as (ys & Hys & H). injection H as <-.
      constructor; [done | by apply IH].
    + intros (y & ys & Hy & Hys & ->)%Forall2_cons_inv_l. rewrite Hy. cbn. by rewrite (proj2 (IH ys) Hys).
Qed.

Lemma M_map_impl {X Y} (f g : X -> M Y) l r :
  (forall x y, x ∈ l -> f x = Ok y -> g x = Ok y) -> M_map f l = Ok r -> M_map g l = Ok r.
Proof.
  revert r. induction l as [| x l IH]; intros r Hfg H; cbn in *; [done |].
  apply M_bind_Ok in H as (y & Hy & H). apply M_bind_Ok in H as (ys & Hys & H). injection H as <-.
  rewrite (Hfg x y (list_elem_of_here _ _) Hy). cbn. rewrite (IH ys); [done | | done].
  intros z w Hz. apply Hfg. by apply list_elem_of_further.
Qed.

(** Sorting forgets the order it starts from when equal keys mean equal elements. *)
Lemma sort_by_unique {X} (cmp : X -> X -> comparison) l l' :
  (forall a b c, cmp a b <> Gt -> cmp b c <> Gt -> cmp a c <> Gt) -> (forall a b, cmp a b = Gt -> cmp b a <> Gt) ->
  (forall a b, a ∈ l -> b ∈ l -> cmp a b <> Gt -> cmp b a <> Gt -> a = b) ->
  l ≡ₚ l' -> sort_by cmp l = sort_by cmp l'.
Proof.
  intros Ht Ha Hu Hp. eapply (StronglySorted_unique_strong (fun a b => cmp a b <> Gt)).
  - intros a b Hia Hib. rewrite sort_by_perm in Hia. rewrite sort_by_perm, <- Hp in Hib. by apply Hu.
  - by apply sort_by_sorted.
  - by apply sort_by_sorted.
  - by rewrite !sort_by_perm.
Qed.

Lemma omap_perm {X Y} (f : X -> option Y) l l' : l ≡ₚ l' -> omap f l ≡ₚ omap f l'.
Proof.
  induction 1 as [| x l l' _ IH | x y l | l l' l'' _ IH1 _ IH2]; simpl; [done | | | by etrans].
  - case_match; [by f_equiv | done].
  - destruct (f x), (f y); try done. apply Permutation_swap.
Qed.

Lemma NoDup_map_inj {X Y} (f : X -> Y) l x y : NoDup (map f l) -> x ∈ l -> y ∈ l -> f x = f y -> x = y.
Proof.
  induction l as [| z l IH]; [by intros _ ?%not_elem_of_nil |]. cbn. intros [Hn Hd]%NoDup_cons Hx Hy He.
  apply elem_of_cons in Hx as [-> | Hx], Hy as [-> | Hy]; [done | | | by apply IH].
  - destruct Hn. apply list_elem_of_fmap. by exists y.
  - destruct Hn. apply list_elem_of_fmap. by exists x.
Qed.

Section ManagerLemmas.
Context {P : Profile} {U : UniswapMath} {E : OrderEnv}.

(** The orders of each pool, once each. *)
Definition grouped (limit : LimitOrders) (m : gmap PoolId LimitOrders) : Prop :=
  forall id, match m !! id with
             | Some l => l <> [] /\ NoDup l /\ forall o, o ∈ l <-> o ∈ limit /\ pool_id o = id
             | None => forall o, o ∈ limit -> pool_id o <> id
             end.

Lemma orders_grouped limit : grouped limit (orders_sorted_by_pool_id limit).
Proof.
  unfold orders_sorted_by_pool_id, OrdersByPool. induction limit as [| o l IH] using rev_ind.
  { intros id. cbn [fold_left]. rewrite lookup_empty. by intros ? ?%not_elem_of_nil. }
  rewrite fold_left_app. cbn [fold_left]. set (m := fold_left _ l ∅) in *. intros id. specialize (IH id).
  destruct (decide (pool_id o = id)) as [<- | Hne].
  - rewrite lookup_insert_eq. split_and!.
    + intros E0. pose proof (proj2 (set_insert_elem o o (default [] (m !! pool_id o))) (or_introl eq_refl)) as Hi.
      rewrite E0 in Hi. by apply not_elem_of_nil in Hi.
    + apply set_insert_NoDup. destruct (m !! pool_id o); [apply IH | constructor].
    + intros x. rewrite set_insert_elem, elem_of_app, list_elem_of_singleton.
      destruct (m !! pool_id o) as [k |]; cbn.
      * rewrite (proj2 (proj2 IH)). naive_solver.
      * split; [intros [-> | Hx]; [by auto | by apply not_elem_of_nil in Hx] |]. intros [[Hx | ->] Hp]; [by apply IH in Hx | by left].
  - rewrite lookup_insert_ne by done. destruct (m !! id) as [k |].
    + destruct IH as (H1 & H2 & H3). split_and!; [done | done |]. intros x.
      rewrite H3, elem_of_app, list_elem_of_singleton. naive_solver.
    + intros x. rewrite elem_of_app, list_elem_of_singleton. naive_solver.
Qed.

(** The first top-of-block order of the pool, if any. *)
Lemma first_searchers_spec searcher id :
  first_searchers searcher !! id = head (List.filter (fun o => pool_id o =? id) searcher).
Proof.
  unfold first_searchers.
  assert (forall acc, fold_left (fun acc o => match acc !! pool_id o with None => <[pool_id o := o]> acc
                                              | Some _ => acc end) searcher acc !! id =
    match acc !! id with Some x => Some x | None => head (List.filter (fun o => pool_id o =? id) searcher) end) as ->;
    [| by rewrite lookup_empty].
  induction searcher as [| o l IH]; intros acc; cbn; [by destruct (acc !! id) |]. rewrite IH.
  destruct (Z.eqb_spec (pool_id o) id) as [<- | Hne].
  - destruct (acc !! pool_id o) eqn:Ea; [by rewrite Ea | by rewrite lookup_insert_eq].
  - destruct (acc !! pool_id o); [done |]. by rewrite lookup_insert_ne by done.
Qed.

Lemma first_searchers_key searcher id o : first_searchers searcher !! id = Some o -> pool_id o = id /\ o ∈ searcher.
Proof.
  rewrite first_searchers_spec. intros H. assert (o ∈ List.filter (fun o => pool_id o =? id) searcher) as [Ho Hp]%list_filter_in.
  { destruct (List.filter _ _); [done |]. injection H as ->. apply list_elem_of_here. }
  split; [by apply Z.eqb_eq | done].
Qed.

(** Two different orders of one side of one pool never compare equal. *)
Definition no_ties (limit : LimitOrders) : Prop :=
  forall a b, a ∈ limit -> b ∈ limit -> pool_id a = pool_id b -> osd_is_bid a = osd_is_bid b ->
    price_partial_volume a b = Eq -> a = b.

Lemma price_partial_volume_both a b :
  price_partial_volume a b <> Gt -> price_partial_volume b a <> Gt -> price_partial_volume a b = Eq.
Proof.
  unfold price_partial_volume.
  rewrite (Z.compare_antisym (pd_price (priority_data a))), (Z.compare_antisym (pd_volume (priority_data a))),
    (Z.compare_antisym (pd_gas (priority_data a))), (Z.compare_antisym (pd_gas_units (priority_data a))).
  destruct (is_partial (order a)), (is_partial (order b)), (pd_price _ ?= _), (pd_volume _ ?= _), (pd_gas _ ?= _),
    (pd_gas_units _ ?= _); simpl; congruence.
Qed.

Lemma sort_side_unique l l' :
  (forall a b, a ∈ l -> b ∈ l -> price_partial_volume a b = Eq -> a = b) -> l ≡ₚ l' ->
  sort_by price_partial_volume l = sort_by price_partial_volume l'.
Proof.
  intros Hu Hp. apply sort_by_unique; [| | | done].
  - intros *. rewrite !price_partial_volume_lex. by apply lex_cmp_trans.
  - intros *. rewrite !price_partial_volume_lex. apply lex_cmp_anti.
  - intros a b Ha Hb H1 H2. by apply Hu, price_partial_volume_both.
Qed.

Lemma keyed_snd (l : LimitOrders) k :
  M_map (fun o => let* p := limit_price (order o) in Ok (p, o)) l = Ok k -> map snd k = l.
Proof.
  revert k. induction l as [| o l IH]; intros k H; cbn in H; [by injection H as <- |].
  apply M_bind_Ok in H as (y & Hy & H). apply M_bind_Ok in H as (ys & Hys & H). injection H as <-.
  apply M_bind_Ok in Hy as (p & _ & Hy). injection Hy as <-. cbn. by rewrite (IH ys Hys).
Qed.

Lemma build_book_ok id amm l b :
  build_book id amm l = Ok b -> ob_id b = id /\ ob_amm b = amm /\ all_orders b ≡ₚ l.
Proof.
  unfold build_book. intros H. apply M_bind_Ok in H as (bk & Hbk & H). apply M_bind_Ok in H as (ak & Hak & H).
  injection H as <-. split_and!; [done | done |]. unfold all_orders. cbn. rewrite !sort_by_perm.
  rewrite (keyed_snd _ _ Hbk), (keyed_snd _ _ Hak).
  clear. induction l as [| o l IH]; cbn; [done |]. destruct (osd_is_bid o); cbn; [by f_equiv |].
  by rewrite <- Permutation_middle, IH.
Qed.

(** The book does not depend on the order in which the set is listed. *)
Lemma build_book_unique id amm l l' b :
  (forall a b, a ∈ l -> b ∈ l -> osd_is_bid a = osd_is_bid b -> price_partial_volume a b = Eq -> a = b) ->
  l ≡ₚ l' -> build_book id amm l = Ok b -> build_book id amm l' = Ok b.
Proof.
  intros Hu Hp. unfold build_book. intros H. apply M_bind_Ok in H as (bk & Hbk & H).
  apply M_bind_Ok in H as (ak & Hak & H). injection H as <-.
  destruct (M_map_perm _ _ _ _ (Accounts.filter_perm osd_is_bid _ _ Hp) Hbk) as (bk' & Hbk' & Hpb).
  destruct (M_map_perm _ _ _ _ (Accounts.filter_perm (fun o => negb (osd_is_bid o)) _ _ Hp) Hak) as (ak' & Hak' & Hpa).
  rewrite Hbk'. cbn [M_bind]. rewrite Hak'. cbn [M_bind]. unfold OrderBook_new. cbn [default sort_bids sort_asks].
  f_equal. f_equal; symmetry; apply sort_side_unique; try (by rewrite !sort_by_perm, ?Hpb, ?Hpa).
  - intros x y. rewrite !sort_by_perm, (keyed_snd _ _ Hbk). intros [Hx Hbx]%list_filter_in [Hy Hby]%list_filter_in.
    apply Hu; [done | done | congruence].
  - intros x y. rewrite !sort_by_perm, (keyed_snd _ _ Hak). intros [Hx Hbx]%list_filter_in [Hy Hby]%list_filter_in.
    apply Hu; [done | done |]. by destruct (osd_is_bid x), (osd_is_bid y).
Qed.

Lemma run_strategy_id b s r : run_strategy b s = Ok r -> sol_id r = ob_id b /\ sol_searcher r = s.
Proof.
  unfold run_strategy, DeltaMatcher_new. intros H. apply M_bind_Ok in H as (m & Hm & H).
  apply M_bind_Ok in Hm as (start & _ & Hm). injection Hm as <-. unfold solution in H.
  apply M_bind_Ok in H as (found & _ & H). destruct found as [sol |]; [| by injection H as <-].
  apply M_bind_Ok in H as (limit & _ & H). apply M_bind_Ok in H as (amm & _ & H).
  destruct (existsb _ _); by injection H as <-.
Qed.

End ManagerLemmas.

Section BookLemmas.
Context {P : Profile} {U : UniswapMath} {E : OrderEnv}.

(** A book of one pool: its orders are the limit orders of the pool, once each. *)
Definition book_for (limit : LimitOrders) (pools : Pools) (b : OrderBook) : Prop :=
  ob_amm b = (fun v => v.1.2) <$> pools !! ob_id b /\ NoDup (all_orders b) /\
  forall o, o ∈ all_orders b <-> o ∈ limit /\ pool_id o = ob_id b.

Lemma entry_grouped limit e :
  e ∈ map_to_list (orders_sorted_by_pool_id limit) ->
  e.2 <> [] /\ NoDup e.2 /\ forall o, o ∈ e.2 <-> o ∈ limit /\ pool_id o = e.1.
Proof.
  destruct e as [id l]. intros H%elem_of_map_to_list. pose proof (orders_grouped limit id) as Hg.
  unfold OrdersByPool in *. by rewrite H in Hg.
Qed.

Lemma books_ids {Sch : Schedule} pools es books :
  M_map (book_of pools) es = Ok books -> map ob_id books = es.*1.
Proof.
  intros H%M_map_Forall2_Ok. induction H as [| e b es books He _ IH]; cbn; [done |].
  apply build_book_ok in He as (-> & _). by rewrite IH.
Qed.

Lemma books_spec {Sch : Schedule} limit pools books :
  build_non_proposal_books limit pools = Ok books ->
  NoDup (map ob_id books) /\ (forall id, id ∈ map ob_id books <-> exists o, o ∈ limit /\ pool_id o = id) /\
  Forall (book_for limit pools) books.
Proof.
  unfold build_non_proposal_books. intros H. pose proof (books_ids _ _ _ H) as Hids. split_and!.
  - rewrite Hids, hash_order_perm. apply (NoDup_fst_map_to_list (M := gmap PoolId)).
  - intros id. rewrite Hids, hash_order_perm. pose proof (orders_grouped limit id) as Hg.
    rewrite list_elem_of_fmap. split.
    + intros ([i l] & -> & He). apply entry_grouped in He as (Hne & _ & Hl). destruct l as [| o l]; [done |].
      exists o. apply Hl. apply list_elem_of_here.
    + intros (o & Ho & Hp). destruct (orders_sorted_by_pool_id limit !! id) as [l |] eqn:El.
      * exists (id, l). split; [done |]. by apply elem_of_map_to_list.
      * unfold OrdersByPool in *. rewrite El in Hg. by destruct (Hg o Ho).
  - apply M_map_Forall2_Ok in H. apply Forall_forall. intros b Hb.
    apply list_elem_of_lookup_1 in Hb as [i Hi]. destruct (Forall2_lookup_r _ _ _ _ _ H Hi) as (e & He & Hbk).
    apply list_elem_of_lookup_2 in He. rewrite hash_order_perm in He. apply entry_grouped in He as (_ & Hnd & Hl).
    apply build_book_ok in Hbk as (Hid & Ha & Hp). rewrite hash_order_perm in Hp. rewrite <- Hid in *.
    split_and!; [done | by rewrite Hp | intros o; rewrite Hp; apply Hl].
Qed.

(** Tasks of different schedules. *)
Lemma books_schedules (S1 S2 : Schedule) limit pools books :
  no_ties limit -> @build_non_proposal_books E S1 limit pools = Ok books ->
  exists books', @build_non_proposal_books E S2 limit pools = Ok books' /\ books ≡ₚ books'.
Proof.
  intros Ht H. unfold build_non_proposal_books in *.
  assert (@hash_order S1 _ (map_to_list (orders_sorted_by_pool_id limit)) ≡ₚ
          @hash_order S2 _ (map_to_list (orders_sorted_by_pool_id limit))) as Hp by by rewrite !hash_order_perm.
  destruct (M_map_perm _ _ _ _ Hp H) as (books' & Hb & Hpb). exists books'. split; [| done].
  eapply M_map_impl; [| exact Hb]. intros e b He Hbk. rewrite hash_order_perm in He.
  apply entry_grouped in He as (_ & _ & Hl). unfold book_of in *. eapply build_book_unique; [| | exact Hbk].
  - intros x y. rewrite !hash_order_perm. intros [Hx Hpx]%Hl [Hy Hpy]%Hl. apply Ht; [done | done | congruence].
  - by rewrite !hash_order_perm.
Qed.

Lemma books_nil {Sch : Schedule} limit pools books :
  build_non_proposal_books limit pools = Ok books -> books = [] <-> limit = [].
Proof.
  intros H. destruct (books_spec _ _ _ H) as (_ & Hids & _). split.
  - intros ->. destruct limit as [| o l]; [done |]. exfalso.
    apply (not_elem_of_nil (pool_id o)). apply Hids. exists o. split; [apply list_elem_of_here | done].
  - intros ->. destruct books as [| b l]; [done |]. exfalso.
    destruct (proj1 (Hids (ob_id b)) (list_elem_of_here _ _)) as (o & Ho & _). by apply not_elem_of_nil in Ho.
Qed.

Lemma books_of_nothing {Sch : Schedule} pools : build_non_proposal_books [] pools = Ok [].
Proof.
  unfold build_non_proposal_books. assert (hash_order (map_to_list (orders_sorted_by_pool_id [])) = []) as ->; [| done].
  apply Permutation_nil_r. rewrite hash_order_perm. unfold orders_sorted_by_pool_id, OrdersByPool.
  cbn [fold_left]. by rewrite map_to_list_empty.
Qed.

Lemma join_elem {Sch : Schedule} tasks s :
  s ∈ join_solutions tasks <-> exists t, t ∈ tasks /\ run_strategy t.1 t.2 = Ok s.
Proof.
  unfold join_solutions. rewrite list_elem_of_omap. setoid_rewrite join_order_perm. split.
  - intros (r & Hr & Hs). apply list_elem_of_fmap in Hr as (t & -> & Ht). exists t.
    destruct (run_strategy t.1 t.2); [by injection Hs as -> | done | done].
  - intros (t & Ht & Hr). exists (Ok s). split; [| done]. apply list_elem_of_fmap. by exists t.
Qed.

Lemma tasks_schedules (S1 S2 : Schedule) books books' ss :
  books ≡ₚ books' -> @pool_tasks S1 books ss ≡ₚ @pool_tasks S2 books' ss.
Proof.
  intros Hp. unfold pool_tasks. destruct books as [| b l].
  - symmetry in Hp. apply Permutation_nil_r in Hp. subst books'. apply (Permutation_map (fun s => (empty_book (pool_id s), Some s))).
    by rewrite !hash_order_perm.
  - destruct books' as [| b' l']; [by apply Permutation_nil_r in Hp |].
    by apply (Permutation_map (fun b => (b, ss !! ob_id b))).
Qed.

Lemma join_schedules (S1 S2 : Schedule) tasks tasks' :
  tasks ≡ₚ tasks' -> @join_solutions P U E S1 tasks ≡ₚ @join_solutions P U E S2 tasks'.
Proof.
  intros Hp. unfold join_solutions. apply omap_perm. rewrite !join_order_perm. by apply Permutation_map.
Qed.

(** Each task solves its own pool. *)
Lemma join_ids {Sch : Schedule} tasks :
  NoDup (map (fun t => ob_id t.1) tasks) -> NoDup (map sol_id (join_solutions tasks)).
Proof.
  assert (join_solutions tasks ≡ₚ omap (fun t => match run_strategy t.1 t.2 with Ok s => Some s | _ => None end) tasks) as ->.
  { unfold join_solutions. rewrite (omap_perm _ _ _ (join_order_perm _)). clear.
    induction tasks as [| t l IH]; cbn; [done |]. destruct (run_strategy t.1 t.2); [by f_equiv | done | done]. }
  induction tasks as [| t l IH]; cbn; [constructor |]. intros [Hn Hd]%NoDup_cons.
  destruct (run_strategy t.1 t.2) as [s | |] eqn:Er; cbn; [| by apply IH..].
  apply NoDup_cons. split; [| by apply IH]. intros (s' & Hid & Hs)%list_elem_of_fmap.
  apply list_elem_of_omap in Hs as (t' & Ht & Hs). destruct (run_strategy t'.1 t'.2) as [r | |] eqn:Er'; [| done..].
  injection Hs as ->. apply Hn. apply run_strategy_id in Er as [Ei _], Er' as [Ei' _].
  apply list_elem_of_fmap. exists t'. split; [congruence | done].
Qed.

Lemma tasks_ids {Sch : Schedule} books searcher :
  NoDup (map ob_id books) -> NoDup (map (fun t => ob_id t.1) (pool_tasks books (first_searchers searcher))).
Proof.
  intros Hd. unfold pool_tasks. destruct books as [| b l].
  - rewrite map_map. cbn. change (NoDup (pool_id <$> hash_order (map_to_list (first_searchers searcher)).*2)).
    rewrite hash_order_perm, <- list_fmap_compose.
    rewrite (list_fmap_ext _ fst); [apply NoDup_fst_map_to_list |].
    intros i [id o] Hi%list_elem_of_lookup_2%elem_of_map_to_list. apply first_searchers_key in Hi as [Hk _]. exact Hk.
  - by rewrite map_map.
Qed.

End BookLemmas.

(** ** Properties *)

(** C15: The matching manager solves each pool of the limit orders once.  Whatever order the
    hash tables are listed and the tasks finish in, the solutions have different pools, each
    is the matcher's answer for a book that holds exactly the limit orders of its pool (each
    once) on that pool's snapshot with the pool's first top-of-block order, and every pool
    with a limit order is either solved or its matcher panicked. *)
Theorem one_solution_per_pool {P : Profile} {U : UniswapMath} {E : OrderEnv} {Sch : Schedule} limit searcher pools sols :
  limit <> [] -> solve_books limit searcher pools = Ok sols ->
  let first id := head (List.filter (fun o => pool_id o =? id) searcher) in
  NoDup (map sol_id sols) /\
  (forall s, s ∈ sols -> exists b, book_for limit pools b /\ ob_id b = sol_id s /\
     run_strategy b (first (ob_id b)) = Ok s /\ sol_searcher s = first (sol_id s)) /\
  (forall o, o ∈ limit -> exists b, book_for limit pools b /\ ob_id b = pool_id o /\
     forall s, run_strategy b (first (ob_id b)) = Ok s -> s ∈ sols).
Proof.
  intros Hne H first. unfold solve_books in H. apply M_bind_Ok in H as (books & Hb & H). injection H as <-.
  destruct (books_spec _ _ _ Hb) as (Hnd & Hids & Hfor). pose proof (proj1 (Forall_forall _ _) Hfor) as Hfor'.
  assert (books <> []) as Hbn by (intros Hn; by apply Hne, (books_nil _ _ _ Hb)).
  assert (forall t, t ∈ pool_tasks books (first_searchers searcher) <->
                    exists b, b ∈ books /\ t = (b, first (ob_id b))) as Ht.
  { intros t. unfold pool_tasks. destruct books as [| b0 l0]; [done |].
    rewrite list_elem_of_fmap. setoid_rewrite first_searchers_spec. naive_solver. }
  split_and!.
  - by apply join_ids, tasks_ids.
  - intros s (t & (b & Hbb & ->)%Ht & Hr)%join_elem. cbn in Hr. exists b.
    destruct (run_strategy_id _ _ _ Hr) as [Hi Hs]. split_and!; [by apply Hfor' | by symmetry | done | rewrite Hi; exact Hs].
  - intros o Ho. assert (pool_id o ∈ map ob_id books) as (b & Hi & Hbb)%list_elem_of_fmap by (apply Hids; eauto).
    exists b. split_and!; [by apply Hfor' | by symmetry |]. intros s Hr. apply join_elem.
    exists (b, first (ob_id b)). split; [| exact Hr]. apply Ht. by exists b.
Qed.

(** C16: Nodes that match the same orders build the same proposal.  When no two different
    orders on one side of a pool agree in price, kind, volume and gas, the proposal made from
    the solutions is the same for every listing order of the hash tables and every completion
    order of the matching tasks. *)
Theorem proposal_deterministic {P : Profile} {U : UniswapMath} {E : OrderEnv} {SK : SigningKey} {B : Bincode}
    (S1 S2 : Schedule) limit searcher pools sols height sk aggs :
  no_ties limit -> @solve_books P U E S1 limit searcher pools = Ok sols ->
  exists sols', @solve_books P U E S2 limit searcher pools = Ok sols' /\
    generate_proposal height sk aggs sols = generate_proposal height sk aggs sols'.
Proof.
  intros Ht H. unfold solve_books in H. apply M_bind_Ok in H as (books & Hb & H). injection H as <-.
  destruct (books_schedules S1 S2 _ _ _ Ht Hb) as (books' & Hb' & Hp). unfold solve_books. rewrite Hb'. cbn [M_bind].
  eexists. split; [done |]. unfold generate_proposal.
  destruct (books_spec _ _ _ Hb) as (Hnd & _).
  pose proof (join_ids (Sch := S1) _ (tasks_ids (Sch := S1) _ searcher Hnd)) as Hids.
  rewrite (sort_by_unique (fun a b => sol_id a ?= sol_id b) _
             (@join_solutions P U E S2 (@pool_tasks S2 books' (first_searchers searcher)))); [done | | | |].
  - intros a b c. rewrite !Z.compare_ngt_iff. lia.
  - intros a b. rewrite Z.compare_gt_iff, Z.compare_ngt_iff. lia.
  - intros a b Ha Hb0. rewrite !Z.compare_ngt_iff. intros H1 H2.
    eapply (NoDup_map_inj sol_id); [exact Hids | done | done | lia].
  - by apply join_schedules, tasks_schedules.
Qed.

(** A top-of-block order of a pool without limit orders is left out of every solution as
    soon as any pool has a limit order, while alone it is solved on an empty book. *)
Theorem lone_searcher_dropped {P : Profile} {U : UniswapMath} {E : OrderEnv} {Sch : Schedule} limit searcher pools sols t :
  limit <> [] -> t ∈ searcher -> (forall o, o ∈ limit -> pool_id o <> pool_id t) ->
  solve_books limit searcher pools = Ok sols -> forall s, s ∈ sols -> sol_searcher s <> Some t.
Proof.
  intros Hne Ht Hno H s Hs Hst. unfold solve_books in H. apply M_bind_Ok in H as (books & Hb & H). injection H as <-.
  destruct (books_spec _ _ _ Hb) as (_ & Hids & _).
  assert (books <> []) as Hbn by (intros Hn; by apply Hne, (books_nil _ _ _ Hb)).
  apply join_elem in Hs as (task & Htask & Hr). unfold pool_tasks in Htask. destruct books as [| b0 l0]; [done |].
  apply list_elem_of_fmap in Htask as (b & -> & Hbb). cbn in Hr. apply run_strategy_id in Hr as [_ Hr].
  rewrite Hst in Hr. symmetry in Hr. apply first_searchers_key in Hr as [Hk _].
  destruct (proj1 (Hids (ob_id b))) as (o & Ho & Hp); [by apply list_elem_of_fmap; exists b |].
  apply (Hno o Ho). congruence.
Qed.

Lemma lone_searcher_solved {P : Profile} {U : UniswapMath} {E : OrderEnv} {Sch : Schedule} t pools s :
  run_strategy (empty_book (pool_id t)) (Some t) = Ok s -> solve_books [] [t] pools = Ok [s].
Proof.
  intros Hr. unfold solve_books. rewrite books_of_nothing. cbn [M_bind pool_tasks]. f_equal.
  assert (first_searchers [t] = {[pool_id t := t]}) as -> by (unfold first_searchers; cbn [fold_left]; by rewrite lookup_empty).
  rewrite map_to_list_singleton.
  assert (hash_order ([(pool_id t, t)].*2) = [t]) as -> by (apply Permutation_singleton_r, hash_order_perm).
  unfold join_solutions. cbn [map fst snd]. rewrite Hr.
  by assert (join_order [Ok s] = [Ok s]) as -> by (apply Permutation_singleton_r, join_order_perm).
Qed.

Lemma no_answers (x : list MatcherCommand) i : mjoin ((map (fun _ => None) x : list (option (M Solved))) !! i) = None.
Proof. revert i. induction x as [| c x IH]; intros [| i]; cbn; [done | done | done | apply IH]. Qed.

(** A command to estimate gas ends the manager: no later proposal is answered. *)
Theorem estimate_ends_manager {P : Profile} {U : UniswapMath} {E : OrderEnv} {A : AlloySignature} {K : Keccak}
    {Sch : Schedule} fetch before l s p after limit searcher pools :
  matcher_solve_pools fetch (before ++ EstimateGasPerPool l s p :: after) limit searcher pools = Panic.
Proof.
  unfold matcher_solve_pools. rewrite <- app_assoc, length_app. cbn [length app].
  assert (forall x r, mjoin (manager_thread fetch (before ++ EstimateGasPerPool l s p :: r) !! (length before + S x)%nat) = None) as ->;
    [| done].
  intros x r. induction before as [| [l1 s1 p1 | l1 s1 p1] before IH]; cbn [app length Nat.add manager_thread].
  - apply no_answers.
  - destruct (build_proposal fetch l1 s1 p1); [apply IH | apply IH | apply no_answers].
  - apply no_answers.
Qed.

(** The gas of a bundle is the gas of its replay: the validator answers a request exactly
    when the transaction from the node to the contract succeeds in the next block, with that
    gas and its current prices, and the request changes nothing else. *)
Theorem bundle_gas_from_replay {P : Profile} {U : UniswapMath} {C : OrderCrypto} {F : Accounts.StateFetchUtils}
    `{!RawPoolOrder TopOfBlockOrder, !RawPoolOrder AllOrders} {Abi : BundleAbi} {V : EvmReplay} bv v ch bundle lookup :
  0 <= v_block_number v < u_max 64 -> generate_lookup_map (v_token_pricing v) = Ok lookup ->
  let call := mkBundleCall (bv_node_address bv) (bv_angstrom_address bv) CHAIN_ID (execute_call bundle) (v_block_number v + 1) in
  (forall gas, inspect_replay call = Some (true, gas) -> exists v',
     fetch_gas_for_bundle bv v ch bundle = Ok (mkBundleGasDetails lookup gas, v') /\
     v_state v' = v_state v /\ v_block_number v' = v_block_number v /\ v_tasks v' = v_tasks v) /\
  ((forall gas, inspect_replay call <> Some (true, gas)) -> exists e, fetch_gas_for_bundle bv v ch bundle = Err e).
Proof.
  intros Hn Hl call. unfold fetch_gas_for_bundle, on_new_validation_request. rewrite Hl. cbn [M_bind].
  unfold simulate_bundle. rewrite checked_u_Ok by lia. cbn [M_bind]. fold call. split.
  - intros gas ->. cbn. rewrite last_snoc. cbn. by eexists.
  - intros Hno. destruct (inspect_replay call) as [[[] gas] |] eqn:Er; [by destruct (Hno gas) | |];
      cbn; rewrite last_snoc; cbn; by eexists.
Qed.

(** ** Evaluation *)

(** Tables listed in insertion order, and in reverse. *)
Definition in_order : Schedule := {|
  hash_order _ l := l; join_order _ l := l;
  hash_order_perm _ _ := Permutation_refl _; join_order_perm _ _ := Permutation_refl _;
|}.
Definition reversed : Schedule := {|
  hash_order _ l := reverse l; join_order _ l := l;
  hash_order_perm _ := reverse_Permutation; join_order_perm _ _ := Permutation_refl _;
|}.

#[local] Existing Instance dev.
#[local] Existing Instance uniswap_bounds.
#[local] Existing Instance toy_env.
#[local] Existing Instance toy_key.
#[local] Existing Instance toy_bincode.

Definition in_pool {O} (id : PoolId) (o : OrderWithStorageData O) : OrderWithStorageData O :=
  mkOrderWithStorageData (order o) (priority_data o) (invalidates o) id (currently_invalid o) (osd_is_bid o)
    (is_valid o) (valid_block o) (order_id o) (tob_reward o).

(** A bid and an ask that meet in pool 9, a lone bid in pool 8, no snapshots. *)
Definition two_pool_orders : LimitOrders :=
  [demo_partial true 1 ray_one 10 100; in_pool 8 (demo_exact true 3 ray_one 50);
   demo_exact false 2 (ray_one / 2) 60; demo_partial true 1 ray_one 10 100].

Definition solved (S : Schedule) (limit : LimitOrders) (searcher : SearcherOrders) : list PoolSolution :=
  match @solve_books dev uniswap_bounds toy_env S limit searcher ∅ with Ok s => s | _ => [] end.

(** Two partial bids that agree in everything the book compares, for one ask. *)
Definition tied_orders : LimitOrders :=
  [demo_partial true 1 ray_one 0 100; demo_partial true 2 ray_one 0 100; demo_exact false 3 (ray_one / 2) 60].

Definition outcome_of (h : Z) (sols : list PoolSolution) : list OrderFillState :=
  map oo_outcome (List.filter (fun out => id_hash (oo_id out) =? h) (flat_map sol_limit sols)).

(** Ties are broken by the order a hash set is listed in: of two equal partial bids either one
    gets the whole fill, so two nodes that match the same orders can disagree. *)
Theorem ties_follow_hash_order :
  outcome_of 1 (solved in_order tied_orders []) = [PartialFill 60] /\
  outcome_of 2 (solved in_order tied_orders []) = [PartialFill 0] /\
  outcome_of 1 (solved reversed tied_orders []) = [PartialFill 0] /\
  outcome_of 2 (solved reversed tied_orders []) = [PartialFill 60].
Proof. vm_compute. repeat split. Qed.

Definition reversed_solutions : list PoolSolution :=
  Eval vm_compute in solved reversed two_pool_orders [demo_tob true 5 5].
Definition in_order_solutions : list PoolSolution :=
  Eval vm_compute in solved in_order two_pool_orders [demo_tob true 5 5].

Lemma reversed_solved :
  @solve_books _ _ _ reversed two_pool_orders [demo_tob true 5 5] ∅ = Ok reversed_solutions.
Proof. vm_compute. reflexivity. Qed.
Lemma in_order_solved :
  @solve_books _ _ _ in_order two_pool_orders [demo_tob true 5 5] ∅ = Ok in_order_solutions.
Proof. vm_compute. reflexivity. Qed.

Lemma one_solution_per_pool_witness :
  NoDup (map sol_id reversed_solutions) /\ map sol_id reversed_solutions = [8; 9] /\
  map sol_searcher reversed_solutions = [None; Some (demo_tob true 5 5)] /\
  map (fun s => map oo_outcome (sol_limit s)) reversed_solutions = [[Killed]; [PartialFill 60; CompleteFill]].
Proof.
  split; [| by repeat split].
  apply (one_solution_per_pool (Sch := reversed) two_pool_orders [demo_tob true 5 5] ∅ reversed_solutions);
    [discriminate | exact reversed_solved].
Defined.

Lemma proposal_deterministic_witness :
  exists sols', @solve_books _ _ _ reversed two_pool_orders [demo_tob true 5 5] ∅ = Ok sols' /\
    map sol_id in_order_solutions <> map sol_id reversed_solutions /\
    generate_proposal 7 1 [] in_order_solutions = generate_proposal 7 1 [] sols'.
Proof.
  destruct (proposal_deterministic (SK := toy_key) (B := toy_bincode) in_order reversed two_pool_orders [demo_tob true 5 5] ∅
    in_order_solutions 7 1 []) as (sols' & Es' & Hp); [| exact in_order_solved |].
  - assert (Forall (fun a => Forall (fun b => pool_id a = pool_id b -> osd_is_bid a = osd_is_bid b ->
              price_partial_volume a b = Eq -> a = b) two_pool_orders) two_pool_orders) as Hf
      by (apply (bool_decide_unpack _); vm_compute; exact I).
    intros a b Ha Hb. exact (proj1 (Forall_forall _ _) (proj1 (Forall_forall _ _) Hf a Ha) b Hb).
  - exists sols'. by split_and!.
Defined.

Lemma lone_solved : @solve_books _ _ _ in_order two_pool_orders [in_pool 7 (demo_tob true 5 5)] ∅ =
  Ok (solved in_order two_pool_orders [in_pool 7 (demo_tob true 5 5)]).
Proof. vm_compute. reflexivity. Qed.

(** The top-of-block order of pool 7 is lost while pools 8 and 9 have limit orders. *)
Lemma lone_searcher_dropped_witness :
  solved in_order [] [in_pool 7 (demo_tob true 5 5)] <> [] /\
  Forall (fun s => sol_searcher s <> Some (in_pool 7 (demo_tob true 5 5)))
    (solved in_order two_pool_orders [in_pool 7 (demo_tob true 5 5)]).
Proof.
  split; [vm_compute; discriminate |]. apply Forall_forall.
  refine (lone_searcher_dropped (Sch := in_order) two_pool_orders [in_pool 7 (demo_tob true 5 5)] ∅ _ _ _ _ _ _).
  - discriminate.
  - apply list_elem_of_here.
  - apply Forall_forall. apply (bool_decide_unpack _). vm_compute. exact I.
  - exact lone_solved.
Defined.
