(* ===== verification/Submission.v ===== *)
(** * The submission of a bundle

    crates/types/src/submission: how the leader hands its bundle to the chain.  The handler asks
    the node for the nonce, the fees and the chain id, lets three submitters (the public
    mempools, Angstrom's own endpoints, the private mempools of builders) send the same
    transaction to their clients at the same time, and keeps the last answer.  Without a bundle
    the Angstrom endpoints get a signed attestation of an empty block.  Also the last part of
    [try_build_proposal] (crates/consensus/src/rounds/proposal.rs), which turns the answer into
    the verdict of the round.

    Signing and encoding a transaction ([TxCodec]) and the remote nodes ([Endpoints]) are code
    outside the repository; the order in which submitters and clients answer is a [Schedule]. *)

From S2P Require Import Prelude Uniswap Ray Donation Orders PoolSwap Book OrderPool ConsensusMessages Rounds.
From S2P Require Import Assets BundleOrders Bundle MatchingManager.

Record TxFeatureInfo := mkTxFeatureInfo {
  tf_nonce : Z;
  tf_max_fee_per_gas : Z;
  tf_max_priority_fee_per_gas : Z;
  tf_chain_id : Z;
  tf_target_block : Z;
}.

Record TransactionRequest := mkTransactionRequest {
  tr_from : Address;
  tr_to : Address;
  tr_input : Bytes;
  tr_chain_id : Z;
  tr_nonce : Z;
  tr_gas_limit : Z;
  tr_max_fee_per_gas : Z;
  tr_max_priority_fee_per_gas : Z;
}.

Record AngstromIntegrationSubmission := mkAngstromIntegrationSubmission {
  ais_tx : Bytes;
  ais_unlock_data : Bytes;
  ais_max_priority_fee_per_gas : Z;
}.

(** The gas limit of a block, a constant of alloy; [build_signed] is [TransactionBuilder::build],
    which fails for an incomplete request or a signer that refuses. *)
Class TxCodec {K : SigningKey} := {
  ETHEREUM_BLOCK_GAS_LIMIT_30M : Z;
  SignedTx : Type;
  build_signed : AngstromSigner -> TransactionRequest -> option SignedTx;
  encoded_2718 : SignedTx -> Bytes;
  tx_hash : SignedTx -> B256;
}.

(** The node of the handler and the answers of the Angstrom endpoints, by client: an error, or
    an optional transaction hash. *)
Class Endpoints := {
  EXTRA_GAS : Z;
  get_transaction_count : Address -> M Z;
  estimate_eip1559_fees : M (Z * Z);
  get_chain_id : M Z;
  angstrom_submitBundle : Z -> AngstromIntegrationSubmission -> option (option B256);
  transaction_included : B256 -> bool;
}.

Inductive SubmitterKind := MempoolSubmitter | AngstromSubmitter | MevBoostSubmitter.

(** A submitter with its clients, by url. *)
Record ChainSubmitter := mkChainSubmitter {
  cs_kind : SubmitterKind;
  cs_clients : list Z;
  cs_angstrom_address : Address;
}.

Inductive Request `{TxCodec} :=
| RawTransaction (client : Z) (tx : Bytes)
| SubmitBundle (client : Z) (payload : AngstromIntegrationSubmission)
| PrivateTransaction (client : Z) (tx : SignedTx) (max_block : Z).

Section Submission.
Context {P : Profile} {K : SigningKey} {A : AttestationCodec} {Abi : BundleAbi} {T : TxCodec} {N : Endpoints} {Sch : Schedule}.

Definition build_tx (s : ChainSubmitter) (signer : AngstromSigner) (bundle : AngstromBundle) (f : TxFeatureInfo) :
    M TransactionRequest :=
  let* max_fee := checked_u 128 (tf_max_fee_per_gas f + EXTRA_GAS) in
  let* priority := checked_u 128 (tf_max_priority_fee_per_gas f + EXTRA_GAS) in
  Ok (mkTransactionRequest (signer_address signer) (cs_angstrom_address s) (execute_call bundle) (tf_chain_id f)
        (tf_nonce f) ETHEREUM_BLOCK_GAS_LIMIT_30M max_fee priority).

Definition build_and_sign_tx (s : ChainSubmitter) (signer : AngstromSigner) (bundle : AngstromBundle)
    (f : TxFeatureInfo) : M SignedTx :=
  let* tx := build_tx s signer bundle f in
  unwrap (build_signed signer tx).

(** Each submitter's [submit]: the hash it reports and the requests it made. *)
Definition mempool_submit (s : ChainSubmitter) (signer : AngstromSigner) (bundle : option AngstromBundle)
    (f : TxFeatureInfo) : M (option B256 * list Request) :=
  let* bundle := ok_or bundle "no bundle was past in" in
  let* tx := build_and_sign_tx s signer bundle f in
  Ok (Some (tx_hash tx), map (fun c => RawTransaction c (encoded_2718 tx)) (cs_clients s)).

Definition mev_boost_submit (s : ChainSubmitter) (signer : AngstromSigner) (bundle : option AngstromBundle)
    (f : TxFeatureInfo) : M (option B256 * list Request) :=
  let* bundle := ok_or bundle "no bundle was past in" in
  let* tx := build_and_sign_tx s signer bundle f in
  Ok (Some (tx_hash tx), map (fun c => PrivateTransaction c tx (tf_target_block f)) (cs_clients s)).

Definition angstrom_payload (s : ChainSubmitter) (signer : AngstromSigner) (bundle : option AngstromBundle)
    (f : TxFeatureInfo) : M AngstromIntegrationSubmission :=
  match bundle with
  | Some bundle =>
      let* tx := build_tx s signer bundle f in
      let gas := tr_max_priority_fee_per_gas tx in
      let* signed_tx := unwrap (build_signed signer tx) in
      Ok (mkAngstromIntegrationSubmission (encoded_2718 signed_tx) [] gas)
  | None => Ok (mkAngstromIntegrationSubmission [] (sign_and_encode (tf_target_block f) signer) 0)
  end.

(** The first answer that is not an error. *)
Definition angstrom_submit (s : ChainSubmitter) (signer : AngstromSigner) (bundle : option AngstromBundle)
    (f : TxFeatureInfo) : M (option B256 * list Request) :=
  let* payload := angstrom_payload s signer bundle f in
  let answers := join_order (map (fun c => angstrom_submitBundle c payload) (cs_clients s)) in
  Ok (default None (head (omap (fun r => r) answers)), map (fun c => SubmitBundle c payload) (cs_clients s)).

Definition chain_submit (s : ChainSubmitter) (signer : AngstromSigner) (bundle : option AngstromBundle) (f : TxFeatureInfo) :
    M (option B256 * list Request) :=
  match cs_kind s with
  | MempoolSubmitter => mempool_submit s signer bundle f
  | AngstromSubmitter => angstrom_submit s signer bundle f
  | MevBoostSubmitter => mev_boost_submit s signer bundle f
  end.

Definition SubmissionHandler_new (mempool angstrom mev_boost : list Z) (address : Address) : list ChainSubmitter :=
  [mkChainSubmitter MempoolSubmitter mempool address; mkChainSubmitter AngstromSubmitter angstrom address;
   mkChainSubmitter MevBoostSubmitter mev_boost address].

(** The answers in the order they come; an error drops the submitters still under way. *)
Fixpoint last_answer (h : option B256) (sent : list Request) (answers : list (M (option B256 * list Request))) :
    M (option B256 * list Request) :=
  match answers with
  | [] => Ok (h, sent)
  | res :: answers => let* (h, reqs) := res in last_answer h (sent ++ reqs) answers
  end.

Definition submit_tx (submitters : list ChainSubmitter) (signer : AngstromSigner) (bundle : option AngstromBundle)
    (target_block : Z) : M (option B256 * list Request) :=
  let* nonce := get_transaction_count (signer_address signer) in
  let* (max_fee, max_priority) := estimate_eip1559_fees in
  let* chain_id := get_chain_id in
  let f := mkTxFeatureInfo nonce max_fee max_priority chain_id target_block in
  last_answer None [] (join_order (map (fun s => chain_submit s signer bundle f) submitters)).

(** The verdict of the round: whether the submission counts as landed.  A task that panicked
    counts as failed. *)
Definition transaction_landed (r : M (option B256 * list Request)) : bool :=
  match r with
  | Ok (None, _) => true
  | Ok (Some h, _) => transaction_included h
  | _ => false
  end.

End Submission.

(** ** Lemmas *)

Section Lemmas.
Context {P : Profile} {K : SigningKey} {A : AttestationCodec} {Abi : BundleAbi} {T : TxCodec} {N : Endpoints} {Sch : Schedule}.

Lemma last_answer_Ok h sent l r :
  last_answer h sent l = Ok r <->
  exists rs, l = map Ok rs /\ r = (default h (last (map fst rs)), sent ++ flat_map snd rs).
Proof.
  revert h sent. induction l as [| x l IH]; intros h sent; cbn.
  - split; [intros [= <-]; exists []; cbn; by rewrite app_nil_r |].
    intros (rs & Hrs & ->). destruct rs; [cbn; by rewrite app_nil_r | done].
  - split.
    + intros H. apply M_bind_Ok in H as ([h1 reqs] & -> & H). apply IH in H as (rs & -> & ->).
      exists ((h1, reqs) :: rs). split; [done |]. cbn [map fst flat_map snd]. rewrite <- app_assoc.
      rewrite last_cons. by destruct (last _).
    + intros (rs & Hrs & ->). destruct rs as [| [h1 reqs] rs]; [done |]. injection Hrs as -> ->. cbn [M_bind].
      apply IH. exists rs. split; [done |]. cbn [map fst flat_map snd]. rewrite <- app_assoc.
      rewrite last_cons. by destruct (last (map fst rs)).
Qed.

(** One failing submitter fails the submission, whenever it answers. *)
Lemma failing_submitter submitters signer bundle target s :
  s ∈ submitters -> (forall f r, chain_submit s signer bundle f <> Ok r) ->
  forall r, submit_tx submitters signer bundle target <> Ok r.
Proof.
  intros Hs Hf r H. unfold submit_tx in H. apply M_bind_Ok in H as (nonce & _ & H).
  apply M_bind_Ok in H as ([fee prio] & _ & H). apply M_bind_Ok in H as (chain & _ & H).
  set (f := mkTxFeatureInfo _ _ _ _ _) in H. apply last_answer_Ok in H as (rs & Hrs & _).
  assert (chain_submit s signer bundle f ∈ map Ok rs) as (y & Hy & _)%list_elem_of_fmap.
  { rewrite <- Hrs, join_order_perm. apply list_elem_of_fmap. by exists s. }
  by apply (Hf f y).
Qed.

Lemma flat_map_perm {X Y} (f : X -> list Y) l l' : l ≡ₚ l' -> flat_map f l ≡ₚ flat_map f l'.
Proof.
  induction 1 as [| x l l' _ IH | x y l | l l' l'' _ IH1 _ IH2]; cbn; [done | by f_equiv | | by etrans].
  rewrite !app_assoc. f_equiv. apply Permutation_app_comm.
Qed.

Lemma perm_map_inv {X Y} (f : X -> Y) (l : list X) k : k ≡ₚ map f l -> exists l', k = map f l' /\ l' ≡ₚ l.
Proof.
  intros (l' & Hk & Hp)%Permutation_map_inv. exists l'. split; [done | by symmetry].
Qed.

(** The Angstrom submitter's answer. *)
Lemma first_answer payload clients :
  let ans := default None (head (omap (fun r => r) (join_order (map (fun c => angstrom_submitBundle c payload) clients)))) in
  ans = None /\ Forall (fun c => angstrom_submitBundle c payload = None) clients \/
  exists c, c ∈ clients /\ angstrom_submitBundle c payload = Some ans.
Proof.
  set (answers := omap (fun r => r) _). assert (forall r, r ∈ answers <-> exists c, c ∈ clients /\ angstrom_submitBundle c payload = Some r) as Ha.
  { intros r. unfold answers. rewrite list_elem_of_omap. setoid_rewrite join_order_perm. split.
    - intros (x & (c & -> & Hin)%list_elem_of_fmap & Hr). by exists c.
    - intros (c & Hin & Hr). exists (Some r). split; [| done]. apply list_elem_of_fmap. by exists c. }
  destruct answers as [| h l]; cbn.
  - left. split; [done |]. apply Forall_forall. intros c Hc. destruct (angstrom_submitBundle c payload) as [r |] eqn:Er; [| done].
    exfalso. apply (not_elem_of_nil r). apply Ha. by exists c.
  - right. apply Ha, list_elem_of_here.
Qed.

End Lemmas.

(** ** Properties *)

(** C23: An empty block is never submitted.  Without a bundle the submission fails for every
    configuration, every order of the answers and whatever the endpoints reply, so the round
    of a leader that attests an empty block never counts as landed. *)
Theorem empty_block_never_lands {P : Profile} {K : SigningKey} {A : AttestationCodec} {Abi : BundleAbi} {T : TxCodec}
    {N : Endpoints} {Sch : Schedule} mempool angstrom mev_boost address signer target :
  transaction_landed (submit_tx (SubmissionHandler_new mempool angstrom mev_boost address) signer None target) = false.
Proof.
  destruct (submit_tx _ _ _ _) as [r | |] eqn:H; [| done..]. exfalso. revert H.
  apply (failing_submitter _ _ _ _ (mkChainSubmitter MempoolSubmitter mempool address)); [apply list_elem_of_here | done].
Qed.

(** C22: Every client gets the same transaction.  When the node answers, the fees fit and the
    signer signs, the submission of a bundle succeeds for every order of the answers: each
    mempool, Angstrom and builder client is sent the one signed transaction, exactly once,
    and the reported hash is that transaction's or the answer of an Angstrom endpoint. *)
Theorem one_transaction_submitted {P : Profile} {K : SigningKey} {A : AttestationCodec} {Abi : BundleAbi} {T : TxCodec}
    {N : Endpoints} {Sch : Schedule} mempool angstrom mev_boost address signer bundle target nonce fee prio chain tx :
  get_transaction_count (signer_address signer) = Ok nonce -> estimate_eip1559_fees = Ok (fee, prio) ->
  get_chain_id = Ok chain -> 0 <= fee + EXTRA_GAS <= u_max 128 -> 0 <= prio + EXTRA_GAS <= u_max 128 ->
  build_signed signer (mkTransactionRequest (signer_address signer) address (execute_call bundle) chain nonce
                         ETHEREUM_BLOCK_GAS_LIMIT_30M (fee + EXTRA_GAS) (prio + EXTRA_GAS)) = Some tx ->
  let payload := mkAngstromIntegrationSubmission (encoded_2718 tx) [] (prio + EXTRA_GAS) in
  exists h sent,
    submit_tx (SubmissionHandler_new mempool angstrom mev_boost address) signer (Some bundle) target = Ok (h, sent) /\
    sent ≡ₚ map (fun c => RawTransaction c (encoded_2718 tx)) mempool ++ map (fun c => SubmitBundle c payload) angstrom ++
            map (fun c => PrivateTransaction c tx target) mev_boost /\
    (h = Some (tx_hash tx) \/ h = None /\ Forall (fun c => angstrom_submitBundle c payload = None) angstrom \/
     exists c, c ∈ angstrom /\ angstrom_submitBundle c payload = Some h).
Proof.
  intros Hn Hf Hc Hfee Hprio Htx payload. unfold submit_tx. rewrite Hn, Hf. cbn [M_bind]. rewrite Hc. cbn [M_bind].
  set (f := mkTxFeatureInfo nonce fee prio chain target).
  set (ans := default None (head (omap (fun r => r) (join_order (map (fun c => angstrom_submitBundle c payload) angstrom))))).
  assert (map (fun s => chain_submit s signer (Some bundle) f) (SubmissionHandler_new mempool angstrom mev_boost address) =
    map Ok [(Some (tx_hash tx), map (fun c => RawTransaction c (encoded_2718 tx)) mempool);
            (ans, map (fun c => SubmitBundle c payload) angstrom);
            (Some (tx_hash tx), map (fun c => PrivateTransaction c tx target) mev_boost)]) as ->.
  { cbn [map SubmissionHandler_new chain_submit cs_kind]. unfold mempool_submit, mev_boost_submit, angstrom_submit, angstrom_payload,
      build_and_sign_tx, build_tx, f. cbn [ok_or M_bind tf_max_fee_per_gas tf_max_priority_fee_per_gas].
    rewrite !checked_u_Ok by done. cbn. by rewrite !Htx. }
  set (answers := [_; _; _]).
  destruct (perm_map_inv _ _ _ (join_order_perm (map Ok answers))) as (rs & -> & Hp).
  eexists _, _. split; [apply last_answer_Ok; by exists rs |]. split.
  { cbn [app]. rewrite (flat_map_perm _ _ _ Hp). cbn. by rewrite app_nil_r. }
  assert (default None (last (map fst rs)) ∈ map fst rs) as (x & Hx & Hin)%list_elem_of_fmap.
  { destruct (last (map fst rs)) as [x |] eqn:El; cbn.
    - apply last_Some in El as (l' & ->). apply elem_of_app. right. by apply list_elem_of_singleton.
    - apply last_None in El. apply map_eq_nil in El. subst rs. by apply Permutation_nil_l in Hp. }
  rewrite Hx. rewrite Hp in Hin. unfold answers in Hin.
  repeat (apply elem_of_cons in Hin as [-> | Hin]); [by left | | by left | by apply not_elem_of_nil in Hin].
  right. apply first_answer.
Qed.

(** ** Evaluation *)

#[local] Existing Instance dev.
#[local] Existing Instance toy_key.
#[local] Existing Instance toy_attestation.

Definition toy_abi : BundleAbi := fun b => be_bytes 1 (Z.of_nat (length (ab_pairs b))).
#[local] Existing Instance toy_abi.

(** A transaction is its request; the signer signs for its own address only. *)
Definition tx_codec : TxCodec := {|
  ETHEREUM_BLOCK_GAS_LIMIT_30M := 30000000;
  SignedTx := TransactionRequest;
  build_signed sk r := if tr_from r =? signer_address sk then Some r else None;
  encoded_2718 r := be_bytes 1 (tr_nonce r) ++ tr_input r;
  tx_hash r := 1000 + tr_nonce r;
|}.
#[local] Existing Instance tx_codec.

(** A node at nonce 7; no Angstrom endpoint answers and no transaction is included. *)
Definition silent_endpoints : Endpoints := {|
  EXTRA_GAS := 0;
  get_transaction_count _ := Ok 7;
  estimate_eip1559_fees := Ok (20, 2);
  get_chain_id := Ok 1;
  angstrom_submitBundle _ _ := None;
  transaction_included _ := false;
|}.
#[local] Existing Instance silent_endpoints.

(** The second answer comes last. *)
Lemma second_last_perm {X} (l : list X) : (match l with a :: b :: r => a :: r ++ [b] | _ => l end) ≡ₚ l.
Proof. destruct l as [| a [| b r]]; [done | done |]. f_equiv. by rewrite Permutation_app_comm. Qed.
Definition second_last : Schedule := {|
  hash_order _ l := l; join_order _ l := match l with a :: b :: r => a :: r ++ [b] | _ => l end;
  hash_order_perm _ _ := Permutation_refl _; join_order_perm _ := second_last_perm;
|}.

Definition empty_bundle : AngstromBundle := mkAngstromBundle [] [] [] [] [].
Definition demo_submitters : list ChainSubmitter := SubmissionHandler_new [1; 2] [3] [4] 99.

(** A silent Angstrom endpoint that fails last hides the outcome: the answer has no hash and the
    round counts as landed although no block has the transaction. *)
Theorem silent_endpoint_counts_as_landed :
  transaction_landed (submit_tx (Sch := second_last) demo_submitters 5 (Some empty_bundle) 8) = true /\
  transaction_landed (submit_tx (Sch := in_order) demo_submitters 5 (Some empty_bundle) 8) = false.
Proof. by split. Qed.

Lemma one_transaction_submitted_witness :
  let tx := mkTransactionRequest 5 99 (execute_call empty_bundle) 1 7 ETHEREUM_BLOCK_GAS_LIMIT_30M 20 2 in
  exists h sent, submit_tx (Sch := second_last) demo_submitters 5 (Some empty_bundle) 8 = Ok (h, sent) /\
    sent ≡ₚ [RawTransaction 1 (encoded_2718 tx); RawTransaction 2 (encoded_2718 tx);
             SubmitBundle 3 (mkAngstromIntegrationSubmission (encoded_2718 tx) [] 2); PrivateTransaction 4 tx 8].
Proof.
  intros tx. destruct (one_transaction_submitted (K := toy_key) (T := tx_codec) (Sch := second_last) [1; 2] [3] [4] 99 5 empty_bundle 8 7 20 2 1 tx)
    as (h & sent & Hs & Hp & _); [reflexivity | reflexivity | reflexivity | by vm_compute | by vm_compute | reflexivity |].
  by exists h, sent.
Defined.
