(* ===== verification/RpcOrders.v ===== *)
(** * The order API

    crates/rpc: the JSON-RPC calls a trader makes ([OrderApi] of impls/orders.rs and api/orders.rs)
    and the filter of its order subscription, over the order pool manager of OrderPoolManager.v
    and the validator of Validation.v.  Each call is one command to the manager or one request to
    the validator; a subscription forwards the updates of the order pool that match its kinds and
    filters until the connection closes.

    A JSON value is the datum it encodes; the text of an error is the error.  The broadcast
    channel is its sequence of items, in which tokio reports a receiver that fell behind. *)

From S2P Require Import Prelude Uniswap Ray Orders PoolSwap Book Accounts Assets BundleOrders Bundle TokenPricing Validation.
From S2P Require Import OrderPool OrderTracker OrderIndexer ConsensusMessages Chain BlockSync EthManager NetMessages Session Network OrderPoolManager.

(** ** Types (types/mod.rs, types/subscriptions.rs) *)

Record PendingOrder := mkPendingOrder {
  po_order_id : B256;
  po_order : AllOrders;
}.

Inductive CallData :=
| HashData (h : B256)
| StatusData (s : OrderStatus)
| StateErrorData (e : UserAccountVerificationError)
| ErrorData (e : OrderValidationError).

(** [cr_msg] is the text of an error, empty on success. *)
Record CallResult := mkCallResult {
  cr_is_success : bool;
  cr_data : CallData;
  cr_msg : option OrderValidationError;
}.

Definition from_success (data : CallData) : CallResult := mkCallResult true data None.

Definition call_result_of_error (e : OrderValidationError) : CallResult :=
  mkCallResult false (match e with StateError s => StateErrorData s | _ => ErrorData e end) (Some e).

Inductive OrderSubscriptionKind := NewOrders | FilledOrders | UnfilledOrdersKind | CancelledOrders | ExpiredOrders.

Inductive OrderSubscriptionFilter :=
| ByPair (pool : PoolId)
| ByAddress (a : Address)
| OnlyTOB
| OnlyBook
| NoFilter.

Inductive OrderSubscriptionResult :=
| ResNewOrder (o : AllOrders)
| ResFilledOrder (block : Z) (o : AllOrders)
| ResUnfilledOrder (o : AllOrders)
| ResCancelledOrder (hash : B256)
| ResExpiredOrder (hash : B256).

#[export] Instance OrderSubscriptionKind_eq_dec : EqDecision OrderSubscriptionKind.
Proof. solve_decision. Defined.
#[export] Instance OrderSubscriptionFilter_eq_dec : EqDecision OrderSubscriptionFilter.
Proof. solve_decision. Defined.

(** ** The filter of a subscription (impls/orders.rs) *)

Section Filter.
Context {E : OrderEnv}.

Definition contains {X} `{EqDecision X} (set : list X) (x : X) : bool := bool_decide (x ∈ set).

(** The condition the code repeats for every kind of update. *)
Definition filter_hit (filter : list OrderSubscriptionFilter) (pool : PoolId) (user : Address) (tob : bool) : bool :=
  contains filter (ByPair pool) || contains filter (ByAddress user) || (contains filter OnlyTOB && tob) ||
  (contains filter OnlyBook && negb tob) || contains filter NoFilter.

Definition order_hit (filter : list OrderSubscriptionFilter) (o : OrderWithStorageData AllOrders) : bool :=
  filter_hit filter (pool_id o) (from (order o)) (is_tob (order o)).

Definition filter_out_order (kind : list OrderSubscriptionKind) (filter : list OrderSubscriptionFilter)
    (u : PoolManagerUpdate) : option OrderSubscriptionResult :=
  match u with
  | NewOrder o => if contains kind NewOrders && order_hit filter o then Some (ResNewOrder (order o)) else None
  | FilledOrder block o =>
      if contains kind FilledOrders && order_hit filter o then Some (ResFilledOrder block (order o)) else None
  | UnfilledOrders o =>
      if contains kind UnfilledOrdersKind && order_hit filter o then Some (ResUnfilledOrder (order o)) else None
  | CancelledOrderUpdate tob user pool hash =>
      if contains kind CancelledOrders && filter_hit filter pool user tob then Some (ResCancelledOrder hash) else None
  | ExpiredOrder hash => if contains kind ExpiredOrders then Some (ResExpiredOrder hash) else None
  end.

(** An item of the broadcast channel, with the state of the connection when it is handled. *)
Inductive BroadcastItem :=
| Received (u : PoolManagerUpdate)
| Lagged (missed : nat).

Record SinkState := mkSinkState {
  sink_closed : bool;
  send_fails : bool;
}.

(** The messages a subscription sends. *)
Fixpoint subscription_task (kind : list OrderSubscriptionKind) (filter : list OrderSubscriptionFilter)
    (items : list (BroadcastItem * SinkState)) : list OrderSubscriptionResult :=
  match items with
  | [] | (Lagged _, _) :: _ => []
  | (Received u, sink) :: items =>
      if sink_closed sink then [] else
      match filter_out_order kind filter u with
      | None => subscription_task kind filter items
      | Some r => if send_fails sink then [] else r :: subscription_task kind filter items
      end
  end.

End Filter.

(** ** The calls *)

Section Api.
Context {P : Profile} {E : OrderEnv} {K : SigningKey} {L : LinkedHashSet}.

(** [send_order]: the order is handed over now; its result comes on channel [tx] later and
    [send_order_answer] is the reply ([None]: the channel was closed). *)
Definition rpc_send_order (m : OrderPoolManager) (now : Z) (o : AllOrders) (tx : Z) : M OrderPoolManager :=
  let* (_, m) := on_order_command m now (CmdNewOrder External o tx) in Ok m.

Definition send_order_answer (o : AllOrders) (res : option OrderValidationResults) : CallResult :=
  match new_order_result (order_hash o) res with
  | inl h => from_success (HashData h)
  | inr e => call_result_of_error e
  end.

Definition rpc_pending_order (m : OrderPoolManager) (now : Z) (a : Address) : M (list PendingOrder) :=
  let* (ans, _) := on_order_command m now (CmdPendingOrders a) in
  Ok (match ans with
      | Some (AnsOrders l) => map (fun o => mkPendingOrder (order_hash o) o) l
      | _ => []
      end).

Definition rpc_cancel_order (m : OrderPoolManager) (now : Z) (req : Orders.CancelOrderRequest) : M (bool * OrderPoolManager) :=
  let* (ans, m) := on_order_command m now (CmdCancelOrder req) in
  Ok (match ans with Some (AnsCancelled b) => b | _ => false end, m).

Definition rpc_order_status (m : OrderPoolManager) (now : Z) (hash : B256) : M CallResult :=
  let* (ans, _) := on_order_command m now (CmdOrderStatus hash) in
  let status := match ans with Some (AnsStatus s) => s | _ => None end in
  Ok (from_success (StatusData (default OrderNotFound status))).

Definition rpc_orders_by_pool_id (m : OrderPoolManager) (now : Z) (pool : PoolId) (location : OrderLocation) :
    M (list AllOrders) :=
  let* (ans, _) := on_order_command m now (CmdOrdersByPool pool location) in
  Ok (match ans with Some (AnsOrders l) => l | _ => [] end).

(** The calls with several arguments run them in order and answer in order. *)
Definition rpc_send_orders (m : OrderPoolManager) (now : Z) (orders : list (AllOrders * Z)) : M OrderPoolManager :=
  M_fold (fun m o => rpc_send_order m now o.1 o.2) m orders.

Definition rpc_pending_orders (m : OrderPoolManager) (now : Z) (addresses : list Address) : M (list PendingOrder) :=
  let* l := M_map (rpc_pending_order m now) addresses in Ok (concat l).

Definition rpc_cancel_orders (m : OrderPoolManager) (now : Z) (reqs : list Orders.CancelOrderRequest) :
    M (list bool * OrderPoolManager) :=
  M_fold (fun acc req => let* (b, m) := rpc_cancel_order acc.2 now req in Ok (acc.1 ++ [b], m)) ([], m) reqs.

Definition rpc_status_of_orders (m : OrderPoolManager) (now : Z) (hashes : list B256) : M (list CallResult) :=
  M_map (rpc_order_status m now) hashes.

Definition rpc_orders_by_pool_ids (m : OrderPoolManager) (now : Z) (keys : list (PoolId * OrderLocation)) :
    M (list AllOrders) :=
  let* l := M_map (fun k => rpc_orders_by_pool_id m now k.1 k.2) keys in Ok (concat l).

End Api.

(** The calls to the validator; [ch] is the reply channel. *)
Section ValidatorApi.
Context {P : Profile} {U : UniswapMath} {C : OrderCrypto} {F : Accounts.StateFetchUtils}.
Context `{!RawPoolOrder TopOfBlockOrder, !RawPoolOrder AllOrders}.

Definition rpc_estimate_gas (v : Validator) (ch : nat) (is_book is_internal : bool) (token_0 token_1 : Address) :
    M (M Z) :=
  let* v := on_new_validation_request [] (fun _ _ => Panic) v (GasEstimationRequest ch is_book is_internal token_0 token_1) in
  match last (v_sent v) with Some (_, GasResult r) => Ok r | _ => Panic end.

Definition rpc_estimate_gas_of_orders (v : Validator) (ch : nat) (orders : list (bool * bool * Address * Address)) :
    M (list (M Z)) :=
  M_map (fun o => rpc_estimate_gas v ch o.1.1.1 o.1.1.2 o.1.2 o.2) orders.

(** [draws] are the nonces drawn; nothing while none of them is unused. *)
Definition rpc_valid_nonce (draws : list Z) (v : Validator) (ch : nat) (user : Address) : M (option Z) :=
  let* v' := on_new_validation_request draws (fun _ _ => Panic) v (NonceRequest ch user) in
  Ok (match drop (length (v_sent v)) (v_sent v') with (_, NonceResult n) :: _ => Some n | _ => None end).

End ValidatorApi.

(** ** Lemmas *)

Lemma contains_true {X} `{EqDecision X} (set : list X) x : contains set x = true <-> x ∈ set.
Proof. unfold contains. apply bool_decide_eq_true. Qed.

(** What a subscription asks for, as a specification: its kinds, and at least one of its
    filters.  An expired order carries no data to filter on. *)
Definition update_kind (u : PoolManagerUpdate) : OrderSubscriptionKind :=
  match u with
  | NewOrder _ => NewOrders
  | FilledOrder _ _ => FilledOrders
  | UnfilledOrders _ => UnfilledOrdersKind
  | CancelledOrderUpdate _ _ _ _ => CancelledOrders
  | ExpiredOrder _ => ExpiredOrders
  end.

Definition result_of `{OrderEnv} (u : PoolManagerUpdate) : OrderSubscriptionResult :=
  match u with
  | NewOrder o => ResNewOrder (order o)
  | FilledOrder block o => ResFilledOrder block (order o)
  | UnfilledOrders o => ResUnfilledOrder (order o)
  | CancelledOrderUpdate _ _ _ hash => ResCancelledOrder hash
  | ExpiredOrder hash => ResExpiredOrder hash
  end.

(** Pool, user and whether it is a top-of-block order. *)
Definition update_data `{OrderEnv} (u : PoolManagerUpdate) : option (PoolId * Address * bool) :=
  match u with
  | NewOrder o | FilledOrder _ o | UnfilledOrders o => Some (pool_id o, from (order o), is_tob (order o))
  | CancelledOrderUpdate tob user pool _ => Some (pool, user, tob)
  | ExpiredOrder _ => None
  end.

Definition filter_accepts (f : OrderSubscriptionFilter) (d : PoolId * Address * bool) : Prop :=
  match f with
  | ByPair pool => d.1.1 = pool
  | ByAddress a => d.1.2 = a
  | OnlyTOB => d.2 = true
  | OnlyBook => d.2 = false
  | NoFilter => True
  end.

Definition wanted `{OrderEnv} (kind : list OrderSubscriptionKind) (filter : list OrderSubscriptionFilter)
    (u : PoolManagerUpdate) : Prop :=
  update_kind u ∈ kind /\ forall d, update_data u = Some d -> exists f, f ∈ filter /\ filter_accepts f d.

Lemma filter_hit_spec filter pool user tob :
  filter_hit filter pool user tob = true <-> exists f, f ∈ filter /\ filter_accepts f (pool, user, tob).
Proof.
  unfold filter_hit. rewrite !orb_true_iff, !andb_true_iff, !contains_true, negb_true_iff. split.
  - intros [[[[H | H] | [H Ht]] | [H Ht]] | H]; (eexists; split; [exact H | done]).
  - intros ([] & Hf & Ha); cbn in Ha; subst; tauto.
Qed.

Lemma filter_out_order_spec {E : OrderEnv} kind filter u r :
  filter_out_order kind filter u = Some r <-> wanted kind filter u /\ r = result_of u.
Proof.
  assert (forall (b : bool) (x : OrderSubscriptionResult), (if b then Some x else None) = Some r <-> b = true /\ r = x) as Hif.
  { intros [] x; naive_solver. }
  unfold wanted. destruct u as [o | n o | o | tob user pool h | h]; cbn [filter_out_order update_kind update_data result_of];
    rewrite Hif, ?andb_true_iff, contains_true; unfold order_hit; rewrite ?filter_hit_spec; naive_solver.
Qed.

Definition open_sink : SinkState := mkSinkState false false.

Lemma subscription_open {E : OrderEnv} kind filter us tail :
  subscription_task kind filter (map (fun u => (Received u, open_sink)) us ++ tail) =
  omap (filter_out_order kind filter) us ++ subscription_task kind filter tail.
Proof. induction us as [| u us IH]; cbn; [done |]. destruct (filter_out_order kind filter u); cbn; by rewrite IH. Qed.

(** What ends a subscription: the end of the channel, a lag, or a closed connection. *)
Definition ends (tail : list (BroadcastItem * SinkState)) : Prop :=
  match tail with
  | [] | (Lagged _, _) :: _ => True
  | (Received _, sink) :: _ => sink_closed sink = true
  end.

(** ** Properties *)


(** A nonce the API hands out is one of the draws and unused on chain. *)
Theorem handed_nonce_unused {P : Profile} {U : UniswapMath} {C : OrderCrypto} {F : Accounts.StateFetchUtils}
    `{!RawPoolOrder TopOfBlockOrder, !RawPoolOrder AllOrders} draws v ch user n :
  rpc_valid_nonce draws v ch user = Ok (Some n) -> n ∈ draws /\ Accounts.is_valid_nonce user n = Ok true.
Proof.
  unfold rpc_valid_nonce. intros H. apply M_bind_Ok in H as (v' & Hv & H).
  cbn in Hv. apply M_bind_Ok in Hv as (nonce & Hn & Hv). injection Hv as <-. cbn in H. rewrite drop_app_length in H.
  destruct nonce as [x |]; [injection H as -> | done].
  induction draws as [| d draws IH]; cbn in Hn; [done |].
  apply M_bind_Ok in Hn as (valid & Hd & Hn). destruct valid.
  - injection Hn as ->. split; [apply list_elem_of_here |]. destruct (Accounts.is_valid_nonce user n); cbn in Hd; congruence.
  - destruct (IH Hn) as [Hi Hok]. split; [by apply list_elem_of_further | done].
Qed.

(** ** Evaluation *)

#[local] Existing Instance toy_env.

Definition book_update : PoolManagerUpdate := NewOrder (demo_ask 1 5 1 10).

