(* ===== verification/OrderTools.v ===== *)
(** * Orders made by the tools

    testing-tools/src/type_generator/orders/user.rs ([UserOrderBuilder], with which the counter matcher
    and the bundle lander make their orders), crates/types/src/sol_bindings/ext/flips.rs (the
    other side of an order) and crates/types/src/matching/uniswap/flags.rs (the hook flags of an
    address).

    Signing with a key is the class [OrderSigning]; a flipped order is signed by a fresh key,
    which is an argument. *)

From S2P Require Import Prelude Uniswap Ray Orders OrderPool ConsensusMessages Assets BundleOrders.
Import OmitOrderMeta.

(** [sign_hash_sync] and [sign_message_sync], followed by [pade_encode]. *)
Class OrderSigning {K : SigningKey} := {
  sign_order_hash : AngstromSigner -> B256 -> Bytes;
  sign_order_message : AngstromSigner -> Bytes -> Bytes;
}.

(** A signature decodes, and recovers its signer. *)
Class OrderSigningLaws {C : OrderCrypto} {K : SigningKey} (S : OrderSigning) :=
  order_signature_recovers : forall sk h, exists sig,
    pade_decode_signature (sign_order_hash sk h) = Some sig /\
    recover_address_from_prehash sig h = Some (signer_address sk).

Section Signing.
Context {C : OrderCrypto} {K : SigningKey} {S : OrderSigning} {T : Type} `{SolStruct T, HasMeta T}.

(** The metadata of a signed order. *)
Definition sign_meta (sk : AngstromSigner) (o : T) : T :=
  set_meta (mkOrderMeta true (signer_address sk) (sign_order_hash sk (no_meta_eip712_signing_hash o))) o.

Definition sign_if (sk : option AngstromSigner) (o : T) : T :=
  match sk with Some sk => sign_meta sk o | None => o end.
End Signing.

(** ** The builder of user orders *)

Section BuilderType.
Context {K : SigningKey}.

Record UserOrderBuilder := mkUserOrderBuilder {
  ub_is_standing : bool;
  ub_is_exact : bool;
  ub_exact_in : bool;
  ub_block : Z;
  ub_nonce : Z;
  ub_recipient : Address;
  ub_asset_in : Address;
  ub_asset_out : Address;
  ub_amount : Z;
  ub_gas_0 : option Z;
  ub_min_price : Z;
  ub_deadline : Z;
  ub_signing_key : option AngstromSigner;
}.

End BuilderType.

Section Builder.
Context {C : OrderCrypto} {K : SigningKey} {S : OrderSigning}.
Context `{!SolStruct PartialStandingOrder, !SolStruct ExactStandingOrder,
  !SolStruct PartialFlashOrder, !SolStruct ExactFlashOrder}.

Definition UserOrderBuilder_default : UserOrderBuilder :=
  mkUserOrderBuilder false false false 0 0 0 0 0 0 None 0 0 None.
Definition UserOrderBuilder_new : UserOrderBuilder :=
  mkUserOrderBuilder false false false 0 0 0 0 0 0 None 1 0 None.

Definition ub_standing (b : UserOrderBuilder) : UserOrderBuilder :=
  mkUserOrderBuilder true (ub_is_exact b) (ub_exact_in b) (ub_block b) (ub_nonce b) (ub_recipient b) (ub_asset_in b) (ub_asset_out b) (ub_amount b) (ub_gas_0 b) (ub_min_price b) (ub_deadline b) (ub_signing_key b).
Definition ub_kill_or_fill (b : UserOrderBuilder) : UserOrderBuilder :=
  mkUserOrderBuilder false (ub_is_exact b) (ub_exact_in b) (ub_block b) (ub_nonce b) (ub_recipient b) (ub_asset_in b) (ub_asset_out b) (ub_amount b) (ub_gas_0 b) (ub_min_price b) (ub_deadline b) (ub_signing_key b).
Definition ub_set_is_standing (x : bool) (b : UserOrderBuilder) : UserOrderBuilder :=
  mkUserOrderBuilder x (ub_is_exact b) (ub_exact_in b) (ub_block b) (ub_nonce b) (ub_recipient b) (ub_asset_in b) (ub_asset_out b) (ub_amount b) (ub_gas_0 b) (ub_min_price b) (ub_deadline b) (ub_signing_key b).
Definition ub_exact (b : UserOrderBuilder) : UserOrderBuilder :=
  mkUserOrderBuilder (ub_is_standing b) true (ub_exact_in b) (ub_block b) (ub_nonce b) (ub_recipient b) (ub_asset_in b) (ub_asset_out b) (ub_amount b) (ub_gas_0 b) (ub_min_price b) (ub_deadline b) (ub_signing_key b).
Definition ub_partial (b : UserOrderBuilder) : UserOrderBuilder :=
  mkUserOrderBuilder (ub_is_standing b) false (ub_exact_in b) (ub_block b) (ub_nonce b) (ub_recipient b) (ub_asset_in b) (ub_asset_out b) (ub_amount b) (ub_gas_0 b) (ub_min_price b) (ub_deadline b) (ub_signing_key b).
Definition ub_set_is_exact (x : bool) (b : UserOrderBuilder) : UserOrderBuilder :=
  mkUserOrderBuilder (ub_is_standing b) x (ub_exact_in b) (ub_block b) (ub_nonce b) (ub_recipient b) (ub_asset_in b) (ub_asset_out b) (ub_amount b) (ub_gas_0 b) (ub_min_price b) (ub_deadline b) (ub_signing_key b).
Definition ub_set_block (x : Z) (b : UserOrderBuilder) : UserOrderBuilder :=
  mkUserOrderBuilder (ub_is_standing b) (ub_is_exact b) (ub_exact_in b) x (ub_nonce b) (ub_recipient b) (ub_asset_in b) (ub_asset_out b) (ub_amount b) (ub_gas_0 b) (ub_min_price b) (ub_deadline b) (ub_signing_key b).
Definition ub_set_deadline (x : Z) (b : UserOrderBuilder) : UserOrderBuilder :=
  mkUserOrderBuilder (ub_is_standing b) (ub_is_exact b) (ub_exact_in b) (ub_block b) (ub_nonce b) (ub_recipient b) (ub_asset_in b) (ub_asset_out b) (ub_amount b) (ub_gas_0 b) (ub_min_price b) x (ub_signing_key b).
Definition ub_set_nonce (x : Z) (b : UserOrderBuilder) : UserOrderBuilder :=
  mkUserOrderBuilder (ub_is_standing b) (ub_is_exact b) (ub_exact_in b) (ub_block b) x (ub_recipient b) (ub_asset_in b) (ub_asset_out b) (ub_amount b) (ub_gas_0 b) (ub_min_price b) (ub_deadline b) (ub_signing_key b).
Definition ub_set_recipient (x : Address) (b : UserOrderBuilder) : UserOrderBuilder :=
  mkUserOrderBuilder (ub_is_standing b) (ub_is_exact b) (ub_exact_in b) (ub_block b) (ub_nonce b) x (ub_asset_in b) (ub_asset_out b) (ub_amount b) (ub_gas_0 b) (ub_min_price b) (ub_deadline b) (ub_signing_key b).
Definition ub_set_asset_in (x : Address) (b : UserOrderBuilder) : UserOrderBuilder :=
  mkUserOrderBuilder (ub_is_standing b) (ub_is_exact b) (ub_exact_in b) (ub_block b) (ub_nonce b) (ub_recipient b) x (ub_asset_out b) (ub_amount b) (ub_gas_0 b) (ub_min_price b) (ub_deadline b) (ub_signing_key b).
Definition ub_set_asset_out (x : Address) (b : UserOrderBuilder) : UserOrderBuilder :=
  mkUserOrderBuilder (ub_is_standing b) (ub_is_exact b) (ub_exact_in b) (ub_block b) (ub_nonce b) (ub_recipient b) (ub_asset_in b) x (ub_amount b) (ub_gas_0 b) (ub_min_price b) (ub_deadline b) (ub_signing_key b).
Definition ub_set_amount (x : Z) (b : UserOrderBuilder) : UserOrderBuilder :=
  mkUserOrderBuilder (ub_is_standing b) (ub_is_exact b) (ub_exact_in b) (ub_block b) (ub_nonce b) (ub_recipient b) (ub_asset_in b) (ub_asset_out b) x (ub_gas_0 b) (ub_min_price b) (ub_deadline b) (ub_signing_key b).
Definition ub_set_exact_in (x : bool) (b : UserOrderBuilder) : UserOrderBuilder :=
  mkUserOrderBuilder (ub_is_standing b) (ub_is_exact b) x (ub_block b) (ub_nonce b) (ub_recipient b) (ub_asset_in b) (ub_asset_out b) (ub_amount b) (ub_gas_0 b) (ub_min_price b) (ub_deadline b) (ub_signing_key b).
Definition ub_set_min_price (x : Z) (b : UserOrderBuilder) : UserOrderBuilder :=
  mkUserOrderBuilder (ub_is_standing b) (ub_is_exact b) (ub_exact_in b) (ub_block b) (ub_nonce b) (ub_recipient b) (ub_asset_in b) (ub_asset_out b) (ub_amount b) (ub_gas_0 b) x (ub_deadline b) (ub_signing_key b).
Definition ub_set_signing_key (x : option AngstromSigner) (b : UserOrderBuilder) : UserOrderBuilder :=
  mkUserOrderBuilder (ub_is_standing b) (ub_is_exact b) (ub_exact_in b) (ub_block b) (ub_nonce b) (ub_recipient b) (ub_asset_in b) (ub_asset_out b) (ub_amount b) (ub_gas_0 b) (ub_min_price b) (ub_deadline b) x.
Definition ub_gas_price_asset_zero (x : Z) (b : UserOrderBuilder) : UserOrderBuilder :=
  mkUserOrderBuilder (ub_is_standing b) (ub_is_exact b) (ub_exact_in b) (ub_block b) (ub_nonce b) (ub_recipient b) (ub_asset_in b) (ub_asset_out b) (ub_amount b) (Some x) (ub_min_price b) (ub_deadline b) (ub_signing_key b).

(** A bid pays with the higher of the two default addresses. *)
Definition ub_bid (high low : Address) (b : UserOrderBuilder) : UserOrderBuilder :=
  ub_set_asset_out low (ub_set_asset_in high b).
Definition ub_ask (high low : Address) (b : UserOrderBuilder) : UserOrderBuilder :=
  ub_set_asset_in low (ub_set_asset_out high b).
Definition ub_is_bid (high low : Address) (bid : bool) (b : UserOrderBuilder) : UserOrderBuilder :=
  if bid then ub_bid high low b else ub_ask high low b.

Definition ub_max_gas (gas : Z) (b : UserOrderBuilder) : UserOrderBuilder :=
  if gas =? 0 then b else ub_gas_price_asset_zero gas b.

Definition ub_bid_min_price (p : Z) (b : UserOrderBuilder) : M UserOrderBuilder :=
  let* p := Ray.inv_ray_round p true in Ok (ub_set_min_price p b).

(** A fifth of the order in token 0; makes a partial order exact in. *)
Definition get_max_fee_zero (b : UserOrderBuilder) : M (Z * UserOrderBuilder) :=
  let b := if negb (ub_is_exact b) then ub_set_exact_in true b else b in
  match ub_gas_0 b with
  | Some amt => Ok (amt, b)
  | None =>
      if ub_asset_in b <? ub_asset_out b then
        if ub_exact_in b then Ok (ub_amount b / 5, b) else
        if ub_min_price b =? 0 then Ok (1, b) else
        let* q := Ray.inverse_quantity (ub_min_price b) (ub_amount b) true in Ok (q / 5, b)
      else if ub_exact_in b then
        if ub_min_price b =? 0 then Ok (1, b) else
        let* q := Ray.mul_quantity (ub_min_price b) (ub_amount b) in
        let* q := uint_from 128 q in Ok (q / 5, b)
      else Ok (ub_amount b / 5, b)
  end.

Definition valid_min_qty (b : UserOrderBuilder) : M (Z * UserOrderBuilder) :=
  let* (max_fee_qty, b) := get_max_fee_zero (ub_set_exact_in true b) in
  if ub_asset_in b <? ub_asset_out b then Ok (max_fee_qty, b) else
  let* q := Ray.inverse_quantity (ub_min_price b) max_fee_qty true in Ok (q, b).

(** [gas_0.unwrap_or_else(get_max_fee_zero)]. *)
Definition max_extra_fee (b : UserOrderBuilder) : M (Z * UserOrderBuilder) :=
  match ub_gas_0 b with Some g => Ok (g, b) | None => get_max_fee_zero b end.

Definition ub_build (b : UserOrderBuilder) : M AllOrders :=
  match ub_is_standing b, ub_is_exact b with
  | true, true =>
      let* (fee, b) := max_extra_fee b in
      let* deadline := uint_from 32 (ub_deadline b) in
      Ok (ExactStanding (sign_if (ub_signing_key b)
        (mkExactStandingOrder 0 (ub_exact_in b) (ub_amount b) fee (ub_min_price b) false (ub_asset_in b)
           (ub_asset_out b) (ub_recipient b) [] (ub_nonce b) deadline default_meta)))
  | true, false =>
      let* (min, b) := valid_min_qty b in
      let* (fee, b) := max_extra_fee b in
      let* deadline := uint_from 32 (ub_deadline b) in
      Ok (PartialStanding (sign_if (ub_signing_key b)
        (mkPartialStandingOrder 0 min (ub_amount b) fee (ub_min_price b) false (ub_asset_in b) (ub_asset_out b)
           (ub_recipient b) [] (ub_nonce b) deadline default_meta)))
  | false, true =>
      let* (fee, b) := max_extra_fee b in
      Ok (ExactFlash (sign_if (ub_signing_key b)
        (mkExactFlashOrder 0 (ub_exact_in b) (ub_amount b) fee (ub_min_price b) false (ub_asset_in b)
           (ub_asset_out b) (ub_recipient b) [] (ub_block b) default_meta)))
  | false, false =>
      let* (fee, b) := max_extra_fee b in
      let* (min, b) := valid_min_qty b in
      Ok (PartialFlash (sign_if (ub_signing_key b)
        (mkPartialFlashOrder 0 min (ub_amount b) fee (ub_min_price b) false (ub_asset_in b) (ub_asset_out b)
           (ub_recipient b) [] (ub_block b) default_meta)))
  end.

(** ** The other side of an order; [sk] is the fresh signer *)

Definition flip_exact_standing (sk : AngstromSigner) (o : ExactStandingOrder) : ExactStandingOrder :=
  sign_meta sk (mkExactStandingOrder (es_ref_id o) (negb (es_exact_in o)) (es_amount o) (es_max_extra_fee_asset0 o)
    (es_min_price o) (es_use_internal o) (es_asset_out o) (es_asset_in o) (es_recipient o) (es_hook_data o)
    (es_nonce o) (es_deadline o) (es_meta o)).

Definition flip_exact_flash (sk : AngstromSigner) (o : ExactFlashOrder) : ExactFlashOrder :=
  sign_meta sk (mkExactFlashOrder (ef_ref_id o) (negb (ef_exact_in o)) (ef_amount o) (ef_max_extra_fee_asset0 o)
    (ef_min_price o) (ef_use_internal o) (ef_asset_out o) (ef_asset_in o) (ef_recipient o) (ef_hook_data o)
    (ef_valid_for_block o) (ef_meta o)).

(** The amounts of a partial order go through its price. *)
Definition flip_partial_standing (sk : AngstromSigner) (o : PartialStandingOrder) : M PartialStandingOrder :=
  let* amount_out_max := Ray.mul_quantity (ps_min_price o) (ps_max_amount_in o) in
  let* min := Ray.mul_quantity (ps_min_price o) (ps_min_amount_in o) in
  let* min := uint_from 128 min in
  let* amount_out_max := uint_from 128 amount_out_max in
  Ok (sign_meta sk (mkPartialStandingOrder (ps_ref_id o) min amount_out_max amount_out_max (ps_min_price o)
    (ps_use_internal o) (ps_asset_out o) (ps_asset_in o) (ps_recipient o) (ps_hook_data o) (ps_nonce o)
    (ps_deadline o) (ps_meta o))).

Definition flip_partial_flash (sk : AngstromSigner) (o : PartialFlashOrder) : M PartialFlashOrder :=
  let* amount_out_max := Ray.mul_quantity (pf_min_price o) (pf_max_amount_in o) in
  let* min := Ray.mul_quantity (pf_min_price o) (pf_min_amount_in o) in
  let* min := uint_from 128 min in
  let* amount_out_max := uint_from 128 amount_out_max in
  Ok (sign_meta sk (mkPartialFlashOrder (pf_ref_id o) min amount_out_max amount_out_max (pf_min_price o)
    (pf_use_internal o) (pf_asset_out o) (pf_asset_in o) (pf_recipient o) (pf_hook_data o) (pf_valid_for_block o)
    (pf_meta o))).

Definition flip_standing (sk : AngstromSigner) (o : StandingVariants) : M StandingVariants :=
  match o with
  | StandingPartial s => let* s := flip_partial_standing sk s in Ok (StandingPartial s)
  | StandingExact s => Ok (StandingExact (flip_exact_standing sk s))
  end.

Definition flip_flash (sk : AngstromSigner) (o : FlashVariants) : M FlashVariants :=
  match o with
  | FlashPartial s => let* s := flip_partial_flash sk s in Ok (FlashPartial s)
  | FlashExact s => Ok (FlashExact (flip_exact_flash sk s))
  end.

Definition flip_vanilla (sk : AngstromSigner) (o : GroupedVanillaOrder) : M GroupedVanillaOrder :=
  match o with
  | VanillaStanding s => let* s := flip_standing sk s in Ok (VanillaStanding s)
  | VanillaKillOrFill s => let* s := flip_flash sk s in Ok (VanillaKillOrFill s)
  end.

Definition flip_stored {O} (flip : O -> M O) (o : OrderWithStorageData O) : M (OrderWithStorageData O) :=
  let* flipped := flip (order o) in
  Ok (mkOrderWithStorageData flipped (priority_data o) (invalidates o) (pool_id o) (currently_invalid o)
        (negb (osd_is_bid o)) (is_valid o) (valid_block o) (order_id o) (tob_reward o)).

End Builder.

(** ** Hook flags *)

Inductive UniswapFlags :=
| BeforeInitialize | AfterInitialize | BeforeAddLiquidity | AfterAddLiquidity | BeforeRemoveLiquidity
| AfterRemoveLiquidity | BeforeSwap | AfterSwap | BeforeDonate | AfterDonate | BeforeSwapReturnsDelta
| AfterSwapReturnsDelta | AfterAddLiquidityReturnsDelta | AfterRemoveLiquidityReturnsDelta.

Definition flags_mask : Z := uint_sub 160 (Z.shiftl 1 14) 1.

Definition flag_bit (f : UniswapFlags) : Z :=
  match f with
  | BeforeInitialize => 13
  | AfterInitialize => 12
  | BeforeAddLiquidity => 11
  | AfterAddLiquidity => 10
  | BeforeRemoveLiquidity => 9
  | AfterRemoveLiquidity => 8
  | BeforeSwap => 7
  | AfterSwap => 6
  | BeforeDonate => 5
  | AfterDonate => 4
  | BeforeSwapReturnsDelta => 3
  | AfterSwapReturnsDelta => 2
  | AfterAddLiquidityReturnsDelta => 1
  | AfterRemoveLiquidityReturnsDelta => 0
  end.

Definition flag_u160 (f : UniswapFlags) : Z := wrap_u 160 (Z.shiftl 1 (flag_bit f)).
Definition flags_or (f g : UniswapFlags) : Z := Z.lor (flag_u160 f) (flag_u160 g).
Definition or_flag (x : Z) (f : UniswapFlags) : Z := Z.lor x (flag_u160 f).
Definition flag_or (f : UniswapFlags) (x : Z) : Z := Z.lor (flag_u160 f) x.

(** ** Lemmas *)

Section SigningLemmas.
Context {C : OrderCrypto} {K : SigningKey} {S : OrderSigning} {SL : OrderSigningLaws S} {T : Type} `{L : SolStructLaws T}.

Lemma sign_meta_valid sk (o : T) m :
  get_meta (sign_meta sk o) = m ->
  (forall m' (o : T), get_meta (set_meta m' o) = m') ->
  valid_signature m (sign_meta sk o) = true /\ meta_from m = signer_address sk.
Proof.
  intros <- Hget. unfold sign_meta at 1 2 3. rewrite !Hget. split; [| done].
  apply valid_signature_sound. unfold sign_meta. rewrite signing_hash_meta. apply order_signature_recovers.
Qed.

(** Signing again forgets the earlier metadata. *)
Lemma sign_meta_again sk (o : T) m :
  (forall m m' (o : T), set_meta m (set_meta m' o) = set_meta m o) -> sign_meta sk (set_meta m o) = sign_meta sk o.
Proof. intros Hset. unfold sign_meta. by rewrite signing_hash_meta, Hset. Qed.
End SigningLemmas.

(** The fee only sets the direction of the amount. *)
Definition same_order `{SigningKey} (b b' : UserOrderBuilder) : Prop :=
  b' = b \/ b' = ub_set_exact_in true b.

Lemma same_order_trans `{SigningKey} b1 b2 b3 : same_order b1 b2 -> same_order b2 b3 -> same_order b1 b3.
Proof. unfold same_order. intros [-> | ->] [-> | ->]; auto. Qed.

Lemma same_order_key `{SigningKey} b b' : same_order b b' -> ub_signing_key b' = ub_signing_key b.
Proof. by intros [-> | ->]. Qed.

Lemma get_max_fee_zero_same `{SigningKey} b q b' : get_max_fee_zero b = Ok (q, b') -> same_order b b'.
Proof.
  unfold get_max_fee_zero. set (b0 := if negb (ub_is_exact b) then _ else b).
  assert (same_order b b0) as Hs by (unfold b0, same_order; destruct (negb _); auto).
  intros H'. assert (b' = b0) as ->; [| done].
  destruct (ub_gas_0 b0); [by injection H' |].
  destruct (ub_asset_in b0 <? ub_asset_out b0), (ub_exact_in b0); try (by injection H');
    (destruct (ub_min_price b0 =? 0); [by injection H' |]);
    repeat (apply M_bind_Ok in H' as (? & _ & H')); by injection H'.
Qed.

Lemma valid_min_qty_same `{SigningKey} b q b' : valid_min_qty b = Ok (q, b') -> same_order b b'.
Proof.
  unfold valid_min_qty. intros H'. apply M_bind_Ok in H' as ([fee b0] & Hf & H').
  apply get_max_fee_zero_same in Hf. assert (b' = b0) as ->.
  { destruct (_ <? _); [by injection H' |]. apply M_bind_Ok in H' as (? & _ & H'). by injection H'. }
  eapply same_order_trans; [| exact Hf]. by right.
Qed.

Lemma max_extra_fee_same `{SigningKey} b q b' : max_extra_fee b = Ok (q, b') -> same_order b b'.
Proof.
  unfold max_extra_fee. destruct (ub_gas_0 b); [| apply get_max_fee_zero_same]. intros [= _ <-]. by left.
Qed.

(** ** Properties *)

(** An order built with a signing key carries that key's valid signature, in each of the four
    kinds. *)
Theorem built_order_signed {E : OrderEnv} {EL : OrderEnvLaws E} {K : SigningKey} {S : OrderSigning}
    {SL : OrderSigningLaws S} b sk o :
  ub_signing_key b = Some sk -> ub_build b = Ok o -> is_valid_signature o = true /\ from o = signer_address sk.
Proof.
  assert (forall T (SS : SolStruct T) (HM : HasMeta T) (LT : SolStructLaws T) (o : T) b',
    (forall m' (o : T), get_meta (set_meta m' o) = m') -> ub_signing_key b' = Some sk ->
    valid_signature (get_meta (sign_if (ub_signing_key b') o)) (sign_if (ub_signing_key b') o) = true /\
    meta_from (get_meta (sign_if (ub_signing_key b') o)) = signer_address sk) as Hsig.
  { intros T SS HM LT x b' Hget ->. cbn [sign_if]. by apply sign_meta_valid. }
  intros Hk H. unfold ub_build in H. destruct (ub_is_standing b), (ub_is_exact b).
  - apply M_bind_Ok in H as ([q b1] & H1%max_extra_fee_same%same_order_key & H). apply M_bind_Ok in H as (d & _ & H).
    injection H as <-. refine (Hsig ExactStandingOrder _ _ _ _ b1 _ _); [done | congruence].
  - apply M_bind_Ok in H as ([q b1] & H1%valid_min_qty_same%same_order_key & H).
    apply M_bind_Ok in H as ([q2 b2] & H2%max_extra_fee_same%same_order_key & H). apply M_bind_Ok in H as (d & _ & H).
    injection H as <-. refine (Hsig PartialStandingOrder _ _ _ _ b2 _ _); [done | congruence].
  - apply M_bind_Ok in H as ([q b1] & H1%max_extra_fee_same%same_order_key & H).
    injection H as <-. refine (Hsig ExactFlashOrder _ _ _ _ b1 _ _); [done | congruence].
  - apply M_bind_Ok in H as ([q b1] & H1%max_extra_fee_same%same_order_key & H).
    apply M_bind_Ok in H as ([q2 b2] & H2%valid_min_qty_same%same_order_key & H).
    injection H as <-. refine (Hsig PartialFlashOrder _ _ _ _ b2 _ _); [done | congruence].
Qed.

(** Flipping an exact order twice only signs it again. *)
Theorem exact_flip_involutive {E : OrderEnv} {EL : OrderEnvLaws E} {K : SigningKey} {S : OrderSigning}
    sk sk' (o : ExactStandingOrder) (f : ExactFlashOrder) :
  flip_exact_standing sk (flip_exact_standing sk' o) = sign_meta sk o /\
  flip_exact_flash sk (flip_exact_flash sk' f) = sign_meta sk f.
Proof.
  split.
  - transitivity (sign_meta sk (set_meta (es_meta (flip_exact_standing sk' o)) o)); [| by apply sign_meta_again].
    unfold flip_exact_standing at 1. cbn. rewrite negb_involutive. by destruct o.
  - transitivity (sign_meta sk (set_meta (ef_meta (flip_exact_flash sk' f)) f)); [| by apply sign_meta_again].
    unfold flip_exact_flash at 1. cbn. rewrite negb_involutive. by destruct f.
Qed.

Definition all_flags : list UniswapFlags :=
  [BeforeInitialize; AfterInitialize; BeforeAddLiquidity; AfterAddLiquidity; BeforeRemoveLiquidity;
   AfterRemoveLiquidity; BeforeSwap; AfterSwap; BeforeDonate; AfterDonate; BeforeSwapReturnsDelta;
   AfterSwapReturnsDelta; AfterAddLiquidityReturnsDelta; AfterRemoveLiquidityReturnsDelta].

(** The flags are the bits of the mask, one each. *)
Theorem flags_partition_mask :
  fold_left or_flag all_flags 0 = flags_mask /\
  forall f g, f <> g -> Z.land (flag_u160 f) (flag_u160 g) = 0.
Proof. split; [reflexivity |]. intros [] [] Hne; try reflexivity; by destruct Hne. Qed.
