(* ===== verification/CounterMatcher.v ===== *)
(** * The counter matcher

    bin/counter-matcher/src: a bot that watches the order subscription and places, for every
    user order, a partial order on the other side from one of its wallets, at a price ten
    percent lower, so that the user order can be matched.  [WalletAccounting]
    (accounting.rs) knows the balances of a wallet and what its open orders have allocated,
    [OrderManager] (order_manager.rs) the open orders and the user orders they answer.

    The replies of the node to one event are a [Replies]; a random order of the wallets is an
    argument.  Floating-point products are computed exactly: a double times a constant, rounded
    to 53 bits and truncated. *)

From S2P Require Import Prelude Uniswap Ray Donation Orders PoolSwap Book OrderPool ConsensusMessages Assets BundleOrders Bundle Accounts.
From S2P Require Import OrderTracker RpcOrders OrderTools.

(** [(x as f64 * c) as u128] for [c = num / 2 ^ shift], a double. *)
Definition f64_scale (x num shift : Z) : Z := Z.min (u_max 128) (rne53 (rne53 x * num) / 2 ^ shift).

(** [0.2] and [1.1] as doubles. *)
Definition MAX_AMOUNT_PER_TOKEN (x : Z) : Z := f64_scale x 3602879701896397 54.
Definition with_extra (x : Z) : Z := f64_scale x 2476979795053773 51.

(** ** The accounts of a wallet *)

Section Wallet.
Context {K : SigningKey}.

Record WalletAccounting := mkWalletAccounting {
  wa_pk : AngstromSigner;
  wa_tokens : list Address;
  wa_on_chain : gmap Address Z;
  wa_pending : gmap Address (gmap B256 Z);
}.

(** [balances] is what the chain answers for the wallet's address at the block. *)
Definition update_balances_for_block (balances : Address -> Z) (w : WalletAccounting) : M WalletAccounting :=
  let* on_chain := M_fold (fun m t => let* b := uint_from 128 (balances t) in Ok (<[t := b]> m)) (wa_on_chain w) (wa_tokens w) in
  Ok (mkWalletAccounting (wa_pk w) (wa_tokens w) on_chain (wa_pending w)).

Definition WalletAccounting_new (balances : Address -> Z) (pk : AngstromSigner) (tokens : list Address) :
    M WalletAccounting :=
  update_balances_for_block balances (mkWalletAccounting pk tokens ∅ ∅).

Definition pending_of (w : WalletAccounting) (token : Address) : gmap B256 Z := default ∅ (wa_pending w !! token).

Definition wallet_add_order (w : WalletAccounting) (token : Address) (id : B256) (amount : Z) : WalletAccounting :=
  mkWalletAccounting (wa_pk w) (wa_tokens w) (wa_on_chain w)
    (<[token := <[id := amount]> (pending_of w token)]> (wa_pending w)).

Definition wallet_remove_order (w : WalletAccounting) (token : Address) (id : B256) : WalletAccounting :=
  mkWalletAccounting (wa_pk w) (wa_tokens w) (wa_on_chain w)
    (<[token := delete id (pending_of w token)]> (wa_pending w)).

Definition available_funds (w : WalletAccounting) (token : Address) : Z :=
  match wa_on_chain w !! token with
  | None => 0
  | Some amount => fold_left (fun a e => saturating_sub a e) (map_to_list (pending_of w token)).*2 amount
  end.

Definition wallet_can_support (w : WalletAccounting) (token_in : Address) (amount : Z) : bool :=
  amount <=? MAX_AMOUNT_PER_TOKEN (available_funds w token_in).

End Wallet.

(** ** The order manager *)

(** The node's replies: a nonce for an address, whether an order was placed and whether an
    order was cancelled. *)
Record Replies := mkReplies {
  r_nonce : Address -> Z;
  r_placed : AllOrders -> bool;
  r_cancelled : B256 -> bool;
}.

Section Manager.
Context {P : Profile} {E : OrderEnv} {K : SigningKey} {S : OrderSigning}.

Record OrderManager := mkOrderManager {
  cm_block_number : Z;
  cm_wallets : list WalletAccounting;
  cm_active_orders : gmap B256 (nat * AllOrders);
  cm_user_orders : gmap B256 B256;
}.

Definition OrderManager_new (block : Z) (wallets : list WalletAccounting) : OrderManager :=
  mkOrderManager block wallets ∅ ∅.

Definition with_wallet (m : OrderManager) (i : nat) (w : WalletAccounting) : OrderManager :=
  mkOrderManager (cm_block_number m) (<[i := w]> (cm_wallets m)) (cm_active_orders m) (cm_user_orders m).
Definition with_active (m : OrderManager) (a : gmap B256 (nat * AllOrders)) : OrderManager :=
  mkOrderManager (cm_block_number m) (cm_wallets m) a (cm_user_orders m).
Definition with_users (m : OrderManager) (u : gmap B256 B256) : OrderManager :=
  mkOrderManager (cm_block_number m) (cm_wallets m) (cm_active_orders m) u.

(** The indexing [wallets[i]] panics out of range. *)
Definition cm_release (m : OrderManager) (i : nat) (token : Address) (id : B256) : M OrderManager :=
  let* w := unwrap (cm_wallets m !! i) in
  Ok (with_wallet m i (wallet_remove_order w token id)).

(** [None]: no order of ours answers that order.  Otherwise the cancel request that was sent. *)
Definition on_order_cancel (m : OrderManager) (r : Replies) (hash : B256) :
    M (option CancelOrderRequest * OrderManager) :=
  match cm_user_orders m !! hash with
  | None => Ok (None, m)
  | Some our_hash =>
      let m := with_users m (delete hash (cm_user_orders m)) in
      match cm_active_orders m !! our_hash with
      | None => Ok (None, m)
      | Some (i, o) =>
          let m := with_active m (delete our_hash (cm_active_orders m)) in
          let* w := unwrap (cm_wallets m !! i) in
          let addr := signer_address (wa_pk w) in
          let sig := sign_order_message (wa_pk w) (be_bytes 20 addr ++ be_bytes 32 our_hash) in
          let req := mkCancelOrderRequest sig addr our_hash in
          if negb (r_cancelled r our_hash) then Ok (Some req, m)
          else let* m := cm_release m i (token_in o) our_hash in Ok (Some req, m)
      end
  end.

Definition on_expired_order (m : OrderManager) (hash : B256) : M OrderManager :=
  match cm_active_orders m !! hash with
  | Some (i, o) => cm_release (with_active m (delete hash (cm_active_orders m))) i (token_in o) hash
  | None => Ok (with_users m (delete hash (cm_user_orders m)))
  end.

Definition on_filled_order (m : OrderManager) (r : Replies) (o : AllOrders) : M (option CancelOrderRequest * OrderManager) :=
  let hash := order_hash o in
  if is_tob o then Ok (None, m) else
  let* (req, m) := on_order_cancel m r hash in
  match cm_active_orders m !! hash with
  | None => Ok (req, m)
  | Some (i, _) =>
      let* m := cm_release (with_active m (delete hash (cm_active_orders m))) i (token_in o) hash in Ok (req, m)
  end.

(** The tokens, the amount and the price of the order on the other side. *)
Definition counter_terms (o : AllOrders) : M (Address * Address * Z * Z) :=
  let* lp := limit_price o in
  let* price_1_0 := if is_bid o then Ray.inv_ray_round lp true else Ok lp in
  let* amount :=
    if negb (exact_in o) then Ok (amount o)
    else if is_bid o then Ray.inverse_quantity price_1_0 (amount o) true
    else Ray.quantity price_1_0 (amount o) false in
  let* price := Ray.inv_ray_round lp (negb (is_bid o)) in
  let* pct := Ray.generate_ray_decimal 90 2 in
  let* price := Ray.mul_ray price pct in
  Ok (token_out o, token_in o, with_extra amount, price).

(** The counter order: standing with the user's deadline and a fresh nonce, or kill or fill. *)
Definition counter_order (r : Replies) (w : WalletAccounting) (deadline : option Z) (tin tout : Address)
    (amount price : Z) : M AllOrders :=
  let addr := signer_address (wa_pk w) in
  let terms b := ub_set_signing_key (Some (wa_pk w)) (ub_set_recipient addr (ub_set_min_price price
                   (ub_set_asset_out tout (ub_set_asset_in tin (ub_set_amount amount (ub_set_exact_in true b)))))) in
  match deadline with
  | Some d => ub_build (terms (ub_set_deadline d (ub_set_nonce (r_nonce r addr) (ub_standing (ub_partial UserOrderBuilder_default)))))
  | None => ub_build (terms (ub_kill_or_fill (ub_partial UserOrderBuilder_default)))
  end.

(** [order] is the random order in which the wallets are asked; the answer is the order sent. *)
Definition try_create_counter_order (m : OrderManager) (r : Replies) (order : list nat) (o : AllOrders) :
    M (option AllOrders * OrderManager) :=
  let* (tin, tout, amount_needed, price) := counter_terms o in
  match find (fun i => match cm_wallets m !! i with Some w => wallet_can_support w tin amount_needed | None => false end) order with
  | None => Ok (None, m)
  | Some i =>
      let* w := unwrap (cm_wallets m !! i) in
      let* ours := counter_order r w (deadline o) tin tout amount_needed price in
      let our_hash := order_hash ours in
      let m := with_users m (<[order_hash o := our_hash]> (cm_user_orders m)) in
      let m := with_active m (<[our_hash := (i, ours)]> (cm_active_orders m)) in
      if negb (r_placed r ours) then
        let m := with_active m (delete our_hash (cm_active_orders m)) in
        Ok (Some ours, with_users m (delete (order_hash o) (cm_user_orders m)))
      else Ok (Some ours, with_wallet m i (wallet_add_order w tin our_hash amount_needed))
  end.

Definition cm_on_new_order (m : OrderManager) (r : Replies) (order : list nat) (o : AllOrders) :
    M (option AllOrders * OrderManager) :=
  if is_tob o || bool_decide (is_Some (cm_active_orders m !! order_hash o)) then Ok (None, m)
  else try_create_counter_order m r order o.

Definition cm_handle_event (m : OrderManager) (r : Replies) (order : list nat) (event : OrderSubscriptionResult) :
    M OrderManager :=
  match event with
  | ResNewOrder o => let* (_, m) := cm_on_new_order m r order o in Ok m
  | ResFilledOrder _ o => let* (_, m) := on_filled_order m r o in Ok m
  | ResExpiredOrder hash => on_expired_order m hash
  | ResCancelledOrder hash => let* (_, m) := on_order_cancel m r hash in Ok m
  | ResUnfilledOrder _ => Panic
  end.

Definition cm_new_block (m : OrderManager) (balances : Address -> Address -> Z) (block : Z) : M OrderManager :=
  let* ws := M_map (fun w => update_balances_for_block (balances (signer_address (wa_pk w))) w) (cm_wallets m) in
  Ok (mkOrderManager block ws (cm_active_orders m) (cm_user_orders m)).

(** What the loop of [start] selects: an event of the subscription, with the node's replies and
    the random order of the wallets, or a block with its balances. *)
Inductive LoopInput :=
| OrderInput (r : Replies) (order : list nat) (e : OrderSubscriptionResult)
| BlockInput (balances : Address -> Address -> Z) (block : Z).

Definition cm_loop : OrderManager -> list LoopInput -> M OrderManager :=
  M_fold (fun m i =>
    match i with
    | OrderInput r order e => cm_handle_event m r order e
    | BlockInput balances block => cm_new_block m balances block
    end).

(** All user orders, in the order of the table. *)
Definition cm_shutdown (m : OrderManager) (r : Replies) : M OrderManager :=
  M_fold (fun m hash => let* (_, m) := on_order_cancel m r hash in Ok m) m (map_to_list (cm_user_orders m)).*1.

End Manager.

(** ** Lemmas *)

(** *** Floating-point shares *)

Lemma rne53_upper n : 0 <= n -> 0 <= rne53 n /\ 2 ^ 53 * rne53 n <= (2 ^ 53 + 1) * n.
Proof. intros Hn. destruct (rne53_error n Hn) as [H0 He]. change (2 ^ 53) with 9007199254740992 in *. lia. Qed.

(** A wallet offers at most a quarter of what it has. *)
Lemma share_bound x : 0 <= x -> 0 <= MAX_AMOUNT_PER_TOKEN x /\ 4 * MAX_AMOUNT_PER_TOKEN x <= x.
Proof.
  intros Hx. unfold MAX_AMOUNT_PER_TOKEN, f64_scale.
  destruct (rne53_upper x Hx) as [Hm0 Hm]. set (m := rne53 x) in *.
  destruct (rne53_upper (m * 3602879701896397) ltac:(lia)) as [Hn0 Hn]. set (n := rne53 (m * 3602879701896397)) in *.
  assert (0 <= n / 2 ^ 54) as H0 by (apply Z.div_pos; lia).
  pose proof (Z.mul_div_le n (2 ^ 54) ltac:(lia)) as Hd.
  change (2 ^ 53) with 9007199254740992 in *. change (2 ^ 54) with 18014398509481984 in *.
  assert (0 <= u_max 128) by (by vm_compute). lia.
Qed.

Lemma with_extra_nonneg x : 0 <= x -> 0 <= with_extra x.
Proof.
  intros Hx. unfold with_extra, f64_scale. destruct (rne53_upper x Hx) as [Hm0 _].
  destruct (rne53_upper (rne53 x * 2476979795053773) ltac:(lia)) as [Hn0 _].
  assert (0 <= rne53 (rne53 x * 2476979795053773) / 2 ^ 51) by (apply Z.div_pos; lia).
  assert (0 <= u_max 128) by (by vm_compute). lia.
Qed.

(** *** Allocations *)

Definition allocated (p : gmap B256 Z) : Z := sumZ (map_to_list p).*2.
Definition amounts_nonneg (p : gmap B256 Z) : Prop := map_Forall (fun _ a => 0 <= a) p.

Lemma allocated_delete p id : amounts_nonneg p -> allocated (delete id p) <= allocated p.
Proof.
  intros Hp. unfold allocated. destruct (p !! id) as [a |] eqn:Ea.
  - specialize (Hp _ _ Ea). rewrite <- (map_to_list_delete p id a Ea). rewrite fmap_cons. simpl in *. lia.
  - by rewrite delete_id.
Qed.

Lemma allocated_insert p id a : amounts_nonneg p -> allocated (<[id := a]> p) <= allocated p + a.
Proof.
  intros Hp. pose proof (allocated_delete p id Hp) as Hd. rewrite <- insert_delete_eq. unfold allocated in *.
  rewrite map_to_list_insert, fmap_cons by apply lookup_delete_eq. simpl. lia.
Qed.

Lemma allocated_nonneg p : amounts_nonneg p -> 0 <= allocated p.
Proof.
  intros Hp. apply sumZ_nonneg. apply Forall_fmap, Forall_forall. intros [id a] Hin%elem_of_map_to_list. exact (Hp _ _ Hin).
Qed.

Lemma saturating_fold l x : Forall (fun a => 0 <= a) l -> 0 <= x ->
  fold_left (fun a e => saturating_sub a e) l x = Z.max 0 (x - sumZ l).
Proof.
  intros Hl. revert x. induction Hl as [| a l Ha Hl IH]; intros x Hx; cbn [fold_left]; [cbn; lia |].
  pose proof (sumZ_nonneg l Hl). change (sumZ (a :: l)) with (a + sumZ l). rewrite IH; unfold saturating_sub; lia.
Qed.

Lemma allocated_subseteq p q : amounts_nonneg q -> p ⊆ q -> allocated p <= allocated q.
Proof.
  intros Hq Hs. unfold allocated.
  destruct (submseteq_Permutation _ _ (map_to_list_submseteq p q Hs)) as (k & Hk).
  rewrite Hk, fmap_app, sumZ_app.
  assert (0 <= sumZ k.*2); [| lia]. apply sumZ_nonneg, Forall_fmap, Forall_forall.
  intros [id a] Hin. apply (Hq id), elem_of_map_to_list. rewrite Hk. apply elem_of_app. by right.
Qed.

Section Invariant.
Context {P : Profile} {E : OrderEnv} {K : SigningKey} {S : OrderSigning}.
Context (ids : list (AngstromSigner * list Address)) (cap : nat -> Address -> Z).

Definition balance_of (w : WalletAccounting) (t : Address) : Z := default 0 (wa_on_chain w !! t).

(** What a wallet's open orders have allocated is within the cap, as are its balances. *)
Definition wallet_covered (i : nat) (w : WalletAccounting) : Prop :=
  ids !! i = Some (wa_pk w, wa_tokens w) /\
  forall t, amounts_nonneg (pending_of w t) /\ allocated (pending_of w t) <= cap i t /\ 0 <= balance_of w t <= cap i t.

(** An open order is allocated, with its amount, in the wallet that signed it. *)
Definition order_known (m : OrderManager) (h : B256) (i : nat) (o : AllOrders) : Prop :=
  exists w, cm_wallets m !! i = Some w /\ pending_of w (token_in o) !! h = Some (amount o).

Record cm_inv (m : OrderManager) : Prop := mkCmInv {
  ci_known : forall h i o, cm_active_orders m !! h = Some (i, o) -> order_known m h i o;
  ci_covered : forall i w, cm_wallets m !! i = Some w -> wallet_covered i w;
}.

Lemma available_covered i w t :
  wallet_covered i w -> available_funds w t = 0 \/ (0 <= available_funds w t /\ available_funds w t = balance_of w t - allocated (pending_of w t)).
Proof.
  intros [_ Hw]. destruct (Hw t) as (Hn & _ & Hb). unfold available_funds, balance_of in *.
  destruct (wa_on_chain w !! t) as [b |] eqn:Eb; [| by left]. cbn in *.
  rewrite saturating_fold; [unfold allocated; lia | | lia].
  apply Forall_fmap, Forall_forall. intros [id a] Hin%elem_of_map_to_list. exact (Hn _ _ Hin).
Qed.

(** An amount that a wallet supports fits what its balance leaves. *)
Lemma supported_fits i w t a :
  wallet_covered i w -> 0 <= a -> wallet_can_support w t a = true -> a = 0 \/ allocated (pending_of w t) + a <= balance_of w t.
Proof.
  intros Hw Ha Hs%Z.leb_le. destruct (available_covered i w t Hw) as [Hz | Hav].
  - rewrite Hz in Hs. pose proof (share_bound 0 ltac:(lia)). lia.
  - pose proof (share_bound _ (proj1 Hav)). lia.
Qed.

Lemma pending_add w t id a t' :
  pending_of (wallet_add_order w t id a) t' = if decide (t' = t) then <[id := a]> (pending_of w t) else pending_of w t'.
Proof.
  unfold pending_of, wallet_add_order. cbn. destruct (decide (t' = t)) as [-> | Hne].
  - by rewrite lookup_insert_eq.
  - by rewrite lookup_insert_ne by done.
Qed.

Lemma pending_remove w t id t' :
  pending_of (wallet_remove_order w t id) t' = if decide (t' = t) then delete id (pending_of w t) else pending_of w t'.
Proof.
  unfold pending_of, wallet_remove_order. cbn. destruct (decide (t' = t)) as [-> | Hne].
  - by rewrite lookup_insert_eq.
  - by rewrite lookup_insert_ne by done.
Qed.

Lemma add_covered i w t id a :
  wallet_covered i w -> 0 <= a -> wallet_can_support w t a = true -> wallet_covered i (wallet_add_order w t id a).
Proof.
  intros Hw Ha Hs. split; [apply Hw |]. intros t'. rewrite pending_add. change (balance_of (wallet_add_order w t id a) t') with (balance_of w t').
  destruct (proj2 Hw t') as (Hn & Hc & Hb). destruct (decide (t' = t)) as [-> | _]; [| done].
  split; [by apply map_Forall_insert_2 |]. split; [| done].
  pose proof (allocated_insert _ id a Hn). destruct (supported_fits i w t a Hw Ha Hs); lia.
Qed.

Lemma remove_covered i w t id : wallet_covered i w -> wallet_covered i (wallet_remove_order w t id).
Proof.
  intros Hw. split; [apply Hw |]. intros t'. rewrite pending_remove. change (balance_of (wallet_remove_order w t id) t') with (balance_of w t').
  destruct (proj2 Hw t') as (Hn & Hc & Hb). destruct (decide (t' = t)) as [-> | _]; [| done].
  split; [by apply map_Forall_delete |]. pose proof (allocated_delete _ id Hn). lia.
Qed.

(** Replacing a wallet by one that is covered and keeps the allocations of the open orders. *)
Lemma with_wallet_inv m i w w' :
  cm_inv m -> cm_wallets m !! i = Some w -> wallet_covered i w' ->
  (forall h o, cm_active_orders m !! h = Some (i, o) ->
     pending_of w (token_in o) !! h = Some (amount o) -> pending_of w' (token_in o) !! h = Some (amount o)) ->
  cm_inv (with_wallet m i w').
Proof.
  intros [Hk Hc] Hwi Hw' Hkeep. pose proof (lookup_lt_Some _ _ _ Hwi) as Hlt.
  split; unfold order_known; cbn [with_wallet cm_wallets cm_active_orders].
  - intros h j o Ho. destruct (Hk h j o Ho) as (w0 & Hw0 & Hp). destruct (decide (j = i)) as [-> | Hne].
    + exists w'. rewrite list_lookup_insert_eq by done. split; [done |].
      apply Hkeep; [done |]. by replace w with w0 by congruence.
    + exists w0. by rewrite list_lookup_insert_ne by done.
  - intros j w0 Hw0. destruct (decide (j = i)) as [-> | Hne].
    + rewrite list_lookup_insert_eq in Hw0 by done. by injection Hw0 as <-.
    + rewrite list_lookup_insert_ne in Hw0 by done. by eapply Hc.
Qed.

Lemma wallet_at m i w : unwrap (cm_wallets m !! i) = Ok w -> cm_wallets m !! i = Some w.
Proof. by destruct (cm_wallets m !! i); [intros [= ->] |]. Qed.

(** Releasing an order that is no longer active. *)
Lemma release_inv m i t id m' :
  cm_inv m -> cm_active_orders m !! id = None -> cm_release m i t id = Ok m' -> cm_inv m'.
Proof.
  intros Hm Hid H. unfold cm_release in H. apply M_bind_Ok in H as (w & Hw%wallet_at & H). injection H as <-.
  eapply with_wallet_inv; [done | done | eapply remove_covered, ci_covered; done |].
  intros h o Ho Hp. rewrite pending_remove. destruct (decide (token_in o = t)) as [<- | _]; [| done].
  rewrite lookup_delete_ne; [done |]. intros ->. by rewrite Hid in Ho.
Qed.

Lemma drop_active_inv m h : cm_inv m -> cm_inv (with_active m (delete h (cm_active_orders m))).
Proof.
  intros [Hk Hc]. split; [| exact Hc]. intros h' i o Ho. cbn [with_active cm_active_orders] in Ho.
  destruct (decide (h' = h)) as [-> | Hne].
  - by rewrite lookup_delete_eq in Ho.
  - rewrite lookup_delete_ne in Ho by done. exact (Hk _ _ _ Ho).
Qed.

Lemma with_users_inv m u : cm_inv m -> cm_inv (with_users m u).
Proof. intros [Hk Hc]. by split. Qed.

Lemma drop_release_inv m i t id m' :
  cm_inv m -> cm_release (with_active m (delete id (cm_active_orders m))) i t id = Ok m' -> cm_inv m'.
Proof. intros Hm. apply release_inv; [by apply drop_active_inv | apply lookup_delete_eq]. Qed.

Lemma on_order_cancel_inv m r h req m' : cm_inv m -> on_order_cancel m r h = Ok (req, m') -> cm_inv m'.
Proof.
  intros Hm H. unfold on_order_cancel in H. destruct (cm_user_orders m !! h) as [oh |]; [| by injection H as <- <-].
  pose proof (with_users_inv m (delete h (cm_user_orders m)) Hm) as Hm1.
  set (m1 := with_users m _) in *. destruct (cm_active_orders m1 !! oh) as [[i o] |]; [| by injection H as <- <-].
  apply M_bind_Ok in H as (w & _ & H). destruct (negb _); [injection H as <- <-; by apply (drop_active_inv m1) |].
  apply M_bind_Ok in H as (m2 & H2 & H). injection H as <- <-. by eapply drop_release_inv.
Qed.

Lemma on_expired_order_inv m h m' : cm_inv m -> on_expired_order m h = Ok m' -> cm_inv m'.
Proof.
  intros Hm H. unfold on_expired_order in H. destruct (cm_active_orders m !! h) as [[i o] |].
  - by eapply drop_release_inv.
  - injection H as <-. by apply with_users_inv.
Qed.

Lemma on_filled_order_inv m r o req m' : cm_inv m -> on_filled_order m r o = Ok (req, m') -> cm_inv m'.
Proof.
  intros Hm H. unfold on_filled_order in H. destruct (is_tob o); [by injection H as <- <- |].
  apply M_bind_Ok in H as ([req1 m1] & H1 & H). apply (on_order_cancel_inv _ _ _ _ _ Hm) in H1.
  destruct (cm_active_orders m1 !! order_hash o) as [[i o'] |]; [| by injection H as <- <-].
  apply M_bind_Ok in H as (m2 & H2 & H). injection H as <- <-. by eapply drop_release_inv.
Qed.

(** Only a new order opens one. *)
Lemma no_new_active m m' h :
  cm_active_orders m' ⊆ cm_active_orders m -> cm_active_orders m !! h = None -> cm_active_orders m' !! h <> None -> False.
Proof.
  intros Hs Hn H. destruct (cm_active_orders m' !! h) as [x |] eqn:Ex; [| done]. apply H. apply (lookup_weaken _ _ _ _ Ex) in Hs. congruence.
Qed.

Lemma release_active m i t id m' : cm_release m i t id = Ok m' -> cm_active_orders m' = cm_active_orders m.
Proof. intros H. unfold cm_release in H. apply M_bind_Ok in H as (w & _ & H). by injection H as <-. Qed.

Lemma cancel_active m r h req m' : on_order_cancel m r h = Ok (req, m') -> cm_active_orders m' ⊆ cm_active_orders m.
Proof.
  intros H. unfold on_order_cancel in H. destruct (cm_user_orders m !! h) as [oh |]; [| by injection H as <- <-].
  set (m1 := with_users m _) in *. change (cm_active_orders m) with (cm_active_orders m1).
  destruct (cm_active_orders m1 !! oh) as [[i o] |]; [| by injection H as <- <-].
  apply M_bind_Ok in H as (w & _ & H). destruct (negb _); [injection H as <- <-; apply delete_subseteq |].
  apply M_bind_Ok in H as (m2 & H2 & H). injection H as <- <-. rewrite (release_active _ _ _ _ _ H2). apply delete_subseteq.
Qed.

Lemma expired_active m h m' : on_expired_order m h = Ok m' -> cm_active_orders m' ⊆ cm_active_orders m.
Proof.
  intros H. unfold on_expired_order in H. destruct (cm_active_orders m !! h) as [[i o] |]; [| by injection H as <-].
  rewrite (release_active _ _ _ _ _ H). apply delete_subseteq.
Qed.

Lemma filled_active m r o req m' : on_filled_order m r o = Ok (req, m') -> cm_active_orders m' ⊆ cm_active_orders m.
Proof.
  intros H. unfold on_filled_order in H. destruct (is_tob o); [by injection H as <- <- |].
  apply M_bind_Ok in H as ([req1 m1] & H1%cancel_active & H). destruct (cm_active_orders m1 !! order_hash o) as [[i o'] |];
    [| by injection H as <- <-].
  apply M_bind_Ok in H as (m2 & H2 & H). injection H as <- <-. rewrite (release_active _ _ _ _ _ H2). etrans; [apply delete_subseteq | done].
Qed.

(** *** The counter order *)

Lemma inverse_quantity_nonneg p q up x : 0 <= p -> 0 <= q -> Ray.inverse_quantity p q up = Ok x -> 0 <= x.
Proof.
  intros Hp Hq H. destruct (Z.eq_dec p 0) as [-> | Hne]; [by unfold Ray.inverse_quantity in H |].
  by apply inverse_quantity_u128 in H as [? _]; [| lia | done].
Qed.

Lemma inv_ray_round_nonneg p up x : 0 <= p -> Ray.inv_ray_round p up = Ok x -> 0 <= x.
Proof.
  intros Hp H. destruct (Z.eq_dec p 0) as [-> | Hne]; [by destruct up |].
  rewrite inv_ray_round_total in H by lia. injection H as <-. apply inv_fits. lia.
Qed.

Lemma counter_terms_nonneg o tin tout a p :
  order_wf o -> counter_terms o = Ok (tin, tout, a, p) -> 0 <= a.
Proof.
  intros ([Ha _] & _ & Hlp) H. unfold counter_terms in H.
  apply M_bind_Ok in H as (lp & Hl & H). specialize (Hlp _ Hl).
  apply M_bind_Ok in H as (p10 & H10 & H).
  assert (0 <= p10) as Hp10 by (destruct (is_bid o); [by eapply inv_ray_round_nonneg | by injection H10 as <-]).
  apply M_bind_Ok in H as (am & Ham & H). apply M_bind_Ok in H as (pr & _ & H).
  apply M_bind_Ok in H as (pct & _ & H). apply M_bind_Ok in H as (pr' & _ & H). injection H as <- <- <- <-.
  apply with_extra_nonneg. destruct (negb (exact_in o)); [by injection Ham as <- |].
  destruct (is_bid o); [exact (inverse_quantity_nonneg _ _ _ _ Hp10 Ha Ham) |].
  by apply quantity_u128 in Ham as [? _].
Qed.

Lemma same_order_terms b b' : same_order b b' ->
  ub_asset_in b' = ub_asset_in b /\ ub_amount b' = ub_amount b.
Proof. by intros [-> | ->]. Qed.

Lemma built_terms b o : ub_is_exact b = false -> ub_build b = Ok o ->
  token_in o = ub_asset_in b /\ amount o = ub_amount b.
Proof.
  intros He H. unfold ub_build in H. rewrite He in H. destruct (ub_is_standing b).
  - apply M_bind_Ok in H as ([q1 b1] & [H1 H1']%valid_min_qty_same%same_order_terms & H).
    apply M_bind_Ok in H as ([q2 b2] & [H2 H2']%max_extra_fee_same%same_order_terms & H).
    apply M_bind_Ok in H as (d & _ & H). injection H as <-.
    rewrite <- H1, <- H1', <- H2, <- H2'. by destruct (ub_signing_key b2).
  - apply M_bind_Ok in H as ([q1 b1] & [H1 H1']%max_extra_fee_same%same_order_terms & H).
    apply M_bind_Ok in H as ([q2 b2] & [H2 H2']%valid_min_qty_same%same_order_terms & H).
    injection H as <-. rewrite <- H1, <- H1', <- H2, <- H2'. by destruct (ub_signing_key b2).
Qed.

Lemma built_flash_block b o : ub_is_exact b = false -> ub_is_standing b = false -> ub_build b = Ok o ->
  flash_block o = Some (ub_block b).
Proof.
  intros He Hs H. unfold ub_build in H. rewrite He, Hs in H.
  apply M_bind_Ok in H as ([q1 b1] & H1%max_extra_fee_same & H).
  apply M_bind_Ok in H as ([q2 b2] & H2%valid_min_qty_same & H). injection H as <-.
  assert (ub_block b2 = ub_block b) as <- by (by destruct H1 as [-> | ->], H2 as [-> | ->]).
  by destruct (ub_signing_key b2).
Qed.

Lemma counter_order_terms r w d tin tout a p o : counter_order r w d tin tout a p = Ok o ->
  token_in o = tin /\ amount o = a.
Proof. unfold counter_order. destruct d; intros H; by apply built_terms in H. Qed.

(** Placing an order: its allocation and its entry together keep the invariant. *)
Lemma place_inv m i w id o :
  cm_inv m -> cm_wallets m !! i = Some w -> 0 <= amount o -> wallet_can_support w (token_in o) (amount o) = true ->
  cm_inv (with_wallet (with_active m (<[id := (i, o)]> (cm_active_orders m))) i (wallet_add_order w (token_in o) id (amount o))).
Proof.
  intros Hm Hw Ha Hs. pose proof (lookup_lt_Some _ _ _ Hw) as Hlt.
  assert (cm_inv (with_wallet (with_active m (delete id (cm_active_orders m))) i (wallet_add_order w (token_in o) id (amount o)))) as [Hk Hc].
  { eapply with_wallet_inv; [by apply drop_active_inv | done | apply add_covered; [by eapply ci_covered | done | done] |].
    intros h x Hx Hp. rewrite pending_add. destruct (decide (token_in x = token_in o)) as [Et | _]; [| done].
    rewrite lookup_insert_ne; [by rewrite <- Et |]. intros ->. cbn [with_active cm_active_orders] in Hx.
    by rewrite lookup_delete_eq in Hx. }
  split; [| exact Hc]. intros h j x Hx. cbn [with_wallet with_active cm_active_orders] in Hx.
  destruct (decide (h = id)) as [-> | Hne].
  - rewrite lookup_insert_eq in Hx. injection Hx as <- <-. exists (wallet_add_order w (token_in o) id (amount o)).
    cbn [with_wallet with_active cm_wallets]. rewrite list_lookup_insert_eq by done. split; [done |].
    rewrite pending_add, decide_True by done. apply lookup_insert_eq.
  - rewrite lookup_insert_ne in Hx by done. apply (Hk h j x).
    cbn [with_wallet with_active cm_active_orders]. by rewrite lookup_delete_ne by done.
Qed.

Lemma try_create_inv m r ord o x m' :
  order_wf o -> cm_inv m -> try_create_counter_order m r ord o = Ok (x, m') -> cm_inv m'.
Proof.
  intros Hwf Hm H. unfold try_create_counter_order in H.
  apply M_bind_Ok in H as ([[[tin tout] a] p] & Ht%counter_terms_nonneg & H); [| done].
  destruct (find _ ord) as [i |] eqn:Ef; [| by injection H as <- <-].
  apply find_some in Ef as [_ Hs]. apply M_bind_Ok in H as (w & Hw%wallet_at & H). rewrite Hw in Hs.
  apply M_bind_Ok in H as (ours & [Hti Ham]%counter_order_terms & H).
  remember (order_hash ours) as h. remember (order_hash o) as ho.
  apply (with_users_inv _ (<[ho := h]> (cm_user_orders m))) in Hm.
  destruct (negb _); injection H as <- <-.
  - apply with_users_inv. apply (drop_active_inv _ h) in Hm.
    unfold with_active in *. cbn [with_users cm_active_orders cm_block_number cm_wallets cm_user_orders] in *.
    by rewrite delete_insert_eq.
  - rewrite <- Hti, <- Ham. rewrite <- Hti, <- Ham in Hs. rewrite <- Ham in Ht.
    by apply (place_inv (with_users m (<[ho := h]> (cm_user_orders m)))).
Qed.

(** The order of a new-order event fits its Rust types. *)
Definition event_wf (e : OrderSubscriptionResult) : Prop :=
  match e with ResNewOrder o => order_wf o | _ => True end.

Lemma cm_handle_event_inv m r ord e m' : event_wf e -> cm_inv m -> cm_handle_event m r ord e = Ok m' -> cm_inv m'.
Proof.
  intros He Hm H. destruct e as [o | b o | o | h | h]; cbn [cm_handle_event] in H; try done;
    try (apply M_bind_Ok in H as ([x m1] & H & H'); injection H' as <-).
  - unfold cm_on_new_order in H. destruct (_ || _); [by injection H as <- <- |]. by eapply try_create_inv.
  - by eapply on_filled_order_inv.
  - by eapply on_order_cancel_inv.
  - by eapply on_expired_order_inv.
Qed.

(** What wallet [i] has promised of a token in open orders. *)
Definition promised (i : nat) (t : Address) (e : nat * AllOrders) : option Z :=
  if bool_decide (e.1 = i) && bool_decide (token_in e.2 = t) then Some (amount e.2) else None.

Definition open_amount (m : OrderManager) (i : nat) (t : Address) : Z := allocated (omap (promised i t) (cm_active_orders m)).

Lemma open_amount_allocated m i w t :
  cm_inv m -> cm_wallets m !! i = Some w -> open_amount m i t <= allocated (pending_of w t).
Proof.
  intros Hm Hw. apply allocated_subseteq; [by apply (ci_covered m Hm i w Hw) |].
  apply map_subseteq_spec. intros h a. rewrite lookup_omap. intros ([j o] & Ho & Hp')%bind_Some.
  unfold promised in Hp'. cbn [fst snd] in Hp'. destruct (andb _ _) eqn:Eb; [| done].
  apply andb_true_iff in Eb as [->%bool_decide_eq_true <-%bool_decide_eq_true].
  destruct (ci_known m Hm _ _ _ Ho) as (w' & Hw' & Hp). replace w with w' by congruence. congruence.
Qed.

(** An order that an event opens fits what the balance leaves at that moment. *)
Lemma opened_fits m r ord e m' h i o w :
  event_wf e -> cm_inv m -> cm_handle_event m r ord e = Ok m' -> cm_active_orders m !! h = None ->
  cm_active_orders m' !! h = Some (i, o) -> 0 < amount o -> cm_wallets m' !! i = Some w ->
  allocated (pending_of w (token_in o)) <= balance_of w (token_in o).
Proof.
  intros He Hm H Hh Ho Ha Hw. destruct e as [u | b u | u | g | g]; cbn [cm_handle_event] in H; try done;
    try (apply M_bind_Ok in H as ([x m1] & H & H'); injection H' as <-).
  - unfold cm_on_new_order in H. destruct (_ || _); [injection H as <- <-; congruence |]. unfold try_create_counter_order in H.
    apply M_bind_Ok in H as ([[[tin tout] a] p] & Ht%counter_terms_nonneg & H); [| done].
    destruct (find _ ord) as [j |] eqn:Ef; [| injection H as <- <-; congruence].
    apply find_some in Ef as [_ Hs]. apply M_bind_Ok in H as (w0 & Hw0%wallet_at & H). rewrite Hw0 in Hs.
    apply M_bind_Ok in H as (ours & [Hti Ham]%counter_order_terms & H). remember (order_hash ours) as ho. remember (order_hash u) as hu.
    destruct (negb _); injection H as <- <-; cbn [with_wallet with_users with_active cm_active_orders cm_wallets] in Ho, Hw.
    + destruct (decide (h = ho)) as [-> | Hne]; [by rewrite lookup_delete_eq in Ho |].
      rewrite lookup_delete_ne, lookup_insert_ne in Ho by done. congruence.
    + destruct (decide (h = ho)) as [-> | Hne]; [| rewrite lookup_insert_ne in Ho by done; congruence].
      rewrite lookup_insert_eq in Ho. injection Ho as <- <-.
      rewrite list_lookup_insert_eq in Hw by (by eapply lookup_lt_Some). injection Hw as <-.
      rewrite pending_add, decide_True by done. change (balance_of (wallet_add_order w0 tin ho a) (token_in ours)) with (balance_of w0 (token_in ours)).
      pose proof (ci_covered m Hm j w0 Hw0) as Hcov. rewrite Hti.
      pose proof (allocated_insert _ ho a (proj1 (proj2 Hcov tin))). destruct (supported_fits j w0 tin a Hcov Ht Hs); lia.
  - exfalso. apply (no_new_active m m1 h); [| done | by rewrite Ho]. by eapply filled_active.
  - exfalso. apply (no_new_active m m1 h); [| done | by rewrite Ho]. by eapply cancel_active.
  - exfalso. apply (no_new_active m m' h); [| done | by rewrite Ho]. by eapply expired_active.
Qed.

End Invariant.

(** *** Blocks *)

Section Blocks.
Context {P : Profile} {E : OrderEnv} {K : SigningKey} {S : OrderSigning}.

Lemma balances_fold (balances : Address -> Z) ts (m0 m : gmap Address Z) :
  M_fold (fun m t => let* b := uint_from 128 (balances t) in Ok (<[t := b]> m)) m0 ts = Ok m ->
  Forall (fun t => 0 <= balances t) ts /\ forall t, m !! t = if decide (t ∈ ts) then Some (balances t) else m0 !! t.
Proof.
  revert m0. induction ts as [| t ts IH]; intros m0 H; cbn [M_fold] in H.
  - injection H as <-. split; [constructor |]. intros t. by rewrite decide_False by apply not_elem_of_nil.
  - apply M_bind_Ok in H as (m1 & H1 & H). apply M_bind_Ok in H1 as (b & Hb & H1). injection H1 as <-.
    apply uint_from_Ok in Hb as [-> [Hr _]]. destruct (IH _ H) as [Hf Hm]. split; [by constructor |]. intros t'.
    rewrite Hm. destruct (decide (t' ∈ ts)) as [Hin | Hn]; [by rewrite decide_True by by apply list_elem_of_further |].
    destruct (decide (t' = t)) as [-> | Hne]; [rewrite lookup_insert_eq, decide_True by apply list_elem_of_here; done |].
    rewrite lookup_insert_ne, decide_False by (done || rewrite elem_of_cons; tauto). done.
Qed.

Lemma update_balances_spec balances w w' :
  update_balances_for_block balances w = Ok w' ->
  wa_pk w' = wa_pk w /\ wa_tokens w' = wa_tokens w /\ wa_pending w' = wa_pending w /\
  forall t, balance_of w' t = (if decide (t ∈ wa_tokens w) then balances t else balance_of w t) /\
    (t ∈ wa_tokens w -> 0 <= balances t).
Proof.
  intros H. unfold update_balances_for_block in H. apply M_bind_Ok in H as (m & Hm & H). injection H as <-.
  apply balances_fold in Hm as [Hf Hm]. split; [done |]. split; [done |]. split; [done |]. intros t.
  unfold balance_of. cbn [wa_on_chain]. rewrite Hm. split; [by destruct (decide _) |]. by apply (proj1 (Forall_forall _ _) Hf).
Qed.

(** The largest balance of a token that a wallet has had, at the start or at a block. *)
Definition wallet_peak (w : WalletAccounting) (inputs : list LoopInput) (t : Address) : Z :=
  fold_left (fun b i => match i with
    | BlockInput balances _ => if decide (t ∈ wa_tokens w) then Z.max b (balances (signer_address (wa_pk w)) t) else b
    | OrderInput _ _ _ => b
    end) inputs (balance_of w t).

Definition peaks (ws : list WalletAccounting) (inputs : list LoopInput) (i : nat) (t : Address) : Z :=
  match ws !! i with Some w => wallet_peak w inputs t | None => 0 end.

Definition identities (ws : list WalletAccounting) : list (AngstromSigner * list Address) := map (fun w => (wa_pk w, wa_tokens w)) ws.

Lemma M_map_lookup {X Y} (f : X -> M Y) l r i :
  M_map f l = Ok r -> match l !! i, r !! i with Some x, Some y => f x = Ok y | None, None => True | _, _ => False end.
Proof.
  revert r i. induction l as [| x l IH]; intros r i H; cbn in H; [by injection H as <- |].
  apply M_bind_Ok in H as (y & Hy & H). apply M_bind_Ok in H as (ys & Hys & H). injection H as <-. destruct i; [done | exact (IH ys i Hys)].
Qed.

Lemma new_block_inv ws seen m balances block m' :
  cm_inv (identities ws) (peaks ws seen) m -> cm_new_block m balances block = Ok m' ->
  cm_inv (identities ws) (peaks ws (seen ++ [BlockInput balances block])) m'.
Proof.
  intros [Hk Hc] H. unfold cm_new_block in H. apply M_bind_Ok in H as (ws' & Hws & H). injection H as <-.
  assert (Hl : forall i, match cm_wallets m !! i, ws' !! i with
    | Some w, Some w' => update_balances_for_block (balances (signer_address (wa_pk w))) w = Ok w'
    | None, None => True | _, _ => False end) by (intros i; by apply M_map_lookup).
  split; cbn [cm_active_orders cm_wallets].
  - intros h i o Ho. destruct (Hk h i o Ho) as (w & Hw & Hp). specialize (Hl i). rewrite Hw in Hl.
    unfold order_known. cbn [cm_wallets]. destruct (ws' !! i) as [w' |]; [| done]. exists w'. split; [done |].
    apply update_balances_spec in Hl as (_ & _ & Hpend & _). unfold pending_of. by rewrite Hpend.
  - intros i w' Hw'. specialize (Hl i). rewrite Hw' in Hl. destruct (cm_wallets m !! i) as [w |] eqn:Hw; [| done].
    destruct (Hc i w Hw) as [Hid Hcov]. apply update_balances_spec in Hl as (Hpk & Htk & Hpend & Hbal). split; [by rewrite Hpk, Htk |].
    intros t. destruct (Hcov t) as (Hn & Ha & Hb). destruct (Hbal t) as [Hb1 Hb2]. unfold pending_of in *. rewrite Hpend, Hb1.
    unfold peaks, identities in *. apply list_lookup_fmap_Some in Hid as (w0 & Hid & Hw0).
    rewrite Hw0 in *. injection Hid as Ep Et. unfold wallet_peak in *. rewrite fold_left_app. cbn [fold_left]. rewrite <- Et, <- Ep in *.
    split; [done |]. destruct (decide (t ∈ wa_tokens w)) as [Hin | _]; [specialize (Hb2 Hin) |]; lia.
Qed.

(** The orders of new-order events fit their Rust types; blocks may bring any balances. *)
Definition input_wf (i : LoopInput) : Prop :=
  match i with OrderInput _ _ e => event_wf e | BlockInput _ _ => True end.

Lemma loop_inv ws inputs seen m m' :
  Forall input_wf inputs -> cm_inv (identities ws) (peaks ws seen) m -> cm_loop m inputs = Ok m' ->
  cm_inv (identities ws) (peaks ws (seen ++ inputs)) m'.
Proof.
  intros Hi. revert seen m. induction Hi as [| i l He Hl IH]; intros seen m Hm H; [injection H as <-; by rewrite app_nil_r |].
  unfold cm_loop in H. cbn [M_fold] in H. apply M_bind_Ok in H as (m1 & H1 & H).
  replace (seen ++ i :: l) with ((seen ++ [i]) ++ l) by by rewrite <- app_assoc. eapply IH; [| exact H].
  destruct i as [r ord e | balances block]; [| by apply new_block_inv with (m := m)].
  apply (cm_handle_event_inv _ _ m r ord e m1); [done | | done].
  assert (Hp : forall i t, peaks ws (seen ++ [OrderInput r ord e]) i t = peaks ws seen i t)
    by (intros; unfold peaks, wallet_peak; by destruct (ws !! _); [rewrite fold_left_app |]).
  destruct Hm as [Hk Hc]. split; [exact Hk |]. intros i w Hw. destruct (Hc i w Hw) as [Hid Hcov]. split; [done |].
  intros t. rewrite Hp. apply Hcov.
Qed.

(** The wallets as the bot starts: their balances read, nothing allocated. *)
Definition new_wallet (w : WalletAccounting) : Prop := exists balances pk tokens, WalletAccounting_new balances pk tokens = Ok w.

Lemma fresh_inv block ws : Forall new_wallet ws -> cm_inv (identities ws) (peaks ws []) (OrderManager_new block ws).
Proof.
  intros Hf. split; [intros h i o Ho; unfold OrderManager_new in Ho; cbn [cm_active_orders] in Ho; by rewrite lookup_empty in Ho |].
  intros i w Hw. cbn [OrderManager_new cm_wallets] in Hw. destruct (Forall_lookup_1 _ _ _ _ Hf Hw) as (balances & pk & tokens & Hn).
  split; [unfold identities; apply list_lookup_fmap_Some; by exists w |]. intros t. unfold peaks. rewrite Hw. cbn [wallet_peak fold_left].
  apply update_balances_spec in Hn as (_ & _ & Hpend & Hbal). cbn [wa_pending wa_tokens] in *. destruct (Hbal t) as [Hb1 Hb2].
  assert (pending_of w t = ∅) as -> by (unfold pending_of; by rewrite Hpend, lookup_empty).
  assert (0 <= balance_of w t) by (rewrite Hb1; destruct (decide _); [by apply Hb2 | done]).
  split; [apply map_Forall_empty |]. unfold allocated. rewrite map_to_list_empty. cbn [fmap list_fmap sumZ foldr]. unfold wallet_peak. cbn. lia.
Qed.

End Blocks.

(** ** Properties *)


(** A refused cancel forgets the open order and keeps its allocation: no later event about that
    order changes the manager, so the wallet never gets the amount back. *)
Theorem refused_cancel_leaks {P : Profile} {E : OrderEnv} {K : SigningKey} {S : OrderSigning} m r hash our_hash i o w :
  cm_user_orders m !! hash = Some our_hash -> cm_active_orders m !! our_hash = Some (i, o) ->
  cm_wallets m !! i = Some w -> r_cancelled r our_hash = false ->
  exists req m', on_order_cancel m r hash = Ok (Some req, m') /\ cm_wallets m' = cm_wallets m /\
    cm_active_orders m' = delete our_hash (cm_active_orders m) /\
    forall m'', on_expired_order m' our_hash = Ok m'' -> cm_wallets m'' = cm_wallets m.
Proof.
  intros Hu Ho Hw Hr. unfold on_order_cancel. rewrite Hu.
  cbn [with_users with_active cm_active_orders cm_wallets cm_user_orders]. rewrite Ho, Hw. cbn [unwrap M_bind]. rewrite Hr.
  cbn [negb]. do 2 eexists. split; [reflexivity |]. split; [done |]. split; [done |].
  intros m'' He. unfold on_expired_order in He. cbn [with_active cm_active_orders] in He.
  rewrite lookup_delete_eq in He. by injection He as <-.
Qed.

(** The answer to a flash order is a kill-or-fill order for block zero, whatever the block. *)
Theorem flash_counter_order_block_zero {P : Profile} {E : OrderEnv} {K : SigningKey} {S : OrderSigning}
    r w tin tout a p o :
  counter_order r w None tin tout a p = Ok o -> flash_block o = Some 0.
Proof.
  unfold counter_order. intros H. by apply built_flash_block in H.
Qed.

(** ** Evaluation *)

#[local] Existing Instance toy_env.
#[local] Existing Instance release.
#[local] Existing Instance unit_key.

Definition toy_signing : OrderSigning := {|
  sign_order_hash sk h := be_bytes 20 sk ++ be_bytes 32 h;
  sign_order_message sk b := be_bytes 20 sk ++ b;
|}.
#[local] Existing Instance toy_signing.

(** A wallet of 1000 of tokens 5 and 8, read at the start. *)
Definition bot_wallets : list WalletAccounting :=
  match WalletAccounting_new (fun _ => 1000) 77 [5; 8] with Ok w => [w] | _ => [] end.

(** A user's standing order asks for token 8 with 50 of token 5 at price one. *)
Definition user_order : AllOrders :=
  ExactStanding (mkExactStandingOrder 0 true 50 1 const_1e27 false 5 8 3 [] 1 100 default_meta).

Definition accept_all : Replies := mkReplies (fun _ => 9) (fun _ => true) (fun _ => true).

(** The order is answered; then a block brings a balance of 40. *)
Definition bot_inputs : list LoopInput :=
  [OrderInput accept_all [0%nat] (ResNewOrder user_order); BlockInput (fun _ _ => 40) 7].

Definition bot_result : OrderManager :=
  match cm_loop (OrderManager_new 6 bot_wallets) bot_inputs with Ok m => m | _ => OrderManager_new 0 [] end.

Lemma bot_new : Forall new_wallet bot_wallets.
Proof. apply Forall_singleton. exists (fun _ => 1000), 77, [5; 8]. reflexivity. Qed.

Lemma bot_inputs_wf : Forall input_wf bot_inputs.
Proof.
  apply Forall_cons. split; [| by apply Forall_singleton]. split; [vm_compute; split; discriminate |].
  split; [vm_compute; split; discriminate |]. intros q. vm_compute. by intros [= <-].
Qed.

Lemma bot_runs : cm_loop (OrderManager_new 6 bot_wallets) bot_inputs = Ok bot_result.
Proof. vm_compute. reflexivity. Qed.

