(* ===== verification/BundleLander.v ===== *)
(** * Orders made from a pool

    bin/sepolia-bundle-lander/src/intent_builder.rs ([PoolIntentBundler]: a bot that trades a
    fraction of its wallets' balances against a pool every block, so that bundles land), the
    order builder of testing-tools/src/order_generator/order_builder.rs and the builder of
    top-of-block orders, testing-tools/src/type_generator/orders/tob.rs.  Both bots swap on the
    node's copy of the pool (UniPool.v) and turn the result into signed orders.

    The replies of the node and the chain are a [LanderReplies]; a reading of the clock, from
    which the bot takes its random numbers, is an argument.  The modifiers of an amount are the
    doubles of the source. *)

From S2P Require Import Prelude Uniswap Ray Donation Orders PoolSwap Book OrderPool ConsensusMessages Assets BundleOrders Bundle.
From S2P Require Import UniPool OrderTools CounterMatcher.

(** ** The builder of top-of-block orders *)

Section TobBuilder.
Context {C : OrderCrypto} {K : SigningKey} {S : OrderSigning} `{!SolStruct TopOfBlockOrder}.

Record ToBOrderBuilder := mkToBOrderBuilder {
  tb_recipient : option Address;
  tb_asset_in : option Address;
  tb_asset_out : option Address;
  tb_quantity_in : option Z;
  tb_quantity_out : option Z;
  tb_max_gas : option Z;
  tb_valid_block : option Z;
  tb_signing_key : option AngstromSigner;
}.

Definition ToBOrderBuilder_new : ToBOrderBuilder := mkToBOrderBuilder None None None None None None None None.

Definition tb_set_max_gas (gas : Z) (b : ToBOrderBuilder) : ToBOrderBuilder :=
  if gas =? 0 then b else
  mkToBOrderBuilder (tb_recipient b) (tb_asset_in b) (tb_asset_out b) (tb_quantity_in b) (tb_quantity_out b) (Some gas)
    (tb_valid_block b) (tb_signing_key b).
Definition tb_set_recipient (x : Address) (b : ToBOrderBuilder) : ToBOrderBuilder :=
  mkToBOrderBuilder (Some x) (tb_asset_in b) (tb_asset_out b) (tb_quantity_in b) (tb_quantity_out b) (tb_max_gas b)
    (tb_valid_block b) (tb_signing_key b).
Definition tb_set_asset_in (x : Address) (b : ToBOrderBuilder) : ToBOrderBuilder :=
  mkToBOrderBuilder (tb_recipient b) (Some x) (tb_asset_out b) (tb_quantity_in b) (tb_quantity_out b) (tb_max_gas b)
    (tb_valid_block b) (tb_signing_key b).
Definition tb_set_asset_out (x : Address) (b : ToBOrderBuilder) : ToBOrderBuilder :=
  mkToBOrderBuilder (tb_recipient b) (tb_asset_in b) (Some x) (tb_quantity_in b) (tb_quantity_out b) (tb_max_gas b)
    (tb_valid_block b) (tb_signing_key b).
Definition tb_set_quantity_in (x : Z) (b : ToBOrderBuilder) : ToBOrderBuilder :=
  mkToBOrderBuilder (tb_recipient b) (tb_asset_in b) (tb_asset_out b) (Some x) (tb_quantity_out b) (tb_max_gas b)
    (tb_valid_block b) (tb_signing_key b).
Definition tb_set_quantity_out (x : Z) (b : ToBOrderBuilder) : ToBOrderBuilder :=
  mkToBOrderBuilder (tb_recipient b) (tb_asset_in b) (tb_asset_out b) (tb_quantity_in b) (Some x) (tb_max_gas b)
    (tb_valid_block b) (tb_signing_key b).
Definition tb_set_valid_block (x : Z) (b : ToBOrderBuilder) : ToBOrderBuilder :=
  mkToBOrderBuilder (tb_recipient b) (tb_asset_in b) (tb_asset_out b) (tb_quantity_in b) (tb_quantity_out b)
    (tb_max_gas b) (Some x) (tb_signing_key b).
Definition tb_set_signing_key (x : option AngstromSigner) (b : ToBOrderBuilder) : ToBOrderBuilder :=
  mkToBOrderBuilder (tb_recipient b) (tb_asset_in b) (tb_asset_out b) (tb_quantity_in b) (tb_quantity_out b)
    (tb_max_gas b) (tb_valid_block b) x.

(** [<] on options: [None] comes first. *)
Definition option_ltb (x y : option Z) : bool :=
  match x, y with
  | None, Some _ => true
  | Some x, Some y => x <? y
  | _, None => false
  end.

(** The gas limit: half the amount of token 0 unless it was set. *)
Definition tb_gas_limit (b : ToBOrderBuilder) : Z :=
  match tb_max_gas b with
  | Some g => g
  | None => if option_ltb (tb_asset_in b) (tb_asset_out b) then default 0 (tb_quantity_in b) / 2
            else default 0 (tb_quantity_out b) / 2
  end.

Definition tb_build (b : ToBOrderBuilder) : TopOfBlockOrder :=
  sign_if (tb_signing_key b)
    (mkTopOfBlockOrder (default 0 (tb_quantity_in b)) (default 0 (tb_quantity_out b)) (tb_gas_limit b) false
       (default 0 (tb_asset_in b)) (default 0 (tb_asset_out b)) (default 0 (tb_recipient b))
       (default 0 (tb_valid_block b)) default_meta).
End TobBuilder.

(** [Result::unwrap]: an error panics. *)
Definition M_unwrap {A} (m : M A) : M A := match m with Ok a => Ok a | _ => Panic end.

(** [u128::try_from(x.abs()).unwrap()] on an [I256]. *)
Definition abs_u128 (x : Z) : M Z := uint_from 128 (Z.abs x).

(** ** The bundle lander *)

(** The replies of the node and of the chain: the gas estimate for book orders or not (an error
    of the connection is [Err], a refused estimate is unwrapped), a fresh nonce, the balance of
    an owner in a token. *)
Record LanderReplies := mkLanderReplies {
  lr_gas : bool -> M Z;
  lr_nonce : Address -> M Z;
  lr_balance : Address -> Address -> Z;
}.

(** The readings of the clock while one book order is made. *)
Record BookClock := mkBookClock {
  bc_exact_in : Z;
  bc_partial : Z;
  bc_modifier : Z;
  bc_seconds : Z;
}.

Section Lander.
Context {P : Profile} {U : UniswapMath} {E : OrderEnv} {K : SigningKey} {S : OrderSigning}.

Record PoolIntentBundler := mkPoolIntentBundler {
  pib_pool : EnhancedUniswapPool;
  pib_block_number : Z;
  pib_keys : list AngstromSigner;
}.

Definition lander_new_block {T : TickBitmap} {N : ChainCalls} (b : PoolIntentBundler) (block : Z) :
    M PoolIntentBundler :=
  let* pool := update_to_block (pib_pool b) (Some block) in
  Ok (mkPoolIntentBundler pool block (pib_keys b)).

Definition gen_range (nanos lower upper : Z) : M Z :=
  if negb (lower <? upper) then Panic else
  let* top := u128_add upper 1 in
  Ok (Z.max (nanos mod top) lower).

Definition random_time_bool (nanos : Z) : bool := nanos mod 2 =? 0.

(** [(amount as f64 * modifier) as u128] for the modifiers [0.98 + m * 1e-2]. *)
Definition random_amount_modifier_time (nanos amount : Z) : Z :=
  match nanos mod 5 with
  | 0 => f64_scale amount 2206763817411543 51
  | 1 => f64_scale amount 4458563631096791 52
  | 2 => f64_scale amount 1 0
  | 3 => f64_scale amount 4548635623644201 52
  | _ => f64_scale amount 2296835809958953 51
  end.

(** The amount to swap, negative for an exact output, and whether token 0 is sold. *)
Definition fetch_direction_and_amounts (b : PoolIntentBundler) (r : LanderReplies) (key : AngstromSigner)
    (pool_price : Z) (exact_in : bool) : M (Z * bool) :=
  let token0_bal := lr_balance r (signer_address key) (token0 (pib_pool b)) in
  let token1_bal := lr_balance r (signer_address key) (token1 (pib_pool b)) in
  if (token0_bal =? 0) || (token1_bal =? 0) then Panic else
  let* t1_with_current_price := Ray.mul_quantity pool_price token0_bal in
  let zfo := token1_bal <? t1_with_current_price in
  let amount :=
    if exact_in then from_raw (if zfo then token0_bal / 30 else token1_bal / 30)
    else wrap_i 256 (- from_raw (if zfo then t1_with_current_price / 30 else token1_bal / 30)) in
  Ok (amount, zfo).

(** The price [n] spacings away, in the direction of the swap. *)
Definition target_price (p : EnhancedUniswapPool) (zfo : bool) (n : Z) : M Z :=
  let* d := checked_i 32 (n * tick_spacing p) in
  let* t := checked_i 32 (if zfo then tick p - d else tick p + d) in
  M_unwrap (get_sqrt_ratio_at_tick t).

Definition at_least_one (gas : Z) : Z := if gas =? 0 then gas + 1 else gas.

Definition generate_tob_intent (b : PoolIntentBundler) (r : LanderReplies) (nanos : Z) : M AllOrders :=
  let p := pib_pool b in
  let* pool_price := Ray.from_sqrt (sqrt_price p) in
  let* gas := lr_gas r false in
  let gas := at_least_one gas in
  let* key := unwrap (head (pib_keys b)) in
  let* (amount, zfo) := fetch_direction_and_amounts b r key pool_price true in
  let* target := target_price p zfo 100 in
  let t_in := if (zfo : bool) then token0 p else token1 p in
  let* (amount0, amount1) := M_unwrap (simulate_swap p t_in amount (Some target)) in
  let* amount0 := abs_u128 amount0 in
  let* amount1 := abs_u128 amount1 in
  let (amount_in, amount_out) := if zfo then (amount0, amount1) else (amount1, amount0) in
  let range := Z.max (amount_in / 100) 101 in
  let* extra := gen_range nanos 100 range in
  let* amount_in := u128_add amount_in extra in
  let* gas := uint_from 128 gas in
  let* block := checked_u 64 (pib_block_number b + 1) in
  Ok (TOB (tb_build (tb_set_valid_block block (tb_set_recipient (signer_address key) (tb_set_quantity_out amount_out
    (tb_set_max_gas gas (tb_set_quantity_in amount_in
      (tb_set_asset_out (if negb zfo then token0 p else token1 p)
        (tb_set_asset_in (if zfo then token0 p else token1 p)
          (tb_set_signing_key (Some key) ToBOrderBuilder_new)))))))))).

Definition angstrom_signer_inner (b : PoolIntentBundler) (r : LanderReplies) (c : BookClock) (key : AngstromSigner) :
    M AllOrders :=
  let p := pib_pool b in
  let* gas := lr_gas r true in
  let gas := uint_mul 256 (at_least_one gas) 2 in
  let* pool_price := Ray.from_sqrt (sqrt_price p) in
  let is_partial := random_time_bool (bc_partial c) in
  let exact_in := if is_partial then true else random_time_bool (bc_exact_in c) in
  let* (amount, zfo) := fetch_direction_and_amounts b r key pool_price exact_in in
  let t_in := if (zfo : bool) then token0 p else token1 p in
  let* target := target_price p zfo 30 in
  let* res := simulate_swap_with_fee p t_in amount (Some target) false in
  let* clearing_price := Ray.from_sqrt (res_sqrt_price_x_96 res) in
  let* pct := Ray.generate_ray_decimal 75 2 in
  let* clearing_price := Ray.mul_ray clearing_price pct in
  let* amount := if eqb zfo exact_in then abs_u128 (res_amount0 res) else abs_u128 (res_amount1 res) in
  let amount := random_amount_modifier_time (bc_modifier c) amount in
  let* clearing_price := if negb zfo then Ray.inv_ray_round clearing_price true else Ok clearing_price in
  let deadline := bc_seconds c + 36 in
  let* nonce := lr_nonce r (signer_address key) in
  let* gas := uint_from 128 gas in
  let* block := checked_u 64 (pib_block_number b + 1) in
  ub_build (ub_set_amount amount (ub_set_block block (ub_set_min_price clearing_price (ub_set_exact_in exact_in
    (ub_set_nonce nonce (ub_set_recipient (signer_address key) (ub_set_deadline deadline (ub_gas_price_asset_zero gas
      (ub_set_is_standing true (ub_set_asset_out (if negb zfo then token0 p else token1 p)
        (ub_set_asset_in (if zfo then token0 p else token1 p) (ub_set_is_exact (negb is_partial)
          (ub_set_signing_key (Some key) UserOrderBuilder_new))))))))))))).

(** One reading of the clock per key. *)
Definition generate_book_intents (b : PoolIntentBundler) (r : LanderReplies) (clocks : list BookClock) :
    M (list AllOrders) :=
  M_map (fun kc => angstrom_signer_inner b r kc.2 kc.1) (combine (pib_keys b) clocks).

Definition generate_orders_for_block (b : PoolIntentBundler) (r : LanderReplies) (clocks : list BookClock) (nanos : Z) :
    M (list AllOrders) :=
  let* all_orders := generate_book_intents b r clocks in
  let* tob := generate_tob_intent b r nanos in
  Ok (all_orders ++ [tob]).

(** [send] is the node's [send_orders]: its answers are only logged. *)
Definition submit_new_orders_to_angstrom {R} (send : list AllOrders -> M (list R)) (b : PoolIntentBundler)
    (r : LanderReplies) (clocks : list BookClock) (nanos : Z) : M unit :=
  let* orders := generate_orders_for_block b r clocks nanos in
  let* _ := send orders in Ok tt.

End Lander.

(** ** The order generator of the test networks *)

Section Generator.
Context {P : Profile} {U : UniswapMath} {E : OrderEnv} {K : SigningKey} {S : OrderSigning}.

Record OrderBuilder := mkOrderBuilder {
  obr_keys : list AngstromSigner;
  obr_t0 : Address;
  obr_t1 : Address;
  obr_pool : EnhancedUniswapPool;
}.

(** One random key, ten times. *)
Definition OrderBuilder_new (key : AngstromSigner) (p : EnhancedUniswapPool) : OrderBuilder :=
  mkOrderBuilder (replicate 10 key) (token0 p) (token1 p) p.

Definition get_token0_token1 (b : OrderBuilder) : Address * Address := (obr_t0 b, obr_t1 b).

(** [price.clamp(MIN_SQRT_RATIO + 1, MAX_SQRT_RATIO - 1)]; [clamp] asserts that the bounds are in order. *)
Definition clamp_price (price : Z) : M Z :=
  let low := uint_add 256 MIN_SQRT_RATIO 1 in
  let high := uint_sub 256 MAX_SQRT_RATIO 1 in
  if high <? low then Panic else Ok (Z.min high (Z.max low price)).

(** [price] is the square-root price of [cur_price]; [extra] is drawn from [100..range] and [k]
    from [0..10]. *)
Definition build_tob_order (b : OrderBuilder) (price block gas : Z) (extra : Z -> Z) (k : nat) : M TopOfBlockOrder :=
  let p := obr_pool b in
  let* price := clamp_price price in
  let zfo := price <? sqrt_price p in
  let t_in := if zfo then token0 p else token1 p in
  let amount_specified := if zfo then i_max 256 - 1 else i_min 256 + 1 in
  let* (amount0, amount1) := M_unwrap (simulate_swap p t_in amount_specified (Some price)) in
  let* amount0 := abs_u128 amount0 in
  let* amount1 := abs_u128 amount1 in
  let (amount_in, amount_out) := if zfo then (amount0, amount1) else (amount1, amount0) in
  let range := Z.max (amount_in / 100) 101 in
  let* amount_in := u128_add amount_in (extra range) in
  let* amount_in := if zfo then u128_add amount_in gas else Ok amount_in in
  let* amount_out := if zfo then Ok amount_out else u128_add amount_out gas in
  Ok (tb_build (tb_set_max_gas gas (tb_set_valid_block block (tb_set_quantity_out amount_out
    (tb_set_quantity_in amount_in (tb_set_asset_out (if negb zfo then token0 p else token1 p)
      (tb_set_asset_in (if zfo then token0 p else token1 p)
        (tb_set_signing_key (obr_keys b !! k) ToBOrderBuilder_new)))))))).

(** The other draws of a user order; the modifier is a double [num / 2 ^ shift]. *)
Record UserDraws := mkUserDraws {
  ud_partial : bool;
  ud_exact_in : bool;
  ud_modifier : Z * Z;
  ud_seconds : Z;
  ud_key : nat;
  ud_standing : bool;
  ud_nonce : Z;
}.

Definition build_user_order (b : OrderBuilder) (price block gas : Z) (d : UserDraws) : M AllOrders :=
  let p := obr_pool b in
  let* price := clamp_price price in
  let zfo := price <? sqrt_price p in
  let t_in := if zfo then token0 p else token1 p in
  let exact_in := ud_exact_in d in
  let amount_specified := if exact_in then i_max 256 - 1 else i_min 256 + 1 in
  let* res := M_unwrap (simulate_swap_with_fee p t_in amount_specified (Some price) false) in
  let* amount0 := abs_u128 (res_amount0 res) in
  let* amount1 := abs_u128 (res_amount1 res) in
  let* price := Ray.from_sqrt (res_sqrt_price_x_96 res) in
  let (amount_in, amount_out) := if zfo then (amount0, amount1) else (amount1, amount0) in
  let* price := if zfo then Ok price else Ray.inv_ray_round price true in
  let* price := Ray.scale_to_fee price (book_fee p) in
  let* pct := Ray.generate_ray_decimal 95 2 in
  let* price := Ray.mul_ray price pct in
  let amount := if exact_in then amount_in else amount_out in
  let amount := f64_scale amount (fst (ud_modifier d)) (snd (ud_modifier d)) in
  let deadline := ud_seconds d + 38 in
  ub_build (ub_set_amount amount (ub_set_block block (ub_set_min_price price (ub_set_exact_in exact_in
    (ub_max_gas gas (ub_set_nonce (ud_nonce d) (ub_set_deadline deadline (ub_set_is_standing (ud_standing d)
      (ub_set_asset_out (if negb zfo then token0 p else token1 p)
        (ub_set_asset_in (if zfo then token0 p else token1 p) (ub_set_is_exact (negb (ud_partial d))
          (ub_set_signing_key (obr_keys b !! ud_key d) UserOrderBuilder_new)))))))))))).

End Generator.

(** ** Lemmas *)

Section SimulationBounds.
Context {P : Profile} {U : UniswapMath} {L : SwapLaws U}.

(** What is left of an exact input only shrinks. *)
Lemma sim_step_left p zfo limit fee s s' :
  0 < sim_remaining s <= i_max 256 -> sim_step p zfo true limit fee s = Ok s' ->
  0 <= sim_remaining s' <= sim_remaining s.
Proof.
  intros Hr H. unfold sim_step in H.
  apply M_bind_Ok in H as ([next init] & _ & H). apply M_bind_Ok in H as (pn & _ & H).
  apply M_bind_Ok in H as ([[[np ain] aout] f] & Hs & H).
  destruct (step_nonneg _ _ _ _ _ _ _ _ _ Hs) as (Hi & _ & Hf).
  destruct (step_exact_in _ _ _ _ _ _ _ _ _ Hs ltac:(lia)) as [Hle _].
  apply M_bind_Ok in H as ([rem calc] & Hrem & H).
  assert (rem = sim_remaining s - (ain + f)) as Hrem'.
  { apply M_bind_Ok in Hrem as (r & Hr1 & Hrem). apply M_bind_Ok in Hrem as (c & _ & Hrem). injection Hrem as <- <-.
    assert (i_max 256 <= u_max 256) by (by vm_compute). assert (i_min 256 <= 0) by (by vm_compute).
    unfold uint_add, wrap_u in Hr1. rewrite Z.mod_small in Hr1 by (unfold u_max in *; lia). rewrite from_raw_id in Hr1 by lia.
    unfold i256_sub in Hr1. rewrite checked_i_Ok in Hr1 by lia. by injection Hr1. }
  destruct (np =? pn).
  - apply M_bind_Ok in H as (liq & _ & H). apply M_bind_Ok in H as (t & _ & H). injection H as <-. cbn [sim_remaining]. lia.
  - destruct (np =? sim_sqrt_price s); cbn [negb] in H; [| apply M_bind_Ok in H as (t & _ & H)];
      injection H as <-; cbn [sim_remaining]; lia.
Qed.

Lemma sim_loop_left n p zfo limit fee s s' :
  0 <= sim_remaining s <= i_max 256 -> sim_loop n p zfo true limit fee s = Some (Ok s') ->
  0 <= sim_remaining s' <= sim_remaining s.
Proof.
  revert s. induction n as [| n IH]; intros s Hs H; cbn [sim_loop] in H.
  - destruct (sim_continues limit s); [done |]. injection H as <-. lia.
  - destruct (sim_continues limit s) eqn:Ec; [| injection H as <-; lia].
    apply andb_true_iff in Ec as [Hne%negb_true_iff%Z.eqb_neq _].
    destruct (sim_step p zfo true limit fee s) as [s1 | |] eqn:E1; [| done..].
    apply sim_step_left in E1; [| lia]. apply IH in H; lia.
Qed.

(** An exact input takes at most what is offered. *)
Lemma exact_input_takes p t_in amount limit a0 a1 :
  0 < amount <= i_max 256 -> simulate_swap p t_in amount limit = Ok (a0, a1) ->
  0 <= (if t_in =? token0 p then a0 else a1) <= amount.
Proof.
  intros Ha H. unfold simulate_swap in H. apply M_bind_Ok in H as (r & H & Hr). injection Hr as <- <-.
  unfold simulate_swap_with_fee in H. destruct (amount =? 0); [done |].
  destruct (limit_rejected _ _ _); [done |]. rewrite (proj2 (Z.ltb_lt 0 amount)) in H by lia.
  destruct (sim_loop _ _ _ _ _ _ _) as [m |] eqn:El; [| done]. apply M_bind_Ok in H as (s & -> & H).
  apply sim_loop_left in El; [| cbn [sim_remaining]; lia]. cbn [sim_remaining] in El.
  assert (i_min 256 <= 0) by (by vm_compute).
  apply M_bind_Ok in H as (used & Hu & H). unfold i256_sub in Hu. rewrite checked_i_Ok in Hu by lia. injection Hu as <-.
  destruct (t_in =? token0 p); cbn [eqb] in H; injection H as <-; cbn [res_amount0 res_amount1]; lia.
Qed.
End SimulationBounds.

Section LanderLemmas.
Context {P : Profile} {U : UniswapMath} {E : OrderEnv} {K : SigningKey} {S : OrderSigning}.

Lemma gen_range_bounds nanos lower upper x :
  0 <= nanos -> 0 <= lower -> upper < u_max 128 -> gen_range nanos lower upper = Ok x -> lower <= x <= upper.
Proof.
  intros Hn Hl Hu H. unfold gen_range in H. destruct (Z.ltb_spec lower upper) as [Hlt |]; [| done]. cbn [negb] in H.
  apply M_bind_Ok in H as (top & Ht & H). unfold u128_add in Ht. rewrite checked_u_Ok in Ht by lia. injection Ht as <-.
  injection H as <-. pose proof (Z.mod_pos_bound nanos (upper + 1) ltac:(lia)). lia.
Qed.

(** A thirtieth of the balance of the token that is sold. *)
Lemma direction_exact_in b r key price a zfo :
  (forall t, u256 (lr_balance r (signer_address key) t)) ->
  fetch_direction_and_amounts b r key price true = Ok (a, zfo) ->
  a = lr_balance r (signer_address key) (if zfo then token0 (pib_pool b) else token1 (pib_pool b)) / 30 /\
  0 <= a <= i_max 256.
Proof.
  intros Hb H. unfold fetch_direction_and_amounts in H. destruct (_ || _); [done |].
  apply M_bind_Ok in H as (t1 & _ & H). injection H as <- <-.
  assert (forall x, u256 x -> 0 <= x / 30 <= i_max 256) as Hd.
  { intros x [H0 H1]. split; [apply Z.div_pos; lia |]. apply Z.div_le_upper_bound; [lia |].
    assert (u_max 256 <= 30 * i_max 256) by (by vm_compute). lia. }
  destruct (_ <? _); (split; [apply from_raw_id | rewrite from_raw_id]); apply Hd, Hb.
Qed.

Lemma abs_u128_Ok x y : abs_u128 x = Ok y -> y = Z.abs x /\ u128 y.
Proof. intros H. apply uint_from_Ok in H as [-> H]. done. Qed.

Lemma M_unwrap_Ok {A} (m : M A) a : M_unwrap m = Ok a -> m = Ok a.
Proof. by destruct m. Qed.

(** What is added to the amount of a swap. *)
Lemma tob_extra_bounds nanos a bal extra :
  0 <= nanos -> u128 bal -> 0 <= a <= bal / 30 -> gen_range nanos 100 (Z.max (a / 100) 101) = Ok extra ->
  100 <= extra /\ a + extra <= bal / 30 + Z.max (bal / 30 / 100) 101 /\ a + extra <= u_max 128 /\
  (105 <= bal -> a + extra <= bal).
Proof.
  intros Hn [Hb0 Hb] [Ha0 Ha] Hx.
  assert (bal / 30 <= u_max 128 / 30) as Hbd by (apply Z.div_le_mono; lia).
  assert (u_max 128 / 30 + u_max 128 / 30 < u_max 128) as Hroom by (by vm_compute).
  assert (101 <= u_max 128 / 30) as H101 by (by vm_compute).
  assert (a / 100 <= bal / 30 / 100) as Hmono by (apply Z.div_le_mono; lia).
  assert (bal / 30 / 100 <= bal / 30) as Hdec by (apply Z.div_le_upper_bound; lia).
  apply gen_range_bounds in Hx; [| lia | lia | lia]. split_and!; [lia | lia | lia |]. intros H105.
  assert (30 * (bal / 30) <= bal) by (apply Z.mul_div_le; lia). lia.
Qed.

(** A built top-of-block order carries the signature of its key. *)
Lemma tb_build_signed {EL : OrderEnvLaws E} {SL : OrderSigningLaws S} b sk :
  tb_signing_key b = Some sk ->
  is_valid_signature (TOB (tb_build b)) = true /\ from (TOB (tb_build b)) = signer_address sk.
Proof. intros Hk. unfold tb_build. rewrite Hk. cbn [sign_if]. by apply sign_meta_valid. Qed.

Lemma tb_build_fields b :
  tob_quantity_in (tb_build b) = default 0 (tb_quantity_in b) /\ tob_quantity_out (tb_build b) = default 0 (tb_quantity_out b) /\
  tob_asset_in (tb_build b) = default 0 (tb_asset_in b) /\ tob_asset_out (tb_build b) = default 0 (tb_asset_out b) /\
  tob_valid_for_block (tb_build b) = default 0 (tb_valid_block b).
Proof. unfold tb_build. by destruct (tb_signing_key b). Qed.

End LanderLemmas.

(** ** Properties *)

(** The bot's top-of-block order pays more than the pool asks and what its wallet has.  When
    an order is made it is the first key's, validly signed and for the next block; it sells the
    token the direction says, asks for exactly what the pool gives for its swap, and offers
    at least 100 more than the pool takes, but at most a thirtieth of the wallet's balance plus
    the larger of 101 and a hundredth of that: from a balance of 105 on the wallet can pay. *)
Theorem tob_intent_pays {P : Profile} {U : UniswapMath} {L : SwapLaws U} {E : OrderEnv} {EL : OrderEnvLaws E}
    {K : SigningKey} {S : OrderSigning} {SL : OrderSigningLaws S} b r nanos key o :
  head (pib_keys b) = Some key -> token0 (pib_pool b) <> token1 (pib_pool b) ->
  (forall t, u128 (lr_balance r (signer_address key) t)) -> 0 <= nanos -> 0 <= pib_block_number b < u_max 64 ->
  generate_tob_intent b r nanos = Ok o ->
  exists (zfo : bool) tob target a0 a1, o = TOB tob /\
    let p := pib_pool b in
    let t_in := if zfo then token0 p else token1 p in
    let bal := lr_balance r (signer_address key) t_in in
    is_valid_signature o = true /\ from o = signer_address key /\
    tob_valid_for_block tob = pib_block_number b + 1 /\
    tob_asset_in tob = t_in /\ tob_asset_out tob = (if zfo then token1 p else token0 p) /\
    simulate_swap p t_in (bal / 30) (Some target) = Ok (a0, a1) /\
    tob_quantity_out tob = Z.abs (if zfo then a1 else a0) /\
    Z.abs (if zfo then a0 else a1) + 100 <= tob_quantity_in tob <= bal / 30 + Z.max (bal / 30 / 100) 101 /\
    (105 <= bal -> tob_quantity_in tob <= bal).
Proof.
  intros Hkey Hne Hbal Hn Hblk H. unfold generate_tob_intent in H.
  apply M_bind_Ok in H as (price & _ & H). apply M_bind_Ok in H as (gas & _ & H).
  rewrite Hkey in H. cbn [unwrap M_bind] in H. apply M_bind_Ok in H as ([amount zfo] & Hd & H).
  apply direction_exact_in in Hd as [Ha Ham]; [| intros t; pose proof (Hbal t) as [? ?]; assert (u_max 128 <= u_max 256) by (by vm_compute); split; lia].
  apply M_bind_Ok in H as (target & _ & H). apply M_bind_Ok in H as ([a0 a1] & Hsim%M_unwrap_Ok & H).
  apply M_bind_Ok in H as (x0 & [-> _]%abs_u128_Ok & H). apply M_bind_Ok in H as (x1 & [-> _]%abs_u128_Ok & H).
  set (p := pib_pool b) in *. set (t_in := if zfo then token0 p else token1 p) in *.
  set (bal := lr_balance r (signer_address key) t_in) in *.
  assert (0 < amount) as Hpos.
  { destruct (Z.eq_dec amount 0) as [-> | ]; [done | lia]. }
  pose proof (exact_input_takes _ _ _ _ _ _ (conj Hpos (proj2 Ham)) Hsim) as Htake.
  assert ((t_in =? token0 p) = zfo) as Hz by (unfold t_in; destruct zfo; [apply Z.eqb_refl | by apply Z.eqb_neq]).
  rewrite Hz in Htake. clear Hz.
  set (a_in := if zfo then a0 else a1) in *. set (a_out := if zfo then a1 else a0).
  assert ((if zfo then (Z.abs a0, Z.abs a1) else (Z.abs a1, Z.abs a0)) = (Z.abs a_in, Z.abs a_out)) as Hswap
    by (unfold a_in, a_out; by destruct zfo).
  rewrite Hswap in H. clear Hswap. cbv zeta in H. apply M_bind_Ok in H as (extra & Hx & H).
  destruct (tob_extra_bounds nanos (Z.abs a_in) bal extra Hn (Hbal t_in) ltac:(lia) Hx) as (Hx1 & Hx2 & Hx3 & Hx4).
  apply M_bind_Ok in H as (qin & Hq & H). unfold u128_add in Hq. rewrite checked_u_Ok in Hq by lia. injection Hq as <-.
  apply M_bind_Ok in H as (g & _ & H). apply M_bind_Ok in H as (blk & Hb & H).
  rewrite checked_u_Ok in Hb by lia. injection Hb as <-.
  match type of H with Ok (TOB (tb_build ?x)) = _ => set (tb := x) in H end.
  assert (o = TOB (tb_build tb)) as -> by congruence. clear H.
  exists zfo, (tb_build tb), target, a0, a1. split; [done |]. intros p' t_in' bal'. subst p' t_in' bal'.
  assert (tb_signing_key tb = Some key /\ tb_quantity_in tb = Some (Z.abs a_in + extra) /\
          tb_quantity_out tb = Some (Z.abs a_out) /\ tb_asset_in tb = Some t_in /\
          tb_asset_out tb = Some (if negb zfo then token0 p else token1 p) /\
          tb_valid_block tb = Some (pib_block_number b + 1)) as (Hk & Hqi & Hqo & Hai & Hao & Hvb)
    by (unfold tb, tb_set_max_gas; by destruct (g =? 0)).
  destruct (tb_build_signed tb key Hk) as [Hv Hf]. destruct (tb_build_fields tb) as (-> & -> & -> & -> & ->).
  rewrite Hqi, Hqo, Hai, Hao, Hvb. cbn [from_option]. unfold id. rewrite Ha in Hsim. fold a_in a_out t_in bal.
  split_and!; try done; [by destruct zfo | lia].
Qed.

(** A bid for an exact output takes a thirtieth of its token-1 balance as an amount of token 0:
    at the price of 1000 the bot that holds 3000 of token 1 asks for 100 of token 0. *)
Theorem exact_out_bid_mixes_tokens {K : SigningKey} b r key :
  lr_balance r (signer_address key) (token0 (pib_pool b)) = 1 ->
  lr_balance r (signer_address key) (token1 (pib_pool b)) = 3000 ->
  fetch_direction_and_amounts b r key (1000 * const_1e27) false = Ok (-100, false) /\
  Ray.mul_quantity (1000 * const_1e27) 100 = Ok 100000.
Proof. intros H0 H1. unfold fetch_direction_and_amounts. rewrite H0, H1. by split; vm_compute. Qed.

(** The generator panics when the price it is given is the pool's. *)
Theorem generator_panics_at_pool_price {P : Profile} {U : UniswapMath} {E : OrderEnv} {K : SigningKey} {S : OrderSigning}
    b price block gas extra k :
  token0 (obr_pool b) <> token1 (obr_pool b) -> clamp_price price = Ok (sqrt_price (obr_pool b)) ->
  build_tob_order b price block gas extra k = Panic.
Proof.
  intros Hne Hc. unfold build_tob_order. rewrite Hc. cbn [M_bind]. rewrite Z.ltb_irrefl.
  unfold simulate_swap, simulate_swap_with_fee. replace (i_min 256 + 1 =? 0) with false by reflexivity.
  rewrite (proj2 (Z.eqb_neq _ _)) by done. unfold limit_rejected, sim_limit. cbn [andb orb negb].
  by rewrite Z.leb_refl.
Qed.

(** ** Evaluation *)

#[local] Existing Instance toy_env.
#[local] Existing Instance dev.
#[local] Existing Instance linear_math.

Definition lander_key : SigningKey := {|
  ConsensusSignature := Z;
  AngstromSigner := Z;
  signer_id sk := sk;
  signer_address sk := sk mod 2 ^ 160;
  sign_hash_sync sk h := sk + h;
  recover_peer_id s h := Some (s - h);
|}.
#[local] Existing Instance lander_key.

Definition lander_signing : OrderSigning := {|
  sign_order_hash sk h := [sk - h];
  sign_order_message sk b := [sk - Z.of_nat (length b)];
|}.
#[local] Existing Instance lander_signing.

Lemma lander_signing_laws : OrderSigningLaws lander_signing.
Proof. intros sk h. exists (sk - h). split; [done |]. cbn. by rewrite Z.sub_add. Qed.

Definition lander_bot : PoolIntentBundler := mkPoolIntentBundler linear_pool 100 [77].
Definition lander_replies : LanderReplies := mkLanderReplies (fun _ => Ok 0) (fun _ => Ok 5) (fun _ _ => 60000).

Definition lander_order : AllOrders :=
  match generate_tob_intent lander_bot lander_replies 1234567 with
  | Ok o => o
  | _ => TOB (mkTopOfBlockOrder 0 0 0 false 0 0 0 0 default_meta)
  end.

(** The bot sells 2000 of token 20, and offers a bit more. *)
Lemma tob_intent_pays_witness :
  exists tob, lander_order = TOB tob /\ tob_quantity_in tob = 2100 /\ tob_quantity_out tob = 2000 /\
    tob_quantity_in tob <= 60000 /\ is_valid_signature lander_order = true.
Proof.
  destruct (tob_intent_pays (L := linear_laws) (EL := toy_env_laws) (SL := lander_signing_laws) lander_bot lander_replies 1234567 77 lander_order
    ltac:(reflexivity) ltac:(discriminate) ltac:(intros t; vm_compute; split; discriminate) ltac:(lia)
    ltac:(vm_compute; split; [discriminate | reflexivity]) ltac:(vm_compute; reflexivity))
    as (zfo & tob & tgt & a0 & a1 & Ho & Hv & _ & _ & _ & _ & _ & _ & _ & H105).
  assert (match lander_order with TOB t => tob_quantity_in t = 2100 /\ tob_quantity_out t = 2000 | _ => False end) as Hq
    by (vm_compute; split; reflexivity).
  rewrite Ho in Hq. destruct Hq as [Hi Hq]. exists tob. split_and!; [exact Ho | exact Hi | exact Hq | | exact Hv].
  rewrite Hi. lia.
Defined.
